(* ===== verification/_CoqProject ===== *)
-Q . S2P
Prelude.v
Flash.v
SpiFlash.v
SpiffsFlash.v
SpiffsContract.v
Sysparam.v
SysparamLog.v
SysparamGet.v
SysparamWrite.v
SysparamStore.v
SysparamCompact.v
SysparamSet.v
SysparamInit.v
SysparamSpec.v
SysparamContract.v
SysparamValues.v
Rboot.v
RbootImage.v
RbootBoot.v
RbootStage2.v
RbootApi.v
RbootStream.v
RbootVerify.v
RbootConfig.v
Tftp.v
TftpReceive.v
TftpUpdate.v
MqttPacket.v
MqttWire.v
MqttSerial.v
MqttFormat.v
MqttClient.v
MqttNet.v
MqttTopic.v
MqttContract.v
MqttTheorems.v
Gpio.v
EspRegs.v
EspGpio.v
EspInterrupts.v
EspTimer.v
EspTimerContract.v
EspSpi.v
EspSpiBuffer.v
EspSpiContract.v
Pwm.v
PwmContract.v
I2c.v
I2cBus.v
I2cRegs.v
EspI2c.v
Ds3231.v
Ds3231Contract.v
Onewire.v
OnewireSearch.v
OnewireContract.v
OnewireSim.v
Dhcp.v
DhcpContract.v
LwipTimers.v
LwipTimersContract.v
Sntp.v
SntpClock.v
SntpClient.v
Dht.v
DhtContract.v
Bmp280.v
Bmp280Contract.v
Ds18b20.v
Ds18b20Contract.v
Sharpmem.v
SharpmemDraw.v
SharpmemPanel.v
