(* ===== verification/Prelude.v ===== *)
(** * esp-open-rtos: verification development (root file)

    The repository is a FreeRTOS-based system for the ESP8266 with its boot
    loader, drivers and protocol libraries.  The development models the parts
    that keep data or decide what the device does, and proves them correct.

    ** The parts and how they interact

    - The SPI flash driver (open_esplibs/libmain/spi_flash.c) splits writes into
      page programs of the boot ROM.  [SpiFlash] models every routine over a class
      [SpiRom] of the ROM functions.  What it promises to the code above it is the
      interface of [Flash]: the class [FlashDev] of the operations and [FlashOk]
      of their laws (reads return the stored bytes, writes clear bits, erases set
      a sector to 0xff).  [spi_flash_ok] discharges the laws; the sysparam and
      rBoot API theorems are proved against the interface.
    - sysparam (core/sysparam.c) keeps key/value parameters in two flash regions
      as an append-only log with compaction.  [Sysparam] holds the code: each
      function is a computation of the monad [ST (world D)] over the device, the
      static variables [_sysparam_info], the outcomes of the next [malloc] calls
      and the number of live blocks.  [SysparamLog] says which bytes represent a
      log, which logs are well formed and what map of parameters they mean;
      [SysparamGet], [SysparamWrite], [SysparamStore], [SysparamCompact],
      [SysparamSet] and [SysparamInit] follow the functions; [SysparamSpec] and
      [SysparamContract] state them over the abstract map, and [SysparamValues]
      adds the calls for integers and booleans, which store text.
    - The flash glue of SPIFFS (extras/spiffs/esp_spiffs_flash.c, esp_spiffs.c and
      unaligned_memcpy.S) programs the SPI controller directly.  [SpiffsFlash]
      models it over a class [SpiCtl] of the controller and the chip,
      [SpiffsContract] has the theorems.
    - rBoot (bootloader/rboot/rboot.c) checks ROM images and chooses the one to
      start.  [Rboot] models check_image, the GPIO and RTC functions and
      find_image with every compile-time option as a field of [options], over a
      class [Machine] of the ROM functions and registers.  [RbootImage] and
      [RbootBoot] have the theorems.  [RbootStage2] is rboot-stage2a.c, which copies
      the sections of the image to memory, with call_user_start of both stages and
      the theorem of the whole boot.
    - The rBoot API (extras/rboot-ota/rboot-api.c) lets the application configure
      the boot loader, write an image piece by piece and verify it.  [RbootApi]
      models the file, and the RTC memory functions of
      open_esplibs/libmain/user_interface.c that it calls.  [RbootStream],
      [RbootVerify] and [RbootConfig] prove what the calls mean, the last two
      together with the boot loader that reads the same flash.
    - Updates over the air (extras/rboot-ota/ota-tftp.c) are a TFTP server and client
      on top of the rBoot API.  [Tftp] models them over the list of what the network
      delivers; [TftpReceive] proves what a transfer does to the flash, and
      [TftpUpdate] composes it with the API and the boot loader.
    - The DHCP server (extras/dhcpserver/dhcpserver.c) is [Dhcp]: the lease table, the
      options and one turn of the task as a computation on the server's state.
      [DhcpContract] has the invariant and the properties.
    - The MQTT client (extras/paho_mqtt_c) has a packet layer, serializers and a
      client over a socket.  [MqttPacket] is MQTTPacket.c, [MqttSerial] the
      serializers, [MqttClient] MQTTClient.c and MQTTESP8266.c over a class [Env]
      of the socket, the clock and the application's handlers.  [MqttWire] and
      [MqttFormat] relate the buffers to the packets of the specification,
      [MqttNet] gives the laws of the environment and the sending and receiving
      of packets, [MqttTopic] the matching of topics, [MqttContract] the client's
      operations and [MqttTheorems] the properties.
    - The registers of the chip (core/): [EspRegs] is the GPIO, the I/O multiplexer
      and the interrupt dispatch (gpio.h, esp_gpio.c, iomux.h, esp_iomux.c,
      interrupts.h, esp_interrupts.c, esp_gpio_interrupts.c) over a state [soc] of
      registers, handlers and the world outside; [EspGpio] has what a pin drives,
      [EspInterrupts] the dispatch.  [EspTimer] is esp_timer.c and timer.h on the same
      state, with its theorems in [EspTimerContract], and [Pwm] is
      extras/pwm/pwm.c on top of all three ([PwmContract]).
      [EspSpi] is esp_spi.c and spi.h, also on this state; [EspSpiBuffer] gives the
      transfers of one buffer and the class [SpiDevice] of what is at the other end of
      the wires, [EspSpiContract] the properties.
    - The I2C master (extras/i2c/i2c.c) is [I2c], over the class [Pin] of the GPIO
      and delays in [Gpio].  [I2cBus] is a bus of open-drain wires with a device that
      may stretch the clock, and what the bit and byte functions do there;
      [I2cRegs] is a device with a register file, and the class [RegisterDevice] of
      what the transfers promise to the drivers of such devices.  [EspI2c] wires two
      pins of the chip to a bus and discharges the laws from gpio.h.  The clock driver
      (extras/ds3231/ds3231.c) is [Ds3231], proved in [Ds3231Contract] against that
      class, and so is the pressure and temperature sensor (extras/bmp280/bmp280.c), with
      [Bmp280] and [Bmp280Contract].
    - The 1-Wire bus (extras/onewire/onewire.c) is [Onewire], over the same class
      [Pin].  [OnewireSearch] relates the search to the tree of
      addresses and to a bus of devices that follow the protocol,
      [OnewireContract] iterates it, and [OnewireSim] has the concrete bus, the
      checksums and the properties.
    - The humidity sensor (extras/dht/dht.c) is [Dht], over [Pin] too; [DhtContract] has
      the class [DhtLine] of a pin with a sensor that answers, and a concrete one.
    - The thermometers of extras/ds18b20/ds18b20.c are [Ds18b20], over the 1-Wire master;
      [Ds18b20Contract] has the class [ProbeBus] of a line with such thermometers.
    - The Sharp memory display (extras/adafruit_sharpmemory_display) is [Sharpmem]: drawing
      in a frame buffer ([SharpmemDraw]) and the transfer to a panel on the pins of
      [EspRegs] ([SharpmemPanel]).
    - The timeouts of lwIP (lwip/lwip/src/core/timers.c) are a sorted list with relative
      times that the lwIP thread works off.  [LwipTimers] is the list, the loop of the
      thread and the periodic timers of the stack; [LwipTimersContract] has the agenda
      of deadlines that the list refines.
    - The SNTP client (extras/sntp) asks a time server and keeps the time as RTC ticks.
      [Sntp] models sntp.c and sntp_fun.c on top of these timeouts; what can happen
      (the thread waits, a packet arrives, a name is resolved, the application calls)
      is the type [sntp_event].  [SntpClock] has the time, [SntpClient] the requests.

    ** Conventions

    A C integer is a [Z] with its wrap-around written out ([u8], [u16], [u32],
    [s32] below); memory is a list of bytes; a status or result code is an
    inductive type or the integer of the source.  Stateful code is in the monad
    [ST] below, whose [None] means that a loop ran out of the fuel its definition
    gives it, so a theorem with a [Some] or a [wp] is a termination theorem.
    Code that is not in the repository (the boot ROM, the socket, the GPIO, the
    heap) is a class or an argument; its documented behaviour is a class of laws
    or a named hypothesis, and every theorem with a hypothesis has a witness at a
    concrete input.

    ** What the theorems show

    - Flash: a write becomes page programs inside one page each that program
      exactly the bytes (sdk_SPIWrite_program), and every call does what the
      interface says (spi_flash_calls).
    - sysparam: a session of gets, stores and deletes refines the operations of a
      finite map (sysparam_session_refines), and [SysparamContract] has the
      functional behaviour of each call: storing, deleting, getting, compaction,
      creation, start-up, iteration, the static getter and integers.  Two defects are
      theorems: a stale key id after compaction (sysparam_stale_key_id), and a
      failed store that loses the old value (sysparam_full_loses_value).
    - SPI: spi_init configures the controller and the pins (spi_init_configures), and a
      session of transfers exchanges the bytes with the device on the wires
      (spi_session_exchanges); longer transfers than the data registers leave them
      (spi_transfer_in_bounds).
    - lwIP timeouts: the list refines an agenda (timeouts_refine_agenda) and the periodic
      timers stay on it, each once (periodic_timers_stay).
    - SNTP: the client always waits for something that makes it go on
      (sntp_never_stalls); the clock follows the server until the RTC counter wraps
      (sntp_clock_follows, sntp_clock_after_wrap); with fewer servers than before the
      client can be stuck on a null name (sntp_stale_server).
    - rBoot: which images are accepted, that a changed byte is detected, that the
      check returns on any flash, and the order in which ROMs are tried; that an
      empty configuration makes it loop, and that the GPIO test ignores the mode; the
      first good image is loaded section by section and started (rboot_starts_image),
      after the second stage was copied to the instruction RAM, with or without the RTC
      data that the repository's build enables.
    - rBoot API: an image written in any pieces ends up in the flash, the
      application and the boot loader give the same verdict on it, and a ROM the
      application selects is the one booted; a temporary ROM never is.
    - Updates: whatever packets arrive, the server only restarts into an image that
      was verified and the running one is never written (tftp_turn_safe,
      ota_tftp_download_confined); an image that is uploaded with lost and repeated
      packets boots (tftp_update_boots).
    - SPIFFS glue: writes program exactly the bytes, at any alignment, and are read
      back; a write of more than 255 pages hangs.
    - DHCP: a held lease stays with its client until it is released or expires, a
      client that asks is bound to the address it was offered, and all leases expire
      at once when the tick count has passed a lease time.
    - MQTT: the packets are the ones of the specification and are read back; a
      send gives the whole packet or reports a failure; a received message is
      delivered and acknowledged; a packet whose rest arrives in two pieces fails the
      cycle (cycle_short_read); topics match level by level; the keep-alive is
      a small state machine; packet identifiers do not repeat.  Bounds: two reads
      that can store past a buffer are stated with the input that does it.
    - The chip: gpio_enable, gpio_write and gpio_toggle drive a pin as their comments say
      and leave the others alone (gpio_enable_drives), registers stay typed
      (gpio_registers_typed), every pending interrupt is dispatched once and in order
      (isr_handler_dispatches), a timer comes within a count of the time that is asked
      for (timer_set_timeout_programs), and the PWM plays its duty cycle from pwm_init
      to the levels of the pins (pwm_waveform).
    - I2C and DS3231: i2c.c on the GPIO registers stores and reads back
      (i2c_on_gpio_registers); transfers read and write the registers of a device that
      stretches the clock (i2c_register_transfers); the time that is set is the time
      that is read (ds3231_time_roundtrip); ds3231_setFlag updates a register from
      the value of another (ds3231_setFlag_wrong_register).
    - Sensors: the DHT driver reads the bytes that the pulses of the sensor mean
      (dht_reads_sensor); one call reads all the thermometers of a bus, where temperatures
      below zero come out wrong (ds18b20_measures_all); bmp280_init writes the configuration that is asked for
      (bmp280_init_configures), and the temperature it computes is right to a hundredth
      of a degree (bmp280_temperature_accurate).
    - Display: a line is the rounded line (drawLine_exact), rectangles and characters are
      exact (fillRect_exact, drawChar_exact), and after a refresh the panel shows what was
      drawn (sharp_refresh_shows).
    - 1-Wire: the search finds every device once; the checksums are the
      polynomial ones and detect a changed byte.

    ** Fuel

    Loops over the flash get fuel from the size of the region ([region_fuel]: one
    entry takes at least four bytes) or of the chip; the section loops of the boot
    loader and of the API get 257, since a section count is a byte; erasing
    sectors gets their number; the bit loops of the 1-Wire bus have fixed bounds.
    The MQTT loops that wait for the network take the fuel as an argument: a send
    moves at least one byte at each turn, so more fuel than the packet is long is
    enough; the receive calls of a packet that has arrived do not loop.  A TFTP
    transfer takes at most eleven turns for each event of the network, ten of them
    retransmissions.  The polls of the SPI controller's busy bit are an argument too, one
    more than the device needs.

    ** Not modelled

    The FreeRTOS kernel, the protocols of lwIP, mbedTLS, SPIFFS and jsmn are third-party
    code that the modelled code calls through parameters.  Of the system's own code,
    start-up glue, the recreated SDK functions over closed libraries, the drivers of the
    I2S peripheral, the LED strips, the BMP180, the FLIR Lepton and the PCF8574 are left
    out; the connection set-up
    of the MQTT client and the mount functions of esp_spiffs.c are missing from the
    parts that are modelled.  Tasks run one at a time here: the semaphore of sysparam and the
    critical sections are part of the state, but interleavings of several tasks are
    not modelled.  Time is a counter that the environment advances. *)

From Stdlib Require Export ZArith Lia.
From stdpp Require Export prelude list gmap.
From stdpp Require Import sorting.

#[global] Set Default Goal Selector "!".

(** ** Machine integers

    A C integer is a [Z]; [u8], [u16] and [u32] are the conversions to the
    unsigned types of the xtensa target and [s32] the conversion to [int]. *)

Declare Scope esp_scope.
Delimit Scope esp_scope with esp.

Definition u8 (x : Z) : Z := x mod 2 ^ 8.
Definition u16 (x : Z) : Z := x mod 2 ^ 16.
Definition u32 (x : Z) : Z := x mod 2 ^ 32.
Definition s32 (x : Z) : Z := (x + 2 ^ 31) mod 2 ^ 32 - 2 ^ 31.
Definition s16 (x : Z) : Z := (x + 2 ^ 15) mod 2 ^ 16 - 2 ^ 15.

Definition is_byte (b : Z) : Prop := (0 <= b < 256)%Z.

Create HintDb esp.
Create Rewrite HintDb esp_len.

Section machine_integers.
Local Open Scope Z_scope.

Lemma u8_small x : 0 <= x < 2 ^ 8 -> u8 x = x.
Proof. apply Z.mod_small. Qed.
Lemma u16_small x : 0 <= x < 2 ^ 16 -> u16 x = x.
Proof. apply Z.mod_small. Qed.
Lemma u32_small x : 0 <= x < 2 ^ 32 -> u32 x = x.
Proof. apply Z.mod_small. Qed.
Lemma u8_range x : 0 <= u8 x < 256.
Proof. apply (Z.mod_pos_bound x 256). lia. Qed.
Lemma u16_range x : 0 <= u16 x < 65536.
Proof. apply (Z.mod_pos_bound x 65536). lia. Qed.
Lemma u32_range x : 0 <= u32 x < 4294967296.
Proof. apply (Z.mod_pos_bound x 4294967296). lia. Qed.
Lemma s16_small x : -2 ^ 15 <= x < 2 ^ 15 -> s16 x = x.
Proof. intros Hx. unfold s16. rewrite Z.mod_small by lia. lia. Qed.
Lemma s32_small x : - 2 ^ 31 <= x < 2 ^ 31 -> s32 x = x.
Proof. intros ?. unfold s32. rewrite Z.mod_small; lia. Qed.

Lemma testbit_high x n i : 0 <= x < 2 ^ n -> n <= i -> Z.testbit x i = false.
Proof.
  intros Hx Hi. destruct (Z.eq_dec x 0) as [->|]; [apply Z.bits_0|].
  apply Z.bits_above_log2; [lia|]. apply Z.log2_lt_pow2; [lia|].
  eapply Z.lt_le_trans; [apply Hx|]. apply Z.pow_le_mono_r; lia.
Qed.

Lemma land_low_high x n c : 0 <= x < 2 ^ n -> 0 <= n -> Z.land x (Z.shiftl c n) = 0.
Proof.
  intros Hx Hn. apply Z.bits_inj'; intros i Hi. rewrite Z.land_spec, Z.bits_0.
  destruct (Z.ltb_spec i n).
  - rewrite Z.shiftl_spec_low by lia. apply andb_false_r.
  - by rewrite (testbit_high x n i).
Qed.

Lemma lor_low_high x n c : 0 <= x < 2 ^ n -> 0 <= n ->
  Z.lor x (Z.shiftl c n) = x + Z.shiftl c n.
Proof. intros. by rewrite <- Z.add_lor_land, land_low_high, Z.add_0_r. Qed.
End machine_integers.

#[export] Hint Resolve u8_range u16_range u32_range : esp.

(** [wrap_lia] discharges the wrap-arounds that the context shows not to
    happen, then calls [lia]. *)
Ltac wrap_small :=
  repeat match goal with
  | |- context [u32 ?x] => rewrite (u32_small x) by lia
  | |- context [u16 ?x] => rewrite (u16_small x) by lia
  | |- context [u8 ?x] => rewrite (u8_small x) by lia
  | H : context [u32 ?x] |- _ => rewrite (u32_small x) in H by lia
  | H : context [u16 ?x] |- _ => rewrite (u16_small x) in H by lia
  | H : context [u8 ?x] |- _ => rewrite (u8_small x) in H by lia
  end.
Ltac wrap_lia := wrap_small; lia.

(** [zbool] turns the boolean comparisons of [Z] in hypotheses and goal into
    propositions. *)
Ltac zbool :=
  repeat match goal with
  | H : (_ && _) = true |- _ => apply andb_prop in H as [? ?]
  | H : (_ || _) = false |- _ => apply orb_false_elim in H as [? ?]
  | H : negb _ = true |- _ => apply negb_true_iff in H
  | H : negb _ = false |- _ => apply negb_false_iff in H
  | H : (_ <? _)%Z = true |- _ => apply Z.ltb_lt in H
  | H : (_ <? _)%Z = false |- _ => apply Z.ltb_ge in H
  | H : (_ <=? _)%Z = true |- _ => apply Z.leb_le in H
  | H : (_ <=? _)%Z = false |- _ => apply Z.leb_gt in H
  | H : (_ =? _)%Z = true |- _ => apply Z.eqb_eq in H
  | H : (_ =? _)%Z = false |- _ => apply Z.eqb_neq in H
  end.

(** [if_true] and [if_false] decide the first boolean test of the goal. *)
Ltac ztest b v :=
  let E := fresh "E" in
  assert (b = v) as E by
    (first [ apply Z.ltb_lt; lia | apply Z.ltb_ge; lia | apply Z.leb_le; lia
           | apply Z.leb_gt; lia | apply Z.eqb_eq; lia | apply Z.eqb_neq; lia ]);
  rewrite E; clear E.
Ltac zif :=
  repeat match goal with
  | |- context [if ?b then _ else _] => first [ztest b true | ztest b false]
  end.

(** ** Bytes and words *)

(** The [n] bytes of [x], least significant first, and the value of such
    bytes: how the little-endian target stores a [uint16_t] or [uint32_t]. *)
Fixpoint le_bytes (n : nat) (x : Z) : list Z :=
  match n with
  | O => []
  | S n => Z.land x 255 :: le_bytes n (Z.shiftr x 8)
  end.
Fixpoint le_val (bs : list Z) : Z :=
  match bs with
  | [] => 0%Z
  | b :: bs => (b + 256 * le_val bs)%Z
  end.

Section bytes.
Local Open Scope Z_scope.

Lemma land_255 x : Z.land x 255 = x mod 256.
Proof. change 255 with (Z.ones 8). by rewrite Z.land_ones. Qed.

Lemma land_255_byte x : is_byte (Z.land x 255).
Proof. unfold is_byte. rewrite land_255. pose proof (Z.mod_pos_bound x 256). lia. Qed.

(** Whether all the elements of a list are bytes. *)
Definition all_bytes (l : list Z) : bool := forallb (fun b => (0 <=? b) && (b <? 256)) l.

Lemma bytes_check l : all_bytes l = true -> Forall is_byte l.
Proof.
  intros Hl. apply Forall_forall. intros b Hb%list_elem_of_In.
  unfold all_bytes in Hl. rewrite forallb_forall in Hl. specialize (Hl b Hb).
  apply andb_prop in Hl as [?%Z.leb_le ?%Z.ltb_lt]. done.
Qed.

(** *** Order *)

Lemma StronglySorted_sublist {A} (R : A -> A -> Prop) (l k : list A) :
  l `sublist_of` k -> StronglySorted R k -> StronglySorted R l.
Proof.
  induction 1 as [|x l k Hs IH|x l k Hs IH]; inversion 1; subst; auto.
  constructor; auto. rewrite Forall_forall in *. eauto using elem_of_sublist.
Qed.
Lemma seqZ_sorted m n : StronglySorted Z.lt (seqZ m n).
Proof.
  remember (Z.to_nat n) as k eqn:Ek. revert m n Ek; induction k as [|k IH]; intros m n Ek.
  { rewrite seqZ_nil by lia. constructor. }
  rewrite seqZ_cons by lia. constructor; [apply IH; lia|]. apply Forall_forall. intros x Hx.
  apply elem_of_seqZ in Hx. lia.
Qed.

(** A property of finitely many numbers, and of bytes, by evaluation. *)
Lemma below_check (n : Z) (f : Z -> bool) x : forallb f (seqZ 0 n) = true -> 0 <= x < n -> f x = true.
Proof. intros H Hx. apply (proj1 (forallb_forall _ _) H). apply list_elem_of_In, elem_of_seqZ. lia. Qed.
Lemma byte_check (f : Z -> bool) x : forallb f (seqZ 0 256) = true -> is_byte x -> f x = true.
Proof. intros H Hx. apply (below_check 256 f x H). unfold is_byte in Hx. lia. Qed.

Lemma land_byte_255 b : is_byte b -> Z.land 255 b = b.
Proof. intros ?. rewrite Z.land_comm, land_255. by apply Z.mod_small. Qed.
(** A bitwise operation on bytes gives a byte. *)
Lemma bitwise_byte (op : Z -> Z -> Z) (f : bool -> bool -> bool) :
  (forall a b n, Z.testbit (op a b) n = f (Z.testbit a n) (Z.testbit b n)) -> f false false = false ->
  forall a b, is_byte a -> is_byte b -> is_byte (op a b).
Proof.
  intros Hop Hf a b Ha Hb. replace (op a b) with (Z.land (op a b) 255).
  { rewrite land_255. unfold is_byte. apply Z.mod_pos_bound. lia. }
  rewrite <- (land_byte_255 a Ha), <- (land_byte_255 b Hb). apply Z.bits_inj'. intros j _.
  rewrite Z.land_spec, !Hop, !Z.land_spec.
  by destruct (Z.testbit 255 j); rewrite ?andb_true_r, ?andb_false_r; cbn [andb].
Qed.
Lemma lxor_byte a b : is_byte a -> is_byte b -> is_byte (Z.lxor a b).
Proof. apply (bitwise_byte Z.lxor xorb); [apply Z.lxor_spec|done]. Qed.
Lemma land_byte a b : is_byte a -> is_byte b -> is_byte (Z.land a b).
Proof. apply (bitwise_byte Z.land andb); [apply Z.land_spec|done]. Qed.
Lemma lor_byte a b : is_byte a -> is_byte b -> is_byte (Z.lor a b).
Proof. apply (bitwise_byte Z.lor orb); [apply Z.lor_spec|done]. Qed.

Lemma length_le_bytes n x : length (le_bytes n x) = n.
Proof. revert x; induction n; intros x; simpl; [done|by rewrite IHn]. Qed.

Lemma le_bytes_byte n x : Forall is_byte (le_bytes n x).
Proof.
  revert x; induction n; intros x; simpl; constructor; auto using land_255_byte.
Qed.

Lemma le_val_bytes n x : le_val (le_bytes n x) = x mod 2 ^ (8 * Z.of_nat n).
Proof.
  revert x; induction n as [|n IH]; intros x; simpl le_val.
  { by rewrite Z.mod_1_r. }
  rewrite IH, land_255, Z.shiftr_div_pow2 by lia.
  replace (2 ^ (8 * Z.of_nat (S n))) with (256 * 2 ^ (8 * Z.of_nat n)).
  2:{ rewrite Nat2Z.inj_succ, <- Zmult_succ_r_reverse, Z.pow_add_r by lia. lia. }
  change (2 ^ 8) with 256. rewrite Z.rem_mul_r by lia. lia.
Qed.

Lemma le_val_range bs :
  Forall is_byte bs -> 0 <= le_val bs < 2 ^ (8 * Z.of_nat (length bs)).
Proof.
  induction 1 as [|b bs Hb _ IH]; simpl le_val; [simpl; lia|].
  rewrite length_cons, Nat2Z.inj_succ, <- Zmult_succ_r_reverse, Z.pow_add_r by lia.
  change (2 ^ 8) with 256. unfold is_byte in Hb. lia.
Qed.

Lemma le_bytes_val bs : Forall is_byte bs -> le_bytes (length bs) (le_val bs) = bs.
Proof.
  induction 1 as [|b bs Hb _ IH]; simpl; [done|]. unfold is_byte in Hb.
  rewrite land_255, Z.shiftr_div_pow2 by lia. change (2 ^ 8) with 256.
  f_equal; [|etransitivity; [|exact IH]; f_equal].
  - replace (b + 256 * le_val bs) with (b + le_val bs * 256) by lia.
    rewrite Z.mod_add by lia. by apply Z.mod_small.
  - replace (b + 256 * le_val bs) with (b + le_val bs * 256) by lia.
    rewrite Z.div_add, Z.div_small by lia. done.
Qed.

Lemma le_bytes_land n x y :
  le_bytes n (Z.land x y) = zip_with Z.land (le_bytes n x) (le_bytes n y).
Proof.
  revert x y; induction n as [|n IH]; intros x y; simpl; [done|].
  rewrite Z.shiftr_land, IH. f_equal. apply Z.bits_inj'; intros i _.
  rewrite !Z.land_spec. by destruct (Z.testbit x i), (Z.testbit y i), (Z.testbit 255 i).
Qed.
End bytes.

#[export] Hint Resolve land_255_byte le_bytes_byte : esp.
#[export] Hint Rewrite length_le_bytes : esp_len.

(** ** C strings

    The bytes found at a [char] pointer.  The list stands for the memory from
    the pointer on; a list that holds no NUL is followed by one. *)
Fixpoint strlen (s : list Z) : Z :=
  match s with
  | [] => 0
  | c :: s => if (c =? 0)%Z then 0 else 1 + strlen s
  end.

Section strings.
Local Open Scope Z_scope.
Lemma strlen_range s : 0 <= strlen s <= Z.of_nat (length s).
Proof. induction s as [|c s IH]; simpl; [lia|]. destruct (c =? 0); lia. Qed.
Lemma strlen_nonzero s : Forall (fun c => c <> 0) s -> strlen s = Z.of_nat (length s).
Proof.
  induction 1 as [|c s Hc _ IH]; simpl; [done|].
  destruct (Z.eqb_spec c 0); lia.
Qed.
End strings.

(** ** Stateful code

    [ST W A]: a computation over the state [W].  [None] means that a loop ran
    out of the fuel its definition gives it, so a theorem that a computation
    returns [Some] is a termination theorem. *)
Definition ST (W A : Type) : Type := W -> option (A * W).

Definition st_run {W A} (m : ST W A) (w : W) : option (A * W) := m w.

#[export] Instance st_ret {W} : MRet (ST W) := fun A x w => Some (x, w).
#[export] Instance st_bind {W} : MBind (ST W) := fun A B f m w =>
  match m w with
  | Some (x, w') => f x w'
  | None => None
  end.
Definition st_get {W} : ST W W := fun w => Some (w, w).
Definition st_put {W} (w' : W) : ST W unit := fun _ => Some ((), w').
Definition st_modify {W} (f : W -> W) : ST W unit := fun w => Some ((), f w).
Definition out_of_fuel {W A} : ST W A := fun _ => None.

(** [wp m Q w]: run from [w], [m] returns, and its result and final state
    satisfy [Q]. *)
Definition wp {W A} (m : ST W A) (Q : A -> W -> Prop) (w : W) : Prop :=
  match m w with
  | Some (x, w') => Q x w'
  | None => False
  end.

Section wp.
Context {W : Type}.

Lemma wp_ret {A} (x : A) (Q : A -> W -> Prop) w : Q x w -> wp (mret x) Q w.
Proof. done. Qed.

Lemma wp_bind {A B} (m : ST W A) (f : A -> ST W B) (Q : B -> W -> Prop) w :
  wp m (fun x => wp (f x) Q) w -> wp (m ≫= f) Q w.
Proof. unfold wp, mbind, st_bind. intros H. destruct (m w) as [[x w']|]; done. Qed.

Lemma wp_get (Q : W -> W -> Prop) w : Q w w -> wp st_get Q w.
Proof. done. Qed.
Lemma wp_put (Q : unit -> W -> Prop) w w' : Q () w' -> wp (st_put w') Q w.
Proof. done. Qed.
Lemma wp_modify (Q : unit -> W -> Prop) f w : Q () (f w) -> wp (st_modify f) Q w.
Proof. done. Qed.

Lemma wp_mono {A} (m : ST W A) (P Q : A -> W -> Prop) w :
  wp m P w -> (forall x w', P x w' -> Q x w') -> wp m Q w.
Proof. unfold wp. intros. destruct (m w) as [[x w']|]; naive_solver. Qed.

Lemma wp_run {A} (m : ST W A) (Q : A -> W -> Prop) w :
  wp m Q w -> exists x w', m w = Some (x, w') /\ Q x w'.
Proof. unfold wp. intros. destruct (m w) as [[x w']|]; naive_solver. Qed.

Lemma wp_of_run {A} (m : ST W A) (Q : A -> W -> Prop) w x w' :
  m w = Some (x, w') -> Q x w' -> wp m Q w.
Proof. unfold wp. by intros ->. Qed.

Lemma wp_det {A} (m : ST W A) (Q : A -> W -> Prop) w x w' :
  wp m Q w -> m w = Some (x, w') -> Q x w'.
Proof. unfold wp. intros H E. by rewrite E in H. Qed.
End wp.

(** Running the first part of a computation whose result is known. *)
Lemma bind_run {W A B} (m : ST W A) (f : A -> ST W B) w x w' :
  m w = Some (x, w') -> (m ≫= f) w = f x w'.
Proof. intros E. unfold mbind, st_bind. by rewrite E. Qed.
Lemma bind_assoc {W A B C} (m : ST W A) (f : A -> ST W B) (g : B -> ST W C) w :
  ((m ≫= f) ≫= g) w = (m ≫= (fun x => f x ≫= g)) w.
Proof. unfold mbind, st_bind. by destruct (m w) as [[x w']|]. Qed.

(** One step of the symbolic execution of a monadic definition. *)
Ltac wp_step :=
  lazymatch goal with
  | |- wp (_ ≫= _) _ _ => apply wp_bind; cbv beta
  | |- wp (mret _) _ _ => apply wp_ret; cbv beta
  | |- wp st_get _ _ => apply wp_get; cbv beta
  | |- wp (st_put _) _ _ => apply wp_put; cbv beta
  | |- wp (st_modify _) _ _ => apply wp_modify; cbv beta
  end.
Ltac wp_steps := repeat wp_step.
