(* ===== verification/Flash.v ===== *)
(** * The flash interface

    What the SPI flash driver promises to the code above it: the class
    [FlashDev] of flash devices with their operations, the class [FlashOk] of
    the laws a working device satisfies, and the equivalence of two devices that
    hold the same bytes.  [SpiFlash] implements the interface; [Sysparam]
    and [RbootApi] are proved against it. *)

From S2P Require Import Prelude.
Local Open Scope Z_scope.

Inductive sdk_SpiFlashOpResult :=
  | SPI_FLASH_RESULT_OK
  | SPI_FLASH_RESULT_ERR
  | SPI_FLASH_RESULT_TIMEOUT.

#[export] Instance sdk_SpiFlashOpResult_eq_dec : EqDecision sdk_SpiFlashOpResult.
Proof. solve_decision. Defined.

(** [sdk_flashchip_t]: the fields of the chip description the code uses. *)
Record sdk_flashchip_t := {
  chip_size : Z;
  sector_size : Z;
  page_size : Z
}.

(** A chip whose sectors are made of whole words and whose addresses fit in
    the 24 address bits of the SPI flash commands. *)
Record flashchip_ok (chip : sdk_flashchip_t) : Prop := {
  page_size_pos : 0 < page_size chip;
  page_size_words : page_size chip mod 4 = 0;
  sector_size_pos : 0 < sector_size chip;
  sector_size_words : sector_size chip mod 4 = 0;
  chip_size_sectors : chip_size chip mod sector_size chip = 0;
  chip_size_fits : 0 <= chip_size chip <= 2 ^ 24;
  chip_sectors_fit : chip_size chip / sector_size chip <= 2 ^ 16
}.

(** A device [d : D] with the three operations of [spi_flash.h].  [fbyte d a]
    is the byte stored at address [a].  A buffer the code passes is the list of
    its bytes. *)
Class FlashDev (D : Type) := {
  sdk_flashchip : sdk_flashchip_t;
  fbyte : D -> Z -> Z;
  flash_read : D -> Z -> Z -> sdk_SpiFlashOpResult * list Z;
  flash_write : D -> Z -> list Z -> Z -> sdk_SpiFlashOpResult * D;
  flash_erase_sector : D -> Z -> sdk_SpiFlashOpResult * D
}.

(** The bytes of the device from [a] on. *)
Fixpoint fbytes `{FlashDev D} (d : D) (a : Z) (n : nat) : list Z :=
  match n with
  | O => []
  | S n => fbyte d a :: fbytes d (a + 1) n
  end.

Definition round4 (n : Z) : Z := n + (- n) mod 4.

(** Laws of a device whose operations succeed inside the chip.  A read returns
    the stored bytes.  A write of [n] bytes clears bits: each byte becomes the
    conjunction of the old and the new one; the bytes up to the next word
    boundary may change too, no other byte does.  An erase sets the bytes of a
    sector to 0xff. *)
Class FlashOk (D : Type) `{FlashDev D} := {
  flash_chip_ok : flashchip_ok sdk_flashchip;
  flash_read_ok d a n :
    0 <= a -> a mod 4 = 0 -> 0 <= n -> a + n <= chip_size sdk_flashchip ->
    flash_read d a n = (SPI_FLASH_RESULT_OK, fbytes d a (Z.to_nat n));
  flash_write_ok d a src n :
    0 <= a -> a mod 4 = 0 -> 0 <= n <= Z.of_nat (length src) ->
    a + round4 n <= chip_size sdk_flashchip ->
    exists d', flash_write d a src n = (SPI_FLASH_RESULT_OK, d') /\
      (forall i b, src !! i = Some b -> Z.of_nat i < n ->
         fbyte d' (a + Z.of_nat i) = Z.land (fbyte d (a + Z.of_nat i)) b) /\
      (forall b, b < a \/ a + round4 n <= b -> fbyte d' b = fbyte d b);
  flash_erase_ok d s :
    0 <= s < chip_size sdk_flashchip / sector_size sdk_flashchip ->
    exists d', flash_erase_sector d s = (SPI_FLASH_RESULT_OK, d') /\
      (forall b, s * sector_size sdk_flashchip <= b < (s + 1) * sector_size sdk_flashchip ->
         fbyte d' b = 255) /\
      (forall b, b < s * sector_size sdk_flashchip \/
         (s + 1) * sector_size sdk_flashchip <= b -> fbyte d' b = fbyte d b)
}.

(** Two devices agree on a range of addresses. *)
Definition same_in `{FlashDev D} (lo hi : Z) (d d' : D) : Prop :=
  forall a, lo <= a < hi -> fbyte d a = fbyte d' a.

Section fbytes.
Context `{FlashDev D}.

Lemma length_fbytes (d : D) a n : length (fbytes d a n) = n.
Proof. revert a; induction n; intros a; simpl; auto. Qed.

Lemma lookup_fbytes (d : D) a n i :
  (i < n)%nat -> fbytes d a n !! i = Some (fbyte d (a + Z.of_nat i)).
Proof.
  revert a i; induction n as [|n IH]; intros a [|i] Hi; simpl; try lia.
  { by replace (a + Z.of_nat 0) with a by lia. }
  rewrite IH by lia. by replace (a + Z.of_nat (S i)) with (a + 1 + Z.of_nat i) by lia.
Qed.

Lemma fbytes_ext (d d' : D) a n :
  (forall i, a <= i < a + Z.of_nat n -> fbyte d i = fbyte d' i) ->
  fbytes d a n = fbytes d' a n.
Proof.
  revert a; induction n as [|n IH]; intros a Hi; simpl; [done|].
  rewrite (Hi a) by lia. f_equal. apply IH. intros; apply Hi; lia.
Qed.

Lemma fbytes_same (d d' : D) lo hi a n :
  same_in lo hi d d' -> lo <= a -> a + Z.of_nat n <= hi ->
  fbytes d a n = fbytes d' a n.
Proof. intros Hs ??. apply fbytes_ext. intros i ?. apply Hs. lia. Qed.

Lemma fbytes_app (d : D) a n m :
  fbytes d a (n + m) = fbytes d a n ++ fbytes d (a + Z.of_nat n) m.
Proof.
  revert a; induction n as [|n IH]; intros a; simpl.
  { by replace (a + Z.of_nat 0) with a by lia. }
  rewrite IH. by replace (a + Z.of_nat (S n)) with (a + 1 + Z.of_nat n) by lia.
Qed.

Lemma fbytes_eq (d : D) a (l : list Z) :
  (forall i b, l !! i = Some b -> fbyte d (a + Z.of_nat i) = b) ->
  fbytes d a (length l) = l.
Proof.
  revert a; induction l as [|b l IH]; intros a Hl; simpl; [done|]. f_equal.
  - specialize (Hl 0%nat b eq_refl). by replace (a + Z.of_nat 0) with a in Hl by lia.
  - apply IH. intros i c Hi. rewrite <- (Hl (S i) c Hi).
    by replace (a + Z.of_nat (S i)) with (a + 1 + Z.of_nat i) by lia.
Qed.

#[export] Instance same_in_equiv lo hi : Equivalence (same_in (D:=D) lo hi).
Proof.
  split; unfold same_in.
  - done.
  - intros d d' Hs a Ha. symmetry. auto.
  - intros d d' d'' H1 H2 a Ha. rewrite H1; auto.
Qed.

Lemma same_in_sub lo hi lo' hi' (d d' : D) :
  lo <= lo' -> hi' <= hi -> same_in lo hi d d' -> same_in lo' hi' d d'.
Proof. intros ?? Hs a ?. apply Hs. lia. Qed.
End fbytes.

Section round4.
Lemma round4_range n : n <= round4 n < n + 4.
Proof. unfold round4. pose proof (Z.mod_pos_bound (- n) 4). lia. Qed.
Lemma round4_mod n : round4 n mod 4 = 0.
Proof. unfold round4. Z.div_mod_to_equations. lia. Qed.
Lemma round4_id n : n mod 4 = 0 -> round4 n = n.
Proof. unfold round4. Z.div_mod_to_equations. lia. Qed.
End round4.

#[export] Hint Resolve round4_mod : esp.
