(* ===== verification/SpiFlash.v ===== *)
(** * The SPI flash driver: open_esplibs/libmain/spi_flash.c

    The [sdk_SPI*] and [sdk_spi_flash_*] functions over the boot ROM's flash
    routines, which are not part of the repository: [SpiRom] holds them and
    [SpiRomOk] what the ROM and the flash chip's data sheet promise.  The state
    is [spi_dev]: the flash array, the chip's status register, the SPI
    controller's CTRL0 register, whether the flash cache is mapped, and the
    nesting depth of [portENTER_CRITICAL].

    [sdk_SPIWrite_program]: a write of any length is split in page programs that
    stay inside their page and together program exactly the requested bytes.
    [spi_flash_ok]: the driver implements the [FlashOk] interface. *)

From S2P Require Import Prelude Flash.
Local Open Scope Z_scope.

(** ** State *)

Record spi_dev := {
  cells : gmap Z Z;
  status_reg : Z;
  ctrl0 : Z;
  cache_on : bool;
  critical : nat
}.

(** The byte at an address: an unwritten cell holds 0xff. *)
Definition cell (m : gmap Z Z) (a : Z) : Z := default 255 (m !! a).

Definition set_cells (m : gmap Z Z) (d : spi_dev) : spi_dev :=
  {| cells := m; status_reg := status_reg d; ctrl0 := ctrl0 d;
     cache_on := cache_on d; critical := critical d |}.
Definition set_ctrl0 (v : Z) (d : spi_dev) : spi_dev :=
  {| cells := cells d; status_reg := status_reg d; ctrl0 := v;
     cache_on := cache_on d; critical := critical d |}.
Definition set_locks (cache : bool) (n : nat) (d : spi_dev) : spi_dev :=
  {| cells := cells d; status_reg := status_reg d; ctrl0 := ctrl0 d;
     cache_on := cache; critical := n |}.

(** Programming clears bits of consecutive cells; erasing sets a range to 0xff. *)
Fixpoint nor_program (m : gmap Z Z) (a : Z) (bs : list Z) : gmap Z Z :=
  match bs with
  | [] => m
  | b :: bs => nor_program (<[a := Z.land (cell m a) b]> m) (a + 1) bs
  end.
Definition nor_erase (m : gmap Z Z) (a n : Z) : gmap Z Z :=
  filter (fun kv => ~ (a <= kv.1 < a + n)) m.

(** ** The boot ROM *)

Class SpiRom := {
  rom_flashchip : sdk_flashchip_t;
  SPI_page_program : spi_dev -> Z -> list Z -> Z * spi_dev;
  SPI_read_data : spi_dev -> Z -> Z -> Z * list Z;
  SPI_write_enable : spi_dev -> Z * spi_dev;
  SPI_sector_erase : spi_dev -> Z -> Z * spi_dev;
  SPI_read_status : spi_dev -> Z * Z;
  SPI_write_status : spi_dev -> Z -> Z * spi_dev;
  SPI_id_word : spi_dev -> Z;
  Enable_QMode : spi_dev -> spi_dev;
  Disable_QMode : spi_dev -> spi_dev;
  (** The byte the program finds [i] bytes after the start of a source buffer
      when it reads past the buffer's end. *)
  stray_byte : Z -> Z
}.

(** The flash commands work while the cache is unmapped and interrupts are off. *)
Definition quiet (d : spi_dev) : Prop := cache_on d = false /\ (0 < critical d)%nat.

Class SpiRomOk `{SpiRom} := {
  rom_chip_ok : flashchip_ok rom_flashchip;
  page_program_ok d a bs :
    quiet d -> 0 <= a ->
    Z.of_nat (length bs) <= page_size rom_flashchip - a mod page_size rom_flashchip ->
    a + Z.of_nat (length bs) <= chip_size rom_flashchip ->
    SPI_page_program d a bs = (0, set_cells (nor_program (cells d) a bs) d);
  read_data_ok d a n :
    quiet d -> 0 <= a -> a mod 4 = 0 -> 0 <= n -> a + n <= chip_size rom_flashchip ->
    SPI_read_data d a n = (0, map (fun i => cell (cells d) (a + Z.of_nat i)) (seq 0 (Z.to_nat n)));
  write_enable_ok d : quiet d -> SPI_write_enable d = (0, d);
  sector_erase_ok d a :
    quiet d -> 0 <= a -> a mod sector_size rom_flashchip = 0 ->
    a + sector_size rom_flashchip <= chip_size rom_flashchip ->
    SPI_sector_erase d a =
      (0, set_cells (nor_erase (cells d) a (sector_size rom_flashchip)) d)
}.

(** ** The driver *)

Section driver.
Context `{SpiRom}.

Definition SPI_CTRL0_FASTRD_MODE : Z := 2 ^ 13.
Definition SPI_CTRL0_DOUT_MODE : Z := 2 ^ 14.
Definition SPI_CTRL0_QOUT_MODE : Z := 2 ^ 20.
Definition SPI_CTRL0_DIO_MODE : Z := 2 ^ 23.
Definition SPI_CTRL0_QIO_MODE : Z := 2 ^ 24.

(** sdk_SPIReadModeCnfig *)
Definition SPI_CTRL0_MODES : Z :=
  Z.lor (Z.lor (Z.lor (Z.lor SPI_CTRL0_FASTRD_MODE SPI_CTRL0_DOUT_MODE)
    SPI_CTRL0_QOUT_MODE) SPI_CTRL0_DIO_MODE) SPI_CTRL0_QIO_MODE.
Definition read_mode_bits (mode : Z) : Z :=
  if mode =? 0 then Z.lor SPI_CTRL0_FASTRD_MODE SPI_CTRL0_QIO_MODE
  else if mode =? 1 then Z.lor SPI_CTRL0_FASTRD_MODE SPI_CTRL0_QOUT_MODE
  else if mode =? 2 then Z.lor SPI_CTRL0_FASTRD_MODE SPI_CTRL0_DIO_MODE
  else if mode =? 3 then Z.lor SPI_CTRL0_FASTRD_MODE SPI_CTRL0_DOUT_MODE
  else if mode =? 4 then SPI_CTRL0_FASTRD_MODE
  else 0.
Definition sdk_SPIReadModeCnfig (d : spi_dev) (mode : Z) : Z * spi_dev :=
  let d := set_ctrl0 (Z.ldiff (ctrl0 d) SPI_CTRL0_MODES) d in
  let ctrl_bits := read_mode_bits mode in
  let d := if (mode =? 0) || (mode =? 1) then Enable_QMode d else Disable_QMode d in
  (0, set_ctrl0 (Z.lor (ctrl0 d) ctrl_bits) d).

(** The [n] bytes at byte offset [off] of the buffer [src]. *)
Definition ram_slice (src : list Z) (off n : Z) : list Z :=
  map (fun i => default (stray_byte (off + Z.of_nat i)) (src !! Z.to_nat (off + Z.of_nat i)))
      (seq 0 (Z.to_nat n)).

(** The loop of sdk_SPIWrite over the full pages: [k] pages left, [pos] bytes
    written.  [src_addr + (pos / 4)] is a word pointer, hence the byte offset
    [pos / 4 * 4]. *)
Fixpoint write_full_pages (k : nat) (d : spi_dev) (des_addr : Z) (src : list Z) (pos : Z)
    : option Z * spi_dev :=
  match k with
  | O => (Some pos, d)
  | S k =>
      let '(rc, d) := SPI_page_program d (u32 (des_addr + pos))
                        (ram_slice src (pos / 4 * 4) (page_size rom_flashchip)) in
      if rc =? 0 then write_full_pages k d des_addr src (pos + page_size rom_flashchip)
      else (None, d)
  end.

(** sdk_SPIWrite *)
Definition sdk_SPIWrite (d : spi_dev) (des_addr : Z) (src : list Z) (size : Z)
    : sdk_SpiFlashOpResult * spi_dev :=
  let rc_of := fun rc : Z => if rc =? 0 then SPI_FLASH_RESULT_OK else SPI_FLASH_RESULT_ERR in
  if u32 (des_addr + size) <=? chip_size rom_flashchip then
    let first_page_portion := page_size rom_flashchip - des_addr mod page_size rom_flashchip in
    if size <? first_page_portion then
      let '(rc, d) := SPI_page_program d des_addr (ram_slice src 0 size) in (rc_of rc, d)
    else
      let '(rc, d) := SPI_page_program d des_addr (ram_slice src 0 first_page_portion) in
      if rc =? 0 then
        let bytes_remaining := size - first_page_portion in
        let full_pages := bytes_remaining / page_size rom_flashchip in
        match write_full_pages (Z.to_nat full_pages) d des_addr src first_page_portion with
        | (None, d) => (SPI_FLASH_RESULT_ERR, d)
        | (Some pos, d) =>
            let '(rc, d) := SPI_page_program d (u32 (des_addr + pos))
                              (ram_slice src (pos / 4 * 4) (size - pos)) in
            (rc_of rc, d)
        end
      else (SPI_FLASH_RESULT_ERR, d)
  else (SPI_FLASH_RESULT_ERR, d).

(** sdk_SPIRead *)
Definition sdk_SPIRead (d : spi_dev) (src_addr size : Z) : sdk_SpiFlashOpResult * list Z :=
  let '(rc, bs) := SPI_read_data d src_addr size in
  (if rc =? 0 then SPI_FLASH_RESULT_OK else SPI_FLASH_RESULT_ERR, bs).

(** sdk_SPIEraseSector *)
Definition sdk_SPIEraseSector (d : spi_dev) (sec : Z) : sdk_SpiFlashOpResult * spi_dev :=
  if chip_size rom_flashchip / sector_size rom_flashchip <=? sec then (SPI_FLASH_RESULT_ERR, d)
  else
    let '(rc, d) := SPI_write_enable d in
    if rc =? 0 then
      let '(rc, d) := SPI_sector_erase d (u32 (sector_size rom_flashchip * sec)) in
      if rc =? 0 then (SPI_FLASH_RESULT_OK, d) else (SPI_FLASH_RESULT_ERR, d)
    else (SPI_FLASH_RESULT_ERR, d).

(** portENTER_CRITICAL and Cache_Read_Disable before a flash command,
    Cache_Read_Enable and portEXIT_CRITICAL after it. *)
Definition flash_enter (d : spi_dev) : spi_dev := set_locks false (S (critical d)) d.
Definition flash_leave (d : spi_dev) : spi_dev := set_locks true (pred (critical d)) d.

Definition sdk_spi_flash_get_id (d : spi_dev) : Z * spi_dev :=
  let d := flash_enter d in
  let result := Z.land (SPI_id_word d) 0xffffff in
  (result, flash_leave d).

Definition sdk_spi_flash_read_status (d : spi_dev) : Z * Z * spi_dev :=
  let d := flash_enter d in
  let '(result, status) := SPI_read_status d in
  (result, status, flash_leave d).

Definition sdk_spi_flash_write_status (d : spi_dev) (status : Z) : Z * spi_dev :=
  let d := flash_enter d in
  let '(result, d) := SPI_write_status d status in
  (result, flash_leave d).

Definition sdk_spi_flash_erase_sector (d : spi_dev) (sec : Z)
    : sdk_SpiFlashOpResult * spi_dev :=
  let d := flash_enter d in
  let '(result, d) := sdk_SPIEraseSector d (u16 sec) in
  (result, flash_leave d).

(** [src = None] is the null pointer. *)
Definition sdk_spi_flash_write (d : spi_dev) (des_addr : Z) (src : option (list Z)) (size : Z)
    : sdk_SpiFlashOpResult * spi_dev :=
  match src with
  | None => (SPI_FLASH_RESULT_ERR, d)
  | Some src =>
      let size := if Z.land size 3 =? 0 then size else u32 (Z.ldiff size 3 + 4) in
      let d := flash_enter d in
      let '(result, d) := sdk_SPIWrite d des_addr src size in
      (result, flash_leave d)
  end.

Definition sdk_spi_flash_read (d : spi_dev) (src_addr : Z) (des_null : bool) (size : Z)
    : sdk_SpiFlashOpResult * list Z * spi_dev :=
  if des_null then (SPI_FLASH_RESULT_ERR, [], d)
  else
    let d := flash_enter d in
    let '(result, bs) := sdk_SPIRead d src_addr size in
    (result, bs, flash_leave d).

(** The driver as a flash device. *)
#[export] Instance spi_flash_dev : FlashDev spi_dev := {|
  sdk_flashchip := rom_flashchip;
  fbyte := fun d a => cell (cells d) a;
  flash_read := fun d a n => (sdk_spi_flash_read d a false n).1;
  flash_write := fun d a src n => sdk_spi_flash_write d a (Some src) n;
  flash_erase_sector := sdk_spi_flash_erase_sector
|}.
End driver.

(** ** Lemmas on the flash array *)

Lemma cell_insert m a v b : cell (<[a:=v]> m) b = if decide (a = b) then v else cell m b.
Proof. unfold cell. rewrite lookup_insert. by case_decide. Qed.

Lemma cell_nor_program_out m a bs b :
  b < a \/ a + Z.of_nat (length bs) <= b -> cell (nor_program m a bs) b = cell m b.
Proof.
  revert m a; induction bs as [|c bs IH]; intros m a Hb; simpl; [done|].
  simpl in Hb. rewrite IH by lia. rewrite cell_insert. case_decide; [lia|done].
Qed.

Lemma cell_nor_program_in m a bs i b :
  bs !! i = Some b ->
  cell (nor_program m a bs) (a + Z.of_nat i) = Z.land (cell m (a + Z.of_nat i)) b.
Proof.
  revert m a i; induction bs as [|c bs IH]; intros m a [|i] Hi; simplify_eq/=.
  - rewrite cell_nor_program_out by lia. rewrite cell_insert, decide_True by lia.
    by rewrite Z.add_0_r.
  - replace (a + Z.of_nat (S i)) with (a + 1 + Z.of_nat i) by lia.
    rewrite (IH _ _ _ Hi), cell_insert, decide_False by lia. done.
Qed.

Lemma nor_program_app m a l k :
  nor_program m a (l ++ k) = nor_program (nor_program m a l) (a + Z.of_nat (length l)) k.
Proof.
  revert m a; induction l as [|b l IH]; intros m a; simpl.
    { by rewrite Z.add_0_r. }
  rewrite IH. f_equal. lia.
Qed.

Lemma cell_nor_erase m a n b :
  cell (nor_erase m a n) b = if decide (a <= b < a + n) then 255 else cell m b.
Proof.
  unfold cell, nor_erase. rewrite map_lookup_filter. case_decide as Hb.
  - destruct (m !! b); simpl; [|done]. by rewrite option_guard_False by (simpl; lia).
  - destruct (m !! b); simpl; [|done]. by rewrite option_guard_True by (simpl; lia).
Qed.

#[export] Hint Resolve cell_nor_program_in cell_nor_program_out : esp.

(** ** The driver is correct *)

Section driver_proofs.
Context `{SpiRomOk}.
Implicit Types (d : spi_dev) (src : list Z).

Lemma length_ram_slice src off n : length (ram_slice src off n) = Z.to_nat n.
Proof. unfold ram_slice. by rewrite length_map, length_seq. Qed.

Lemma lookup_ram_slice src n i b :
  src !! i = Some b -> Z.of_nat i < n -> ram_slice src 0 n !! i = Some b.
Proof.
  intros Hi ?. unfold ram_slice. rewrite list_lookup_fmap, lookup_seq_lt by lia. simpl.
  by rewrite Z.add_0_l, Nat2Z.id, Hi.
Qed.

Lemma ram_slice_app src off n m :
  0 <= n -> 0 <= m ->
  ram_slice src off (n + m) = ram_slice src off n ++ ram_slice src (off + n) m.
Proof.
  intros ??. unfold ram_slice. rewrite Z2Nat.inj_add, seq_app, fmap_app by lia. f_equal.
  rewrite <- (Nat.add_0_r (0 + Z.to_nat n)), <- fmap_add_seq, <- list_fmap_compose.
  apply list_fmap_ext. intros _ i _. simpl.
  replace (off + Z.of_nat (Z.to_nat n + i)) with (off + n + Z.of_nat i) by lia. done.
Qed.

Lemma quiet_set_cells m d : quiet d -> quiet (set_cells m d).
Proof. done. Qed.

Lemma words_of_bytes pos : pos mod 4 = 0 -> pos / 4 * 4 = pos.
Proof. intros. Z.div_mod_to_equations. lia. Qed.

(** A page program whose range stays in one page of the chip. *)
Lemma page_program_within d a n src off :
  quiet d -> 0 <= a -> 0 <= n ->
  n <= page_size rom_flashchip - a mod page_size rom_flashchip ->
  a + n <= chip_size rom_flashchip ->
  SPI_page_program d a (ram_slice src off n) =
    (0, set_cells (nor_program (cells d) a (ram_slice src off n)) d).
Proof. intros. apply page_program_ok; rewrite ?length_ram_slice; auto; lia. Qed.

Lemma write_full_pages_program k d des src pos :
  quiet d -> 0 <= des -> 0 <= pos -> pos mod 4 = 0 ->
  (des + pos) mod page_size rom_flashchip = 0 ->
  des + pos + Z.of_nat k * page_size rom_flashchip <= chip_size rom_flashchip ->
  write_full_pages k d des src pos =
    (Some (pos + Z.of_nat k * page_size rom_flashchip),
     set_cells (nor_program (cells d) (des + pos)
                  (ram_slice src pos (Z.of_nat k * page_size rom_flashchip))) d).
Proof.
  pose proof rom_chip_ok as [Hp Hp4 _ _ _ Hc _].
  revert d pos; induction k as [|k IH]; intros d pos Hq ?? Hpos Hpage Hfit.
  { replace (Z.of_nat 0 * _) with 0 by lia.
    cbn [write_full_pages]. rewrite Z.add_0_r. by destruct d. }
  cbn [write_full_pages]. rewrite words_of_bytes, u32_small by (done || nia).
  rewrite page_program_within by (rewrite ?Hpage; auto; nia). rewrite Z.eqb_refl.
  rewrite IH; auto using quiet_set_cells; try nia.
  - replace (Z.of_nat (S k) * _) with
      (page_size rom_flashchip + Z.of_nat k * page_size rom_flashchip) by lia.
    f_equal; [f_equal; lia|]. unfold set_cells; simpl. f_equal.
    rewrite (ram_slice_app src pos) by nia. rewrite nor_program_app, length_ram_slice.
    f_equal. rewrite Z2Nat.id by lia. lia.
  - rewrite Z.add_mod, Hpos, Hp4 by lia. done.
  - rewrite Z.add_assoc, <- (Z.mul_1_l (page_size _)) at 1.
    by rewrite Z.mod_add by lia.
Qed.

Lemma mod_mod_words a p : 0 < p -> p mod 4 = 0 -> a mod 4 = 0 -> (p - a mod p) mod 4 = 0.
Proof.
  intros Hp Hp4 Ha. rewrite (Z.mod_eq a p) by lia.
  apply Z.mod_divide in Hp4 as [x ->]; [|lia]. apply Z.mod_divide in Ha as [y ->]; [|lia].
  set (q := y * 4 / (x * 4)).
  replace (x * 4 - (y * 4 - x * 4 * q)) with ((x - y + x * q) * 4) by lia.
  by apply Z.mod_mul.
Qed.

Lemma write_splits_pages d des src size :
  quiet d -> 0 <= des -> des mod 4 = 0 -> 0 <= size ->
  des + size <= chip_size rom_flashchip ->
  sdk_SPIWrite d des src size =
    (SPI_FLASH_RESULT_OK, set_cells (nor_program (cells d) des (ram_slice src 0 size)) d).
Proof.
  intros Hq ? Hdes4 ? Hfit. pose proof rom_chip_ok as [Hp Hp4 _ _ _ Hc _].
  unfold sdk_SPIWrite. set (p := page_size rom_flashchip) in *.
  set (f := p - des mod p). pose proof (Z.mod_pos_bound des p Hp).
  assert (Hf4 : f mod 4 = 0) by (by apply mod_mod_words).
  assert (Hfp : (des + f) mod p = 0).
  { unfold f. rewrite (Z.mod_eq des p) by lia.
    replace (des + (p - (des - p * (des / p)))) with ((des / p + 1) * p) by lia.
    apply Z.mod_mul; lia. }
  rewrite u32_small by lia. zif. destruct (Z.ltb_spec size f).
  { rewrite page_program_within; fold p; auto; lia. }
  rewrite page_program_within by (fold p; auto; lia). rewrite Z.eqb_refl.
  pose proof (Z.div_mod (size - f) p ltac:(lia)).
  pose proof (Z.mod_pos_bound (size - f) p Hp).
  assert (0 <= (size - f) / p) by (apply Z.div_pos; lia).
  rewrite write_full_pages_program; fold p; auto using quiet_set_cells; rewrite ?Z2Nat.id; try nia.
  set (g := (size - f) / p * p). set (r := (size - f) mod p) in *.
  assert (Hg4 : (f + g) mod 4 = 0).
  { unfold g. rewrite Z.add_mod, Hf4, Z.mul_mod, Hp4 by lia. by rewrite Z.mul_0_r. }
  assert (Hgp : (des + (f + g)) mod p = 0).
  { unfold g. by rewrite Z.add_assoc, Z.mod_add by lia. }
  rewrite words_of_bytes, u32_small by (auto; nia).
  rewrite page_program_within; fold p; try rewrite Hgp; auto using quiet_set_cells; try nia.
  rewrite Z.eqb_refl. f_equal. unfold set_cells; simpl. f_equal.
  replace size with (f + (g + (size - (f + g)))) at 2 by lia.
  rewrite !ram_slice_app, !nor_program_app, !length_ram_slice, !Z2Nat.id by nia.
  f_equal. lia.
Qed.

(** C25: [sdk_SPIWrite] splits a write that starts on a word boundary and lies
    in the chip into page programs each of which stays in its page (the only
    case for which the flash chip promises anything), and together they program
    exactly the requested bytes.  The cache is off and the interrupts are masked when
    it is called ([quiet]). *)
Theorem sdk_SPIWrite_program d des src size :
  quiet d -> 0 <= des -> des mod 4 = 0 -> 0 <= size ->
  des + size <= chip_size rom_flashchip ->
  sdk_SPIWrite d des src size =
    (SPI_FLASH_RESULT_OK, set_cells (nor_program (cells d) des (ram_slice src 0 size)) d).
Proof. apply write_splits_pages. Qed.

Lemma round4_bits size : 0 <= size < 2 ^ 25 ->
  (if Z.land size 3 =? 0 then size else u32 (Z.ldiff size 3 + 4)) = round4 size.
Proof.
  intros ?. change 3 with (Z.ones 2). rewrite Z.ldiff_ones_r, Z.land_ones by lia.
  rewrite Z.shiftl_mul_pow2, Z.shiftr_div_pow2 by lia. change (2 ^ 2) with 4.
  unfold round4, u32. destruct (Z.eqb_spec (size mod 4) 0).
  { Z.div_mod_to_equations; lia. }
  rewrite Z.mod_small by (Z.div_mod_to_equations; lia).
  Z.div_mod_to_equations; lia.
Qed.

Lemma quiet_enter d : quiet (flash_enter d).
Proof. split; simpl; [done|lia]. Qed.

Lemma flash_leave_enter m d :
  flash_leave (set_cells m (flash_enter d)) = set_locks true (critical d) (set_cells m d).
Proof. done. Qed.

Lemma fbytes_cells (d : spi_dev) a n :
  fbytes d a n = map (fun i => cell (cells d) (a + Z.of_nat i)) (seq 0 n).
Proof.
  apply list_eq; intros i. destruct (decide (i < n)%nat).
  - rewrite lookup_fbytes by done. by rewrite list_lookup_fmap, lookup_seq_lt by done.
  - rewrite !lookup_ge_None_2; rewrite ?length_map, ?length_seq, ?length_fbytes; auto; lia.
Qed.
End driver_proofs.

(** ** The driver implements the flash interface

    The interface has no notion of the cache and of critical sections: each
    driver call leaves them as a task expects them. *)
Section interface.
Context `{SpiRomOk}.

Lemma driver_calls d a src n :
  0 <= a -> a mod 4 = 0 -> 0 <= n ->
  a + round4 n <= chip_size rom_flashchip ->
  sdk_spi_flash_read d a false n =
    (SPI_FLASH_RESULT_OK, fbytes d a (Z.to_nat n), set_locks true (critical d) d) /\
  sdk_spi_flash_write d a (Some src) n =
    (SPI_FLASH_RESULT_OK,
     set_locks true (critical d)
       (set_cells (nor_program (cells d) a (ram_slice src 0 (round4 n))) d)) /\
  (a mod sector_size rom_flashchip = 0 -> a < chip_size rom_flashchip ->
   sdk_spi_flash_erase_sector d (a / sector_size rom_flashchip) =
     (SPI_FLASH_RESULT_OK,
      set_locks true (critical d)
        (set_cells (nor_erase (cells d) a (sector_size rom_flashchip)) d))).
Proof.
  intros Ha Ha4 Hn Hfit. pose proof rom_chip_ok as [_ _ Hs _ Hcs Hc Hns].
  pose proof (round4_range n). pose proof (quiet_enter d) as Hq.
  split_and!.
  - unfold sdk_spi_flash_read, sdk_SPIRead. rewrite read_data_ok by (auto; lia). simpl.
    by rewrite fbytes_cells.
  - unfold sdk_spi_flash_write. rewrite round4_bits by lia.
    rewrite write_splits_pages by (auto; lia). by rewrite flash_leave_enter.
  - intros Hsec Hlt. unfold sdk_spi_flash_erase_sector, sdk_SPIEraseSector.
    set (s := sector_size rom_flashchip) in *.
    assert (a / s < chip_size rom_flashchip / s).
    { apply Z.div_lt_upper_bound; [lia|]. rewrite <- Z_div_exact_full_2; lia. }
    assert (0 <= a / s) by (apply Z.div_pos; lia).
    assert (Has : s * (a / s) = a) by (rewrite <- Z_div_exact_full_2; lia).
    rewrite u16_small by lia. zif. rewrite write_enable_ok by done. simpl.
    assert (a + s <= chip_size rom_flashchip).
    { apply Z.mod_divide in Hcs as [x Hx]; [|lia]. apply Z.mod_divide in Hsec as [y Hy]; [|lia].
      rewrite Hx in Hlt |- *. rewrite Hy in Hlt |- *. assert (y < x) by nia. nia. }
    rewrite Has, u32_small, sector_erase_ok by (auto; lia). done.
Qed.

(** Every driver call on word-aligned addresses inside the chip succeeds,
    returns or changes exactly the bytes it is asked for, and leaves the cache
    mapped and the critical section nesting as it found it. *)
Theorem spi_flash_calls d a src n :
  0 <= a -> a mod 4 = 0 -> 0 <= n ->
  a + round4 n <= chip_size rom_flashchip ->
  sdk_spi_flash_read d a false n =
    (SPI_FLASH_RESULT_OK, fbytes d a (Z.to_nat n), set_locks true (critical d) d) /\
  sdk_spi_flash_write d a (Some src) n =
    (SPI_FLASH_RESULT_OK,
     set_locks true (critical d)
       (set_cells (nor_program (cells d) a (ram_slice src 0 (round4 n))) d)) /\
  (a mod sector_size rom_flashchip = 0 -> a < chip_size rom_flashchip ->
   sdk_spi_flash_erase_sector d (a / sector_size rom_flashchip) =
     (SPI_FLASH_RESULT_OK,
      set_locks true (critical d)
        (set_cells (nor_erase (cells d) a (sector_size rom_flashchip)) d))).
Proof. apply driver_calls. Qed.

#[export] Instance spi_flash_ok : FlashOk spi_dev.
Proof.
  pose proof rom_chip_ok as [_ _ Hs Hz4 Hcs Hc _].
  split; [exact rom_chip_ok|..].
  - intros d a n ????. simpl. unfold sdk_spi_flash_read, sdk_SPIRead.
    rewrite read_data_ok by (auto using quiet_enter). simpl. by rewrite fbytes_cells.
  - intros d a src n Ha Ha4 Hn Hfit. eexists. split; [by apply driver_calls; auto; lia|].
    simpl. pose proof (round4_range n). split.
    + intros i b Hi ?. apply cell_nor_program_in. apply lookup_ram_slice; [done|lia].
    + intros b Hb. apply cell_nor_program_out. rewrite length_ram_slice. lia.
  - intros d s Hsec. cbn -[nor_erase Z.div] in Hsec |- *.
    set (z := sector_size rom_flashchip) in *.
    apply Z.mod_divide in Hcs as [x Hx]; [|lia]. apply Z.mod_divide in Hz4 as [y Hy]; [|lia].
    assert (chip_size rom_flashchip / z = x) by (rewrite Hx; apply Z.div_mul; lia).
    destruct (driver_calls d (s * z) [] 0) as (_ & _ & Her); try nia.
    { rewrite Hy, Z.mul_assoc. apply Z.mod_mul; lia. }
    { change (round4 0) with 0. nia. }
    fold z in Her. rewrite Z.div_mul in Her by lia.
    rewrite Her by (nia || (apply Z.mod_mul; lia)). eexists; split; [done|]. cbn -[nor_erase].
    split; intros b Hb; rewrite cell_nor_erase; case_decide; auto; nia.
Defined.
End interface.

(** ** A flash chip

    A ROM over a Winbond W25Q32-like chip of 4 MB (the default of
    [sdk_flashchip] in spi_flash.c), against which the witnesses run the code.
    A page program wraps around inside its page, and a command fails while the
    cache is mapped. *)
Definition w25q32 : sdk_flashchip_t :=
  {| chip_size := 4 * 1024 * 1024; sector_size := 4096; page_size := 256 |}.

(** Programming with the address wrapping at the end of the page. *)
Fixpoint program_in_page (m : gmap Z Z) (base off : Z) (bs : list Z) : gmap Z Z :=
  match bs with
  | [] => m
  | b :: bs =>
      let a := base + off mod 256 in
      program_in_page (<[a := Z.land (cell m a) b]> m) base (off + 1) bs
  end.

#[export] Instance sim_rom : SpiRom := {|
  rom_flashchip := w25q32;
  SPI_page_program := fun d a bs =>
    if cache_on d || (critical d =? 0)%nat then (1, d)
    else (0, set_cells (program_in_page (cells d) (a / 256 * 256) (a mod 256) bs) d);
  SPI_read_data := fun d a n =>
    if cache_on d || (critical d =? 0)%nat then (1, [])
    else (0, map (fun i => cell (cells d) (a + Z.of_nat i)) (seq 0 (Z.to_nat n)));
  SPI_write_enable := fun d => (if cache_on d then 1 else 0, d);
  SPI_sector_erase := fun d a =>
    if cache_on d || (critical d =? 0)%nat then (1, d)
    else (0, set_cells (nor_erase (cells d) (a / 4096 * 4096) 4096) d);
  SPI_read_status := fun d => (0, status_reg d);
  SPI_write_status := fun d v =>
    (0, {| cells := cells d; status_reg := v; ctrl0 := ctrl0 d;
           cache_on := cache_on d; critical := critical d |});
  SPI_id_word := fun _ => 0x1640ef;
  Enable_QMode := fun d => d;
  Disable_QMode := fun d => d;
  stray_byte := fun i => i mod 256
|}.

Lemma program_in_page_linear m base off bs :
  0 <= off -> off + Z.of_nat (length bs) <= 256 ->
  program_in_page m base off bs = nor_program m (base + off) bs.
Proof.
  revert m off; induction bs as [|b bs IH]; intros m off ? Hlen; simpl; [done|].
  simpl in Hlen. rewrite Z.mod_small, IH by lia. f_equal. lia.
Qed.

#[export] Instance sim_rom_ok : SpiRomOk.
Proof.
  split.
  - split; done.
  - intros d a bs [Hc Hk] Ha Hp Hfit. simpl in *. rewrite Hc.
    replace (critical d =? 0)%nat with false by (symmetry; apply Nat.eqb_neq; lia). simpl.
    pose proof (Z.mod_pos_bound a 256). rewrite program_in_page_linear by lia.
    by replace (a / 256 * 256 + a mod 256) with a by (Z.div_mod_to_equations; lia).
  - intros d a n [Hc Hk] ????. simpl in *. rewrite Hc.
    by replace (critical d =? 0)%nat with false by (symmetry; apply Nat.eqb_neq; lia).
  - intros d [Hc _]. simpl. by rewrite Hc.
  - intros d a [Hc Hk] ? Ha ?. simpl in *. rewrite Hc.
    replace (critical d =? 0)%nat with false by (symmetry; apply Nat.eqb_neq; lia). simpl.
    by replace (a / 4096 * 4096) with a by (Z.div_mod_to_equations; lia).
Defined.

Definition blank_dev : spi_dev :=
  {| cells := ∅; status_reg := 0; ctrl0 := 0; cache_on := true; critical := 0 |}.

Lemma sdk_SPIWrite_program_witness :
  sdk_SPIWrite (flash_enter blank_dev) 252 (le_bytes 12 0xaabbccddeeff) 8 =
    (SPI_FLASH_RESULT_OK,
     set_cells (nor_program ∅ 252 (le_bytes 8 0xaabbccddeeff)) (flash_enter blank_dev)).
Proof.
  refine (sdk_SPIWrite_program (flash_enter blank_dev) 252 (le_bytes 12 0xaabbccddeeff) 8 _ _ _ _ _);
    [by split; [|simpl; lia] | lia | reflexivity | lia | by vm_compute].
Defined.

Lemma spi_flash_calls_witness :
  (sdk_spi_flash_write blank_dev 4096 (Some [1; 2; 3]) 3).1 = SPI_FLASH_RESULT_OK /\
  (sdk_spi_flash_erase_sector blank_dev 1).1 = SPI_FLASH_RESULT_OK.
Proof.
  destruct (spi_flash_calls blank_dev 4096 [1; 2; 3] 3) as (_ & Hw & He);
    [lia | reflexivity | lia | by vm_compute |].
  split; [by rewrite Hw|]. change 1 with (4096 / sector_size rom_flashchip).
  rewrite He; [done | reflexivity | reflexivity].
Defined.
