(* ===== verification/SpiffsFlash.v ===== *)
(** * The flash glue of SPIFFS: extras/spiffs/esp_spiffs_flash.c and esp_spiffs.c

    SPIFFS, the file system, reads and writes the flash at any address and in
    any length.  esp_spiffs_flash.c serves it by programming the SPI controller
    directly: a command takes its address and byte count from ADDR, its data from
    (or to) the sixteen registers W, and starts when CMD is written.  [SpiCtl]
    holds the controller's commands and the two ROM functions the file calls, and
    [SpiCtlOk] what the data sheets promise: a page program needs an idle chip, a
    write enable just before it, and a range inside one page.

    The theorems are in [SpiffsContract]. *)

From S2P Require Import Prelude Flash SpiFlash.
Local Open Scope Z_scope.

(** ** State *)

(** The flash device, the registers ADDR and W of the controller, and the chip's
    write enable latch and busy bit. *)
Record spi_ctl := {
  dev : spi_dev;
  spi_ADDR : Z;
  spi_W : list Z;
  wel : bool;
  busy : bool
}.

Definition set_dev (d : spi_dev) (c : spi_ctl) : spi_ctl :=
  {| dev := d; spi_ADDR := spi_ADDR c; spi_W := spi_W c; wel := wel c; busy := busy c |}.
Definition set_ADDR (v : Z) (c : spi_ctl) : spi_ctl :=
  {| dev := dev c; spi_ADDR := v; spi_W := spi_W c; wel := wel c; busy := busy c |}.
Definition set_W (v : list Z) (c : spi_ctl) : spi_ctl :=
  {| dev := dev c; spi_ADDR := spi_ADDR c; spi_W := v; wel := wel c; busy := busy c |}.
Definition set_chip_status (w b : bool) (c : spi_ctl) : spi_ctl :=
  {| dev := dev c; spi_ADDR := spi_ADDR c; spi_W := spi_W c; wel := w; busy := b |}.

(** The bytes in the W registers. *)
Definition W_bytes (c : spi_ctl) : list Z := flat_map (le_bytes 4) (spi_W c).

Definition SPI_CMD_READ : Z := 2 ^ 31.
Definition SPI_CMD_PP : Z := 2 ^ 25.
Definition SPI_CMD_SE : Z := 2 ^ 24.

(** [spi_CMD v]: write [v] to CMD and wait until it reads zero. *)
Class SpiCtl := {
  ctl_flashchip : sdk_flashchip_t;
  spi_CMD : Z -> spi_ctl -> spi_ctl;
  Wait_SPI_Idle : spi_ctl -> spi_ctl;
  ctl_write_enable : spi_ctl -> spi_ctl;
  (** The byte found [i] bytes after a buffer's start, past its end. *)
  past_byte : Z -> Z
}.

(** The address and the byte count in ADDR. *)
Definition addr_field (v : Z) : Z := v mod 2 ^ 24.
Definition count_field (v : Z) : Z := v / 2 ^ 24.

Class SpiCtlOk `{SpiCtl} := {
  ctl_chip_ok : flashchip_ok ctl_flashchip;
  ctl_sector_size : sector_size ctl_flashchip = 4096;
  ctl_page_size : page_size ctl_flashchip = 256;
  past_byte_ok i : is_byte (past_byte i);
  wait_idle_ok c : Wait_SPI_Idle c = set_chip_status (wel c) false c;
  ctl_write_enable_ok c :
    quiet (dev c) -> busy c = false -> ctl_write_enable c = set_chip_status true false c;
  cmd_pp_ok c :
    let a := addr_field (spi_ADDR c) in
    let n := count_field (spi_ADDR c) in
    quiet (dev c) -> busy c = false -> wel c = true ->
    1 <= n <= 64 -> n <= Z.of_nat (length (W_bytes c)) ->
    n <= page_size ctl_flashchip - a mod page_size ctl_flashchip ->
    a + n <= chip_size ctl_flashchip ->
    spi_CMD SPI_CMD_PP c =
      set_chip_status false true
        (set_dev (set_cells
          (nor_program (cells (dev c)) a (take (Z.to_nat n) (W_bytes c))) (dev c)) c);
  cmd_read_ok c :
    let a := addr_field (spi_ADDR c) in
    let n := count_field (spi_ADDR c) in
    quiet (dev c) -> busy c = false -> (forall b, is_byte (cell (cells (dev c)) b)) ->
    1 <= n <= 60 -> a + n <= chip_size ctl_flashchip ->
    exists w, spi_CMD SPI_CMD_READ c = set_W w c /\ (length w = 16)%nat /\
      take (Z.to_nat n) (W_bytes (set_W w c)) =
        map (fun i => cell (cells (dev c)) (a + Z.of_nat i)) (seq 0 (Z.to_nat n));
  cmd_se_ok c :
    let a := addr_field (spi_ADDR c) in
    quiet (dev c) -> busy c = false -> wel c = true ->
    spi_ADDR c = a -> a mod 4096 = 0 -> a + 4096 <= chip_size ctl_flashchip ->
    spi_CMD SPI_CMD_SE c =
      set_chip_status false true
        (set_dev (set_cells (nor_erase (cells (dev c)) a 4096) (dev c)) c)
}.

(** ** The functions *)

Section functions.
Context `{SpiCtl}.

Definition ESP_SPIFFS_FLASH_OK : Z := 0.
Definition ESP_SPIFFS_FLASH_ERROR : Z := 1.
Definition SPI_WRITE_MAX_SIZE : Z := 64.
Definition SPI_READ_MAX_SIZE : Z := 60.

(** The word at byte [k] of a buffer, which need not be aligned. *)
Definition unaligned_word (src : list Z) (k : nat) : Z :=
  le_val (map (fun i => default (past_byte (Z.of_nat (k + i))) (src !! (k + i)%nat)) (seq 0 4)).

Fixpoint u_src_loop (words : nat) (k : nat) (src w : list Z) : list Z :=
  match words with
  | O => w
  | S words => unaligned_word src k :: u_src_loop words (k + 4) src (tail w)
  end.
Definition memcpy_unaligned_src (w : list Z) (src : list Z) (words : Z) : list Z :=
  u_src_loop (Z.to_nat (u8 words)) 0 src w.

(** The byte loop and the word loop: [n] bytes are left, at least one. *)
Fixpoint u_dst_loop (w : list Z) (n : nat) : list Z :=
  match w with
  | [] => []
  | x :: w => le_bytes (Nat.min n 4) x ++ (if (n <=? 4)%nat then [] else u_dst_loop w (n - 4))
  end.
Fixpoint aligned_dst_loop (w : list Z) (n : nat) : list Z :=
  match w with
  | [] => []
  | x :: w => le_bytes 4 x ++ (if (n - 4 =? 0)%nat then [] else aligned_dst_loop w (n - 4))
  end.
Definition memcpy_unaligned_dst (w : list Z) (bytes : Z) : list Z :=
  let n := Z.to_nat (u8 bytes) in
  if (n =? 0)%nat then []
  else if Z.land (u8 bytes) 3 =? 0 then aligned_dst_loop w n
  else u_dst_loop w n.

Definition spi_write_data (addr : Z) (buf : list Z) (size : Z) : ST spi_ctl unit :=
  let words := Z.shiftr size 2 in
  let words := if Z.land size 3 =? 0 then words else words + 1 in
  st_modify Wait_SPI_Idle;;
  st_modify (set_ADDR (Z.lor (Z.land addr 0x00FFFFFF) (u32 (Z.shiftl size 24))));;
  c ← st_get;
  st_put (set_W (memcpy_unaligned_src (spi_W c) buf words) c);;
  st_modify ctl_write_enable;;
  st_modify (spi_CMD SPI_CMD_PP).

(** The loop of spi_write_page and the write after it. *)
Fixpoint write_blocks (fuel : nat) (dest_addr : Z) (buf : list Z) (size : Z) : ST spi_ctl Z :=
  if SPI_WRITE_MAX_SIZE <=? size then
    match fuel with
    | O => out_of_fuel
    | S fuel =>
        spi_write_data dest_addr buf SPI_WRITE_MAX_SIZE;;
        let size := size - SPI_WRITE_MAX_SIZE in
        let dest_addr := u32 (dest_addr + SPI_WRITE_MAX_SIZE) in
        let buf := drop (Z.to_nat SPI_WRITE_MAX_SIZE) buf in
        if size <? 1 then mret ESP_SPIFFS_FLASH_OK
        else write_blocks fuel dest_addr buf size
    end
  else
    spi_write_data dest_addr buf size;;
    mret ESP_SPIFFS_FLASH_OK.

Definition spi_write_page (dest_addr : Z) (buf : list Z) (size : Z) : ST spi_ctl Z :=
  let page := page_size ctl_flashchip in
  if page <? u32 (size + dest_addr mod page) then mret ESP_SPIFFS_FLASH_ERROR
  else if size <? 1 then mret ESP_SPIFFS_FLASH_OK
  else write_blocks (S (Z.to_nat (size / SPI_WRITE_MAX_SIZE))) dest_addr buf size.

(** The loop of spi_write over the full pages; [i] is a uint8_t.  [None] is an
    early return. *)
Fixpoint write_pages (fuel : nat) (i pages_to_write addr : Z) (dst : list Z) (offset : Z)
    : ST spi_ctl (option Z) :=
  if i =? pages_to_write then mret (Some offset)
  else
    match fuel with
    | O => out_of_fuel
    | S fuel =>
        err ← spi_write_page (u32 (addr + offset)) (drop (Z.to_nat offset) dst)
                (page_size ctl_flashchip);
        if err =? 0 then
          write_pages fuel (u8 (i + 1)) pages_to_write addr dst
            (u32 (offset + page_size ctl_flashchip))
        else mret None
    end.

Definition spi_write (fuel : nat) (addr : Z) (dst : list Z) (size : Z) : ST spi_ctl Z :=
  let page := page_size ctl_flashchip in
  if chip_size ctl_flashchip <? u32 (addr + size) then mret ESP_SPIFFS_FLASH_ERROR
  else
    let write_bytes_to_page := page - addr mod page in
    if size <? write_bytes_to_page then
      err ← spi_write_page addr dst size;
      mret (if err =? 0 then ESP_SPIFFS_FLASH_OK else ESP_SPIFFS_FLASH_ERROR)
    else
      err ← spi_write_page addr dst write_bytes_to_page;
      if err =? 0 then
        let offset := write_bytes_to_page in
        let pages_to_write := (size - offset) / page in
        r ← write_pages fuel 0 pages_to_write addr dst offset;
        match r with
        | None => mret ESP_SPIFFS_FLASH_ERROR
        | Some offset =>
            err ← spi_write_page (u32 (addr + offset)) (drop (Z.to_nat offset) dst)
                    (u32 (size - offset));
            mret (if err =? 0 then ESP_SPIFFS_FLASH_OK else ESP_SPIFFS_FLASH_ERROR)
        end
      else mret ESP_SPIFFS_FLASH_ERROR.

(** vPortEnterCritical and Cache_Read_Disable; Cache_Read_Enable and
    vPortExitCritical. *)
Definition ctl_enter (c : spi_ctl) : spi_ctl := set_dev (flash_enter (dev c)) c.
Definition ctl_leave (c : spi_ctl) : spi_ctl := set_dev (flash_leave (dev c)) c.

(** [buf = None] is the null pointer. *)
Definition esp_spiffs_flash_write (fuel : nat) (addr : Z) (buf : option (list Z)) (size : Z)
    : ST spi_ctl Z :=
  match buf with
  | None => mret ESP_SPIFFS_FLASH_ERROR
  | Some buf =>
      st_modify ctl_enter;;
      result ← spi_write fuel addr buf size;
      st_modify Wait_SPI_Idle;;
      st_modify ctl_leave;;
      mret result
  end.

Definition read_block (addr size : Z) : ST spi_ctl (list Z) :=
  st_modify (set_ADDR (Z.lor (Z.land addr 0x00FFFFFF) (u32 (Z.shiftl size 24))));;
  st_modify (spi_CMD SPI_CMD_READ);;
  c ← st_get;
  mret (memcpy_unaligned_dst (spi_W c) size).

(** The loop of read_data and the read after it: the bytes stored from [dst] on. *)
Fixpoint read_blocks (fuel : nat) (addr size : Z) : ST spi_ctl (list Z) :=
  if SPI_READ_MAX_SIZE <=? size then
    match fuel with
    | O => out_of_fuel
    | S fuel =>
        bs ← read_block addr SPI_READ_MAX_SIZE;
        rest ← read_blocks fuel (u32 (addr + SPI_READ_MAX_SIZE)) (size - SPI_READ_MAX_SIZE);
        mret (bs ++ rest)
    end
  else if 0 <? size then read_block addr size
  else mret [].

Definition read_data (addr size : Z) : ST spi_ctl (Z * list Z) :=
  if size <? 1 then mret (ESP_SPIFFS_FLASH_OK, [])
  else if chip_size ctl_flashchip <? u32 (addr + size) then mret (ESP_SPIFFS_FLASH_ERROR, [])
  else
    bs ← read_blocks (S (Z.to_nat (size / SPI_READ_MAX_SIZE))) addr size;
    mret (ESP_SPIFFS_FLASH_OK, bs).

Definition esp_spiffs_flash_read (dest_addr : Z) (buf_null : bool) (size : Z)
    : ST spi_ctl (Z * list Z) :=
  if buf_null then mret (ESP_SPIFFS_FLASH_ERROR, [])
  else
    st_modify ctl_enter;;
    result ← read_data dest_addr size;
    st_modify ctl_leave;;
    mret result.

Definition esp_spiffs_flash_erase_sector (addr : Z) : ST spi_ctl Z :=
  if chip_size ctl_flashchip <? u32 (addr + sector_size ctl_flashchip) then
    mret ESP_SPIFFS_FLASH_ERROR
  else if negb (Z.land addr 0xFFF =? 0) then mret ESP_SPIFFS_FLASH_ERROR
  else
    st_modify ctl_enter;;
    st_modify ctl_write_enable;;
    st_modify (set_ADDR (Z.land addr 0x00FFFFFF));;
    st_modify (spi_CMD SPI_CMD_SE);;
    st_modify Wait_SPI_Idle;;
    st_modify ctl_leave;;
    mret ESP_SPIFFS_FLASH_OK.

(** ** The functions SPIFFS calls (esp_spiffs.c) *)

Definition SPIFFS_OK : Z := 0.
Definition SPIFFS_ERR_INTERNAL : Z := -10050.
Definition SPI_FLASH_SEC_SIZE : Z := 4096.

Definition esp_spiffs_read (addr size : Z) (dst_null : bool) : ST spi_ctl (Z * list Z) :=
  r ← esp_spiffs_flash_read addr dst_null size;
  mret (if r.1 =? ESP_SPIFFS_FLASH_ERROR then SPIFFS_ERR_INTERNAL else SPIFFS_OK, r.2).

Definition esp_spiffs_write (fuel : nat) (addr size : Z) (src : option (list Z)) : ST spi_ctl Z :=
  r ← esp_spiffs_flash_write fuel addr src size;
  mret (if r =? ESP_SPIFFS_FLASH_ERROR then SPIFFS_ERR_INTERNAL else SPIFFS_OK).

(** The loop of esp_spiffs_erase: [k] sectors left, [i] erased. *)
Fixpoint erase_loop (k : nat) (addr i : Z) : ST spi_ctl Z :=
  match k with
  | O => mret SPIFFS_OK
  | S k =>
      r ← esp_spiffs_flash_erase_sector (u32 (addr + SPI_FLASH_SEC_SIZE * i));
      if r =? ESP_SPIFFS_FLASH_ERROR then mret SPIFFS_ERR_INTERNAL
      else erase_loop k addr (i + 1)
  end.
Definition esp_spiffs_erase (addr size : Z) : ST spi_ctl Z :=
  erase_loop (Z.to_nat (size / SPI_FLASH_SEC_SIZE)) addr 0.
End functions.
