(* ===== verification/SpiffsContract.v ===== *)
(** * The flash glue of SPIFFS is correct

    [esp_spiffs_flash_write_programs]: a write at any address programs exactly the
    bytes it is given; [spiffs_hal_roundtrip]: the three functions that
    esp_spiffs.c gives to the file system, together; and
    [esp_spiffs_flash_write_hangs]: the lengths for which a write never ends.  The
    witnesses run the code on the controller [sim_ctl]. *)

From S2P Require Import Prelude Flash SpiFlash SpiffsFlash.
Local Open Scope Z_scope.

(** ** Copying between the buffer and the registers *)

Section copies.
Context `{SpiCtlOk}.

(** The byte the code finds at [k] in a buffer. *)
Definition mem_byte (src : list Z) (k : nat) : Z := default (past_byte (Z.of_nat k)) (src !! k).

Lemma mem_byte_byte src k : Forall is_byte src -> is_byte (mem_byte src k).
Proof.
  intros Hb. unfold mem_byte. destruct (src !! k) eqn:E; simpl; [|apply past_byte_ok].
  by eapply Forall_lookup_1 in E.
Qed.

Lemma unaligned_word_bytes src k : Forall is_byte src ->
  le_bytes 4 (unaligned_word src k) = map (fun i => mem_byte src (k + i)) (seq 0 4).
Proof.
  intros Hb. apply (le_bytes_val (map (fun i => mem_byte src (k + i)) (seq 0 4))).
  simpl. repeat constructor; by apply mem_byte_byte.
Qed.

Lemma u_src_loop_bytes words k src w : Forall is_byte src ->
  flat_map (le_bytes 4) (u_src_loop words k src w) =
    map (fun i => mem_byte src (k + i)) (seq 0 (4 * words)) ++
    flat_map (le_bytes 4) (drop words w).
Proof.
  intros Hb. revert k w; induction words as [|words IH]; intros k w; [done|].
  cbn [u_src_loop flat_map]. rewrite unaligned_word_bytes, IH by done.
  replace (4 * S words)%nat with (4 + 4 * words)%nat by lia.
  rewrite seq_app, map_app, <- app_assoc. do 2 f_equal.
  - change (0 + 4)%nat with (4 + 0)%nat. rewrite <- fmap_add_seq, map_map.
    apply map_ext. intros i. f_equal. lia.
  - by destruct w as [|x w]; simpl; rewrite ?drop_nil.
Qed.

Lemma memcpy_unaligned_src_bytes w src words n :
  Forall is_byte src -> 0 <= words < 256 -> 0 <= n <= 4 * words ->
  n <= Z.of_nat (length src) ->
  take (Z.to_nat n) (flat_map (le_bytes 4) (memcpy_unaligned_src w src words)) =
    take (Z.to_nat n) src.
Proof.
  intros Hb ???. unfold memcpy_unaligned_src. rewrite u8_small, u_src_loop_bytes by (done || lia).
  rewrite take_app_le by (rewrite length_map, length_seq; lia).
  apply list_eq; intros i. destruct (decide (i < Z.to_nat n)%nat).
  - rewrite !lookup_take_lt, list_lookup_fmap, lookup_seq_lt by lia. simpl. unfold mem_byte.
    destruct (lookup_lt_is_Some_2 src i) as [b ->]; [lia|done].
  - rewrite !lookup_take_ge; auto; lia.
Qed.

Lemma length_W_bytes w : length (flat_map (le_bytes 4) w) = (4 * length w)%nat.
Proof.
  induction w as [|x w IH]; [done|]. cbn [flat_map].
  rewrite length_app, IH, length_le_bytes. simpl. lia.
Qed.

Lemma length_u_src_loop words k src w :
  length (u_src_loop words k src w) = Nat.max words (length w).
Proof.
  revert k w; induction words as [|words IH]; intros k w; simpl; [done|].
  rewrite IH. destruct w; simpl; lia.
Qed.

Lemma le_bytes_take n m x : (n <= m)%nat -> le_bytes n x = take n (le_bytes m x).
Proof.
  revert m x; induction n as [|n IH]; intros [|m] x Hn; simpl; try done; try lia.
  f_equal. apply IH. lia.
Qed.

Lemma u_dst_loop_take w n : (0 < n <= 4 * length w)%nat ->
  u_dst_loop w n = take n (flat_map (le_bytes 4) w).
Proof.
  revert n; induction w as [|x w IH]; intros n Hn; simpl in Hn; [lia|].
  cbn [u_dst_loop flat_map]. rewrite take_app, length_le_bytes.
  rewrite (le_bytes_take (Nat.min n 4) 4) by lia.
  rewrite <- (firstn_all2 (le_bytes 4 x)) at 2 by (rewrite length_le_bytes; reflexivity).
  rewrite take_take. f_equal. case_match eqn:E; zbool.
  - apply Nat.leb_le in E. by replace (n - 4)%nat with 0%nat by lia.
  - apply Nat.leb_gt in E. apply IH. lia.
Qed.

Lemma aligned_dst_loop_take w n : (0 < n <= 4 * length w)%nat -> (n mod 4 = 0)%nat ->
  aligned_dst_loop w n = take n (flat_map (le_bytes 4) w).
Proof.
  revert n; induction w as [|x w IH]; intros n Hn Hm; simpl in Hn; [lia|].
  pose proof (Nat.div_mod n 4 ltac:(lia)).
  cbn [aligned_dst_loop flat_map].
  rewrite take_app_ge by (rewrite length_le_bytes; lia). rewrite length_le_bytes.
  f_equal. case_match eqn:E.
  - apply Nat.eqb_eq in E. by rewrite E.
  - apply Nat.eqb_neq in E. apply IH; [lia|].
    replace (n - 4)%nat with ((n / 4 - 1) * 4)%nat by lia. apply Nat.Div0.mod_mul.
Qed.

Lemma memcpy_unaligned_dst_bytes w n :
  0 < n < 256 -> n <= 4 * Z.of_nat (length w) ->
  memcpy_unaligned_dst w n = take (Z.to_nat n) (flat_map (le_bytes 4) w).
Proof.
  intros ??. unfold memcpy_unaligned_dst. rewrite u8_small by lia.
  destruct (Nat.eqb_spec (Z.to_nat n) 0); [lia|].
  change 3 with (Z.ones 2). rewrite Z.land_ones by lia. change (2 ^ 2) with 4.
  destruct (Z.eqb_spec (n mod 4) 0) as [E|E].
  - apply aligned_dst_loop_take; [lia|]. rewrite <- (Z2Nat.id n) in E by lia.
    change 4 with (Z.of_nat 4) in E. rewrite <- Nat2Z.inj_mod in E. lia.
  - apply u_dst_loop_take. lia.
Qed.
End copies.

(** ** Programming *)

Lemma addr_reg addr size : 0 <= addr < 2 ^ 24 -> 0 <= size < 256 ->
  Z.lor (Z.land addr 0x00FFFFFF) (u32 (Z.shiftl size 24)) = addr + size * 2 ^ 24.
Proof.
  intros ??. change 0x00FFFFFF with (Z.ones 24).
  rewrite Z.land_ones, Z.mod_small, Z.shiftl_mul_pow2, u32_small by lia.
  by rewrite <- Z.shiftl_mul_pow2, lor_low_high by lia.
Qed.

Lemma addr_reg_fields addr size : 0 <= addr < 2 ^ 24 -> 0 <= size < 256 ->
  addr_field (Z.lor (Z.land addr 0x00FFFFFF) (u32 (Z.shiftl size 24))) = addr /\
  count_field (Z.lor (Z.land addr 0x00FFFFFF) (u32 (Z.shiftl size 24))) = size.
Proof.
  intros ??. rewrite addr_reg by done. unfold addr_field, count_field.
  rewrite Z.mod_add, Z.div_add, Z.mod_small, Z.div_small by lia. lia.
Qed.

Section programming.
Context `{SpiCtlOk}.
Implicit Types (c : spi_ctl) (buf : list Z).

(** The bytes [bs] have been programmed at [a]: nothing else of the device
    changed. *)
Definition programmed c (a : Z) (bs : list Z) c' : Prop :=
  dev c' = set_cells (nor_program (cells (dev c)) a bs) (dev c).

Lemma programmed_nil c a : programmed c a [] c.
Proof. unfold programmed. simpl. by destruct (dev c). Qed.

Lemma programmed_app c a l k c' c'' :
  programmed c a l c' -> programmed c' (a + Z.of_nat (length l)) k c'' ->
  programmed c a (l ++ k) c''.
Proof. unfold programmed. intros E1 E2. by rewrite E2, E1, nor_program_app. Qed.

Lemma programmed_quiet c a bs c' : programmed c a bs c' -> quiet (dev c) -> quiet (dev c').
Proof. unfold programmed. by intros ->. Qed.

Definition page := page_size ctl_flashchip.

Lemma words_of_bytes_bounds n : 0 <= n ->
  n <= 4 * (if Z.land n 3 =? 0 then Z.shiftr n 2 else Z.shiftr n 2 + 1) < n + 4.
Proof.
  intros ?. replace (Z.land n 3) with (n mod 4) by (symmetry; apply (Z.land_ones n 2); lia).
  rewrite Z.shiftr_div_pow2 by lia. change (2 ^ 2) with 4.
  destruct (Z.eqb_spec (n mod 4) 0); Z.div_mod_to_equations; lia.
Qed.

Lemma spi_write_data_programs c a buf n :
  quiet (dev c) -> Forall is_byte buf -> 0 <= a -> 1 <= n <= 64 ->
  n <= Z.of_nat (length buf) -> n <= page - a mod page -> a + n <= chip_size ctl_flashchip ->
  wp (spi_write_data a buf n) (fun _ c' => programmed c a (take (Z.to_nat n) buf) c') c.
Proof.
  intros Hq Hb ?????. pose proof ctl_chip_ok as [_ _ _ _ _ Hc _].
  destruct (addr_reg_fields a n) as [Ea En]; [lia..|].
  unfold spi_write_data. wp_steps. rewrite wait_idle_ok.
  set (w := if Z.land n 3 =? 0 then _ else _).
  assert (Hw : n <= 4 * w < n + 4) by (apply words_of_bytes_bounds; lia).
  rewrite ctl_write_enable_ok by done.
  assert (Hlen : (Z.to_nat n <= length (W_bytes (set_W (memcpy_unaligned_src (spi_W c) buf w) c)))%nat).
  { unfold W_bytes. rewrite length_W_bytes. cbn [spi_W set_W]. unfold memcpy_unaligned_src.
    rewrite length_u_src_loop, u8_small by lia. lia. }
  rewrite cmd_pp_ok; cbn [spi_ADDR set_W set_ADDR set_chip_status dev busy wel];
    rewrite ?Ea, ?En; unfold W_bytes in *; cbn [spi_W set_W set_ADDR set_chip_status] in *; auto; try lia.
  unfold programmed. simpl. by rewrite memcpy_unaligned_src_bytes by (done || lia).
Qed.

Lemma take_drop_app (l : list Z) n m : (n <= m)%nat ->
  take n l ++ take (m - n) (drop n l) = take m l.
Proof. intros. rewrite take_take_drop. f_equal. lia. Qed.

Lemma mod_page_add a k : 0 < page -> 0 <= k -> a mod page + k < page ->
  (a + k) mod page = a mod page + k.
Proof.
  intros ???. pose proof (Z.mod_pos_bound a page).
  rewrite (Z.div_mod a page) at 1 by lia.
  replace (page * (a / page) + a mod page + k) with (a mod page + k + a / page * page) by lia.
  rewrite Z.mod_add by lia. apply Z.mod_small. lia.
Qed.

Lemma write_blocks_programs fuel c a buf n :
  quiet (dev c) -> Forall is_byte buf -> 0 <= a -> 1 <= n ->
  n <= Z.of_nat (length buf) -> n <= page - a mod page -> a + n <= chip_size ctl_flashchip ->
  n / 64 < Z.of_nat fuel ->
  wp (write_blocks fuel a buf n)
    (fun r c' => r = ESP_SPIFFS_FLASH_OK /\ programmed c a (take (Z.to_nat n) buf) c') c.
Proof.
  pose proof ctl_chip_ok as [Hp _ _ _ _ Hc _]. fold page in Hp.
  revert c a buf n; induction fuel as [|fuel IH]; intros c a buf n Hq Hb ????? Hf.
  { pose proof (Z.div_pos n 64). lia. }
  cbn [write_blocks]. unfold SPI_WRITE_MAX_SIZE. destruct (Z.leb_spec 64 n).
  - wp_steps. eapply wp_mono; [apply spi_write_data_programs; auto; lia|].
    intros [] c' Hc1. destruct (Z.ltb_spec (n - 64) 1).
    { apply wp_ret. split; [done|]. by replace n with 64 by lia. }
    assert (Hlt : 64 < n) by lia.
    assert ((a + 64) mod page = a mod page + 64) by (apply mod_page_add; lia).
    rewrite u32_small by lia.
    eapply wp_mono; [apply IH|]; eauto using programmed_quiet, Forall_drop; try lia.
    + rewrite length_drop. lia.
    + replace (n - 64) with (n + (-1) * 64) by lia. rewrite Z.div_add; lia.
    + intros r c'' [-> Hc2]. split; [done|].
      rewrite <- (take_drop_app buf 64) by lia. eapply programmed_app; [exact Hc1|].
      rewrite length_take_le by lia. change (Z.of_nat 64) with 64.
      by replace (Z.to_nat n - 64)%nat with (Z.to_nat (n - 64)) by lia.
  - wp_steps. eapply wp_mono; [apply spi_write_data_programs; auto; lia|].
    intros [] c' Hc1. by apply wp_ret.
Qed.

Lemma spi_write_page_programs c a buf n :
  quiet (dev c) -> Forall is_byte buf -> 0 <= a -> 0 <= n ->
  n <= Z.of_nat (length buf) -> n <= page - a mod page -> a + n <= chip_size ctl_flashchip ->
  wp (spi_write_page a buf n)
    (fun r c' => r = ESP_SPIFFS_FLASH_OK /\ programmed c a (take (Z.to_nat n) buf) c') c.
Proof.
  intros. pose proof ctl_chip_ok as [Hp _ _ _ _ Hc _].
  unfold spi_write_page. fold page in Hp |- *.
  pose proof (Z.mod_pos_bound a page Hp). pose proof (Z.mod_le a page).
  rewrite u32_small by lia. zif. destruct (Z.ltb_spec n 1).
  { apply wp_ret. replace n with 0 by lia. split; [done|]. apply programmed_nil. }
  unfold SPI_WRITE_MAX_SIZE. pose proof (Z.div_pos n 64).
  apply write_blocks_programs; auto; lia.
Qed.

Lemma write_pages_programs fuel c i pages a dst off :
  quiet (dev c) -> Forall is_byte dst -> 0 <= a -> 0 <= off -> 0 <= i <= pages -> pages < 256 ->
  pages - i <= Z.of_nat fuel -> (a + off) mod page = 0 ->
  off + (pages - i) * page <= Z.of_nat (length dst) ->
  a + off + (pages - i) * page <= chip_size ctl_flashchip ->
  wp (write_pages fuel i pages a dst off)
    (fun r c' => r = Some (off + (pages - i) * page) /\
       programmed c (a + off)
         (take (Z.to_nat ((pages - i) * page)) (drop (Z.to_nat off) dst)) c') c.
Proof.
  pose proof ctl_chip_ok as [Hp _ _ _ _ Hc _]. fold page in Hp.
  revert c i off; induction fuel as [|fuel IH]; intros c i off Hq Hb ?????? Hd Hfit;
    cbn [write_pages]; destruct (Z.eqb_spec i pages) as [->|Hne];
    try (apply wp_ret; rewrite Z.sub_diag, Z.mul_0_l, Z.add_0_r; split; [done|];
         apply programmed_nil); [lia|].
  fold page. rewrite !u32_small by nia. rewrite u8_small by lia. wp_steps.
  eapply wp_mono; [apply spi_write_page_programs; auto using Forall_drop;
    rewrite ?length_drop; nia|].
  intros r c' [-> Hc1]. rewrite Z.eqb_refl.
  eapply wp_mono; [apply IH; eauto using programmed_quiet; try lia|].
  { by rewrite Z.add_assoc, <- (Z.mul_1_l page) at 1; rewrite Z.mod_add by lia. }
  intros r c'' [-> Hc2]. split; [f_equal; lia|].
  rewrite <- (take_drop_app _ (Z.to_nat page)) by nia. eapply programmed_app; [exact Hc1|].
  rewrite length_take_le, drop_drop by (rewrite length_drop; nia).
  rewrite Z2Nat.id by lia. rewrite Z.add_assoc in Hc2.
  replace (Z.to_nat ((pages - i) * page) - Z.to_nat page)%nat
    with (Z.to_nat ((pages - (i + 1)) * page)) by nia.
  by replace (Z.to_nat off + Z.to_nat page)%nat with (Z.to_nat (off + page)) by lia.
Qed.

(** The bytes from the first page boundary after [a] on, in whole pages. *)
Definition full_pages (a size : Z) : Z := (size - (page - a mod page)) / page.

Lemma page_after a : 0 < page -> (a + (page - a mod page)) mod page = 0.
Proof.
  intros ?. rewrite (Z.div_mod a page) at 1 by lia.
  replace (page * (a / page) + a mod page + (page - a mod page)) with ((a / page + 1) * page) by lia.
  apply Z.mod_mul. lia.
Qed.

Lemma spi_write_programs fuel c a buf size :
  quiet (dev c) -> Forall is_byte buf -> 0 <= a -> 0 <= size <= Z.of_nat (length buf) ->
  a + size <= chip_size ctl_flashchip -> full_pages a size < 256 -> (256 <= fuel)%nat ->
  wp (spi_write fuel a buf size)
    (fun r c' => r = ESP_SPIFFS_FLASH_OK /\
                 programmed c a (take (Z.to_nat size) buf) c') c.
Proof.
  pose proof ctl_chip_ok as [Hp _ _ _ _ Hc _]. fold page in Hp.
  intros Hq Hb ??? Hpages Hf. unfold spi_write. fold page. unfold full_pages in Hpages.
  pose proof (Z.mod_pos_bound a page Hp). pose proof (page_after a Hp).
  set (f := page - a mod page) in *. rewrite u32_small by lia. zif.
  destruct (Z.ltb_spec size f).
  { wp_steps. eapply wp_mono; [apply spi_write_page_programs; auto; lia|].
    intros r c' [-> Hc1]. by apply wp_ret. }
  wp_steps. eapply wp_mono; [apply spi_write_page_programs; auto; lia|].
  intros r c1 [-> Hc1]. rewrite Z.eqb_refl. wp_steps.
  pose proof (Z.div_mod (size - f) page ltac:(lia)).
  pose proof (Z.mod_pos_bound (size - f) page Hp).
  pose proof (Z.div_pos (size - f) page). set (k := (size - f) / page) in *.
  eapply wp_mono; [apply write_pages_programs; eauto using programmed_quiet; nia|].
  intros r c2 [-> Hc2]. rewrite Z.sub_0_r in *. rewrite !u32_small by nia. wp_steps.
  assert ((a + (f + k * page)) mod page = 0) by (rewrite Z.add_assoc, Z.mod_add by lia; done).
  eapply wp_mono; [apply spi_write_page_programs;
    eauto using programmed_quiet, Forall_drop; rewrite ?length_drop; nia|].
  intros r c3 [-> Hc3]. apply wp_ret. split; [done|].
  rewrite <- (take_drop_app _ (Z.to_nat f)) by lia. eapply programmed_app; [exact Hc1|].
  rewrite length_take_le by lia.
  rewrite <- (take_drop_app _ (Z.to_nat (k * page))) by nia.
  eapply programmed_app; [rewrite Z2Nat.id by lia; exact Hc2|].
  rewrite length_take_le, drop_drop by (rewrite length_drop; nia).
  rewrite !Z2Nat.id by nia. rewrite Z.add_assoc in Hc3.
  replace (Z.to_nat size - Z.to_nat f - Z.to_nat (k * page))%nat
    with (Z.to_nat (size - (f + k * page))) by nia.
  by replace (Z.to_nat f + Z.to_nat (k * page))%nat with (Z.to_nat (f + k * page)) by nia.
Qed.

(** What a call leaves behind: the cells [m], the locks as they were found, and
    an idle chip. *)
Definition idle_with c (m : gmap Z Z) c' : Prop :=
  dev c' = set_locks true (critical (dev c)) (set_cells m (dev c)) /\ busy c' = false.

Lemma quiet_ctl_enter c : quiet (dev (ctl_enter c)).
Proof. apply quiet_enter. Qed.

Lemma flash_write_programs fuel c a buf size :
  Forall is_byte buf -> 0 <= a -> 0 <= size <= Z.of_nat (length buf) ->
  a + size <= chip_size ctl_flashchip -> full_pages a size < 256 -> (256 <= fuel)%nat ->
  wp (esp_spiffs_flash_write fuel a (Some buf) size)
    (fun r c' => r = ESP_SPIFFS_FLASH_OK /\
       idle_with c (nor_program (cells (dev c)) a (take (Z.to_nat size) buf)) c') c.
Proof.
  intros. unfold esp_spiffs_flash_write. wp_steps.
  eapply wp_mono; [apply spi_write_programs; auto using quiet_ctl_enter|].
  intros r c' [-> Hc1]. wp_steps. split; [done|]. unfold programmed in Hc1.
  rewrite wait_idle_ok. unfold idle_with. simpl. by rewrite Hc1.
Qed.
End programming.

(** ** Reading and erasing *)

Section reading.
Context `{SpiCtlOk}.
Implicit Types (c : spi_ctl).

Definition flash_bytes c : Prop := forall b, is_byte (cell (cells (dev c)) b).

(** The bytes of the chip from [a] on. *)
Definition chip_bytes c (a : Z) (n : nat) : list Z :=
  map (fun i => cell (cells (dev c)) (a + Z.of_nat i)) (seq 0 n).

Lemma chip_bytes_app c a n m :
  chip_bytes c a (n + m) = chip_bytes c a n ++ chip_bytes c (a + Z.of_nat n) m.
Proof.
  unfold chip_bytes. rewrite seq_app, map_app. f_equal.
  rewrite <- (Nat.add_0_r (0 + n)), <- fmap_add_seq. unfold fmap. rewrite map_map.
  apply map_ext. intros i. f_equal. lia.
Qed.

Lemma chip_bytes_dev c c' a n : dev c' = dev c -> chip_bytes c' a n = chip_bytes c a n.
Proof. unfold chip_bytes. by intros ->. Qed.

Lemma read_block_reads c a n :
  quiet (dev c) -> busy c = false -> flash_bytes c -> 0 <= a -> 1 <= n <= 60 ->
  a + n <= chip_size ctl_flashchip ->
  wp (read_block a n)
    (fun bs c' => bs = chip_bytes c a (Z.to_nat n) /\ dev c' = dev c /\ busy c' = false) c.
Proof.
  intros Hq Hi Hb ???. pose proof ctl_chip_ok as [_ _ _ _ _ Hc _].
  destruct (addr_reg_fields a n) as [Ea En]; [lia..|].
  unfold read_block. wp_steps. set (v := Z.lor _ _) in *.
  destruct (cmd_read_ok (set_ADDR v c)) as (w & Hw & Hlen & Hbs);
    cbn [spi_ADDR set_ADDR dev busy] in *; rewrite ?Ea, ?En in *; auto; try lia.
  rewrite Hw. cbn [spi_W set_W]. rewrite memcpy_unaligned_dst_bytes by lia. split_and!; auto.
Qed.

Lemma read_blocks_reads fuel c a n :
  quiet (dev c) -> busy c = false -> flash_bytes c -> 0 <= a -> 0 <= n ->
  a + n <= chip_size ctl_flashchip -> n / 60 < Z.of_nat fuel ->
  wp (read_blocks fuel a n)
    (fun bs c' => bs = chip_bytes c a (Z.to_nat n) /\ dev c' = dev c /\ busy c' = false) c.
Proof.
  pose proof ctl_chip_ok as [_ _ _ _ _ Hc _].
  revert c a n; induction fuel as [|fuel IH]; intros c a n Hq Hi Hb ??? Hf.
  { pose proof (Z.div_pos n 60). lia. }
  cbn [read_blocks]. unfold SPI_READ_MAX_SIZE. destruct (Z.leb_spec 60 n).
  - wp_steps. eapply wp_mono; [apply read_block_reads; auto; lia|].
    intros bs c' (-> & Hd & Hi'). wp_steps. rewrite u32_small by lia.
    eapply wp_mono; [apply IH; unfold flash_bytes; rewrite ?Hd; auto; try lia|].
    { replace (n - 60) with (n + (-1) * 60) by lia. rewrite Z.div_add; lia. }
    intros bs c'' (-> & Hd' & Hi''). apply wp_ret. split_and!; [|congruence|done].
    rewrite (chip_bytes_dev c c') by done.
    change (a + 60) with (a + Z.of_nat (Z.to_nat 60)). rewrite <- chip_bytes_app. f_equal. lia.
  - destruct (Z.ltb_spec 0 n); [apply read_block_reads; auto; lia|].
    apply wp_ret. by replace n with 0 by lia.
Qed.

Lemma flash_read_reads c a n :
  busy c = false -> flash_bytes c -> 0 <= a -> 0 <= n ->
  a + n <= chip_size ctl_flashchip ->
  wp (esp_spiffs_flash_read a false n)
    (fun r c' => r = (ESP_SPIFFS_FLASH_OK, chip_bytes c a (Z.to_nat n)) /\
       idle_with c (cells (dev c)) c') c.
Proof.
  intros. pose proof ctl_chip_ok as [_ _ _ _ _ Hc _].
  unfold esp_spiffs_flash_read, read_data. wp_steps. destruct (Z.ltb_spec n 1).
  { wp_steps. replace n with 0 by lia. done. }
  rewrite u32_small by lia. zif. unfold SPI_READ_MAX_SIZE. wp_steps.
  pose proof (Z.div_pos n 60).
  eapply wp_mono; [apply read_blocks_reads; auto using quiet_ctl_enter; lia|].
  intros bs c' (-> & Hd & Hi). wp_steps. split; [done|].
  unfold idle_with. simpl. by rewrite Hd.
Qed.

Lemma flash_erase_erases c a :
  busy c = false -> 0 <= a -> a mod 4096 = 0 -> a + 4096 <= chip_size ctl_flashchip ->
  wp (esp_spiffs_flash_erase_sector a)
    (fun r c' => r = ESP_SPIFFS_FLASH_OK /\
       idle_with c (nor_erase (cells (dev c)) a 4096) c') c.
Proof.
  intros Hi ? Ha ?. pose proof ctl_chip_ok as [_ _ _ _ _ Hc _].
  unfold esp_spiffs_flash_erase_sector. rewrite ctl_sector_size, u32_small by lia. zif.
  change 0xFFF with (Z.ones 12). change 0x00FFFFFF with (Z.ones 24).
  rewrite !Z.land_ones by lia. change (2 ^ 12) with 4096. rewrite Ha. simpl.
  rewrite Z.mod_small by lia. wp_steps.
  rewrite ctl_write_enable_ok by auto using quiet_ctl_enter.
  assert (addr_field a = a) as Ea by (unfold addr_field; apply Z.mod_small; lia).
  rewrite cmd_se_ok; cbn [spi_ADDR set_ADDR set_chip_status dev busy wel]; rewrite ?Ea;
    auto using quiet_ctl_enter.
  rewrite wait_idle_ok. done.
Qed.

(** Between calls the cache is mapped and the chip is idle. *)
Definition rests c : Prop := cache_on (dev c) = true /\ busy c = false.

Lemma idle_with_rests c m c' : idle_with c m c' -> rests c'.
Proof. intros [E ?]. split; [by rewrite E|done]. Qed.
Lemma idle_with_cells c m c' : idle_with c m c' -> cells (dev c') = m.
Proof. intros [E _]. by rewrite E. Qed.
Lemma idle_with_same c : rests c -> idle_with c (cells (dev c)) c.
Proof. intros [Hc ?]. split; [|done]. destruct (dev c). simpl in *. by subst. Qed.
Lemma idle_with_trans c m c' m' c'' : idle_with c m c' -> idle_with c' m' c'' -> idle_with c m' c''.
Proof. intros [E _] [E' ?]. split; [|done]. by rewrite E', E. Qed.

Lemma erase_loop_erases k c a i :
  rests c -> 0 <= a -> 0 <= i -> a mod 4096 = 0 ->
  a + 4096 * (i + Z.of_nat k) <= chip_size ctl_flashchip ->
  wp (erase_loop k a i)
    (fun r c' => r = SPIFFS_OK /\ exists m, idle_with c m c' /\
       forall b, cell m b = if decide (a + 4096 * i <= b < a + 4096 * (i + Z.of_nat k))
                            then 255 else cell (cells (dev c)) b) c.
Proof.
  pose proof ctl_chip_ok as [_ _ _ _ _ Hc _].
  revert c i; induction k as [|k IH]; intros c i Hr ?? Ha Hfit; cbn [erase_loop].
  { apply wp_ret. split; [done|]. eexists. split; [by apply idle_with_same|].
    intros b. by rewrite decide_False by lia. }
  unfold SPI_FLASH_SEC_SIZE. rewrite u32_small by lia. wp_steps.
  eapply wp_mono; [apply flash_erase_erases; [apply Hr|..]; try lia|].
  { by rewrite Z.mul_comm, Z.mod_add by lia. }
  intros r c1 [-> Hc1]. change (ESP_SPIFFS_FLASH_OK =? ESP_SPIFFS_FLASH_ERROR) with false.
  cbn match. eapply wp_mono; [apply IH; eauto using idle_with_rests; lia|].
  intros r c2 (-> & m & Hc2 & Hm). split; [done|]. exists m.
  split; [by eapply idle_with_trans|]. intros b.
  rewrite Hm, (idle_with_cells _ _ _ Hc1), cell_nor_erase. repeat case_decide; try done; lia.
Qed.

Lemma spiffs_erase_erases c a n :
  rests c -> 0 <= a -> a mod 4096 = 0 -> 0 <= n -> n mod 4096 = 0 ->
  a + n <= chip_size ctl_flashchip ->
  wp (esp_spiffs_erase a n)
    (fun r c' => r = SPIFFS_OK /\ exists m, idle_with c m c' /\
       forall b, cell m b = if decide (a <= b < a + n) then 255 else cell (cells (dev c)) b) c.
Proof.
  intros Hr ? Ha ? Hn ?. unfold esp_spiffs_erase, SPI_FLASH_SEC_SIZE.
  assert (n = 4096 * (n / 4096)) as En by (apply Z_div_exact_full_2; lia).
  pose proof (Z.div_pos n 4096).
  eapply wp_mono; [apply erase_loop_erases; auto; lia|].
  intros r c' (-> & m & Hc & Hm). split; [done|]. exists m. split; [done|].
  intros b. rewrite Hm. repeat case_decide; try done; lia.
Qed.

Lemma cell_program m a bs b :
  cell (nor_program m a bs) b =
    match (if decide (a <= b) then bs !! Z.to_nat (b - a) else None) with
    | Some v => Z.land (cell m b) v
    | None => cell m b
    end.
Proof.
  case_decide as Hb; [|by rewrite cell_nor_program_out by lia].
  destruct (bs !! Z.to_nat (b - a)) as [v|] eqn:E.
  - replace b with (a + Z.of_nat (Z.to_nat (b - a))) at 1 2 by lia.
    by rewrite (cell_nor_program_in _ _ _ _ _ E).
  - apply cell_nor_program_out. apply lookup_ge_None_1 in E. lia.
Qed.
End reading.

(** ** The contracts *)

Section contracts.
Context `{SpiCtlOk}.
Implicit Types (c : spi_ctl).

(** Esp_spiffs_flash_write programs exactly the bytes it is given, at any
    address and in any length up to 256 whole pages, through commands that each
    stay inside a page, find the chip idle and come right after a write enable
    (the only case for which the chip promises anything); it returns OK and
    leaves the chip idle and the cache and the critical sections as a task
    expects them. *)
Theorem esp_spiffs_flash_write_programs fuel c a buf size :
  Forall is_byte buf -> 0 <= a -> 0 <= size <= Z.of_nat (length buf) ->
  a + size <= chip_size ctl_flashchip -> full_pages a size < 256 -> (256 <= fuel)%nat ->
  wp (esp_spiffs_flash_write fuel a (Some buf) size)
    (fun r c' => r = ESP_SPIFFS_FLASH_OK /\
       idle_with c (nor_program (cells (dev c)) a (take (Z.to_nat size) buf)) c') c.
Proof. apply flash_write_programs. Qed.

(** The byte at [b] after the range of [n] bytes at [s] is erased and [data] is
    written at [a]. *)
Definition byte_after c (s n a : Z) (data : list Z) (b : Z) : Z :=
  match (if decide (a <= b) then data !! Z.to_nat (b - a) else None) with
  | Some v => v
  | None => if decide (s <= b < s + n) then 255 else cell (cells (dev c)) b
  end.

Lemma cell_after c m s n a data b :
  (forall b, cell m b = if decide (s <= b < s + n) then 255 else cell (cells (dev c)) b) ->
  Forall is_byte data -> s <= a -> a + Z.of_nat (length data) <= s + n ->
  cell (nor_program m a data) b = byte_after c s n a data b.
Proof.
  intros Hm Hd ??. rewrite cell_program, Hm. unfold byte_after.
  destruct (if decide (a <= b) then _ else None) as [v|] eqn:E; [|done].
  case_decide; [|done]. pose proof (lookup_lt_Some _ _ _ E).
  rewrite decide_True by lia. apply land_byte_255. by eapply Forall_lookup_1.
Qed.

Lemma byte_after_byte c s n a data b :
  flash_bytes c -> Forall is_byte data -> is_byte (byte_after c s n a data b).
Proof.
  intros Hc Hd. unfold byte_after.
  destruct (if decide (a <= b) then _ else None) as [v|] eqn:E.
  - case_decide; [|done]. by eapply Forall_lookup_1.
  - destruct (decide (s <= b < s + n)); [unfold is_byte; lia|apply Hc].
Qed.

(** C26: The three functions SPIFFS is given: after it erases whole sectors inside the
    chip and writes data inside them, at any address, a read of any range of the chip
    returns the data where it was written, 0xff in the rest of the sectors, and what was
    there before everywhere else, and all three return SPIFFS_OK. Conditions: the chip
    is idle and works as the flash controller's interface says (SpiCtlOk: 4096-byte
    sectors, 256-byte pages); what is written are bytes and covers fewer than 256 whole pages after the one it starts in. The last is needed: sdk_SPIWrite counts the
    pages in a uint8_t, and a write of 256 whole pages (64 KB) or more never returns. *)
Theorem spiffs_hal_roundtrip fuel c s n a data b len :
  rests c -> flash_bytes c -> Forall is_byte data ->
  0 <= s -> s mod 4096 = 0 -> 0 <= n -> n mod 4096 = 0 -> s + n <= chip_size ctl_flashchip ->
  s <= a -> a + Z.of_nat (length data) <= s + n ->
  full_pages a (Z.of_nat (length data)) < 256 -> (256 <= fuel)%nat ->
  0 <= b -> 0 <= len -> b + len <= chip_size ctl_flashchip ->
  wp (r1 ← esp_spiffs_erase s n;
      r2 ← esp_spiffs_write fuel a (Z.of_nat (length data)) (Some data);
      r3 ← esp_spiffs_read b len false;
      mret (r1, r2, r3))
    (fun r c' =>
       r = (SPIFFS_OK, SPIFFS_OK,
            (SPIFFS_OK, map (fun i => byte_after c s n a data (b + Z.of_nat i))
                          (seq 0 (Z.to_nat len)))) /\ rests c') c.
Proof.
  intros Hr Hb Hd ????????????. wp_steps.
  eapply wp_mono; [by apply spiffs_erase_erases|]. intros r1 c1 (-> & m & Hc1 & Hm).
  unfold esp_spiffs_write, esp_spiffs_read. wp_steps.
  eapply wp_mono; [apply flash_write_programs; auto; lia|]. intros r2 c2 [-> Hc2]. wp_steps.
  rewrite (idle_with_cells _ _ _ Hc1), Nat2Z.id, firstn_all in Hc2.
  assert (Hcell : forall b, cell (cells (dev c2)) b = byte_after c s n a data b).
  { intros b'. rewrite (idle_with_cells _ _ _ Hc2). by apply cell_after. }
  eapply wp_mono; [apply flash_read_reads; auto|].
  { apply Hc2. }
  { intros b'. rewrite Hcell. by apply byte_after_byte. }
  intros r3 c3 [-> Hc3]. wp_steps. split; [|by eapply idle_with_rests]. simpl. f_equal. f_equal.
  unfold chip_bytes. apply map_ext. auto.
Qed.

(** The control flow of spi_write_page does not depend on the chip. *)
Lemma write_blocks_returns fuel c a buf n :
  0 <= n -> n / 64 < Z.of_nat fuel ->
  exists c', write_blocks fuel a buf n c = Some (ESP_SPIFFS_FLASH_OK, c').
Proof.
  revert c a buf n; induction fuel as [|fuel IH]; intros c a buf n Hn Hf.
  { pose proof (Z.div_pos n 64). lia. }
  cbn [write_blocks]. unfold SPI_WRITE_MAX_SIZE. destruct (Z.leb_spec 64 n); [|by eexists].
  rewrite (bind_run _ _ _ () _ eq_refl). destruct (n - 64 <? 1); [by eexists|].
  apply IH; [lia|]. replace (n - 64) with (n + (-1) * 64) by lia. rewrite Z.div_add; lia.
Qed.

Lemma spi_write_page_returns c a buf n :
  0 <= n -> n + a mod 256 <= 256 ->
  exists c', spi_write_page a buf n c = Some (ESP_SPIFFS_FLASH_OK, c').
Proof.
  intros Hn Ha. pose proof (Z.mod_pos_bound a 256 ltac:(lia)).
  unfold spi_write_page. rewrite ctl_page_size, u32_small by lia.
  zif. destruct (n <? 1); [by eexists|]. apply write_blocks_returns; [done|].
  unfold SPI_WRITE_MAX_SIZE. pose proof (Z.div_pos n 64). lia.
Qed.

Lemma write_pages_loops fuel c i pages a dst off :
  0 <= i < 256 -> 256 <= pages -> (a + off) mod 256 = 0 ->
  write_pages fuel i pages a dst off c = None.
Proof.
  revert c i off; induction fuel as [|fuel IH]; intros c i off ?? Ha;
    cbn [write_pages]; zif; [done|].
  rewrite ctl_page_size. unfold u32 at 1.
  destruct (spi_write_page_returns c ((a + off) mod 2 ^ 32) (drop (Z.to_nat off) dst) 256)
    as [c' Hc']; [lia| |].
  { change (2 ^ 32) with (256 * 2 ^ 24). rewrite Z.rem_mul_r, Ha by lia.
    rewrite Z.add_0_l, Z.mul_comm, Z.mod_mul by lia. lia. }
  rewrite (bind_run _ _ _ _ _ Hc'). cbn match. apply IH; [apply u8_range|done|].
  unfold u32. change (2 ^ 32) with (256 * 2 ^ 24). rewrite Z.rem_mul_r by lia.
  rewrite (Z.mul_comm 256), Z.add_assoc, Z.mod_add by lia.
  rewrite Zplus_mod_idemp_r, Z.add_assoc.
  by rewrite <- Zplus_mod_idemp_r, Z_mod_same_full, Z.add_0_r.
Qed.

(** A write of 256 or more whole pages passes the bounds check and never
    returns, whatever the chip does: the page counter is a uint8_t and never
    equals the number of pages. *)
Theorem esp_spiffs_flash_write_hangs fuel c a buf size :
  0 <= a -> u32 (a + size) <= chip_size ctl_flashchip -> 256 <= full_pages a size ->
  esp_spiffs_flash_write fuel a (Some buf) size c = None.
Proof.
  intros Ha Hfit Hp. unfold full_pages, page in Hp. rewrite ctl_page_size in Hp.
  unfold esp_spiffs_flash_write. rewrite (bind_run _ _ _ () _ eq_refl).
  enough (spi_write fuel a buf size (ctl_enter c) = None) as E.
  { unfold mbind, st_bind. by rewrite E. }
  unfold spi_write. rewrite ctl_page_size. pose proof (Z.mod_pos_bound a 256 ltac:(lia)).
  zif. destruct (Z.ltb_spec size (256 - a mod 256)).
  { pose proof (Z.div_lt_upper_bound (size - (256 - a mod 256)) 256 0). lia. }
  destruct (spi_write_page_returns (ctl_enter c) a buf (256 - a mod 256)) as [c' Hc']; [lia..|].
  rewrite (bind_run _ _ _ _ _ Hc'). change (ESP_SPIFFS_FLASH_OK =? 0) with true. cbn match.
  unfold mbind, st_bind. rewrite write_pages_loops; [done|lia|done|].
  pose proof (page_after a) as Hpa. unfold page in Hpa. rewrite ctl_page_size in Hpa. apply Hpa. lia.
Qed.
End contracts.

(** ** A controller and its chip

    A W25Q32-like chip behind the controller: a command is ignored when the
    chip's rules are broken, and a page program wraps inside its page. *)
Section sim.

(** The words whose bytes are [f 0], [f 1], ... *)
Definition words_of (f : nat -> Z) (n : nat) : list Z :=
  map (fun k => le_val (map (fun i => f (4 * k + i)%nat) (seq 0 4))) (seq 0 n).

Lemma words_of_bytes_run f n : (forall i, is_byte (f i)) ->
  flat_map (le_bytes 4) (words_of f n) = map f (seq 0 (4 * n)).
Proof.
  intros Hf. unfold words_of.
  enough (forall j, flat_map (le_bytes 4)
      (map (fun k => le_val (map (fun i => f (4 * k + i)%nat) (seq 0 4))) (seq j n)) =
    map f (seq (4 * j) (4 * n))) as E by apply (E 0%nat).
  induction n as [|n IH]; intros j; [done|].
  replace (4 * S n)%nat with (4 + 4 * n)%nat by lia.
  rewrite seq_app, map_app. replace (4 * j + 4)%nat with (4 * S j)%nat by lia.
  rewrite <- IH. rewrite <- (cons_seq n j). cbn [map flat_map]. f_equal.
  etransitivity; [apply (le_bytes_val (map (fun i => f (4 * j + i)%nat) (seq 0 4))); simpl; auto 6|].
  transitivity (map f (Nat.add (4 * j) <$> seq 0 4)); [by rewrite map_map|].
  by rewrite fmap_add_seq, Nat.add_0_r.
Qed.

Definition sim_refuses (c : spi_ctl) : bool :=
  cache_on (dev c) || (critical (dev c) =? 0)%nat || busy c.

Definition sim_CMD (v : Z) (c : spi_ctl) : spi_ctl :=
  let a := addr_field (spi_ADDR c) in
  let n := count_field (spi_ADDR c) in
  let m := cells (dev c) in
  if sim_refuses c then c
  else if v =? SPI_CMD_READ then
    set_W (words_of (fun i => if Z.of_nat i <? n then cell m (a + Z.of_nat i) else 0) 16) c
  else if negb (wel c) then c
  else if v =? SPI_CMD_PP then
    set_chip_status false true
      (set_dev (set_cells (program_in_page m (a / 256 * 256) (a mod 256)
                             (take (Z.to_nat n) (W_bytes c))) (dev c)) c)
  else if v =? SPI_CMD_SE then
    set_chip_status false true
      (set_dev (set_cells (nor_erase m (a / 4096 * 4096) 4096) (dev c)) c)
  else c.
End sim.

#[export] Instance sim_ctl : SpiCtl := {|
  ctl_flashchip := w25q32;
  spi_CMD := sim_CMD;
  Wait_SPI_Idle := fun c => set_chip_status (wel c) false c;
  ctl_write_enable := fun c => if sim_refuses c then c else set_chip_status true false c;
  past_byte := fun i => i mod 256
|}.

Lemma sim_accepts c : quiet (dev c) -> busy c = false -> sim_refuses c = false.
Proof.
  intros [Hc Hk] Hb. unfold sim_refuses. rewrite Hc, Hb.
  by replace (critical (dev c) =? 0)%nat with false by (symmetry; apply Nat.eqb_neq; lia).
Qed.

#[export] Instance sim_ctl_ok : SpiCtlOk.
Proof.
  split; try done.
  - intros i. apply (Z.mod_pos_bound i 256). lia.
  - intros c Hq Hb. simpl. by rewrite sim_accepts.
  - intros c a n Hq Hb Hw Hn Hlen Hp _. cbn -[Z.mul Z.div Z.modulo]. unfold sim_CMD.
    rewrite sim_accepts by done. cbn -[Z.mul Z.div Z.modulo addr_field count_field W_bytes].
    fold a n. rewrite Hw. simpl in Hp. pose proof (Z.mod_pos_bound a 256).
    cbn [negb]. rewrite program_in_page_linear by (rewrite ?length_take; lia).
    by replace (a / 256 * 256 + a mod 256) with a by (Z.div_mod_to_equations; lia).
  - intros c a n Hq Hb Hbytes Hn _. eexists. split_and!.
    + simpl. unfold sim_CMD. rewrite sim_accepts by done. fold a n. by rewrite Z.eqb_refl.
    + done.
    + unfold W_bytes. cbn [spi_W set_W]. rewrite words_of_bytes_run.
      2:{ intros i. destruct (Z.of_nat i <? n); [apply Hbytes|unfold is_byte; lia]. }
      rewrite firstn_map, take_seq. replace (Nat.min _ _) with (Z.to_nat n) by lia.
      apply map_ext_in. intros i Hi%in_seq. by zif.
  - intros c a Hq Hb Hw Ha Hs _. cbn -[Z.mul Z.div Z.modulo nor_erase]. unfold sim_CMD.
    rewrite sim_accepts by done. cbn -[Z.mul Z.div Z.modulo addr_field nor_erase]. fold a. rewrite Hw.
    cbn [negb]. by replace (a / 4096 * 4096) with a by (Z.div_mod_to_equations; lia).
Defined.

Definition blank_ctl : spi_ctl :=
  {| dev := blank_dev; spi_ADDR := 0; spi_W := []; wel := false; busy := false |}.

Lemma esp_spiffs_flash_write_programs_witness :
  wp (esp_spiffs_flash_write 256 0x10fe (Some (replicate 70 0x5a)) 70)
    (fun r c' => r = ESP_SPIFFS_FLASH_OK /\
       idle_with blank_ctl (nor_program ∅ 0x10fe (take 70 (replicate 70 0x5a))) c') blank_ctl.
Proof.
  apply (esp_spiffs_flash_write_programs 256 blank_ctl 0x10fe (replicate 70 0x5a) 70);
    [apply Forall_replicate; unfold is_byte; lia | lia | split; [lia|reflexivity]
    | by vm_compute | reflexivity | lia].
Defined.

Lemma spiffs_hal_roundtrip_witness :
  wp (r1 ← esp_spiffs_erase 0x1000 0x1000;
      r2 ← esp_spiffs_write 256 0x10fe 3 (Some [1; 2; 3]);
      r3 ← esp_spiffs_read 0x10fd 5 false;
      mret (r1, r2, r3))
    (fun r c' => r = (0, 0, (0, [255; 1; 2; 3; 255])) /\ rests c') blank_ctl.
Proof.
  apply (spiffs_hal_roundtrip 256 blank_ctl 0x1000 0x1000 0x10fe [1; 2; 3] 0x10fd 5);
    try lia; try done; try by vm_compute.
  repeat constructor; lia.
Defined.

Lemma esp_spiffs_flash_write_hangs_witness :
  esp_spiffs_flash_write 1000 0x1000 (Some []) 0x10100 blank_ctl = None.
Proof.
  apply (esp_spiffs_flash_write_hangs 1000 blank_ctl 0x1000 [] 0x10100); [lia|by vm_compute|by vm_compute].
Defined.
