(* ===== verification/Sysparam.v ===== *)
(** * core/sysparam.c: key/value parameters in flash

    The state and the operations of the system parameter store, over any
    [FlashDev].  A [world] holds the flash device, the [_sysparam_info] globals
    and the heap: [allocs] are the outcomes of the coming allocations (an
    allocation succeeds when the list is used up), [live] counts the blocks
    allocated and not freed.  Buffers are lists of bytes.  The proofs are in
    [SysparamLog] and the files after it. *)

From S2P Require Import Prelude Flash.
Local Open Scope Z_scope.

(** ** Constants (lines 19-82) *)

Definition SYSPARAM_MAGIC : Z := 0x70524f45.
Definition DEFAULT_ITER_BUF_SIZE : Z := 64.
Definition SCAN_BUFFER_SIZE : Z := 8.
Definition VERIFY_BUF_SIZE : Z := 64.
Definition REGION_HEADER_SIZE : Z := 8.
Definition ENTRY_HEADER_SIZE : Z := 4.
Definition MAX_KEY_LEN : Z := 0xffff.
Definition MAX_VALUE_LEN : Z := 0xffff.
Definition MAX_KEY_ID : Z := 0x0ffe.
Definition REGION_FLAG_SECOND : Z := 0x8000.
Definition REGION_FLAG_ACTIVE : Z := 0x4000.
Definition REGION_MASK_SIZE : Z := 0x0fff.
Definition ENTRY_FLAG_ALIVE : Z := 0x8000.
Definition ENTRY_FLAG_INVALID : Z := 0x4000.
Definition ENTRY_FLAG_VALUE : Z := 0x2000.
Definition ENTRY_FLAG_BINARY : Z := 0x1000.
Definition ENTRY_MASK_ID : Z := 0xfff.
Definition ENTRY_ID_END : Z := 0xfff.
Definition ENTRY_ID_ANY : Z := 0x1000.

Definition ROUND_TO_WORD_BOUNDARY (x : Z) : Z := Z.land (u32 (x + 3)) 0xfffffffc.
Definition ENTRY_SIZE (payload_len : Z) : Z :=
  ENTRY_HEADER_SIZE + ROUND_TO_WORD_BOUNDARY payload_len.

(** ** Data *)

Inductive sysparam_status_t :=
  | SYSPARAM_OK
  | SYSPARAM_NOTFOUND
  | SYSPARAM_PARSEFAILED
  | SYSPARAM_ERR_NOINIT
  | SYSPARAM_ERR_BADVALUE
  | SYSPARAM_ERR_FULL
  | SYSPARAM_ERR_IO
  | SYSPARAM_ERR_CORRUPT
  | SYSPARAM_ERR_NOMEM.

#[export] Instance sysparam_status_eq_dec : EqDecision sysparam_status_t.
Proof. solve_decision. Defined.

(** [status < 0] and [status == SYSPARAM_OK]. *)
Definition is_err (s : sysparam_status_t) : bool :=
  match s with
  | SYSPARAM_OK | SYSPARAM_NOTFOUND | SYSPARAM_PARSEFAILED => false
  | _ => true
  end.
Definition is_ok (s : sysparam_status_t) : bool :=
  match s with SYSPARAM_OK => true | _ => false end.
Definition flash_op_ok (r : sdk_SpiFlashOpResult) : bool :=
  match r with SPI_FLASH_RESULT_OK => true | _ => false end.

Record region_header := { magic : Z; flags_size : Z; reserved : Z }.
Record entry_header := { idflags : Z; len : Z }.

(** The packed structures as bytes. *)
Definition region_header_bytes (h : region_header) : list Z :=
  le_bytes 4 (magic h) ++ le_bytes 2 (flags_size h) ++ le_bytes 2 (reserved h).
Definition region_header_of (bs : list Z) : region_header :=
  {| magic := le_val (take 4 bs); flags_size := le_val (take 2 (drop 4 bs));
     reserved := le_val (take 2 (drop 6 bs)) |}.
Definition entry_header_bytes (e : entry_header) : list Z :=
  le_bytes 2 (idflags e) ++ le_bytes 2 (len e).
Definition entry_header_of (bs : list Z) : entry_header :=
  {| idflags := le_val (take 2 bs); len := le_val (take 2 (drop 2 bs)) |}.
Definition entry_zero : entry_header := {| idflags := 0; len := 0 |}.

Record sysparam_context := {
  addr : Z;
  entry : entry_header;
  unused_keys : Z;
  compactable : Z;
  max_key_id : Z
}.
Definition context_zero : sysparam_context :=
  {| addr := 0; entry := entry_zero; unused_keys := 0; compactable := 0; max_key_id := 0 |}.
Definition set_addr (a : Z) (c : sysparam_context) : sysparam_context :=
  {| addr := a; entry := entry c; unused_keys := unused_keys c;
     compactable := compactable c; max_key_id := max_key_id c |}.
Definition set_entry (e : entry_header) (c : sysparam_context) : sysparam_context :=
  {| addr := addr c; entry := e; unused_keys := unused_keys c;
     compactable := compactable c; max_key_id := max_key_id c |}.
Definition add_compactable (n : Z) (c : sysparam_context) : sysparam_context :=
  {| addr := addr c; entry := entry c; unused_keys := unused_keys c;
     compactable := u32 (compactable c + n); max_key_id := max_key_id c |}.
Definition count_key (id : Z) (c : sysparam_context) : sysparam_context :=
  {| addr := addr c; entry := entry c; unused_keys := s32 (unused_keys c + 1);
     compactable := compactable c; max_key_id := id |}.
Definition count_value (c : sysparam_context) : sysparam_context :=
  {| addr := addr c; entry := entry c; unused_keys := s32 (unused_keys c - 1);
     compactable := compactable c; max_key_id := max_key_id c |}.

Record sysparam_info := {
  cur_base : Z;
  alt_base : Z;
  end_addr : Z;
  region_size : Z;
  force_compact : bool;
  sem_taken : Z
}.
Definition info_zero : sysparam_info :=
  {| cur_base := 0; alt_base := 0; end_addr := 0; region_size := 0;
     force_compact := false; sem_taken := 0 |}.
Definition set_bases (c a e : Z) (i : sysparam_info) : sysparam_info :=
  {| cur_base := c; alt_base := a; end_addr := e; region_size := region_size i;
     force_compact := force_compact i; sem_taken := sem_taken i |}.
Definition set_end_addr (e : Z) (i : sysparam_info) : sysparam_info :=
  {| cur_base := cur_base i; alt_base := alt_base i; end_addr := e;
     region_size := region_size i; force_compact := force_compact i;
     sem_taken := sem_taken i |}.
Definition set_region_size (n : Z) (i : sysparam_info) : sysparam_info :=
  {| cur_base := cur_base i; alt_base := alt_base i; end_addr := end_addr i;
     region_size := n; force_compact := force_compact i; sem_taken := sem_taken i |}.
Definition set_force_compact (b : bool) (i : sysparam_info) : sysparam_info :=
  {| cur_base := cur_base i; alt_base := alt_base i; end_addr := end_addr i;
     region_size := region_size i; force_compact := b; sem_taken := sem_taken i |}.
Definition set_sem_taken (n : Z) (i : sysparam_info) : sysparam_info :=
  {| cur_base := cur_base i; alt_base := alt_base i; end_addr := end_addr i;
     region_size := region_size i; force_compact := force_compact i; sem_taken := n |}.

Record sysparam_iter_t := {
  it_key : list Z;
  it_value : list Z;
  key_len : Z;
  value_len : Z;
  binary : bool;
  bufsize : Z;
  it_ctx : sysparam_context
}.
Definition iter_zero : sysparam_iter_t :=
  {| it_key := []; it_value := []; key_len := 0; value_len := 0; binary := false;
     bufsize := 0; it_ctx := context_zero |}.

Record world (D : Type) := World {
  dev : D;
  info : sysparam_info;
  allocs : list bool;
  live : Z
}.
Arguments World {D}.
Arguments dev {D}.
Arguments info {D}.
Arguments allocs {D}.
Arguments live {D}.

Section sysparam.
Context `{FlashDev D}.

Abbreviation M := (ST (world D)).

(** ** Access to the world *)

Definition set_info (f : sysparam_info -> sysparam_info) : M unit :=
  st_modify (fun w => World (dev w) (f (info w)) (allocs w) (live w)).
Definition get_info : M sysparam_info := fun w => Some (info w, w).

Definition read (a n : Z) : M (sdk_SpiFlashOpResult * list Z) :=
  fun w => Some (flash_read (dev w) a n, w).
Definition write (a : Z) (src : list Z) (n : Z) : M sdk_SpiFlashOpResult :=
  fun w => let '(r, d) := flash_write (dev w) a src n in
           Some (r, World d (info w) (allocs w) (live w)).
Definition erase (sector : Z) : M sdk_SpiFlashOpResult :=
  fun w => let '(r, d) := flash_erase_sector (dev w) (u16 sector) in
           Some (r, World d (info w) (allocs w) (live w)).

(** [malloc] and [realloc] report whether they returned a block. *)
Definition next_alloc (w : world D) : bool := match allocs w with [] => true | b :: _ => b end.
Definition malloc : M bool :=
  fun w => let ok := next_alloc w in
           Some (ok, World (dev w) (info w) (tail (allocs w)) (if ok then live w + 1 else live w)).
Definition realloc : M bool :=
  fun w => Some (next_alloc w, World (dev w) (info w) (tail (allocs w)) (live w)).
Definition free : M unit :=
  fun w => Some ((), World (dev w) (info w) (allocs w) (live w - 1)).

(** ** Writing *)

Definition _do_write (a : Z) (data : list Z) (data_size : Z) : M sysparam_status_t :=
  r ← write a data data_size;
  if flash_op_ok r then mret SYSPARAM_OK else mret SYSPARAM_ERR_IO.

Definition _do_verify (a : Z) (data : list Z) (n : Z) : M sysparam_status_t :=
  '(r, buffer) ← read a n;
  if flash_op_ok r then
    if decide (take (Z.to_nat n) data = buffer) then mret SYSPARAM_OK
    else mret SYSPARAM_ERR_IO
  else mret SYSPARAM_ERR_IO.

(** The loop over the chunks: [i] bytes are verified. *)
Fixpoint verify_loop (fuel : nat) (a : Z) (data : list Z) (i data_size : Z)
    : M sysparam_status_t :=
  match fuel with
  | O => out_of_fuel
  | S fuel =>
      if i <? data_size then
        let count := Z.min (data_size - i) VERIFY_BUF_SIZE in
        status ← _do_verify (u32 (a + i)) (drop (Z.to_nat i) data) count;
        if is_ok status then verify_loop fuel a data (i + VERIFY_BUF_SIZE) data_size
        else mret status
      else mret SYSPARAM_OK
  end.

Definition _write_and_verify (a : Z) (data : list Z) (data_size : Z) : M sysparam_status_t :=
  verify_buf ← malloc;
  if negb verify_buf then mret SYSPARAM_ERR_NOMEM
  else
    status ← _do_write a data data_size;
    status ← (if is_ok status
              then verify_loop (S (S (Z.to_nat (data_size / VERIFY_BUF_SIZE)))) a data 0 data_size
              else mret status);
    free;; mret status.

Fixpoint format_loop (n : nat) (sector i : Z) : M sysparam_status_t :=
  match n with
  | O => mret SYSPARAM_OK
  | S n =>
      r ← erase (sector + i);
      if flash_op_ok r then format_loop n sector (i + 1) else mret SYSPARAM_ERR_IO
  end.
Definition _format_region (a num_sectors : Z) : M sysparam_status_t :=
  let sector := u16 (a / sector_size sdk_flashchip) in
  format_loop (Z.to_nat num_sectors) sector 0.

Definition _write_region_header (a other : Z) (active : bool) : M sysparam_status_t :=
  let flags :=
    if a <? other then Z.land ((other - a) / sector_size sdk_flashchip) REGION_MASK_SIZE
    else Z.lor (Z.land ((a - other) / sector_size sdk_flashchip) REGION_MASK_SIZE)
           REGION_FLAG_SECOND in
  let flags := if active then Z.lor flags REGION_FLAG_ACTIVE else flags in
  let header := {| magic := SYSPARAM_MAGIC; flags_size := flags; reserved := 0 |} in
  status ← _write_and_verify a (region_header_bytes header) REGION_HEADER_SIZE;
  if is_ok status then mret SYSPARAM_OK
  else
    let header := {| magic := 0; flags_size := 0; reserved := 0 |} in
    _write_and_verify a (region_header_bytes header) REGION_HEADER_SIZE;;
    mret SYSPARAM_ERR_IO.

(** ** Searching *)

Definition _init_context : M sysparam_context :=
  i ← get_info; mret (set_addr (cur_base i) context_zero).

Definition init_write_context : M (sysparam_status_t * sysparam_context) :=
  i ← get_info;
  let ctx := set_addr (end_addr i) context_zero in
  '(r, bs) ← read (addr ctx) ENTRY_HEADER_SIZE;
  if flash_op_ok r then mret (SYSPARAM_OK, set_entry (entry_header_of bs) ctx)
  else mret (SYSPARAM_ERR_IO, ctx).

(** How [_find_entry] accounts for the entry just read (lines 262-287): the
    new context, and whether the entry is the one looked for. *)
Definition entry_alive (e : entry_header) : bool :=
  Z.land (idflags e) (Z.lor ENTRY_FLAG_ALIVE ENTRY_FLAG_INVALID) =? ENTRY_FLAG_ALIVE.
Definition entry_is_value (e : entry_header) : bool :=
  negb (Z.land (idflags e) ENTRY_FLAG_VALUE =? 0).
Definition entry_id (e : entry_header) : Z := Z.land (idflags e) ENTRY_MASK_ID.
Definition entry_visit (ctx : sysparam_context) (match_id : Z) (find_value : bool)
    : bool * sysparam_context :=
  let e := entry ctx in
  let id := entry_id e in
  let id_match := (id =? match_id) || (match_id =? ENTRY_ID_ANY) in
  if entry_alive e then
    if entry_is_value e then (find_value && id_match, count_value ctx)
    else (negb find_value && id_match, count_key id ctx)
  else (false, add_compactable (ENTRY_SIZE (len e)) ctx).

(** After the loop of [_find_entry] (lines 289-294). *)
Definition find_done (ctx : sysparam_context) (match_id : Z)
    : sysparam_status_t * sysparam_context :=
  if match_id =? ENTRY_ID_END then (SYSPARAM_OK, ctx)
  else (SYSPARAM_NOTFOUND, set_entry entry_zero ctx).

(** Where the loop goes next (lines 228-251): the region header or the current
    entry is skipped.  [None] stops the loop, with the address reached. *)
Inductive advance := ReadAt (a : Z) | StopAt (a : Z) | BadLength.
Definition next_entry (i : sysparam_info) (ctx : sysparam_context) : advance :=
  if addr ctx =? cur_base i then ReadAt (u32 (addr ctx + REGION_HEADER_SIZE))
  else
    let next_addr := u32 (addr ctx + ENTRY_SIZE (len (entry ctx))) in
    let region_end := u32 (cur_base i + region_size i) in
    if region_end <? next_addr then BadLength
    else if next_addr =? region_end then StopAt next_addr
    else ReadAt next_addr.

Fixpoint find_entry_loop (fuel : nat) (ctx : sysparam_context) (match_id : Z)
    (find_value : bool) : M (sysparam_status_t * sysparam_context) :=
  match fuel with
  | O => out_of_fuel
  | S fuel =>
      i ← get_info;
      match next_entry i ctx with
      | BadLength =>
          set_info (set_force_compact true);; mret (find_done ctx match_id)
      | StopAt a => mret (find_done (set_addr a ctx) match_id)
      | ReadAt a =>
          let ctx := set_addr a ctx in
          '(r, bs) ← read a ENTRY_HEADER_SIZE;
          if flash_op_ok r then
            let ctx := set_entry (entry_header_of bs) ctx in
            if idflags (entry ctx) =? 0xffff then mret (find_done ctx match_id)
            else
              let '(found, ctx) := entry_visit ctx match_id find_value in
              if found then mret (SYSPARAM_OK, ctx)
              else find_entry_loop fuel ctx match_id find_value
          else mret (SYSPARAM_ERR_IO, ctx)
      end
  end.

(** Every entry takes at least [ENTRY_HEADER_SIZE] bytes of the region. *)
Definition region_fuel (i : sysparam_info) : nat :=
  Z.to_nat (region_size i / ENTRY_HEADER_SIZE + 2).

Definition _find_entry (ctx : sysparam_context) (match_id : Z) (find_value : bool)
    : M (sysparam_status_t * sysparam_context) :=
  i ← get_info; find_entry_loop (region_fuel i) ctx match_id find_value.

Definition _read_payload (ctx : sysparam_context) (buffer_size : Z)
    : M (sysparam_status_t * list Z) :=
  '(r, buffer) ← read (u32 (addr ctx + ENTRY_HEADER_SIZE)) (Z.min buffer_size (len (entry ctx)));
  if flash_op_ok r then mret (SYSPARAM_OK, buffer) else mret (SYSPARAM_ERR_IO, []).

(** [key = None]: any key. *)
Fixpoint find_key_loop (fuel : nat) (ctx : sysparam_context) (key : option (list Z)) (klen : Z)
    : M (sysparam_status_t * sysparam_context) :=
  match fuel with
  | O => out_of_fuel
  | S fuel =>
      '(status, ctx) ← _find_entry ctx ENTRY_ID_ANY false;
      if negb (is_ok status) then mret (status, ctx)
      else
        match key with
        | None => mret (SYSPARAM_OK, ctx)
        | Some key =>
            if len (entry ctx) =? klen then
              '(status, buffer) ← _read_payload ctx klen;
              if is_err status then mret (status, ctx)
              else if decide (take (Z.to_nat klen) key = buffer) then mret (SYSPARAM_OK, ctx)
              else find_key_loop fuel ctx (Some key) klen
            else find_key_loop fuel ctx (Some key) klen
        end
  end.

Definition _find_key (ctx : sysparam_context) (key : option (list Z)) (klen : Z)
    : M (sysparam_status_t * sysparam_context) :=
  i ← get_info; find_key_loop (region_fuel i) ctx key (u16 klen).

Definition _find_value (ctx : sysparam_context) (id_field : Z)
    : M (sysparam_status_t * sysparam_context) :=
  _find_entry ctx (Z.land id_field ENTRY_MASK_ID) true.

(** ** Entries *)

Definition bump_end_addr (a n : Z) : M unit :=
  set_info (fun i => if end_addr i =? a then set_end_addr (u32 (end_addr i + n)) i else i).

Definition _write_entry (a id : Z) (payload : list Z) (n : Z) : M sysparam_status_t :=
  let e := {| idflags := Z.lor id (Z.lor ENTRY_FLAG_ALIVE ENTRY_FLAG_INVALID); len := n |} in
  status ← _write_and_verify a (entry_header_bytes e) ENTRY_HEADER_SIZE;
  match status with
  | SYSPARAM_ERR_IO =>
      status ← _write_and_verify a (entry_header_bytes entry_zero) ENTRY_HEADER_SIZE;
      if is_ok status then bump_end_addr a ENTRY_HEADER_SIZE;; mret SYSPARAM_ERR_IO
      else mret status
  | SYSPARAM_OK =>
      bump_end_addr a (ENTRY_SIZE n);;
      status ← _write_and_verify (u32 (a + ENTRY_HEADER_SIZE)) payload n;
      if is_ok status then
        let e := {| idflags := Z.ldiff (idflags e) ENTRY_FLAG_INVALID; len := n |} in
        _write_and_verify a (entry_header_bytes e) ENTRY_HEADER_SIZE
      else mret status
  | _ => mret status
  end.

Definition _delete_entry (a : Z) : M sysparam_status_t :=
  '(r, bs) ← read a ENTRY_HEADER_SIZE;
  if flash_op_ok r then
    let e := entry_header_of bs in
    let e := {| idflags := Z.ldiff (idflags e) ENTRY_FLAG_ALIVE; len := len e |} in
    r ← write a (entry_header_bytes e) ENTRY_HEADER_SIZE;
    if flash_op_ok r then mret SYSPARAM_OK else mret SYSPARAM_ERR_IO
  else mret SYSPARAM_ERR_IO.

(** ** Iteration *)

Definition sysparam_iter_start : M (sysparam_status_t * sysparam_iter_t) :=
  i ← get_info;
  if cur_base i =? 0 then mret (SYSPARAM_ERR_NOINIT, iter_zero)
  else
    key ← malloc;
    if negb key then mret (SYSPARAM_ERR_NOMEM, iter_zero)
    else
      ctx_block ← malloc;
      if negb ctx_block then free;; mret (SYSPARAM_ERR_NOMEM, iter_zero)
      else
        ctx ← _init_context;
        mret (SYSPARAM_OK,
              {| it_key := []; it_value := []; key_len := 0; value_len := 0; binary := false;
                 bufsize := DEFAULT_ITER_BUF_SIZE; it_ctx := ctx |}).

Definition iter_with_ctx (ctx : sysparam_context) (it : sysparam_iter_t) : sysparam_iter_t :=
  {| it_key := it_key it; it_value := it_value it; key_len := key_len it;
     value_len := value_len it; binary := binary it; bufsize := bufsize it; it_ctx := ctx |}.

(** Reading the key and the value found into the iterator (lines 1032-1063). *)
Definition iter_load (it : sysparam_iter_t) (ctx value_ctx : sysparam_context)
    : M (sysparam_status_t * sysparam_iter_t) :=
  let it := iter_with_ctx ctx it in
  let key_space := ROUND_TO_WORD_BOUNDARY (len (entry ctx) + 1) in
  let required_len := u32 (key_space + len (entry value_ctx) + 1) in
  newbuf ← (if bufsize it <? required_len then realloc else mret true);
  if negb newbuf then mret (SYSPARAM_ERR_NOMEM, it)
  else
    let size := Z.max (bufsize it) required_len in
    '(status, kbytes) ← _read_payload ctx size;
    if is_err status then mret (status, it)
    else
      '(status, vbytes) ← _read_payload value_ctx (u32 (size - key_space));
      if is_err status then mret (status, it)
      else
        mret (SYSPARAM_OK,
              {| it_key := kbytes; it_value := vbytes; key_len := len (entry ctx);
                 value_len := len (entry value_ctx);
                 binary := negb (Z.land (idflags (entry value_ctx)) ENTRY_FLAG_BINARY =? 0);
                 bufsize := size; it_ctx := ctx |}).

Fixpoint iter_next_loop (fuel : nat) (it : sysparam_iter_t) (ctx : sysparam_context)
    : M (sysparam_status_t * sysparam_iter_t) :=
  match fuel with
  | O => out_of_fuel
  | S fuel =>
      '(status, ctx) ← _find_key ctx None 0;
      if negb (is_ok status) then mret (status, iter_with_ctx ctx it)
      else
        '(status, value_ctx) ← _find_value ctx (idflags (entry ctx));
        if is_err status then mret (status, iter_with_ctx ctx it)
        else
          match status with
          | SYSPARAM_NOTFOUND => iter_next_loop fuel it ctx
          | _ => iter_load it ctx value_ctx
          end
  end.

Definition sysparam_iter_next (it : sysparam_iter_t) : M (sysparam_status_t * sysparam_iter_t) :=
  i ← get_info; iter_next_loop (region_fuel i) it (it_ctx it).

Definition sysparam_iter_end (it : sysparam_iter_t) : M unit := free;; free.

(** ** Compaction *)

(** The variables of [_compact_params]' loop: the iterator, the write address,
    the last key id written and [*key_id]. *)
Record compact_vars := {
  cv_iter : sysparam_iter_t;
  cv_addr : Z;
  cv_current : Z;
  cv_key_id : Z
}.

Fixpoint compact_loop (fuel : nat) (v : compact_vars)
    : M (sysparam_status_t * compact_vars) :=
  match fuel with
  | O => out_of_fuel
  | S fuel =>
      '(status, it) ← sysparam_iter_next (cv_iter v);
      let v := {| cv_iter := it; cv_addr := cv_addr v; cv_current := cv_current v;
                  cv_key_id := cv_key_id v |} in
      if negb (is_ok status) then mret (status, v)
      else
        let current := u16 (cv_current v + 1) in
        let a := cv_addr v in
        status ← _write_entry a current (it_key it) (key_len it);
        let v := {| cv_iter := it; cv_addr := u32 (a + ENTRY_SIZE (key_len it));
                    cv_current := current; cv_key_id := cv_key_id v |} in
        if is_err status then mret (status, v)
        else if entry_id (entry (it_ctx it)) =? cv_key_id v then
          compact_loop fuel {| cv_iter := it; cv_addr := cv_addr v; cv_current := current;
                               cv_key_id := current |}
        else
          let binary_flag := if binary it then ENTRY_FLAG_BINARY else 0 in
          let a := cv_addr v in
          status ← _write_entry a (Z.lor (Z.lor current ENTRY_FLAG_VALUE) binary_flag)
                     (it_value it) (value_len it);
          let v := {| cv_iter := it; cv_addr := u32 (a + ENTRY_SIZE (value_len it));
                      cv_current := current; cv_key_id := cv_key_id v |} in
          if is_err status then mret (status, v) else compact_loop fuel v
  end.

(** Lines 468-486: make the new region the active one. *)
Definition compact_switch (new_base : Z) (v : compact_vars)
    : M (sysparam_status_t * sysparam_context * Z) :=
  i ← get_info;
  status ← _write_region_header new_base (cur_base i) true;
  if is_err status then mret (status, context_zero, cv_key_id v)
  else
    status ← _write_region_header (cur_base i) new_base false;
    if is_err status then mret (status, context_zero, cv_key_id v)
    else
      set_info (fun i => set_force_compact false (set_bases new_base (cur_base i) (cv_addr v) i));;
      mret (SYSPARAM_OK,
            {| addr := cv_addr v; entry := entry_zero; unused_keys := 0; compactable := 0;
               max_key_id := cv_current v |}, cv_key_id v).

Definition _compact_params (ctx : sysparam_context) (key_id : Z)
    : M (sysparam_status_t * sysparam_context * Z) :=
  i ← get_info;
  let new_base := alt_base i in
  let num_sectors := u16 (region_size i / sector_size sdk_flashchip) in
  status ← _format_region new_base num_sectors;
  if is_err status then mret (status, ctx, key_id)
  else
    '(status, it) ← sysparam_iter_start;
    if is_err status then mret (status, ctx, key_id)
    else
      '(status, v) ← compact_loop (region_fuel i)
         {| cv_iter := it; cv_addr := u32 (new_base + REGION_HEADER_SIZE);
            cv_current := 0; cv_key_id := key_id |};
      sysparam_iter_end (cv_iter v);;
      if is_err status then mret (status, ctx, cv_key_id v)
      else
        '(status, ctx', key_id) ← compact_switch new_base v;
        mret (status, if is_err status then ctx else ctx', key_id).

(** ** sysparam_set_data *)

(** The variables of [sysparam_set_data] that its steps update. *)
Record set_vars := {
  sv_ctx : sysparam_context;
  sv_key_id : Z;
  sv_old : Z
}.

(** Lines 822-832: look for the key and its current value. *)
Definition set_find (key : list Z) (klen : Z) : M (sysparam_status_t * set_vars) :=
  ctx ← _init_context;
  '(status, ctx) ← _find_key ctx (Some key) klen;
  if is_ok status then
    let key_id := entry_id (entry ctx) in
    '(status, ctx) ← _find_value ctx key_id;
    mret (status, {| sv_ctx := ctx; sv_key_id := key_id;
                     sv_old := if is_ok status then addr ctx else 0 |})
  else mret (status, {| sv_ctx := ctx; sv_key_id := -1; sv_old := 0 |}).

(** Lines 838-856: [Some status] ends the operation. *)
Definition set_same (v : set_vars) (klen : Z) (value : list Z) (vlen binary_flag : Z)
    : M (option sysparam_status_t) :=
  let e := entry (sv_ctx v) in
  if (Z.land (idflags e) ENTRY_FLAG_BINARY =? binary_flag) && (len e =? vlen) then
    newbuf ← (if klen <? vlen then realloc else mret true);
    if negb newbuf then mret (Some SYSPARAM_ERR_NOMEM)
    else
      '(status, buffer) ← _read_payload (sv_ctx v) vlen;
      if is_err status then mret (Some status)
      else if decide (buffer = take (Z.to_nat vlen) value) then mret (Some SYSPARAM_OK)
      else mret None
  else mret None.

(** The calls of [_compact_params] with [old_value_addr = 0] after it. *)
Definition set_compact (v : set_vars) : M (sysparam_status_t * set_vars) :=
  '(status, ctx, key_id) ← _compact_params (sv_ctx v) (sv_key_id v);
  mret (status, {| sv_ctx := ctx; sv_key_id := key_id;
                   sv_old := if is_err status then sv_old v else 0 |}).

Definition free_space (i : sysparam_info) : Z :=
  u32 (u32 (cur_base i + region_size i) - end_addr i).

(** Lines 866-902: make sure there is space for the new entries. *)
Definition set_space (v : set_vars) (klen vlen : Z) : M (sysparam_status_t * set_vars) :=
  i ← get_info;
  let needed_space :=
    if sv_key_id v <? 0 then u32 (ENTRY_SIZE vlen + ENTRY_SIZE klen) else ENTRY_SIZE vlen in
  if free_space i <? needed_space then
    '(_, ctx) ← _find_entry (sv_ctx v) ENTRY_ID_END false;
    let v := {| sv_ctx := ctx; sv_key_id := sv_key_id v; sv_old := sv_old v |} in
    '(status, v) ←
      (if needed_space <=? u32 (free_space i + compactable ctx) then set_compact v
       else if 0 <? unused_keys ctx then set_compact v
       else mret (SYSPARAM_OK, v));
    if is_err status then mret (status, v)
    else
      i ← get_info;
      if free_space i <? needed_space then mret (SYSPARAM_ERR_FULL, v)
      else mret (SYSPARAM_OK, v)
  else mret (SYSPARAM_OK, v).

(** Lines 904-929: make sure there is a key id, and compact when an earlier
    inconsistency asks for it. *)
Definition set_ids (v : set_vars) : M (sysparam_status_t * set_vars) :=
  if (sv_key_id v <? 0) && (MAX_KEY_ID <=? max_key_id (sv_ctx v)) then
    if 0 <? unused_keys (sv_ctx v) then set_compact v
    else mret (SYSPARAM_ERR_FULL, v)
  else mret (SYSPARAM_OK, v).
Definition set_forced (v : set_vars) : M (sysparam_status_t * set_vars) :=
  i ← get_info;
  if force_compact i then
    '(status, ctx, key_id) ← _compact_params (sv_ctx v) (sv_key_id v);
    mret (status, {| sv_ctx := ctx; sv_key_id := key_id; sv_old := sv_old v |})
  else mret (SYSPARAM_OK, v).

(** Lines 931-945: append the key, when it is new, and the value. *)
Definition set_append (v : set_vars) (key : list Z) (klen : Z) (value : list Z)
    (vlen binary_flag : Z) : M sysparam_status_t :=
  '(_, write_ctx) ← init_write_context;
  let a := addr write_ctx in
  '(status, key_id, a) ←
    (if sv_key_id v <? 0 then
       let key_id := max_key_id (sv_ctx v) + 1 in
       status ← _write_entry a (u16 key_id) key klen;
       mret (status, key_id, u32 (a + ENTRY_SIZE klen))
     else mret (SYSPARAM_OK, sv_key_id v, a));
  if is_err status then mret status
  else
    status ← _write_entry a (u16 (Z.lor (Z.lor key_id ENTRY_FLAG_VALUE) binary_flag)) value vlen;
    if is_err status then mret status
    else
      set_info (set_end_addr (u32 (a + ENTRY_SIZE vlen)));; mret status.

(** Lines 948-952. *)
Definition set_delete_old (status : sysparam_status_t) (old_value_addr : Z)
    : M sysparam_status_t :=
  if old_value_addr =? 0 then mret status else _delete_entry old_value_addr.

(** Lines 864-946 and 948-952 for a non-empty value.  The strings are taken to be where
    the flash driver can read them: the code copies an unaligned value to an aligned
    buffer ([sysparam_set_data]) but writes the key from the caller's pointer, so that
    pointer has to be a multiple of 4. *)
Definition set_store (v : set_vars) (key : list Z) (klen : Z) (value : list Z)
    (vlen binary_flag : Z) : M sysparam_status_t :=
  '(status, v) ← set_space v klen vlen;
  if is_err status then mret status
  else
    '(status, v) ← set_ids v;
    if is_err status then mret status
    else
      '(status, v) ← set_forced v;
      if is_err status then mret status
      else
        status ← set_append v key klen value vlen binary_flag;
        if is_err status then mret status else set_delete_old status (sv_old v).

(** Lines 821-955: the body of [sysparam_set_data]. *)
Definition set_body (key : list Z) (klen : Z) (value : list Z) (vlen : Z) (is_binary : bool)
    : M sysparam_status_t :=
  '(status, v) ← set_find key klen;
  if is_err status then mret status
  else
    let binary_flag := if is_binary then ENTRY_FLAG_BINARY else 0 in
    if vlen =? 0 then set_delete_old status (sv_old v)
    else if sv_old v =? 0 then set_store v key klen value vlen binary_flag
    else
      same ← set_same v klen value vlen binary_flag;
      match same with
      | Some status => mret status
      | None =>
          let ctx := add_compactable (ENTRY_SIZE (len (entry (sv_ctx v)))) (sv_ctx v) in
          set_store {| sv_ctx := ctx; sv_key_id := sv_key_id v; sv_old := sv_old v |}
            key klen value vlen binary_flag
      end.

(** [value = None] is the null pointer; [aligned]: the value pointer is a
    multiple of 4, so that no copy is made. *)
Definition sysparam_set_data (key : list Z) (value : option (list Z)) (value_len : Z)
    (aligned is_binary : bool) : M sysparam_status_t :=
  let klen := u16 (strlen key) in
  i ← get_info;
  if cur_base i =? 0 then mret SYSPARAM_ERR_NOINIT
  else if klen =? 0 then mret SYSPARAM_ERR_BADVALUE
  else if MAX_KEY_LEN <? klen then mret SYSPARAM_ERR_BADVALUE
  else if MAX_VALUE_LEN <? value_len then mret SYSPARAM_ERR_BADVALUE
  else
    set_info (fun i => set_sem_taken (sem_taken i + 1) i);;
    let value_len := match value with None => 0 | Some _ => value_len end in
    let bytes := default [] value in
    let copy := negb (value_len =? 0) && negb aligned in
    copied ← (if copy then malloc else mret true);
    status ←
      (if negb copied then mret SYSPARAM_ERR_NOMEM
       else
         buffer ← malloc;
         if negb buffer then
           (if copy then free else mret ());; mret SYSPARAM_ERR_NOMEM
         else
           status ← set_body key klen bytes value_len is_binary;
           (if copy then free else mret ());; free;; mret status);
    set_info (fun i => set_sem_taken (sem_taken i - 1) i);;
    mret status.

(** ** Reading *)

(** The [destptr], [actual_length] and [is_binary] results of a get. *)
Record get_result := { gr_data : list Z; gr_length : Z; gr_binary : bool }.
Definition get_none : get_result := {| gr_data := []; gr_length := 0; gr_binary := false |}.

Definition find_data (key : list Z) : M (sysparam_status_t * sysparam_context) :=
  ctx ← _init_context;
  '(status, ctx) ← _find_key ctx (Some key) (strlen key);
  if negb (is_ok status) then mret (status, ctx)
  else _find_value ctx (idflags (entry ctx)).

Definition is_binary_entry (ctx : sysparam_context) : bool :=
  negb (Z.land (idflags (entry ctx)) ENTRY_FLAG_BINARY =? 0).

(** On success the caller owns the buffer: one block more is allocated. *)
Definition sysparam_get_data (key : list Z) : M (sysparam_status_t * get_result) :=
  i ← get_info;
  if cur_base i =? 0 then mret (SYSPARAM_ERR_NOINIT, get_none)
  else
    buffer ← malloc;
    if negb buffer then mret (SYSPARAM_ERR_NOMEM, get_none)
    else
      '(status, ctx) ← find_data key;
      if negb (is_ok status) then free;; mret (status, get_none)
      else
        newbuf ← realloc;
        if negb newbuf then free;; mret (SYSPARAM_ERR_NOMEM, get_none)
        else
          '(status, buffer) ← _read_payload ctx (len (entry ctx));
          if negb (is_ok status) then free;; mret (status, get_none)
          else mret (SYSPARAM_OK, {| gr_data := buffer; gr_length := len (entry ctx);
                                     gr_binary := is_binary_entry ctx |}).

Definition sysparam_get_data_static (key : list Z) (buffer_size : Z)
    : M (sysparam_status_t * get_result) :=
  i ← get_info;
  if cur_base i =? 0 then mret (SYSPARAM_ERR_NOINIT, get_none)
  else if buffer_size <? Z.max (strlen key) 2 then mret (SYSPARAM_ERR_NOMEM, get_none)
  else
    '(status, ctx) ← find_data key;
    if negb (is_ok status) then mret (status, get_none)
    else
      '(status, buffer) ← _read_payload ctx buffer_size;
      if negb (is_ok status) then mret (status, get_none)
      else mret (SYSPARAM_OK, {| gr_data := buffer; gr_length := len (entry ctx);
                                 gr_binary := is_binary_entry ctx |}).

(** [*destptr] as the bytes before the terminating NUL. *)
Definition sysparam_get_string (key : list Z) : M (sysparam_status_t * list Z) :=
  '(status, r) ← sysparam_get_data key;
  if negb (is_ok status) then mret (status, [])
  else if gr_binary r then free;; mret (SYSPARAM_PARSEFAILED, [])
  else mret (SYSPARAM_OK, take (Z.to_nat (strlen (gr_data r))) (gr_data r)).

Definition sysparam_set_string (key value : list Z) (aligned : bool) : M sysparam_status_t :=
  sysparam_set_data key (Some value) (strlen value) aligned false.

Definition sysparam_get_info : M (sysparam_status_t * Z * Z) :=
  i ← get_info;
  if cur_base i =? 0 then mret (SYSPARAM_ERR_NOINIT, 0, 0)
  else mret (SYSPARAM_OK, Z.min (cur_base i) (alt_base i),
             u32 (region_size i / sector_size sdk_flashchip * 2)).

(** ** Initialisation *)

(** The loop of lines 505-511: the first sector from [addr0] on that starts
    with a region header. *)
Fixpoint init_scan (fuel : nat) (addr0 top_addr : Z)
    : M (sysparam_status_t * Z * region_header) :=
  match fuel with
  | O => out_of_fuel
  | S fuel =>
      if addr0 <? top_addr then
        '(r, bs) ← read addr0 REGION_HEADER_SIZE;
        if flash_op_ok r then
          let h := region_header_of bs in
          if magic h =? SYSPARAM_MAGIC then mret (SYSPARAM_OK, addr0, h)
          else init_scan fuel (u32 (addr0 + sector_size sdk_flashchip)) top_addr
        else mret (SYSPARAM_ERR_IO, addr0, region_header_of [])
      else mret (SYSPARAM_NOTFOUND, addr0, region_header_of [])
  end.

Definition is_second (h : region_header) : bool :=
  negb (Z.land (flags_size h) REGION_FLAG_SECOND =? 0).
Definition is_active (h : region_header) : bool :=
  negb (Z.land (flags_size h) REGION_FLAG_ACTIVE =? 0).

(** Lines 526-547: check the other region, or recreate it. *)
Definition init_other (addr0 addr1 num_sectors : Z) (header0 header1 : region_header)
    : M sysparam_status_t :=
  if magic header1 =? SYSPARAM_MAGIC then
    if Bool.eqb (is_second header0) (is_second header1) then mret SYSPARAM_ERR_CORRUPT
    else mret SYSPARAM_OK
  else if is_active header0 then
    status ← _format_region addr1 num_sectors;
    if is_ok status then _write_region_header addr1 addr0 false else mret status
  else mret SYSPARAM_ERR_CORRUPT.

(** Lines 550-579: set up [_sysparam_info] and find the end of the entries. *)
Definition init_regions (addr0 addr1 num_sectors : Z) (header0 : region_header)
    : M sysparam_status_t :=
  set_info (set_region_size (u32 (num_sectors * sector_size sdk_flashchip)));;
  set_info (fun i => if is_active header0 then set_bases addr0 addr1 (end_addr i) i
                     else set_bases addr1 addr0 (end_addr i) i);;
  set_info (fun i => set_force_compact false
                       (set_end_addr (u32 (cur_base i + region_size i)) i));;
  ctx ← _init_context;
  '(status, ctx) ← _find_entry ctx ENTRY_ID_END false;
  if is_err status then set_info (set_bases 0 0 0);; mret status
  else
    (if is_ok status then set_info (set_end_addr (addr ctx)) else mret ());;
    set_info (set_sem_taken 0);;
    mret SYSPARAM_OK.

Definition sysparam_init (base_addr top_addr : Z) : M sysparam_status_t :=
  let base_addr := base_addr - base_addr mod sector_size sdk_flashchip in
  let top_addr := if (top_addr =? 0) || (top_addr =? base_addr)
                  then u32 (base_addr + sector_size sdk_flashchip) else top_addr in
  '(status, addr0, header0) ←
    init_scan (S (Z.to_nat ((top_addr - base_addr) / sector_size sdk_flashchip + 1)))
      base_addr top_addr;
  if negb (is_ok status) then mret status
  else
    let num_sectors := Z.land (flags_size header0) REGION_MASK_SIZE in
    let addr1 := if is_second header0 then u32 (addr0 - num_sectors * sector_size sdk_flashchip)
                 else u32 (addr0 + num_sectors * sector_size sdk_flashchip) in
    '(r, bs) ← read addr1 REGION_HEADER_SIZE;
    if flash_op_ok r then
      status ← init_other addr0 addr1 num_sectors header0 (region_header_of bs);
      if is_ok status then init_regions addr0 addr1 num_sectors header0 else mret status
    else mret SYSPARAM_ERR_IO.

(** The scan of lines 599-608. *)
Fixpoint area_scan (fuel : nat) (a last : Z) : M sysparam_status_t :=
  match fuel with
  | O => out_of_fuel
  | S fuel =>
      if a <? last then
        '(r, buffer) ← read a (SCAN_BUFFER_SIZE * 4);
        if flash_op_ok r then
          if forallb (fun b => b =? 255) buffer then area_scan fuel (u32 (a + SCAN_BUFFER_SIZE)) last
          else mret SYSPARAM_NOTFOUND
        else mret SYSPARAM_ERR_IO
      else mret SYSPARAM_OK
  end.

Definition sysparam_create_area (base_addr num_sectors : Z) (force : bool)
    : M sysparam_status_t :=
  if (num_sectors <? 1) || negb (Z.land num_sectors 1 =? 0) then mret SYSPARAM_ERR_BADVALUE
  else
    let num_sectors := Z.shiftr num_sectors 1 in
    let region := u32 (num_sectors * sector_size sdk_flashchip) in
    status ←
      (if force then mret SYSPARAM_OK
       else area_scan (S (Z.to_nat (region * 2 / SCAN_BUFFER_SIZE + 1)))
              base_addr (u32 (base_addr + region * 2)));
    if negb (is_ok status) then mret status
    else
      i ← get_info;
      (if (cur_base i =? base_addr) || (alt_base i =? base_addr)
       then set_info (fun _ => info_zero) else mret ());;
      status ← _format_region base_addr num_sectors;
      if is_err status then mret status
      else
        status ← _format_region (u32 (base_addr + region)) num_sectors;
        if is_err status then mret status
        else
          status ← _write_region_header base_addr (u32 (base_addr + region)) true;
          if is_err status then mret status
          else
            status ← _write_region_header (u32 (base_addr + region)) base_addr false;
            if is_err status then mret status else mret SYSPARAM_OK.
End sysparam.
