(* ===== verification/SysparamLog.v ===== *)
(** * The log of entries in a sysparam region

    A region holds, after its header, a sequence of entries and then erased
    flash.  [store d i log] relates the flash and the [_sysparam_info] globals to
    that sequence; [items log] is the association list the live entries
    represent, in the order of their keys; [wf_log] is the invariant that
    [sysparam.c] keeps on the entries.  The lemmas show what [_find_entry],
    [_find_key] and [_find_value] find in a log. *)

From stdpp Require Import sorting.
From S2P Require Import Prelude Flash Sysparam.
Local Open Scope Z_scope.

(** ** Entries and their layout *)

Record log_entry := { le_flags : Z; le_payload : list Z }.

Definition payload_len (e : log_entry) : Z := Z.of_nat (length (le_payload e)).
Definition hdr (e : log_entry) : entry_header :=
  {| idflags := le_flags e; len := payload_len e |}.
Definition esize (e : log_entry) : Z := ENTRY_HEADER_SIZE + round4 (payload_len e).
Definition lsize (l : list log_entry) : Z := foldr (fun e n => esize e + n) 0 l.

Definition entry_ok (e : log_entry) : Prop :=
  0 <= le_flags e < 0xffff /\ payload_len e <= MAX_VALUE_LEN /\ Forall is_byte (le_payload e).

Definition entry_at `{FlashDev D} (d : D) (a : Z) (e : log_entry) : Prop :=
  entry_ok e /\ fbytes d a 4 = entry_header_bytes (hdr e) /\
  fbytes d (a + 4) (length (le_payload e)) = le_payload e.

Fixpoint log_at `{FlashDev D} (d : D) (a : Z) (l : list log_entry) : Prop :=
  match l with
  | [] => True
  | e :: l => entry_at d a e /\ log_at d (a + esize e) l
  end.

Definition erased `{FlashDev D} (d : D) (lo hi : Z) : Prop :=
  forall a, lo <= a < hi -> fbyte d a = 255.

(** The two regions: sector-aligned, disjoint, inside the chip and not at
    address 0 (which [sysparam.c] takes for "not initialised"). *)
Record geometry (sector chip base alt size : Z) : Prop := {
  geo_base : 0 < base;
  geo_alt : 0 < alt;
  geo_size : 16 <= size;
  geo_base_al : base mod sector = 0;
  geo_alt_al : alt mod sector = 0;
  geo_size_al : size mod sector = 0;
  geo_base_in : base + size <= chip;
  geo_alt_in : alt + size <= chip;
  geo_disjoint : base + size <= alt \/ alt + size <= base
}.

Definition info_geometry `{FlashDev D} (i : sysparam_info) : Prop :=
  geometry (sector_size sdk_flashchip) (chip_size sdk_flashchip)
    (cur_base i) (alt_base i) (region_size i).

Definition region_end (i : sysparam_info) : Z := cur_base i + region_size i.
Definition log_start (i : sysparam_info) : Z := cur_base i + REGION_HEADER_SIZE.

Record store `{FlashDev D} (d : D) (i : sysparam_info) (l : list log_entry) : Prop := {
  st_geo : info_geometry i;
  st_log : log_at d (log_start i) l;
  st_end : end_addr i = log_start i + lsize l;
  st_fits : end_addr i <= region_end i;
  st_erased : erased d (end_addr i) (region_end i);
  st_force : force_compact i = true -> end_addr i = region_end i
}.

(** ** What the live entries mean *)

Definition e_alive (e : log_entry) : bool := entry_alive (hdr e).
Definition e_id (e : log_entry) : Z := entry_id (hdr e).
Definition is_key (e : log_entry) : bool := e_alive e && negb (entry_is_value (hdr e)).
Definition is_value (e : log_entry) : bool := e_alive e && entry_is_value (hdr e).
Definition e_binary (e : log_entry) : bool :=
  negb (Z.land (le_flags e) ENTRY_FLAG_BINARY =? 0).

(** The entries [_find_entry match_id find_value] stops at. *)
Definition wanted (match_id : Z) (find_value : bool) (e : log_entry) : bool :=
  (if find_value then is_value e else is_key e) &&
  ((e_id e =? match_id) || (match_id =? ENTRY_ID_ANY)).

(** The first entry of the log that satisfies [p], with what is before and after it. *)
Fixpoint search (p : log_entry -> bool) (l : list log_entry)
    : option (list log_entry * log_entry * list log_entry) :=
  match l with
  | [] => None
  | e :: l =>
      if p e then Some ([], e, l)
      else match search p l with
           | Some (l1, x, l2) => Some (e :: l1, x, l2)
           | None => None
           end
  end.

Definition find_val (id : Z) (l : list log_entry) : option log_entry :=
  match search (wanted id true) l with Some (_, v, _) => Some v | None => None end.

Record item := { i_id : Z; i_key : list Z; i_val : list Z; i_bin : bool }.

Fixpoint items (l : list log_entry) : list item :=
  match l with
  | [] => []
  | e :: l =>
      match is_key e, find_val (e_id e) l with
      | true, Some v =>
          {| i_id := e_id e; i_key := le_payload e; i_val := le_payload v;
             i_bin := e_binary v |} :: items l
      | _, _ => items l
      end
  end.

(** The parameters a log holds. *)
Definition params (l : list log_entry) : gmap (list Z) (list Z * bool) :=
  list_to_map (map (fun x => (i_key x, (i_val x, i_bin x))) (items l)).

Definition keys (l : list log_entry) : list log_entry := filter (fun e => is_key e = true) l.
Definition values (l : list log_entry) : list log_entry := filter (fun e => is_value e = true) l.

(** The invariant on the live entries: key ids increase along the log, key
    names are distinct, a key has at most one value, and a value comes after
    its key. *)
Record wf_log (l : list log_entry) : Prop := {
  wf_ids : StronglySorted Z.lt (map e_id (keys l));
  wf_id_range : Forall (fun e => 1 <= e_id e <= MAX_KEY_ID) (keys l);
  wf_names : NoDup (map le_payload (keys l));
  wf_values : NoDup (map e_id (values l));
  wf_value_ids : forall l1 v l2, l = l1 ++ v :: l2 -> is_value v = true ->
    e_id v ∈ map e_id (keys l1)
}.

(** The keys still named in the log that have no value: deleted parameters. *)
Definition orphans (l : list log_entry) : gset (list Z) :=
  list_to_set (map le_payload (keys l)) ∖ dom (params l).

(** The region headers that [_write_region_header] writes. *)
Definition region_flags (sector a other : Z) (active : bool) : Z :=
  let flags :=
    if a <? other then Z.land ((other - a) / sector) REGION_MASK_SIZE
    else Z.lor (Z.land ((a - other) / sector) REGION_MASK_SIZE) REGION_FLAG_SECOND in
  if active then Z.lor flags REGION_FLAG_ACTIVE else flags.
Definition region_hdr (sector a other : Z) (active : bool) : region_header :=
  {| magic := SYSPARAM_MAGIC; flags_size := region_flags sector a other active; reserved := 0 |}.

(** The headers on flash that let [sysparam_init] find the regions again. *)
Record headers `{FlashDev D} (d : D) (i : sysparam_info) : Prop := {
  he_cur : fbytes d (cur_base i) 8 =
    region_header_bytes (region_hdr (sector_size sdk_flashchip) (cur_base i) (alt_base i) true);
  he_alt : fbytes d (alt_base i) 8 =
    region_header_bytes (region_hdr (sector_size sdk_flashchip) (alt_base i) (cur_base i) false);
  he_adjacent : cur_base i + region_size i = alt_base i \/ alt_base i + region_size i = cur_base i;
  he_sectors : region_size i / sector_size sdk_flashchip <= REGION_MASK_SIZE
}.

(** [represents m o w]: the flash and the globals of [w] hold the parameters
    [m]; the names [o] of deleted parameters are still in the log. *)
Definition represents `{FlashDev D} (m : gmap (list Z) (list Z * bool)) (o : gset (list Z))
    (w : world D) : Prop :=
  exists l, store (dev w) (info w) l /\ headers (dev w) (info w) /\ wf_log l /\
    params l = m /\ orphans l = o.

(** What a scan has counted after the entries [l]. *)
Fixpoint balance (l : list log_entry) : Z :=
  match l with
  | [] => 0
  | e :: l => (if is_key e then 1 else if is_value e then -1 else 0) + balance l
  end.
Fixpoint dead_size (l : list log_entry) : Z :=
  match l with
  | [] => 0
  | e :: l => (if e_alive e then 0 else esize e) + dead_size l
  end.
Definition last_id (l : list log_entry) : Z :=
  foldl (fun m e => if is_key e then e_id e else m) 0 l.

(** ** Sizes and lists of entries *)

Lemma round_word x : 0 <= x < 2 ^ 31 -> ROUND_TO_WORD_BOUNDARY x = round4 x.
Proof.
  intros Hx. unfold ROUND_TO_WORD_BOUNDARY. rewrite u32_small by lia.
  change 0xfffffffc with (Z.shiftl (Z.ones 30) 2).
  assert (E : Z.land (x + 3) (Z.shiftl (Z.ones 30) 2) = Z.shiftl (Z.land (Z.shiftr (x + 3) 2) (Z.ones 30)) 2).
  { apply Z.bits_inj'; intros n Hn. rewrite Z.land_spec.
    destruct (Z.ltb_spec n 2).
    - rewrite !Z.shiftl_spec_low by lia. apply andb_false_r.
    - rewrite !Z.shiftl_spec_high, Z.land_spec, Z.shiftr_spec by lia.
      by replace (n - 2 + 2) with n by lia. }
  rewrite E, Z.land_ones, Z.shiftr_div_pow2, Z.shiftl_mul_pow2 by lia.
  change (2 ^ 2) with 4. change (2 ^ 30) with 1073741824. unfold round4.
  rewrite Z.mod_small by (split; [apply Z.div_pos; lia|apply Z.div_lt_upper_bound; lia]).
  Z.div_mod_to_equations. lia.
Qed.

Lemma entry_size_eq n : 0 <= n < 2 ^ 31 -> ENTRY_SIZE n = 4 + round4 n.
Proof. intros. unfold ENTRY_SIZE, ENTRY_HEADER_SIZE. by rewrite round_word by lia. Qed.

Lemma payload_len_nonneg e : 0 <= payload_len e.
Proof. unfold payload_len. lia. Qed.

Lemma esize_entry e : payload_len e <= MAX_VALUE_LEN -> ENTRY_SIZE (payload_len e) = esize e.
Proof.
  intros Hl. pose proof (payload_len_nonneg e). unfold MAX_VALUE_LEN in Hl.
  by rewrite entry_size_eq by lia.
Qed.

Lemma esize_range e : 4 + payload_len e <= esize e < 8 + payload_len e.
Proof. unfold esize, ENTRY_HEADER_SIZE. pose proof (round4_range (payload_len e)). lia. Qed.

Lemma esize_pos e : 4 <= esize e.
Proof. pose proof (esize_range e). pose proof (payload_len_nonneg e). lia. Qed.

Lemma esize_mod e : esize e mod 4 = 0.
Proof.
  unfold esize, ENTRY_HEADER_SIZE. rewrite Z.add_mod, round4_mod by lia. done.
Qed.

Lemma lsize_app l k : lsize (l ++ k) = lsize l + lsize k.
Proof. induction l as [|e l IH]; simpl; [lia|]. fold (lsize (l ++ k)) (lsize l). lia. Qed.

Lemma lsize_cons e l : lsize (e :: l) = esize e + lsize l.
Proof. done. Qed.

Lemma lsize_nonneg l : 4 * Z.of_nat (length l) <= lsize l.
Proof.
  induction l as [|e l IH]; simpl; [lia|]. fold (lsize l). pose proof (esize_pos e). lia.
Qed.

Lemma lsize_mod l : lsize l mod 4 = 0.
Proof.
  induction l as [|e l IH]; simpl; [done|]. fold (lsize l).
  rewrite Z.add_mod, esize_mod, IH by lia. done.
Qed.

Lemma balance_app l k : balance (l ++ k) = balance l + balance k.
Proof. induction l as [|e l IH]; simpl; [done|]. rewrite IH. lia. Qed.
Lemma dead_size_app l k : dead_size (l ++ k) = dead_size l + dead_size k.
Proof. induction l as [|e l IH]; simpl; [done|]. rewrite IH. lia. Qed.
Lemma last_id_app l k :
  last_id (l ++ k) = foldl (fun m e => if is_key e then e_id e else m) (last_id l) k.
Proof. unfold last_id. by rewrite foldl_app. Qed.

Lemma balance_snoc l e :
  balance (l ++ [e]) = balance l + (if is_key e then 1 else if is_value e then -1 else 0).
Proof. rewrite balance_app. simpl. lia. Qed.
Lemma dead_size_snoc l e :
  dead_size (l ++ [e]) = dead_size l + (if e_alive e then 0 else esize e).
Proof. rewrite dead_size_app. simpl. lia. Qed.
Lemma last_id_snoc l e : last_id (l ++ [e]) = if is_key e then e_id e else last_id l.
Proof. by rewrite last_id_app. Qed.

(** The three kinds of entries. *)
Lemma e_alive_eq e : e_alive e = entry_alive (hdr e).
Proof. done. Qed.
Section kinds.
Context (e : log_entry).
Lemma is_key_key :
  entry_alive (hdr e) = true -> entry_is_value (hdr e) = false -> is_key e = true.
Proof. unfold is_key, e_alive. by intros -> ->. Qed.
Lemma is_key_value :
  entry_alive (hdr e) = true -> entry_is_value (hdr e) = true -> is_key e = false.
Proof. unfold is_key, e_alive. by intros -> ->. Qed.
Lemma is_value_value :
  entry_alive (hdr e) = true -> entry_is_value (hdr e) = true -> is_value e = true.
Proof. unfold is_value, e_alive. by intros -> ->. Qed.
Lemma is_key_dead : entry_alive (hdr e) = false -> is_key e = false.
Proof. unfold is_key, e_alive. by intros ->. Qed.
Lemma is_value_dead : entry_alive (hdr e) = false -> is_value e = false.
Proof. unfold is_value, e_alive. by intros ->. Qed.
End kinds.

Lemma dead_size_bound l : 0 <= dead_size l <= lsize l.
Proof.
  induction l as [|e l IH]; simpl; [lia|]. fold (lsize l). pose proof (esize_pos e).
  destruct (e_alive e); lia.
Qed.

Lemma balance_bound l : Z.abs (balance l) <= Z.of_nat (length l).
Proof. induction l as [|e l IH]; simpl; [lia|]. destruct (is_key e), (is_value e); lia. Qed.

Lemma search_Some p l l1 e l2 :
  search p l = Some (l1, e, l2) ->
  l = l1 ++ e :: l2 /\ p e = true /\ Forall (fun x => p x = false) l1.
Proof.
  revert l1; induction l as [|x l IH]; intros l1 Hs; simpl in Hs; [done|].
  destruct (p x) eqn:Hx; [by simplify_eq|].
  destruct (search p l) as [[[k1 y] k2]|]; simplify_eq.
  destruct (IH k1 eq_refl) as (-> & Hp & Hall). split_and!; auto.
Qed.

Lemma search_None p l : search p l = None -> Forall (fun x => p x = false) l.
Proof.
  induction l as [|x l IH]; intros Hs; simpl in Hs; [done|].
  destruct (p x) eqn:Hx; [done|]. destruct (search p l) as [[[??]?]|]; [done|]. auto.
Qed.

Lemma search_app_skip p l1 l2 :
  Forall (fun x => p x = false) l1 ->
  search p (l1 ++ l2) =
    match search p l2 with Some (k1, e, k2) => Some (l1 ++ k1, e, k2) | None => None end.
Proof.
  induction 1 as [|x l1 Hx _ IH]; simpl; [by destruct (search p l2) as [[[??]?]|]|].
  rewrite Hx, IH. by destruct (search p l2) as [[[??]?]|].
Qed.

Lemma search_hit p l1 e l2 :
  Forall (fun x => p x = false) l1 -> p e = true -> search p (l1 ++ e :: l2) = Some (l1, e, l2).
Proof. intros H1 He. rewrite search_app_skip by done. simpl. rewrite He. by rewrite app_nil_r. Qed.

Lemma search_miss p l : Forall (fun x => p x = false) l -> search p l = None.
Proof. induction 1 as [|x l Hx _ IH]; simpl; [done|]. by rewrite Hx, IH. Qed.

(** ** The log in flash *)

Section log.
Context `{FlashDev D}.
Implicit Types (d : D) (l : list log_entry).

Lemma log_at_app d a l k :
  log_at d a (l ++ k) <-> log_at d a l /\ log_at d (a + lsize l) k.
Proof.
  revert a; induction l as [|e l IH]; intros a; simpl.
  { rewrite Z.add_0_r. tauto. }
  fold (lsize l). rewrite IH, Z.add_assoc. tauto.
Qed.

Lemma entry_at_same d d' a e :
  same_in a (a + esize e) d d' -> entry_at d a e -> entry_at d' a e.
Proof.
  intros Hs (Hok & Hh & Hp). pose proof (esize_range e). unfold payload_len in *.
  split_and!; [done|..].
  - by rewrite <- (fbytes_same d d' _ _ _ _ Hs) by lia.
  - by rewrite <- (fbytes_same d d' _ _ _ _ Hs) by lia.
Qed.

Lemma log_at_same d d' a l :
  same_in a (a + lsize l) d d' -> log_at d a l -> log_at d' a l.
Proof.
  revert a; induction l as [|e l IH]; intros a Hs; simpl; [done|].
  rewrite lsize_cons in Hs. pose proof (esize_pos e). pose proof (lsize_nonneg l).
  intros [He Hl]. split.
  - eapply entry_at_same; [|done]. eapply same_in_sub; [..|exact Hs]; lia.
  - apply IH; [|done]. eapply same_in_sub; [..|exact Hs]; lia.
Qed.

Lemma log_at_ok d a l : log_at d a l -> Forall entry_ok l.
Proof.
  revert a; induction l as [|e l IH]; intros a; simpl; [done|].
  intros [[? _] ?]. constructor; eauto.
Qed.

Lemma erased_same d d' lo hi : same_in lo hi d d' -> erased d lo hi -> erased d' lo hi.
Proof. intros Hs He a Ha. rewrite <- Hs by done. by apply He. Qed.

Lemma erased_sub d lo hi lo' hi' :
  lo <= lo' -> hi' <= hi -> erased d lo hi -> erased d lo' hi'.
Proof. intros ?? He a ?. apply He. lia. Qed.

(** [store] depends only on the bytes of the current region. *)
Lemma store_same d d' i l :
  same_in (cur_base i) (region_end i) d d' -> store d i l -> store d' i l.
Proof.
  intros Hs [Hg Hl He Hf Her Hfo]. unfold log_start, REGION_HEADER_SIZE in *.
  pose proof (lsize_nonneg l).
  split; auto.
  - eapply log_at_same; [|done]. eapply same_in_sub; [..|exact Hs]; unfold log_start, REGION_HEADER_SIZE; lia.
  - eapply erased_same; [|done]. eapply same_in_sub; [..|exact Hs]; lia.
Qed.

Lemma store_force d i l : store d i l -> end_addr i = region_end i ->
  store d (set_force_compact true i) l.
Proof. intros [? ? ? ? ? ?] ?. by split. Qed.
Lemma store_sem d i l n : store d i l -> store d (set_sem_taken n i) l.
Proof. intros [? ? ? ? ? ?]. by split. Qed.
End log.

#[export] Hint Resolve store_force store_sem : esp.

(** ** Scanning *)

(** [scanned i ctx pre]: the context stands on the last entry of [pre] (on the
    region header when there is none) and has counted [pre]. *)
Record scanned (i : sysparam_info) (ctx : sysparam_context) (pre : list log_entry) : Prop := {
  sc_at : (pre = [] /\ addr ctx = cur_base i) \/
          (exists pre' e, pre = pre' ++ [e] /\ addr ctx = log_start i + lsize pre' /\
                          entry ctx = hdr e);
  sc_unused : unused_keys ctx = s32 (balance pre);
  sc_dead : compactable ctx = u32 (dead_size pre);
  sc_max : max_key_id ctx = last_id pre
}.

(** [at_end i ctx l]: the context stands at the end of the log [l] and has
    counted all of it. *)
Record at_end (i : sysparam_info) (ctx : sysparam_context) (l : list log_entry) : Prop := {
  ae_addr : addr ctx = end_addr i;
  ae_unused : unused_keys ctx = s32 (balance l);
  ae_dead : compactable ctx = u32 (dead_size l);
  ae_max : max_key_id ctx = last_id l
}.

Lemma wp_eq {W A} (m : ST W A) (Q : A -> W -> Prop) w x w' :
  m w = Some (x, w') -> Q x w' -> wp m Q w.
Proof. intros E HQ. unfold wp. by rewrite E. Qed.

Lemma le2_val x : 0 <= x < 65536 -> le_val (le_bytes 2 x) = x.
Proof. intros ?. rewrite le_val_bytes. by apply Z.mod_small. Qed.

Lemma hdr_decode e : entry_ok e -> entry_header_of (entry_header_bytes (hdr e)) = hdr e.
Proof.
  intros (Hf & Hl & _). unfold entry_header_of, entry_header_bytes.
  rewrite take_app_length', drop_app_length', firstn_all2 by done.
  unfold hdr, MAX_VALUE_LEN in *; cbn [idflags len]. pose proof (payload_len_nonneg e).
  by rewrite !le2_val by lia.
Qed.

Lemma s32_add x y : s32 (s32 x + y) = s32 (x + y).
Proof.
  unfold s32. replace ((x + 2 ^ 31) mod 2 ^ 32 - 2 ^ 31 + y + 2 ^ 31) with
    ((x + 2 ^ 31) mod 2 ^ 32 + y) by lia.
  rewrite Zplus_mod_idemp_l. f_equal. f_equal. lia.
Qed.
Lemma s32_sub x y : s32 (s32 x - y) = s32 (x + - y).
Proof. exact (s32_add x (- y)). Qed.
Lemma u32_add x y : u32 (u32 x + y) = u32 (x + y).
Proof. unfold u32. by rewrite Zplus_mod_idemp_l. Qed.

Section geometry.
Context `{FlashOk D}.
Implicit Types (i : sysparam_info) (l : list log_entry) (d : D).

Lemma geo_bounds i : info_geometry i ->
  0 < cur_base i /\ 0 < alt_base i /\ 16 <= region_size i /\
  cur_base i mod 4 = 0 /\ alt_base i mod 4 = 0 /\ region_size i mod 4 = 0 /\
  region_end i <= chip_size sdk_flashchip <= 2 ^ 24 /\
  alt_base i + region_size i <= chip_size sdk_flashchip /\
  (region_end i <= alt_base i \/ alt_base i + region_size i <= cur_base i).
Proof.
  intros [? ? ? Hb Ha Hz ? ? ?]. pose proof flash_chip_ok as [_ _ Hs Hs4 _ Hc _].
  assert (Hal : forall x, x mod sector_size sdk_flashchip = 0 -> x mod 4 = 0).
  { intros x [k ->]%Z.mod_divide; [|lia]. rewrite Z.mul_mod, Hs4 by lia. by rewrite Z.mul_0_r. }
  unfold region_end. split_and!; auto; lia.
Qed.

Lemma store_bounds d i l : store d i l ->
  0 < cur_base i /\ 16 <= region_size i /\ cur_base i mod 4 = 0 /\ region_size i mod 4 = 0 /\
  region_end i <= chip_size sdk_flashchip <= 2 ^ 24 /\
  log_start i + lsize l <= region_end i.
Proof.
  intros [Hg _ He Hf _ _]. pose proof (geo_bounds i Hg). rewrite He in Hf. tauto.
Qed.

Lemma store_entry_ok d i l e : store d i l -> e ∈ l -> entry_ok e.
Proof.
  intros [_ Hl _ _ _ _] He. apply log_at_ok in Hl. rewrite Forall_forall in Hl. auto.
Qed.

Lemma next_entry_scanned d i ctx pre post :
  store d i (pre ++ post) -> scanned i ctx pre ->
  next_entry i ctx =
    (if log_start i + lsize pre =? region_end i then StopAt (log_start i + lsize pre)
     else ReadAt (log_start i + lsize pre)).
Proof.
  intros Hst [Hat _ _ _]. pose proof (store_bounds _ _ _ Hst) as (?&?&_&_&[??]&Hfit).
  rewrite lsize_app in Hfit. pose proof (lsize_nonneg post). pose proof (lsize_nonneg pre).
  unfold next_entry, log_start, region_end, REGION_HEADER_SIZE in *.
  destruct Hat as [[-> Ha]|(pre' & e & -> & Ha & He)].
  - rewrite Ha, Z.eqb_refl, Z.add_0_r, u32_small by lia. by zif.
  - pose proof (lsize_nonneg pre'). pose proof (esize_pos e).
    destruct (store_entry_ok _ _ _ e Hst) as (_ & Hlen & _); [set_solver|].
    rewrite lsize_app, lsize_cons in *. simpl in *. rewrite Z.add_0_r in *.
    rewrite He, Ha. simpl. rewrite esize_entry by done.
    zif. rewrite !u32_small by lia. rewrite <- !Z.add_assoc in *. zif.
    destruct (Z.eqb_spec (cur_base i + (8 + (lsize pre' + esize e))) (cur_base i + region_size i)).
    + zif. done.
    + zif. done.
Qed.

(** Reading the header of an entry of the log, and of the erased flash. *)
Lemma read_header d i l a e w :
  store d i l -> dev w = d -> entry_at d a e -> log_start i <= a -> a mod 4 = 0 ->
  a + esize e <= region_end i ->
  read a ENTRY_HEADER_SIZE w = Some ((SPI_FLASH_RESULT_OK, entry_header_bytes (hdr e)), w).
Proof.
  intros Hst Hw (_ & Hh & _) ???. pose proof (store_bounds _ _ _ Hst) as (?&?&_&_&[??]&_).
  pose proof (esize_pos e). unfold read, ENTRY_HEADER_SIZE, log_start, REGION_HEADER_SIZE in *.
  rewrite Hw, flash_read_ok by lia. change (Z.to_nat 4) with 4%nat. by rewrite Hh.
Qed.

Lemma read_erased d i l a w :
  store d i l -> dev w = d -> end_addr i <= a -> a mod 4 = 0 -> a + 4 <= region_end i ->
  read a ENTRY_HEADER_SIZE w = Some ((SPI_FLASH_RESULT_OK, [255; 255; 255; 255]), w).
Proof.
  intros Hst Hw ???. pose proof (store_bounds _ _ _ Hst) as (?&?&_&_&[??]&?).
  pose proof (st_end _ _ _ Hst) as He. pose proof (st_erased _ _ _ Hst) as Her.
  pose proof (lsize_nonneg l). unfold read, ENTRY_HEADER_SIZE, log_start, REGION_HEADER_SIZE in *.
  rewrite Hw, flash_read_ok by lia. change (Z.to_nat 4) with 4%nat.
  cbn [fbytes]. by rewrite !Her by lia.
Qed.

Lemma log_addr_mod d i pre post :
  store d i (pre ++ post) -> (log_start i + lsize pre) mod 4 = 0.
Proof.
  intros Hst. pose proof (store_bounds _ _ _ Hst) as (_&_&?&_&_).
  unfold log_start, REGION_HEADER_SIZE. rewrite Z.add_mod, lsize_mod by lia.
  rewrite (Z.add_mod (cur_base i)) by lia. by replace (cur_base i mod 4) with 0 by lia.
Qed.

Definition step_ctx ctx a e : sysparam_context := set_entry (hdr e) (set_addr a ctx).

Lemma visit_scanned i ctx pre e m fv found ctx' :
  scanned i ctx pre -> entry_ok e ->
  entry_visit (step_ctx ctx (log_start i + lsize pre) e) m fv = (found, ctx') ->
  found = wanted m fv e /\ entry ctx' = hdr e /\
  addr ctx' = log_start i + lsize pre /\ scanned i ctx' (pre ++ [e]).
Proof.
  intros [_ Hu Hd Hm] (_ & Hlen & _) Hv.
  assert (Hat : forall c, addr c = log_start i + lsize pre -> entry c = hdr e ->
    (pre ++ [e] = [] /\ addr c = cur_base i) \/
    (exists pre' e', pre ++ [e] = pre' ++ [e'] /\ addr c = log_start i + lsize pre' /\
      entry c = hdr e')) by (right; eauto).
  unfold entry_visit in Hv. cbn [entry step_ctx set_entry set_addr] in Hv.
  unfold wanted, is_key, is_value, e_alive, e_id in *.
  destruct (entry_alive (hdr e)) eqn:Hal; [destruct (entry_is_value (hdr e)) eqn:Hval|];
    simplify_eq/=.
  - split_and!; [by destruct fv|done..|]. split; [by apply Hat|..]; simpl.
    + by rewrite Hu, balance_snoc, s32_sub, is_key_value, is_value_value by done.
    + by rewrite Hd, dead_size_snoc, e_alive_eq, Hal, Z.add_0_r by done.
    + by rewrite Hm, last_id_snoc, is_key_value by done.
  - split_and!; [by destruct fv|done..|]. split; [by apply Hat|..]; simpl.
    + by rewrite Hu, balance_snoc, s32_add, is_key_key by done.
    + by rewrite Hd, dead_size_snoc, e_alive_eq, Hal, Z.add_0_r by done.
    + by rewrite last_id_snoc, is_key_key by done.
  - split_and!; [by destruct fv|done..|]. split; [by apply Hat|..]; simpl.
    + by rewrite Hu, balance_snoc, is_key_dead, is_value_dead, Z.add_0_r by done.
    + by rewrite Hd, dead_size_snoc, u32_add, e_alive_eq, Hal, esize_entry by done.
    + by rewrite Hm, last_id_snoc, is_key_dead by done.
Qed.

(** One iteration of [_find_entry] over an entry of the log. *)
Lemma find_step fuel ctx m fv w pre e post :
  store (dev w) (info w) (pre ++ e :: post) -> scanned (info w) ctx pre ->
  exists ctx',
    find_entry_loop (S fuel) ctx m fv w =
      (if wanted m fv e then Some ((SYSPARAM_OK, ctx'), w)
       else find_entry_loop fuel ctx' m fv w) /\
    entry ctx' = hdr e /\ addr ctx' = log_start (info w) + lsize pre /\
    scanned (info w) ctx' (pre ++ [e]).
Proof.
  intros Hst Hsc. set (a := log_start (info w) + lsize pre).
  pose proof (store_bounds _ _ _ Hst) as (_&_&_&_&_&Hfit).
  rewrite lsize_app, lsize_cons in Hfit. pose proof (lsize_nonneg post).
  pose proof (lsize_nonneg pre). pose proof (esize_pos e).
  pose proof (st_log _ _ _ Hst) as [_ [He _]]%log_at_app. fold a in He.
  pose proof (store_entry_ok _ _ _ e Hst ltac:(set_solver)) as Hok.
  destruct (entry_visit (step_ctx ctx a e) m fv) as [found ctx'] eqn:Hv.
  destruct (visit_scanned _ _ _ _ _ _ _ _ Hsc Hok Hv) as (-> & He' & Ha' & Hsc').
  exists ctx'. split_and!; auto.
  cbn [find_entry_loop]. unfold mbind at 1, st_bind at 1. cbn [get_info].
  rewrite (next_entry_scanned _ _ _ _ _ Hst Hsc). fold a. unfold a. zif. fold a.
  unfold mbind at 1, st_bind at 1.
  rewrite (read_header _ _ _ _ e _ Hst) by (auto; unfold a in *; try lia; eauto using log_addr_mod).
  cbn [flash_op_ok]. rewrite hdr_decode by done.
  fold (step_ctx ctx a e). destruct Hok as [Hf _].
  replace (idflags (entry (step_ctx ctx a e)) =? 0xffff) with false
    by (symmetry; apply Z.eqb_neq; simpl; lia).
  rewrite Hv. by destruct (wanted m fv e).
Qed.

(** The end of the log. *)
Lemma find_end fuel ctx m fv w pre :
  store (dev w) (info w) pre -> scanned (info w) ctx pre ->
  exists ctx', find_entry_loop (S fuel) ctx m fv w = Some (find_done ctx' m, w) /\
    at_end (info w) ctx' pre.
Proof.
  intros Hst Hsc. rewrite <- (app_nil_r pre) in Hst.
  pose proof (next_entry_scanned _ _ _ _ _ Hst Hsc) as Hn.
  pose proof (log_addr_mod _ _ _ _ Hst) as Hmod. rewrite app_nil_r in Hst.
  destruct (store_bounds _ _ _ Hst) as (_&_&?&?&_&Hfit). destruct Hsc as [_ Hu Hd Hm].
  pose proof (st_end _ _ _ Hst) as Hend. rewrite <- Hend in *.
  cbn [find_entry_loop]. unfold mbind at 1, st_bind at 1. cbn [get_info]. rewrite Hn.
  destruct (Z.eqb_spec (end_addr (info w)) (region_end (info w))).
  { eexists; split; [done|]. by split. }
  assert (end_addr (info w) + 4 <= region_end (info w)).
  { unfold region_end in *. Z.div_mod_to_equations. lia. }
  unfold mbind at 1, st_bind at 1. rewrite (read_erased _ _ _ _ _ Hst) by (auto; lia).
  eexists; split; [done|]. by split.
Qed.

Lemma find_loop_hit fuel ctx m fv w pre l1 e l2 :
  store (dev w) (info w) (pre ++ l1 ++ e :: l2) -> scanned (info w) ctx pre ->
  Forall (fun x => wanted m fv x = false) l1 -> wanted m fv e = true ->
  (length l1 < fuel)%nat ->
  exists ctx', find_entry_loop fuel ctx m fv w = Some ((SYSPARAM_OK, ctx'), w) /\
    entry ctx' = hdr e /\ addr ctx' = log_start (info w) + lsize (pre ++ l1) /\
    scanned (info w) ctx' (pre ++ l1 ++ [e]).
Proof.
  intros Hst Hsc Hl1 He. revert fuel ctx pre Hst Hsc.
  induction Hl1 as [|x l1 Hx _ IH]; intros [|fuel] ctx pre Hst Hsc Hf; simpl in Hf; try lia.
  - destruct (find_step fuel ctx m fv w pre e l2 Hst Hsc) as (ctx' & E & ? & ? & ?).
    rewrite He in E. exists ctx'. rewrite app_nil_r. auto.
  - destruct (find_step fuel ctx m fv w pre x (l1 ++ e :: l2) Hst Hsc) as (c & E & _ & _ & Hc).
    rewrite Hx in E. rewrite E.
    replace (pre ++ (x :: l1) ++ e :: l2) with ((pre ++ [x]) ++ l1 ++ e :: l2) in Hst
      by (by rewrite <- app_assoc).
    destruct (IH fuel c _ Hst Hc) as (c' & E' & ? & Ha & Hs); [lia|].
    exists c'. rewrite <- app_assoc in Ha, Hs. auto.
Qed.

Lemma find_loop_miss fuel ctx m fv w pre post :
  store (dev w) (info w) (pre ++ post) -> scanned (info w) ctx pre ->
  Forall (fun x => wanted m fv x = false) post -> (length post < fuel)%nat ->
  exists ctx', find_entry_loop fuel ctx m fv w = Some (find_done ctx' m, w) /\
    at_end (info w) ctx' (pre ++ post).
Proof.
  intros Hst Hsc Hp. revert fuel ctx pre Hst Hsc.
  induction Hp as [|x l Hx _ IH]; intros [|fuel] ctx pre Hst Hsc Hf; simpl in Hf; try lia.
  - rewrite app_nil_r in *. by apply find_end.
  - destruct (find_step fuel ctx m fv w pre x l Hst Hsc) as (c & E & _ & _ & Hc).
    rewrite Hx in E. rewrite E.
    replace (pre ++ x :: l) with ((pre ++ [x]) ++ l) in * by (by rewrite <- app_assoc).
    apply IH; auto. lia.
Qed.

Lemma region_fuel_ok d i l (k : list log_entry) :
  store d i l -> (length k <= length l)%nat -> (length k + 1 < region_fuel i)%nat.
Proof.
  intros Hst Hk. pose proof (store_bounds _ _ _ Hst) as (?&?&_&?&_&Hfit).
  pose proof (lsize_nonneg l). unfold region_fuel, ENTRY_HEADER_SIZE.
  unfold log_start, region_end, REGION_HEADER_SIZE in *.
  assert (Z.of_nat (length l) <= (region_size i - 8) / 4) by (apply Z.div_le_lower_bound; lia).
  replace (region_size i / 4) with ((region_size i - 8) / 4 + 2) by (Z.div_mod_to_equations; lia).
  lia.
Qed.

(** [_find_entry] finds the first wanted entry of the rest of the log. *)
Lemma find_entry_spec ctx m fv w pre post :
  store (dev w) (info w) (pre ++ post) -> scanned (info w) ctx pre ->
  match search (wanted m fv) post with
  | Some (l1, e, l2) =>
      exists ctx', _find_entry ctx m fv w = Some ((SYSPARAM_OK, ctx'), w) /\
        entry ctx' = hdr e /\ addr ctx' = log_start (info w) + lsize (pre ++ l1) /\
        scanned (info w) ctx' (pre ++ l1 ++ [e])
  | None =>
      exists ctx', _find_entry ctx m fv w = Some (find_done ctx' m, w) /\
        at_end (info w) ctx' (pre ++ post)
  end.
Proof.
  intros Hst Hsc. unfold _find_entry, mbind, st_bind. cbn [get_info].
  destruct (search (wanted m fv) post) as [[[l1 e] l2]|] eqn:Hs.
  - apply search_Some in Hs as (-> & He & Hl1).
    eapply find_loop_hit; eauto. pose proof (region_fuel_ok _ _ _ l1 Hst) as Hf.
    rewrite !length_app in Hf. lia.
  - apply search_None in Hs. eapply find_loop_miss; eauto.
    pose proof (region_fuel_ok _ _ _ post Hst) as Hf. rewrite length_app in Hf. lia.
Qed.
End geometry.
