(* ===== verification/SysparamGet.v ===== *)
(** * Reading parameters: _find_key, sysparam_get_data, the iterator

    On a flash that holds a log, the searches find what [search] finds in the
    log, [sysparam_get_data] returns the parameter the log represents and the
    iterator enumerates [items] of the log. *)

From stdpp Require Import sorting.
From S2P Require Import Prelude Flash Sysparam SysparamLog.
Local Open Scope Z_scope.

(** A key the API accepts: a C string of 1 to 65535 bytes. *)
Definition valid_key (key : list Z) : Prop :=
  Forall (fun c => is_byte c /\ c <> 0) key /\
  1 <= Z.of_nat (length key) <= MAX_KEY_LEN.

#[export] Instance is_byte_dec b : Decision (is_byte b).
Proof. unfold is_byte. apply _. Defined.
#[export] Instance valid_key_dec key : Decision (valid_key key).
Proof. unfold valid_key. apply _. Defined.

Definition named (key : list Z) (e : log_entry) : bool :=
  is_key e && bool_decide (le_payload e = key).

Lemma valid_key_strlen key : valid_key key -> strlen key = Z.of_nat (length key).
Proof.
  intros [Hk _]. apply strlen_nonzero. eapply Forall_impl; [exact Hk|]. by intros c [].
Qed.

Lemma wanted_any e : wanted ENTRY_ID_ANY false e = is_key e.
Proof. unfold wanted. rewrite Z.eqb_refl, orb_true_r. apply andb_true_r. Qed.

Lemma search_ext p q l : (forall e, p e = q e) -> search p l = search q l.
Proof. intros Hpq. induction l as [|e l IH]; simpl; [done|]. by rewrite Hpq, IH. Qed.

Lemma take_fbytes {D} {dv : FlashDev D} (d : D) a m n :
  take m (fbytes d a n) = fbytes d a (Nat.min m n).
Proof.
  revert a n; induction m as [|m IH]; intros a [|n]; simpl; try done. by rewrite IH.
Qed.

Section get.
Context `{FlashOk D}.
Implicit Types (w : world D) (ctx : sysparam_context).

Lemma scanned_at i ctx k e :
  scanned i ctx (k ++ [e]) -> addr ctx = log_start i + lsize k /\ entry ctx = hdr e.
Proof.
  intros [[[Hnil _]|(k' & e' & Heq & Ha & He)] _ _ _].
  - by destruct k.
  - apply app_inj_tail in Heq as [-> ->]. auto.
Qed.

Lemma read_payload_spec ctx w k e post n :
  store (dev w) (info w) (k ++ e :: post) -> scanned (info w) ctx (k ++ [e]) -> 0 <= n ->
  _read_payload ctx n w = Some ((SYSPARAM_OK, take (Z.to_nat n) (le_payload e)), w).
Proof.
  intros Hst Hsc Hn. apply scanned_at in Hsc as [Ha He].
  pose proof (store_bounds _ _ _ Hst) as (?&?&?&?&[??]&Hfit).
  pose proof (st_log _ _ _ Hst) as [_ [(Hok & _ & Hp) _]]%log_at_app.
  pose proof (log_addr_mod _ _ k (e :: post) Hst) as Hmod.
  rewrite lsize_app, lsize_cons in Hfit. pose proof (lsize_nonneg post).
  pose proof (lsize_nonneg k). pose proof (esize_range e). pose proof (payload_len_nonneg e).
  unfold _read_payload, mbind, st_bind, read. rewrite Ha, He. cbn [len hdr].
  unfold log_start, REGION_HEADER_SIZE, ENTRY_HEADER_SIZE in *. rewrite u32_small by lia.
  assert (0 <= Z.min n (payload_len e)) by lia.
  rewrite flash_read_ok by (try lia; rewrite Z.add_mod, Hmod by lia; done). simpl.
  rewrite Z2Nat.inj_min. unfold payload_len. rewrite Nat2Z.id.
  by rewrite <- take_fbytes, Hp.
Qed.

Lemma wanted_find_any l : search (wanted ENTRY_ID_ANY false) l = search is_key l.
Proof. apply search_ext, wanted_any. Qed.

Lemma at_end_entry i ctx l e : at_end i ctx l -> at_end i (set_entry e ctx) l.
Proof. intros []. by split. Qed.

Lemma search_named_skip key l1 e l2 :
  Forall (fun x => is_key x = false) l1 -> named key e = false ->
  search (named key) (l1 ++ e :: l2) =
    match search (named key) l2 with
    | Some (k1, x, k2) => Some (l1 ++ e :: k1, x, k2)
    | None => None
    end.
Proof.
  intros Hl1 He. rewrite search_app_skip.
  - simpl. rewrite He. by destruct (search (named key) l2) as [[[??]?]|].
  - eapply Forall_impl; [exact Hl1|]. intros x Hx. unfold named. by rewrite Hx.
Qed.

Lemma find_key_loop_spec fuel ctx key w pre post :
  valid_key key ->
  store (dev w) (info w) (pre ++ post) -> scanned (info w) ctx pre ->
  (length post < fuel)%nat ->
  match search (named key) post with
  | Some (l1, e, l2) =>
      exists ctx', find_key_loop fuel ctx (Some key) (Z.of_nat (length key)) w =
          Some ((SYSPARAM_OK, ctx'), w) /\ scanned (info w) ctx' (pre ++ l1 ++ [e])
  | None =>
      exists ctx', find_key_loop fuel ctx (Some key) (Z.of_nat (length key)) w =
          Some ((SYSPARAM_NOTFOUND, ctx'), w) /\ at_end (info w) ctx' (pre ++ post) /\
          entry ctx' = entry_zero
  end.
Proof.
  intros Hkey. revert ctx pre post; induction fuel as [|fuel IH]; intros ctx pre post Hst Hsc Hf;
    [lia|]. cbn [find_key_loop].
  pose proof (find_entry_spec ctx ENTRY_ID_ANY false w pre post Hst Hsc) as Hfind.
  rewrite wanted_find_any in Hfind.
  destruct (search is_key post) as [[[l1 e] l2]|] eqn:Hs.
  2:{ destruct Hfind as (ctx' & E & Hend). rewrite (bind_run _ _ _ _ _ E). simpl.
      apply search_None in Hs. rewrite search_miss.
      2:{ eapply Forall_impl; [exact Hs|]. intros x Hx. unfold named. by rewrite Hx. }
      eexists; split; [done|]. split; [by apply at_end_entry|done]. }
  destruct Hfind as (c & E & He & _ & Hc). rewrite (bind_run _ _ _ _ _ E). cbn [negb is_ok].
  apply search_Some in Hs as (-> & Hk & Hl1).
  rewrite He. cbn [len hdr].
  assert (Hcont : named key e = false ->
    match search (named key) (l1 ++ e :: l2) with
    | Some (k1, x, k2) => exists ctx', find_key_loop fuel c (Some key) (Z.of_nat (length key)) w =
          Some ((SYSPARAM_OK, ctx'), w) /\ scanned (info w) ctx' (pre ++ k1 ++ [x])
    | None => exists ctx', find_key_loop fuel c (Some key) (Z.of_nat (length key)) w =
          Some ((SYSPARAM_NOTFOUND, ctx'), w) /\ at_end (info w) ctx' (pre ++ l1 ++ e :: l2) /\
          entry ctx' = entry_zero
    end).
  { intros Hn. rewrite search_named_skip by done.
    assert (Happ : forall k, (pre ++ l1 ++ [e]) ++ k = pre ++ l1 ++ e :: k)
      by (intros; by rewrite <- !app_assoc).
    specialize (IH c (pre ++ l1 ++ [e]) l2). rewrite Happ in IH. rewrite length_app in Hf. simpl in Hf.
    specialize (IH Hst Hc ltac:(lia)). destruct (search (named key) l2) as [[[k1 x] k2]|]; [|done].
    destruct IH as (c' & ? & Hc'). exists c'. split; [done|].
    rewrite <- !app_assoc in Hc'. by rewrite <- !app_assoc. }
  destruct (Z.eqb_spec (payload_len e) (Z.of_nat (length key))) as [Hlen|Hlen].
  2:{ apply Hcont. unfold named. rewrite Hk. apply bool_decide_eq_false.
      intros Heq. rewrite <- Heq in Hlen. done. }
  assert (Hst' : store (dev w) (info w) ((pre ++ l1) ++ e :: l2)) by (by rewrite <- app_assoc).
  rewrite app_assoc in Hc.
  rewrite (bind_run _ _ _ _ _ (read_payload_spec c w (pre ++ l1) e l2
    (Z.of_nat (length key)) Hst' Hc ltac:(lia))).
  cbn [is_err].
  rewrite Nat2Z.id, firstn_all. unfold payload_len in Hlen. rewrite firstn_all2 by lia.
  case_decide as Heq.
  - rewrite search_hit.
    + exists c. by rewrite <- app_assoc in Hc.
    + eapply Forall_impl; [exact Hl1|]. intros x Hx. unfold named. by rewrite Hx.
    + unfold named. rewrite Hk. by apply bool_decide_eq_true.
  - apply Hcont. unfold named. rewrite Hk. apply bool_decide_eq_false. congruence.
Qed.

(** [_find_key] finds the first live key entry with that name. *)
Lemma find_key_spec ctx key w pre post :
  valid_key key -> store (dev w) (info w) (pre ++ post) -> scanned (info w) ctx pre ->
  match search (named key) post with
  | Some (l1, e, l2) =>
      exists ctx', _find_key ctx (Some key) (strlen key) w = Some ((SYSPARAM_OK, ctx'), w) /\
        scanned (info w) ctx' (pre ++ l1 ++ [e])
  | None =>
      exists ctx', _find_key ctx (Some key) (strlen key) w = Some ((SYSPARAM_NOTFOUND, ctx'), w) /\
        at_end (info w) ctx' (pre ++ post) /\ entry ctx' = entry_zero
  end.
Proof.
  intros Hkey Hst Hsc. unfold _find_key. rewrite (bind_run _ _ _ (info w) w) by done.
  rewrite valid_key_strlen by done. rewrite u16_small by (destruct Hkey; unfold MAX_KEY_LEN in *; lia).
  apply find_key_loop_spec; auto.
  pose proof (region_fuel_ok _ _ _ post Hst) as Hf. rewrite length_app in Hf. lia.
Qed.

Lemma find_next_key_spec ctx w pre post :
  store (dev w) (info w) (pre ++ post) -> scanned (info w) ctx pre ->
  match search is_key post with
  | Some (l1, e, l2) =>
      exists ctx', _find_key ctx None 0 w = Some ((SYSPARAM_OK, ctx'), w) /\
        scanned (info w) ctx' (pre ++ l1 ++ [e])
  | None =>
      exists ctx', _find_key ctx None 0 w = Some ((SYSPARAM_NOTFOUND, ctx'), w)
  end.
Proof.
  intros Hst Hsc. unfold _find_key. rewrite (bind_run _ _ _ (info w) w) by done.
  destruct (region_fuel (info w)) as [|fuel] eqn:Hf.
  { pose proof (region_fuel_ok _ _ _ [] Hst ltac:(simpl; lia)). lia. }
  cbn [find_key_loop]. pose proof (find_entry_spec ctx ENTRY_ID_ANY false w pre post Hst Hsc) as Hfind.
  rewrite wanted_find_any in Hfind. destruct (search is_key post) as [[[l1 e] l2]|].
  - destruct Hfind as (c & E & _ & _ & Hc). rewrite (bind_run _ _ _ _ _ E). simpl. eauto.
  - destruct Hfind as (c & E & _). rewrite (bind_run _ _ _ _ _ E). simpl. eauto.
Qed.

Lemma e_id_mask e : Z.land (e_id e) ENTRY_MASK_ID = e_id e.
Proof. unfold e_id, entry_id. by rewrite <- Z.land_assoc, Z.land_diag. Qed.

Lemma e_id_range e : 0 <= e_id e < 4096.
Proof.
  unfold e_id, entry_id, ENTRY_MASK_ID. change 0xfff with (Z.ones 12).
  rewrite Z.land_ones by lia. apply Z.mod_pos_bound. lia.
Qed.

Lemma e_id_land e : Z.land (le_flags e) ENTRY_MASK_ID = e_id e.
Proof. done. Qed.

(** [_find_value] finds the first live value of the key id in the rest of the log. *)
Lemma find_value_spec ctx f w pre post id :
  Z.land f ENTRY_MASK_ID = id -> id <> ENTRY_ID_END ->
  store (dev w) (info w) (pre ++ post) -> scanned (info w) ctx pre ->
  match search (wanted id true) post with
  | Some (l1, v, l2) =>
      exists ctx', _find_value ctx f w = Some ((SYSPARAM_OK, ctx'), w) /\
        scanned (info w) ctx' (pre ++ l1 ++ [v])
  | None =>
      exists ctx', _find_value ctx f w = Some ((SYSPARAM_NOTFOUND, ctx'), w) /\
        at_end (info w) ctx' (pre ++ post) /\ entry ctx' = entry_zero
  end.
Proof.
  intros <- Hend Hst Hsc. unfold _find_value.
  pose proof (find_entry_spec ctx (Z.land f ENTRY_MASK_ID) true w pre post Hst Hsc) as Hf.
  destruct (search _ post) as [[[l1 v] l2]|].
  - destruct Hf as (c & E & _ & _ & Hc). eauto.
  - destruct Hf as (c & E & Hc). unfold find_done in E. rewrite (proj2 (Z.eqb_neq _ _) Hend) in E.
    eexists; split; [exact E|]. split; [by apply at_end_entry|done].
Qed.
End get.

(** ** The parameters of a log *)

Lemma keys_app l k : keys (l ++ k) = keys l ++ keys k.
Proof. apply filter_app. Qed.
Lemma values_app l k : values (l ++ k) = values l ++ values k.
Proof. apply filter_app. Qed.
Lemma keys_cons e l : keys (e :: l) = if is_key e then e :: keys l else keys l.
Proof. unfold keys. rewrite filter_cons. case_decide as Hd; simpl in Hd; by destruct (is_key e). Qed.
Lemma values_cons e l : values (e :: l) = if is_value e then e :: values l else values l.
Proof. unfold values. rewrite filter_cons. case_decide as Hd; simpl in Hd; by destruct (is_value e). Qed.
Lemma elem_of_keys e l : e ∈ keys l <-> is_key e = true /\ e ∈ l.
Proof. unfold keys, values. by rewrite list_elem_of_filter. Qed.
Lemma elem_of_values e l : e ∈ values l <-> is_value e = true /\ e ∈ l.
Proof. unfold keys, values. by rewrite list_elem_of_filter. Qed.

Lemma items_key x l : x ∈ items l -> exists e, e ∈ keys l /\ i_id x = e_id e /\ i_key x = le_payload e.
Proof.
  induction l as [|e l IH]; simpl; [by intros ?%elem_of_nil|]. rewrite keys_cons.
  destruct (is_key e) eqn:Hk.
  - destruct (find_val (e_id e) l) as [v|].
    + rewrite elem_of_cons. intros [->|Hx]; [exists e; split_and!; [by left|done|done]|].
      destruct (IH Hx) as (e' & ? & ? & ?). exists e'. split_and!; auto. by right.
    + intros Hx. destruct (IH Hx) as (e' & ? & ? & ?). exists e'. split_and!; auto. by right.
  - auto.
Qed.

Definition item_kv (x : item) : list Z * (list Z * bool) := (i_key x, (i_val x, i_bin x)).

Lemma params_items l : params l = list_to_map (map item_kv (items l)).
Proof. done. Qed.

Lemma params_None l key : key ∉ map le_payload (keys l) -> params l !! key = None.
Proof.
  intros Hk. unfold params. apply not_elem_of_list_to_map_1.
  rewrite <- list_fmap_compose. intros (x & -> & Hx)%list_elem_of_fmap.
  destruct (items_key x l Hx) as (e & He & _ & Heq). apply Hk. simpl. rewrite Heq.
  by apply list_elem_of_fmap_2.
Qed.

Definition log_get (l : list log_entry) (key : list Z) : option (list Z * bool) :=
  match search (named key) l with
  | Some (_, e, l2) => (fun v => (le_payload v, e_binary v)) <$> find_val (e_id e) l2
  | None => None
  end.

Lemma params_lookup l key :
  NoDup (map le_payload (keys l)) -> params l !! key = log_get l key.
Proof.
  induction l as [|e l IH]; [done|]. rewrite keys_cons. intros Hnd.
  unfold log_get. simpl. unfold named at 1. destruct (is_key e) eqn:Hk; simpl.
  - apply NoDup_cons in Hnd as [Hni Hnd]. specialize (IH Hnd).
    assert (Hp : params (e :: l) !! key =
      match find_val (e_id e) l with
      | Some v => <[le_payload e := (le_payload v, e_binary v)]> (params l) !! key
      | None => params l !! key
      end).
    { unfold params. simpl. rewrite Hk. by destruct (find_val (e_id e) l). }
    rewrite Hp. clear Hp. destruct (decide (le_payload e = key)) as [<-|Hne].
    + rewrite bool_decide_true by done. destruct (find_val (e_id e) l) as [v|] eqn:Hv; simpl.
      * apply lookup_insert_eq.
      * by apply params_None.
    + rewrite bool_decide_false by done.
      destruct (find_val (e_id e) l) as [v|].
      * rewrite lookup_insert_ne by done. rewrite IH. unfold log_get.
        by destruct (search (named key) l) as [[[??]?]|].
      * rewrite IH. unfold log_get. by destruct (search (named key) l) as [[[??]?]|].
  - assert (params (e :: l) = params l) as -> by (unfold params; simpl; by rewrite Hk).
    rewrite IH by done. unfold log_get. by destruct (search (named key) l) as [[[??]?]|].
Qed.

(** ** Getting a value *)

Lemma elem_of_mid {A} (x : A) l1 l2 : x ∈ l1 ++ x :: l2.
Proof. rewrite elem_of_app. right. by left. Qed.

Section get_data.
Context `{FlashOk D}.
Implicit Types (w : world D) (m : gmap (list Z) (list Z * bool)).

Lemma scanned_start i : scanned i (set_addr (cur_base i) context_zero) [].
Proof. split; try done. by left. Qed.

Lemma wf_id_end l e : wf_log l -> e ∈ keys l -> e_id e <> ENTRY_ID_END.
Proof.
  intros Hwf He. pose proof (wf_id_range _ Hwf) as Hr. rewrite Forall_forall in Hr.
  specialize (Hr _ He). unfold MAX_KEY_ID, ENTRY_ID_END in *. lia.
Qed.

(** The key and value searches of the getters. *)
Lemma find_data_spec l w key :
  store (dev w) (info w) l -> wf_log l -> valid_key key ->
  match params l !! key with
  | Some (v, b) =>
      exists ctx k e post, find_data key w = Some ((SYSPARAM_OK, ctx), w) /\
        l = k ++ e :: post /\ scanned (info w) ctx (k ++ [e]) /\
        le_payload e = v /\ e_binary e = b
  | None => exists ctx, find_data key w = Some ((SYSPARAM_NOTFOUND, ctx), w)
  end.
Proof.
  intros Hst Hwf Hkey. rewrite params_lookup by apply Hwf. unfold log_get, find_data.
  rewrite (bind_run _ _ _ (set_addr (cur_base (info w)) context_zero) w) by done.
  pose proof (find_key_spec _ key w [] l Hkey Hst (scanned_start _)) as Hk.
  destruct (search (named key) l) as [[[l1 e] l2]|] eqn:Hs.
  2:{ destruct Hk as (c & E & _). rewrite (bind_run _ _ _ _ _ E). simpl. eauto. }
  destruct Hk as (c & E & Hc). rewrite (bind_run _ _ _ _ _ E). simpl.
  apply search_Some in Hs as (-> & Hn & _). simpl in Hc.
  pose proof (scanned_at _ _ _ _ Hc) as [_ ->].
  assert (He : e_id e <> ENTRY_ID_END).
  { eapply wf_id_end; [done|]. apply elem_of_keys. unfold named in Hn.
    apply andb_prop in Hn as [? _]. auto using elem_of_mid. }
  replace (l1 ++ e :: l2) with ((l1 ++ [e]) ++ l2) in Hst by (by rewrite <- app_assoc).
  pose proof (find_value_spec c _ w _ _ _ (e_id_land e) He Hst Hc) as Hv.
  unfold find_val. destruct (search (wanted (e_id e) true) l2) as [[[k1 v] k2]|] eqn:Hs2; simpl.
  - destruct Hv as (c' & E' & Hc'). apply search_Some in Hs2 as (-> & _ & _).
    exists c', (l1 ++ e :: k1), v, k2. split; [done|].
    rewrite <- !app_assoc in Hc'. simpl in Hc'. by rewrite <- !app_assoc.
  - destruct Hv as (c' & E' & _). eauto.
Qed.

Lemma is_binary_entry_spec i ctx k e :
  scanned i ctx (k ++ [e]) -> is_binary_entry ctx = e_binary e.
Proof. intros [_ He]%scanned_at. unfold is_binary_entry. by rewrite He. Qed.

Lemma get_data_run m o w key :
  represents m o w -> valid_key key ->
  exists st r w', sysparam_get_data key w = Some ((st, r), w') /\
    dev w' = dev w /\ info w' = info w /\
    live w' = (if is_ok st then live w + 1 else live w) /\
    ((st = SYSPARAM_ERR_NOMEM /\ false ∈ take 2 (allocs w)) \/
     match m !! key with
     | Some (v, b) => st = SYSPARAM_OK /\
         r = {| gr_data := v; gr_length := Z.of_nat (length v); gr_binary := b |}
     | None => st = SYSPARAM_NOTFOUND
     end).
Proof.
  intros (l & Hst & _ & Hwf & <- & _) Hkey. unfold sysparam_get_data.
  rewrite (bind_run _ _ _ (info w) w) by done.
  pose proof (store_bounds _ _ _ Hst) as [Hb _].
  replace (cur_base (info w) =? 0) with false by (symmetry; apply Z.eqb_neq; lia).
  destruct (next_alloc w) eqn:Ha1.
  2:{ rewrite (bind_run _ _ _ false (World (dev w) (info w) (tail (allocs w)) (live w)))
        by (unfold malloc; by rewrite Ha1). simpl. repeat eexists. left. split; [done|].
      unfold next_alloc in Ha1. destruct (allocs w); [done|]. set_solver. }
  set (w1 := World (dev w) (info w) (tail (allocs w)) (live w + 1)).
  rewrite (bind_run _ _ _ true w1) by (unfold malloc; by rewrite Ha1). simpl.
  pose proof (find_data_spec l w1 key Hst Hwf Hkey) as Hf.
  destruct (params l !! key) as [[v b]|].
  2:{ destruct Hf as (c & E). rewrite (bind_run _ _ _ _ _ E). simpl.
      repeat eexists; simpl; [lia|]. by right. }
  destruct Hf as (c & k & e & post & E & -> & Hc & <- & <-).
  rewrite (bind_run _ _ _ _ _ E). cbn [negb is_ok].
  set (w2 := World (dev w1) (info w1) (tail (allocs w1)) (live w1)).
  rewrite (bind_run _ _ _ (next_alloc w1) w2) by done.
  destruct (next_alloc w1) eqn:Ha2; simpl.
  - pose proof (scanned_at _ _ _ _ Hc) as [_ He]. rewrite He. simpl.
    rewrite (bind_run _ _ _ _ _ (read_payload_spec c w2 k e post (payload_len e)
               Hst Hc (payload_len_nonneg e))). simpl.
    repeat eexists. right. split; [done|]. unfold payload_len. rewrite Nat2Z.id, firstn_all.
    by erewrite is_binary_entry_spec.
  - repeat eexists; simpl; [lia|]. left. split; [done|]. simpl in Ha2.
    unfold next_alloc in Ha1, Ha2. destruct (allocs w) as [|[] [|[] ?]]; simpl in *; try done.
    set_solver.
Qed.
End get_data.

(** ** The iterator *)

Section iter.
Context `{FlashOk D}.
Implicit Types (w : world D) (it : sysparam_iter_t).

Lemma realloc_all w : allocs w = [] -> realloc w = Some (true, w).
Proof. intros Ha. unfold realloc, next_alloc. rewrite Ha. simpl. by destruct w; simpl in *; subst. Qed.

(** The iterator holds an item. *)
Record holds (it : sysparam_iter_t) (x : item) : Prop := {
  ho_key : it_key it = i_key x;
  ho_value : it_value it = i_val x;
  ho_key_len : key_len it = Z.of_nat (length (i_key x));
  ho_value_len : value_len it = Z.of_nat (length (i_val x));
  ho_binary : binary it = i_bin x;
  ho_id : entry_id (entry (it_ctx it)) = i_id x
}.

Lemma iter_load_spec it ctx value_ctx w k e mid v post :
  allocs w = [] -> 0 <= bufsize it < 2 ^ 31 ->
  store (dev w) (info w) (k ++ e :: mid ++ v :: post) ->
  scanned (info w) ctx (k ++ [e]) -> scanned (info w) value_ctx (k ++ e :: mid ++ [v]) ->
  exists it', iter_load it ctx value_ctx w = Some ((SYSPARAM_OK, it'), w) /\
    holds it' {| i_id := e_id e; i_key := le_payload e; i_val := le_payload v;
                 i_bin := e_binary v |} /\
    it_ctx it' = ctx /\ 0 <= bufsize it' < 2 ^ 31.
Proof.
  intros Ha Hbuf Hst Hc Hvc. unfold iter_load.
  pose proof (scanned_at _ _ _ _ Hc) as [_ He].
  rewrite app_comm_cons, app_assoc in Hvc. pose proof (scanned_at _ _ _ _ Hvc) as [_ Hv].
  rewrite He, Hv. cbn [len hdr iter_with_ctx bufsize].
  destruct (store_entry_ok _ _ _ e Hst (elem_of_mid _ _ _)) as (_ & Hle & _).
  rewrite app_comm_cons, app_assoc in Hst.
  destruct (store_entry_ok _ _ _ v Hst (elem_of_mid _ _ _)) as (_ & Hlv & _).
  rewrite <- app_assoc, <- app_comm_cons in Hst.
  unfold MAX_VALUE_LEN in *. pose proof (payload_len_nonneg e). pose proof (payload_len_nonneg v).
  rewrite round_word by lia. pose proof (round4_range (payload_len e + 1)).
  set (ks := round4 (payload_len e + 1)) in *.
  rewrite (u32_small (ks + _ + 1)) by lia. set (req := ks + payload_len v + 1).
  rewrite (bind_run _ _ _ true w) by (destruct (bufsize it <? req); [by apply realloc_all|done]).
  cbn [negb]. set (sz := Z.max (bufsize it) req).
  rewrite (bind_run _ _ _ _ _ (read_payload_spec ctx w k e (mid ++ v :: post) sz Hst Hc ltac:(lia))).
  cbn [is_err].
  rewrite u32_small by lia.
  assert (Hst' : store (dev w) (info w) ((k ++ e :: mid) ++ v :: post)) by (by rewrite <- app_assoc).
  rewrite (bind_run _ _ _ _ _ (read_payload_spec value_ctx w (k ++ e :: mid) v post (sz - ks)
             Hst' Hvc ltac:(lia))). cbn [is_err].
  eexists. split; [done|]. unfold payload_len in *. split_and!; [|done|simpl; lia|simpl; lia].
  split; simpl; rewrite ?firstn_all2 by lia; try done. by rewrite He.
Qed.

Lemma find_val_Some id l v :
  find_val id l = Some v ->
  exists l1 l2, search (wanted id true) l = Some (l1, v, l2) /\ l = l1 ++ v :: l2.
Proof.
  unfold find_val. destruct (search _ l) as [[[l1 x] l2]|] eqn:Hs; intros ?; simplify_eq.
  apply search_Some in Hs as Hs'. naive_solver.
Qed.

Lemma items_skip l1 l2 : Forall (fun x => is_key x = false) l1 -> items (l1 ++ l2) = items l2.
Proof. induction 1 as [|x l1 Hx _ IH]; simpl; [done|]. by rewrite Hx, IH. Qed.

Lemma iter_next_loop_spec fuel it ctx w pre post :
  allocs w = [] -> 0 <= bufsize it < 2 ^ 31 ->
  store (dev w) (info w) (pre ++ post) -> wf_log (pre ++ post) ->
  scanned (info w) ctx pre -> (length post < fuel)%nat ->
  match items post with
  | [] => exists it', iter_next_loop fuel it ctx w = Some ((SYSPARAM_NOTFOUND, it'), w)
  | x :: xs => exists it' pre' post',
      iter_next_loop fuel it ctx w = Some ((SYSPARAM_OK, it'), w) /\
      pre ++ post = pre' ++ post' /\ scanned (info w) (it_ctx it') pre' /\ items post' = xs /\
      holds it' x /\ 0 <= bufsize it' < 2 ^ 31 /\ (length post' < length post)%nat
  end.
Proof.
  intros Ha Hbuf. revert ctx pre post.
  induction fuel as [|fuel IH]; intros ctx pre post Hst Hwf Hsc Hf; [lia|].
  cbn [iter_next_loop]. pose proof (find_next_key_spec ctx w pre post Hst Hsc) as Hk.
  destruct (search is_key post) as [[[l1 e] l2]|] eqn:Hs.
  2:{ destruct Hk as (c & E). rewrite (bind_run _ _ _ _ _ E). simpl.
      apply search_None in Hs. rewrite <- (app_nil_r post), items_skip by done. simpl. eauto. }
  destruct Hk as (c & E & Hc). rewrite (bind_run _ _ _ _ _ E). cbn [negb is_ok].
  apply search_Some in Hs as (-> & Hke & Hl1). rewrite items_skip by done.
  assert (Happ : pre ++ l1 ++ e :: l2 = (pre ++ l1 ++ [e]) ++ l2) by (by rewrite <- !app_assoc).
  rewrite Happ in Hst. rewrite app_assoc in Hc. pose proof (scanned_at _ _ _ _ Hc) as [_ He].
  rewrite <- app_assoc in Hc.
  assert (Hid : e_id e <> ENTRY_ID_END).
  { eapply wf_id_end; [done|]. apply elem_of_keys. split; [done|]. rewrite Happ. apply elem_of_app; left.
    rewrite !elem_of_app. by do 2 right; left. }
  rewrite He. cbn [idflags hdr items]. rewrite Hke. rewrite length_app in Hf. simpl in Hf.
  pose proof (find_value_spec c _ w _ _ _ (e_id_land e) Hid Hst Hc) as Hv.
  unfold find_val. destruct (search (wanted (e_id e) true) l2) as [[[k1 v] k2]|] eqn:Hs2.
  - destruct Hv as (vc & Ev & Hvc). rewrite (bind_run _ _ _ _ _ Ev). cbn [is_err].
    apply search_Some in Hs2 as (-> & _ & _). rewrite <- Happ in Hst.
    destruct (iter_load_spec it c vc w (pre ++ l1) e k1 v k2) as (it' & El & Hh & Hctx & Hb); auto.
    { by rewrite <- app_assoc. } { by rewrite <- app_assoc. }
    { rewrite <- !app_assoc in Hvc. by rewrite <- app_assoc. }
    exists it', (pre ++ l1 ++ [e]), (k1 ++ v :: k2). rewrite Hctx. split_and!; auto; try lia.
    rewrite (length_app l1). simpl. lia.
  - destruct Hv as (vc & Ev & _). rewrite (bind_run _ _ _ _ _ Ev). cbn [is_err].
    rewrite Happ in Hwf |- *. specialize (IH c (pre ++ l1 ++ [e]) l2 Hst Hwf Hc ltac:(lia)).
    destruct (items l2) as [|x xs]; [done|].
    destruct IH as (it' & pre' & post' & ? & ? & ? & ? & ? & ? & ?).
    exists it', pre', post'. split_and!; auto; try lia. rewrite length_app. simpl. lia.
Qed.

Lemma iter_next_spec it w pre post :
  allocs w = [] -> 0 <= bufsize it < 2 ^ 31 ->
  store (dev w) (info w) (pre ++ post) -> wf_log (pre ++ post) ->
  scanned (info w) (it_ctx it) pre ->
  match items post with
  | [] => exists it', sysparam_iter_next it w = Some ((SYSPARAM_NOTFOUND, it'), w)
  | x :: xs => exists it' pre' post',
      sysparam_iter_next it w = Some ((SYSPARAM_OK, it'), w) /\
      pre ++ post = pre' ++ post' /\ scanned (info w) (it_ctx it') pre' /\ items post' = xs /\
      holds it' x /\ 0 <= bufsize it' < 2 ^ 31 /\ (length post' < length post)%nat
  end.
Proof.
  intros Ha Hb Hst Hwf Hsc. unfold sysparam_iter_next.
  rewrite (bind_run _ _ _ (info w) w) by done.
  apply iter_next_loop_spec; auto.
  pose proof (region_fuel_ok _ _ _ post Hst) as Hf. rewrite length_app in Hf. lia.
Qed.
End iter.
