(* ===== verification/SysparamWrite.v ===== *)
(** * Writing entries: _write_and_verify, _write_entry, _delete_entry

    [writes d a data d']: the device [d'] is [d] with [data] at [a]; the
    operations of [sysparam.c] that write to flash establish it. *)

From stdpp Require Import sorting.
From S2P Require Import Prelude Flash Sysparam SysparamLog SysparamGet.
Local Open Scope Z_scope.

(** ** Bits of the entry flags *)

(** Flags with the id, the value and binary bits [x], marked alive. *)
Definition alive_flags (x : Z) : Z := Z.lor x ENTRY_FLAG_ALIVE.

Lemma alive_flags_range x : 0 <= x < 2 ^ 14 -> 0 <= alive_flags x < 0xffff.
Proof.
  intros Hx. unfold alive_flags. change ENTRY_FLAG_ALIVE with (Z.shiftl 2 14).
  rewrite lor_low_high by lia. change (Z.shiftl 2 14) with 32768. lia.
Qed.

Lemma flags_committed x : 0 <= x < 2 ^ 14 ->
  Z.ldiff (Z.lor x (Z.lor ENTRY_FLAG_ALIVE ENTRY_FLAG_INVALID)) ENTRY_FLAG_INVALID = alive_flags x.
Proof.
  intros Hx. apply Z.bits_inj'; intros i Hi.
  unfold alive_flags. rewrite Z.ldiff_spec, !Z.lor_spec.
  destruct (Z.eq_dec i 14) as [->|Hne].
  - rewrite (testbit_high x 14 14) by lia. done.
  - replace (Z.testbit ENTRY_FLAG_INVALID i) with false; [by rewrite orb_false_r, andb_true_r|].
    symmetry. change ENTRY_FLAG_INVALID with (2 ^ 14). by apply Z.pow2_bits_false.
Qed.

Lemma alive_flags_alive x l : 0 <= x < 2 ^ 14 ->
  entry_alive {| idflags := alive_flags x; len := l |} = true.
Proof.
  intros Hx. unfold entry_alive, alive_flags; simpl. rewrite Z.land_lor_distr_l.
  change (Z.lor ENTRY_FLAG_ALIVE ENTRY_FLAG_INVALID) with (Z.shiftl 3 14).
  rewrite land_low_high by lia. done.
Qed.

(** The entries the code writes. *)
Definition key_entry (id : Z) (key : list Z) : log_entry :=
  {| le_flags := alive_flags id; le_payload := key |}.
Definition value_bits (id : Z) (bin : bool) : Z :=
  Z.lor (Z.lor id ENTRY_FLAG_VALUE) (if bin then ENTRY_FLAG_BINARY else 0).
Definition value_entry (id : Z) (bin : bool) (value : list Z) : log_entry :=
  {| le_flags := alive_flags (value_bits id bin); le_payload := value |}.

Section new_entries.
Context (id : Z) (Hid : 0 <= id < 2 ^ 12).

Lemma id_land_high c : Z.land id (Z.shiftl c 12) = 0.
Proof. apply land_low_high; lia. Qed.
Lemma id_land_value : Z.land id ENTRY_FLAG_VALUE = 0.
Proof. exact (id_land_high 2). Qed.
Lemma id_land_binary : Z.land id ENTRY_FLAG_BINARY = 0.
Proof. exact (id_land_high 1). Qed.
Lemma id_land_low : Z.land id ENTRY_MASK_ID = id.
Proof.
  change ENTRY_MASK_ID with (Z.ones 12). rewrite Z.land_ones by lia. by apply Z.mod_small.
Qed.

Lemma value_bits_range bin : 0 <= value_bits id bin < 2 ^ 14.
Proof.
  unfold value_bits. rewrite <- Z.lor_assoc. destruct bin.
  - change (Z.lor ENTRY_FLAG_VALUE ENTRY_FLAG_BINARY) with (Z.shiftl 3 12).
    rewrite lor_low_high by lia. change (Z.shiftl 3 12) with 12288. lia.
  - change (Z.lor ENTRY_FLAG_VALUE 0) with (Z.shiftl 2 12).
    rewrite lor_low_high by lia. change (Z.shiftl 2 12) with 8192. lia.
Qed.

Lemma key_entry_kind key : is_key (key_entry id key) = true /\
  is_value (key_entry id key) = false /\ e_id (key_entry id key) = id /\
  e_alive (key_entry id key) = true.
Proof.
  unfold is_key, is_value, e_alive, e_id, hdr, key_entry; simpl.
  rewrite alive_flags_alive by lia. unfold entry_is_value, entry_id, alive_flags; simpl.
  rewrite !Z.land_lor_distr_l, id_land_low, id_land_value. split_and!; try done.
  apply Z.lor_0_r.
Qed.

Lemma value_entry_kind bin v : is_value (value_entry id bin v) = true /\
  is_key (value_entry id bin v) = false /\ e_id (value_entry id bin v) = id /\
  e_binary (value_entry id bin v) = bin /\ e_alive (value_entry id bin v) = true.
Proof.
  unfold is_key, is_value, e_alive, e_id, hdr, value_entry; simpl.
  rewrite alive_flags_alive by apply value_bits_range.
  unfold entry_is_value, entry_id, e_binary, alive_flags, value_bits; simpl.
  rewrite !Z.land_lor_distr_l, id_land_low, id_land_value, id_land_binary.
  destruct bin; split_and!; try done.
  - change (Z.lor (Z.lor (Z.lor id 0) 0) 0 = id). by rewrite !Z.lor_0_r.
  - change (Z.lor (Z.lor (Z.lor id 0) 0) 0 = id). by rewrite !Z.lor_0_r.
Qed.
End new_entries.

(** ** Writing and verifying *)

(** [d'] is [d] with [data] written at [a]; only the padding of the last word
    may change beside it. *)
Record writes `{FlashDev D} (d : D) (a : Z) (data : list Z) (d' : D) : Prop := {
  wr_in : fbytes d' a (length data) = data;
  wr_out : forall b, b < a \/ a + round4 (Z.of_nat (length data)) <= b -> fbyte d' b = fbyte d b
}.

(** Writing can only clear bits: the data must do so. *)
Definition clears `{FlashDev D} (d : D) (a : Z) (data : list Z) : Prop :=
  forall i b, data !! i = Some b -> Z.land (fbyte d (a + Z.of_nat i)) b = b.

Lemma malloc_all {D} (w : world D) : allocs w = [] ->
  malloc w = Some (true, World (dev w) (info w) [] (live w + 1)).
Proof. intros Ha. unfold malloc, next_alloc. by rewrite Ha. Qed.

Lemma world_eq {D} (w : world D) d i l : allocs w = [] -> live w = l -> d = dev w -> i = info w ->
  World d i [] l = w.
Proof. destruct w; simpl. by intros -> -> -> ->. Qed.

Section writing.
Context `{FlashOk D}.
Implicit Types (w : world D) (d : D).

Lemma clears_erased d a data :
  Forall is_byte data -> erased d a (a + Z.of_nat (length data)) -> clears d a data.
Proof.
  intros Hd Her i b Hi. pose proof (lookup_lt_Some _ _ _ Hi). rewrite Her by lia.
  apply land_byte_255. rewrite Forall_forall in Hd. eapply Hd, list_elem_of_lookup_2, Hi.
Qed.

Lemma verify_loop_spec fuel w a data i :
  0 <= a -> a mod 4 = 0 -> a + Z.of_nat (length data) <= chip_size sdk_flashchip ->
  fbytes (dev w) a (length data) = data -> 0 <= i -> i mod 64 = 0 ->
  (Z.of_nat (length data) - i) / 64 + 1 < Z.of_nat fuel -> (0 < fuel)%nat ->
  verify_loop fuel a data i (Z.of_nat (length data)) w = Some (SYSPARAM_OK, w).
Proof.
  intros Ha Ha4 Hc Hd. revert i; induction fuel as [|fuel IH]; intros i Hi Hi64 Hf Hf0; [lia|].
  cbn [verify_loop]. destruct (Z.ltb_spec i (Z.of_nat (length data))); [|done].
  pose proof flash_chip_ok as [_ _ _ _ _ Hcs _]. unfold VERIFY_BUF_SIZE.
  set (n := Z.min (Z.of_nat (length data) - i) 64). rewrite u32_small by lia.
  assert (Hv : _do_verify (a + i) (drop (Z.to_nat i) data) n w = Some (SYSPARAM_OK, w)).
  { unfold _do_verify, read, mbind, st_bind.
    rewrite flash_read_ok by (try lia; rewrite Z.add_mod, Ha4 by lia; Z.div_mod_to_equations; lia).
    cbn [flash_op_ok]. rewrite decide_True; [done|]. rewrite <- Hd at 1.
    replace (length data) with (Z.to_nat i + (length data - Z.to_nat i))%nat at 1 by lia.
    rewrite fbytes_app, drop_app_length' by (by rewrite length_fbytes).
    rewrite take_fbytes, Z2Nat.id by lia. f_equal. lia. }
  rewrite (bind_run _ _ _ _ _ Hv). cbn [is_ok].
  assert (0 <= (Z.of_nat (length data) - i) / 64) by (apply Z.div_pos; lia).
  apply IH; [lia| | |lia].
  - by rewrite Z.add_mod, Hi64 by lia.
  - replace (Z.of_nat (length data) - (i + 64)) with (Z.of_nat (length data) - i + (-1) * 64) by lia.
    rewrite Z.div_add by lia. lia.
Qed.

Lemma write_and_verify_spec w a data n :
  allocs w = [] -> 0 <= a -> a mod 4 = 0 -> n = Z.of_nat (length data) ->
  a + round4 n <= chip_size sdk_flashchip -> clears (dev w) a data ->
  exists d', _write_and_verify a data n w =
      Some (SYSPARAM_OK, World d' (info w) [] (live w)) /\ writes (dev w) a data d'.
Proof.
  intros Hal Ha Ha4 -> Hc Hcl. unfold _write_and_verify.
  rewrite (bind_run _ _ _ _ _ (malloc_all w Hal)). cbn [negb].
  pose proof (round4_range (Z.of_nat (length data))).
  destruct (flash_write_ok (dev w) a data (Z.of_nat (length data))) as (d' & Ew & Hin & Hout);
    auto; [lia|].
  assert (Hd' : fbytes d' a (length data) = data).
  { apply fbytes_eq. intros i b Hi. rewrite (Hin i b Hi) by (apply lookup_lt_Some in Hi; lia).
    by apply Hcl. }
  assert (Hw : _do_write a data (Z.of_nat (length data)) (World (dev w) (info w) [] (live w + 1)) =
    Some (SYSPARAM_OK, World d' (info w) [] (live w + 1))).
  { unfold _do_write, write, mbind, st_bind. simpl. by rewrite Ew. }
  rewrite (bind_run _ _ _ _ _ Hw). cbn [is_ok].
  rewrite (bind_run _ _ _ SYSPARAM_OK (World d' (info w) [] (live w + 1))).
  - exists d'. split; [|by split].
    unfold mbind, st_bind, free, mret, st_ret. simpl. repeat f_equal. lia.
  - apply verify_loop_spec; auto; try lia. unfold VERIFY_BUF_SIZE.
    rewrite Z.sub_0_r, !Nat2Z.inj_succ, Z2Nat.id; [lia|]. apply Z.div_pos; lia.
Qed.

Lemma writes_same d a data d' lo hi :
  writes d a data d' -> hi <= a \/ a + round4 (Z.of_nat (length data)) <= lo -> same_in lo hi d d'.
Proof. intros [_ Ho] Hd b Hb. symmetry. apply Ho. lia. Qed.

(** ** Writing an entry *)

Lemma entry_header_length e : length (entry_header_bytes e) = 4%nat.
Proof. done. Qed.
Lemma entry_header_byte e : Forall is_byte (entry_header_bytes e).
Proof. apply Forall_app. split; apply le_bytes_byte. Qed.

(** Overwriting a header with fewer bits set. *)
Lemma clears_header d a e e' :
  fbytes d a 4 = entry_header_bytes e ->
  Z.land (idflags e) (idflags e') = idflags e' -> len e = len e' ->
  clears d a (entry_header_bytes e').
Proof.
  intros Hh Hf Hl i b Hi.
  assert (Hi4 : (i < 4)%nat) by (apply lookup_lt_Some in Hi; by rewrite entry_header_length in Hi).
  pose proof (lookup_fbytes d a 4 i Hi4) as Hb. rewrite Hh in Hb.
  assert (Hz : zip_with Z.land (entry_header_bytes e) (entry_header_bytes e') =
               entry_header_bytes e').
  { unfold entry_header_bytes. rewrite zip_with_app by done.
    by rewrite <- !le_bytes_land, Hf, Hl, Z.land_diag. }
  assert (Hzi : zip_with Z.land (entry_header_bytes e) (entry_header_bytes e') !! i =
                Some (Z.land (fbyte d (a + Z.of_nat i)) b)).
  { rewrite lookup_zip_with, Hb. simpl. by rewrite Hi. }
  rewrite Hz, Hi in Hzi. by injection Hzi.
Qed.

Lemma land_ldiff x y : Z.land x (Z.ldiff x y) = Z.ldiff x y.
Proof.
  apply Z.bits_inj'; intros i Hi. rewrite Z.land_spec, Z.ldiff_spec.
  by destruct (Z.testbit x i), (Z.testbit y i).
Qed.

Definition info_bumped (i : sysparam_info) (a n : Z) : sysparam_info :=
  if end_addr i =? a then set_end_addr (end_addr i + n) i else i.

Definition new_entry (id : Z) (payload : list Z) : log_entry :=
  {| le_flags := alive_flags id; le_payload := payload |}.

Lemma write_entry_spec w a id payload n :
  allocs w = [] -> 0 <= a -> a mod 4 = 0 -> 0 <= id < 2 ^ 14 ->
  n = Z.of_nat (length payload) -> n <= MAX_VALUE_LEN -> Forall is_byte payload ->
  let e := new_entry id payload in
  a + esize e <= chip_size sdk_flashchip -> erased (dev w) a (a + esize e) ->
  exists d', _write_entry a id payload n w =
      Some (SYSPARAM_OK, World d' (info_bumped (info w) a (esize e)) [] (live w)) /\
    entry_at d' a e /\ (forall b, b < a \/ a + esize e <= b -> fbyte d' b = fbyte (dev w) b).
Proof.
  intros Hal Ha Ha4 Hid -> Hn Hby e Hfit Her. unfold MAX_VALUE_LEN in Hn.
  pose proof flash_chip_ok as [_ _ _ _ _ Hcs _].
  pose proof (esize_range e) as Hes. change (payload_len e) with (Z.of_nat (length payload)) in Hes.
  assert (Hesz : esize e = 4 + round4 (Z.of_nat (length payload))) by done.
  pose proof (round4_range (Z.of_nat (length payload))) as Hr.
  unfold _write_entry.
  set (h1 := {| idflags := Z.lor id (Z.lor ENTRY_FLAG_ALIVE ENTRY_FLAG_INVALID); len := _ |}).
  destruct (write_and_verify_spec w a (entry_header_bytes h1) 4) as (d1 & E1 & Hw1); auto.
  { change (round4 4) with 4. lia. }
  { apply clears_erased; [apply entry_header_byte|]. eapply erased_sub; [..|exact Her]; simpl; lia. }
  unfold ENTRY_HEADER_SIZE. rewrite (bind_run _ _ _ _ _ E1).
  set (i1 := info_bumped (info w) a (esize e)).
  rewrite (bind_run _ _ _ () (World d1 i1 [] (live w))).
  2:{ unfold bump_end_addr, set_info, st_modify. simpl. unfold i1, info_bumped.
      destruct (Z.eqb_spec (end_addr (info w)) a) as [->|]; [|done].
      rewrite entry_size_eq, <- Hesz by lia. by rewrite u32_small by lia. }
  rewrite u32_small by lia.
  destruct (write_and_verify_spec (World d1 i1 [] (live w)) (a + 4) payload
    (Z.of_nat (length payload))) as (d2 & E2 & Hw2); simpl; auto; try lia.
  { rewrite Z.add_mod, Ha4 by lia. done. }
  { apply clears_erased; [done|]. eapply erased_same.
    - eapply (writes_same _ _ _ _ (a + 4) (a + 4 + Z.of_nat (length payload)) Hw1). right.
      rewrite entry_header_length. change (round4 (Z.of_nat 4)) with 4. lia.
    - eapply erased_sub; [..|exact Her]; lia. }
  rewrite (bind_run _ _ _ _ _ E2). cbn [is_ok info].
  set (h2 := {| idflags := Z.ldiff (idflags h1) ENTRY_FLAG_INVALID; len := Z.of_nat (length payload) |}).
  assert (Hh2 : h2 = hdr e).
  { unfold h2, h1. cbn [idflags]. rewrite flags_committed by done. done. }
  destruct (write_and_verify_spec (World d2 i1 [] (live w)) a (entry_header_bytes h2) 4)
    as (d3 & E3 & Hw3); simpl; auto.
  { change (round4 4) with 4. lia. }
  { eapply (clears_header d2 a h1 h2); [|apply land_ldiff|done].
    rewrite <- (fbytes_same d1 d2 a (a + 4)).
    - apply (wr_in _ _ _ _ Hw1).
    - eapply writes_same; [exact Hw2|]. lia.
    - lia.
    - lia. }
  exists d3. simpl in E3. split; [exact E3|]. split; [split_and!|].
  - split; [by apply alive_flags_range|]. split; [|done].
    unfold e, new_entry, payload_len, MAX_VALUE_LEN. simpl. lia.
  - rewrite <- Hh2. apply (wr_in _ _ _ _ Hw3).
  - simpl. rewrite <- (fbytes_same d2 d3 (a + 4) (a + 4 + Z.of_nat (length payload))).
    + apply (wr_in _ _ _ _ Hw2).
    + eapply writes_same; [exact Hw3|]. right. rewrite entry_header_length. by change (round4 (Z.of_nat 4)) with 4.
    + lia.
    + lia.
  - intros b Hb. rewrite (wr_out _ _ _ _ Hw3) by (rewrite entry_header_length; change (round4 (Z.of_nat 4)) with 4; lia).
    rewrite (wr_out _ _ _ _ Hw2) by lia.
    rewrite (wr_out _ _ _ _ Hw1) by (rewrite entry_header_length; change (round4 (Z.of_nat 4)) with 4; lia). done.
Qed.
End writing.
