(* ===== verification/SysparamStore.v ===== *)
(** * Appending to and deleting from the log

    How the invariant [wf_log] and the parameters of a log change when
    [_write_entry] appends an entry or [_delete_entry] clears the alive flag of
    one, and what these routines do to a [store]. *)

From stdpp Require Import sorting.
From S2P Require Import Prelude Flash Sysparam SysparamLog SysparamGet SysparamWrite.
Local Open Scope Z_scope.

(** ** Parameters by membership *)

Lemma NoDup_map_eq {A B} (f : A -> B) l x y :
  NoDup (map f l) -> x ∈ l -> y ∈ l -> f x = f y -> x = y.
Proof.
  induction l as [|z l IH]; simpl; [by intros _ ?%elem_of_nil|].
  intros [Hz Hnd]%NoDup_cons Hx Hy E.
  apply elem_of_cons in Hx as [->|Hx], Hy as [->|Hy]; auto.
  - destruct Hz. rewrite E. by apply list_elem_of_fmap_2.
  - destruct Hz. rewrite <- E. by apply list_elem_of_fmap_2.
Qed.

Lemma sorted_NoDup (l : list Z) : StronglySorted Z.lt l -> NoDup l.
Proof.
  induction 1 as [|x l _ IH Hx]; constructor; auto.
  intros Hin. rewrite Forall_forall in Hx. specialize (Hx _ Hin). lia.
Qed.

Lemma wf_ids_nodup l : wf_log l -> NoDup (map e_id (keys l)).
Proof. intros Hwf. apply sorted_NoDup, Hwf. Qed.

Lemma wanted_value id e : id < 4096 -> wanted id true e = is_value e && (e_id e =? id).
Proof.
  intros ?. unfold wanted, ENTRY_ID_ANY. destruct (Z.eqb_spec id 4096); [lia|].
  by rewrite orb_false_r.
Qed.

Lemma find_val_elem id l v : id < 4096 -> find_val id l = Some v -> v ∈ values l /\ e_id v = id.
Proof.
  intros Hid (l1 & l2 & Hs & ->)%find_val_Some. apply search_Some in Hs as (_ & Hv & _).
  rewrite wanted_value in Hv by done. apply andb_prop in Hv as [? ?%Z.eqb_eq].
  split; [|done]. apply elem_of_values. split; [done|]. apply elem_of_mid.
Qed.

Lemma find_val_None id l v :
  id < 4096 -> find_val id l = None -> v ∈ values l -> e_id v <> id.
Proof.
  unfold find_val. intros Hid. destruct (search _ l) as [[[??]?]|] eqn:Hs; [done|]. intros _.
  apply search_None in Hs. rewrite Forall_forall in Hs. intros [Hv Hin]%elem_of_values Heq.
  specialize (Hs _ Hin). rewrite wanted_value, Hv in Hs by done. simpl in Hs.
  by apply Z.eqb_neq in Hs.
Qed.

(** In a well-formed log a value of a key is after the key. *)
Lemma value_after_key l1 e l2 v :
  wf_log (l1 ++ e :: l2) -> is_key e = true -> v ∈ values (l1 ++ e :: l2) -> e_id v = e_id e ->
  v ∈ values l2.
Proof.
  intros Hwf Hk Hv Hid. rewrite values_app, values_cons in Hv.
  assert (is_value e = false) as Hnv.
  { unfold is_key in Hk. apply andb_prop in Hk as [Ha Hn]. unfold is_value. rewrite Ha.
    by apply negb_true_iff in Hn. }
  rewrite Hnv in Hv. apply elem_of_app in Hv as [[Hv Hin]%elem_of_values|]; [|done]. exfalso.
  apply list_elem_of_split in Hin as (a & b & ->).
  pose proof (wf_value_ids _ Hwf a v (b ++ e :: l2)) as Hb. rewrite <- app_assoc in Hb.
  specialize (Hb eq_refl Hv). apply wf_ids_nodup in Hwf.
  rewrite keys_app, keys_app, (keys_cons e), Hk, !map_app in Hwf.
  rewrite <- app_assoc in Hwf. apply NoDup_app in Hwf as (_ & Hd & _).
  apply (Hd _ Hb). rewrite Hid. rewrite elem_of_app. right. simpl. by left.
Qed.

Definition holds_value (l : list log_entry) (key : list Z) (x : list Z * bool) : Prop :=
  exists e v, e ∈ keys l /\ v ∈ values l /\ le_payload e = key /\ e_id v = e_id e /\
    le_payload v = x.1 /\ e_binary v = x.2.

Lemma params_elem l key x : wf_log l -> params l !! key = Some x <-> holds_value l key x.
Proof.
  intros Hwf. rewrite params_lookup by apply Hwf. unfold log_get.
  destruct (search (named key) l) as [[[l1 e] l2]|] eqn:Hs.
  - apply search_Some in Hs as (-> & Hn & _). unfold named in Hn.
    apply andb_prop in Hn as [Hk Hn%bool_decide_eq_true].
    assert (He : e ∈ keys (l1 ++ e :: l2)) by (apply elem_of_keys; auto using elem_of_mid).
    destruct (find_val (e_id e) l2) as [v|] eqn:Hv; simpl.
    + destruct (find_val_elem _ _ _ (proj2 (e_id_range e)) Hv) as [Hvin Hvid].
      assert (Hvl : v ∈ values (l1 ++ e :: l2)).
      { rewrite values_app, values_cons. destruct (is_value e); set_solver. }
      split; [intros [= <-]; by exists e, v|].
      intros (e' & v' & He' & Hv' & Hn' & Hid & Hp & Hb).
      assert (e' = e) as -> by (eapply (NoDup_map_eq le_payload); [apply Hwf|..]; congruence).
      assert (v' = v) as -> by (eapply (NoDup_map_eq e_id); [apply Hwf|..]; congruence).
      destruct x; simpl in *; congruence.
    + split; [done|]. intros (e' & v' & He' & Hv' & Hn' & Hid & Hp & Hb). exfalso.
      assert (e' = e) as -> by (eapply (NoDup_map_eq le_payload); [apply Hwf|..]; congruence).
      eapply (find_val_None _ _ v' (proj2 (e_id_range e)) Hv); [|done].
      eapply value_after_key; eauto.
  - split; [done|]. intros (e & v & He & _ & Hn & _). apply search_None in Hs.
    rewrite Forall_forall in Hs. apply elem_of_keys in He as [Hk Hin].
    specialize (Hs _ Hin). unfold named in Hs. by rewrite Hk, bool_decide_true in Hs.
Qed.

Lemma params_ext l k : wf_log l -> wf_log k ->
  (forall key x, holds_value l key x <-> holds_value k key x) -> params l = params k.
Proof.
  intros ?? Hh. apply map_eq. intros key. apply option_eq. intros x.
  by rewrite !params_elem.
Qed.

(** ** Ids *)

Lemma last_id_keys l :
  wf_log l -> 0 <= last_id l <= MAX_KEY_ID /\ Forall (fun e => e_id e <= last_id l) (keys l).
Proof.
  intros Hwf. pose proof (wf_ids _ Hwf) as Hs. pose proof (wf_id_range _ Hwf) as Hr. clear Hwf.
  induction l as [|e l IH] using rev_ind; [done|].
  rewrite last_id_snoc. rewrite keys_app, keys_cons in *.
  destruct (is_key e); [|rewrite app_nil_r in *; auto]. change (keys []) with (@nil log_entry) in *.
  rewrite map_app in Hs. apply Forall_app in Hr as [Hr He].
  apply Forall_cons in He as [He _]. unfold MAX_KEY_ID in *. split; [lia|].
  apply Forall_app. split; [|by constructor].
  apply StronglySorted_app in Hs as (Hx & _ & _). rewrite Forall_forall. intros x Hx'.
  assert (e_id x < e_id e); [|lia]. apply Hx; simpl; [by apply list_elem_of_fmap_2|by left].
Qed.

Lemma last_id_fresh l : wf_log l -> last_id l + 1 ∉ map e_id (keys l).
Proof.
  intros Hwf (e & Heq & He)%list_elem_of_fmap. destruct (last_id_keys l Hwf) as [_ Hall].
  rewrite Forall_forall in Hall. specialize (Hall _ He). lia.
Qed.

(** ** Appending a key or a value, clearing an entry *)

Definition kill (e : log_entry) : log_entry :=
  {| le_flags := Z.ldiff (le_flags e) ENTRY_FLAG_ALIVE; le_payload := le_payload e |}.

Lemma orphans_elem l key : wf_log l ->
  key ∈ orphans l <-> key ∈ map le_payload (keys l) /\ params l !! key = None.
Proof.
  intros Hwf. unfold orphans. rewrite elem_of_difference, elem_of_list_to_set.
  by rewrite not_elem_of_dom.
Qed.

Section append_key.
Context (l : list log_entry) (n : Z) (key : list Z).
Context (Hwf : wf_log l) (Hn : n = last_id l + 1) (Hmax : n <= MAX_KEY_ID).
Context (Hname : key ∉ map le_payload (keys l)).
Let e := key_entry n key.

Lemma new_id_range : 1 <= n < 2 ^ 12.
Proof. destruct (last_id_keys l Hwf). unfold MAX_KEY_ID in *. lia. Qed.

Lemma append_key_keys : keys (l ++ [e]) = keys l ++ [e].
Proof.
  destruct (key_entry_kind n ltac:(pose proof new_id_range; lia) key) as (Hk & _).
  unfold e. by rewrite keys_app, keys_cons, Hk.
Qed.
Lemma append_key_values : values (l ++ [e]) = values l.
Proof.
  destruct (key_entry_kind n ltac:(pose proof new_id_range; lia) key) as (_ & Hv & _).
  unfold e. by rewrite values_app, values_cons, Hv, app_nil_r.
Qed.
Lemma append_key_id : e_id e = n.
Proof. apply (key_entry_kind n ltac:(pose proof new_id_range; lia) key). Qed.

Lemma append_key_wf : wf_log (l ++ [e]).
Proof.
  destruct (last_id_keys l Hwf) as [_ Hall]. pose proof Hwf as [H1 H2 H3 H4 H5].
  split; rewrite ?append_key_keys, ?append_key_values, ?map_app; auto.
  - apply StronglySorted_app_2; [|done|by repeat constructor].
    simpl. intros x y (a & -> & Ha)%list_elem_of_fmap ->%list_elem_of_singleton.
    rewrite append_key_id. rewrite Forall_forall in Hall. specialize (Hall _ Ha). lia.
  - apply Forall_app. split; [done|]. constructor; [|done]. rewrite append_key_id.
    pose proof new_id_range. lia.
  - apply NoDup_app. split_and!; [done| |apply NoDup_singleton].
    by intros x Hx ->%list_elem_of_singleton.
  - intros l1 v l2 Heq Hv. destruct l2 as [|y l2 _] using rev_ind.
    + apply app_inj_tail in Heq as [<- <-].
      destruct (key_entry_kind n ltac:(pose proof new_id_range; lia) key) as (_ & Hnv & _).
      unfold e in Hv. by rewrite Hnv in Hv.
    + rewrite app_comm_cons, app_assoc in Heq. apply app_inj_tail in Heq as [Heq _]. eauto.
Qed.

Lemma append_key_params : params (l ++ [e]) = params l.
Proof.
  apply params_ext; auto using append_key_wf. intros k x. unfold holds_value.
  rewrite append_key_keys, append_key_values.
  split; intros (e' & v & He & Hv & Hrest); exists e', v; [|set_solver].
  destruct Hrest as (? & Hid & ? & ?). split_and!; auto.
  apply elem_of_app in He as [|Heq%list_elem_of_singleton]; [done|]. exfalso. subst e'.
  rewrite append_key_id in Hid.
  pose proof (proj1 (elem_of_values _ _) Hv) as [Hval Hin].
  apply list_elem_of_split in Hin as (a & b & Hl).
  pose proof (wf_value_ids _ Hwf a v b Hl Hval) as (k' & Heq & Hk')%list_elem_of_fmap.
  apply (last_id_fresh l Hwf). rewrite <- Hn, <- Hid, Heq, Hl, keys_app.
  apply list_elem_of_fmap_2. set_solver.
Qed.
End append_key.

Section append_value.
Context (l : list log_entry) (e : log_entry) (bin : bool) (val : list Z).
Context (Hwf : wf_log l) (He : e ∈ keys l) (Hfree : params l !! le_payload e = None).
Let v := value_entry (e_id e) bin val.
Let kind := value_entry_kind (e_id e) (e_id_range e) bin val.

Lemma append_value_keys : keys (l ++ [v]) = keys l.
Proof. destruct kind as (_ & Hk & _). unfold v. by rewrite keys_app, keys_cons, Hk, app_nil_r. Qed.
Lemma append_value_values : values (l ++ [v]) = values l ++ [v].
Proof. destruct kind as (Hv & _). unfold v. by rewrite values_app, values_cons, Hv. Qed.

Lemma append_value_fresh : e_id e ∉ map e_id (values l).
Proof.
  intros (v' & Hid & Hv')%list_elem_of_fmap.
  assert (params l !! le_payload e = Some (le_payload v', e_binary v')); [|congruence].
  apply params_elem; [done|]. by exists e, v'.
Qed.

Lemma append_value_wf : wf_log (l ++ [v]).
Proof.
  pose proof Hwf as [H1 H2 H3 H4 H5]. destruct kind as (_ & _ & Hid & _). fold v in Hid.
  split; rewrite ?append_value_keys, ?append_value_values, ?map_app; auto.
  - apply NoDup_app. split_and!; [done| |apply NoDup_singleton].
    intros x Hx ->%list_elem_of_singleton. rewrite Hid in Hx. by apply append_value_fresh.
  - intros l1 y l2 Heq Hy. destruct l2 as [|z l2 _] using rev_ind.
    + apply app_inj_tail in Heq as [<- <-]. rewrite Hid. by apply list_elem_of_fmap_2.
    + rewrite app_comm_cons, app_assoc in Heq. apply app_inj_tail in Heq as [Heq _]. eauto.
Qed.

Lemma append_value_params : params (l ++ [v]) = <[le_payload e := (val, bin)]> (params l).
Proof.
  destruct kind as (_ & _ & Hid & Hb & _). fold v in Hid, Hb.
  apply map_eq. intros key. apply option_eq. intros x.
  rewrite params_elem by apply append_value_wf. unfold holds_value.
  rewrite append_value_keys, append_value_values. destruct (decide (key = le_payload e)) as [->|Hne].
  - rewrite lookup_insert_eq. split.
    + intros (e' & v' & He' & Hv' & Hn & Hi & Hp & Hbin).
      assert (e' = e) as -> by (eapply (NoDup_map_eq le_payload); [apply Hwf|..]; congruence).
      apply elem_of_app in Hv' as [Hv'| ->%list_elem_of_singleton].
      * destruct append_value_fresh. rewrite <- Hi. by apply list_elem_of_fmap_2.
      * destruct x as [p' b']; simpl in Hp, Hbin. rewrite Hb in Hbin. by rewrite <- Hp, <- Hbin.
    + intros [= <-]. exists e, v. split_and!; auto. apply elem_of_app. right. by left.
  - rewrite lookup_insert_ne by done. rewrite params_elem by done. unfold holds_value.
    split; intros (e' & v' & He' & Hv' & Hn & Hi & Hrest); exists e', v'; split_and!; try tauto.
    + apply elem_of_app in Hv' as [| ->%list_elem_of_singleton]; [done|].
      rewrite Hid in Hi. destruct Hne. rewrite <- Hn. f_equal.
      eapply (NoDup_map_eq e_id); [by apply wf_ids_nodup|..]; auto.
    + set_solver.
Qed.
End append_value.

Lemma kill_dead e : e_alive (kill e) = false.
Proof.
  unfold e_alive, entry_alive, kill; simpl. apply Z.eqb_neq. intros Heq.
  apply (f_equal (fun x => Z.testbit x 15)) in Heq.
  rewrite Z.land_spec, Z.ldiff_spec in Heq.
  replace (Z.testbit ENTRY_FLAG_ALIVE 15) with true in Heq by done.
  by rewrite andb_false_r in Heq.
Qed.

Section kill.
Context (A : list log_entry) (v : log_entry) (B : list log_entry).
Context (Hwf : wf_log (A ++ v :: B)) (Hv : is_value v = true).

Lemma kill_not_key : is_key (kill v) = false.
Proof. unfold is_key. by rewrite kill_dead. Qed.
Lemma kill_not_value : is_value (kill v) = false.
Proof. unfold is_value. by rewrite kill_dead. Qed.
Lemma value_not_key : is_key v = false.
Proof.
  unfold is_key. unfold is_value in Hv. apply andb_prop in Hv as [-> ->]. done.
Qed.

Lemma kill_keys : keys (A ++ kill v :: B) = keys (A ++ v :: B).
Proof. by rewrite !keys_app, !keys_cons, kill_not_key, value_not_key. Qed.
Lemma kill_values_before : values (A ++ v :: B) = values A ++ v :: values B.
Proof. by rewrite values_app, values_cons, Hv. Qed.
Lemma kill_values : values (A ++ kill v :: B) = values A ++ values B.
Proof. by rewrite values_app, values_cons, kill_not_value. Qed.

Lemma kill_wf : wf_log (A ++ kill v :: B).
Proof.
  destruct Hwf as [H1 H2 H3 H4 H5]. split; rewrite ?kill_keys; auto.
  - rewrite kill_values. rewrite kill_values_before, !map_app in *. simpl in H4.
    apply NoDup_app in H4 as (Ha & Hd & [_ Hb]%NoDup_cons).
    apply NoDup_app. split_and!; [done| |done]. set_solver.
  - intros l1 y l2 Heq Hy. apply app_eq_inv in Heq as [(k & HA & Heq)|(k & -> & Heq)].
    + destruct k as [|z k]; simplify_eq/=; [by rewrite kill_not_value in Hy|].
      apply (H5 l1 z (k ++ v :: B)); [by rewrite <- app_assoc|done].
    + destruct k as [|z k]; simplify_eq/=; [by rewrite kill_not_value in Hy|].
      specialize (H5 (A ++ v :: k) y l2). rewrite <- app_assoc in H5.
      specialize (H5 eq_refl Hy).
      rewrite keys_app, keys_cons, value_not_key in H5.
      by rewrite keys_app, keys_cons, kill_not_key.
Qed.

Lemma kill_params e : e ∈ keys (A ++ v :: B) -> e_id e = e_id v ->
  params (A ++ kill v :: B) = delete (le_payload e) (params (A ++ v :: B)).
Proof.
  intros He Hid. apply map_eq. intros key. apply option_eq. intros x.
  rewrite params_elem by apply kill_wf. unfold holds_value. rewrite kill_keys, kill_values.
  assert (Hfresh : e_id v ∉ map e_id (values A ++ values B)).
  { pose proof (wf_values _ Hwf) as Hnd. rewrite kill_values_before, map_app in Hnd. simpl in Hnd.
    apply NoDup_app in Hnd as (_ & Hd & [Hb _]%NoDup_cons). rewrite map_app. set_solver. }
  destruct (decide (key = le_payload e)) as [->|Hne].
  - rewrite lookup_delete_eq. split; [|done].
    intros (e' & v' & He' & Hv' & Hn & Hi & _).
    assert (e' = e) as -> by (eapply (NoDup_map_eq le_payload); [apply Hwf|..]; congruence).
    destruct Hfresh. rewrite <- Hid, <- Hi. by apply list_elem_of_fmap_2.
  - rewrite lookup_delete_ne by done. rewrite params_elem by done. unfold holds_value.
    rewrite kill_values_before.
    split; intros (e' & v' & He' & Hv' & Hn & Hi & Hrest); exists e', v'; split_and!; try tauto.
    + set_solver.
    + apply elem_of_app in Hv' as [|[->|]%elem_of_cons]; [set_solver| |set_solver].
      destruct Hne. rewrite <- Hn. f_equal.
      eapply (NoDup_map_eq e_id); [by apply wf_ids_nodup|..]; congruence.
Qed.
End kill.

(** ** The flash operations *)

(** Only bytes of [lo, hi) differ. *)
Definition same_out `{FlashDev D} (lo hi : Z) (d d' : D) : Prop :=
  forall b, b < lo \/ hi <= b -> fbyte d' b = fbyte d b.

Lemma ldiff_range x m : 0 <= x -> 0 <= m -> 0 <= Z.ldiff x m <= x.
Proof.
  intros Hx Hm. assert (0 <= Z.ldiff x m) by (apply Z.ldiff_nonneg; by left).
  assert (0 <= Z.land x m) by (apply Z.land_nonneg; by left).
  assert (Z.land x m + Z.ldiff x m = x); [|lia].
  rewrite Z.add_nocarry_lxor, Z.lxor_lor.
  - apply Z.bits_inj'; intros i Hi. rewrite Z.lor_spec, Z.land_spec, Z.ldiff_spec.
    by destruct (Z.testbit x i), (Z.testbit m i).
  - apply Z.bits_inj'; intros i Hi. rewrite !Z.land_spec, Z.ldiff_spec, Z.bits_0.
    by destruct (Z.testbit x i), (Z.testbit m i).
  - apply Z.bits_inj'; intros i Hi. rewrite !Z.land_spec, Z.ldiff_spec, Z.bits_0.
    by destruct (Z.testbit x i), (Z.testbit m i).
Qed.

Lemma kill_ok e : entry_ok e -> entry_ok (kill e).
Proof.
  intros [Hf Hl]. split; [|done]. simpl. unfold ENTRY_FLAG_ALIVE.
  pose proof (ldiff_range (le_flags e) 0x8000). lia.
Qed.

Lemma esize_kill e : esize (kill e) = esize e.
Proof. done. Qed.

Section store_ops.
Context `{FlashOk D}.
Implicit Types (w : world D) (d : D) (i : sysparam_info).

Lemma same_out_in lo hi lo' hi' d d' :
  same_out lo hi d d' -> hi' <= lo \/ hi <= lo' -> same_in lo' hi' d d'.
Proof. intros Hs Hd b Hb. symmetry. apply Hs. lia. Qed.

Lemma headers_frame lo hi d d' i :
  info_geometry i -> headers d i -> same_out lo hi d d' ->
  log_start i <= lo -> hi <= region_end i -> headers d' i.
Proof.
  intros Hg [H1 H2 H3 H4] Hs Hlo Hhi. pose proof (geo_bounds i Hg) as (_&_&?&_&_&_&_&_&Hdis).
  unfold log_start, region_end, REGION_HEADER_SIZE in *.
  split; [..|done|done].
  - rewrite <- H1. symmetry. apply fbytes_same with (lo := cur_base i) (hi := cur_base i + 8);
      [|lia..]. eapply same_out_in; [done|]. lia.
  - rewrite <- H2. symmetry. apply fbytes_same with (lo := alt_base i) (hi := alt_base i + 8);
      [|lia..]. eapply same_out_in; [done|]. lia.
Qed.

Lemma headers_end d i e : headers d i -> headers d (set_end_addr e i).
Proof. intros []. by split. Qed.
Lemma headers_sem d i n : headers d i -> headers d (set_sem_taken n i).
Proof. intros []. by split. Qed.
Lemma headers_force d i b : headers d i -> headers d (set_force_compact b i).
Proof. intros []. by split. Qed.

(** [_write_entry] at the end of the log. *)
Lemma append_entry_spec w l bits payload n :
  allocs w = [] -> store (dev w) (info w) l -> 0 <= bits < 2 ^ 14 ->
  n = Z.of_nat (length payload) -> n <= MAX_VALUE_LEN -> Forall is_byte payload ->
  let e := new_entry bits payload in
  let i' := set_end_addr (end_addr (info w) + esize e) (info w) in
  end_addr (info w) + esize e <= region_end (info w) ->
  exists d', _write_entry (end_addr (info w)) bits payload n w =
      Some (SYSPARAM_OK, World d' i' [] (live w)) /\
    store d' i' (l ++ [e]) /\
    same_out (end_addr (info w)) (end_addr (info w) + esize e) (dev w) d'.
Proof.
  intros Hal Hst Hbits Hn Hmax Hby e i' Hfit.
  pose proof (store_bounds _ _ _ Hst) as (?&?&?&?&[??]&Hb).
  destruct Hst as [Hg Hl He Hf Her Hfo]. pose proof (lsize_nonneg l). pose proof (esize_pos e).
  unfold log_start, REGION_HEADER_SIZE in *.
  destruct (write_entry_spec w (end_addr (info w)) bits payload n) as (d' & E & Hat & Hout);
    auto; try lia.
  { rewrite He, Z.add_mod, lsize_mod by lia. rewrite (Z.add_mod (cur_base _)) by lia.
    by replace (cur_base (info w) mod 4) with 0 by lia. }
  { fold e. lia. }
  { fold e. eapply erased_sub; [..|exact Her]; lia. }
  fold e in E, Hat, Hout. exists d'. split_and!.
  - rewrite E. unfold info_bumped. by rewrite Z.eqb_refl.
  - split; simpl; auto; unfold log_start, region_end, REGION_HEADER_SIZE in *; simpl in *.
    + apply log_at_app. split; [|rewrite <- He; by split].
      eapply log_at_same; [|exact Hl]. eapply same_out_in; [exact Hout|]. lia.
    + rewrite lsize_app, lsize_cons. simpl. lia.
    + eapply erased_same; [|eapply erased_sub; [..|exact Her]]; [|lia|lia].
      eapply same_out_in; [exact Hout|]. lia.
    + intros Hforce. specialize (Hfo Hforce). lia.
  - exact Hout.
Qed.

(** [_delete_entry] on an entry of the log. *)
Lemma delete_entry_spec w A v B :
  store (dev w) (info w) (A ++ v :: B) ->
  exists d', _delete_entry (log_start (info w) + lsize A) w =
      Some (SYSPARAM_OK, World d' (info w) (allocs w) (live w)) /\
    store d' (info w) (A ++ kill v :: B) /\
    same_out (log_start (info w) + lsize A) (log_start (info w) + lsize A + esize v) (dev w) d'.
Proof.
  intros Hst. pose proof (store_bounds _ _ _ Hst) as (?&?&?&?&[??]&Hb).
  pose proof (log_addr_mod _ _ _ _ Hst) as Hmod.
  pose proof (store_entry_ok _ _ _ v Hst (elem_of_mid _ _ _)) as Hok.
  pose proof (st_log _ _ _ Hst) as Hl. apply log_at_app in Hl as [HA [Hv HB]].
  pose proof (st_end _ _ _ Hst) as Hend. pose proof (st_fits _ _ _ Hst) as Hfit.
  rewrite lsize_app, lsize_cons in Hb, Hend. pose proof (lsize_nonneg A).
  pose proof (lsize_nonneg B). pose proof (esize_range v). pose proof (payload_len_nonneg v).
  set (a := log_start (info w) + lsize A) in *.
  assert (0 <= a) by (unfold a, log_start, REGION_HEADER_SIZE in *; lia).
  unfold _delete_entry.
  rewrite (bind_run _ _ _ _ _ (read_header _ _ _ _ v w Hst eq_refl Hv
             ltac:(unfold a in *; lia) Hmod ltac:(lia))).
  cbn [flash_op_ok]. rewrite hdr_decode by done. fold (hdr (kill v)).
  change {| idflags := _; len := _ |} with (hdr (kill v)).
  destruct (flash_write_ok (dev w) a (entry_header_bytes (hdr (kill v))) 4)
    as (d' & Ew & Hin & Hout); auto.
  { rewrite entry_header_length. lia. } { change (round4 4) with 4. lia. }
  change (round4 4) with 4 in Hout.
  assert (Hcl : clears (dev w) a (entry_header_bytes (hdr (kill v)))).
  { eapply (clears_header _ _ (hdr v)); [apply Hv|apply land_ldiff|done]. }
  assert (Hso : same_out a (a + esize v) (dev w) d') by (intros b Hb'; apply Hout; lia).
  exists d'. split_and!; [|split; auto|done].
  - unfold mbind, st_bind, write, ENTRY_HEADER_SIZE. by rewrite Ew.
  - apply Hst.
  - apply log_at_app. split; [eapply log_at_same; [|exact HA]|split].
    + eapply same_out_in; [exact Hso|]. unfold a. lia.
    + split_and!; [by apply kill_ok|..].
      * apply (fbytes_eq d' a (entry_header_bytes (hdr (kill v)))).
        intros j b Hj. pose proof (lookup_lt_Some _ _ _ Hj) as Hlt.
        rewrite entry_header_length in Hlt. rewrite (Hin j b Hj) by lia. by apply Hcl.
      * simpl. rewrite <- (proj2 (proj2 Hv)) at 2. symmetry.
        apply fbytes_same with (lo := a + 4) (hi := a + esize v); [|lia|].
        -- intros b Hb'. symmetry. apply Hout. lia.
        -- unfold payload_len in *. lia.
    + rewrite esize_kill. eapply log_at_same; [|exact HB]. eapply same_out_in; [exact Hso|]. lia.
  - by rewrite lsize_app, lsize_cons, esize_kill, Hend.
  - eapply erased_same; [|apply Hst]. eapply same_out_in; [exact Hso|]. unfold a. lia.
  - apply Hst.
Qed.
End store_ops.
