(* ===== verification/SysparamCompact.v ===== *)
(** * Compaction and the region headers

    [_format_region], [_write_region_header] and [_compact_params]: compaction
    copies [items] of the log to the other region, renumbers the keys, leaves out
    the value of the key being set, and makes the other region the current one. *)

From stdpp Require Import sorting.
From S2P Require Import Prelude Flash Sysparam SysparamLog SysparamGet SysparamWrite SysparamStore.
Local Open Scope Z_scope.

(** ** The compacted log *)

(** The entries that compaction writes for the items [xs] after [n] keys, when
    [kid] is the id of the key whose value is dropped. *)
Fixpoint compacted (kid n : Z) (xs : list item) : list log_entry :=
  match xs with
  | [] => []
  | x :: xs =>
      key_entry (n + 1) (i_key x) ::
      (if i_id x =? kid then [] else [value_entry (n + 1) (i_bin x) (i_val x)]) ++
      compacted kid (n + 1) xs
  end.

(** The new id of the key whose id was [kid]. *)
Fixpoint renum (kid n : Z) (xs : list item) : Z :=
  match xs with
  | [] => kid
  | x :: xs => if i_id x =? kid then n + 1 else renum kid (n + 1) xs
  end.

Definition item_size (x : item) : Z :=
  8 + round4 (Z.of_nat (length (i_key x))) + round4 (Z.of_nat (length (i_val x))).
Definition items_size (xs : list item) : Z := foldr (fun x n => item_size x + n) 0 xs.

Lemma items_ids_sublist l : map i_id (items l) `sublist_of` map e_id (keys l).
Proof.
  induction l as [|e l IH]; simpl; [done|]. rewrite keys_cons.
  destruct (is_key e); [|done]. destruct (find_val (e_id e) l); simpl; by constructor.
Qed.
Lemma items_names_sublist l : map i_key (items l) `sublist_of` map le_payload (keys l).
Proof.
  induction l as [|e l IH]; simpl; [done|]. rewrite keys_cons.
  destruct (is_key e); [|done]. destruct (find_val (e_id e) l); simpl; by constructor.
Qed.

Section items_facts.
Context (l : list log_entry) (Hwf : wf_log l).

Lemma items_sorted : StronglySorted Z.lt (map i_id (items l)).
Proof. eapply StronglySorted_sublist; [apply items_ids_sublist|apply Hwf]. Qed.
Lemma items_names : NoDup (map i_key (items l)).
Proof. eapply sublist_NoDup; [apply Hwf|apply items_names_sublist]. Qed.
Lemma items_id_range : Forall (fun x => 1 <= i_id x <= MAX_KEY_ID) (items l).
Proof.
  rewrite Forall_forall. intros x Hx. destruct (items_key x l Hx) as (e & He & -> & _).
  pose proof (wf_id_range _ Hwf) as Hr. rewrite Forall_forall in Hr. auto.
Qed.
Lemma params_item key x :
  params l !! key = Some x <-> exists y, y ∈ items l /\ item_kv y = (key, x).
Proof.
  rewrite params_items, <- elem_of_list_to_map.
  - rewrite list_elem_of_fmap. naive_solver.
  - unfold fmap. replace (list_fmap _ _ fst (map item_kv (items l))) with (map i_key (items l)).
    { apply items_names. } by rewrite <- list_fmap_compose.
Qed.
End items_facts.

(** A sorted list of ids between [lo] and [hi] is no longer than that. *)
Lemma sorted_length (l : list Z) lo hi :
  StronglySorted Z.lt l -> Forall (fun x => lo < x <= hi) l -> lo <= hi ->
  Z.of_nat (length l) <= hi - lo.
Proof.
  intros Hs. revert lo. induction Hs as [|x l _ IH Hx]; intros lo Hr Hle; simpl; [lia|].
  apply Forall_cons in Hr as [Hx' Hr]. specialize (IH x).
  assert (Forall (fun y => x < y <= hi) l).
  { rewrite Forall_forall in *. intros y Hy. specialize (Hx y Hy). specialize (Hr y Hy). lia. }
  specialize (IH H ltac:(lia)). lia.
Qed.

(** ** Room for the compacted log *)

Lemma lsize_submseteq l k : l ⊆+ k -> lsize l <= lsize k.
Proof.
  induction 1 as [| |x y l|x l k _ IH|l k m _ IH1 _ IH2]; rewrite ?lsize_cons; try lia.
  pose proof (esize_pos x). lia.
Qed.

Lemma lsize_keys_values l : lsize (keys l) + lsize (values l) <= lsize l.
Proof.
  induction l as [|e l IH]; [done|]. rewrite keys_cons, values_cons, lsize_cons.
  pose proof (esize_pos e). unfold is_key, is_value.
  destruct (e_alive e), (entry_is_value (hdr e)); simpl; rewrite ?lsize_cons; lia.
Qed.

(** The values that the items of [l] hold. *)
Fixpoint item_values (l : list log_entry) : list log_entry :=
  match l with
  | [] => []
  | e :: l => match is_key e, find_val (e_id e) l with
              | true, Some v => v :: item_values l
              | _, _ => item_values l
              end
  end.

Lemma item_values_ids l : map e_id (item_values l) = map i_id (items l).
Proof.
  induction l as [|e l IH]; simpl; [done|]. destruct (is_key e); [|done].
  destruct (find_val (e_id e) l) as [v|] eqn:Hv; [|done]. simpl. rewrite IH.
  by destruct (find_val_elem _ _ _ (proj2 (e_id_range e)) Hv) as [_ ->].
Qed.

Lemma item_values_elem l v : v ∈ item_values l -> v ∈ values l.
Proof.
  induction l as [|e l IH]; simpl; [done|].
  assert (values l ⊆ values (e :: l)) by (rewrite values_cons; destruct (is_value e); set_solver).
  destruct (is_key e); [|set_solver]. destruct (find_val (e_id e) l) as [x|] eqn:Hv; [|set_solver].
  destruct (find_val_elem _ _ _ (proj2 (e_id_range e)) Hv) as [? _]. set_solver.
Qed.

Lemma items_size_split l : items_size (items l) <= lsize (keys l) + lsize (item_values l).
Proof.
  induction l as [|e l IH]; simpl; [lia|]. rewrite keys_cons. destruct (is_key e); [|done].
  pose proof (esize_pos e). destruct (find_val (e_id e) l) as [v|]; simpl; rewrite ?lsize_cons; [|lia].
  fold (items_size (items l)). fold (lsize (item_values l)) (lsize (keys l)).
  unfold item_size, esize, payload_len, ENTRY_HEADER_SIZE. simpl. lia.
Qed.

Lemma items_size_le l : wf_log l -> items_size (items l) <= lsize l.
Proof.
  intros Hwf. pose proof (items_size_split l). pose proof (lsize_keys_values l).
  assert (lsize (item_values l) <= lsize (values l)); [|lia].
  apply lsize_submseteq, NoDup_submseteq; [|apply item_values_elem].
  apply (NoDup_fmap_1 e_id). change (NoDup (map e_id (item_values l))).
  rewrite item_values_ids. apply sorted_NoDup, items_sorted, Hwf.
Qed.

Lemma compacted_size kid n xs : lsize (compacted kid n xs) <= items_size xs.
Proof.
  revert n; induction xs as [|x xs IH]; intros n; simpl; [lia|]. specialize (IH (n + 1)).
  fold (items_size xs). fold (lsize (compacted kid (n + 1) xs)).
  unfold item_size. pose proof (round4_range (Z.of_nat (length (i_val x)))).
  destruct (i_id x =? kid); simpl; fold (lsize (compacted kid (n + 1) xs));
    unfold esize, payload_len, ENTRY_HEADER_SIZE; simpl; lia.
Qed.

(** ** The compacted log is well formed *)

Section compacted.
Context (kid : Z).

Lemma compacted_key_ids n xs :
  0 <= n -> n + Z.of_nat (length xs) <= MAX_KEY_ID ->
  map e_id (keys (compacted kid n xs)) = seqZ (n + 1) (Z.of_nat (length xs)) /\
  map le_payload (keys (compacted kid n xs)) = map i_key xs.
Proof.
  revert n; induction xs as [|x xs IH]; intros n Hn Hmax; [done|].
  cbn [compacted length] in *. unfold MAX_KEY_ID in *.
  destruct (IH (n + 1) ltac:(lia) ltac:(lia)) as [IH1 IH2].
  destruct (key_entry_kind (n + 1) ltac:(lia) (i_key x)) as (Hk & _ & Hid & _).
  destruct (value_entry_kind (n + 1) ltac:(lia) (i_bin x) (i_val x)) as (_ & Hv & _).
  rewrite keys_cons, Hk. rewrite seqZ_cons by lia. simpl. rewrite Hid.
  assert (keys ((if i_id x =? kid then [] else [value_entry (n + 1) (i_bin x) (i_val x)]) ++
    compacted kid (n + 1) xs) = keys (compacted kid (n + 1) xs)) as ->.
  { destruct (i_id x =? kid); [done|]. simpl. by rewrite keys_cons, Hv. }
  rewrite IH1, IH2. split; [|done]. do 2 f_equal; lia.
Qed.

Lemma compacted_values_sublist n xs :
  0 <= n -> n + Z.of_nat (length xs) <= MAX_KEY_ID ->
  map e_id (values (compacted kid n xs)) `sublist_of` seqZ (n + 1) (Z.of_nat (length xs)).
Proof.
  revert n; induction xs as [|x xs IH]; intros n Hn Hmax; [done|].
  cbn [compacted length] in *. unfold MAX_KEY_ID in *.
  specialize (IH (n + 1) ltac:(lia) ltac:(lia)).
  destruct (key_entry_kind (n + 1) ltac:(lia) (i_key x)) as (_ & Hk & _).
  destruct (value_entry_kind (n + 1) ltac:(lia) (i_bin x) (i_val x)) as (Hv & _ & Hid & _).
  rewrite values_cons, Hk. rewrite seqZ_cons by lia.
  replace (Z.pred (Z.of_nat (S (length xs)))) with (Z.of_nat (length xs)) by lia.
  replace (Z.succ (n + 1)) with (n + 1 + 1) by lia.
  destruct (i_id x =? kid); simpl; [by constructor|]. rewrite values_cons, Hv. simpl. rewrite Hid.
  by constructor.
Qed.

Lemma compacted_value_ids n xs l1 v l2 :
  0 <= n -> n + Z.of_nat (length xs) <= MAX_KEY_ID ->
  compacted kid n xs = l1 ++ v :: l2 -> is_value v = true -> e_id v ∈ map e_id (keys l1).
Proof.
  revert n l1; induction xs as [|x xs IH]; intros n l1 Hn Hmax Heq Hv; [by destruct l1|].
  cbn [compacted length] in *. unfold MAX_KEY_ID in *.
  destruct (key_entry_kind (n + 1) ltac:(lia) (i_key x)) as (Hk & Hkv & Hid & _).
  destruct (value_entry_kind (n + 1) ltac:(lia) (i_bin x) (i_val x)) as (_ & Hvk & Hvid & _).
  destruct l1 as [|y l1]; simplify_eq/=; [by rewrite Hkv in Hv|].
  rewrite keys_cons, Hk. simpl. rewrite Hid.
  destruct (i_id x =? kid); simplify_eq/=.
  { apply elem_of_cons. right. eapply (IH (n + 1)); eauto; lia. }
  destruct l1 as [|z l1]; simplify_eq/=.
  { rewrite Hvid. by left. }
  apply elem_of_cons. right. rewrite keys_cons, Hvk. eapply (IH (n + 1)); eauto; lia.
Qed.

Lemma compacted_unwanted m n xs :
  m <= n -> 0 <= n -> n + Z.of_nat (length xs) <= MAX_KEY_ID ->
  Forall (fun e => wanted m true e = false) (compacted kid n xs).
Proof.
  revert n; induction xs as [|x xs IH]; intros n Hm Hn Hmax; [constructor|].
  cbn [compacted length] in *. unfold MAX_KEY_ID in *.
  destruct (key_entry_kind (n + 1) ltac:(lia) (i_key x)) as (_ & Hk & Hid & _).
  destruct (value_entry_kind (n + 1) ltac:(lia) (i_bin x) (i_val x)) as (_ & _ & Hvid & _).
  constructor; [rewrite wanted_value by lia; by rewrite Hk|].
  specialize (IH (n + 1) ltac:(lia) ltac:(lia) ltac:(lia)).
  destruct (i_id x =? kid); simpl; [done|]. constructor; [|done].
  rewrite wanted_value, Hvid by lia. destruct (Z.eqb_spec (n + 1) m); [lia|]. apply andb_false_r.
Qed.

Lemma compacted_items n xs :
  0 <= n -> n + Z.of_nat (length xs) <= MAX_KEY_ID ->
  map item_kv (items (compacted kid n xs)) = map item_kv (filter (fun x => i_id x <> kid) xs).
Proof.
  revert n; induction xs as [|x xs IH]; intros n Hn Hmax; [done|].
  cbn [compacted length] in *. unfold MAX_KEY_ID in *.
  specialize (IH (n + 1) ltac:(lia) ltac:(lia)).
  destruct (key_entry_kind (n + 1) ltac:(lia) (i_key x)) as (Hk & _ & Hid & _).
  destruct (value_entry_kind (n + 1) ltac:(lia) (i_bin x) (i_val x)) as (Hv & Hvk & Hvid & Hb & _).
  cbn [items]. rewrite Hk, Hid, filter_cons. destruct (Z.eqb_spec (i_id x) kid) as [->|Hne]; simpl.
  - rewrite decide_False by tauto. unfold find_val. rewrite search_miss; [done|].
    apply compacted_unwanted; unfold MAX_KEY_ID; lia.
  - rewrite decide_True by done. unfold find_val. cbn [search].
    rewrite wanted_value, Hv, Hvid, Z.eqb_refl by lia. simpl. rewrite Hvk, IH.
    unfold item_kv at 1; simpl. by rewrite Hb.
Qed.

Lemma compacted_last n xs :
  0 <= n -> n + Z.of_nat (length xs) <= MAX_KEY_ID ->
  foldl (fun m e => if is_key e then e_id e else m) n (compacted kid n xs) =
    n + Z.of_nat (length xs).
Proof.
  revert n; induction xs as [|x xs IH]; intros n Hn Hmax; [simpl; lia|].
  cbn [compacted length] in *. unfold MAX_KEY_ID in *.
  destruct (key_entry_kind (n + 1) ltac:(lia) (i_key x)) as (Hk & _ & Hid & _).
  destruct (value_entry_kind (n + 1) ltac:(lia) (i_bin x) (i_val x)) as (_ & Hvk & _).
  simpl. rewrite Hk, Hid. destruct (i_id x =? kid); simpl; rewrite ?Hvk, IH by lia; lia.
Qed.

Lemma compacted_renum n xs x :
  0 <= n -> n + Z.of_nat (length xs) <= MAX_KEY_ID -> x ∈ xs -> i_id x = kid ->
  NoDup (map i_id xs) ->
  exists e, e ∈ keys (compacted kid n xs) /\ e_id e = renum kid n xs /\ le_payload e = i_key x.
Proof.
  revert n; induction xs as [|y xs IH]; intros n Hn Hmax Hx Hid Hnd; [by apply elem_of_nil in Hx|].
  cbn [compacted length renum map] in *. unfold MAX_KEY_ID in *. apply NoDup_cons in Hnd as [Hni Hnd].
  destruct (key_entry_kind (n + 1) ltac:(lia) (i_key y)) as (Hk & _ & Hkid & _).
  destruct (value_entry_kind (n + 1) ltac:(lia) (i_bin y) (i_val y)) as (_ & Hvk & _).
  rewrite keys_cons, Hk. apply elem_of_cons in Hx as [->|Hx].
  - rewrite Hid, Z.eqb_refl. eexists; split_and!; [by left|done|done].
  - destruct (Z.eqb_spec (i_id y) kid) as [Hy|_].
    { destruct Hni. rewrite Hy, <- Hid. by apply list_elem_of_fmap_2. }
    destruct (IH (n + 1)) as (e & He & ? & ?); auto; try lia.
    exists e. split_and!; auto. right. simpl. by rewrite keys_cons, Hvk.
Qed.

Lemma renum_stop m n xs : Forall (fun x => i_id x <> m) xs -> renum m n xs = m.
Proof.
  intros Hx. revert n. induction Hx as [|x xs Hx _ IH]; intros n; simpl; [done|].
  destruct (Z.eqb_spec (i_id x) m); [done|]. apply IH.
Qed.
End compacted.

Lemma compacted_stop k m n xs :
  Forall (fun x => i_id x <> m) xs -> Forall (fun x => i_id x <> k) xs ->
  compacted m n xs = compacted k n xs.
Proof.
  intros Hm. revert n. induction Hm as [|x xs Hx _ IH]; intros n Hk; simpl; [done|].
  apply Forall_cons in Hk as [Hxk Hk].
  destruct (Z.eqb_spec (i_id x) m), (Z.eqb_spec (i_id x) k); try done. by rewrite IH.
Qed.

(** [kid] is the id of [key] in the log, if any. *)
Definition names_id (l : list log_entry) (kid : Z) (key : list Z) : Prop :=
  forall e, e ∈ keys l -> e_id e = kid <-> le_payload e = key.

Section compact_log.
Context (l : list log_entry) (kid : Z) (key : list Z).
Context (Hwf : wf_log l) (Hkid : names_id l kid key).
Let L := compacted kid 0 (items l).

Lemma items_length : 0 + Z.of_nat (length (items l)) <= MAX_KEY_ID.
Proof.
  rewrite <- (length_map i_id). pose proof (sorted_length _ 0 MAX_KEY_ID (items_sorted l Hwf)) as Hs.
  unfold MAX_KEY_ID in *. assert (Forall (fun x => 0 < x <= 0xffe) (map i_id (items l))).
  { apply Forall_map. eapply Forall_impl; [by apply items_id_range|]. unfold MAX_KEY_ID. simpl. lia. }
  specialize (Hs H). lia.
Qed.

Lemma compact_log_wf : wf_log L.
Proof.
  pose proof items_length as Hlen.
  destruct (compacted_key_ids kid 0 (items l) ltac:(lia) Hlen) as [Hids Hnames].
  split; fold L in Hids, Hnames.
  - rewrite Hids. clear. generalize (0 + 1). intros m.
    remember (length (items l)) as n eqn:E. clear E. revert m.
    induction n as [|n IH]; intros m; [constructor|].
    rewrite seqZ_cons by lia. replace (Z.pred (Z.of_nat (S n))) with (Z.of_nat n) by lia.
    constructor; [apply IH|]. rewrite Forall_forall. intros x Hx%elem_of_seqZ. lia.
  - rewrite Forall_forall. intros e He. assert (e_id e ∈ map e_id (keys L)) as Hin
      by (by apply list_elem_of_fmap_2). rewrite Hids, elem_of_seqZ in Hin. lia.
  - rewrite Hnames. by apply items_names.
  - eapply sublist_NoDup; [apply (NoDup_seqZ (0 + 1))|].
    apply compacted_values_sublist; [lia|done].
  - intros. by eapply compacted_value_ids.
Qed.

Lemma compact_log_params : params L = delete key (params l).
Proof.
  apply map_eq. intros k. apply option_eq. intros x.
  rewrite params_item by apply compact_log_wf.
  assert (Hex : (exists y, y ∈ items L /\ item_kv y = (k, x)) <->
    exists y, y ∈ items l /\ i_id y <> kid /\ item_kv y = (k, x)).
  { pose proof (compacted_items kid 0 (items l) ltac:(lia) items_length) as Hi. fold L in Hi.
    transitivity ((k, x) ∈ map item_kv (items L)); [rewrite list_elem_of_fmap; naive_solver|].
    rewrite Hi, list_elem_of_fmap. setoid_rewrite list_elem_of_filter. naive_solver. }
  rewrite Hex. destruct (decide (k = key)) as [->|Hne].
  - rewrite lookup_delete_eq. split; [|done]. intros (y & Hy & Hid & Hkv).
    destruct (items_key y l Hy) as (e & He & Hie & Hke). destruct Hid. rewrite Hie.
    apply Hkid; [done|]. rewrite <- Hke. by injection Hkv.
  - rewrite lookup_delete_ne by done. rewrite params_item by done.
    split; intros (y & Hy & Hrest); exists y; [tauto|].
    split_and!; try tauto. intros Hid. destruct (items_key y l Hy) as (e & He & Hie & Hke).
    apply Hne. injection Hrest as Hk _. rewrite <- Hk, Hke. apply Hkid; [done|]. by rewrite <- Hie.
Qed.

Lemma compact_log_orphans : orphans L ⊆ {[key]}.
Proof.
  intros k. rewrite orphans_elem by apply compact_log_wf. rewrite compact_log_params.
  destruct (compacted_key_ids kid 0 (items l) ltac:(lia) items_length) as [_ Hnames].
  fold L in Hnames. rewrite Hnames. intros [(x & -> & Hx)%list_elem_of_fmap Hd].
  apply elem_of_singleton. destruct (decide (i_key x = key)); [done|].
  rewrite lookup_delete_ne in Hd by done.
  assert (params l !! i_key x = Some (i_val x, i_bin x)); [|congruence].
  apply params_item; [done|]. by exists x.
Qed.

Lemma compact_log_last : last_id L = Z.of_nat (length (items l)).
Proof. unfold last_id, L. rewrite compacted_last; [done|done|apply items_length]. Qed.
End compact_log.

(** ** Erasing a region and writing its header *)

Lemma items_entries l x : x ∈ items l ->
  exists e v, e ∈ l /\ v ∈ l /\ i_key x = le_payload e /\ i_val x = le_payload v.
Proof.
  induction l as [|e l IH]; simpl; [by intros ?%elem_of_nil|].
  assert (Hrec : x ∈ items l -> exists e' v, e' ∈ e :: l /\ v ∈ e :: l /\
    i_key x = le_payload e' /\ i_val x = le_payload v).
  { intros (e' & v & ? & ? & ? & ?)%IH. exists e', v. split_and!; auto; by right. }
  destruct (is_key e); [|done]. destruct (find_val (e_id e) l) as [v|] eqn:Hv; [|done].
  intros [->|]%elem_of_cons; [|auto].
  destruct (find_val_elem _ _ _ (proj2 (e_id_range e)) Hv) as [[_ Hin]%elem_of_values _].
  exists e, v. split_and!; [by left|by right|done|done].
Qed.

Section regions.
Context `{FlashOk D}.
Implicit Types (w : world D) (d : D).

Let ss := sector_size (sdk_flashchip (D:=D)).

Lemma same_out_trans lo hi d d' d'' :
  same_out lo hi d d' -> same_out lo hi d' d'' -> same_out lo hi d d''.
Proof. intros H1 H2 b Hb. rewrite H2, H1; auto. Qed.
Lemma same_out_sub lo hi lo' hi' d d' :
  lo <= lo' -> hi' <= hi -> same_out lo' hi' d d' -> same_out lo hi d d'.
Proof. intros ?? Hs b Hb. apply Hs. lia. Qed.
Lemma same_out_refl lo hi d : same_out lo hi d d.
Proof. done. Qed.

Lemma format_loop_spec n sector i w :
  0 <= sector -> 0 <= i -> sector + i + Z.of_nat n <= chip_size sdk_flashchip / ss ->
  exists d', format_loop n sector i w =
      Some (SYSPARAM_OK, World d' (info w) (allocs w) (live w)) /\
    erased d' ((sector + i) * ss) ((sector + i + Z.of_nat n) * ss) /\
    same_out ((sector + i) * ss) ((sector + i + Z.of_nat n) * ss) (dev w) d'.
Proof.
  pose proof flash_chip_ok as [_ _ Hss _ _ _ Hmax]. fold ss in Hss, Hmax.
  revert i w; induction n as [|n IH]; intros i w Hs Hi Hfit.
  - exists (dev w). split_and!; [by destruct w|intros b; lia|done].
  - cbn [format_loop].
    destruct (flash_erase_ok (dev w) (sector + i)) as (d1 & E1 & Hin & Hout).
    { fold ss. lia. }
    fold ss in Hin, Hout. set (w1 := World d1 (info w) (allocs w) (live w)).
    rewrite (bind_run _ _ _ SPI_FLASH_RESULT_OK w1).
    2:{ unfold erase. rewrite u16_small by lia. by rewrite E1. }
    cbn [flash_op_ok]. destruct (IH (i + 1) w1) as (d' & E' & Her & Hso); [lia..|].
    exists d'. split; [exact E'|]. simpl in Hso.
    replace ((sector + (i + 1)) * ss) with ((sector + i + 1) * ss) in * by lia.
    replace (sector + (i + 1) + Z.of_nat n) with (sector + i + Z.of_nat (S n)) in * by lia.
    split.
    + intros b Hb. destruct (Z.lt_ge_cases b ((sector + i + 1) * ss)).
      * rewrite Hso by lia. apply Hin. lia.
      * apply Her. lia.
    + intros b Hb. rewrite Hso, Hout by nia. done.
Qed.

Lemma format_region_spec w a n :
  0 <= a -> a mod ss = 0 -> 0 <= n -> a + n * ss <= chip_size sdk_flashchip ->
  exists d', _format_region a n w =
      Some (SYSPARAM_OK, World d' (info w) (allocs w) (live w)) /\
    erased d' a (a + n * ss) /\ same_out a (a + n * ss) (dev w) d'.
Proof.
  intros Ha [k ->]%Z.mod_divide Hn Hfit.
  2:{ pose proof (sector_size_pos _ (flash_chip_ok (D:=D))). unfold ss. lia. }
  pose proof flash_chip_ok as [_ _ Hss _ Hcm _ Hmax]. fold ss in Hss, Hmax, Hcm.
  assert (0 <= k) by nia.
  assert (k + n <= chip_size sdk_flashchip / ss) by (apply Z.div_le_lower_bound; lia).
  destruct (format_loop_spec (Z.to_nat n) k 0 w) as (d' & E & Her & Hso); [lia..|].
  exists d'. rewrite Z2Nat.id, !Z.add_0_r in * by lia.
  replace (k * ss + n * ss) with ((k + n) * ss) by lia. split_and!; [|done..].
  unfold _format_region. fold ss. rewrite Z.div_mul by lia. destruct (Z.eq_dec n 0) as [->|].
  - simpl. destruct w; simpl in *. by injection E as ->.
  - by rewrite u16_small by lia.
Qed.

Lemma region_header_length h : length (region_header_bytes h) = 8%nat.
Proof. done. Qed.
Lemma region_header_byte h : Forall is_byte (region_header_bytes h).
Proof. repeat (apply Forall_app; split); apply le_bytes_byte. Qed.

Lemma write_region_header_spec w a other active :
  allocs w = [] -> 0 <= a -> a mod 4 = 0 -> a + 8 <= chip_size sdk_flashchip ->
  clears (dev w) a (region_header_bytes (region_hdr ss a other active)) ->
  exists d', _write_region_header a other active w =
      Some (SYSPARAM_OK, World d' (info w) [] (live w)) /\
    fbytes d' a 8 = region_header_bytes (region_hdr ss a other active) /\
    same_out a (a + 8) (dev w) d'.
Proof.
  intros Hal Ha Ha4 Hfit Hcl.
  destruct (write_and_verify_spec w a (region_header_bytes (region_hdr ss a other active)) 8)
    as (d' & E & Hin & Hout); auto.
  exists d'. split_and!; [|exact Hin|exact Hout].
  unfold _write_region_header. fold ss (region_flags ss a other active).
  change {| magic := SYSPARAM_MAGIC; flags_size := _; reserved := 0 |} with
    (region_hdr ss a other active).
  unfold REGION_HEADER_SIZE. by rewrite (bind_run _ _ _ _ _ E).
Qed.

(** Marking a region inactive clears bits only. *)
Lemma clears_inactive d a other :
  fbytes d a 8 = region_header_bytes (region_hdr ss a other true) ->
  clears d a (region_header_bytes (region_hdr ss a other false)).
Proof.
  intros Hh j b Hj. assert (Hj8 : (j < 8)%nat) by exact (lookup_lt_Some _ _ _ Hj).
  pose proof (lookup_fbytes d a 8 j Hj8) as Hb. rewrite Hh in Hb.
  assert (Hz : zip_with Z.land (region_header_bytes (region_hdr ss a other true))
      (region_header_bytes (region_hdr ss a other false)) =
      region_header_bytes (region_hdr ss a other false)).
  { unfold region_header_bytes. rewrite !zip_with_app by done.
    rewrite <- !le_bytes_land. cbn [magic flags_size reserved region_hdr]. do 2 f_equal.
    f_equal. unfold region_flags. apply Z.bits_inj'; intros k Hk.
    rewrite Z.land_spec, Z.lor_spec. by destruct (Z.testbit _ k), (Z.testbit REGION_FLAG_ACTIVE k). }
  assert (Hzj : zip_with Z.land (region_header_bytes (region_hdr ss a other true))
    (region_header_bytes (region_hdr ss a other false)) !! j =
    Some (Z.land (fbyte d (a + Z.of_nat j)) b)).
  { rewrite lookup_zip_with, Hb. simpl. by rewrite Hj. }
  rewrite Hz, Hj in Hzj. by injection Hzj.
Qed.
End regions.

(** ** The copy loop *)

Section copy.
Context `{FlashOk D}.
Implicit Types (w : world D) (d : D) (T : list log_entry).

(** A region being filled with the entries [T]. *)
Definition filling (d : D) (base size : Z) (T : list log_entry) : Prop :=
  log_at d (base + REGION_HEADER_SIZE) T /\
  erased d (base + REGION_HEADER_SIZE + lsize T) (base + size).

Lemma fill_entry_spec w base size T bits payload n :
  allocs w = [] -> 0 <= base -> base mod 4 = 0 -> base + size <= chip_size sdk_flashchip ->
  filling (dev w) base size T -> 0 <= bits < 2 ^ 14 ->
  n = Z.of_nat (length payload) -> n <= MAX_VALUE_LEN -> Forall is_byte payload ->
  let e := new_entry bits payload in
  let a := base + REGION_HEADER_SIZE + lsize T in
  end_addr (info w) <> a -> REGION_HEADER_SIZE + lsize T + esize e <= size ->
  exists d', _write_entry a bits payload n w = Some (SYSPARAM_OK, World d' (info w) [] (live w)) /\
    filling d' base size (T ++ [e]) /\
    same_out (base + REGION_HEADER_SIZE) (base + size) (dev w) d'.
Proof.
  intros Hal Hb Hb4 Hsz [Hlog Her] Hbits Hn Hmax Hby e a Hne Hfit.
  pose proof (lsize_nonneg T). pose proof (esize_pos e). unfold REGION_HEADER_SIZE in *.
  destruct (write_entry_spec w a bits payload n) as (d' & E & Hat & Hout); auto; fold e.
  { unfold a. lia. }
  { unfold a. rewrite Z.add_mod, lsize_mod, (Z.add_mod base), Hb4 by lia. done. }
  { unfold a. lia. }
  { eapply erased_sub; [..|exact Her]; unfold a; lia. }
  fold e in E, Hat, Hout. assert (Hso : same_out a (a + esize e) (dev w) d') by done.
  exists d'. split_and!; [|split|].
  - rewrite E. unfold info_bumped. destruct (Z.eqb_spec (end_addr (info w)) a); done.
  - apply log_at_app. split; [|by split]. eapply log_at_same; [|exact Hlog].
    eapply same_out_in; [exact Hso|]. unfold a, REGION_HEADER_SIZE. lia.
  - rewrite lsize_app, lsize_cons. simpl. unfold REGION_HEADER_SIZE. eapply erased_same;
      [|eapply erased_sub; [..|exact Her]].
    + eapply same_out_in; [exact Hso|]. unfold a. lia.
    + lia.
    + lia.
  - eapply same_out_sub; [..|exact Hso]; unfold a; lia.
Qed.

(** What the loop has copied, and what is left of the log. *)
Record copying (w : world D) (v : compact_vars) (pre post T : list log_entry) : Prop := {
  co_allocs : allocs w = [];
  co_buf : 0 <= bufsize (cv_iter v) < 2 ^ 31;
  co_store : store (dev w) (info w) (pre ++ post);
  co_wf : wf_log (pre ++ post);
  co_scanned : scanned (info w) (it_ctx (cv_iter v)) pre;
  co_filling : filling (dev w) (alt_base (info w)) (region_size (info w)) T;
  co_addr : cv_addr v = alt_base (info w) + REGION_HEADER_SIZE + lsize T
}.

Lemma copying_entry w v pre post T bits payload n :
  copying w v pre post T -> 0 <= bits < 2 ^ 14 ->
  n = Z.of_nat (length payload) -> n <= MAX_VALUE_LEN -> Forall is_byte payload ->
  let e := new_entry bits payload in
  REGION_HEADER_SIZE + lsize T + esize e <= region_size (info w) ->
  exists d', _write_entry (cv_addr v) bits payload n w =
      Some (SYSPARAM_OK, World d' (info w) [] (live w)) /\
    same_out (alt_base (info w) + REGION_HEADER_SIZE) (alt_base (info w) + region_size (info w))
      (dev w) d' /\
    u32 (cv_addr v + ENTRY_SIZE n) = cv_addr v + esize e /\
    (forall it c k, it_ctx it = it_ctx (cv_iter v) -> 0 <= bufsize it < 2 ^ 31 ->
       copying (World d' (info w) [] (live w))
         {| cv_iter := it; cv_addr := cv_addr v + esize e; cv_current := c; cv_key_id := k |}
         pre post (T ++ [e])).
Proof.
  intros [Hal Hbuf Hst Hwf Hsc Hfill Haddr] Hbits Hn Hmax Hby e Hfit.
  pose proof (geo_bounds _ (st_geo _ _ _ Hst)) as (?&?&?&?&?&?&[??]&?&Hdis).
  pose proof (st_end _ _ _ Hst) as Hend. pose proof (st_fits _ _ _ Hst) as Hf.
  pose proof (lsize_nonneg (pre ++ post)). pose proof (lsize_nonneg T). pose proof (esize_pos e).
  unfold region_end, log_start, REGION_HEADER_SIZE in *.
  destruct (fill_entry_spec w (alt_base (info w)) (region_size (info w)) T bits payload n)
    as (d' & E & Hfill' & Hso); auto; try lia.
  { unfold REGION_HEADER_SIZE. lia. }
  unfold REGION_HEADER_SIZE in E. rewrite <- Haddr in E. fold e in Hfill'. exists d'. split_and!; auto.
  - assert (0 <= n) by lia. unfold MAX_VALUE_LEN in *.
    rewrite Hn. change (Z.of_nat (length payload)) with (payload_len e).
    rewrite esize_entry by (unfold payload_len, MAX_VALUE_LEN; simpl; lia).
    rewrite u32_small by lia. done.
  - intros it c k Hit Hb. split; simpl; auto; rewrite ?Hit; auto.
    + eapply store_same; [|exact Hst]. unfold region_end.
      eapply same_out_in; [exact Hso|]. unfold REGION_HEADER_SIZE. lia.
    + rewrite lsize_app, lsize_cons, Haddr. unfold REGION_HEADER_SIZE. simpl. lia.
Qed.

Lemma compact_loop_spec fuel w v pre post T :
  copying w v pre post T ->
  0 <= cv_current v -> cv_current v + Z.of_nat (length (items post)) <= MAX_KEY_ID ->
  StronglySorted Z.lt (map i_id (items post)) ->
  Forall (fun x => cv_current v < i_id x) (items post) ->
  REGION_HEADER_SIZE + lsize T + items_size (items post) <= region_size (info w) ->
  (length post < fuel)%nat ->
  let T' := T ++ compacted (cv_key_id v) (cv_current v) (items post) in
  exists v' d', compact_loop fuel v w =
      Some ((SYSPARAM_NOTFOUND, v'), World d' (info w) [] (live w)) /\
    filling d' (alt_base (info w)) (region_size (info w)) T' /\
    same_out (alt_base (info w) + REGION_HEADER_SIZE) (alt_base (info w) + region_size (info w))
      (dev w) d' /\
    cv_addr v' = alt_base (info w) + REGION_HEADER_SIZE + lsize T' /\
    cv_current v' = cv_current v + Z.of_nat (length (items post)) /\
    cv_key_id v' = renum (cv_key_id v) (cv_current v) (items post).
Proof.
  revert w v pre post T; induction fuel as [|fuel IH]; intros w v pre post T Hco Hn Hlen Hso Hgt
    Hsize Hf T'; [lia|].
  pose proof Hco as [Hal Hbuf Hst Hwf Hsc Hfill Haddr]. cbn [compact_loop].
  pose proof (iter_next_spec (cv_iter v) w pre post Hal Hbuf Hst Hwf Hsc) as Hit.
  unfold MAX_KEY_ID in Hlen. unfold T' in *. clear T'.
  destruct (items post) as [|x xs] eqn:Hitems.
  { destruct Hit as (it' & E). rewrite (bind_run _ _ _ _ _ E). cbn [is_ok negb].
    exists {| cv_iter := it'; cv_addr := cv_addr v; cv_current := cv_current v;
              cv_key_id := cv_key_id v |}, (dev w).
    simpl. rewrite app_nil_r. split_and!; auto; try lia; by destruct w; simpl in *; subst. }
  destruct Hit as (it' & pre' & post' & E & Heq & Hsc' & Hxs & Hh & Hbuf' & Hl').
  rewrite (bind_run _ _ _ _ _ E). cbn [is_ok negb cv_current cv_addr cv_key_id cv_iter].
  assert (Hx : x ∈ items post) by (rewrite Hitems; by left).
  destruct (items_entries post x Hx) as (ke & ve & Hke & Hve & Hkp & Hvp).
  destruct (store_entry_ok _ _ _ ke Hst ltac:(set_solver)) as (_ & Hkl & Hkb).
  destruct (store_entry_ok _ _ _ ve Hst ltac:(set_solver)) as (_ & Hvl & Hvb).
  unfold payload_len in Hkl, Hvl. rewrite <- Hkp in Hkl, Hkb. rewrite <- Hvp in Hvl, Hvb.
  destruct Hh as [-> -> -> -> -> ->]. clear Hx Hke Hve Hkp Hvp ke ve.
  simpl length in Hlen. simpl in Hsize. fold (items_size xs) in Hsize.
  assert (Hxsize : 0 <= items_size xs).
  { clear. induction xs as [|y xs IH]; simpl; [lia|]. fold (items_size xs). unfold item_size.
    pose proof (round4_range (Z.of_nat (length (i_key y)))).
    pose proof (round4_range (Z.of_nat (length (i_val y)))). lia. }
  set (n := cv_current v) in *. rewrite u16_small by lia.
  assert (Hco1 : copying w {| cv_iter := it'; cv_addr := cv_addr v; cv_current := n;
    cv_key_id := cv_key_id v |} pre' post' T).
  { split; simpl; auto; by rewrite <- Heq. }
  pose proof (round4_range (Z.of_nat (length (i_val x)))).
  destruct (copying_entry _ _ _ _ _ (n + 1) (i_key x) _ Hco1 ltac:(lia) eq_refl Hkl Hkb)
    as (d1 & E1 & Hso1 & Hadd1 & Hco2).
  { unfold item_size in Hsize. unfold esize, payload_len, ENTRY_HEADER_SIZE. simpl. lia. }
  simpl in E1, Hadd1. rewrite (bind_run _ _ _ _ _ E1), Hadd1. cbn [is_err cv_addr].
  simpl in Hso, Hgt. apply StronglySorted_cons in Hso as [Hall Hsorted].
  apply Forall_cons in Hgt as [Hgx Hgt].
  assert (Hgt' : Forall (fun y => n + 1 < i_id y) xs).
  { rewrite Forall_forall. intros y Hy. rewrite Forall_forall in Hall.
    specialize (Hall (i_id y) ltac:(by apply list_elem_of_fmap_2)). lia. }
  set (e1 := new_entry (n + 1) (i_key x)) in *.
  change (compacted _ n (x :: xs)) with (e1 :: (if i_id x =? cv_key_id v then [] else
    [value_entry (n + 1) (i_bin x) (i_val x)]) ++ compacted (cv_key_id v) (n + 1) xs).
  cbn [renum]. destruct (Z.eqb_spec (i_id x) (cv_key_id v)) as [Hid|Hid].
  - assert (Hstop : compacted (cv_key_id v) (n + 1) xs = compacted (n + 1) (n + 1) xs).
    { apply compacted_stop.
      - rewrite <- Hid. rewrite Forall_forall in Hall. rewrite Forall_forall. intros y Hy.
        specialize (Hall (i_id y) ltac:(by apply list_elem_of_fmap_2)). lia.
      - eapply Forall_impl; [exact Hgt'|]. simpl. lia. }
    rewrite Hstop. simpl app.
    specialize (Hco2 it' (n + 1) (n + 1) eq_refl Hbuf').
    destruct (IH _ _ _ _ _ Hco2) as (v' & d' & E' & Hf' & Hs' & Ha' & Hc' & Hk').
    all: rewrite ?Hxs in *; simpl; try (unfold MAX_KEY_ID; lia); auto.
    { rewrite lsize_app, lsize_cons. unfold item_size in Hsize.
      unfold esize, e1, payload_len, ENTRY_HEADER_SIZE. simpl. lia. }
    exists v', d'. simpl in *. split; [exact E'|].
    rewrite <- app_assoc in Hf', Ha'. split_and!; auto; try lia.
    + eapply same_out_trans; [exact Hso1|exact Hs'].
    + rewrite Hk'. apply renum_stop. eapply Forall_impl; [exact Hgt'|]. simpl. lia.
  - assert (Hcov := Hco2 it' (n + 1) (cv_key_id v) eq_refl Hbuf').
    pose proof (value_bits_range (n + 1) ltac:(lia) (i_bin x)) as Hbits. unfold value_bits in Hbits.
    destruct (copying_entry _ _ _ _ _ _ (i_val x) _ Hcov Hbits eq_refl Hvl Hvb)
      as (d2 & E2 & Hso2 & Hadd2 & Hco3).
    { rewrite lsize_app, lsize_cons. unfold item_size in Hsize.
      unfold esize, e1, payload_len, ENTRY_HEADER_SIZE. simpl. lia. }
    simpl in E2, Hadd2. rewrite (bind_run _ _ _ _ _ E2), Hadd2. cbn [is_err].
    specialize (Hco3 it' (n + 1) (cv_key_id v) eq_refl Hbuf'). cbn [cv_addr] in Hco3.
    change (new_entry (Z.lor (Z.lor (n + 1) ENTRY_FLAG_VALUE)
      (if i_bin x then ENTRY_FLAG_BINARY else 0)) (i_val x)) with
      (value_entry (n + 1) (i_bin x) (i_val x)) in *.
    destruct (IH _ _ _ _ _ Hco3) as (v' & d' & E' & Hf' & Hs' & Ha' & Hc' & Hk').
    all: rewrite ?Hxs in *; simpl; try (unfold MAX_KEY_ID; lia); auto.
    { rewrite !lsize_app, !lsize_cons. unfold item_size in Hsize.
      unfold esize, e1, payload_len, ENTRY_HEADER_SIZE. simpl. lia. }
    exists v', d'. simpl in *. split; [exact E'|].
    rewrite <- !app_assoc in Hf', Ha'. split_and!; auto; try lia.
    eapply same_out_trans; [exact Hso1|]. eapply same_out_trans; [exact Hso2|exact Hs'].
Qed.
End copy.

(** ** _compact_params *)

Section compact_params.
Context `{FlashOk D}.
Implicit Types (w : world D) (d : D) (i : sysparam_info).

(** The globals after compaction to the log [L]. *)
Definition switched (i : sysparam_info) (L : list log_entry) : sysparam_info :=
  set_force_compact false
    (set_bases (alt_base i) (cur_base i) (alt_base i + REGION_HEADER_SIZE + lsize L) i).

Lemma switched_geometry i L : info_geometry i -> info_geometry (switched i L).
Proof. intros []. split; simpl; auto. tauto. Qed.

Lemma compact_switch_spec w v L :
  allocs w = [] -> info_geometry (info w) ->
  fbytes (dev w) (cur_base (info w)) 8 = region_header_bytes
    (region_hdr (sector_size sdk_flashchip) (cur_base (info w)) (alt_base (info w)) true) ->
  erased (dev w) (alt_base (info w)) (alt_base (info w) + REGION_HEADER_SIZE) ->
  filling (dev w) (alt_base (info w)) (region_size (info w)) L ->
  REGION_HEADER_SIZE + lsize L <= region_size (info w) ->
  cv_addr v = alt_base (info w) + REGION_HEADER_SIZE + lsize L ->
  cur_base (info w) + region_size (info w) = alt_base (info w) \/
    alt_base (info w) + region_size (info w) = cur_base (info w) ->
  region_size (info w) / sector_size sdk_flashchip <= REGION_MASK_SIZE ->
  exists d', compact_switch (alt_base (info w)) v w =
      Some ((SYSPARAM_OK,
             {| addr := cv_addr v; entry := entry_zero; unused_keys := 0; compactable := 0;
                max_key_id := cv_current v |}, cv_key_id v),
            World d' (switched (info w) L) [] (live w)) /\
    store d' (switched (info w) L) L /\ headers d' (switched (info w) L).
Proof.
  intros Hal Hg Hcur Her [Hlog Her'] Hfit Haddr Hadj Hsec.
  pose proof (geo_bounds _ Hg) as (?&?&?&?&?&?&[??]&?&Hdis).
  unfold region_end, REGION_HEADER_SIZE in *. pose proof (lsize_nonneg L).
  unfold compact_switch. rewrite (bind_run _ _ _ (info w) w) by done.
  destruct (write_region_header_spec w (alt_base (info w)) (cur_base (info w)) true)
    as (d1 & E1 & Hh1 & Hs1); auto; try lia.
  { apply clears_erased; [apply region_header_byte|exact Her]. }
  rewrite (bind_run _ _ _ _ _ E1). cbn [is_err].
  destruct (write_region_header_spec (World d1 (info w) [] (live w)) (cur_base (info w))
    (alt_base (info w)) false) as (d2 & E2 & Hh2 & Hs2); simpl; auto; try lia.
  { apply clears_inactive. rewrite <- Hcur. symmetry.
    apply fbytes_same with (lo := cur_base (info w)) (hi := cur_base (info w) + 8); [|lia..].
    eapply same_out_in; [exact Hs1|]. lia. }
  simpl in E2, Hs2. rewrite (bind_run _ _ _ _ _ E2). cbn [is_err]. exists d2.
  assert (Hreg : same_in (alt_base (info w) + 8) (alt_base (info w) + region_size (info w)) (dev w) d2).
  { transitivity d1; (eapply same_out_in; [eassumption|]); lia. }
  split_and!.
  - unfold mbind, st_bind, set_info, st_modify. simpl. rewrite Haddr. done.
  - split; simpl; unfold log_start, region_end, REGION_HEADER_SIZE; simpl; try lia.
    + by apply switched_geometry.
    + eapply log_at_same; [|exact Hlog]. eapply same_in_sub; [..|exact Hreg]; lia.
    + eapply erased_same; [|exact Her']. eapply same_in_sub; [..|exact Hreg]; lia.
  - split; [|exact Hh2|simpl; tauto|exact Hsec]. refine (eq_trans _ Hh1). symmetry.
    apply fbytes_same with (lo := alt_base (info w)) (hi := alt_base (info w) + 8); [|simpl; lia..].
    eapply same_out_in; [exact Hs2|]. lia.
Qed.

Lemma iter_start_spec w :
  allocs w = [] -> 0 < cur_base (info w) ->
  sysparam_iter_start w = Some ((SYSPARAM_OK,
    {| it_key := []; it_value := []; key_len := 0; value_len := 0; binary := false;
       bufsize := DEFAULT_ITER_BUF_SIZE; it_ctx := set_addr (cur_base (info w)) context_zero |}),
    World (dev w) (info w) [] (live w + 2)).
Proof.
  intros Hal Hb. unfold sysparam_iter_start. rewrite (bind_run _ _ _ (info w) w) by done.
  destruct (Z.eqb_spec (cur_base (info w)) 0); [lia|].
  rewrite (bind_run _ _ _ _ _ (malloc_all w Hal)). cbn [negb].
  rewrite (bind_run _ _ _ true (World (dev w) (info w) [] (live w + 1 + 1))) by done. cbn [negb].
  rewrite (bind_run _ _ _ (set_addr (cur_base (info w)) context_zero)
    (World (dev w) (info w) [] (live w + 1 + 1))) by done.
  by replace (live w + 1 + 1) with (live w + 2) by lia.
Qed.

(** Compaction makes the other region current and copies the items to it. *)
Lemma compact_params_spec w l ctx kid :
  allocs w = [] -> store (dev w) (info w) l -> headers (dev w) (info w) -> wf_log l ->
  let L := compacted kid 0 (items l) in
  exists d', _compact_params ctx kid w =
      Some ((SYSPARAM_OK,
             {| addr := end_addr (switched (info w) L); entry := entry_zero; unused_keys := 0;
                compactable := 0; max_key_id := Z.of_nat (length (items l)) |},
             renum kid 0 (items l)),
            World d' (switched (info w) L) [] (live w)) /\
    store d' (switched (info w) L) L /\ headers d' (switched (info w) L).
Proof.
  intros Hal Hst [Hh1 Hh2 Hadj Hsec] Hwf L. pose proof (st_geo _ _ _ Hst) as Hg.
  pose proof (geo_bounds _ Hg) as (?&?&?&?&?&?&[??]&?&Hdis).
  pose proof flash_chip_ok as [_ _ Hss _ _ _ _]. pose proof Hg as [_ _ _ _ Haal Hsal _ _ _].
  apply Z.mod_divide in Hsal as [k Hk]; [|lia].
  assert (Hdiv : region_size (info w) / sector_size sdk_flashchip = k)
    by (rewrite Hk, Z.div_mul by lia; done).
  unfold region_end, REGION_MASK_SIZE in *. unfold _compact_params.
  rewrite (bind_run _ _ _ (info w) w) by done. rewrite Hdiv, u16_small by nia.
  destruct (format_region_spec w (alt_base (info w)) k) as (d1 & E1 & Her1 & Hs1);
    [lia|done|nia|lia|].
  rewrite <- Hk in Her1, Hs1. rewrite Hal in E1. rewrite (bind_run _ _ _ _ _ E1). cbn [is_err].
  set (w1 := World d1 (info w) [] (live w)).
  rewrite (bind_run _ _ _ _ _ (iter_start_spec w1 eq_refl ltac:(simpl; lia))). cbn [is_err].
  assert (Hcur : same_in (cur_base (info w)) (region_end (info w)) (dev w) d1).
  { eapply same_out_in; [exact Hs1|]. unfold region_end. lia. }
  set (w2 := World d1 (info w) [] (live w + 2)). unfold REGION_HEADER_SIZE.
  change (World (dev w1) (info w1) [] (live w1 + 2)) with w2. rewrite u32_small by lia.
  pose proof (items_length l Hwf) as Hlen. pose proof (items_size_le l Hwf) as Hisz.
  pose proof (store_bounds _ _ _ Hst) as (_&_&_&_&_&Hfit).
  unfold log_start, region_end, REGION_HEADER_SIZE in Hfit.
  destruct (compact_loop_spec (region_fuel (info w)) w2
    {| cv_iter := {| it_key := []; it_value := []; key_len := 0; value_len := 0; binary := false;
         bufsize := DEFAULT_ITER_BUF_SIZE; it_ctx := set_addr (cur_base (info w)) context_zero |};
       cv_addr := alt_base (info w) + 8; cv_current := 0; cv_key_id := kid |} [] l [])
    as (v' & d2 & E2 & Hfill & Hs2 & Ha2 & Hc2 & Hk2); simpl.
  { split; simpl; auto.
    - unfold DEFAULT_ITER_BUF_SIZE. lia.
    - eapply store_same; [exact Hcur|done].
    - apply scanned_start.
    - split; [done|]. simpl. unfold REGION_HEADER_SIZE. eapply erased_sub; [..|exact Her1]; lia.
    - unfold REGION_HEADER_SIZE. lia. }
  { lia. } { lia. } { by apply items_sorted. }
  { eapply Forall_impl; [by apply items_id_range|]. simpl. lia. }
  { unfold REGION_HEADER_SIZE. lia. }
  { pose proof (region_fuel_ok _ _ _ l Hst). lia. }
  simpl in E2, Hfill, Hs2, Ha2, Hc2, Hk2. fold L in Hfill, Ha2.
  rewrite (bind_run _ _ _ _ _ E2).
  rewrite (bind_run _ _ _ () (World d2 (info w) [] (live w))).
  2:{ unfold sysparam_iter_end, mbind, st_bind, free. simpl. do 3 f_equal. lia. }
  cbn [is_err]. pose proof (compacted_size kid 0 (items l)) as HLsz. fold L in HLsz.
  destruct (compact_switch_spec (World d2 (info w) [] (live w)) v' L)
    as (d3 & E3 & Hst3 & Hh3); auto; cbn [dev info allocs].
  { rewrite <- Hh1. symmetry. apply fbytes_same with (lo := cur_base (info w))
      (hi := cur_base (info w) + 8); [|lia..].
    transitivity d1; [eapply same_in_sub; [..|exact Hcur]; unfold region_end; lia|].
    eapply same_out_in; [exact Hs2|]. unfold REGION_HEADER_SIZE. lia. }
  { eapply (erased_same d1).
    - eapply same_out_in; [exact Hs2|]. unfold REGION_HEADER_SIZE. lia.
    - eapply erased_sub; [..|exact Her1]; unfold REGION_HEADER_SIZE; lia. }
  { unfold REGION_HEADER_SIZE. lia. }
  simpl in E3. exists d3. split; [|done]. rewrite (bind_run _ _ _ _ _ E3). simpl.
  rewrite Ha2, Hc2, Hk2. done.
Qed.
End compact_params.
