(* ===== verification/SysparamSet.v ===== *)
(** * sysparam_set_data

    The steps of [sysparam_set_data] on a represented store, and the theorem
    that it updates the parameters. *)

From stdpp Require Import sorting.
From S2P Require Import Prelude Flash Sysparam SysparamLog SysparamGet SysparamWrite SysparamStore.
From S2P Require Import SysparamCompact.
Local Open Scope Z_scope.

(** ** The compactable count does not steer a scan *)

Lemma add_compactable_comm n k c :
  add_compactable n (add_compactable k c) = add_compactable k (add_compactable n c).
Proof.
  unfold add_compactable; simpl. f_equal. rewrite !u32_add. f_equal. lia.
Qed.

Lemma visit_add_compactable n c m fv :
  entry_visit (add_compactable n c) m fv =
    ((entry_visit c m fv).1, add_compactable n (entry_visit c m fv).2).
Proof.
  unfold entry_visit. cbn [entry add_compactable].
  destruct (entry_alive (entry c)); [by destruct (entry_is_value (entry c))|].
  by rewrite add_compactable_comm.
Qed.

Lemma world_eta {D} (w : world D) : World (dev w) (info w) (allocs w) (live w) = w.
Proof. by destruct w. Qed.

Section rescan.
Context `{FlashOk D}.
Implicit Types (w : world D).

Lemma find_done_add n c m :
  find_done (add_compactable n c) m =
    ((find_done c m).1, add_compactable n (find_done c m).2).
Proof. unfold find_done. by destruct (m =? ENTRY_ID_END). Qed.

Lemma find_loop_add_compactable fuel n c m fv w st c' w' :
  find_entry_loop fuel c m fv w = Some ((st, c'), w') ->
  find_entry_loop fuel (add_compactable n c) m fv w = Some ((st, add_compactable n c'), w').
Proof.
  revert c w; induction fuel as [|fuel IH]; intros c w; [done|].
  cbn [find_entry_loop]. unfold mbind, st_bind. cbn [get_info].
  change (next_entry (info w) (add_compactable n c)) with (next_entry (info w) c).
  destruct (next_entry (info w) c) as [a|a|].
  - unfold read. destruct (flash_read (dev w) a ENTRY_HEADER_SIZE) as [r bs].
    destruct (flash_op_ok r); [|by intros [= <- <- <-]].
    change (set_entry (entry_header_of bs) (set_addr a (add_compactable n c))) with
      (add_compactable n (set_entry (entry_header_of bs) (set_addr a c))).
    set (c1 := set_entry (entry_header_of bs) (set_addr a c)).
    change (entry (add_compactable n c1)) with (entry c1).
    destruct (idflags (entry c1) =? 0xffff).
    { rewrite find_done_add. unfold mret, st_ret. by destruct (find_done c1 m); intros [= <- <- <-]. }
    rewrite visit_add_compactable. destruct (entry_visit c1 m fv) as [found c2]. simpl.
    destruct found; [by intros [= <- <- <-]|]. apply IH.
  - change (set_addr a (add_compactable n c)) with (add_compactable n (set_addr a c)).
    rewrite find_done_add. unfold mret, st_ret. by destruct (find_done _ m); intros [= <- <- <-].
  - rewrite find_done_add. unfold mret, st_ret. cbn [set_info st_modify].
    by destruct (find_done c m); intros [= <- <- <-].
Qed.

(** Where the searches of [set_find] leave the context. *)
Definition ctx_in (i : sysparam_info) (ctx : sysparam_context) (l : list log_entry) : Prop :=
  (at_end i ctx l /\ entry ctx = entry_zero) \/
  (exists k post n c, l = k ++ post /\ k <> [] /\ ctx = add_compactable n c /\ scanned i c k).

(** The scan to the end before a compaction (line 876): it counts the rest of
    the log; from the end itself it may ask for a compaction later. *)
Lemma rescan_spec w l ctx :
  store (dev w) (info w) l -> wf_log l -> ctx_in (info w) ctx l ->
  exists st ctx' i', _find_entry ctx ENTRY_ID_END false w =
      Some ((st, ctx'), World (dev w) i' (allocs w) (live w)) /\
    (i' = info w \/
     (i' = set_force_compact true (info w) /\ end_addr (info w) = region_end (info w))) /\
    max_key_id ctx' = last_id l /\ unused_keys ctx' = s32 (balance l).
Proof.
  intros Hst Hwf [[Hend Hz]|(k & post & n & c & -> & Hk & -> & Hsc)].
  - destruct Hend as [Ha Hu _ Hm]. pose proof (store_bounds _ _ _ Hst) as (?&?&?&?&[??]&Hb).
    pose proof (st_end _ _ _ Hst) as He. pose proof (st_fits _ _ _ Hst) as Hf.
    pose proof (lsize_nonneg l). unfold _find_entry. rewrite (bind_run _ _ _ (info w) w) by done.
    pose proof (region_fuel_ok _ _ _ [] Hst ltac:(simpl; lia)) as Hfu.
    destruct (region_fuel (info w)) as [|fuel]; [lia|]. cbn [find_entry_loop].
    rewrite (bind_run _ _ _ (info w) w) by done.
    unfold next_entry. rewrite Ha, Hz. change (ENTRY_SIZE (len entry_zero)) with 4.
    unfold log_start, region_end, REGION_HEADER_SIZE in *. zif.
    rewrite !u32_small by lia. destruct (Z.ltb_spec (cur_base (info w) + region_size (info w)) (end_addr (info w) + 4)).
    + do 3 eexists. split; [reflexivity|]. simpl. split; [|done]. right. split; [done|].
      rewrite He. pose proof (lsize_mod l). Z.div_mod_to_equations. lia.
    + destruct (Z.eqb_spec (end_addr (info w) + 4) (cur_base (info w) + region_size (info w))).
      * exists SYSPARAM_OK. eexists _, (info w). rewrite world_eta. split; [reflexivity|]. simpl. auto.
      * pose proof (lsize_mod l).
        rewrite (bind_run _ _ _ _ _ (read_erased _ _ _ (end_addr (info w) + 4) w Hst eq_refl ltac:(lia)
          ltac:(Z.div_mod_to_equations; lia) ltac:(unfold region_end; Z.div_mod_to_equations; lia))).
        simpl. exists SYSPARAM_OK. eexists _, (info w). rewrite world_eta. split; [reflexivity|]. simpl. auto.
  - pose proof (find_entry_spec c ENTRY_ID_END false w k post Hst Hsc) as Hf.
    rewrite search_miss in Hf.
    2:{ rewrite Forall_forall. intros e He. unfold wanted. destruct (is_key e) eqn:Hke; [|done].
        rewrite (proj2 (Z.eqb_neq _ _)); [done|]. eapply wf_id_end; [done|].
        apply elem_of_keys. split; [done|]. apply elem_of_app. by right. }
    destruct Hf as (c' & E & [_ Hu _ Hm]). unfold _find_entry in *.
    rewrite (bind_run _ _ _ (info w) w) in E by done. rewrite (bind_run _ _ _ (info w) w) by done.
    exists SYSPARAM_OK, (add_compactable n c'), (info w). rewrite world_eta.
    split; [eapply find_loop_add_compactable; exact E|]. simpl. auto.
Qed.
End rescan.

(** ** Looking for the key and its value *)

(** What [set_find] knows about [key] in the log [l]. *)
Record located (key : list Z) (v : set_vars) (i : sysparam_info) (l : list log_entry) : Prop := {
  lo_key : (sv_key_id v = -1 /\ (key ∉ map le_payload (keys l)) /\ max_key_id (sv_ctx v) = last_id l) \/
           (exists e, e ∈ keys l /\ le_payload e = key /\ sv_key_id v = e_id e);
  lo_old : (sv_old v = 0 /\ params l !! key = None) \/
           (exists A ve B, l = A ++ ve :: B /\ is_value ve = true /\ e_id ve = sv_key_id v /\
              sv_old v = log_start i + lsize A)
}.

Lemma not_named_elem key l : Forall (fun x => named key x = false) l -> key ∉ map le_payload (keys l).
Proof.
  rewrite Forall_forall. intros Hn (e & -> & [Hk Hin]%elem_of_keys)%list_elem_of_fmap.
  specialize (Hn e Hin). unfold named in Hn. by rewrite Hk, bool_decide_true in Hn.
Qed.

Section set_find.
Context `{FlashOk D}.
Implicit Types (w : world D).

Lemma at_end_ctx_in i ctx l : at_end i ctx l -> entry ctx = entry_zero -> ctx_in i ctx l.
Proof. intros. by left. Qed.

Lemma add_compactable_id c : 0 <= compactable c < 2 ^ 32 -> add_compactable 0 c = c.
Proof. destruct c; unfold add_compactable; simpl. intros. by rewrite Z.add_0_r, u32_small. Qed.

Lemma scanned_ctx_in i c k e post n :
  scanned i c (k ++ [e]) -> ctx_in i (add_compactable n c) (k ++ e :: post).
Proof.
  intros Hsc. right. exists (k ++ [e]), post, n, c. split_and!; auto.
  - by rewrite <- app_assoc.
  - by destruct k.
Qed.

Lemma set_find_spec w l key :
  store (dev w) (info w) l -> wf_log l -> valid_key key ->
  exists st v, set_find key (strlen key) w = Some ((st, v), w) /\ located key v (info w) l /\
    match params l !! key with
    | Some (val, b) => st = SYSPARAM_OK /\ sv_old v <> 0 /\
        exists A ve B, l = A ++ ve :: B /\ scanned (info w) (sv_ctx v) (A ++ [ve]) /\
          le_payload ve = val /\ e_binary ve = b
    | None => st = SYSPARAM_NOTFOUND /\ sv_old v = 0 /\ ctx_in (info w) (sv_ctx v) l /\
        max_key_id (sv_ctx v) = last_id l /\ unused_keys (sv_ctx v) = s32 (balance l)
    end.
Proof.
  intros Hst Hwf Hkey. unfold set_find.
  rewrite (bind_run _ _ _ (set_addr (cur_base (info w)) context_zero) w) by done.
  pose proof (params_lookup l key (wf_names _ Hwf)) as Hp. unfold log_get in Hp.
  pose proof (find_key_spec _ key w [] l Hkey Hst (scanned_start _)) as Hk.
  destruct (search (named key) l) as [[[l1 e] l2]|] eqn:Hs; simpl in Hk.
  2:{ destruct Hk as (c & E & Hc & Hz). rewrite (bind_run _ _ _ _ _ E). cbn [is_ok].
      do 2 eexists. split; [done|]. rewrite Hp. pose proof Hc as [_ Hu _ Hm].
      apply search_None in Hs. split; [|split_and!; auto using at_end_ctx_in].
      split; simpl; [left|left]; auto using not_named_elem. }
  destruct Hk as (c & E & Hc). rewrite (bind_run _ _ _ _ _ E). cbn [is_ok].
  apply search_Some in Hs as (-> & Hn & _). apply andb_prop in Hn as [Hke Hn%bool_decide_eq_true].
  pose proof (scanned_at _ _ _ _ Hc) as [_ ->]. fold (e_id e).
  change (entry_id (hdr e)) with (e_id e).
  assert (He : e ∈ keys (l1 ++ e :: l2)) by (apply elem_of_keys; auto using elem_of_mid).
  pose proof (wf_id_end _ _ Hwf He) as Hne.
  assert (Happ : l1 ++ e :: l2 = (l1 ++ [e]) ++ l2) by (by rewrite <- app_assoc).
  rewrite Happ in Hst.
  pose proof (find_value_spec c (e_id e) w _ _ _ (e_id_mask e) Hne Hst Hc) as Hv.
  rewrite Hp. unfold find_val.
  destruct (search (wanted (e_id e) true) l2) as [[[k1 ve] k2]|] eqn:Hs2; simpl.
  - destruct Hv as (c' & E' & Hc'). rewrite (bind_run _ _ _ _ _ E').
    apply search_Some in Hs2 as (-> & Hw & _). rewrite wanted_value in Hw by apply e_id_range.
    apply andb_prop in Hw as [Hval Hid%Z.eqb_eq].
    assert (Heq : l1 ++ e :: k1 ++ ve :: k2 = (l1 ++ e :: k1) ++ ve :: k2)
      by (by rewrite <- app_assoc).
    rewrite <- app_assoc in Hc'. change ([e] ++ k1 ++ [ve]) with ((e :: k1) ++ [ve]) in Hc'.
    rewrite app_assoc in Hc'. pose proof (scanned_at _ _ _ _ Hc') as [Ha _].
    do 2 eexists. split; [done|]. split; [split; simpl; [right|right]|split_and!; [done| |]]; simpl.
    + by exists e.
    + exists (l1 ++ e :: k1), ve, k2. by split_and!.
    + rewrite <- Happ in Hst. rewrite Ha. pose proof (store_bounds _ _ _ Hst) as (?&_).
      pose proof (lsize_nonneg (l1 ++ e :: k1)). unfold log_start, REGION_HEADER_SIZE. lia.
    + exists (l1 ++ e :: k1), ve, k2. by split_and!.
  - destruct Hv as (c' & E' & Hc' & Hz). rewrite (bind_run _ _ _ _ _ E').
    rewrite <- Happ in Hc'. pose proof Hc' as [_ Hu _ Hm].
    do 2 eexists. split; [done|]. split; [split; simpl; [right; by exists e|left]|].
    + split; [done|]. rewrite Hp. unfold find_val. by rewrite Hs2.
    + split_and!; auto using at_end_ctx_in.
Qed.
End set_find.

(** ** Making room *)

Lemma balance_counts l :
  balance l = Z.of_nat (length (keys l)) - Z.of_nat (length (values l)).
Proof.
  induction l as [|e l IH]; [done|]. cbn [balance]. rewrite IH, keys_cons, values_cons.
  unfold is_key, is_value. destruct (e_alive e), (entry_is_value (hdr e)); simpl; lia.
Qed.

Lemma keys_length l : wf_log l -> Z.of_nat (length (keys l)) <= MAX_KEY_ID.
Proof.
  intros Hwf. rewrite <- (length_map e_id).
  assert (Z.of_nat (length (map e_id (keys l))) <= MAX_KEY_ID - 0); [|lia].
  apply sorted_length; [apply Hwf| |done].
  apply Forall_map. eapply Forall_impl; [apply Hwf|]. simpl. lia.
Qed.

Lemma items_values_length l : wf_log l -> (length (items l) <= length (values l))%nat.
Proof.
  intros Hwf. rewrite <- (length_map i_id (items l)), <- item_values_ids, length_map.
  apply submseteq_length, NoDup_submseteq; [|apply item_values_elem].
  apply (NoDup_fmap_1 e_id). change (NoDup (map e_id (item_values l))).
  rewrite item_values_ids. by apply sorted_NoDup, items_sorted.
Qed.

Lemma names_key l kid key e :
  wf_log l -> e ∈ keys l -> le_payload e = key -> e_id e = kid -> names_id l kid key.
Proof.
  intros Hwf He Hn Hid e' He'. split; intros Heq.
  - assert (e' = e) as ->; [|done].
    eapply (NoDup_map_eq e_id); [by apply wf_ids_nodup|..]; congruence.
  - assert (e' = e) as ->; [|done].
    eapply (NoDup_map_eq le_payload); [apply Hwf|..]; congruence.
Qed.

Lemma located_names_id key v i l : wf_log l -> located key v i l -> names_id l (sv_key_id v) key.
Proof.
  intros Hwf [[(-> & Hn & _)|(e & He & Hk & Hid)] _].
  - intros e He. split; intros Heq.
    + pose proof (e_id_range e). lia.
    + destruct Hn. rewrite <- Heq. by apply list_elem_of_fmap_2.
  - by eapply names_key.
Qed.

Lemma located_id_sign key v i l : located key v i l ->
  (sv_key_id v <? 0) = true <-> key ∉ map le_payload (keys l).
Proof.
  intros [[(-> & Hn & _)|(e & He & <- & ->)] _]; [done|].
  pose proof (e_id_range e). split; [intros ?%Z.ltb_lt; lia|].
  intros []. by apply list_elem_of_fmap_2.
Qed.

(** The state of [sysparam_set_data] between its steps: the log [l] holds the
    parameters [m], or has already lost the value of [key] to a compaction. *)
Record prepared `{FlashDev D} (key : list Z) (m : gmap (list Z) (list Z * bool))
    (o : gset (list Z)) (w : world D) (v : set_vars) (l : list log_entry) : Prop := {
  pr_allocs : allocs w = [];
  pr_store : store (dev w) (info w) l;
  pr_headers : headers (dev w) (info w);
  pr_wf : wf_log l;
  pr_located : located key v (info w) l;
  pr_params : params l = m \/ params l = delete key m;
  pr_orphans : orphans l ⊆ {[key]} ∪ o;
  pr_exact : params l = m -> orphans l ⊆ o
}.

Definition room (i : sysparam_info) : Z := region_end i - end_addr i.

Section space.
Context `{FlashOk D}.
Implicit Types (w : world D).

Lemma free_space_room d i l : store d i l -> free_space i = room i.
Proof.
  intros Hst. pose proof (store_bounds _ _ _ Hst) as (?&?&?&?&[??]&Hb).
  pose proof (st_end _ _ _ Hst). pose proof (st_fits _ _ _ Hst). pose proof (lsize_nonneg l).
  unfold free_space, room, region_end, log_start, REGION_HEADER_SIZE in *.
  rewrite (u32_small (cur_base i + region_size i)) by lia. by rewrite u32_small by lia.
Qed.

Lemma located_compact key v i i' l w :
  wf_log l -> located key v i l -> key ∉ orphans l ->
  located key {| sv_ctx := {| addr := end_addr (switched (info w) (compacted (sv_key_id v) 0 (items l)));
                              entry := entry_zero; unused_keys := 0; compactable := 0;
                              max_key_id := Z.of_nat (length (items l)) |};
                 sv_key_id := renum (sv_key_id v) 0 (items l); sv_old := 0 |} i'
    (compacted (sv_key_id v) 0 (items l)).
Proof.
  intros Hwf Hloc Ho. pose proof (located_names_id _ _ _ _ Hwf Hloc) as Hid.
  split; simpl; [|left; split; [done|]].
  2:{ erewrite compact_log_params by eauto. apply lookup_delete_eq. }
  destruct Hloc as [[(Hkid & Hn & _)|(e & He & Hk & Hkid)] _].
  - left. split_and!.
    + rewrite Hkid. apply renum_stop. eapply Forall_impl; [by apply items_id_range|].
      simpl. lia.
    + pose proof (items_length l Hwf) as Hlen.
      destruct (compacted_key_ids (sv_key_id v) 0 (items l) ltac:(lia) Hlen) as [_ ->].
      intros Hin. apply Hn. eapply elem_of_sublist; [exact Hin|apply items_names_sublist].
    + by rewrite compact_log_last.
  - right. rewrite orphans_elem in Ho by done.
    destruct (params l !! key) as [x|] eqn:Hx.
    2:{ destruct Ho. split; [|done]. rewrite <- Hk. by apply list_elem_of_fmap_2. }
    apply params_item in Hx as (y & Hy & Hkv); [|done]. injection Hkv as Hky _.
    destruct (items_key y l Hy) as (e' & He' & Hye & Hke).
    assert (e' = e) as -> by (eapply (NoDup_map_eq le_payload); [apply Hwf|..]; congruence).
    destruct (compacted_renum (sv_key_id v) 0 (items l) y) as (e2 & ? & ? & ?); auto; try lia.
    + by apply items_length.
    + by apply sorted_NoDup, items_sorted.
    + exists e2. split_and!; [done|congruence|done].
Qed.

Lemma set_compact_spec key m o w v l :
  prepared key m o w v l -> key ∉ orphans l ->
  exists w' v' l', set_compact v w = Some ((SYSPARAM_OK, v'), w') /\
    prepared key m o w' v' l' /\ sv_old v' = 0 /\
    ((sv_key_id v' <? 0) = true <-> (sv_key_id v <? 0) = true) /\
    unused_keys (sv_ctx v') = 0 /\ max_key_id (sv_ctx v') = Z.of_nat (length (items l)) /\
    room (info w) <= room (info w') /\ live w' = live w /\
    sem_taken (info w') = sem_taken (info w).
Proof.
  intros [Hal Hst Hh Hwf Hloc Hp Ho Hex] Hno. unfold set_compact.
  set (L := compacted (sv_key_id v) 0 (items l)).
  pose proof (located_names_id _ _ _ _ Hwf Hloc) as Hid.
  destruct (compact_params_spec w l (sv_ctx v) (sv_key_id v) Hal Hst Hh Hwf)
    as (d' & E & Hst' & Hh'). fold L in E, Hst', Hh'.
  rewrite (bind_run _ _ _ _ _ E).
  pose proof (located_compact key v (info w) (switched (info w) L) l w Hwf Hloc Hno) as Hloc'.
  fold L in Hloc'. do 3 eexists. split; [reflexivity|]. cbn [is_err]. split_and!; try done.
  - split; simpl; [done|exact Hst'|done|by apply compact_log_wf|exact Hloc'| | |].
    + right. unfold L. rewrite (compact_log_params _ _ key) by done.
      destruct Hp as [->| ->]; [done|]. apply delete_delete_eq.
    + pose proof (compact_log_orphans l _ key Hwf Hid). set_solver.
    + intros HpL k Hk. pose proof (compact_log_orphans l _ key Hwf Hid k Hk) as ->%elem_of_singleton.
      apply orphans_elem in Hk as [Hk _]; [|by apply compact_log_wf].
      assert (Hm : m !! key = None).
      { rewrite <- HpL. unfold L. rewrite (compact_log_params _ _ key) by done. apply lookup_delete_eq. }
      assert (Hlp : params l !! key = None).
      { destruct Hp as [->| ->]; [done|apply lookup_delete_eq]. }
      destruct Hno. apply orphans_elem; [done|]. split; [|done].
      pose proof (items_length l Hwf) as Hlen.
      destruct (compacted_key_ids (sv_key_id v) 0 (items l) ltac:(lia) Hlen) as [_ Hn].
      fold L in Hn. rewrite Hn in Hk. eapply elem_of_sublist; [exact Hk|apply items_names_sublist].
  - rewrite (located_id_sign _ _ _ _ Hloc'), (located_id_sign _ _ _ _ Hloc).
    pose proof (items_length l Hwf) as Hlen.
    destruct (compacted_key_ids (sv_key_id v) 0 (items l) ltac:(lia) Hlen) as [_ Hn].
    fold L in Hn. rewrite Hn. split; intros Hk Hin; apply Hk.
    + destruct (params l !! key) as [x|] eqn:Hx.
      * apply params_item in Hx as (y & Hy & Hkv); [|done]. injection Hkv as <- _.
        by apply list_elem_of_fmap_2.
      * destruct Hno. by apply orphans_elem.
    + eapply elem_of_sublist; [exact Hin|apply items_names_sublist].
  - unfold room, region_end. simpl. unfold REGION_HEADER_SIZE.
    pose proof (compacted_size (sv_key_id v) 0 (items l)) as Hc. fold L in Hc.
    pose proof (items_size_le l Hwf). pose proof (st_end _ _ _ Hst) as He.
    unfold log_start, REGION_HEADER_SIZE in He. lia.
Qed.
End space.

(** The space that [set_space] asks for. *)
Definition needed (v : set_vars) (klen vlen : Z) : Z :=
  if sv_key_id v <? 0 then ENTRY_SIZE vlen + ENTRY_SIZE klen else ENTRY_SIZE vlen.

Lemma entry_size_range n : 0 <= n <= MAX_VALUE_LEN -> 4 <= ENTRY_SIZE n < 2 ^ 17.
Proof.
  unfold MAX_VALUE_LEN. intros ?. rewrite entry_size_eq by lia. pose proof (round4_range n). lia.
Qed.

Section steps.
Context `{FlashOk D}.
Implicit Types (w : world D).

(** What a step of [sysparam_set_data] leaves when it goes on. *)
Record stepped (key : list Z) (m : gmap (list Z) (list Z * bool)) (o : gset (list Z))
    (w0 w : world D) (v0 v : set_vars) (l : list log_entry) : Prop := {
  sp_prepared : prepared key m o w v l;
  sp_sign : (sv_key_id v <? 0) = true <-> (sv_key_id v0 <? 0) = true;
  sp_live : live w = live w0;
  sp_sem : sem_taken (info w) = sem_taken (info w0)
}.

(** For a new key the context has counted the unused keys of the log, or comes
    from a compaction. *)
Definition counted (v : set_vars) (l : list log_entry) : Prop :=
  (sv_key_id v <? 0) = true ->
  unused_keys (sv_ctx v) = s32 (balance l) \/ unused_keys (sv_ctx v) = 0.

Lemma located_ctx key v i l c :
  located key v i l -> max_key_id c = last_id l ->
  located key {| sv_ctx := c; sv_key_id := sv_key_id v; sv_old := sv_old v |} i l.
Proof. intros [Hk Ho] Hc. split; simpl; [|done]. destruct Hk as [(?&?&_)|?]; [by left|by right]. Qed.

Lemma located_info key v i i' l :
  located key v i l -> cur_base i' = cur_base i -> located key v i' l.
Proof. intros [Hk Ho] Hc. split; [done|]. unfold log_start in *. by rewrite Hc. Qed.

Lemma set_space_room w v klen vlen l :
  store (dev w) (info w) l -> 0 <= klen <= MAX_KEY_LEN -> 0 <= vlen <= MAX_VALUE_LEN ->
  needed v klen vlen <= room (info w) ->
  set_space v klen vlen w = Some ((SYSPARAM_OK, v), w).
Proof.
  intros Hst Hk Hv Hn. unfold set_space. rewrite (bind_run _ _ _ (info w) w) by done.
  rewrite (free_space_room _ _ _ Hst). unfold needed in Hn.
  pose proof (entry_size_range vlen Hv). pose proof (entry_size_range klen Hk).
  rewrite u32_small by lia.
  destruct (sv_key_id v <? 0).
  - by destruct (Z.ltb_spec (room (info w)) (ENTRY_SIZE vlen + ENTRY_SIZE klen)); [lia|].
  - by destruct (Z.ltb_spec (room (info w)) (ENTRY_SIZE vlen)); [lia|].
Qed.

Lemma set_space_spec key m o w v l klen vlen :
  prepared key m o w v l -> ctx_in (info w) (sv_ctx v) l -> counted v l ->
  0 <= klen <= MAX_KEY_LEN -> 0 <= vlen <= MAX_VALUE_LEN ->
  (key ∈ orphans l -> needed v klen vlen <= room (info w)) ->
  exists st w' v' l', set_space v klen vlen w = Some ((st, v'), w') /\
    stepped key m o w w' v v' l' /\
    ((st = SYSPARAM_OK /\ needed v klen vlen <= room (info w') /\ counted v' l') \/
     st = SYSPARAM_ERR_FULL).
Proof.
  intros Hpr Hctx Hco Hk Hv Hno. pose proof Hpr as [Hal Hst Hh Hwf Hloc Hp Ho Hex].
  destruct (Z.le_gt_cases (needed v klen vlen) (room (info w))) as [Hr|Hr].
  { do 4 eexists. split; [by eapply set_space_room|]. split; [by split|]. auto. }
  assert (Hno' : key ∉ orphans l) by (intros Hin; specialize (Hno Hin); lia). clear Hno.
  unfold set_space. rewrite (bind_run _ _ _ (info w) w) by done.
  rewrite (free_space_room _ _ _ Hst).
  pose proof (entry_size_range vlen Hv). pose proof (entry_size_range klen Hk).
  rewrite u32_small by lia.
  fold (needed v klen vlen). destruct (Z.ltb_spec (room (info w)) (needed v klen vlen)); [|lia].
  destruct (rescan_spec w l (sv_ctx v) Hst Hwf Hctx) as (st & c & i' & E & Hi & Hmax & Hun).
  rewrite (bind_run _ _ _ _ _ E). set (w1 := World (dev w) i' (allocs w) (live w)) in *.
  set (v1 := {| sv_ctx := c; sv_key_id := sv_key_id v; sv_old := sv_old v |}).
  assert (Hst1 : store (dev w1) i' l).
  { destruct Hi as [->|[-> He]]; [done|]. by apply store_force. }
  assert (Hpr1 : prepared key m o w1 v1 l).
  { split; simpl; auto.
    - destruct Hi as [->|[-> He]]; [done|]. by apply headers_force.
    - apply located_ctx; [|done]. eapply located_info; [exact Hloc|]. by destruct Hi as [->|[-> _]]. }
  assert (Hroom : room i' = room (info w)) by (by destruct Hi as [->|[-> _]]).
  assert (Hsem : sem_taken i' = sem_taken (info w)) by (by destruct Hi as [->|[-> _]]).
  destruct (set_compact_spec key m o w1 v1 l Hpr1 Hno')
    as (w2 & v2 & l2 & E2 & Hpr2 & Ho2 & Hsign & Hu2 & Hm2 & Hr2 & Hl2 & Hs2).
  assert (Hcase : exists w' v' l', (if needed v klen vlen <=? u32 (room (info w) + compactable c)
      then set_compact v1 else if 0 <? unused_keys c then set_compact v1
      else mret (SYSPARAM_OK, v1)) w1 = Some ((SYSPARAM_OK, v'), w') /\
      stepped key m o w w' v v' l' /\ counted v' l').
  { assert (Hc : exists w' v' l', set_compact v1 w1 = Some ((SYSPARAM_OK, v'), w') /\
      stepped key m o w w' v v' l' /\ counted v' l').
    { exists w2, v2, l2. split; [done|].
      split; [split; [done|done|done|by rewrite Hs2]|intros _; by right]. }
    destruct (_ <=? _); [done|]. destruct (0 <? _); [done|].
    exists w1, v1, l. split; [done|]. split; [by split|]. intros _. by left. }
  destruct Hcase as (w3 & v3 & l3 & E3 & Hsp & Hco3).
  rewrite (bind_run _ _ _ _ _ E3). cbn [is_err].
  rewrite (bind_run _ _ _ (info w3) w3) by done.
  pose proof Hsp as [[_ Hst3 _ _ _ _ _ _] _ _ _].
  rewrite (free_space_room _ _ _ Hst3). fold (needed v klen vlen).
  destruct (Z.ltb_spec (room (info w3)) (needed v klen vlen)).
  - exists SYSPARAM_ERR_FULL, w3, v3, l3. auto.
  - exists SYSPARAM_OK, w3, v3, l3. split; [done|]. split; [done|]. left. auto.
Qed.

Lemma new_key_not_orphan key v i l :
  located key v i l -> (sv_key_id v <? 0) = true -> key ∉ orphans l.
Proof.
  intros Hloc Hs Hin. apply (located_id_sign _ _ _ _ Hloc) in Hs. unfold orphans in Hin. set_solver.
Qed.

Lemma needed_sign v v' klen vlen :
  ((sv_key_id v' <? 0) = true <-> (sv_key_id v <? 0) = true) -> needed v' klen vlen = needed v klen vlen.
Proof.
  unfold needed. destruct (sv_key_id v' <? 0), (sv_key_id v <? 0); naive_solver.
Qed.

(** Compaction frees a key id when some key has no value. *)
Lemma balance_frees d i l :
  store d i l -> wf_log l -> 0 < s32 (balance l) -> Z.of_nat (length (items l)) < MAX_KEY_ID.
Proof.
  intros Hst Hwf Hb. pose proof (keys_length l Hwf). pose proof (items_values_length l Hwf).
  pose proof (balance_counts l). pose proof (balance_bound l). pose proof (lsize_nonneg l).
  pose proof (store_bounds _ _ _ Hst) as (?&?&?&?&[??]&Hfit).
  unfold log_start, region_end, REGION_HEADER_SIZE in *. rewrite s32_small in Hb by lia. lia.
Qed.

Lemma set_ids_spec key m o w v l klen vlen :
  prepared key m o w v l -> counted v l -> needed v klen vlen <= room (info w) ->
  exists st w' v' l', set_ids v w = Some ((st, v'), w') /\ stepped key m o w w' v v' l' /\
    ((st = SYSPARAM_OK /\ needed v' klen vlen <= room (info w') /\
        ((sv_key_id v' <? 0) = true -> last_id l' < MAX_KEY_ID)) \/ st = SYSPARAM_ERR_FULL).
Proof.
  intros Hpr Hco Hn. pose proof Hpr as [Hal Hst Hh Hwf Hloc Hp Ho Hex]. unfold set_ids.
  destruct (sv_key_id v <? 0) eqn:Hs; cbn [andb].
  2:{ exists SYSPARAM_OK, w, v, l. split; [done|]. split; [by split|]. left. split_and!; auto. congruence. }
  assert (Hmx : max_key_id (sv_ctx v) = last_id l).
  { destruct Hloc as [[(_&_&?)|(e & _ & _ & He)] _]; [done|]. pose proof (e_id_range e).
    apply Z.ltb_lt in Hs. lia. }
  rewrite Hmx. destruct (Z.leb_spec MAX_KEY_ID (last_id l)).
  2:{ exists SYSPARAM_OK, w, v, l. split; [done|]. split; [by split|]. left. split_and!; auto. }
  destruct (Z.ltb_spec 0 (unused_keys (sv_ctx v))) as [Hu|Hu].
  2:{ exists SYSPARAM_ERR_FULL, w, v, l. split; [done|]. split; [by split|]. by right. }
  pose proof (new_key_not_orphan _ _ _ _ Hloc Hs) as Hno.
  destruct (set_compact_spec key m o w v l Hpr Hno)
    as (w2 & v2 & l2 & E2 & Hpr2 & Ho2 & Hsign & Hu2 & Hm2 & Hr2 & Hl2 & Hs2).
  exists SYSPARAM_OK, w2, v2, l2. split; [done|]. split; [by split|]. left.
  rewrite (needed_sign v v2) by done. split_and!; [done|lia|]. intros Hsg.
  destruct Hpr2 as [_ _ _ _ [[(_&_&<-)|(e & _ & _ & He)] _] _ _ _].
  - rewrite Hm2. apply (balance_frees _ _ _ Hst Hwf). destruct (Hco Hs); lia.
  - pose proof (e_id_range e). apply Z.ltb_lt in Hsg. lia.
Qed.

(** With room left the store is consistent: nothing is forced. *)
Lemma set_forced_spec w v l :
  store (dev w) (info w) l -> 0 < room (info w) -> set_forced v w = Some ((SYSPARAM_OK, v), w).
Proof.
  intros Hst Hr. unfold set_forced. rewrite (bind_run _ _ _ (info w) w) by done.
  pose proof (st_force _ _ _ Hst) as Hf. unfold room in Hr.
  destruct (force_compact (info w)); [|done]. specialize (Hf eq_refl). lia.
Qed.
End steps.

(** ** Appending the entries and deleting the old value *)

Section append.
Context `{FlashOk D}.
Implicit Types (w : world D).

Lemma init_write_context_spec w :
  exists st ctx, init_write_context w = Some ((st, ctx), w) /\ addr ctx = end_addr (info w).
Proof.
  unfold init_write_context. rewrite (bind_run _ _ _ (info w) w) by done.
  cbn [addr set_addr context_zero]. unfold mbind, st_bind, read.
  destruct (flash_read (dev w) (end_addr (info w)) ENTRY_HEADER_SIZE) as [r bs].
  destruct (flash_op_ok r); eauto.
Qed.

(** A new entry at the end of a mounted log. *)
Lemma mounted_append w l bits payload n :
  allocs w = [] -> store (dev w) (info w) l -> headers (dev w) (info w) -> 0 <= bits < 2 ^ 14 ->
  n = Z.of_nat (length payload) -> n <= MAX_VALUE_LEN -> Forall is_byte payload ->
  let e := new_entry bits payload in
  ENTRY_SIZE n <= room (info w) ->
  exists w', _write_entry (end_addr (info w)) bits payload n w = Some (SYSPARAM_OK, w') /\
    allocs w' = [] /\ live w' = live w /\ store (dev w') (info w') (l ++ [e]) /\
    headers (dev w') (info w') /\ sem_taken (info w') = sem_taken (info w) /\
    room (info w') = room (info w) - ENTRY_SIZE n /\
    end_addr (info w') = u32 (end_addr (info w) + ENTRY_SIZE n) /\
    cur_base (info w') = cur_base (info w).
Proof.
  intros Hal Hst Hh Hbits Hn Hmax Hby e Hroom.
  assert (Hes : ENTRY_SIZE n = esize e).
  { rewrite Hn. apply (esize_entry e). unfold payload_len, e, new_entry. simpl. lia. }
  rewrite Hes in *. unfold room in Hroom.
  destruct (append_entry_spec w l bits payload n Hal Hst Hbits Hn Hmax Hby) as (d' & E & Hst' & Hso).
  { fold e. lia. }
  fold e in E, Hst', Hso. eexists. split; [exact E|]. simpl.
  pose proof (store_bounds _ _ _ Hst) as (?&?&?&?&[??]&Hb).
  pose proof (st_end _ _ _ Hst) as He. pose proof (lsize_nonneg l). pose proof (esize_pos e).
  unfold log_start, region_end, REGION_HEADER_SIZE in *.
  split_and!; auto.
  - apply headers_end. eapply headers_frame; [apply Hst|exact Hh|exact Hso|..];
      unfold log_start, region_end, REGION_HEADER_SIZE; lia.
  - unfold room, region_end. simpl. lia.
  - by rewrite u32_small by lia.
Qed.

Lemma set_end_same w l : store (dev w) (info w) l ->
  set_info (set_end_addr (end_addr (info w))) w = Some ((), w).
Proof. intros _. destruct w as [d [] a n]. done. Qed.

Lemma write_value_spec w l e (bin : bool) val vlen :
  allocs w = [] -> store (dev w) (info w) l -> headers (dev w) (info w) ->
  vlen = Z.of_nat (length val) -> vlen <= MAX_VALUE_LEN -> Forall is_byte val ->
  ENTRY_SIZE vlen <= room (info w) -> 0 <= e < 4096 ->
  exists w', (status ← _write_entry (end_addr (info w))
      (u16 (Z.lor (Z.lor e ENTRY_FLAG_VALUE) (if bin then ENTRY_FLAG_BINARY else 0))) val vlen;
    if is_err status then mret status
    else set_info (set_end_addr (u32 (end_addr (info w) + ENTRY_SIZE vlen)));; mret status
    : ST (world D) sysparam_status_t) w =
      Some (SYSPARAM_OK, w') /\
    allocs w' = [] /\ live w' = live w /\ store (dev w') (info w') (l ++ [value_entry e bin val]) /\
    headers (dev w') (info w') /\ sem_taken (info w') = sem_taken (info w) /\
    cur_base (info w') = cur_base (info w).
Proof.
  intros Hal Hst Hh Hn Hmax Hby Hroom He.
  pose proof (value_bits_range e He bin) as Hbits. unfold value_bits in Hbits.
  rewrite u16_small by lia.
  destruct (mounted_append w l _ val vlen Hal Hst Hh Hbits Hn Hmax Hby Hroom)
    as (w' & E & Hal' & Hl' & Hst' & Hh' & Hs' & _ & Hend & Hc').
  exists w'. rewrite (bind_run _ _ _ _ _ E). cbn [is_err]. rewrite <- Hend.
  rewrite (bind_run _ _ _ () w') by (by eapply set_end_same). by split_and!.
Qed.
End append.

Lemma named_after_insert l l' key x o :
  wf_log l' -> params l' = <[key:=x]> (params l) -> wf_log l ->
  (forall k, k ∈ map le_payload (keys l') -> k = key \/ k ∈ map le_payload (keys l)) ->
  orphans l ⊆ {[key]} ∪ o -> orphans l' ⊆ o ∖ {[key]}.
Proof.
  intros Hwf' Hp Hwf Hn Ho k. rewrite orphans_elem by done. rewrite Hp. intros [Hk Hd].
  destruct (decide (k = key)) as [->|Hne]; [by rewrite lookup_insert_eq in Hd|].
  rewrite lookup_insert_ne in Hd by done.
  assert (k ∈ orphans l); [|set_solver]. apply orphans_elem; [done|]. split; [|done].
  by destruct (Hn k Hk).
Qed.

Section finish.
Context `{FlashOk D}.
Implicit Types (w : world D).

(** What [sysparam_set_data] leaves behind: the parameters [m] and no more
    deleted names than [o]. *)
Record left_with (m : gmap (list Z) (list Z * bool)) (o : gset (list Z)) (w0 w : world D) : Prop := {
  lw_represents : exists o', represents m o' w /\ o' ⊆ o;
  lw_allocs : allocs w = [];
  lw_live : live w = live w0;
  lw_sem : sem_taken (info w) = sem_taken (info w0)
}.

Lemma stored_left m o w0 w l :
  allocs w = [] -> live w = live w0 -> sem_taken (info w) = sem_taken (info w0) ->
  store (dev w) (info w) l -> headers (dev w) (info w) -> wf_log l -> params l = m ->
  orphans l ⊆ o -> left_with m o w0 w.
Proof. intros. split; auto. exists (orphans l). split; [|done]. by exists l. Qed.

(** Appending a value for a key of the log that has none. *)
Lemma append_value_orphans l e bin val o :
  wf_log l -> e ∈ keys l -> params l !! le_payload e = None -> orphans l ⊆ {[le_payload e]} ∪ o ->
  orphans (l ++ [value_entry (e_id e) bin val]) ⊆ o ∖ {[le_payload e]}.
Proof.
  intros Hwf He Hf Ho. eapply named_after_insert; [by apply append_value_wf|by apply append_value_params|
    done| |done].
  intros k. rewrite append_value_keys. auto.
Qed.

Lemma set_append_new key m o w v l (bin : bool) val klen vlen :
  prepared key m o w v l -> valid_key key -> klen = Z.of_nat (length key) ->
  vlen = Z.of_nat (length val) -> vlen <= MAX_VALUE_LEN -> Forall is_byte val ->
  needed v klen vlen <= room (info w) -> sv_key_id v = -1 -> last_id l < MAX_KEY_ID ->
  exists w', set_append v key klen val vlen (if bin then ENTRY_FLAG_BINARY else 0) w =
      Some (SYSPARAM_OK, w') /\ left_with (<[key:=(val, bin)]> m) (o ∖ {[key]}) w w'.
Proof.
  intros [Hal Hst Hh Hwf Hloc Hp Ho Hex] [Hkb Hkl] Hk Hv Hvl Hby Hn Hid Hlast.
  unfold set_append. destruct (init_write_context_spec w) as (st & c & E & Ha).
  rewrite (bind_run _ _ _ _ _ E), Ha, Hid. cbn [Z.ltb Z.compare].
  assert (Hname : (key ∉ map le_payload (keys l)) /\ max_key_id (sv_ctx v) = last_id l).
  { destruct Hloc as [[(_&?&?)|(e & _ & _ & He)] _]; [done|]. pose proof (e_id_range e). lia. }
  destruct Hname as [Hname ->]. destruct (last_id_keys l Hwf) as [Hlr _].
  unfold needed in Hn. rewrite Hid in Hn. cbn [Z.ltb Z.compare] in Hn.
  unfold MAX_KEY_ID, MAX_VALUE_LEN, MAX_KEY_LEN in *.
  pose proof (entry_size_range vlen ltac:(unfold MAX_VALUE_LEN; lia)).
  pose proof (entry_size_range klen ltac:(unfold MAX_VALUE_LEN; lia)).
  rewrite u16_small by lia. set (n := last_id l + 1).
  destruct (mounted_append w l n key klen) as (w1 & E1 & Hal1 & Hl1 & Hst1 & Hh1 & Hs1 & Hr1 & He1 & Hc1);
    auto; try (unfold MAX_VALUE_LEN; lia).
  { eapply Forall_impl; [exact Hkb|]. by intros ? []. }
  change (new_entry n key) with (key_entry n key) in Hst1.
  assert (Hkw : wf_log (l ++ [key_entry n key])) by (apply append_key_wf; auto; unfold MAX_KEY_ID, n; lia).
  assert (Hkp : params (l ++ [key_entry n key]) = params l)
    by (apply append_key_params; auto; unfold MAX_KEY_ID, n; lia).
  assert (Hkk : keys (l ++ [key_entry n key]) = keys l ++ [key_entry n key])
    by (apply append_key_keys; auto; unfold MAX_KEY_ID, n; lia).
  assert (Hki : e_id (key_entry n key) = n) by (apply key_entry_kind; lia).
  rewrite bind_assoc, (bind_run _ _ _ _ _ E1). unfold mbind at 1, st_bind at 1, mret at 1, st_ret at 1.
  cbn [is_err]. rewrite <- He1.
  destruct (write_value_spec w1 (l ++ [key_entry n key]) n bin val vlen)
    as (w2 & E2 & Hal2 & Hl2 & Hst2 & Hh2 & Hs2 & Hc2); auto; try (unfold MAX_VALUE_LEN; lia).
  exists w2. split; [exact E2|].
  assert (Hke : key_entry n key ∈ keys (l ++ [key_entry n key])) by (rewrite Hkk; set_solver).
  assert (Hfree : params (l ++ [key_entry n key]) !! le_payload (key_entry n key) = None).
  { rewrite Hkp. by apply params_None. }
  assert (Hst3 : store (dev w2) (info w2) ((l ++ [key_entry n key]) ++
    [value_entry (e_id (key_entry n key)) bin val])) by (by rewrite Hki).
  eapply stored_left; [done|congruence|congruence|exact Hst3|done|..].
  - by apply append_value_wf.
  - rewrite append_value_params by done. simpl. rewrite Hkp.
    destruct Hp as [->| ->]; [done|]. apply insert_delete_eq.
  - apply (append_value_orphans _ (key_entry n key)); auto. simpl. intros k.
    rewrite orphans_elem by done. rewrite Hkk, Hkp, map_app, elem_of_app.
    intros [[Hin|Hin] Hd]; [|set_solver]. apply Ho, orphans_elem; auto.
Qed.

Lemma set_append_value key m o w v l (bin : bool) val klen vlen e :
  prepared key m o w v l -> e ∈ keys l -> le_payload e = key -> sv_key_id v = e_id e ->
  vlen = Z.of_nat (length val) -> vlen <= MAX_VALUE_LEN -> Forall is_byte val ->
  needed v klen vlen <= room (info w) ->
  exists w', set_append v key klen val vlen (if bin then ENTRY_FLAG_BINARY else 0) w =
      Some (SYSPARAM_OK, w') /\
    allocs w' = [] /\ live w' = live w /\
    store (dev w') (info w') (l ++ [value_entry (e_id e) bin val]) /\
    headers (dev w') (info w') /\ sem_taken (info w') = sem_taken (info w) /\
    cur_base (info w') = cur_base (info w).
Proof.
  intros [Hal Hst Hh Hwf Hloc Hp Ho Hex] He Hk Hid Hv Hvl Hby Hn.
  unfold set_append. destruct (init_write_context_spec w) as (st & c & E & Ha).
  rewrite (bind_run _ _ _ _ _ E), Ha. unfold needed in Hn. rewrite Hid in *.
  pose proof (e_id_range e). destruct (Z.ltb_spec (e_id e) 0); [lia|].
  unfold mbind at 1, st_bind at 1, mret at 1, st_ret at 1. cbn [is_err].
  by apply write_value_spec.
Qed.

Lemma delete_old_spec key m o w v l (bin : bool) val klen vlen :
  prepared key m o w v l -> valid_key key -> klen = Z.of_nat (length key) ->
  vlen = Z.of_nat (length val) -> vlen <= MAX_VALUE_LEN -> Forall is_byte val ->
  needed v klen vlen <= room (info w) ->
  ((sv_key_id v <? 0) = true -> last_id l < MAX_KEY_ID) ->
  exists w', (status ← set_append v key klen val vlen (if bin then ENTRY_FLAG_BINARY else 0);
      if is_err status then mret status else set_delete_old status (sv_old v)
      : ST (world D) sysparam_status_t) w = Some (SYSPARAM_OK, w') /\
    left_with (<[key:=(val, bin)]> m) (o ∖ {[key]}) w w'.
Proof.
  intros Hpr Hkey Hk Hv Hvl Hby Hn Hlast. pose proof Hpr as [Hal Hst Hh Hwf Hloc Hp Ho Hex].
  destruct Hloc as [[(Hid & Hname & _)|(e & He & Hke & Hid)] Hold].
  { destruct (set_append_new key m o w v l bin val klen vlen) as (w' & E & Hw'); auto.
    { apply Hlast. by rewrite Hid. }
    exists w'. split; [|done]. rewrite (bind_run _ _ _ _ _ E). cbn [is_err].
    destruct Hold as [[-> _]|(A & ve & B & _ & _ & Hi & _)]; [done|].
    pose proof (e_id_range ve). lia. }
  destruct (set_append_value key m o w v l bin val klen vlen e) as
    (w1 & E1 & Hal1 & Hl1 & Hst1 & Hh1 & Hs1 & Hc1); auto.
  rewrite (bind_run _ _ _ _ _ E1). cbn [is_err]. unfold set_delete_old. subst key.
  destruct Hold as [[-> Hfree]|(A & ve & B & -> & Hve & Hvi & ->)].
  - exists w1. split; [done|].
    eapply stored_left; [done|done|done|exact Hst1|done|by apply append_value_wf| |].
    + rewrite append_value_params by done. destruct Hp as [->| ->]; [done|]. apply insert_delete_eq.
    + by apply append_value_orphans.
  - pose proof (store_bounds _ _ _ Hst) as (?&_). pose proof (lsize_nonneg A).
    unfold log_start, REGION_HEADER_SIZE.
    destruct (Z.eqb_spec (cur_base (info w) + 8 + lsize A) 0); [lia|].
    rewrite <- app_assoc in Hst1. change ((ve :: B) ++ ?x) with (ve :: (B ++ x)) in Hst1.
    destruct (delete_entry_spec w1 _ _ _ Hst1) as (d' & E2 & Hst2 & Hso).
    unfold log_start, REGION_HEADER_SIZE in E2. rewrite Hc1 in E2. rewrite E2.
    eexists. split; [reflexivity|].
    change (kill ve :: B ++ ?x) with ((kill ve :: B) ++ x) in Hst2. rewrite app_assoc in Hst2.
    assert (Hid' : e_id e = e_id ve) by congruence.
    pose proof (kill_wf A ve B Hwf Hve) as Hkw.
    pose proof (kill_params A ve B Hwf Hve e He Hid') as Hkp.
    assert (He' : e ∈ keys (A ++ kill ve :: B)) by (by rewrite kill_keys).
    assert (Hfree : params (A ++ kill ve :: B) !! le_payload e = None)
      by (rewrite Hkp; apply lookup_delete_eq).
    eapply stored_left; [done|done|done|exact Hst2| |by apply append_value_wf| |].
    + simpl. eapply headers_frame; [apply Hst1|exact Hh1|exact Hso|lia|].
      pose proof (store_bounds _ _ _ Hst1) as (_&_&_&_&_&Hb). rewrite lsize_app, lsize_cons in Hb.
      pose proof (lsize_nonneg (B ++ [value_entry (e_id e) bin val])). lia.
    + rewrite append_value_params, Hkp, insert_delete_eq by done.
      destruct Hp as [->| ->]; [done|]. apply insert_delete_eq.
    + apply append_value_orphans; auto. intros k. rewrite orphans_elem by done.
      rewrite kill_keys, Hkp by done. intros [Hin Hd].
      destruct (decide (k = le_payload e)) as [->|Hne]; [set_solver|].
      rewrite lookup_delete_ne in Hd by done. apply Ho, orphans_elem; auto.
Qed.
End finish.

(** ** The whole operation *)

Section set_data.
Context `{FlashOk D}.
Implicit Types (w : world D).

(** The possible outcomes of storing a value: done, or the region is full, and
    then the old value may have been dropped by the compaction that was tried. *)
Definition set_outcome (key : list Z) (x : list Z * bool) (m : gmap (list Z) (list Z * bool))
    (o : gset (list Z)) (w : world D) (st : sysparam_status_t) (w' : world D) : Prop :=
  (st = SYSPARAM_OK /\ left_with (<[key:=x]> m) (o ∖ {[key]}) w w') \/
  (st = SYSPARAM_ERR_FULL /\
    (left_with m o w w' \/ (is_Some (m !! key) /\ left_with (delete key m) ({[key]} ∪ o) w w'))).

Lemma prepared_full key m o w0 w v l :
  prepared key m o w v l -> live w = live w0 -> sem_taken (info w) = sem_taken (info w0) ->
  left_with m o w0 w \/ (is_Some (m !! key) /\ left_with (delete key m) ({[key]} ∪ o) w0 w).
Proof.
  intros [Hal Hst Hh Hwf Hloc Hp Ho Hex] Hl Hs.
  destruct (m !! key) as [x|] eqn:Hx.
  - destruct Hp as [Hp|Hp].
    + left. eapply stored_left; eauto.
    + right. split; [by eexists|]. eapply stored_left; eauto.
  - assert (params l = m) by (destruct Hp as [->| ->]; [done|by apply delete_id]).
    left. eapply stored_left; eauto.
Qed.

Lemma left_with_trans m o w0 w w' :
  left_with m o w w' -> live w = live w0 -> sem_taken (info w) = sem_taken (info w0) ->
  left_with m o w0 w'.
Proof. intros [? ? ? ?] ??. split; congruence || done. Qed.

Lemma set_store_spec key m o w v l (bin : bool) val klen vlen :
  prepared key m o w v l -> ctx_in (info w) (sv_ctx v) l -> counted v l ->
  valid_key key -> klen = Z.of_nat (length key) ->
  vlen = Z.of_nat (length val) -> vlen <= MAX_VALUE_LEN -> Forall is_byte val ->
  (key ∈ orphans l -> needed v klen vlen <= room (info w)) ->
  exists st w', set_store v key klen val vlen (if bin then ENTRY_FLAG_BINARY else 0) w = Some (st, w') /\
    set_outcome key (val, bin) m o w st w'.
Proof.
  intros Hpr Hctx Hco Hkey Hk Hv Hvl Hby Hno. pose proof Hkey as [_ Hkl].
  destruct (set_space_spec key m o w v l klen vlen Hpr Hctx Hco ltac:(unfold MAX_KEY_LEN in *; lia) ltac:(lia) Hno)
    as (st1 & w1 & v1 & l1 & E1 & [Hpr1 Hsg1 Hl1 Hs1] & Hcase).
  unfold set_store. rewrite (bind_run _ _ _ _ _ E1).
  destruct Hcase as [(-> & Hn1 & Hco1)| ->]; cbn [is_err].
  2:{ do 2 eexists. split; [reflexivity|]. right. split; [done|]. by eapply prepared_full. }
  rewrite <- (needed_sign v v1) in Hn1 by done.
  destruct (set_ids_spec key m o w1 v1 l1 klen vlen Hpr1 Hco1 Hn1)
    as (st2 & w2 & v2 & l2 & E2 & [Hpr2 Hsg2 Hl2 Hs2] & Hcase).
  rewrite (bind_run _ _ _ _ _ E2).
  destruct Hcase as [(-> & Hn2 & Hid)| ->]; cbn [is_err].
  2:{ do 2 eexists. split; [reflexivity|]. right. split; [done|].
      eapply prepared_full; [exact Hpr2|congruence|congruence]. }
  pose proof Hpr2 as [_ Hst2 _ _ _ _ _ _].
  pose proof (entry_size_range vlen ltac:(lia)).
  pose proof (entry_size_range klen ltac:(unfold MAX_KEY_LEN, MAX_VALUE_LEN in *; lia)).
  assert (0 < room (info w2)).
  { unfold needed in Hn2. destruct (sv_key_id v2 <? 0); lia. }
  rewrite (bind_run _ _ _ _ _ (set_forced_spec w2 v2 l2 Hst2 ltac:(done))). cbn [is_err].
  destruct (delete_old_spec key m o w2 v2 l2 bin val klen vlen) as (w3 & E3 & Hw3); auto.
  exists SYSPARAM_OK, w3. split; [exact E3|]. left. split; [done|].
  eapply left_with_trans; [exact Hw3|congruence|congruence].
Qed.

Lemma binary_flag_eq e (bin : bool) :
  0 <= le_flags e -> (Z.land (le_flags e) ENTRY_FLAG_BINARY =? (if bin then ENTRY_FLAG_BINARY else 0)) =
    Bool.eqb (e_binary e) bin.
Proof.
  intros Hf. unfold e_binary.
  assert (Z.land (le_flags e) ENTRY_FLAG_BINARY = 0 \/
    Z.land (le_flags e) ENTRY_FLAG_BINARY = ENTRY_FLAG_BINARY) as [-> | ->].
  - change ENTRY_FLAG_BINARY with (2 ^ 12). destruct (Z.testbit (le_flags e) 12) eqn:Hb.
    + right. apply Z.bits_inj'; intros i Hi. rewrite Z.land_spec.
      destruct (Z.eq_dec i 12) as [->|]; [by rewrite Hb|].
      rewrite Z.pow2_bits_false by done. apply andb_false_r.
    + left. apply Z.bits_inj'; intros i Hi. rewrite Z.land_spec, Z.bits_0.
      destruct (Z.eq_dec i 12) as [->|]; [by rewrite Hb|].
      rewrite Z.pow2_bits_false by done. apply andb_false_r.
  - by destruct bin.
  - by destruct bin.
Qed.

Lemma set_same_spec w l v A ve B klen val vlen (bin : bool) :
  allocs w = [] -> store (dev w) (info w) l -> l = A ++ ve :: B ->
  scanned (info w) (sv_ctx v) (A ++ [ve]) -> vlen = Z.of_nat (length val) ->
  set_same v klen val vlen (if bin then ENTRY_FLAG_BINARY else 0) w =
    Some (if Bool.eqb (e_binary ve) bin && bool_decide (le_payload ve = val)
          then Some SYSPARAM_OK else None, w).
Proof.
  intros Hal Hst -> Hsc ->. unfold set_same. pose proof (scanned_at _ _ _ _ Hsc) as [_ ->].
  destruct (store_entry_ok _ _ _ ve Hst (elem_of_mid _ _ _)) as (Hf & _). cbn [idflags len hdr].
  rewrite binary_flag_eq by lia. destruct (Bool.eqb (e_binary ve) bin); cbn [andb]; [|done].
  destruct (Z.eqb_spec (payload_len ve) (Z.of_nat (length val))) as [Hl|Hl].
  2:{ rewrite bool_decide_false; [done|]. intros <-. done. }
  rewrite (bind_run _ _ _ true w) by (destruct (klen <? _); [by apply realloc_all|done]). cbn [negb].
  rewrite (bind_run _ _ _ _ _ (read_payload_spec _ w A ve B (Z.of_nat (length val)) Hst Hsc ltac:(lia))). cbn [is_err].
  rewrite Nat2Z.id, firstn_all. unfold payload_len in Hl. rewrite firstn_all2 by lia.
  case_decide as Hd; [by rewrite bool_decide_true|by rewrite bool_decide_false].
Qed.

Lemma set_body_store m o w key val (bin : bool) :
  represents m o w -> allocs w = [] -> valid_key key -> val <> [] -> Forall is_byte val ->
  Z.of_nat (length val) <= MAX_VALUE_LEN ->
  (key ∈ o -> ENTRY_SIZE (Z.of_nat (length val)) <= room (info w)) ->
  exists st w', set_body key (strlen key) val (Z.of_nat (length val)) bin w = Some (st, w') /\
    set_outcome key (val, bin) m o w st w'.
Proof.
  intros (l & Hst & Hh & Hwf & <- & <-) Hal Hkey Hne Hby Hvl Hno. unfold set_body.
  destruct (set_find_spec w l key Hst Hwf Hkey) as (st & v & E & Hloc & Hcase).
  rewrite (bind_run _ _ _ _ _ E). pose proof (valid_key_strlen key Hkey) as ->.
  assert (Hv0 : (Z.of_nat (length val) =? 0) = false).
  { destruct val; [done|]. by apply Z.eqb_neq. }
  rewrite Hv0.
  assert (Hpr : prepared key (params l) (orphans l) w v l) by (split; auto; set_solver).
  destruct (params l !! key) as [[x b]|] eqn:Hx.
  - destruct Hcase as (-> & Hold & A & ve & B & Hl & Hsc & <- & <-). cbn [is_err].
    rewrite (proj2 (Z.eqb_neq _ _) Hold).
    rewrite (bind_run _ _ _ _ _ (set_same_spec w l v A ve B _ val _ bin Hal Hst Hl Hsc eq_refl)).
    destruct (Bool.eqb (e_binary ve) bin && bool_decide (le_payload ve = val)) eqn:Hsame.
    + do 2 eexists. split; [reflexivity|]. left. split; [done|].
      apply andb_prop in Hsame as [<-%Bool.eqb_prop <-%bool_decide_eq_true].
      rewrite insert_id by done. eapply stored_left; eauto.
      intros k Hk. apply elem_of_difference. split; [done|]. intros ->%elem_of_singleton.
      apply orphans_elem in Hk as [_ Hk]; [congruence|done].
    + eapply set_store_spec; eauto.
      * destruct Hpr as [? ? ? ? [Hlk Hlo] ? ? ?]. by split.
      * rewrite Hl. apply scanned_ctx_in with (k := A) (e := ve). done.
      * intros Hs. exfalso. apply (located_id_sign _ _ _ _ Hloc) in Hs.
        assert (Hp2 : params l !! key = None) by (by apply params_None). congruence.
      * intros Hin. apply orphans_elem in Hin as [_ Hin]; [congruence|done].
  - destruct Hcase as (-> & -> & Hctx & Hmx & Hu). cbn [is_err].
    eapply set_store_spec; eauto.
    + intros _. by left.
    + intros Hin. unfold needed. destruct (sv_key_id v <? 0) eqn:Hs; [|auto].
      destruct (new_key_not_orphan _ _ _ _ Hloc Hs Hin).
Qed.
End set_data.
