(* ===== verification/SysparamInit.v ===== *)
(** * sysparam_init and sysparam_create_area

    What [sysparam_create_area] writes is an empty store, and [sysparam_init]
    finds a store again from its region headers. *)

From stdpp Require Import sorting.
From S2P Require Import Prelude Flash Sysparam SysparamLog SysparamGet SysparamWrite SysparamStore.
From S2P Require Import SysparamCompact SysparamSet.
Local Open Scope Z_scope.

(** ** Decoding the region flags *)

Definition flags_of (n : Z) (second active : bool) : Z :=
  let flags := if second then Z.lor n REGION_FLAG_SECOND else n in
  if active then Z.lor flags REGION_FLAG_ACTIVE else flags.

Section flags.
Context (n : Z) (Hn : 0 <= n < 2 ^ 12).

Lemma n_land_mask : Z.land n REGION_MASK_SIZE = n.
Proof. change REGION_MASK_SIZE with (Z.ones 12). rewrite Z.land_ones by lia. by apply Z.mod_small. Qed.
Lemma n_land_second : Z.land n REGION_FLAG_SECOND = 0.
Proof. apply (land_low_high n 12 8); lia. Qed.
Lemma n_land_active : Z.land n REGION_FLAG_ACTIVE = 0.
Proof. apply (land_low_high n 12 4); lia. Qed.

Lemma flags_mask s a : Z.land (flags_of n s a) REGION_MASK_SIZE = n.
Proof.
  unfold flags_of. destruct s, a; rewrite ?Z.land_lor_distr_l, n_land_mask; try done; apply Z.lor_0_r || idtac.
  change (Z.lor (Z.lor n 0) 0 = n). by rewrite !Z.lor_0_r.
Qed.
Lemma flags_second s a : (Z.land (flags_of n s a) REGION_FLAG_SECOND =? 0) = negb s.
Proof. unfold flags_of. destruct s, a; by rewrite ?Z.land_lor_distr_l, n_land_second. Qed.
Lemma flags_active s a : (Z.land (flags_of n s a) REGION_FLAG_ACTIVE =? 0) = negb a.
Proof. unfold flags_of. destruct s, a; by rewrite ?Z.land_lor_distr_l, n_land_active. Qed.
Lemma flags_range s a : 0 <= flags_of n s a < 2 ^ 16.
Proof.
  unfold flags_of, REGION_FLAG_SECOND, REGION_FLAG_ACTIVE.
  destruct s, a; rewrite <- ?Z.lor_assoc.
  - change (Z.lor 0x8000 0x4000) with (Z.shiftl 12 12). rewrite lor_low_high by lia.
    change (Z.shiftl 12 12) with 49152. lia.
  - change 0x8000 with (Z.shiftl 8 12). rewrite lor_low_high by lia.
    change (Z.shiftl 8 12) with 32768. lia.
  - change 0x4000 with (Z.shiftl 4 12). rewrite lor_low_high by lia.
    change (Z.shiftl 4 12) with 16384. lia.
  - lia.
Qed.
End flags.

Lemma region_flags_eq ss a other active n :
  0 < ss -> 0 <= n < 2 ^ 12 ->
  (a + n * ss = other /\ 0 < n) \/ other + n * ss = a ->
  region_flags ss a other active = flags_of n (negb (a <? other)) active.
Proof.
  intros Hss Hn Hadj. unfold region_flags, flags_of.
  destruct (Z.ltb_spec a other); simpl.
  - replace ((other - a) / ss) with n; [by rewrite n_land_mask|].
    destruct Hadj as [[<- _]|]; [|nia]. replace (a + n * ss - a) with (n * ss) by lia.
    by rewrite Z.div_mul by lia.
  - replace ((a - other) / ss) with n; [by rewrite n_land_mask|].
    destruct Hadj as [[<- ?]|<-]; [nia|]. replace (other + n * ss - other) with (n * ss) by lia.
    by rewrite Z.div_mul by lia.
Qed.

Lemma region_hdr_decode ss a other active :
  0 <= region_flags ss a other active < 2 ^ 16 ->
  region_header_of (region_header_bytes (region_hdr ss a other active)) = region_hdr ss a other active.
Proof.
  intros Hf. unfold region_header_of, region_header_bytes. cbn [magic flags_size reserved region_hdr].
  rewrite take_app_length' by done.
  rewrite (drop_app_length' (le_bytes 4 SYSPARAM_MAGIC)) by done.
  rewrite take_app_length' by done. rewrite app_assoc, drop_app_length' by done.
  rewrite firstn_all2 by done. rewrite le2_val by lia. done.
Qed.

(** ** Finding the end of the log does not use the recorded end *)

Section init.
Context `{FlashOk D}.
Implicit Types (w : world D) (d : D) (i : sysparam_info).

Lemma find_loop_info fuel c m fv d i a k i' a' k' st c' :
  force_compact i = false -> cur_base i' = cur_base i -> region_size i' = region_size i ->
  find_entry_loop fuel c m fv (World d i a k) = Some ((st, c'), World d i a k) ->
  find_entry_loop fuel c m fv (World d i' a' k') = Some ((st, c'), World d i' a' k').
Proof.
  intros Hfo Hc Hr. revert c; induction fuel as [|fuel IH]; intros c; [done|].
  cbn [find_entry_loop]. unfold mbind, st_bind. cbn [get_info info].
  assert (next_entry i' c = next_entry i c) as -> by (unfold next_entry; by rewrite Hc, Hr).
  destruct (next_entry i c) as [x|x|].
  - unfold read. cbn [dev]. destruct (flash_read d x ENTRY_HEADER_SIZE) as [r bs].
    destruct (flash_op_ok r); [|unfold mret, st_ret; by intros [= <- <-]].
    set (c1 := set_entry (entry_header_of bs) (set_addr x c)).
    destruct (idflags (entry c1) =? 0xffff).
    { unfold mret, st_ret. destruct (find_done c1 m). by intros [= <- <-]. }
    destruct (entry_visit c1 m fv) as [[] c2]; [unfold mret, st_ret; by intros [= <- <-]|].
    apply IH.
  - unfold mret, st_ret. destruct (find_done (set_addr x c) m). by intros [= <- <-].
  - unfold mret, st_ret, set_info, st_modify. cbn [dev info allocs live].
    destruct (find_done c m). intros [= _ _ Hi]. by rewrite <- Hi in Hfo.
Qed.

Lemma find_log_end d i l i' a k :
  store d i l -> wf_log l -> cur_base i' = cur_base i -> region_size i' = region_size i ->
  exists c, _find_entry (set_addr (cur_base i) context_zero) ENTRY_ID_END false (World d i' a k) =
    Some ((SYSPARAM_OK, c), World d i' a k) /\ addr c = end_addr i.
Proof.
  intros Hst Hwf Hc Hr. set (i0 := set_force_compact false i).
  assert (Hst0 : store d i0 l) by (destruct Hst; by split).
  pose proof (find_entry_spec (set_addr (cur_base i) context_zero) ENTRY_ID_END false
    (World d i0 [] 0) [] l Hst0 (scanned_start i0)) as Hf.
  rewrite search_miss in Hf.
  2:{ rewrite Forall_forall. intros e He. unfold wanted. destruct (is_key e) eqn:Hke; [|done].
      rewrite (proj2 (Z.eqb_neq _ _)); [done|]. eapply wf_id_end; [done|]. by apply elem_of_keys. }
  destruct Hf as (c & E & [Ha _ _ _]). exists c. split; [|exact Ha].
  unfold _find_entry in *. rewrite (bind_run _ _ _ i0 (World d i0 [] 0)) in E by done.
  rewrite (bind_run _ _ _ i' (World d i' a k)) by done.
  replace (region_fuel i') with (region_fuel i0) by (unfold region_fuel; by rewrite Hr).
  by eapply find_loop_info; [| | |exact E].
Qed.

(** ** sysparam_init *)

Let ss := sector_size (sdk_flashchip (D:=D)).

(** The globals that [sysparam_init] sets up for a store with globals [i]. *)
Definition remounted i : sysparam_info := set_sem_taken 0 (set_force_compact false i).

Lemma init_regions_spec d i l i0 a k addr0 addr1 h0 :
  store d i l -> wf_log l ->
  (is_active h0 = true /\ addr0 = cur_base i /\ addr1 = alt_base i) \/
    (is_active h0 = false /\ addr0 = alt_base i /\ addr1 = cur_base i) ->
  init_regions addr0 addr1 (region_size i / ss) h0 (World d i0 a k) =
    Some (SYSPARAM_OK, World d (remounted i) a k).
Proof.
  intros Hst Hwf Hact. pose proof (st_geo _ _ _ Hst) as Hg. pose proof (geo_bounds _ Hg) as
    (?&?&?&?&?&?&[??]&?&Hdis). pose proof flash_chip_ok as [_ _ Hss _ _ _ _]. fold ss in Hss.
  pose proof (geo_size_al _ _ _ _ _ Hg) as Hal. fold ss in Hal. unfold region_end in *.
  assert (Hsz : u32 (region_size i / ss * ss) = region_size i).
  { rewrite Z.mul_comm, <- Z_div_exact_full_2 by lia. apply u32_small. lia. }
  unfold init_regions. fold ss. rewrite Hsz.
  set (i1 := set_force_compact false (set_end_addr (u32 (cur_base i + region_size i))
    (set_bases (cur_base i) (alt_base i) (end_addr i0) (set_region_size (region_size i) i0)))).
  assert (E : forall {B} (f : unit -> ST (world D) B),
    (set_info (set_region_size (region_size i)) ≫= (fun _ =>
     set_info (fun j => if is_active h0 then set_bases addr0 addr1 (end_addr j) j
                        else set_bases addr1 addr0 (end_addr j) j) ≫= (fun _ =>
     set_info (fun j => set_force_compact false (set_end_addr (u32 (cur_base j + region_size j)) j))
     ≫= f))) (World d i0 a k) = f () (World d i1 a k)).
  { intros. unfold mbind, st_bind, set_info, st_modify. cbn [dev info allocs live].
    by destruct Hact as [(-> & -> & ->)|(-> & -> & ->)]. }
  rewrite E. rewrite (bind_run _ _ _ (set_addr (cur_base i) context_zero) (World d i1 a k)) by done.
  destruct (find_log_end d i l i1 a k Hst Hwf eq_refl eq_refl) as (c & Ec & Ha).
  rewrite (bind_run _ _ _ _ _ Ec). cbn [is_err is_ok].
  unfold mbind, st_bind, set_info, st_modify, mret, st_ret. cbn [dev info allocs live].
  rewrite Ha. by destruct i.
Qed.

Lemma init_scan_hit fuel addr0 top w h :
  addr0 < top -> 0 <= addr0 -> addr0 mod 4 = 0 -> addr0 + 8 <= chip_size sdk_flashchip ->
  fbytes (dev w) addr0 8 = region_header_bytes h ->
  region_header_of (region_header_bytes h) = h -> magic h = SYSPARAM_MAGIC ->
  init_scan (S fuel) addr0 top w = Some ((SYSPARAM_OK, addr0, h), w).
Proof.
  intros Ht Ha Ha4 Hfit Hb Hd Hm. cbn [init_scan]. zif. unfold mbind, st_bind, read, REGION_HEADER_SIZE.
  rewrite flash_read_ok by lia. change (Z.to_nat 8) with 8%nat. rewrite Hb. cbn [flash_op_ok].
  by rewrite Hd, Hm, Z.eqb_refl.
Qed.

(** The first region found at [addr0], the other one where its header says. *)
Lemma init_two_regions d i0 a k addr0 addr1 n h0 h1 top :
  0 < addr0 -> addr0 mod ss = 0 -> 0 < n -> addr0 + n * ss <= 2 ^ 24 -> 0 < addr1 -> addr1 mod 4 = 0 ->
  addr0 + 8 <= chip_size sdk_flashchip -> addr1 + 8 <= chip_size sdk_flashchip ->
  top = 0 \/ addr0 <= top ->
  fbytes d addr0 8 = region_header_bytes h0 -> region_header_of (region_header_bytes h0) = h0 ->
  fbytes d addr1 8 = region_header_bytes h1 -> region_header_of (region_header_bytes h1) = h1 ->
  magic h0 = SYSPARAM_MAGIC -> magic h1 = SYSPARAM_MAGIC ->
  Z.land (flags_size h0) REGION_MASK_SIZE = n ->
  is_second h0 = false -> is_second h1 = true -> addr1 = addr0 + n * ss ->
  sysparam_init addr0 top (World d i0 a k) = init_regions addr0 addr1 n h0 (World d i0 a k).
Proof.
  intros Ha0 Hal Hn Hmax Ha1 Ha14 Hf0 Hf1 Htop Hb0 Hd0 Hb1 Hd1 Hm0 Hm1 Hl Hs0 Hs1 Heq.
  pose proof flash_chip_ok as [_ _ Hss Hss4 _ [_ Hcs] _]. fold ss in Hss, Hss4.
  assert (Ha04 : addr0 mod 4 = 0).
  { apply Z.mod_divide in Hal as [q ->]; [|lia]. by rewrite Z.mul_mod, Hss4, Z.mul_0_r by lia. }
  unfold sysparam_init. fold ss. rewrite Hal, Z.sub_0_r.
  set (top' := if _ || _ then _ else top).
  assert (Htop' : addr0 < top').
  { unfold top'. destruct (Z.eqb_spec top 0), (Z.eqb_spec top addr0); cbn [orb]; try lia;
      rewrite u32_small by nia; lia. }
  rewrite (bind_run _ _ _ _ _ (init_scan_hit _ addr0 top' (World d i0 a k) h0 Htop'
    ltac:(lia) Ha04 Hf0 Hb0 Hd0 Hm0)).
  cbn [is_ok negb]. rewrite Hs0, Hl, u32_small by nia. rewrite <- Heq.
  unfold read, REGION_HEADER_SIZE, mbind at 1, st_bind at 1. cbn [dev].
  rewrite flash_read_ok by lia. change (Z.to_nat 8) with 8%nat. rewrite Hb1, Hd1. cbn [flash_op_ok].
  unfold init_other. by rewrite Hm1, Z.eqb_refl, Hs0, Hs1.
Qed.

(** The headers of a store as [sysparam_init] reads them. *)
Lemma header_facts x other active n :
  0 <= n < 2 ^ 12 -> (x + n * ss = other /\ 0 < n) \/ other + n * ss = x ->
  let h := region_hdr ss x other active in
  region_header_of (region_header_bytes h) = h /\ is_second h = negb (x <? other) /\
  is_active h = active /\ Z.land (flags_size h) REGION_MASK_SIZE = n.
Proof.
  intros Hn Hadj h. pose proof flash_chip_ok as [_ _ Hss _ _ _ _]. fold ss in Hss.
  pose proof (region_flags_eq ss x other active n Hss Hn Hadj) as Hf.
  unfold is_second, is_active. cbn [flags_size h region_hdr]. rewrite Hf.
  split_and!.
  - apply region_hdr_decode. rewrite Hf. by apply flags_range.
  - rewrite flags_second by done. by destruct (x <? other).
  - rewrite flags_active by done. by destruct active.
  - by apply flags_mask.
Qed.

Lemma sysparam_init_spec d i l i0 a k top :
  store d i l -> headers d i -> wf_log l ->
  let base := Z.min (cur_base i) (alt_base i) in
  top = 0 \/ base <= top ->
  sysparam_init base top (World d i0 a k) = Some (SYSPARAM_OK, World d (remounted i) a k).
Proof.
  intros Hst [Hh1 Hh2 Hadj Hsec] Hwf base Htop. pose proof (st_geo _ _ _ Hst) as Hg.
  pose proof (geo_bounds _ Hg) as (?&?&?&?&?&?&[??]&?&Hdis).
  pose proof flash_chip_ok as [_ _ Hss _ _ _ _]. fold ss in Hss, Hsec, Hh1, Hh2.
  destruct Hg as [_ _ _ Hcal Haal Hzal _ _ _]. fold ss in Hcal, Haal, Hzal.
  set (n := region_size i / ss) in *.
  assert (Hn : n * ss = region_size i) by (unfold n; rewrite Z.mul_comm, <- Z_div_exact_full_2; lia).
  unfold region_end, REGION_MASK_SIZE in *. assert (Hn0 : 0 < n < 2 ^ 12) by nia.
  destruct (header_facts (cur_base i) (alt_base i) true n) as (Hd1 & Hs1 & Ha1 & Hl1); [lia|lia|].
  destruct (header_facts (alt_base i) (cur_base i) false n) as (Hd2 & Hs2 & Ha2 & Hl2); [lia|lia|].
  destruct (Z.ltb_spec (cur_base i) (alt_base i)) as [Hlt|Hge].
  - rewrite (proj2 (Z.ltb_ge (alt_base i) (cur_base i))) in Hs2 by lia.
    replace base with (cur_base i) in * by (unfold base; lia).
    erewrite (init_two_regions d i0 a k (cur_base i) (alt_base i) n);
      try exact Hh1; try exact Hh2; auto; try lia.
    eapply init_regions_spec; [done|done|]. by left.
  - rewrite (proj2 (Z.ltb_lt (alt_base i) (cur_base i))) in Hs2 by lia.
    replace base with (alt_base i) in * by (unfold base; lia).
    erewrite (init_two_regions d i0 a k (alt_base i) (cur_base i) n);
      try exact Hh1; try exact Hh2; auto; try lia.
    eapply init_regions_spec; [done|done|]. by right.
Qed.

(** ** sysparam_create_area *)

(** The globals of an empty store of two regions of [size] bytes at [base]. *)
Definition fresh_info (base size : Z) : sysparam_info :=
  {| cur_base := base; alt_base := base + size; end_addr := base + REGION_HEADER_SIZE;
     region_size := size; force_compact := false; sem_taken := 0 |}.

(** The blank check of an area reads 24 bytes past its end. *)
Definition SCAN_OVERRUN : Z := 24.

Lemma area_scan_blank fuel a last w :
  0 <= a -> a mod 4 = 0 -> last + SCAN_OVERRUN <= chip_size sdk_flashchip ->
  (last - a) mod 8 = 0 -> erased (dev w) a (last + SCAN_OVERRUN) ->
  (last - a) / 8 + 1 < Z.of_nat fuel -> a <= last ->
  area_scan fuel a last w = Some (SYSPARAM_OK, w).
Proof.
  unfold SCAN_OVERRUN. pose proof flash_chip_ok as [_ _ _ _ _ Hcs _].
  intros Ha Ha4 Hfit H8 Her Hf Hle. revert a Ha Ha4 H8 Her Hf Hle.
  induction fuel as [|fuel IH]; intros a Ha Ha4 H8 Her Hf Hle.
  { assert (0 <= (last - a) / 8) by (apply Z.div_pos; lia). lia. }
  cbn [area_scan]. destruct (Z.ltb_spec a last); [|done].
  assert (8 <= last - a) by (Z.div_mod_to_equations; lia).
  unfold mbind, st_bind, read, SCAN_BUFFER_SIZE. rewrite flash_read_ok by lia. cbn [flash_op_ok].
  replace (forallb (fun b => b =? 255) (fbytes (dev w) a (Z.to_nat (8 * 4)))) with true.
  - rewrite u32_small by lia. apply IH; try lia.
    + rewrite Z.add_mod, Ha4 by lia. done.
    + replace (last - (a + 8)) with (last - a + (-1) * 8) by lia. by rewrite Z.mod_add by lia.
    + eapply erased_sub; [..|exact Her]; lia.
    + replace (last - (a + 8)) with (last - a + (-1) * 8) by lia. rewrite Z.div_add by lia. lia.
  - symmetry. apply forallb_forall. intros b Hb%list_elem_of_In.
    apply list_elem_of_lookup_1 in Hb as [j Hj].
    pose proof (lookup_lt_Some _ _ _ Hj) as Hlt. rewrite length_fbytes in Hlt.
    rewrite lookup_fbytes in Hj by done. injection Hj as <-. apply Z.eqb_eq, Her. lia.
Qed.

Lemma area_scan_used fuel a last w b :
  0 <= a -> a mod 4 = 0 -> last + SCAN_OVERRUN <= chip_size sdk_flashchip ->
  (last - a) mod 8 = 0 -> a <= b < last -> fbyte (dev w) b <> 255 ->
  (last - a) / 8 + 1 < Z.of_nat fuel ->
  area_scan fuel a last w = Some (SYSPARAM_NOTFOUND, w).
Proof.
  unfold SCAN_OVERRUN. pose proof flash_chip_ok as [_ _ _ _ _ Hcs _].
  intros Ha Ha4 Hfit H8 Hb Hne Hf. revert a Ha Ha4 H8 Hb Hf.
  induction fuel as [|fuel IH]; intros a Ha Ha4 H8 Hb Hf.
  { assert (0 <= (last - a) / 8) by (apply Z.div_pos; lia). lia. }
  cbn [area_scan]. destruct (Z.ltb_spec a last); [|lia].
  assert (8 <= last - a) by (Z.div_mod_to_equations; lia).
  unfold mbind, st_bind, read, SCAN_BUFFER_SIZE. rewrite flash_read_ok by lia. cbn [flash_op_ok].
  destruct (forallb (fun b => b =? 255) (fbytes (dev w) a (Z.to_nat (8 * 4)))) eqn:Hall; [|done].
  rewrite forallb_forall in Hall.
  assert (a + 32 <= b).
  { destruct (Z.lt_ge_cases b (a + 32)); [|lia]. destruct Hne. apply Z.eqb_eq, Hall.
    apply list_elem_of_In, list_elem_of_lookup_2 with (i := Z.to_nat (b - a)).
    rewrite lookup_fbytes by lia. do 2 f_equal. lia. }
  rewrite u32_small by lia. apply IH; try lia.
  - rewrite Z.add_mod, Ha4 by lia. done.
  - replace (last - (a + 8)) with (last - a + (-1) * 8) by lia. by rewrite Z.mod_add by lia.
  - replace (last - (a + 8)) with (last - a + (-1) * 8) by lia. rewrite Z.div_add by lia. lia.
Qed.

(** An area of [2 * n] sectors at [base]. *)
Record area_ok (base n : Z) : Prop := {
  ar_base : 0 < base;
  ar_aligned : base mod ss = 0;
  ar_sectors : 1 <= n <= REGION_MASK_SIZE;
  ar_size : 16 <= n * ss;
  ar_fits : base + 2 * (n * ss) <= chip_size sdk_flashchip
}.

Lemma fresh_geometry base n : area_ok base n -> info_geometry (fresh_info base (n * ss)).
Proof.
  intros [? Hal ? ? ?]. pose proof flash_chip_ok as [_ _ Hss _ _ _ _]. fold ss in Hss.
  split; simpl; try lia; fold ss.
  - done.
  - by rewrite Z.mod_add by lia.
  - apply Z.mod_mul. lia.
Qed.

(** Formatting and marking the regions, whatever they held. *)
Lemma create_regions_spec base n w :
  area_ok base n -> allocs w = [] ->
  exists d', (status ← _format_region base n;
      if is_err status then mret status
      else
        status ← _format_region (u32 (base + n * ss)) n;
        if is_err status then mret status
        else
          status ← _write_region_header base (u32 (base + n * ss)) true;
          if is_err status then mret status
          else
            status ← _write_region_header (u32 (base + n * ss)) base false;
            if is_err status then mret status else mret SYSPARAM_OK
        : ST (world D) sysparam_status_t) w =
      Some (SYSPARAM_OK, World d' (info w) [] (live w)) /\
    store d' (fresh_info base (n * ss)) [] /\ headers d' (fresh_info base (n * ss)).
Proof.
  intros Har Hal. pose proof (fresh_geometry base n Har) as Hg.
  pose proof (geo_bounds _ Hg) as (?&?&?&?&?&?&[??]&?&_). simpl in *.
  destruct Har as [Hb Hbal Hn Hsz Hfit]. unfold region_end, REGION_MASK_SIZE in *. simpl in *.
  pose proof flash_chip_ok as [_ _ Hss _ _ _ _]. fold ss in Hss.
  destruct (format_region_spec w base n) as (d1 & E1 & Her1 & Hs1); [lia|done|lia|fold ss; lia|].
  rewrite Hal in E1. rewrite (bind_run _ _ _ _ _ E1). cbn [is_err]. rewrite u32_small by lia.
  destruct (format_region_spec (World d1 (info w) [] (live w)) (base + n * ss) n)
    as (d2 & E2 & Her2 & Hs2); [lia|fold ss; by rewrite Z.mod_add by lia|lia|fold ss; lia|].
  fold ss in Her1, Hs1, Her2, Hs2. simpl in E2, Hs2. rewrite (bind_run _ _ _ _ _ E2). cbn [is_err].
  assert (Her12 : erased d2 base (base + n * ss)).
  { eapply erased_same; [|exact Her1]. eapply same_out_in; [exact Hs2|]. lia. }
  destruct (write_region_header_spec (World d2 (info w) [] (live w)) base (base + n * ss) true)
    as (d3 & E3 & Hh3 & Hs3); simpl; auto; try lia.
  { apply clears_erased; [apply region_header_byte|]. eapply erased_sub; [..|exact Her12]; simpl; lia. }
  simpl in E3, Hs3. rewrite (bind_run _ _ _ _ _ E3). cbn [is_err].
  destruct (write_region_header_spec (World d3 (info w) [] (live w)) (base + n * ss) base false)
    as (d4 & E4 & Hh4 & Hs4); simpl; auto; try lia.
  { apply clears_erased; [apply region_header_byte|]. eapply (erased_same d2).
    - eapply same_out_in; [exact Hs3|]. lia.
    - eapply erased_sub; [..|exact Her2]; simpl; lia. }
  simpl in E4, Hs4. rewrite (bind_run _ _ _ _ _ E4). exists d4. split; [done|].
  split; split; try done.
  - unfold log_start. simpl. unfold REGION_HEADER_SIZE. lia.
  - unfold region_end. simpl. unfold REGION_HEADER_SIZE. lia.
  - intros b. unfold region_end. simpl. unfold REGION_HEADER_SIZE. intros Hb'.
    rewrite Hs4, Hs3 by lia. apply Her12. lia.
  - refine (eq_trans _ Hh3). symmetry.
    apply (fbytes_same d3 d4 base (base + 8) base 8); [|lia..]. eapply same_out_in; [exact Hs4|]. lia.
  - by left.
  - cbn [region_size fresh_info]. fold ss. rewrite Z.div_mul by lia. unfold REGION_MASK_SIZE. lia.
Qed.

Lemma create_area_spec base n force w :
  area_ok base n -> allocs w = [] ->
  force = true \/ (base + 2 * (n * ss) + SCAN_OVERRUN <= chip_size sdk_flashchip /\
    erased (dev w) base (base + 2 * (n * ss) + SCAN_OVERRUN)) ->
  exists d' i', sysparam_create_area base (2 * n) force w =
      Some (SYSPARAM_OK, World d' i' [] (live w)) /\
    store d' (fresh_info base (n * ss)) [] /\ headers d' (fresh_info base (n * ss)).
Proof.
  intros Har Hal Hblank. pose proof (geo_bounds _ (fresh_geometry base n Har)) as (?&?&?&?&?&?&[??]&?&_).
  pose proof Har as [Hb Hbal Hn Hsz Hfit]. unfold region_end, REGION_MASK_SIZE in *. simpl in *.
  unfold sysparam_create_area.
  assert (Hodd : Z.land (2 * n) 1 = 0).
  { change 1 with (Z.ones 1). rewrite Z.land_ones by lia. change (2 ^ 1) with 2.
    rewrite Z.mul_comm. by rewrite Z.mod_mul by lia. }
  rewrite Hodd. rewrite (proj2 (Z.ltb_ge (2 * n) 1)) by lia. cbn [orb negb Z.eqb].
  rewrite Z.shiftr_div_pow2 by lia. change (2 ^ 1) with 2.
  replace (2 * n / 2) with n by (rewrite Z.mul_comm, Z.div_mul by lia; done). fold ss.
  rewrite (u32_small (n * ss)) by lia. rewrite (u32_small (base + n * ss * 2)) by lia.
  rewrite (bind_run _ _ _ SYSPARAM_OK w).
  2:{ destruct Hblank as [->|[Hf Her]]; [done|]. destruct force; [done|].
      unfold SCAN_BUFFER_SIZE, SCAN_OVERRUN in *.
      assert (0 <= n * ss * 2 / 8) by (apply Z.div_pos; lia).
      apply area_scan_blank; unfold SCAN_OVERRUN; try lia.
      - replace (base + n * ss * 2 - base) with (n * ss * 2) by lia. Z.div_mod_to_equations. lia.
      - eapply erased_sub; [..|exact Her]; lia.
      - replace (base + n * ss * 2 - base) with (n * ss * 2) by lia. lia. }
  cbn [is_ok negb]. rewrite (bind_run _ _ _ (info w) w) by done.
  set (i1 := if (cur_base (info w) =? base) || (alt_base (info w) =? base) then info_zero else info w).
  rewrite (bind_run _ _ _ () (World (dev w) i1 [] (live w))).
  2:{ unfold i1. destruct (_ || _).
      - unfold set_info, st_modify. by rewrite Hal.
      - rewrite <- Hal. by rewrite world_eta. }
  destruct (create_regions_spec base n (World (dev w) i1 [] (live w)) Har eq_refl)
    as (d' & E & Hst & Hh).
  rewrite (u32_small (base + n * ss)) in * by lia. exists d', i1. split; [exact E|]. done.
Qed.

Lemma create_area_used base n w b :
  area_ok base n -> base + 2 * (n * ss) + SCAN_OVERRUN <= chip_size sdk_flashchip ->
  base <= b < base + 2 * (n * ss) -> fbyte (dev w) b <> 255 ->
  sysparam_create_area base (2 * n) false w = Some (SYSPARAM_NOTFOUND, w).
Proof.
  intros Har Hov Hb' Hne. pose proof (geo_bounds _ (fresh_geometry base n Har)) as (?&?&?&?&?&?&[??]&?&_).
  pose proof Har as [Hb Hbal Hn Hsz Hfit]. unfold region_end, REGION_MASK_SIZE in *. simpl in *.
  unfold sysparam_create_area.
  assert (Hodd : Z.land (2 * n) 1 = 0).
  { change 1 with (Z.ones 1). rewrite Z.land_ones by lia. change (2 ^ 1) with 2.
    rewrite Z.mul_comm. by rewrite Z.mod_mul by lia. }
  rewrite Hodd. rewrite (proj2 (Z.ltb_ge (2 * n) 1)) by lia. cbn [orb negb Z.eqb].
  rewrite Z.shiftr_div_pow2 by lia. change (2 ^ 1) with 2.
  replace (2 * n / 2) with n by (rewrite Z.mul_comm, Z.div_mul by lia; done). fold ss.
  rewrite (u32_small (n * ss)) by lia. rewrite (u32_small (base + n * ss * 2)) by lia.
  assert (0 <= n * ss * 2 / 8) by (apply Z.div_pos; lia). unfold SCAN_OVERRUN in *.
  rewrite (bind_run _ _ _ SYSPARAM_NOTFOUND w); [done|].
  unfold SCAN_BUFFER_SIZE. apply (area_scan_used _ _ _ _ b); unfold SCAN_OVERRUN; try lia; try done.
  - replace (base + n * ss * 2 - base) with (n * ss * 2) by lia. Z.div_mod_to_equations. lia.
  - replace (base + n * ss * 2 - base) with (n * ss * 2) by lia. lia.
Qed.
End init.
