(* ===== verification/SysparamSpec.v ===== *)
(** * The contract of the parameter store

    The theorems about the public operations of core/sysparam.c on a store that
    represents a map of parameters. *)

From stdpp Require Import sorting.
From S2P Require Import Prelude Flash Sysparam SysparamLog SysparamGet SysparamWrite SysparamStore.
From S2P Require Import SysparamCompact SysparamSet SysparamInit SpiFlash.
Local Open Scope Z_scope.

Section spec.
Context `{FlashOk D}.
Implicit Types (w : world D) (m : gmap (list Z) (list Z * bool)) (o : gset (list Z)).

Lemma represents_base m o w : represents m o w -> 0 < cur_base (info w).
Proof. intros (l & Hst & _). by pose proof (store_bounds _ _ _ Hst) as [? _]. Qed.

Lemma represents_frame m o w n a k :
  represents m o w -> represents m o (World (dev w) (set_sem_taken n (info w)) a k).
Proof.
  intros (l & Hst & Hh & Hrest). exists l. simpl. split; [by apply store_sem|].
  split; [by apply headers_sem|done].
Qed.

Definition locked w (aligned : bool) (vlen : Z) : world D :=
  World (dev w) (set_sem_taken (sem_taken (info w) + 1) (info w)) []
    (if negb (vlen =? 0) && negb aligned then live w + 1 + 1 else live w + 1).

(** The wrapper around [set_body]: the semaphore and the buffers. *)
Lemma set_data_run w key value vlen aligned bin st w' m o m' o' :
  represents m o w -> allocs w = [] -> valid_key key -> 0 <= vlen <= MAX_VALUE_LEN ->
  let n := match value with None => 0 | Some _ => vlen end in
  set_body key (strlen key) (default [] value) n bin (locked w aligned n) = Some (st, w') ->
  left_with m' o' (locked w aligned n) w' ->
  exists w2, sysparam_set_data key value vlen aligned bin w = Some (st, w2) /\ left_with m' o' w w2.
Proof.
  intros Hrep Hal Hkey Hvl n Hbody Hleft. pose proof (represents_base _ _ _ Hrep).
  pose proof (valid_key_strlen key Hkey) as Hlen. pose proof Hkey as [_ Hkl].
  unfold sysparam_set_data. rewrite (bind_run _ _ _ (info w) w) by done.
  rewrite (proj2 (Z.eqb_neq (cur_base (info w)) 0)) by lia.
  unfold MAX_KEY_LEN in *. rewrite Hlen, u16_small by lia.
  rewrite (proj2 (Z.eqb_neq _ _)) by lia.
  rewrite (proj2 (Z.ltb_ge _ _)) by (unfold MAX_KEY_LEN; lia).
  rewrite (proj2 (Z.ltb_ge _ _)) by lia. fold n.
  destruct w as [d i a k]. simpl in Hal. subst a. cbn [info] in *.
  unfold mbind at 1, st_bind at 1, set_info at 1, st_modify at 1. cbn [info dev allocs live].
  unfold locked in *. cbn [info dev allocs live] in *. rewrite Hlen in Hbody.
  destruct Hleft as [(o2 & Hr & Ho) Hal' Hl' Hs']. cbn [info dev allocs live] in *.
  exists (World (dev w') (set_sem_taken (sem_taken (info w') - 1) (info w')) [] k).
  destruct w' as [d' i' a' k']. simpl in *. subst a' k'. split.
  - destruct (negb (n =? 0) && negb aligned); cbn [negb].
    + unfold mbind, st_bind, malloc, next_alloc, free, mret, st_ret, set_info, st_modify in *.
      simpl. rewrite Hbody. simpl. do 3 f_equal. lia.
    + unfold mbind, st_bind, malloc, next_alloc, free, mret, st_ret, set_info, st_modify in *.
      simpl. rewrite Hbody. simpl. do 3 f_equal. lia.
  - split; simpl; [|done|done|lia]. exists o2. split; [|done].
    exact (represents_frame _ _ _ (sem_taken i' - 1) [] k Hr).
Qed.

Lemma set_data_stores m o w key val aligned bin :
  represents m o w -> allocs w = [] -> valid_key key -> val <> [] -> Forall is_byte val ->
  Z.of_nat (length val) <= MAX_VALUE_LEN ->
  (key ∈ o -> ENTRY_SIZE (Z.of_nat (length val)) <= room (info w)) ->
  exists st w', sysparam_set_data key (Some val) (Z.of_nat (length val)) aligned bin w = Some (st, w') /\
    set_outcome key (val, bin) m o w st w'.
Proof.
  intros Hrep Hal Hkey Hne Hby Hvl Hno.
  set (w1 := locked w aligned (Z.of_nat (length val))).
  destruct (set_body_store m o w1 key val bin) as (st & w' & E & Hout); auto.
  { exact (represents_frame _ _ _ _ _ _ Hrep). }
  destruct Hout as [[-> Hl]|[-> [Hl|[Hs Hl]]]].
  all: destruct (set_data_run w key (Some val) (Z.of_nat (length val)) aligned bin _ w' m o _ _ Hrep Hal Hkey ltac:(lia) E Hl)
    as (w2 & E2 & Hl2); eexists; exists w2; (split; [exact E2|]).
  - by left.
  - right. auto.
  - right. auto.
Qed.

Lemma set_body_delete m o w key v (bin : bool) :
  represents m o w -> allocs w = [] -> valid_key key ->
  match m !! key with
  | Some _ => exists w', set_body key (strlen key) v 0 bin w = Some (SYSPARAM_OK, w') /\
      left_with (delete key m) ({[key]} ∪ o) w w'
  | None => set_body key (strlen key) v 0 bin w = Some (SYSPARAM_NOTFOUND, w)
  end.
Proof.
  intros (l & Hst & Hh & Hwf & <- & <-) Hal Hkey. unfold set_body.
  destruct (set_find_spec w l key Hst Hwf Hkey) as (st & v1 & E & Hloc & Hcase).
  rewrite (bind_run _ _ _ _ _ E). unfold set_delete_old.
  destruct (params l !! key) as [[x b]|] eqn:Hx.
  2:{ destruct Hcase as (-> & -> & _). done. }
  destruct Hcase as (-> & Hold & _). cbn [is_err]. rewrite Z.eqb_refl.
  rewrite (proj2 (Z.eqb_neq _ _) Hold).
  destruct (lo_old _ _ _ _ Hloc) as [[? _]|(A & ve & B & -> & Hve & Hvi & ->)]; [done|].
  destruct (delete_entry_spec w A ve B Hst) as (d' & E2 & Hst2 & Hso). rewrite E2.
  eexists. split; [reflexivity|].
  assert (Hkeys : key ∈ map le_payload (keys (A ++ ve :: B))).
  { destruct (decide (key ∈ map le_payload (keys (A ++ ve :: B)))) as [|Hn]; [done|].
    apply params_None in Hn. congruence. }
  apply list_elem_of_fmap in Hkeys as (e & -> & He).
  assert (Hid : e_id e = e_id ve).
  { destruct (lo_key _ _ _ _ Hloc) as [(_ & Hn & _)|(e' & He' & Hk' & Hi')].
    - destruct Hn. by apply list_elem_of_fmap_2.
    - assert (e' = e) as -> by (eapply (NoDup_map_eq le_payload); [apply Hwf|..]; congruence).
      congruence. }
  pose proof (kill_params A ve B Hwf Hve e He Hid) as Hkp.
  eapply stored_left; [done|done|done|exact Hst2| |by apply kill_wf|exact Hkp|].
  - simpl. eapply headers_frame; [apply Hst|exact Hh|exact Hso| |].
    + pose proof (lsize_nonneg A). lia.
    + pose proof (store_bounds _ _ _ Hst) as (_&_&_&_&_&Hb). rewrite lsize_app, lsize_cons in Hb.
      pose proof (lsize_nonneg B). lia.
  - intros k. rewrite orphans_elem by by apply kill_wf. rewrite kill_keys, Hkp by done.
    intros [Hin Hd]. destruct (decide (k = le_payload e)) as [->|Hn]; [set_solver|].
    rewrite lookup_delete_ne in Hd by done. apply elem_of_union. right. by apply orphans_elem.
Qed.

Lemma set_data_deletes m o w key value aligned bin :
  represents m o w -> allocs w = [] -> valid_key key -> value = None \/ value = Some [] ->
  exists w', sysparam_set_data key value 0 aligned bin w =
      Some (if m !! key then SYSPARAM_OK else SYSPARAM_NOTFOUND, w') /\
    match m !! key with
    | Some _ => left_with (delete key m) ({[key]} ∪ o) w w'
    | None => left_with m o w w'
    end.
Proof.
  intros Hrep Hal Hkey Hv.
  assert (Hn : match value with None => 0 | Some _ => 0 end = 0) by (by destruct Hv as [->| ->]).
  pose proof (represents_frame _ _ _ (sem_taken (info w) + 1) [] (live w + 1) Hrep) as Hrep1.
  fold (locked w aligned 0) in Hrep1.
  pose proof (set_body_delete m o (locked w aligned 0) key (default [] value) bin Hrep1 eq_refl Hkey) as Hb.
  destruct (m !! key) as [x|].
  - destruct Hb as (w' & E & Hl). eapply set_data_run; eauto; rewrite ?Hn; eauto. done.
  - eapply set_data_run; eauto; rewrite ?Hn; eauto; [done|].
    split; [by exists o|done|done|done].
Qed.

(** ** Creating and mounting *)

Lemma create_then_init base n force w :
  area_ok (D:=D) base n -> allocs w = [] ->
  force = true \/ (base + 2 * (n * sector_size sdk_flashchip) + SCAN_OVERRUN <= chip_size sdk_flashchip /\
    erased (dev w) base (base + 2 * (n * sector_size sdk_flashchip) + SCAN_OVERRUN)) ->
  exists w1 w2, sysparam_create_area base (2 * n) force w = Some (SYSPARAM_OK, w1) /\
    sysparam_init base 0 w1 = Some (SYSPARAM_OK, w2) /\
    represents ∅ ∅ w2 /\ allocs w2 = [] /\ live w2 = live w /\ sem_taken (info w2) = 0.
Proof.
  intros Har Hal Hblank. destruct (create_area_spec base n force w Har Hal Hblank) as (d' & i' & E & Hst & Hh).
  pose proof Har as [? ? ? ? ?].
  set (i0 := fresh_info base (n * sector_size (sdk_flashchip (D:=D)))).
  exists (World d' i' [] (live w)), (World d' (remounted i0) [] (live w)).
  assert (Hwf : wf_log []).
  { split; try constructor. by intros [|]. }
  split; [exact E|]. split; [|split_and!; try done].
  - pose proof (sysparam_init_spec d' i0 [] i' [] (live w) 0 Hst Hh Hwf) as Hi.
    replace (Z.min (cur_base i0) (alt_base i0)) with base in Hi by (simpl; lia). apply Hi. by left.
  - exists []. by split_and!.
Qed.

Lemma init_again m o w i0 a k top :
  represents m o w ->
  let base := Z.min (cur_base (info w)) (alt_base (info w)) in
  top = 0 \/ base <= top ->
  exists w', sysparam_init base top (World (dev w) i0 a k) = Some (SYSPARAM_OK, w') /\
    represents m o w' /\ dev w' = dev w /\ sem_taken (info w') = 0.
Proof.
  intros (l & Hst & Hh & Hwf & Hrest) base Htop.
  exists (World (dev w) (remounted (info w)) a k). split; [by eapply sysparam_init_spec|].
  split; [|done]. exists l. simpl. split; [|split; [|done]].
  - apply store_sem. destruct Hst. by split.
  - destruct Hh. by split.
Qed.

(** ** Iterating *)

(** ** Iterating *)

(** A client that calls [sysparam_iter_next] until it does not return OK. *)
Fixpoint iter_collect (fuel : nat) (it : sysparam_iter_t)
    : ST (world D) (sysparam_status_t * sysparam_iter_t * list (list Z * (list Z * bool))) :=
  match fuel with
  | O => out_of_fuel
  | S fuel =>
      '(status, it) ← sysparam_iter_next it;
      if is_ok status then
        '(status', it', xs) ← iter_collect fuel it;
        mret (status', it', (it_key it, (it_value it, binary it)) :: xs)
      else mret (status, it, [])
  end.

Lemma iter_collect_spec fuel it w pre post :
  allocs w = [] -> 0 <= bufsize it < 2 ^ 31 ->
  store (dev w) (info w) (pre ++ post) -> wf_log (pre ++ post) ->
  scanned (info w) (it_ctx it) pre -> (length post < fuel)%nat ->
  exists it', iter_collect fuel it w = Some ((SYSPARAM_NOTFOUND, it', map item_kv (items post)), w).
Proof.
  intros Hal. revert it pre post.
  induction fuel as [|fuel IH]; intros it pre post Hb Hst Hwf Hsc Hf; [lia|]. cbn [iter_collect].
  pose proof (iter_next_spec it w pre post Hal Hb Hst Hwf Hsc) as Hn.
  destruct (items post) as [|x xs].
  - destruct Hn as (it' & E). rewrite (bind_run _ _ _ _ _ E). simpl. eauto.
  - destruct Hn as (it' & pre' & post' & E & Heq & Hsc' & Hxs & Hh & Hb' & Hl).
    rewrite (bind_run _ _ _ _ _ E). cbn [is_ok]. rewrite Heq in Hst, Hwf.
    destruct (IH it' pre' post' Hb' Hst Hwf Hsc' ltac:(lia)) as (it2 & E2).
    rewrite (bind_run _ _ _ _ _ E2). destruct Hh as [-> -> _ _ -> _]. rewrite Hxs.
    exists it2. done.
Qed.

Lemma iter_enumerates m o w :
  represents m o w -> allocs w = [] ->
  exists xs it', (
      '(status, it) ← sysparam_iter_start;
      '(status', it', xs) ← iter_collect (region_fuel (info w)) it;
      sysparam_iter_end it';;
      mret (status, status', it', xs) : ST (world D) _) w =
      Some ((SYSPARAM_OK, SYSPARAM_NOTFOUND, it', xs), w) /\
    NoDup (map fst xs) /\ list_to_map xs = m.
Proof.
  intros Hrep Hal. pose proof (represents_base _ _ _ Hrep).
  destruct Hrep as (l & Hst & _ & Hwf & <- & _).
  exists (map item_kv (items l)).
  rewrite (bind_run _ _ _ _ _ (iter_start_spec w Hal ltac:(lia))).
  set (w1 := World (dev w) (info w) [] (live w + 2)).
  pose proof (region_fuel_ok _ _ _ l Hst ltac:(lia)).
  destruct (iter_collect_spec (region_fuel (info w))
    {| it_key := []; it_value := []; key_len := 0; value_len := 0; binary := false;
       bufsize := DEFAULT_ITER_BUF_SIZE; it_ctx := set_addr (cur_base (info w)) context_zero |}
    w1 [] l) as (it' & E); simpl; auto; try lia.
  { unfold DEFAULT_ITER_BUF_SIZE. lia. } { apply scanned_start. }
  exists it'. rewrite (bind_run _ _ _ _ _ E).
  rewrite (bind_run _ _ _ () w).
  2:{ unfold sysparam_iter_end, mbind, st_bind, free. simpl. destruct w; simpl in *. subst.
      do 3 f_equal. lia. }
  split; [done|]. split; [|done]. rewrite map_map. by apply items_names.
Qed.

Lemma get_data_static_run m o w key size :
  represents m o w -> valid_key key -> Z.max (strlen key) 2 <= size ->
  exists st r, sysparam_get_data_static key size w = Some ((st, r), w) /\
    match m !! key with
    | Some (v, b) => st = SYSPARAM_OK /\
        r = {| gr_data := take (Z.to_nat size) v; gr_length := Z.of_nat (length v); gr_binary := b |}
    | None => st = SYSPARAM_NOTFOUND
    end.
Proof.
  intros Hrep Hkey Hsize. pose proof (represents_base _ _ _ Hrep).
  destruct Hrep as (l & Hst & _ & Hwf & <- & _). unfold sysparam_get_data_static.
  rewrite (bind_run _ _ _ (info w) w) by done.
  rewrite (proj2 (Z.eqb_neq _ _)) by lia. rewrite (proj2 (Z.ltb_ge _ _)) by lia.
  pose proof (find_data_spec l w key Hst Hwf Hkey) as Hf.
  destruct (params l !! key) as [[v b]|].
  - destruct Hf as (c & k & e & post & E & -> & Hsc & <- & <-).
    rewrite (bind_run _ _ _ _ _ E). cbn [negb is_ok].
    rewrite (bind_run _ _ _ _ _ (read_payload_spec c w k e post size Hst Hsc ltac:(lia))).
    cbn [negb is_ok]. do 2 eexists. split; [reflexivity|]. split; [done|].
    pose proof (scanned_at _ _ _ _ Hsc) as [_ ->]. by erewrite is_binary_entry_spec.
  - destruct Hf as (c & E). rewrite (bind_run _ _ _ _ _ E). simpl. eauto.
Qed.

(** ** Sessions

    A client's sequence of operations, and what the abstract map allows. *)

Inductive param_op := Get (key : list Z) | Put (key val : list Z) (bin : bool) | Del (key : list Z).
Definition param_result : Type := sysparam_status_t * option (list Z * bool).

(** The client frees the buffer that a successful get returns. *)
Definition exec (x : param_op) : ST (world D) param_result :=
  match x with
  | Get key =>
      '(status, r) ← sysparam_get_data key;
      if is_ok status then free;; mret (status, Some (gr_data r, gr_binary r))
      else mret (status, None)
  | Put key val bin =>
      status ← sysparam_set_data key (Some val) (Z.of_nat (length val)) true bin; mret (status, None)
  | Del key => status ← sysparam_set_data key None 0 true false; mret (status, None)
  end.
Fixpoint exec_all (xs : list param_op) : ST (world D) (list param_result) :=
  match xs with
  | [] => mret []
  | x :: xs => r ← exec x; rs ← exec_all xs; mret (r :: rs)
  end.

Inductive allowed m : param_op -> param_result -> gmap (list Z) (list Z * bool) -> Prop :=
  | allowed_get key v : m !! key = Some v -> allowed m (Get key) (SYSPARAM_OK, Some v) m
  | allowed_get_none key : m !! key = None -> allowed m (Get key) (SYSPARAM_NOTFOUND, None) m
  | allowed_put key val bin : allowed m (Put key val bin) (SYSPARAM_OK, None) (<[key := (val, bin)]> m)
  | allowed_full key val bin : allowed m (Put key val bin) (SYSPARAM_ERR_FULL, None) m
  | allowed_full_lost key val bin :
      is_Some (m !! key) -> allowed m (Put key val bin) (SYSPARAM_ERR_FULL, None) (delete key m)
  | allowed_del key : is_Some (m !! key) -> allowed m (Del key) (SYSPARAM_OK, None) (delete key m)
  | allowed_del_none key : m !! key = None -> allowed m (Del key) (SYSPARAM_NOTFOUND, None) m.
Inductive allowed_all m : list param_op -> list param_result -> gmap (list Z) (list Z * bool) -> Prop :=
  | allowed_nil : allowed_all m [] [] m
  | allowed_cons x r m' xs rs m'' :
      allowed m x r m' -> allowed_all m' xs rs m'' -> allowed_all m (x :: xs) (r :: rs) m''.

Definition op_key (x : param_op) : list Z :=
  match x with Get key | Put key _ _ | Del key => key end.
Definition op_valid (x : param_op) : Prop :=
  valid_key (op_key x) /\
  match x with
  | Put _ val _ => val <> [] /\ Forall is_byte val /\ Z.of_nat (length val) <= MAX_VALUE_LEN
  | _ => True
  end.

(** A get when every allocation succeeds: only the number of live blocks changes. *)
Lemma get_data_all m o w key :
  represents m o w -> allocs w = [] -> valid_key key ->
  sysparam_get_data key w =
    match m !! key with
    | Some (v, b) =>
        Some ((SYSPARAM_OK, {| gr_data := v; gr_length := Z.of_nat (length v); gr_binary := b |}),
              World (dev w) (info w) [] (live w + 1))
    | None => Some ((SYSPARAM_NOTFOUND, get_none), w)
    end.
Proof.
  intros Hrep Hal Hkey. pose proof (represents_base _ _ _ Hrep).
  destruct Hrep as (l & Hst & _ & Hwf & <- & _).
  unfold sysparam_get_data. rewrite (bind_run _ _ _ (info w) w) by done.
  rewrite (proj2 (Z.eqb_neq (cur_base (info w)) 0)) by lia.
  rewrite (bind_run _ _ _ _ _ (malloc_all w Hal)). cbn [negb].
  set (w1 := World (dev w) (info w) [] (live w + 1)).
  pose proof (find_data_spec l w1 key Hst Hwf Hkey) as Hf.
  destruct (params l !! key) as [[v b]|].
  - destruct Hf as (c & k & e & post & E & -> & Hsc & <- & <-).
    rewrite (bind_run _ _ _ _ _ E).
    cbn [negb is_ok]. rewrite (bind_run _ _ _ _ _ (realloc_all w1 eq_refl)). cbn [negb].
    pose proof (scanned_at _ _ _ _ Hsc) as [_ He]. rewrite He. simpl.
    rewrite (bind_run _ _ _ _ _ (read_payload_spec c w1 k e post (payload_len e) Hst Hsc
      (payload_len_nonneg e))). simpl.
    unfold payload_len. rewrite Nat2Z.id, firstn_all. by erewrite is_binary_entry_spec.
  - destruct Hf as (c & E). rewrite (bind_run _ _ _ _ _ E). simpl.
    destruct w as [d i a k]. simpl in *. subst a. unfold free, st_modify, mbind, st_bind. simpl.
    by rewrite Z.add_simpl_r.
Qed.

Lemma exec_get m o w key :
  represents m o w -> allocs w = [] -> valid_key key ->
  exists r w', exec (Get key) w = Some (r, w') /\ allowed m (Get key) r m /\ left_with m o w w'.
Proof.
  intros Hrep Hal Hkey. unfold exec, mbind at 1, st_bind at 1.
  rewrite (get_data_all m o w key Hrep Hal Hkey).
  destruct (m !! key) as [[v b]|] eqn:Hm; cbn [is_ok].
  - do 2 eexists. split; [reflexivity|]. split; [by constructor|].
    split; simpl; [|done|lia|done]. exists o. split; [|done].
    destruct Hrep as (l & ?). by exists l.
  - do 2 eexists. split; [reflexivity|]. split; [by constructor|].
    split; [by exists o|done|done|done].
Qed.

(** A session runs as the abstract map allows, at least up to the first attempt to
    store a key that was deleted and is still named in the log. *)
Lemma session_run xs m o w :
  represents m o w -> allocs w = [] -> Forall op_valid xs ->
  exists ys zs rs m' o' w', xs = ys ++ zs /\ exec_all ys w = Some (rs, w') /\
    allowed_all m ys rs m' /\ represents m' o' w' /\ allocs w' = [] /\
    live w' = live w /\ sem_taken (info w') = sem_taken (info w) /\
    (zs = [] \/ exists key val bin zs', zs = Put key val bin :: zs' /\ key ∈ o').
Proof.
  intros Hrep Hal Hval. revert m o w Hrep Hal.
  induction Hval as [|x xs [Hkey Hx] _ IH]; intros m o w Hrep Hal.
  { exists [], [], [], m, o, w. split_and!; try done; [constructor|by left]. }
  assert (Hstep : (exists key val bin, x = Put key val bin /\ key ∈ o) \/
    (exists r w' m' o', exec x w = Some (r, w') /\ allowed m x r m' /\ left_with m' o' w w')).
  { destruct x as [key|key val bin|key].
    - right. destruct (exec_get m o w key Hrep Hal Hkey) as (r & w' & ? & ? & ?). by exists r, w', m, o.
    - destruct (decide (key ∈ o)) as [Hin|Hno]; [left; eauto|]. right.
      destruct Hx as (Hne & Hby & Hl).
      destruct (set_data_stores m o w key val true bin Hrep Hal Hkey Hne Hby Hl)
        as (st & w' & E & Hout); [done|].
      unfold exec. rewrite (bind_run _ _ _ _ _ E).
      destruct Hout as [[-> Hw]|[-> [Hw|[Hs Hw]]]]; do 4 eexists;
        (split; [reflexivity|split; [by constructor|exact Hw]]).
    - right. destruct (set_data_deletes m o w key None true false Hrep Hal Hkey (or_introl eq_refl))
        as (w' & E & Hout).
      unfold exec. rewrite (bind_run _ _ _ _ _ E).
      destruct (m !! key) as [v|] eqn:Hm; do 4 eexists;
        (split; [reflexivity|split; [constructor; rewrite ?Hm; eauto|exact Hout]]). }
  destruct Hstep as [(key & val & bin & -> & Hin)|(r & w1 & m1 & o1 & E & Hall & Hw)].
  { exists [], (Put key val bin :: xs), [], m, o, w. split_and!; try done; [constructor|].
    right. by exists key, val, bin, xs. }
  destruct Hw as [(o2 & Hrep2 & _) Hal2 Hl2 Hs2].
  destruct (IH m1 o2 w1 Hrep2 Hal2) as (ys & zs & rs & m' & o' & w' & -> & E2 & Hall2 & Hr & Ha & Hl & Hs & Hz).
  exists (x :: ys), zs, (r :: rs), m', o', w'. split_and!; try done; try congruence.
  - cbn [exec_all]. rewrite (bind_run _ _ _ _ _ E), (bind_run _ _ _ _ _ E2). done.
  - by econstructor.
Qed.
End spec.
