(* ===== verification/SysparamContract.v ===== *)
(** * The theorems about core/sysparam.c

    What the public operations promise, over any working flash device, each
    with a run on the flash driver of [SpiFlash] over a concrete chip. *)

From stdpp Require Import sorting.
From S2P Require Import Prelude Flash SpiFlash Sysparam SysparamLog SysparamGet SysparamWrite.
From S2P Require Import SysparamStore SysparamCompact SysparamSet SysparamInit SysparamSpec.
Local Open Scope Z_scope.

Section contract.
Context `{FlashOk D}.
Implicit Types (w : world D) (m : gmap (list Z) (list Z * bool)) (o : gset (list Z)).

(** C2: while every malloc succeeds, on a store that represents the
    parameters [m], [sysparam_set_data] with a valid key (1 to 65535 bytes, none
    of them 0) and a value of 1 to 65535 bytes either returns OK and the store
    then holds [m] with the new value and its binary flag under the key, or
    returns ERR_FULL; in that case the store holds [m] as before, except that the
    old value of this same key may have been dropped by the compaction that was
    tried.  The buffers are freed and the semaphore is released.  Two conditions
    of the code are assumed: a key that was deleted before and is still named in
    the log is stored while there is room for its value without a compaction (see
    [sysparam_stale_key_id] for what happens otherwise), and the string of a new
    key is word-aligned, since it is written to the flash from where it lies.
    When a malloc fails the code returns ERR_NOMEM, which this does not cover. *)
Theorem sysparam_set_data_stores m o w key val aligned bin :
  represents m o w -> allocs w = [] -> valid_key key -> val <> [] -> Forall is_byte val ->
  Z.of_nat (length val) <= MAX_VALUE_LEN ->
  (key ∈ o -> ENTRY_SIZE (Z.of_nat (length val)) <= room (info w)) ->
  exists st w', sysparam_set_data key (Some val) (Z.of_nat (length val)) aligned bin w = Some (st, w') /\
    set_outcome key (val, bin) m o w st w'.
Proof. apply set_data_stores. Qed.

(** Storing a null or an empty value deletes the parameter: the result is OK
    when the key had a value and NOTFOUND otherwise, no other parameter changes,
    the buffer is freed and the semaphore released. *)
Theorem sysparam_set_data_deletes m o w key value aligned bin :
  represents m o w -> allocs w = [] -> valid_key key -> value = None \/ value = Some [] ->
  exists w', sysparam_set_data key value 0 aligned bin w =
      Some (if m !! key then SYSPARAM_OK else SYSPARAM_NOTFOUND, w') /\
    match m !! key with
    | Some _ => left_with (delete key m) ({[key]} ∪ o) w w'
    | None => left_with m o w w'
    end.
Proof. apply set_data_deletes. Qed.

(** On a store that holds [m], [sysparam_get_data] returns the value and the
    binary flag of the key, or NOTFOUND when [m] has none; the only other result
    is NOMEM when one of its two allocations fails.  The store is unchanged, and
    one more block is allocated exactly when it succeeds. *)
Theorem sysparam_get_data_spec m o w key :
  represents m o w -> valid_key key ->
  exists st r w', sysparam_get_data key w = Some ((st, r), w') /\
    dev w' = dev w /\ info w' = info w /\
    live w' = (if is_ok st then live w + 1 else live w) /\
    ((st = SYSPARAM_ERR_NOMEM /\ false ∈ take 2 (allocs w)) \/
     match m !! key with
     | Some (v, b) => st = SYSPARAM_OK /\
         r = {| gr_data := v; gr_length := Z.of_nat (length v); gr_binary := b |}
     | None => st = SYSPARAM_NOTFOUND
     end).
Proof. apply get_data_run. Qed.

(** The static getter needs a buffer at least as long as the key, copies at
    most [size] bytes of the value into it and reports the whole length. *)
Theorem sysparam_get_data_static_spec m o w key size :
  represents m o w -> valid_key key -> Z.max (strlen key) 2 <= size ->
  exists st r, sysparam_get_data_static key size w = Some ((st, r), w) /\
    match m !! key with
    | Some (v, b) => st = SYSPARAM_OK /\
        r = {| gr_data := take (Z.to_nat size) v; gr_length := Z.of_nat (length v); gr_binary := b |}
    | None => st = SYSPARAM_NOTFOUND
    end.
Proof. apply get_data_static_run. Qed.

(** A client that starts an iterator, calls [sysparam_iter_next] until it does
    not return OK and ends the iterator sees each parameter of [m] exactly once,
    and no block of memory is leaked. *)
Theorem sysparam_iter_enumerates m o w :
  represents m o w -> allocs w = [] ->
  exists xs it', (
      '(status, it) ← sysparam_iter_start;
      '(status', it', xs) ← iter_collect (region_fuel (info w)) it;
      sysparam_iter_end it';;
      mret (status, status', it', xs) : ST (world D) _) w =
      Some ((SYSPARAM_OK, SYSPARAM_NOTFOUND, it', xs), w) /\
    NoDup (map fst xs) /\ list_to_map xs = m.
Proof. apply iter_enumerates. Qed.

(** C3: compaction for a key that the log names, while every malloc succeeds:
    it returns OK and copies the store to the other region without changing any
    parameter but the one being set, whose value is dropped; no space and no
    memory is lost.  If the key has a value (if it was not deleted), the key id
    that is returned names the key in the new region.  For a deleted key the id is
    not renewed ([sysparam_stale_key_id]). *)
Theorem compact_params_keeps m o w ctx key kid e l :
  store (dev w) (info w) l -> headers (dev w) (info w) -> wf_log l -> params l = m ->
  orphans l = o -> allocs w = [] -> e ∈ keys l -> le_payload e = key -> e_id e = kid ->
  exists ctx' kid' w' l', _compact_params ctx kid w = Some ((SYSPARAM_OK, ctx', kid'), w') /\
    store (dev w') (info w') l' /\ headers (dev w') (info w') /\ wf_log l' /\
    params l' = delete key m /\ cur_base (info w') = alt_base (info w) /\
    (key ∉ o -> exists e', e' ∈ keys l' /\ le_payload e' = key /\ e_id e' = kid') /\
    live w' = live w /\ room (info w) <= room (info w').
Proof.
  intros Hst Hh Hwf <- <- Hal He Hke Hid.
  destruct (compact_params_spec w l ctx kid Hal Hst Hh Hwf) as (d' & E & Hst' & Hh').
  set (L := compacted kid 0 (items l)) in *.
  assert (Hname : names_id l kid key) by (by eapply names_key).
  do 4 eexists. split; [exact E|]. split; [exact Hst'|]. split; [exact Hh'|].
  split; [by apply compact_log_wf|]. split; [by apply compact_log_params|]. split; [done|].
  split; [|split; [done|]].
  - intros Hno. destruct (params l !! key) as [x|] eqn:Hx.
    + apply params_item in Hx as (y & Hy & Hkv); [|done].
      destruct (compacted_renum kid 0 (items l) y) as (e2 & ? & ? & Hk2); auto.
      * done. * by apply items_length.
      * destruct (items_key y l Hy) as (e3 & He3 & -> & Hk3). apply Hname; [done|].
        rewrite <- Hk3. by injection Hkv.
      * by apply sorted_NoDup, items_sorted.
      * exists e2. split_and!; auto. rewrite Hk2. by injection Hkv.
    + destruct Hno. apply orphans_elem; [done|]. split; [|done]. rewrite <- Hke.
      by apply list_elem_of_fmap_2.
  - pose proof (compacted_size kid 0 (items l)) as Hc. fold L in Hc.
    pose proof (items_size_le l Hwf). pose proof (st_end _ _ _ Hst) as Hend.
    unfold room, region_end, log_start in *. simpl. unfold REGION_HEADER_SIZE in *. lia.
Qed.

(** Creating an area of sectors at a sector boundary, forced or on erased
    flash, and then initialising from its start gives an empty store. *)
Theorem sysparam_create_then_init base n force w :
  area_ok (D:=D) base n -> allocs w = [] ->
  force = true \/ (base + 2 * (n * sector_size sdk_flashchip) + SCAN_OVERRUN <= chip_size sdk_flashchip /\
    erased (dev w) base (base + 2 * (n * sector_size sdk_flashchip) + SCAN_OVERRUN)) ->
  exists w1 w2, sysparam_create_area base (2 * n) force w = Some (SYSPARAM_OK, w1) /\
    sysparam_init base 0 w1 = Some (SYSPARAM_OK, w2) /\
    represents ∅ ∅ w2 /\ allocs w2 = [] /\ live w2 = live w /\ sem_taken (info w2) = 0.
Proof. apply create_then_init. Qed.

(** Without [force], an area with a byte that is not erased is left alone and
    the result is NOTFOUND. *)
Theorem sysparam_create_area_refuses base n w b :
  area_ok (D:=D) base n ->
  base + 2 * (n * sector_size sdk_flashchip) + SCAN_OVERRUN <= chip_size sdk_flashchip ->
  base <= b < base + 2 * (n * sector_size sdk_flashchip) -> fbyte (dev w) b <> 255 ->
  sysparam_create_area base (2 * n) false w = Some (SYSPARAM_NOTFOUND, w).
Proof. apply create_area_used. Qed.

(** C20: after a restart, whatever the globals held and whichever mallocs
    succeed, [sysparam_init] on a chip that represents the parameters [m], from
    the lower region on (the upper limit of the scan being 0 or not below it),
    finds the current region, and the store holds the same parameters. *)
Theorem sysparam_init_recovers m o w i0 a k top :
  represents m o w ->
  let base := Z.min (cur_base (info w)) (alt_base (info w)) in
  top = 0 \/ base <= top ->
  exists w', sysparam_init base top (World (dev w) i0 a k) = Some (SYSPARAM_OK, w') /\
    represents m o w' /\ dev w' = dev w /\ sem_taken (info w') = 0.
Proof. apply init_again. Qed.

(** C1: refinement: while every malloc succeeds, a session of gets, stores and
    deletes (valid keys, values of 1 to 65535 bytes, keys and values word-aligned
    in memory) on a store that represents [m] returns results that the operations
    on the map allow, and ends in a store that represents the resulting map, up
    to the first attempt, if any, to store a deleted key that the log still names.
    Allowed are: the value or NOTFOUND for a get; OK for a store, or ERR_FULL
    with the map unchanged or without the old value of this key; OK or NOTFOUND
    for a delete.  Nothing is leaked and the semaphore is released.  (With a
    failed malloc the operations return ERR_NOMEM; that is not covered.) *)
Theorem sysparam_session_refines xs m o w :
  represents m o w -> allocs w = [] -> Forall op_valid xs ->
  exists ys zs rs m' o' w', xs = ys ++ zs /\ exec_all ys w = Some (rs, w') /\
    allowed_all m ys rs m' /\ represents m' o' w' /\ allocs w' = [] /\
    live w' = live w /\ sem_taken (info w') = sem_taken (info w) /\
    (zs = [] \/ exists key val bin zs', zs = Put key val bin :: zs' /\ key ∈ o').
Proof. apply session_run. Qed.
End contract.

(** ** Runs on a concrete chip

    An area of two sectors at 0x10000 of the chip of [SpiFlash]. *)

Definition world0 : world spi_dev := World blank_dev info_zero [] 0.
Definition final {W A} (default : W) (m : ST W A) (w : W) : W :=
  match m w with Some (_, w') => w' | None => default end.
Definition world1 : world spi_dev :=
  Eval vm_compute in final world0 (sysparam_create_area 0x10000 2 true;; sysparam_init 0x10000 0) world0.

Lemma world0_area : area_ok (D:=spi_dev) 0x10000 1.
Proof.
  split; change (sector_size (sdk_flashchip (D:=spi_dev))) with 4096;
    change (chip_size (sdk_flashchip (D:=spi_dev))) with 4194304; unfold REGION_MASK_SIZE;
    [lia|reflexivity|lia|lia|lia].
Qed.

Lemma world1_represents : represents ∅ ∅ world1.
Proof.
  destruct (create_then_init 0x10000 1 true world0 world0_area eq_refl (or_introl eq_refl))
    as (w1 & w2 & E1 & E2 & Hr & _).
  assert (w2 = world1) as <-; [|done].
  assert (Ec : (sysparam_create_area 0x10000 2 true;; sysparam_init 0x10000 0) world0 = Some (SYSPARAM_OK, w2)).
  { unfold mbind, st_bind. change (2 * 1) with 2 in E1. by rewrite E1, E2. }
  assert (Ev : (sysparam_create_area 0x10000 2 true;; sysparam_init 0x10000 0) world0 = Some (SYSPARAM_OK, world1))
    by (vm_compute; reflexivity).
  rewrite Ev in Ec. by injection Ec.
Qed.

Definition key_a : list Z := [97].
Definition key_b : list Z := [98].
Definition world2 : world spi_dev :=
  Eval vm_compute in final world1 (sysparam_set_data key_a (Some [1; 2; 3]) 3 true false) world1.

Lemma valid_key_a : valid_key key_a.
Proof. split; [repeat constructor; unfold is_byte; lia|unfold MAX_KEY_LEN; simpl; lia]. Qed.

Lemma world2_represents : represents {[key_a := ([1; 2; 3], false)]} ∅ world2.
Proof.
  destruct (set_data_stores ∅ ∅ world1 key_a [1; 2; 3] true false world1_represents eq_refl valid_key_a)
    as (st & w' & E & Hout); [done|repeat constructor; unfold is_byte; lia|unfold MAX_VALUE_LEN; simpl; lia|set_solver|].
  assert (Ev : sysparam_set_data key_a (Some [1; 2; 3]) 3 true false world1 = Some (SYSPARAM_OK, world2))
    by (vm_compute; reflexivity).
  change (Z.of_nat (length [1; 2; 3])) with 3 in E. rewrite Ev in E. injection E as <- <-.
  destruct Hout as [[_ Hl]|[Hf _]]; [|discriminate Hf]. destruct (lw_represents _ _ _ _ Hl) as (o' & Hr & Ho).
  rewrite insert_empty in Hr. assert (o' = ∅) as -> by (clear -Ho; set_solver). exact Hr.
Qed.

(** A key that was deleted keeps its old id when storing it again triggers a
    compaction that renumbers the keys (lines 445-449 update [key_id] only for a
    key that has a value).  In this session the store of key a reports OK, the value is not found
    under a, and after the next store of key b reading b returns the value of a. *)
Theorem sysparam_stale_key_id :
  exec_all [Put key_a [1] false; Put key_b [2] false; Del key_a; Put [99] (replicate 3000 7) true;
            Del [99]; Put key_a (replicate 1500 3) true; Get key_a; Get key_b; Put key_b [4] false;
            Get key_b] world1 ≫= (fun r => Some r.1) =
  Some [(SYSPARAM_OK, None); (SYSPARAM_OK, None); (SYSPARAM_OK, None); (SYSPARAM_OK, None);
        (SYSPARAM_OK, None); (SYSPARAM_OK, None); (SYSPARAM_NOTFOUND, None);
        (SYSPARAM_OK, Some ([2], false)); (SYSPARAM_OK, None);
        (SYSPARAM_OK, Some (replicate 1500 3, true))].
Proof. vm_compute. reflexivity. Qed.

(** A store that fails with ERR_FULL can lose the old value of its key: the
    compaction of lines 877-892 drops it before the second check of the space. *)
Theorem sysparam_full_loses_value :
  exec_all [Put key_a [1] false; Put key_b [2] false; Del key_b; Put key_a (replicate 5000 3) true;
            Get key_a] world1 ≫= (fun r => Some r.1) =
  Some [(SYSPARAM_OK, None); (SYSPARAM_OK, None); (SYSPARAM_OK, None); (SYSPARAM_ERR_FULL, None);
        (SYSPARAM_NOTFOUND, None)].
Proof. vm_compute. reflexivity. Qed.

(** ** Witnesses *)

Lemma key_b_fresh : key_b ∈ (∅ : gset (list Z)) -> ENTRY_SIZE 2 <= room (info world2).
Proof. set_solver. Qed.
Lemma valid_key_b : valid_key key_b.
Proof. split; [repeat constructor; unfold is_byte; lia|unfold MAX_KEY_LEN; simpl; lia]. Qed.

Lemma sysparam_set_data_stores_witness :
  exists st w', sysparam_set_data key_b (Some [4; 5]) 2 true true world2 = Some (st, w') /\
    set_outcome key_b ([4; 5], true) {[key_a := ([1; 2; 3], false)]} ∅ world2 st w'.
Proof.
  refine (sysparam_set_data_stores {[key_a := ([1; 2; 3], false)]} ∅ world2 key_b [4; 5] true true
    world2_represents eq_refl valid_key_b _ (bytes_check [4; 5] eq_refl) _ key_b_fresh);
    [discriminate|unfold MAX_VALUE_LEN; simpl; lia].
Defined.

Lemma sysparam_set_data_deletes_witness :
  exists w', sysparam_set_data key_a None 0 true false world2 = Some (SYSPARAM_OK, w') /\
    left_with (delete key_a {[key_a := ([1; 2; 3], false)]}) ({[key_a]} ∪ ∅) world2 w'.
Proof.
  exact (sysparam_set_data_deletes _ _ world2 key_a None true false world2_represents eq_refl
    valid_key_a (or_introl eq_refl)).
Defined.

Lemma sysparam_get_data_spec_witness :
  exists st r w', sysparam_get_data key_a world2 = Some ((st, r), w') /\ dev w' = dev world2 /\
    st = SYSPARAM_OK /\ gr_data r = [1; 2; 3].
Proof.
  destruct (sysparam_get_data_spec _ _ world2 key_a world2_represents valid_key_a)
    as (st & r & w' & E & Hd & _ & _ & [[_ Hin]|Hc]).
  - exfalso. by apply elem_of_nil in Hin.
  - destruct Hc as [-> ->]. exists SYSPARAM_OK. eexists. exists w'. split; [exact E|].
    split; [exact Hd|]. split; reflexivity.
Defined.

Lemma sysparam_get_data_static_spec_witness :
  exists r, sysparam_get_data_static key_a 2 world2 = Some ((SYSPARAM_OK, r), world2) /\
    gr_data r = [1; 2] /\ gr_length r = 3.
Proof.
  destruct (sysparam_get_data_static_spec _ _ world2 key_a 2 world2_represents valid_key_a)
    as (st & r & E & Hc); [simpl; lia|].
  destruct Hc as [-> ->]. eexists. split; [exact E|]. split; reflexivity.
Defined.

Lemma sysparam_iter_enumerates_witness :
  exists xs, NoDup (map fst xs) /\
    list_to_map xs =@{gmap (list Z) (list Z * bool)} {[key_a := ([1; 2; 3], false)]}.
Proof.
  destruct (sysparam_iter_enumerates _ _ world2 world2_represents eq_refl) as (xs & it' & _ & Hn & Hm).
  exists xs. split; [exact Hn|exact Hm].
Defined.

Lemma compact_params_keeps_witness :
  exists l e, store (dev world2) (info world2) l /\ e ∈ keys l /\
    exists ctx' kid' w', _compact_params context_zero (e_id e) world2 =
      Some ((SYSPARAM_OK, ctx', kid'), w') /\ room (info world2) <= room (info w') /\
      exists l' e', store (dev w') (info w') l' /\ e' ∈ keys l' /\ le_payload e' = key_a /\ e_id e' = kid'.
Proof.
  destruct world2_represents as (l & Hst & Hh & Hwf & Hp & Ho).
  assert (Hkey : key_a ∈ map le_payload (keys l)).
  { destruct (decide (key_a ∈ map le_payload (keys l))) as [|Hn]; [assumption|].
    apply params_None in Hn. rewrite Hp in Hn. discriminate Hn. }
  apply list_elem_of_fmap in Hkey as (e & Heq & He).
  exists l, e. split; [exact Hst|]. split; [exact He|].
  destruct (compact_params_keeps _ ∅ world2 context_zero key_a (e_id e) e l Hst Hh Hwf Hp Ho eq_refl He
    (eq_sym Heq) eq_refl) as (ctx' & kid' & w' & l' & E & Hst' & _ & _ & _ & _ & Hid & _ & Hr).
  assert (Hno : key_a ∉ (∅ : gset (list Z))) by by apply not_elem_of_empty.
  destruct (Hid Hno) as (e' & He' & Hk' & Hi'). exists ctx', kid', w'. split; [exact E|]. split; [exact Hr|].
  exists l', e'. exact (conj Hst' (conj He' (conj Hk' Hi'))).
Defined.

Lemma sysparam_create_then_init_witness :
  exists w1 w2, sysparam_create_area 0x10000 2 false world0 = Some (SYSPARAM_OK, w1) /\
    sysparam_init 0x10000 0 w1 = Some (SYSPARAM_OK, w2) /\ represents ∅ ∅ w2.
Proof.
  destruct (sysparam_create_then_init 0x10000 1 false world0 world0_area eq_refl)
    as (w1 & w2 & E1 & E2 & Hr & _).
  - right. split; [vm_compute; discriminate|]. intros a _. reflexivity.
  - exists w1, w2. split; [exact E1|]. split; [exact E2|exact Hr].
Defined.

Lemma sysparam_create_area_refuses_witness :
  sysparam_create_area 0x10000 2 false world2 = Some (SYSPARAM_NOTFOUND, world2).
Proof.
  apply (sysparam_create_area_refuses 0x10000 1 world2 0x10000 world0_area);
    [vm_compute; discriminate | vm_compute; split; [discriminate|reflexivity] | vm_compute; discriminate].
Defined.

Lemma sysparam_init_recovers_witness :
  exists w', sysparam_init 0x10000 0 (World (dev world2) info_zero [] 0) = Some (SYSPARAM_OK, w') /\
    represents {[key_a := ([1; 2; 3], false)]} ∅ w'.
Proof.
  destruct (sysparam_init_recovers _ _ world2 info_zero [] 0 0 world2_represents (or_introl eq_refl))
    as (w' & E & Hr & _).
  exists w'. split; [exact E|exact Hr].
Defined.

Lemma sysparam_session_refines_witness :
  exists ys zs rs m', [Put key_b [4] false; Get key_a; Del key_a] = ys ++ zs /\
    allowed_all {[key_a := ([1; 2; 3], false)]} ys rs m'.
Proof.
  destruct (sysparam_session_refines [Put key_b [4] false; Get key_a; Del key_a] _ _ world2
    world2_represents eq_refl) as (ys & zs & rs & m' & o' & w' & E & _ & Ha & _).
  - constructor; [split; [exact valid_key_b|split; [discriminate|split; [exact (bytes_check [4] eq_refl)|
      unfold MAX_VALUE_LEN; simpl; lia]]]|].
    constructor; [split; [exact valid_key_a|exact I]|].
    constructor; [split; [exact valid_key_a|exact I]|constructor].
  - exists ys, zs, rs, m'. split; [exact E|exact Ha].
Defined.
