(* ===== verification/SysparamValues.v ===== *)
(** * Integers and booleans in the parameter store

    The last operations of core/sysparam.c: [sysparam_get_int], [sysparam_get_bool],
    [sysparam_set_int] and [sysparam_set_bool], which keep a number or a truth value
    as text, with the C library functions they use: [strtol] with base 0,
    [strcasecmp] and the format %d of [snprintf].

    [sysparam_int_roundtrip] and [sysparam_bool_roundtrip]: what is stored is read
    back, over any flash device that works. *)

From Stdlib Require Import String Ascii.
From S2P Require Import Prelude Flash SpiFlash Sysparam SysparamLog SysparamGet SysparamSet.
From S2P Require Import SysparamSpec SysparamContract.
Local Open Scope Z_scope.

(** ** The C library *)

Definition c_string (s : string) : list Z :=
  map (fun a => Z.of_N (N_of_ascii a)) (list_ascii_of_string s).

Definition isspace (c : Z) : bool := (c =? 32) || ((9 <=? c) && (c <=? 13)).
Definition tolower (c : Z) : Z := if (65 <=? c) && (c <=? 90) then c + 32 else c.

(** [strcasecmp(a, b) == 0] and [strcmp(a, b) == 0] on strings without a NUL. *)
Definition strcasecmp_eq (a b : list Z) : bool := bool_decide (map tolower a = map tolower b).
Definition strcmp_eq (a b : list Z) : bool := bool_decide (a = b).

(** The value of a digit, when it is one in the base. *)
Definition digit_of (base c : Z) : option Z :=
  let d := if (48 <=? c) && (c <=? 57) then c - 48
           else if (97 <=? tolower c) && (tolower c <=? 122) then tolower c - 87
           else 255 in
  if d <? base then Some d else None.

Fixpoint skip_space (s : list Z) : list Z :=
  match s with
  | [] => []
  | c :: s' => if isspace c then skip_space s' else s
  end.

(** The digits at the start of the string: their value, and what follows. *)
Fixpoint read_digits (base : Z) (s : list Z) (acc : Z) : Z * list Z :=
  match s with
  | [] => (acc, [])
  | c :: s' =>
      match digit_of base c with
      | Some d => read_digits base s' (acc * base + d)
      | None => (acc, s)
      end
  end.

Definition LONG_MIN : Z := - 2 ^ 31.
Definition LONG_MAX : Z := 2 ^ 31 - 1.

(** The base and the digits of a number: 0x introduces hexadecimal digits, 0 octal
    ones. *)
Definition number_base (s : list Z) : Z * list Z :=
  match s with
  | 48 :: x :: h :: s' =>
      if ((x =? 120) || (x =? 88)) && bool_decide (is_Some (digit_of 16 h)) then (16, h :: s')
      else (8, s)
  | 48 :: _ => (8, s)
  | _ => (10, s)
  end.

(** [strtol(s, &end, 0)]: the value, and the string from [end] on. *)
Definition strtol (s : list Z) : Z * list Z :=
  let t := skip_space s in
  let '(negative, t) :=
    match t with
    | c :: t' => if c =? 45 then (true, t') else if c =? 43 then (false, t') else (false, t)
    | [] => (false, [])
    end in
  let '(base, t) := number_base t in
  match t with
  | c :: _ =>
      if decide (is_Some (digit_of base c)) then
        let '(n, rest) := read_digits base t 0 in
        (Z.max LONG_MIN (Z.min LONG_MAX (if negative then - n else n)), rest)
      else (0, s)
  | [] => (0, s)
  end.

(** The decimal digits of [n], at most [fuel] of them. *)
Fixpoint decimal (fuel : nat) (n : Z) : list Z :=
  match fuel with
  | O => []
  | S fuel => (if n <? 10 then [] else decimal fuel (n / 10)) ++ [48 + n mod 10]
  end.

(** What [snprintf(buffer, size, "%d", value)] stores, without the NUL. *)
Definition snprintf_d (size : nat) (value : Z) : list Z :=
  take (size - 1) (if value <? 0 then 45 :: decimal 10 (- value) else decimal 10 value).

(** ** The operations *)

Section values.
Context `{FlashDev D}.

Definition sysparam_get_int (key : list Z) : ST (world D) (sysparam_status_t * Z) :=
  '(status, buffer) ← sysparam_get_string key;
  if negb (is_ok status) then mret (status, 0)
  else
    let '(value, endptr) := strtol buffer in
    match endptr with
    | _ :: _ => free;; mret (SYSPARAM_PARSEFAILED, 0)
    | [] => free;; mret (SYSPARAM_OK, s32 value)
    end.

Definition bool_true (buffer : list Z) : bool :=
  strcasecmp_eq buffer (c_string "y") || strcasecmp_eq buffer (c_string "yes") ||
  strcasecmp_eq buffer (c_string "t") || strcasecmp_eq buffer (c_string "true") ||
  strcmp_eq buffer (c_string "1").
Definition bool_false (buffer : list Z) : bool :=
  strcasecmp_eq buffer (c_string "n") || strcasecmp_eq buffer (c_string "no") ||
  strcasecmp_eq buffer (c_string "f") || strcasecmp_eq buffer (c_string "false") ||
  strcmp_eq buffer (c_string "0").

Definition sysparam_get_bool (key : list Z) : ST (world D) (sysparam_status_t * bool) :=
  '(status, buffer) ← sysparam_get_string key;
  if negb (is_ok status) then mret (status, false)
  else
    let '(status, result) :=
      if bool_true buffer then (SYSPARAM_OK, true)
      else if bool_false buffer then (SYSPARAM_OK, false)
      else (SYSPARAM_PARSEFAILED, false) in
    free;; mret (status, result).

(** The value passed on is the part of the buffer that is stored; [aligned]: the
    buffer on the stack is at a multiple of 4. *)
Definition sysparam_set_int (key : list Z) (value : Z) (aligned : bool) : ST (world D) sysparam_status_t :=
  let buffer := snprintf_d 12 value in
  sysparam_set_data key (Some buffer) (Z.of_nat (List.length buffer)) aligned false.

Definition sysparam_set_bool (key : list Z) (value aligned : bool) : ST (world D) sysparam_status_t :=
  '(status, old_value) ← sysparam_get_bool key;
  if is_ok status && eqb old_value value then mret SYSPARAM_OK
  else sysparam_set_data key (Some (if value then c_string "y" else c_string "n")) 1 aligned false.
End values.

(** ** Numbers as text *)

Section text.

Lemma read_digits_app base l s acc n :
  read_digits base l acc = (n, []) -> read_digits base (l ++ s) acc = read_digits base s n.
Proof.
  revert acc; induction l as [|c l IH]; intros acc; simpl; [by intros [= ->]|].
  destruct (digit_of base c); [apply IH|done].
Qed.

Lemma digit_of_decimal d : 0 <= d < 10 -> digit_of 10 (48 + d) = Some d.
Proof.
  intros ?. unfold digit_of. rewrite (proj2 (Z.leb_le 48 _)), (proj2 (Z.leb_le _ 57)) by lia.
  cbn [andb]. zif. f_equal. lia.
Qed.

Lemma read_decimal fuel n acc : 0 <= n < 10 ^ Z.of_nat fuel -> (0 < fuel)%nat ->
  exists k, read_digits 10 (decimal fuel n) acc = (acc * 10 ^ k + n, []) /\ 0 <= k.
Proof.
  revert n acc; induction fuel as [|fuel IH]; intros n acc Hn Hf; [lia|].
  cbn [decimal]. pose proof (Z.mod_pos_bound n 10 ltac:(lia)).
  destruct (Z.ltb_spec n 10).
  - exists 1. simpl. rewrite digit_of_decimal by lia. rewrite Z.mod_small by lia.
    split; [f_equal; lia|lia].
  - destruct fuel as [|fuel]; [simpl in Hn; lia|].
    destruct (IH (n / 10) acc) as (k & E & Hk).
    { split; [apply Z.div_pos; lia|]. apply Z.div_lt_upper_bound; [lia|].
      rewrite Nat2Z.inj_succ, Z.pow_succ_r in Hn by lia. lia. }
    { lia. }
    exists (k + 1). rewrite (read_digits_app _ _ _ _ _ E). simpl. rewrite digit_of_decimal by lia.
    split; [|lia]. f_equal. rewrite Z.pow_add_r by lia.
    pose proof (Z.div_mod n 10). lia.
Qed.

Lemma decimal_head fuel n : 0 <= n < 10 ^ Z.of_nat fuel -> (0 < fuel)%nat ->
  exists d l, decimal fuel n = 48 + d :: l /\ 0 <= d < 10 /\ (0 < n -> 0 < d) /\
    (n = 0 -> l = []).
Proof.
  revert n; induction fuel as [|fuel IH]; intros n Hn Hf; [lia|].
  cbn [decimal]. pose proof (Z.mod_pos_bound n 10 ltac:(lia)).
  destruct (Z.ltb_spec n 10).
  - exists (n mod 10), []. rewrite Z.mod_small by lia. split_and!; auto; lia.
  - destruct fuel as [|fuel]; [simpl in Hn; lia|].
    destruct (IH (n / 10)) as (d & l & -> & Hd & Hpos & _).
    { split; [apply Z.div_pos; lia|]. apply Z.div_lt_upper_bound; [lia|].
      rewrite Nat2Z.inj_succ, Z.pow_succ_r in Hn by lia. lia. }
    { lia. }
    exists d, (l ++ [48 + n mod 10]). split_and!; auto; try lia.
    intros _. apply Hpos. apply Z.div_str_pos. lia.
Qed.

Lemma length_decimal fuel n : (List.length (decimal fuel n) <= fuel)%nat.
Proof.
  revert n; induction fuel as [|fuel IH]; intros n; simpl; [done|].
  rewrite length_app. simpl. destruct (n <? 10); simpl; [lia|]. pose proof (IH (n / 10)). lia.
Qed.

Lemma number_base_decimal n : 0 <= n < 10 ^ 10 ->
  exists base c l, number_base (decimal 10 n) = (base, c :: l) /\ 48 <= c <= 57 /\
    decimal 10 n = c :: l /\ is_Some (digit_of base c) /\ read_digits base (c :: l) 0 = (n, []).
Proof.
  intros Hn. destruct (decimal_head 10 n Hn ltac:(lia)) as (d & l & E & Hd & Hpos & Hz).
  destruct (Z.eq_dec n 0) as [->|Hne].
  { exists 8, 48, []. split_and!; try done; by eexists. }
  exists 10, (48 + d), l. rewrite E. specialize (Hpos ltac:(lia)).
  assert (number_base (48 + d :: l) = (10, 48 + d :: l)) as ->.
  { assert (d = 1 \/ d = 2 \/ d = 3 \/ d = 4 \/ d = 5 \/ d = 6 \/ d = 7 \/ d = 8 \/ d = 9)
      as Hc by lia. by repeat destruct Hc as [->|Hc]; subst. }
  split_and!; try done; try lia.
  - rewrite digit_of_decimal by done. by eexists.
  - destruct (read_decimal 10 n 0 Hn ltac:(lia)) as (k & Hk & _). rewrite E in Hk.
    by rewrite Z.mul_0_l in Hk.
Qed.

(** What [snprintf] prints [strtol] reads. *)
Lemma strtol_snprintf v : - 2 ^ 31 <= v < 2 ^ 31 -> strtol (snprintf_d 12 v) = (v, []).
Proof.
  intros Hv. unfold snprintf_d. change (12 - 1)%nat with 11%nat.
  assert (Hn : 0 <= Z.abs v < 10 ^ 10) by lia.
  pose proof (length_decimal 10 (Z.abs v)) as Hl.
  destruct (number_base_decimal _ Hn) as (base & c & l & Eb & Hc & E & Hd & Hr).
  destruct (Z.ltb_spec v 0) as [Hneg|Hpos].
  - rewrite <- Z.abs_neq by lia. rewrite take_ge by (cbn [List.length]; lia).
    unfold strtol. cbn [skip_space]. change (isspace 45) with false. cbv iota beta. rewrite Z.eqb_refl, Eb.
    rewrite decide_True by done. rewrite Hr. f_equal. unfold LONG_MIN, LONG_MAX. lia.
  - rewrite <- (Z.abs_eq v) at 1 by lia. rewrite take_ge by lia.
    unfold strtol. rewrite E. cbn [skip_space].
    replace (isspace c) with false
      by (symmetry; unfold isspace; rewrite !orb_false_iff, !andb_false_iff, !Z.eqb_neq, !Z.leb_gt; lia).
    rewrite (proj2 (Z.eqb_neq c 45)), (proj2 (Z.eqb_neq c 43)) by lia.
    rewrite E in Eb. rewrite Eb, decide_True, Hr by done.
    f_equal. unfold LONG_MIN, LONG_MAX. lia.
Qed.

Lemma decimal_bytes fuel n : Forall (fun c => 48 <= c <= 57) (decimal fuel n).
Proof.
  revert n; induction fuel as [|fuel IH]; intros n; simpl; [constructor|].
  pose proof (Z.mod_pos_bound n 10). apply Forall_app. split.
  - destruct (n <? 10); [constructor|apply IH].
  - apply Forall_singleton. lia.
Qed.

Lemma snprintf_chars v : Forall (fun c => 45 <= c <= 57) (snprintf_d 12 v).
Proof.
  apply Forall_take. assert (Hd : forall n, Forall (fun c => 45 <= c <= 57) (decimal 10 n)).
  { intros n. eapply Forall_impl; [apply decimal_bytes|]. simpl. lia. }
  destruct (v <? 0); [constructor; [lia|]|]; apply Hd.
Qed.

Lemma length_snprintf v : (0 < List.length (snprintf_d 12 v) <= 11)%nat.
Proof.
  unfold snprintf_d. rewrite length_take. change (12 - 1)%nat with 11%nat.
  assert (forall n, (0 < List.length (decimal 10 n))%nat) as H.
  { intros n. cbn [decimal]. rewrite length_app. simpl. lia. }
  destruct (v <? 0); [simpl List.length; lia|]. pose proof (H v). lia.
Qed.
End text.

(** ** The operations on a store *)

Section stored_values.
Context `{FlashOk D}.
Implicit Types (w : world D) (m : gmap (list Z) (list Z * bool)) (o : gset (list Z)).

(** The bytes of a value up to a NUL: the string a client sees. *)
Definition text_of (v : list Z) : list Z := take (Z.to_nat (strlen v)) v.

Lemma get_string_all m o w key :
  represents m o w -> allocs w = [] -> valid_key key ->
  sysparam_get_string key w =
    match m !! key with
    | None => Some ((SYSPARAM_NOTFOUND, []), w)
    | Some (v, true) => Some ((SYSPARAM_PARSEFAILED, []), w)
    | Some (v, false) => Some ((SYSPARAM_OK, text_of v), World (dev w) (info w) [] (live w + 1))
    end.
Proof.
  intros Hrep Hal Hkey. unfold sysparam_get_string, mbind, st_bind.
  rewrite (get_data_all m o w key Hrep Hal Hkey).
  destruct (m !! key) as [[v []]|]; [|done|done].
  simpl. unfold free, st_modify. simpl. rewrite Z.add_simpl_r.
  by destruct w; simpl in *; subst.
Qed.

(** The results of the getters on the parameters [m]. *)
Definition int_value m key : sysparam_status_t * Z :=
  match m !! key with
  | None => (SYSPARAM_NOTFOUND, 0)
  | Some (v, true) => (SYSPARAM_PARSEFAILED, 0)
  | Some (v, false) =>
      match strtol (text_of v) with
      | (n, []) => (SYSPARAM_OK, s32 n)
      | _ => (SYSPARAM_PARSEFAILED, 0)
      end
  end.
Definition bool_value m key : sysparam_status_t * bool :=
  match m !! key with
  | None => (SYSPARAM_NOTFOUND, false)
  | Some (v, true) => (SYSPARAM_PARSEFAILED, false)
  | Some (v, false) =>
      if bool_true (text_of v) then (SYSPARAM_OK, true)
      else if bool_false (text_of v) then (SYSPARAM_OK, false)
      else (SYSPARAM_PARSEFAILED, false)
  end.

Lemma free_one w n : allocs w = [] -> live w = n ->
  free (World (dev w) (info w) [] (n + 1)) = Some ((), w).
Proof.
  intros Ha <-. unfold free, st_modify. simpl. rewrite Z.add_simpl_r.
  by destruct w; simpl in *; subst.
Qed.

Lemma get_int_all m o w key :
  represents m o w -> allocs w = [] -> valid_key key ->
  sysparam_get_int key w = Some (int_value m key, w).
Proof.
  intros Hrep Hal Hkey. unfold sysparam_get_int, int_value, mbind at 1, st_bind at 1.
  rewrite (get_string_all m o w key Hrep Hal Hkey).
  destruct (m !! key) as [[v []]|]; [done| |done]. cbn [negb is_ok].
  destruct (strtol (text_of v)) as [n []]; unfold mbind, st_bind; by rewrite free_one.
Qed.

Lemma get_bool_all m o w key :
  represents m o w -> allocs w = [] -> valid_key key ->
  sysparam_get_bool key w = Some (bool_value m key, w).
Proof.
  intros Hrep Hal Hkey. unfold sysparam_get_bool, bool_value, mbind at 1, st_bind at 1.
  rewrite (get_string_all m o w key Hrep Hal Hkey).
  destruct (m !! key) as [[v []]|]; [done| |done]. cbn [negb is_ok].
  destruct (bool_true _); [|destruct (bool_false _)]; unfold mbind, st_bind; by rewrite free_one.
Qed.

Lemma text_of_nonzero v : Forall (fun c => c <> 0) v -> text_of v = v.
Proof. intros. unfold text_of. rewrite strlen_nonzero, Nat2Z.id by done. apply firstn_all. Qed.

Lemma set_outcome_represents key x m o w st w' : set_outcome key x m o w st w' ->
  (st = SYSPARAM_OK /\ exists o', represents (<[key:=x]> m) o' w' /\ allocs w' = []) \/
  st = SYSPARAM_ERR_FULL.
Proof.
  intros [[-> [(o' & Hr & _) Ha _ _]]|[-> _]]; [left|by right]. split; [done|]. by exists o'.
Qed.

(** An integer that sysparam_set_int stores is read back by sysparam_get_int,
    for every 32-bit value, and the integers under the other keys are unchanged;
    the only other result is ERR_FULL. *)
Theorem sysparam_int_roundtrip m o w key v aligned :
  represents m o w -> allocs w = [] -> valid_key key -> - 2 ^ 31 <= v < 2 ^ 31 ->
  (key ∈ o -> ENTRY_SIZE (Z.of_nat (List.length (snprintf_d 12 v))) <= room (info w)) ->
  exists st w', sysparam_set_int key v aligned w = Some (st, w') /\
    (st = SYSPARAM_OK \/ st = SYSPARAM_ERR_FULL) /\
    (st = SYSPARAM_OK ->
     sysparam_get_int key w' = Some ((SYSPARAM_OK, v), w') /\
     forall k, k <> key -> valid_key k -> sysparam_get_int k w' = Some (int_value m k, w')).
Proof.
  intros Hrep Hal Hkey Hv Hroom. pose proof (snprintf_chars v) as Hch. pose proof (length_snprintf v).
  destruct (set_data_stores m o w key (snprintf_d 12 v) aligned false Hrep Hal Hkey) as (st & w' & E & Hout).
  { destruct (snprintf_d 12 v); [simpl in *; lia|done]. }
  { eapply Forall_impl; [exact Hch|]. unfold is_byte. simpl. lia. }
  { unfold MAX_VALUE_LEN. lia. }
  { done. }
  exists st, w'. split; [exact E|]. apply set_outcome_represents in Hout as [[-> (o' & Hr & Ha)]| ->].
  2:{ split; [by right|done]. }
  split; [by left|]. intros _. split; [|intros k Hk Hvk].
  - rewrite (get_int_all _ o' w' key Hr Ha Hkey). unfold int_value. rewrite lookup_insert_eq.
    rewrite text_of_nonzero by (eapply Forall_impl; [exact Hch|]; simpl; lia).
    rewrite strtol_snprintf, s32_small by lia. done.
  - rewrite (get_int_all _ o' w' k Hr Ha Hvk). unfold int_value. by rewrite lookup_insert_ne.
Qed.

(** A truth value that sysparam_set_bool stores is read back by
    sysparam_get_bool; when the parameter already reads as that value, in any of
    the spellings, nothing is written. *)
Theorem sysparam_bool_roundtrip m o w key b aligned :
  represents m o w -> allocs w = [] -> valid_key key ->
  (key ∈ o -> ENTRY_SIZE 1 <= room (info w)) ->
  exists st w', sysparam_set_bool key b aligned w = Some (st, w') /\
    (st = SYSPARAM_OK \/ st = SYSPARAM_ERR_FULL) /\
    (st = SYSPARAM_OK -> sysparam_get_bool key w' = Some ((SYSPARAM_OK, b), w')) /\
    (bool_value m key = (SYSPARAM_OK, b) -> st = SYSPARAM_OK /\ w' = w).
Proof.
  intros Hrep Hal Hkey Hroom. unfold sysparam_set_bool, mbind at 1, st_bind at 1.
  rewrite (get_bool_all m o w key Hrep Hal Hkey).
  destruct (bool_value m key) as [st0 b0] eqn:Eb.
  destruct (is_ok st0 && eqb b0 b) eqn:Es.
  { apply andb_prop in Es as [Es ->%eqb_prop]. destruct st0; try done.
    exists SYSPARAM_OK, w. rewrite (get_bool_all m o w key Hrep Hal Hkey), Eb.
    split_and!; auto. }
  set (txt := if b then c_string "y" else c_string "n").
  assert (Ht : txt = [if b then 121 else 110]) by by destruct b.
  destruct (set_data_stores m o w key txt aligned false Hrep Hal Hkey) as (st & w' & E & Hout);
    rewrite ?Ht in *; try done.
  { apply Forall_singleton. unfold is_byte. destruct b; lia. }
  exists st, w'. split; [exact E|]. apply set_outcome_represents in Hout as [[-> (o' & Hr & Ha)]| ->].
  2:{ split_and!; [by right|done|]. intros [= -> ->]. simpl in Es. by rewrite eqb_reflx in Es. }
  split_and!; [by left| |].
  - intros _. rewrite (get_bool_all _ o' w' key Hr Ha Hkey). unfold bool_value.
    rewrite lookup_insert_eq, text_of_nonzero by (apply Forall_singleton; by destruct b).
    by destruct b.
  - intros [= -> ->]. simpl in Es. by rewrite eqb_reflx in Es.
Qed.
End stored_values.

(** ** Runs on the chip of [SysparamContract] *)

Lemma sysparam_int_roundtrip_witness :
  exists st w', sysparam_set_int key_b (-2147483648) true world2 = Some (st, w') /\
    (st = SYSPARAM_OK \/ st = SYSPARAM_ERR_FULL) /\
    (st = SYSPARAM_OK ->
     sysparam_get_int key_b w' = Some ((SYSPARAM_OK, -2147483648), w') /\
     forall k, k <> key_b -> valid_key k ->
       sysparam_get_int k w' = Some (int_value {[key_a := ([1; 2; 3], false)]} k, w')).
Proof.
  apply (sysparam_int_roundtrip _ ∅ world2 key_b (-2147483648) true world2_represents eq_refl valid_key_b);
    [lia|set_solver].
Defined.

Lemma sysparam_bool_roundtrip_witness :
  exists st w', sysparam_set_bool key_b true true world2 = Some (st, w') /\
    (st = SYSPARAM_OK \/ st = SYSPARAM_ERR_FULL) /\
    (st = SYSPARAM_OK -> sysparam_get_bool key_b w' = Some ((SYSPARAM_OK, true), w')) /\
    (bool_value {[key_a := ([1; 2; 3], false)]} key_b = (SYSPARAM_OK, true) ->
       st = SYSPARAM_OK /\ w' = world2).
Proof.
  apply (sysparam_bool_roundtrip _ ∅ world2 key_b true true world2_represents eq_refl valid_key_b).
  set_solver.
Defined.
