(* ===== verification/Rboot.v ===== *)
(** * bootloader/rboot/rboot.c: choosing and checking the image to boot

    The boot loader over a machine [M] with the flash functions of the ESP8266
    ROM and its memory-mapped registers.  The compile-time options of rboot.h are
    the fields of [options].  A buffer on the stack is the list of its bytes, and
    the structures laid over it are read and written at their offsets, so an index
    past [MAX_ROMS] reads what the program reads.  Messages are recorded in
    [printed]; the memory that [find_image] copies the second stage to is [ram].
    What the build makes of the linked second stage (rboot-hex2a.h) is a parameter,
    [loader]. *)

From S2P Require Import Prelude.
Local Open Scope Z_scope.

(** ** Constants (rboot-private.h, rboot.h) *)

Definition ROM_MAGIC : Z := 0xe9.
Definition ROM_MAGIC_NEW1 : Z := 0xea.
Definition ROM_MAGIC_NEW2 : Z := 0x04.
Definition BUFFER_SIZE : Z := 0x100.
Definition CHKSUM_INIT : Z := 0xef.
Definition SECTOR_SIZE : Z := 0x1000.
Definition BOOT_CONFIG_SECTOR : Z := 1.
Definition BOOT_CONFIG_MAGIC : Z := 0xe1.
Definition BOOT_CONFIG_VERSION : Z := 0x01.
Definition MODE_STANDARD : Z := 0.
Definition MODE_GPIO_ROM : Z := 1.
Definition MODE_TEMP_ROM : Z := 2.
Definition MODE_GPIO_ERASES_SDKCONFIG : Z := 4.
Definition RBOOT_RTC_MAGIC : Z := 0x2334ae68.
Definition RBOOT_RTC_READ : Z := 1.
Definition RBOOT_RTC_WRITE : Z := 0.
Definition RBOOT_RTC_ADDR : Z := 64.
Definition sizeof_rom_header : Z := 8.
Definition sizeof_rom_header_new : Z := 16.
Definition sizeof_section_header : Z := 8.
Definition sizeof_rboot_rtc_data : Z := 12.

Record options := {
  BOOT_CONFIG_CHKSUM : bool;
  BOOT_BIG_FLASH : bool;
  BOOT_RTC_ENABLED : bool;
  BOOT_GPIO_ENABLED : bool;
  BOOT_GPIO_NUM : Z;
  BOOT_IROM_CHKSUM : bool;
  MAX_ROMS : Z
}.
(** The options of the repository: bootloader/rboot.h defines [BOOT_BIG_FLASH] and
    [BOOT_RTC_ENABLED]; the others have the defaults of rboot/rboot.h. *)
Definition default_options : options :=
  {| BOOT_CONFIG_CHKSUM := false; BOOT_BIG_FLASH := true; BOOT_RTC_ENABLED := true;
     BOOT_GPIO_ENABLED := false; BOOT_GPIO_NUM := 16; BOOT_IROM_CHKSUM := false; MAX_ROMS := 4 |}.

(** The ROM functions and the bus.  [SPIRead m a n] is the return code and the
    bytes put in the buffer. *)
Class Machine (M : Type) := {
  SPIRead : M -> Z -> Z -> Z * list Z;
  SPIEraseSector : M -> Z -> M;
  SPIWrite : M -> Z -> list Z -> Z -> M;
  READ_PERI_REG : M -> Z -> Z;
  WRITE_PERI_REG : M -> Z -> Z -> M
}.

(** ** Structures in buffers *)

Definition get8 (b : list Z) (off : Z) : Z := nth (Z.to_nat off) b 0.
Definition set8 (b : list Z) (off v : Z) : list Z := <[Z.to_nat off := u8 v]> b.
Definition get32 (b : list Z) (off : Z) : Z := le_val (take 4 (drop (Z.to_nat off) b)).
Fixpoint set_bytes (b : list Z) (off : Z) (vs : list Z) : list Z :=
  match vs with
  | [] => b
  | v :: vs => set_bytes (set8 b off v) (off + 1) vs
  end.
Definition set32 (b : list Z) (off v : Z) : list Z := set_bytes b off (le_bytes 4 v).

(** [rom_header], [rom_header_new] and [section_header]. *)
Definition hdr_magic (b : list Z) : Z := get8 b 0.
Definition hdr_count (b : list Z) : Z := get8 b 1.
Definition hdr_flags1 (b : list Z) : Z := get8 b 2.
Definition hdr_flags2 (b : list Z) : Z := get8 b 3.
Definition hdr_new_len (b : list Z) : Z := get32 b 12.
Definition sect_length (b : list Z) : Z := get32 b 4.

(** [rboot_config]. *)
Definition cf_magic : Z := 0.
Definition cf_version : Z := 1.
Definition cf_mode : Z := 2.
Definition cf_current_rom : Z := 3.
Definition cf_gpio_rom : Z := 4.
Definition cf_count : Z := 5.
Definition cf_roms (i : Z) : Z := 8 + 4 * i.
Definition cf_chksum (o : options) : Z := 8 + 4 * MAX_ROMS o.
Definition sizeof_rboot_config (o : options) : Z :=
  8 + 4 * MAX_ROMS o + (if BOOT_CONFIG_CHKSUM o then 4 else 0).

(** [rboot_rtc_data]. *)
Definition rt_magic : Z := 0.
Definition rt_next_mode : Z := 4.
Definition rt_last_mode : Z := 5.
Definition rt_last_rom : Z := 6.
Definition rt_temp_rom : Z := 7.
Definition rt_chksum : Z := 8.

Inductive message :=
  | Banner
  | FlashSize (mbit : option Z)
  | FlashMode (mode : option Z)
  | FlashSpeed (speed : option Z)
  | Options
  | WritingDefaultConfig
  | InvalidTempRom
  | BootingTempRom
  | InvalidGpioRom
  | BootingGpioRom
  | ErasingSdkConfig
  | InvalidRom
  | GpioRomBad (rom : Z)
  | TempRomBad (rom : Z)
  | RomBad (rom : Z)
  | NoGoodRom
  | BootingRom (rom : Z).

(** ** Memory *)

Definition memory : Type := Z -> Z.
Definition store_byte (ram : memory) (a b : Z) : memory := fun x => if x =? a then b else ram x.
Fixpoint store_bytes (ram : memory) (a : Z) (bs : list Z) : memory :=
  match bs with
  | [] => ram
  | b :: bs => store_bytes (store_byte ram a b) (u32 (a + 1)) bs
  end.
Definition ets_memcpy (ram : memory) (dest : Z) (buffer : list Z) (n : Z) : memory :=
  store_bytes ram dest (take (Z.to_nat n) buffer).

(** The constants of rboot-hex2a.h: where the second stage goes and its bytes. *)
Record stage2_image := {
  _text_addr : Z;
  _text_data : list Z;
  _text_len : Z
}.

Section rboot.
Context `{Machine M} (o : options) (loader : stage2_image).

(** ** check_image *)

(** [for (loop = 0; loop < readlen; loop++) chksum ^= buffer[loop]] *)
Definition chksum_block (chksum : Z) (bs : list Z) : Z := fold_left Z.lxor bs chksum.

(** The loop of lines 80-96: the data of a section.  [inl] continues with the
    read position and the checksum, [inr] is an early return. *)
Fixpoint check_data (fuel : nat) (m : M) (readpos remaining chksum : Z)
    : option ((Z * Z) + Z) :=
  match fuel with
  | O => None
  | S fuel =>
      if 0 <? remaining then
        let readlen := if remaining <? BUFFER_SIZE then remaining else BUFFER_SIZE in
        let '(rc, buffer) := SPIRead m readpos readlen in
        if negb (rc =? 0) then Some (inr 0)
        else check_data fuel m (u32 (readpos + readlen)) (remaining - readlen)
               (chksum_block chksum buffer)
      else Some (inl (readpos, chksum))
  end.

(** The loop of lines 68-109 over the sections. *)
Fixpoint check_sections (fuel : nat) (m : M) (readpos sectcurrent sectcount chksum : Z)
    : option ((Z * Z) + Z) :=
  match fuel with
  | O => None
  | S fuel =>
      if sectcurrent <? sectcount then
        let '(rc, section) := SPIRead m readpos sizeof_section_header in
        if negb (rc =? 0) then Some (inr 0)
        else
          let readpos := u32 (readpos + sizeof_section_header) in
          let remaining := sect_length section in
          match check_data (S (S (Z.to_nat (remaining / BUFFER_SIZE)))) m readpos remaining chksum with
          | Some (inl (readpos, chksum)) =>
              if BOOT_IROM_CHKSUM o && (sectcount =? 0xff) then
                let '(rc, header) := SPIRead m readpos sizeof_rom_header in
                if negb (rc =? 0) then Some (inr 0)
                else check_sections fuel m (u32 (readpos + sizeof_rom_header)) (u8 (sectcurrent + 1))
                       (u8 (hdr_count header + 1)) chksum
              else check_sections fuel m readpos (u8 (sectcurrent + 1)) sectcount chksum
          | r => r
          end
      else Some (inl (readpos, chksum))
  end.

(** Lines 111-122: the stored checksum. *)
Definition check_finish (m : M) (readpos chksum romaddr : Z) : Z :=
  let '(rc, buffer) := SPIRead m (Z.lor readpos 0x0f) 1 in
  if negb (rc =? 0) then 0 else if get8 buffer 0 =? chksum then romaddr else 0.

(** Lines 33-65: the header.  The address of the image, where its sections
    start and how many there are, or [None] for a return of 0. *)
Definition check_header (m : M) (readpos : Z) : option (Z * Z * Z) :=
  let '(rc, header) := SPIRead m readpos sizeof_rom_header_new in
  if negb (rc =? 0) then None
  else if hdr_magic header =? ROM_MAGIC then
    Some (readpos, u32 (readpos + sizeof_rom_header), hdr_count header)
  else if (hdr_magic header =? ROM_MAGIC_NEW1) && (hdr_count header =? ROM_MAGIC_NEW2) then
    let romaddr := u32 (readpos + hdr_new_len header + sizeof_rom_header_new) in
    if BOOT_IROM_CHKSUM o then Some (romaddr, u32 (readpos + sizeof_rom_header), 0xff)
    else
      let '(rc, header) := SPIRead m romaddr sizeof_rom_header in
      if negb (rc =? 0) then None
      else Some (romaddr, u32 (romaddr + sizeof_rom_header), hdr_count header)
  else None.

Definition check_image (m : M) (readpos : Z) : option Z :=
  if (readpos =? 0) || (readpos =? 0xffffffff) then Some 0
  else
    match check_header m readpos with
    | None => Some 0
    | Some (romaddr, readpos, sectcount) =>
        match check_sections 257 m readpos 0 sectcount CHKSUM_INIT with
        | Some (inl (readpos, chksum)) => Some (check_finish m readpos chksum romaddr)
        | Some (inr r) => Some r
        | None => None
        end
    end.

(** ** GPIO *)

Definition RTC_GPIO_OUT : Z := 0x60000700 + 0x068.
Definition RTC_GPIO_ENABLE : Z := 0x60000700 + 0x074.
Definition RTC_GPIO_IN_DATA : Z := 0x60000700 + 0x08c.
Definition RTC_GPIO_CONF : Z := 0x60000700 + 0x090.
Definition PAD_XPD_DCDC_CONF : Z := 0x60000700 + 0x0a0.
Definition GPIO_IN_ADDRESS : Z := 0x60000300 + 0x18.
Definition GPIO_ENABLE_OUT_ADDRESS : Z := 0x60000300 + 0x0c.
Definition REG_IOMUX_BASE : Z := 0x60000800.
Definition IOMUX_PULLUP_MASK : Z := Z.shiftl 1 7.
Definition IOMUX_FUNC_MASK : Z := 0x0130.
Definition IOMUX_REG_OFFS : list Z :=
  [0x34; 0x18; 0x38; 0x14; 0x3c; 0x40; 0x1c; 0x20; 0x24; 0x28; 0x2c; 0x30; 0x04; 0x08; 0x0c; 0x10].
Definition IOMUX_GPIO_FUNC : list Z :=
  [0x00; 0x30; 0x00; 0x30; 0x00; 0x00; 0x30; 0x30; 0x30; 0x30; 0x30; 0x30; 0x30; 0x30; 0x30; 0x30].

Definition update_reg (m : M) (reg keep set : Z) : M :=
  WRITE_PERI_REG m reg (Z.lor (Z.land (READ_PERI_REG m reg) keep) set).

Definition get_gpio16 (m : M) : Z * M :=
  let m := update_reg m RTC_GPIO_OUT 0xfffffffe 1 in
  let m := update_reg m PAD_XPD_DCDC_CONF 0xffffffbc 1 in
  let m := update_reg m RTC_GPIO_CONF 0xfffffffe 0 in
  let m := WRITE_PERI_REG m RTC_GPIO_ENABLE (Z.land (READ_PERI_REG m RTC_GPIO_ENABLE) 0xfffffffe) in
  (Z.land (READ_PERI_REG m RTC_GPIO_IN_DATA) 1, m).

Definition get_gpio (m : M) (gpio_num : Z) : Z * M :=
  let bit := Z.shiftl 1 gpio_num in
  let old_out := READ_PERI_REG m GPIO_ENABLE_OUT_ADDRESS in
  let m := WRITE_PERI_REG m GPIO_ENABLE_OUT_ADDRESS (Z.ldiff old_out bit) in
  let iomux_reg := REG_IOMUX_BASE + get8 IOMUX_REG_OFFS gpio_num in
  let old_iomux := READ_PERI_REG m iomux_reg in
  let gpio_func := get8 IOMUX_GPIO_FUNC gpio_num in
  let new_iomux := Z.lor (Z.lor (Z.ldiff old_iomux IOMUX_FUNC_MASK) gpio_func) IOMUX_PULLUP_MASK in
  let m := WRITE_PERI_REG m iomux_reg new_iomux in
  let result := Z.land (READ_PERI_REG m GPIO_IN_ADDRESS) bit in
  let m := WRITE_PERI_REG m iomux_reg old_iomux in
  let m := WRITE_PERI_REG m GPIO_ENABLE_OUT_ADDRESS old_out in
  (if result =? 0 then 0 else 1, m).

(** C's [b] as an integer. *)
Definition c_bool (b : bool) : Z := if b then 1 else 0.

(** [romconf->mode & MODE_GPIO_ROM == 0]: the comparison binds tighter. *)
Definition perform_gpio_boot (m : M) (conf : list Z) : bool * M :=
  if negb (Z.land (get8 conf cf_mode) (c_bool (MODE_GPIO_ROM =? 0)) =? 0) then (false, m)
  else
    let '(pin, m) := if BOOT_GPIO_NUM o =? 16 then get_gpio16 m else get_gpio m (BOOT_GPIO_NUM o) in
    (pin =? 0, m).

(** ** The RTC memory and checksums *)

Definition rtc_word (addr : Z) : Z := 0x60001100 + 4 * addr.

(** The loop of lines 220-228 copies the words below [n], the last one first. *)
Fixpoint rtc_copy (n : nat) (m : M) (addr : Z) (buff : list Z) (mode : Z) : list Z * M :=
  match n with
  | O => (buff, m)
  | S n =>
      let b := Z.of_nat n in
      if mode =? RBOOT_RTC_WRITE
      then rtc_copy n (WRITE_PERI_REG m (rtc_word (addr + b)) (get32 buff (4 * b))) addr buff mode
      else rtc_copy n m addr (set32 buff (4 * b) (READ_PERI_REG m (rtc_word (addr + b)))) mode
  end.

(** [buff = None] is the null pointer, [aligned]: it is a multiple of 4. *)
Definition system_rtc_mem (m : M) (addr : Z) (buff : option (list Z)) (aligned : bool)
    (length mode : Z) : Z * list Z * M :=
  let bytes := default [] buff in
  if addr <? 64 then (0, bytes, m)
  else match buff with
  | None => (0, bytes, m)
  | Some _ =>
      if negb aligned then (0, bytes, m)
      else if negb (Z.land length 3 =? 0) then (0, bytes, m)
      else if s32 (0x300 - addr * 4) <? length then (0, bytes, m)
      else
        let '(bytes, m) := rtc_copy (Z.to_nat (Z.shiftr length 2)) m addr bytes mode in
        (1, bytes, m)
  end.

(** The bytes of [b] from its start to offset [n]. *)
Definition calc_chksum (b : list Z) (n : Z) : Z :=
  fold_left Z.lxor (take (Z.to_nat n) b) CHKSUM_INIT.

(** ** find_image *)

Record boot_state := Boot { mach : M; printed : list message; ram : memory }.
Abbreviation B := (ST boot_state).

Definition ets_printf (x : message) : B unit :=
  st_modify (fun s => Boot (mach s) (printed s ++ [x]) (ram s)).
Definition on_mach {A} (f : M -> A * M) : B A :=
  fun s => let '(x, m) := f (mach s) in Some (x, Boot m (printed s) (ram s)).
Definition spi_read (a n : Z) : B (list Z) := on_mach (fun m => ((SPIRead m a n).2, m)).
Definition spi_erase (sector : Z) : B unit := on_mach (fun m => ((), SPIEraseSector m sector)).
Definition rom_spi_write (a : Z) (bs : list Z) (n : Z) : B unit := on_mach (fun m => ((), SPIWrite m a bs n)).
Definition do_check (readpos : Z) : B Z :=
  fun s => match check_image (mach s) readpos with Some r => Some (r, s) | None => None end.

(** Lines 283-311. *)
Definition flash_size (flag : Z) : Z * option Z :=
  if flag =? 0 then (0x80000, Some 4)
  else if flag =? 1 then (0x40000, Some 2)
  else if flag =? 2 then (0x100000, Some 8)
  else if flag =? 3 then (if BOOT_BIG_FLASH o then 0x200000 else 0x100000, Some 16)
  else if flag =? 4 then (if BOOT_BIG_FLASH o then 0x400000 else 0x100000, Some 32)
  else (0x80000, None).

(** Lines 278-352: read the ROM header and report. *)
Definition read_flash_info : B Z :=
  ets_printf Banner;;
  header ← spi_read 0 sizeof_rom_header;
  let '(flashsize, mbit) := flash_size (Z.shiftr (hdr_flags2 header) 4) in
  ets_printf (FlashSize mbit);;
  ets_printf (FlashMode (if hdr_flags1 header <? 4 then Some (hdr_flags1 header) else None));;
  let flag := Z.land (hdr_flags2 header) 0x0f in
  ets_printf (FlashSpeed (if (flag <? 3) || (flag =? 0x0f) then Some flag else None));;
  ets_printf Options;;
  mret flashsize.

Definition update_chksum (conf : list Z) : list Z :=
  if BOOT_CONFIG_CHKSUM o then set8 conf (cf_chksum o) (calc_chksum conf (cf_chksum o)) else conf.

Definition config_valid (conf : list Z) : bool :=
  negb (negb (get8 conf cf_magic =? BOOT_CONFIG_MAGIC) || negb (get8 conf cf_version =? BOOT_CONFIG_VERSION)
    || (BOOT_CONFIG_CHKSUM o && negb (get8 conf (cf_chksum o) =? calc_chksum conf (cf_chksum o)))).

(** Lines 364-372. *)
Definition default_config (buffer : list Z) (flashsize : Z) : list Z :=
  let conf := replicate (Z.to_nat (sizeof_rboot_config o)) 0 ++
              drop (Z.to_nat (sizeof_rboot_config o)) buffer in
  let conf := set8 conf cf_magic BOOT_CONFIG_MAGIC in
  let conf := set8 conf cf_version BOOT_CONFIG_VERSION in
  let conf := set8 conf cf_count 2 in
  let conf := set32 conf (cf_roms 0) (SECTOR_SIZE * (BOOT_CONFIG_SECTOR + 1)) in
  let conf := set32 conf (cf_roms 1) (flashsize / 2 + SECTOR_SIZE * (BOOT_CONFIG_SECTOR + 1)) in
  update_chksum conf.

Definition write_config (conf : list Z) : B unit :=
  spi_erase BOOT_CONFIG_SECTOR;; rom_spi_write (BOOT_CONFIG_SECTOR * SECTOR_SIZE) conf SECTOR_SIZE.

(** Lines 354-376. *)
Definition load_config (flashsize : Z) : B (list Z) :=
  buffer ← spi_read (BOOT_CONFIG_SECTOR * SECTOR_SIZE) SECTOR_SIZE;
  if config_valid buffer then mret buffer
  else
    ets_printf WritingDefaultConfig;;
    let conf := default_config buffer flashsize in
    write_config conf;; mret conf.

(** The variables of [find_image] after the configuration is loaded. *)
Record boot_vars := {
  bv_conf : list Z;
  bv_rom : Z;
  bv_update : bool;
  bv_gpio : bool;
  bv_temp : bool;
  bv_rtc : list Z
}.

(** Lines 381-396: a temporary ROM; [None] returns 0. *)
Definition select_temp (v : boot_vars) : B (option boot_vars) :=
  if BOOT_RTC_ENABLED o then
    '(rc, rtc) ← on_mach (fun m =>
      let '(rc, b, m) := system_rtc_mem m RBOOT_RTC_ADDR (Some (bv_rtc v)) true
                           sizeof_rboot_rtc_data RBOOT_RTC_READ in ((rc, b), m));
    let v := {| bv_conf := bv_conf v; bv_rom := bv_rom v; bv_update := bv_update v;
                bv_gpio := bv_gpio v; bv_temp := bv_temp v; bv_rtc := rtc |} in
    if negb (rc =? 0) && (get8 rtc rt_chksum =? calc_chksum rtc rt_chksum) then
      if negb (Z.land (get8 rtc rt_next_mode) MODE_TEMP_ROM =? 0) then
        if get8 (bv_conf v) cf_count <=? get8 rtc rt_temp_rom then
          ets_printf InvalidTempRom;; mret None
        else
          ets_printf BootingTempRom;;
          mret (Some {| bv_conf := bv_conf v; bv_rom := get8 rtc rt_temp_rom;
                        bv_update := bv_update v; bv_gpio := bv_gpio v; bv_temp := true;
                        bv_rtc := rtc |})
      else mret (Some v)
    else mret (Some v)
  else mret (Some v).

(** Lines 407-409: [sec] from 1 to 4. *)
Definition erase_sdk_config (flashsize : Z) : B unit :=
  spi_erase (flashsize / SECTOR_SIZE - 1);; spi_erase (flashsize / SECTOR_SIZE - 2);;
  spi_erase (flashsize / SECTOR_SIZE - 3);; spi_erase (flashsize / SECTOR_SIZE - 4).

(** Lines 398-415: a ROM selected by the GPIO. *)
Definition select_gpio (v : boot_vars) (flashsize : Z) : B (option boot_vars) :=
  if BOOT_GPIO_ENABLED o then
    gpio ← on_mach (fun m => perform_gpio_boot m (bv_conf v));
    if (gpio : bool) then
      if get8 (bv_conf v) cf_count <=? get8 (bv_conf v) cf_gpio_rom then
        ets_printf InvalidGpioRom;; mret None
      else
        ets_printf BootingGpioRom;;
        (if negb (Z.land (get8 (bv_conf v) cf_mode) MODE_GPIO_ERASES_SDKCONFIG =? 0)
         then ets_printf ErasingSdkConfig;; erase_sdk_config flashsize else mret ());;
        mret (Some {| bv_conf := bv_conf v; bv_rom := get8 (bv_conf v) cf_gpio_rom;
                      bv_update := true; bv_gpio := true; bv_temp := bv_temp v; bv_rtc := bv_rtc v |})
    else mret (Some v)
  else mret (Some v).

(** Lines 417-425. *)
Definition check_current (v : boot_vars) : B boot_vars :=
  if get8 (bv_conf v) cf_count <=? get8 (bv_conf v) cf_current_rom then
    ets_printf InvalidRom;;
    mret {| bv_conf := set8 (bv_conf v) cf_current_rom 0; bv_rom := 0; bv_update := true;
            bv_gpio := bv_gpio v; bv_temp := bv_temp v; bv_rtc := bv_rtc v |}
  else mret v.

Definition rom_address (v : boot_vars) (rom : Z) : Z := get32 (bv_conf v) (cf_roms rom).
Definition with_rom (v : boot_vars) (rom : Z) (update : bool) : boot_vars :=
  {| bv_conf := bv_conf v; bv_rom := rom; bv_update := update; bv_gpio := bv_gpio v;
     bv_temp := bv_temp v; bv_rtc := bv_rtc v |}.

(** The loop of lines 450-463; [None] when no ROM is good. *)
Fixpoint try_roms (fuel : nat) (v : boot_vars) (runAddr : Z) : B (option (boot_vars * Z)) :=
  match fuel with
  | O => out_of_fuel
  | S fuel =>
      if runAddr =? 0 then
        ets_printf (RomBad (bv_rom v));;
        let rom := bv_rom v - 1 in
        let rom := if rom <? 0 then get8 (bv_conf v) cf_count - 1 else rom in
        if rom =? get8 (bv_conf v) cf_current_rom then ets_printf NoGoodRom;; mret None
        else
          runAddr ← do_check (rom_address v rom);
          try_roms fuel (with_rom v rom true) runAddr
      else mret (Some (v, runAddr))
  end.

Definition write_rtc (rtc : list Z) : B unit :=
  on_mach (fun m =>
    let '(_, _, m) := system_rtc_mem m RBOOT_RTC_ADDR (Some rtc) true
                        sizeof_rboot_rtc_data RBOOT_RTC_WRITE in ((), m)).

(** Lines 437-447. *)
Definition reset_temp (v : boot_vars) : B unit :=
  let rtc := set8 (bv_rtc v) rt_next_mode MODE_STANDARD in
  write_rtc (set8 rtc rt_chksum (calc_chksum rtc rt_chksum)).

(** Lines 465-488. *)
Definition finish_boot (v : boot_vars) : B unit :=
  (if bv_update v then
     write_config (update_chksum (set8 (bv_conf v) cf_current_rom (bv_rom v)))
   else mret ());;
  (if BOOT_RTC_ENABLED o then
     let rtc := set32 (bv_rtc v) rt_magic RBOOT_RTC_MAGIC in
     let rtc := set8 rtc rt_next_mode MODE_STANDARD in
     let mode := Z.lor (if bv_temp v then MODE_TEMP_ROM else MODE_STANDARD)
                   (if BOOT_GPIO_ENABLED o && bv_gpio v then MODE_GPIO_ROM else 0) in
     let rtc := set8 rtc rt_last_mode mode in
     let rtc := set8 rtc rt_last_rom (bv_rom v) in
     let rtc := set8 rtc rt_temp_rom 0 in
     write_rtc (set8 rtc rt_chksum (calc_chksum rtc rt_chksum))
   else mret ()).

(** Line 492: copy the second stage to the top of the instruction RAM. *)
Definition copy_loader : B unit :=
  st_modify (fun s => Boot (mach s) (printed s)
    (ets_memcpy (ram s) (_text_addr loader) (_text_data loader) (_text_len loader))).

(** Lines 427-494: boot the selected ROM or an earlier one. *)
Definition boot_rom (v : boot_vars) : B Z :=
  runAddr ← do_check (rom_address v (bv_rom v));
  if BOOT_GPIO_ENABLED o && bv_gpio v && (runAddr =? 0) then
    ets_printf (GpioRomBad (bv_rom v));; mret 0
  else if BOOT_RTC_ENABLED o && bv_temp v && (runAddr =? 0) then
    ets_printf (TempRomBad (bv_rom v));; reset_temp v;; mret 0
  else
    found ← try_roms 257 v runAddr;
    match found with
    | None => mret 0
    | Some (v, runAddr) => finish_boot v;; ets_printf (BootingRom (bv_rom v));; copy_loader;; mret runAddr
    end.

(** [rtc0]: what the stack holds where [rtc] lies. *)
Definition find_image (rtc0 : list Z) : B Z :=
  flashsize ← read_flash_info;
  conf ← load_config flashsize;
  let v := {| bv_conf := conf; bv_rom := get8 conf cf_current_rom; bv_update := false;
              bv_gpio := false; bv_temp := false; bv_rtc := rtc0 |} in
  v ← select_temp v;
  match v with
  | None => mret 0
  | Some v =>
      v ← select_gpio v flashsize;
      match v with
      | None => mret 0
      | Some v => v ← check_current v; boot_rom v
      end
  end.
End rboot.
