(* ===== verification/RbootImage.v ===== *)
(** * rBoot: what check_image accepts

    [check_image] reads a ROM image section by section.  On a flash whose bytes
    are given by a function, it accepts exactly the images whose stored checksum
    is the exclusive or of the section data; on any flash it returns. *)

From S2P Require Import Prelude Rboot.
Local Open Scope Z_scope.

(** ** Bytes of the flash *)

Definition rom_bytes (rom : Z -> Z) (p n : Z) : list Z :=
  map (fun i => rom (p + Z.of_nat i)) (seq 0 (Z.to_nat n)).
Definition rom_holds (rom : Z -> Z) (p : Z) (bs : list Z) : Prop :=
  forall i b, bs !! i = Some b -> rom (p + Z.of_nat i) = b.

Lemma length_rom_bytes rom p n : length (rom_bytes rom p n) = Z.to_nat n.
Proof. unfold rom_bytes. by rewrite length_map, length_seq. Qed.

Lemma lookup_rom_bytes rom p n i :
  (i < Z.to_nat n)%nat -> rom_bytes rom p n !! i = Some (rom (p + Z.of_nat i)).
Proof.
  intros Hi. unfold rom_bytes. change (map ?f ?l) with (f <$> l).
  by rewrite list_lookup_fmap, lookup_seq_lt by done.
Qed.

Lemma rom_bytes_eq rom p bs : rom_holds rom p bs -> rom_bytes rom p (Z.of_nat (length bs)) = bs.
Proof.
  intros Hh. apply list_eq. intros i. destruct (decide (i < length bs)%nat) as [Hi|Hi].
  - rewrite lookup_rom_bytes by lia. destruct (lookup_lt_is_Some_2 bs i Hi) as [b Hb].
    by rewrite (Hh i b Hb).
  - rewrite !lookup_ge_None_2; [done|lia|rewrite length_rom_bytes; lia].
Qed.

Lemma rom_holds_app rom p bs cs :
  rom_holds rom p (bs ++ cs) <-> rom_holds rom p bs /\ rom_holds rom (p + Z.of_nat (length bs)) cs.
Proof.
  split.
  - intros Hh. split; intros i b Hi.
    + apply Hh. by apply lookup_app_l_Some.
    + rewrite <- (Hh (length bs + i)%nat b); [f_equal; lia|].
      rewrite lookup_app_r by lia. by replace (length bs + i - length bs)%nat with i by lia.
  - intros [H1 H2] i b Hi. apply lookup_app_Some in Hi as [Hi|[Hle Hi]]; [by apply H1|].
    rewrite <- (H2 _ _ Hi). f_equal. lia.
Qed.

Lemma rom_bytes_app rom p n k :
  0 <= n -> 0 <= k -> rom_bytes rom p (n + k) = rom_bytes rom p n ++ rom_bytes rom (p + n) k.
Proof.
  intros Hn Hk. apply list_eq. intros i.
  destruct (decide (i < Z.to_nat n)%nat) as [Hi|Hi].
  - rewrite lookup_app_l by (rewrite length_rom_bytes; lia). rewrite !lookup_rom_bytes by lia. done.
  - rewrite lookup_app_r by (rewrite length_rom_bytes; lia). rewrite length_rom_bytes.
    destruct (decide (i < Z.to_nat (n + k))%nat) as [Hi2|Hi2].
    + rewrite !lookup_rom_bytes by lia. do 2 f_equal. lia.
    + rewrite !lookup_ge_None_2; [done|rewrite length_rom_bytes; lia|rewrite length_rom_bytes; lia].
Qed.

(** [readpos | 0x0f] is the last byte of the 16-byte line of [readpos]. *)
Lemma lor_15 x : 0 <= x -> Z.lor x 0x0f = x / 16 * 16 + 15.
Proof.
  intros Hx.
  assert (E : Z.lor x 0x0f = Z.lor (Z.shiftl (Z.shiftr x 4) 4) 0x0f).
  { apply Z.bits_inj'; intros i Hi. rewrite !Z.lor_spec. destruct (Z.ltb_spec i 4).
    - replace (Z.testbit 0x0f i) with true; [by rewrite !orb_true_r|].
      assert (i = 0 \/ i = 1 \/ i = 2 \/ i = 3) as [->|[->|[->| ->]]] by lia; done.
    - rewrite Z.shiftl_spec_high, Z.shiftr_spec by lia. by replace (i - 4 + 4) with i by lia. }
  assert (Hl : Z.land (Z.shiftl (Z.shiftr x 4) 4) 0x0f = 0).
  { apply Z.bits_inj'; intros i Hi. rewrite Z.land_spec, Z.bits_0. destruct (Z.ltb_spec i 4).
    - by rewrite Z.shiftl_spec_low by lia.
    - change 0x0f with (Z.ones 4). rewrite Z.ones_spec_high by lia. apply andb_false_r. }
  pose proof (Z.add_lor_land (Z.shiftl (Z.shiftr x 4) 4) 0x0f) as Ha. rewrite Hl in Ha.
  rewrite E. rewrite Z.shiftl_mul_pow2, Z.shiftr_div_pow2 in * by lia.
  change (2 ^ 4) with 16 in *. lia.
Qed.

(** ** Images *)

Record rom_section := { rs_address : Z; rs_data : list Z }.
Definition section_bytes (s : rom_section) : list Z :=
  le_bytes 4 (rs_address s) ++ le_bytes 4 (Z.of_nat (length (rs_data s))) ++ rs_data s.
Definition sections_bytes (ss : list rom_section) : list Z := concat (map section_bytes ss).
Definition sections_data (ss : list rom_section) : list Z := concat (map rs_data ss).

(** A standard image: the header of rom_header, then the sections. *)
Definition image_bytes (flags1 flags2 entry : Z) (ss : list rom_section) : list Z :=
  [ROM_MAGIC; Z.of_nat (length ss); flags1; flags2] ++ le_bytes 4 entry ++ sections_bytes ss.

Definition image_chksum (ss : list rom_section) : Z := fold_left Z.lxor (sections_data ss) CHKSUM_INIT.

Section image.
Context `{Machine M} (o : options) (m : M) (rom : Z -> Z) (limit : Z).
Context (Hlimit : limit <= 2 ^ 31).
(** The first [limit] bytes of the flash can be read. *)
Context (Hread : forall p n, 0 <= p -> 0 <= n <= BUFFER_SIZE -> p + n <= limit ->
  SPIRead m p n = (0, rom_bytes rom p n)).

Lemma check_data_spec fuel p r c :
  0 <= p -> 0 <= r -> p + r <= limit -> (r + 255) / 256 < Z.of_nat fuel ->
  check_data fuel m p r c = Some (inl (p + r, fold_left Z.lxor (rom_bytes rom p r) c)).
Proof.
  revert p r c; induction fuel as [|fuel IH]; intros p r c Hp Hr Hlim Hf; unfold BUFFER_SIZE in *.
  { assert (0 <= (r + 255) / 256) by (apply Z.div_pos; lia). lia. }
  cbn [check_data]. unfold BUFFER_SIZE. destruct (Z.ltb_spec 0 r).
  2:{ replace r with 0 by lia. by rewrite Z.add_0_r. }
  set (n := if r <? 0x100 then r else 0x100).
  assert (Hn : 0 < n <= r /\ n <= 0x100) by (unfold n; destruct (Z.ltb_spec r 0x100); lia).
  rewrite Hread by lia. cbn [negb Z.eqb]. rewrite u32_small by lia.
  unfold chksum_block. rewrite IH; try lia.
  - replace (p + n + (r - n)) with (p + r) by lia. rewrite <- fold_left_app, <- rom_bytes_app by lia.
    by replace (n + (r - n)) with r by lia.
  - unfold n. destruct (Z.ltb_spec r 0x100); Z.div_mod_to_equations; lia.
Qed.

Lemma length_section_bytes s : Z.of_nat (length (section_bytes s)) = 8 + Z.of_nat (length (rs_data s)).
Proof. unfold section_bytes. rewrite !length_app, !length_le_bytes. lia. Qed.

Lemma section_header p s :
  rom_holds rom p (section_bytes s) ->
  rom_bytes rom p 8 = le_bytes 4 (rs_address s) ++ le_bytes 4 (Z.of_nat (length (rs_data s))).
Proof.
  unfold section_bytes. rewrite app_assoc. intros [Hh _]%rom_holds_app.
  apply rom_bytes_eq in Hh. by rewrite length_app, !length_le_bytes in Hh.
Qed.

Lemma check_sections_spec fuel ss p cur count c :
  0 <= p -> 0 <= cur -> cur + Z.of_nat (length ss) = count -> count <= 255 ->
  BOOT_IROM_CHKSUM o && (count =? 255) = false -> (length ss < fuel)%nat ->
  rom_holds rom p (sections_bytes ss) -> p + Z.of_nat (length (sections_bytes ss)) <= limit ->
  check_sections o fuel m p cur count c =
    Some (inl (p + Z.of_nat (length (sections_bytes ss)), fold_left Z.lxor (sections_data ss) c)).
Proof.
  intros Hp Hcur Hcount Hc255 Hirom. revert fuel p cur c Hp Hcur Hcount.
  induction ss as [|s ss IH]; intros [|fuel] p cur c Hp Hcur Hcount Hf Hh Hlim; simpl in Hf; try lia;
    cbn [check_sections].
  { simpl in Hcount. destruct (Z.ltb_spec cur count); [lia|]. simpl. by rewrite Z.add_0_r. }
  simpl in Hcount. destruct (Z.ltb_spec cur count); [|lia].
  unfold sections_bytes, sections_data in *. cbn [map concat] in *.
  apply rom_holds_app in Hh as [Hs Hh]. rewrite length_app in Hlim.
  pose proof (length_section_bytes s) as Hls. set (n := Z.of_nat (length (rs_data s))) in *.
  unfold sizeof_section_header. rewrite Hread by (unfold BUFFER_SIZE; lia). cbn [negb Z.eqb].
  rewrite (section_header p s Hs). fold n. rewrite u32_small by lia.
  assert (Hlen : sect_length (le_bytes 4 (rs_address s) ++ le_bytes 4 n) = n).
  { unfold sect_length, get32. rewrite drop_app_length' by done.
    rewrite firstn_all2 by done. rewrite le_val_bytes. apply Z.mod_small. lia. }
  rewrite Hlen. assert (0 <= n / BUFFER_SIZE) by (apply Z.div_pos; unfold BUFFER_SIZE; lia).
  rewrite check_data_spec by (unfold BUFFER_SIZE in *; Z.div_mod_to_equations; lia).
  rewrite Hirom. rewrite u8_small by lia. rewrite IH; try lia.
  - rewrite length_app, fold_left_app. do 3 f_equal; [lia|f_equal].
    unfold section_bytes in Hs. rewrite app_assoc in Hs. apply rom_holds_app in Hs as [_ Hd].
    apply rom_bytes_eq in Hd. rewrite <- Hd. f_equal.
  - replace (p + 8 + n) with (p + Z.of_nat (length (section_bytes s))) by lia. done.
Qed.

(** On a standard image [check_image] compares the checksum of the data with the
    byte at the next address that ends in 0xf. *)
Lemma check_image_standard a flags1 flags2 entry ss :
  0 < a -> Z.of_nat (length ss) <= 255 ->
  BOOT_IROM_CHKSUM o && (Z.of_nat (length ss) =? 255) = false ->
  is_byte flags1 -> is_byte flags2 ->
  let bs := image_bytes flags1 flags2 entry ss in
  let pos := Z.lor (a + Z.of_nat (length bs)) 0x0f in
  rom_holds rom a bs -> pos + 1 <= limit -> a + 16 <= limit ->
  check_image o m a = Some (if rom pos =? image_chksum ss then a else 0).
Proof.
  intros Ha Hss Hirom Hf1 Hf2 bs pos Hh Hpos H16.
  assert (Hle : a + Z.of_nat (length bs) <= pos).
  { unfold pos. rewrite lor_15 by lia. Z.div_mod_to_equations. lia. }
  unfold check_image. rewrite (proj2 (Z.eqb_neq a 0)), (proj2 (Z.eqb_neq a 0xffffffff)) by lia.
  cbn [orb]. unfold check_header, sizeof_rom_header_new.
  rewrite Hread by (unfold BUFFER_SIZE; lia). cbn [negb Z.eqb].
  assert (Hb : forall i b, bs !! i = Some b -> (i < 16)%nat -> get8 (rom_bytes rom a 16) (Z.of_nat i) = b).
  { intros i b Hi Hlt. unfold get8. rewrite Nat2Z.id. apply nth_lookup_Some with (d := 0).
    rewrite lookup_rom_bytes by lia. by rewrite (Hh i b Hi). }
  assert (Hm : get8 (rom_bytes rom a 16) 0 = ROM_MAGIC) by (apply (Hb 0%nat); done || lia).
  assert (Hc : get8 (rom_bytes rom a 16) 1 = Z.of_nat (length ss)) by (apply (Hb 1%nat); done || lia).
  unfold hdr_magic, hdr_count. rewrite Hm, Hc, Z.eqb_refl.
  unfold bs, image_bytes in Hh. rewrite app_assoc in Hh. apply rom_holds_app in Hh as [_ Hh].
  rewrite length_app, length_le_bytes in Hh. simpl length in Hh.
  assert (Hlb : Z.of_nat (length bs) = 8 + Z.of_nat (length (sections_bytes ss))).
  { unfold bs, image_bytes. rewrite !length_app, length_le_bytes. simpl. lia. }
  unfold sizeof_rom_header. rewrite u32_small by lia.
  rewrite check_sections_spec with (ss := ss); try lia; try done.
  unfold check_finish. replace (a + 8 + Z.of_nat (length (sections_bytes ss))) with
    (a + Z.of_nat (length bs)) by lia. fold pos.
  rewrite Hread by (unfold BUFFER_SIZE; lia). cbn [negb Z.eqb].
  unfold get8, rom_bytes. simpl. rewrite Z.add_0_r. done.
Qed.
End image.

(** ** check_image returns on every flash *)

Section total.
Context `{Machine M} (o : options) (m : M).
Context (Hbytes : forall p n, Forall is_byte (SPIRead m p n).2).

Lemma check_data_total fuel p r c :
  (0 < fuel)%nat -> (r + 255) / 256 < Z.of_nat fuel -> exists x, check_data fuel m p r c = Some x.
Proof.
  revert p r c; induction fuel as [|fuel IH]; intros p r c Hf Hr; [lia|].
  cbn [check_data]. unfold BUFFER_SIZE. destruct (Z.ltb_spec 0 r); [|by eexists].
  destruct (SPIRead m p _) as [rc buffer]. destruct (negb (rc =? 0)); [by eexists|].
  apply IH; destruct (Z.ltb_spec r 0x100); Z.div_mod_to_equations; lia.
Qed.

Lemma get8_byte b i : Forall is_byte b -> 0 <= get8 b i < 256.
Proof.
  intros Hb. unfold get8. destruct (nth_lookup_or_length b (Z.to_nat i) 0) as [Hl|Hl].
  - rewrite Forall_forall in Hb. apply (Hb (nth (Z.to_nat i) b 0)). by eapply list_elem_of_lookup_2.
  - rewrite nth_overflow by done. lia.
Qed.

Lemma check_sections_total fuel p cur count c :
  0 <= cur -> 0 <= count <= 255 -> 256 - cur < Z.of_nat fuel ->
  (0 < fuel)%nat -> exists x, check_sections o fuel m p cur count c = Some x.
Proof.
  revert p cur count c; induction fuel as [|fuel IH]; intros p cur count c Hcur Hcount Hf Hf0; [lia|].
  cbn [check_sections]. destruct (Z.ltb_spec cur count); [|by eexists].
  destruct (SPIRead m p sizeof_section_header) as [rc sect]. destruct (negb (rc =? 0)); [by eexists|].
  destruct (check_data_total (S (S (Z.to_nat (sect_length sect / BUFFER_SIZE))))
    (u32 (p + sizeof_section_header)) (sect_length sect) c) as [[[p' c']|r] E]; [lia| |..].
  { unfold BUFFER_SIZE. Z.div_mod_to_equations. lia. }
  2:{ rewrite E. by eexists. }
  rewrite E. destruct (BOOT_IROM_CHKSUM o && (count =? 0xff)).
  - destruct (SPIRead m p' sizeof_rom_header) as [rc' header]. destruct (negb (rc' =? 0)); [by eexists|].
    pose proof (u8_range (hdr_count header + 1)). rewrite u8_small by lia. apply IH; lia.
  - rewrite u8_small by lia. apply IH; lia.
Qed.

Lemma check_image_total a : exists r, check_image o m a = Some r.
Proof.
  unfold check_image. destruct (_ || _); [by eexists|].
  destruct (check_header o m a) as [[[romaddr p] count]|] eqn:Hh; [|by eexists].
  assert (Hc : 0 <= count <= 255).
  { unfold check_header in Hh. pose proof (Hbytes a sizeof_rom_header_new) as Hb.
    destruct (SPIRead m a sizeof_rom_header_new) as [rc h]. cbn [snd] in Hb.
    destruct (negb (rc =? 0)); [done|]. destruct (hdr_magic h =? ROM_MAGIC).
    { injection Hh as _ _ <-. pose proof (get8_byte h 1 Hb). unfold hdr_count. lia. }
    destruct (_ && _); [|done]. destruct (BOOT_IROM_CHKSUM o); [injection Hh as _ _ <-; lia|].
    set (q := u32 (a + hdr_new_len h + sizeof_rom_header_new)) in *.
    pose proof (Hbytes q sizeof_rom_header) as Hb'.
    destruct (SPIRead m q sizeof_rom_header) as [rc' h']. cbn [snd] in Hb'.
    destruct (negb (rc' =? 0)); [done|]. injection Hh as _ _ <-.
    pose proof (get8_byte h' 1 Hb'). unfold hdr_count. lia. }
  destruct (check_sections_total 257 p 0 count CHKSUM_INIT) as [[[p' c']|r] E]; [lia..| |];
    rewrite E; by eexists.
Qed.
End total.

(** ** The checksum detects a changed byte *)

Lemma fold_lxor l c : fold_left Z.lxor l c = Z.lxor c (fold_left Z.lxor l 0).
Proof.
  revert c; induction l as [|x l IH]; intros c; cbn [fold_left]; [by rewrite Z.lxor_0_r|].
  rewrite (IH (Z.lxor c x)), (IH (Z.lxor 0 x)), Z.lxor_0_l. apply Z.lxor_assoc.
Qed.

Lemma chksum_changed l1 x y l2 c :
  x <> y -> fold_left Z.lxor (l1 ++ x :: l2) c <> fold_left Z.lxor (l1 ++ y :: l2) c.
Proof.
  intros Hxy. rewrite !fold_left_app. simpl. set (d := fold_left Z.lxor l1 c).
  rewrite (fold_lxor l2 (Z.lxor d x)), (fold_lxor l2 (Z.lxor d y)). intros Heq. apply Hxy.
  apply (f_equal (fun z => Z.lxor (Z.lxor d z) (fold_left Z.lxor l2 0))) in Heq.
  revert Heq. rewrite !Z.lxor_assoc, !Z.lxor_nilpotent, !Z.lxor_0_r.
  by rewrite <- !Z.lxor_assoc, !Z.lxor_nilpotent, !Z.lxor_0_l.
Qed.
