(* ===== verification/RbootBoot.v ===== *)
(** * rBoot: which ROM find_image boots

    The order in which [find_image] tries the ROM slots, what it writes to the
    configuration sector, and the theorems about the image check, the GPIO switch
    and the RTC memory. *)

From S2P Require Import Prelude Rboot RbootImage.
Local Open Scope Z_scope.

(** ** The order of the slots *)

(** The current ROM, then each previous one, wrapping around. *)
Definition boot_order (cur count : Z) : list Z :=
  map (fun k => (cur - k) mod count) (seqZ 0 count).

Fixpoint first_good (good : Z -> Z) (slots : list Z) : option Z :=
  match slots with
  | [] => None
  | s :: slots => if good s =? 0 then first_good good slots else Some s
  end.

Definition previous (count rom : Z) : Z := if rom - 1 <? 0 then count - 1 else rom - 1.

Section order.
Context (cur count : Z) (Hcur : 0 <= cur < count).

Lemma previous_slot k : 0 <= k -> previous count ((cur - k) mod count) = (cur - (k + 1)) mod count.
Proof.
  intros Hk. unfold previous. pose proof (Z.mod_pos_bound (cur - k) count ltac:(lia)).
  replace (cur - (k + 1)) with (cur - k - 1) by lia.
  destruct (Z.ltb_spec ((cur - k) mod count - 1) 0).
  - apply Z.mod_unique_pos with (q := (cur - k) / count - 1); [lia|].
    pose proof (Z.div_mod (cur - k) count ltac:(lia)). nia.
  - apply Z.mod_unique_pos with (q := (cur - k) / count); [lia|].
    pose proof (Z.div_mod (cur - k) count ltac:(lia)). lia.
Qed.

Lemma slot_cur k : 0 <= k <= count -> (cur - k) mod count = cur <-> k = 0 \/ k = count.
Proof.
  intros Hk. split.
  - intros Hm. pose proof (Z.div_mod (cur - k) count ltac:(lia)). rewrite Hm in *.
    assert (k = - count * ((cur - k) / count)) by lia.
    assert (- ((cur - k) / count) = 0 \/ - ((cur - k) / count) = 1) by nia. lia.
  - intros [->| ->].
    + rewrite Z.sub_0_r. by apply Z.mod_small.
    + replace (cur - count) with (cur + (-1) * count) by lia. rewrite Z.mod_add by lia.
      by apply Z.mod_small.
Qed.

Lemma first_good_in good slots s : first_good good slots = Some s -> s ∈ slots /\ good s <> 0.
Proof.
  induction slots as [|t slots IH]; simpl; [done|]. destruct (Z.eqb_spec (good t) 0).
  - intros [? ?]%IH. split; [by right|done].
  - intros [= ->]. split; [by left|done].
Qed.
End order.

(** ** The RTC memory *)

Definition in_rtc_user_memory (a : Z) : Prop := 0x60001200 <= a < 0x60001400.

Section rtc.
Context `{Machine M}.
(** The registers of the RTC user memory are plain words of memory. *)
Context (Hsame : forall m a v, in_rtc_user_memory a -> READ_PERI_REG (WRITE_PERI_REG m a v) a = v).
Context (Hother : forall m a b v, in_rtc_user_memory a -> a <> b ->
  READ_PERI_REG (WRITE_PERI_REG m a v) b = READ_PERI_REG m b).

Lemma rtc_write_words n m addr buff :
  64 <= addr -> addr + Z.of_nat n <= 192 ->
  exists m', rtc_copy n m addr buff RBOOT_RTC_WRITE = (buff, m') /\
    (forall b, 0 <= b < Z.of_nat n -> READ_PERI_REG m' (rtc_word (addr + b)) = get32 buff (4 * b)) /\
    (forall a, a < rtc_word addr \/ rtc_word (addr + Z.of_nat n) <= a -> READ_PERI_REG m' a = READ_PERI_REG m a).
Proof.
  intros Ha. revert m; induction n as [|n IH]; intros m Hn.
  { exists m. split_and!; [done|lia|done]. }
  cbn [rtc_copy]. change (RBOOT_RTC_WRITE =? RBOOT_RTC_WRITE) with true.
  set (m1 := WRITE_PERI_REG m (rtc_word (addr + Z.of_nat n)) (get32 buff (4 * Z.of_nat n))).
  destruct (IH m1) as (m' & E & Hw & Ho); [lia|]. exists m'. rewrite E.
  assert (Hin : in_rtc_user_memory (rtc_word (addr + Z.of_nat n)))
    by (unfold in_rtc_user_memory, rtc_word; lia).
  split_and!; [done|..].
  - intros b Hb. destruct (Z.eq_dec b (Z.of_nat n)) as [->|].
    + rewrite Ho by (unfold rtc_word; lia). by apply Hsame.
    + apply Hw. lia.
  - intros a Hout. rewrite Ho by (unfold rtc_word in *; lia). apply Hother; [done|].
    unfold rtc_word in *. lia.
Qed.

Lemma length_set_bytes b off vs : length (set_bytes b off vs) = length b.
Proof.
  revert b off; induction vs as [|v vs IH]; intros b off; simpl; [done|].
  rewrite IH. unfold set8. apply length_insert.
Qed.

Lemma lookup_set_bytes b off vs i :
  0 <= off -> Forall is_byte vs -> (Z.to_nat off + length vs <= length b)%nat ->
  set_bytes b off vs !! i =
    if decide (Z.to_nat off <= i < Z.to_nat off + length vs)%nat then vs !! (i - Z.to_nat off)%nat else b !! i.
Proof.
  intros Ho Hb. revert b off Ho; induction Hb as [|v vs Hv Hb IH]; intros b off Ho Hl; simpl in *.
  { by rewrite decide_False by lia. }
  rewrite IH; [|lia|unfold set8; rewrite length_insert; lia].
  unfold set8. rewrite u8_small by (unfold is_byte in Hv; lia).
  replace (Z.to_nat (off + 1)) with (S (Z.to_nat off)) by lia.
  destruct (decide (i = Z.to_nat off)) as [->|Hne].
  - rewrite decide_False, decide_True by lia. rewrite Nat.sub_diag. simpl.
    apply list_lookup_insert_eq. lia.
  - rewrite list_lookup_insert_ne by done. destruct (decide (S (Z.to_nat off) <= i < _)%nat).
    + rewrite decide_True by lia. by replace (i - Z.to_nat off)%nat with (S (i - S (Z.to_nat off))) by lia.
    + by rewrite decide_False by lia.
Qed.

Lemma get32_bytes b k : Forall is_byte b -> 0 <= k -> (Z.to_nat k + 4 <= length b)%nat ->
  le_bytes 4 (get32 b k) = take 4 (drop (Z.to_nat k) b).
Proof.
  intros Hb Hk Hl. unfold get32.
  assert (Hlen : length (take 4 (drop (Z.to_nat k) b)) = 4%nat) by (rewrite length_take, length_drop; lia).
  rewrite <- Hlen at 1. apply le_bytes_val. by apply Forall_take, Forall_drop.
Qed.

Lemma rtc_read_words n m addr buff src :
  Forall is_byte src -> (4 * n <= length src)%nat -> (4 * n <= length buff)%nat ->
  (forall b, 0 <= b < Z.of_nat n -> READ_PERI_REG m (rtc_word (addr + b)) = get32 src (4 * b)) ->
  rtc_copy n m addr buff RBOOT_RTC_READ = (take (4 * n) src ++ drop (4 * n) buff, m).
Proof.
  intros Hs Hls. revert buff; induction n as [|n IH]; intros buff Hlb Hw; [done|].
  cbn [rtc_copy]. change (RBOOT_RTC_READ =? RBOOT_RTC_WRITE) with false.
  rewrite Hw by lia.
  assert (Hlen : length (set32 buff (4 * Z.of_nat n) (get32 src (4 * Z.of_nat n))) = length buff)
    by apply length_set_bytes.
  rewrite IH; [|lia|lia|intros; apply Hw; lia]. f_equal.
  apply list_eq. intros i. unfold set32.
  destruct (decide (i < 4 * n)%nat) as [Hi|Hi].
  { rewrite !lookup_app_l by (rewrite length_take; lia). by rewrite !lookup_take_lt by lia. }
  rewrite (lookup_app_r (take (4 * n) src)) by (rewrite length_take; lia).
  rewrite length_take, lookup_drop. replace (4 * n + (i - min (4 * n) (length src)))%nat with i by lia.
  rewrite lookup_set_bytes by (rewrite ?length_le_bytes; auto using le_bytes_byte; lia).
  rewrite length_le_bytes, get32_bytes by (done || lia).
  replace (Z.to_nat (4 * Z.of_nat n)) with (4 * n)%nat by lia.
  destruct (decide (4 * n <= i < 4 * n + 4)%nat) as [Hin|Hout].
  - rewrite lookup_app_l by (rewrite length_take; lia).
    rewrite !lookup_take_lt by lia. rewrite lookup_drop. f_equal. lia.
  - rewrite lookup_app_r by (rewrite length_take; lia). rewrite length_take, lookup_drop. f_equal. lia.
Qed.

Lemma rtc_checks addr len buff mode m :
  64 <= addr <= 192 -> 0 <= len -> len mod 4 = 0 -> addr * 4 + len <= 0x300 ->
  system_rtc_mem m addr (Some buff) true len mode =
    let '(bytes, m) := rtc_copy (Z.to_nat (len / 4)) m addr buff mode in (1, bytes, m).
Proof.
  intros Ha Hl H4 Hfit. unfold system_rtc_mem. rewrite (proj2 (Z.ltb_ge _ _)) by lia. cbn [negb default].
  assert (Hl3 : Z.land len 3 = 0) by (change 3 with (Z.ones 2); rewrite Z.land_ones by lia; done).
  rewrite Hl3. cbn [Z.eqb negb]. rewrite s32_small by lia.
  rewrite (proj2 (Z.ltb_ge _ _)) by lia. by rewrite Z.shiftr_div_pow2 by lia.
Qed.

Lemma rtc_roundtrip addr len src buff m :
  64 <= addr <= 192 -> 0 <= len -> len mod 4 = 0 -> addr * 4 + len <= 0x300 ->
  Forall is_byte src -> Z.of_nat (length src) = len -> Z.of_nat (length buff) = len ->
  exists m', system_rtc_mem m addr (Some src) true len RBOOT_RTC_WRITE = (1, src, m') /\
    system_rtc_mem m' addr (Some buff) true len RBOOT_RTC_READ = (1, src, m') /\
    (forall a, ~ in_rtc_user_memory a -> READ_PERI_REG m' a = READ_PERI_REG m a).
Proof.
  intros Ha Hl H4 Hfit Hsrc Hls Hlb. assert (Hn : 4 * (len / 4) = len) by (Z.div_mod_to_equations; lia).
  destruct (rtc_write_words (Z.to_nat (len / 4)) m addr src) as (m' & E & Hw & Ho); [lia|lia|].
  exists m'. rewrite !rtc_checks by done. rewrite E. split; [done|]. split.
  - rewrite (rtc_read_words _ _ _ _ src); [|done|lia|lia|done].
    rewrite firstn_all2, drop_ge, app_nil_r by lia. done.
  - intros a Hout. apply Ho. unfold in_rtc_user_memory, rtc_word in *. lia.
Qed.
End rtc.

(** ** The default configuration *)

Lemma get8_set8 b i j v :
  0 <= i -> 0 <= j -> i < Z.of_nat (length b) -> get8 (set8 b i v) j = if j =? i then u8 v else get8 b j.
Proof.
  intros Hi Hj Hl. unfold get8, set8. destruct (Z.eqb_spec j i) as [->|Hne].
  - apply nth_lookup_Some. apply list_lookup_insert_eq. lia.
  - rewrite !nth_lookup. rewrite list_lookup_insert_ne by lia. done.
Qed.

Lemma length_set8 b i v : length (set8 b i v) = length b.
Proof. apply length_insert. Qed.

Lemma get8_set32 b i j v :
  0 <= i -> 0 <= j -> j < i \/ i + 4 <= j -> i + 4 <= Z.of_nat (length b) -> get8 (set32 b i v) j = get8 b j.
Proof.
  intros Hi Hj Hd Hl. unfold get8. rewrite !nth_lookup. unfold set32.
  rewrite lookup_set_bytes by (rewrite ?length_le_bytes; auto using le_bytes_byte; lia).
  rewrite length_le_bytes, decide_False by lia. done.
Qed.

Lemma calc_chksum_set b n v : 0 <= n -> calc_chksum (set8 b n v) n = calc_chksum b n.
Proof. intros Hn. unfold calc_chksum, set8. by rewrite take_insert_ge by lia. Qed.

Lemma calc_chksum_range b n : Forall is_byte b -> 0 <= calc_chksum b n < 256.
Proof.
  intros Hb. unfold calc_chksum.
  assert (Ht : Forall is_byte (take (Z.to_nat n) b)) by (by apply Forall_take).
  revert Ht. generalize (take (Z.to_nat n) b). clear. intros l. unfold CHKSUM_INIT.
  assert (Hc : 0 <= 0xef < 256) by lia. revert Hc. generalize 0xef. intros c Hc Hl.
  revert c Hc; induction Hl as [|x l Hx _ IH]; intros c Hc; simpl; [done|]. apply IH.
  unfold is_byte in Hx. split; [apply Z.lxor_nonneg; lia|].
  destruct (Z.eq_dec (Z.lxor c x) 0) as [->|]; [lia|].
  apply (Z.log2_lt_cancel _ 256). eapply Z.le_lt_trans; [apply Z.log2_lxor; lia|].
  change (Z.log2 256) with 8. apply Z.max_lub_lt.
  - destruct (Z.eq_dec c 0) as [->|]; [done|]. apply (Z.log2_lt_pow2 c 8); lia.
  - destruct (Z.eq_dec x 0) as [->|]; [done|]. apply (Z.log2_lt_pow2 x 8); lia.
Qed.

Lemma set8_byte b i v : Forall is_byte b -> Forall is_byte (set8 b i v).
Proof.
  intros Hb. unfold set8. apply Forall_insert; [done|]. unfold is_byte. pose proof (u8_range v). lia.
Qed.
Lemma set_bytes_byte b i vs : Forall is_byte b -> Forall is_byte (set_bytes b i vs).
Proof. revert b i; induction vs; intros b i Hb; simpl; auto using set8_byte. Qed.

Lemma default_config_fields o buffer flashsize :
  2 <= MAX_ROMS o <= 1000 -> length buffer = 4096%nat -> Forall is_byte buffer ->
  let conf := default_config o buffer flashsize in
  config_valid o conf = true /\ get8 conf cf_count = 2 /\ get8 conf cf_current_rom = 0 /\
  get8 conf cf_mode = MODE_STANDARD /\ length conf = 4096%nat.
Proof.
  intros Hm Hl Hb conf.
  assert (Hs : 16 <= sizeof_rboot_config o <= 4012 /\ cf_chksum o < 4012 /\ 16 <= cf_chksum o).
  { unfold sizeof_rboot_config, cf_chksum. destruct (BOOT_CONFIG_CHKSUM o); lia. }
  set (c0 := replicate (Z.to_nat (sizeof_rboot_config o)) 0 ++
             drop (Z.to_nat (sizeof_rboot_config o)) buffer).
  assert (Hl0 : length c0 = 4096%nat).
  { unfold c0. rewrite length_app, length_replicate, length_drop. lia. }
  assert (Hb0 : Forall is_byte c0).
  { apply Forall_app. split; [|by apply Forall_drop]. apply Forall_replicate. unfold is_byte. lia. }
  assert (Hz : forall i, 0 <= i < 16 -> get8 c0 i = 0).
  { intros i Hi. unfold get8, c0. rewrite app_nth1 by (rewrite length_replicate; lia).
    apply nth_lookup_Some. apply lookup_replicate_2. lia. }
  set (c1 := set32 (set32 (set8 (set8 (set8 c0 cf_magic BOOT_CONFIG_MAGIC) cf_version BOOT_CONFIG_VERSION)
    cf_count 2) (cf_roms 0) (SECTOR_SIZE * (BOOT_CONFIG_SECTOR + 1))) (cf_roms 1)
    (flashsize / 2 + SECTOR_SIZE * (BOOT_CONFIG_SECTOR + 1))).
  assert (Hc1 : conf = update_chksum o c1) by done.
  assert (Hl1 : length c1 = 4096%nat).
  { unfold c1, set32. by rewrite !length_set_bytes, !length_set8. }
  assert (Hb1 : Forall is_byte c1) by (unfold c1, set32; auto 10 using set_bytes_byte, set8_byte).
  assert (Hg1 : forall i, 0 <= i < 8 -> get8 c1 i =
    if i =? 5 then 2 else if i =? 1 then 1 else if i =? 0 then 0xe1 else 0).
  { intros i Hi. unfold c1, cf_roms. rewrite !get8_set32 by
      (unfold set32; rewrite ?length_set_bytes, ?length_set8; lia).
    unfold cf_magic, cf_version, cf_count. rewrite !get8_set8 by (rewrite ?length_set8; lia).
    rewrite Hz by lia. done. }
  assert (Hg : forall i, 0 <= i < 8 -> get8 conf i = get8 c1 i).
  { intros i Hi. rewrite Hc1. unfold update_chksum. destruct (BOOT_CONFIG_CHKSUM o); [|done].
    rewrite get8_set8 by lia. by rewrite (proj2 (Z.eqb_neq _ _)) by lia. }
  unfold cf_count, cf_current_rom, cf_mode, config_valid, cf_magic, cf_version.
  split_and!; try (rewrite Hg, Hg1 by lia; done).
  - rewrite (Hg 0), (Hg 1), (Hg1 0), (Hg1 1) by lia. cbn [Z.eqb negb orb].
    destruct (BOOT_CONFIG_CHKSUM o) eqn:Hck; [|done].
    rewrite Hc1. unfold update_chksum.
    rewrite Hck, get8_set8, (Z.eqb_refl (cf_chksum o)), calc_chksum_set by lia.
    pose proof (calc_chksum_range c1 (cf_chksum o) Hb1). rewrite u8_small by lia.
    by rewrite (Z.eqb_refl (calc_chksum _ _)).
  - rewrite Hc1. unfold update_chksum. destruct (BOOT_CONFIG_CHKSUM o); [|exact Hl1].
    rewrite length_set8. exact Hl1.
Qed.

(** ** find_image *)

Section boot.
Context `{Machine M} (o : options) (loader : stage2_image).
Context (Hgpio : BOOT_GPIO_ENABLED o = false).

(** The result of [check_image] on a slot of the configuration. *)
Definition slot_address (m : M) (conf : list Z) (rom : Z) : Z :=
  default 0 (check_image o m (get32 conf (cf_roms rom))).

(** *** The RTC data *)

(** What the boot loader finds in the RTC memory, what it leaves there, and the
    temporary ROM that a valid block asks for. *)
Definition rtc_found (m : M) (rtc0 : list Z) : list Z :=
  if BOOT_RTC_ENABLED o
  then (system_rtc_mem m RBOOT_RTC_ADDR (Some rtc0) true sizeof_rboot_rtc_data RBOOT_RTC_READ).1.2
  else rtc0.
Definition rtc_left (m : M) (rtc : list Z) : M :=
  if BOOT_RTC_ENABLED o
  then (system_rtc_mem m RBOOT_RTC_ADDR (Some rtc) true sizeof_rboot_rtc_data RBOOT_RTC_WRITE).2
  else m.
Definition temp_request (m : M) (rtc0 : list Z) : option Z :=
  let rtc := rtc_found m rtc0 in
  if BOOT_RTC_ENABLED o && (get8 rtc rt_chksum =? fold_left Z.lxor (take 8 rtc) CHKSUM_INIT)
     && negb (Z.land (get8 rtc rt_next_mode) MODE_TEMP_ROM =? 0)
  then Some (get8 rtc rt_temp_rom) else None.

(** The block for the application: magic, next and last mode, ROM booted, no
    temporary ROM, checksum; three bytes of padding stay. *)
Definition rtc_report (rtc : list Z) (rom : Z) (temp : bool) : list Z :=
  let bs := le_bytes 4 RBOOT_RTC_MAGIC ++
            [MODE_STANDARD; if temp then MODE_TEMP_ROM else MODE_STANDARD; rom; 0] in
  bs ++ [fold_left Z.lxor bs CHKSUM_INIT] ++ drop 9 rtc.
(** The block without its request. *)
Definition rtc_cleared (rtc : list Z) : list Z :=
  let bs := take 4 rtc ++ [MODE_STANDARD] ++ take 3 (drop 5 rtc) in
  bs ++ [fold_left Z.lxor bs CHKSUM_INIT] ++ drop 9 rtc.

Lemma rtc_left_off m rtc : BOOT_RTC_ENABLED o = false -> rtc_left m rtc = m.
Proof. intros E. unfold rtc_left. by rewrite E. Qed.
Lemma temp_request_off m rtc0 : BOOT_RTC_ENABLED o = false -> temp_request m rtc0 = None.
Proof. intros E. unfold temp_request. by rewrite E. Qed.

(** *** The search for a good ROM *)

Section try.
Context (m : M) (Hbytes : forall p n, Forall is_byte (SPIRead m p n).2).

Lemma do_check_slot v rom p r :
  do_check o (rom_address v rom) (Boot m p r) = Some (slot_address m (bv_conf v) rom, Boot m p r).
Proof.
  unfold do_check, rom_address, slot_address. cbn [mach].
  destruct (check_image_total o m Hbytes (get32 (bv_conf v) (cf_roms rom))) as [? ->]. done.
Qed.

Lemma try_roms_spec fuel v k p ram cur count :
  get8 (bv_conf v) cf_count = count -> get8 (bv_conf v) cf_current_rom = cur ->
  0 <= cur < count -> 0 <= k < count -> bv_rom v = (cur - k) mod count ->
  count - k < Z.of_nat fuel ->
  let good := slot_address m (bv_conf v) in
  exists p', try_roms o fuel v (good (bv_rom v)) (Boot m p ram) =
    match first_good good (map (fun k => (cur - k) mod count) (seqZ k (count - k))) with
    | None => Some (None, Boot m p' ram)
    | Some rom =>
        Some (Some (with_rom v rom (bv_update v || negb (rom =? bv_rom v)), good rom), Boot m p' ram)
    end.
Proof.
  intros Hcount Hcurr Hcur. intros Hk Hrom Hf good. unfold good. clear good.
  revert v k p Hcount Hcurr Hk Hrom Hf.
  induction fuel as [|fuel IH]; intros v k p Hcount Hcurr Hk Hrom Hf; [lia|].
  rewrite seqZ_cons by lia. cbn [map first_good try_roms]. rewrite <- Hrom.
  destruct (Z.eqb_spec (slot_address m (bv_conf v) (bv_rom v)) 0) as [Hbad|Hgood].
  2:{ exists p. rewrite Z.eqb_refl. cbn [negb]. rewrite orb_false_r. by destruct v. }
  unfold mbind at 1, st_bind at 1, ets_printf at 1, st_modify at 1. cbn [mach printed Rboot.ram].
  rewrite Hcount, Hcurr. fold (previous count (bv_rom v)). rewrite Hrom, previous_slot by lia.
  rewrite <- Hrom. replace (Z.pred (count - k)) with (count - (k + 1)) by lia.
  replace (Z.succ k) with (k + 1) by lia.
  destruct (Z.eqb_spec ((cur - (k + 1)) mod count) cur) as [Heq|Hne].
  - apply slot_cur in Heq as [?|Heq]; [lia| |lia|lia]. rewrite Heq, Z.sub_diag.
    exists (p ++ [RomBad (bv_rom v)] ++ [NoGoodRom]). rewrite app_assoc. done.
  - assert (k + 1 <> count) by (intros Hkc; apply Hne, slot_cur; lia).
    set (rom := (cur - (k + 1)) mod count).
    rewrite (bind_run _ _ _ _ _ (do_check_slot v rom _ _)).
    destruct (IH (with_rom v rom true) (k + 1) (p ++ [RomBad (bv_rom v)])) as (p' & E);
      simpl; auto; try lia.
    simpl in E. exists p'. rewrite E.
    destruct (first_good _ _) as [rom'|] eqn:Hfg; [|done].
    assert (Hin : rom' <> bv_rom v).
    { apply first_good_in in Hfg as [_ Hg]. intros ->. done. }
    rewrite (proj2 (Z.eqb_neq _ _) Hin). unfold with_rom; simpl. by rewrite orb_true_r.
Qed.
End try.

(** *** What find_image does *)

(** What [load_config] leaves: the configuration and the machine. *)
Definition written (m : M) (conf : list Z) : M :=
  SPIWrite (SPIEraseSector m BOOT_CONFIG_SECTOR) (BOOT_CONFIG_SECTOR * SECTOR_SIZE) conf SECTOR_SIZE.
Definition loaded (m : M) : list Z * M :=
  let '(flashsize, _) := flash_size o (Z.shiftr (hdr_flags2 (SPIRead m 0 sizeof_rom_header).2) 4) in
  let buffer := (SPIRead m (BOOT_CONFIG_SECTOR * SECTOR_SIZE) SECTOR_SIZE).2 in
  if config_valid o buffer then (buffer, m)
  else (default_config o buffer flashsize, written m (default_config o buffer flashsize)).

(** The slots that may be booted, in order: the temporary ROM alone when one is
    asked for, otherwise all of them from the current one on.  For a current ROM that
    is not configured slot 0 is taken, also with a temporary ROM. *)
Definition boot_slots (m : M) (conf rtc0 : list Z) : list Z :=
  let count := get8 conf cf_count in
  let cur := get8 conf cf_current_rom in
  match temp_request m rtc0 with
  | None => boot_order (if cur <? count then cur else 0) count
  | Some t => if count <=? t then [] else [if cur <? count then t else 0]
  end.
(** The machine after slot [rom] was booted, and when no slot was good.  The
    configuration is rewritten unless it already named the ROM, or named a ROM that
    exists when a temporary one was booted. *)
Definition booted (m : M) (conf rtc0 : list Z) (rom : Z) : M :=
  let temp := bool_decide (is_Some (temp_request m rtc0)) in
  let cur := get8 conf cf_current_rom in
  let keep := if temp then cur <? get8 conf cf_count else rom =? cur in
  rtc_left (if keep then m else written m (update_chksum o (set8 conf cf_current_rom rom)))
    (rtc_report (rtc_found m rtc0) rom temp).
Definition unbooted (m : M) (conf rtc0 : list Z) : M :=
  match temp_request m rtc0 with
  | Some t => if get8 conf cf_count <=? t then m else rtc_left m (rtc_cleared (rtc_found m rtc0))
  | None => m
  end.
Definition loader_copied (ram : memory) : memory :=
  ets_memcpy ram (_text_addr loader) (_text_data loader) (_text_len loader).

Lemma load_run m p ram :
  exists flashsize p1 p', read_flash_info o (Boot m p ram) = Some (flashsize, Boot m p1 ram) /\
    load_config o flashsize (Boot m p1 ram) = Some ((loaded m).1, Boot (loaded m).2 p' ram).
Proof.
  unfold loaded, read_flash_info. unfold mbind, st_bind, ets_printf, st_modify, spi_read, on_mach, mret, st_ret.
  cbn [mach printed]. destruct (flash_size o _) as [fs mbit]. exists fs.
  unfold load_config, mbind, st_bind, spi_read, on_mach. cbn [mach].
  destruct (config_valid o _); do 2 eexists; split; reflexivity.
Qed.

(** *** The steps on the RTC data *)

Lemma rtc_copy_read n (m : M) addr buff : (rtc_copy n m addr buff RBOOT_RTC_READ).2 = m.
Proof. revert buff; induction n as [|n IH]; intros buff; [done|]. apply IH. Qed.
Lemma rtc_copy_length n (m : M) addr buff mode : length (rtc_copy n m addr buff mode).1 = length buff.
Proof.
  revert m buff; induction n as [|n IH]; intros m buff; [done|]. cbn [rtc_copy].
  destruct (_ =? _); rewrite IH; [done|]. apply length_set_bytes.
Qed.
Lemma rtc_read_run (m : M) rtc0 : BOOT_RTC_ENABLED o = true ->
  system_rtc_mem m RBOOT_RTC_ADDR (Some rtc0) true sizeof_rboot_rtc_data RBOOT_RTC_READ =
  (1, rtc_found m rtc0, m).
Proof.
  intros E. unfold rtc_found. rewrite E. unfold RBOOT_RTC_ADDR, sizeof_rboot_rtc_data. rewrite rtc_checks by done.
  pose proof (rtc_copy_read (Z.to_nat (12 / 4)) m 64 rtc0) as Hm. by destruct (rtc_copy _ _ _ _ _) as [bs ?]; simpl in Hm; subst.
Qed.
Lemma length_rtc_found (m : M) rtc0 : length (rtc_found m rtc0) = length rtc0.
Proof.
  unfold rtc_found. destruct (BOOT_RTC_ENABLED o); [|done].
  unfold RBOOT_RTC_ADDR, sizeof_rboot_rtc_data. rewrite rtc_checks by done.
  pose proof (rtc_copy_length (Z.to_nat (12 / 4)) m 64 rtc0 RBOOT_RTC_READ) as Hl. by destruct (rtc_copy _ _ _ _ _).
Qed.

Lemma select_temp_run v (m : M) p r :
  let rtc := rtc_found m (bv_rtc v) in
  exists p', select_temp o v (Boot m p r) =
    match temp_request m (bv_rtc v) with
    | Some t =>
        if get8 (bv_conf v) cf_count <=? t then Some (None, Boot m p' r)
        else Some (Some {| bv_conf := bv_conf v; bv_rom := t; bv_update := bv_update v;
                           bv_gpio := bv_gpio v; bv_temp := true; bv_rtc := rtc |}, Boot m p' r)
    | None => Some (Some {| bv_conf := bv_conf v; bv_rom := bv_rom v; bv_update := bv_update v;
                            bv_gpio := bv_gpio v; bv_temp := bv_temp v; bv_rtc := rtc |}, Boot m p' r)
    end.
Proof.
  intros rtc. unfold select_temp, temp_request. fold rtc. destruct (BOOT_RTC_ENABLED o) eqn:E; cbn [andb].
  2:{ exists p. unfold rtc, rtc_found. rewrite E. by destruct v. }
  unfold mbind at 1, st_bind at 1, on_mach at 1. cbn [mach printed Rboot.ram].
  rewrite rtc_read_run by done. fold rtc. cbn [Z.eqb negb andb].
  change (calc_chksum rtc rt_chksum) with (fold_left Z.lxor (take 8 rtc) CHKSUM_INIT).
  destruct (get8 rtc rt_chksum =? _); cbn [andb]; [|by exists p].
  destruct (Z.land _ _ =? 0); cbn [negb]; [by exists p|]. cbn [bv_conf].
  destruct (get8 (bv_conf v) cf_count <=? get8 rtc rt_temp_rom); by eexists.
Qed.

Lemma fold_lxor_byte (bs : list Z) : Forall is_byte bs -> is_byte (fold_left Z.lxor bs CHKSUM_INIT).
Proof.
  intros Hb. pose proof (calc_chksum_range bs (Z.of_nat (length bs)) Hb) as Hr. unfold calc_chksum in Hr.
  rewrite Nat2Z.id, firstn_all in Hr. exact Hr.
Qed.

Lemma rtc_report_run rtc rom (temp : bool) : length rtc = 12%nat -> is_byte rom ->
  let rtc1 := set32 rtc rt_magic RBOOT_RTC_MAGIC in
  let rtc2 := set8 rtc1 rt_next_mode MODE_STANDARD in
  let rtc3 := set8 rtc2 rt_last_mode (if temp then MODE_TEMP_ROM else MODE_STANDARD) in
  let rtc4 := set8 rtc3 rt_last_rom rom in
  let rtc5 := set8 rtc4 rt_temp_rom 0 in
  set8 rtc5 rt_chksum (calc_chksum rtc5 rt_chksum) = rtc_report rtc rom temp.
Proof.
  intros Hl Hr. do 13 (destruct rtc as [|? rtc]; try discriminate Hl). unfold rtc_report. cbv zeta.
  assert (Hm : u8 (if temp then MODE_TEMP_ROM else MODE_STANDARD) = if temp then MODE_TEMP_ROM else MODE_STANDARD)
    by by destruct temp.
  set (mode := if temp then MODE_TEMP_ROM else MODE_STANDARD) in *.
  assert (Hb : Forall is_byte (le_bytes 4 RBOOT_RTC_MAGIC ++ [MODE_STANDARD; mode; rom; 0])).
  { apply Forall_app. split; [apply le_bytes_byte|]. unfold mode, is_byte, MODE_STANDARD, MODE_TEMP_ROM in *.
    repeat (apply Forall_cons_2); try apply Forall_nil_2; destruct temp; lia. }
  apply fold_lxor_byte in Hb. revert Hb. generalize (eq_refl (le_bytes 4 RBOOT_RTC_MAGIC)).
  unfold set32, set8. rewrite Hm, (u8_small rom) by (unfold is_byte in Hr; lia). intros _ Hb.
  change (le_bytes 4 RBOOT_RTC_MAGIC) with [0x68; 0xae; 0x34; 0x23] in *.
  unfold calc_chksum. cbn -[Z.lxor u8 mode] in *. by rewrite u8_small by exact Hb.
Qed.

Lemma rtc_cleared_run rtc : length rtc = 12%nat -> Forall is_byte (take 8 rtc) ->
  let rtc1 := set8 rtc rt_next_mode MODE_STANDARD in
  set8 rtc1 rt_chksum (calc_chksum rtc1 rt_chksum) = rtc_cleared rtc.
Proof.
  intros Hl Hb. do 13 (destruct rtc as [|? rtc]; try discriminate Hl). unfold rtc_cleared. cbv zeta.
  assert (Hc : is_byte (fold_left Z.lxor [z; z0; z1; z2; MODE_STANDARD; z4; z5; z6] CHKSUM_INIT)).
  { apply fold_lxor_byte. cbn in Hb. repeat (apply Forall_cons in Hb as [? Hb]).
    repeat (apply Forall_cons_2); try apply Forall_nil_2; done. }
  unfold set8, calc_chksum. cbn -[Z.lxor u8] in *. by rewrite u8_small by exact Hc.
Qed.

Lemma rtc_found_bytes (m : M) rtc0 : BOOT_RTC_ENABLED o = true -> length rtc0 = 12%nat ->
  Forall is_byte (rtc_found m rtc0).
Proof.
  intros E Hl. unfold rtc_found. rewrite E. unfold RBOOT_RTC_ADDR, sizeof_rboot_rtc_data. rewrite rtc_checks by done.
  change (Z.to_nat (12 / 4)) with 3%nat. do 13 (destruct rtc0 as [|? rtc0]; try discriminate Hl).
  cbn [rtc_copy]. change (RBOOT_RTC_READ =? RBOOT_RTC_WRITE) with false. cbn [fst snd].
  unfold set32. generalize (length_le_bytes 4). intros Hlb.
  repeat match goal with |- context [le_bytes 4 ?x] =>
    let bs := fresh "bs" in pose proof (Hlb x); set (bs := le_bytes 4 x) in *; clearbody bs end.
  do 5 (destruct bs as [|? bs]; try discriminate). do 5 (destruct bs0 as [|? bs0]; try discriminate).
  do 5 (destruct bs1 as [|? bs1]; try discriminate). unfold set8. cbn -[u8].
  repeat (apply Forall_cons_2); try apply Forall_nil_2; apply u8_range.
Qed.

Lemma write_rtc_run (m : M) rtc p r : BOOT_RTC_ENABLED o = true ->
  write_rtc rtc (Boot m p r) = Some ((), Boot (rtc_left m rtc) p r).
Proof.
  intros E. unfold write_rtc, on_mach, rtc_left. cbn [mach printed Rboot.ram]. rewrite E.
  by destruct (system_rtc_mem _ _ _ _ _ _) as [[? ?] ?].
Qed.

Lemma finish_boot_run v (m : M) p r :
  (BOOT_RTC_ENABLED o = true -> length (bv_rtc v) = 12%nat) -> is_byte (bv_rom v) ->
  finish_boot o v (Boot m p r) =
    Some ((), Boot (rtc_left (if bv_update v
                              then written m (update_chksum o (set8 (bv_conf v) cf_current_rom (bv_rom v))) else m)
                      (rtc_report (bv_rtc v) (bv_rom v) (bv_temp v))) p r).
Proof.
  intros Hl Hr. unfold finish_boot.
  assert (E : (if bv_update v then write_config (update_chksum o (set8 (bv_conf v) cf_current_rom (bv_rom v))) else mret ())
    (Boot m p r) = Some ((), Boot (if bv_update v
      then written m (update_chksum o (set8 (bv_conf v) cf_current_rom (bv_rom v))) else m) p r)) by by destruct (bv_update v).
  rewrite (bind_run _ _ _ _ _ E). destruct (BOOT_RTC_ENABLED o) eqn:Hrtc; [|by rewrite rtc_left_off].
  rewrite Hgpio. cbn [andb]. rewrite Z.lor_0_r, rtc_report_run by auto. by apply write_rtc_run.
Qed.

Lemma boot_order_range cur count rom : 0 < count -> rom ∈ boot_order cur count -> 0 <= rom < count.
Proof. intros Hc (k & -> & _)%list_elem_of_fmap. by apply Z.mod_pos_bound. Qed.

Lemma try_roms_good fuel v addr (s : boot_state) : addr <> 0 ->
  try_roms o (S fuel) v addr s = Some (Some (v, addr), s).
Proof. intros Ha. cbn [try_roms]. by rewrite (proj2 (Z.eqb_neq _ _)). Qed.

(** The normal boot and the boot of a temporary ROM. *)
Lemma boot_rom_normal v (m : M) p r cur count :
  (forall p n, Forall is_byte (SPIRead m p n).2) -> (BOOT_RTC_ENABLED o = true -> length (bv_rtc v) = 12%nat) ->
  get8 (bv_conf v) cf_count = count -> get8 (bv_conf v) cf_current_rom = cur -> 0 <= cur < count ->
  count <= 255 -> bv_rom v = cur -> bv_temp v = false ->
  exists p', boot_rom o loader v (Boot m p r) =
    match first_good (slot_address m (bv_conf v)) (boot_order cur count) with
    | None => Some (0, Boot m p' r)
    | Some rom =>
        Some (slot_address m (bv_conf v) rom,
              Boot (rtc_left (if bv_update v || negb (rom =? cur)
                              then written m (update_chksum o (set8 (bv_conf v) cf_current_rom rom)) else m)
                      (rtc_report (bv_rtc v) rom false)) p' (loader_copied r))
    end.
Proof.
  intros Hb Hl Hcount Hcurr Hcur Hmax Hrom Htemp. unfold boot_rom.
  rewrite (bind_run _ _ _ _ _ (do_check_slot m Hb v (bv_rom v) p r)). rewrite Hgpio, Htemp, andb_false_r. cbn [andb].
  destruct (try_roms_spec m Hb 257 v 0 p r cur count) as (p' & E); auto; try lia.
  { rewrite Z.sub_0_r, Z.mod_small by lia. done. }
  rewrite Z.sub_0_r in E. fold (boot_order cur count) in E.
  destruct (first_good _ (boot_order cur count)) as [rom|] eqn:Eg; rewrite (bind_run _ _ _ _ _ E); [|by exists p'].
  apply first_good_in in Eg as [Hin%boot_order_range _]; [|lia].
  rewrite (bind_run _ _ _ _ _ (finish_boot_run (with_rom v rom _) m p' r Hl ltac:(unfold is_byte; simpl; lia))).
  cbn [with_rom bv_update bv_conf bv_rom bv_rtc bv_temp]. rewrite Hrom, Htemp. by eexists.
Qed.

Lemma boot_rom_temp v (m : M) p r :
  (forall p n, Forall is_byte (SPIRead m p n).2) -> BOOT_RTC_ENABLED o = true -> length (bv_rtc v) = 12%nat ->
  Forall is_byte (bv_rtc v) -> is_byte (bv_rom v) -> bv_temp v = true ->
  let addr := slot_address m (bv_conf v) (bv_rom v) in
  exists p', boot_rom o loader v (Boot m p r) =
    if addr =? 0 then Some (0, Boot (rtc_left m (rtc_cleared (bv_rtc v))) p' r)
    else Some (addr, Boot (rtc_left (if bv_update v
                                     then written m (update_chksum o (set8 (bv_conf v) cf_current_rom (bv_rom v))) else m)
                             (rtc_report (bv_rtc v) (bv_rom v) true)) p' (loader_copied r)).
Proof.
  intros Hb Hrtc Hl Hby Hr Htemp addr. unfold boot_rom.
  rewrite (bind_run _ _ _ _ _ (do_check_slot m Hb v (bv_rom v) p r)). fold addr. rewrite Hgpio, Hrtc, Htemp. cbn [andb].
  destruct (Z.eqb_spec addr 0) as [->|Hne].
  - unfold mbind at 1, st_bind at 1, ets_printf at 1, st_modify. cbn [mach printed Rboot.ram].
    unfold reset_temp. rewrite rtc_cleared_run by auto using Forall_take.
    rewrite (bind_run _ _ _ _ _ (write_rtc_run m _ _ r Hrtc)). by eexists.
  - assert (E : try_roms o 257 v addr (Boot m p r) = Some (Some (v, addr), Boot m p r)).
    { by apply (try_roms_good 256). }
    rewrite (bind_run _ _ _ _ _ E), (bind_run _ _ _ _ _ (finish_boot_run v m p r (fun _ => Hl) Hr)), Htemp. by eexists.
Qed.

Lemma get8_set8_other b i j v : 0 <= i -> 0 <= j -> j <> i -> get8 (set8 b i v) j = get8 b j.
Proof. intros Hi Hj Hne. unfold get8, set8. rewrite !nth_lookup, list_lookup_insert_ne by lia. done. Qed.
Lemma get8_set8_zero b i : 0 <= i -> get8 (set8 b i 0) i = 0.
Proof.
  intros Hi. unfold get8, set8. rewrite nth_lookup.
  destruct (decide (Z.to_nat i < length b)%nat); [by rewrite list_lookup_insert_eq|].
  by rewrite list_insert_ge, lookup_ge_None_2 by lia.
Qed.
Lemma set8_set8 b i v w : set8 (set8 b i v) i w = set8 b i w.
Proof. unfold set8. apply list_insert_insert_eq. Qed.
Lemma slot_address_set8 (m : M) conf v rom : 0 <= rom ->
  slot_address m (set8 conf cf_current_rom v) rom = slot_address m conf rom.
Proof.
  intros Hr. unfold slot_address, get32, set8. do 4 f_equal. apply drop_insert_lt.
  unfold cf_current_rom, cf_roms. lia.
Qed.
Lemma first_good_ext f g slots : (forall s, s ∈ slots -> f s = g s) -> first_good f slots = first_good g slots.
Proof.
  induction slots as [|s slots IH]; intros He; [done|]. cbn [first_good]. rewrite (He s) by left.
  destruct (_ =? 0); [|done]. apply IH. intros t Ht. apply He. by right.
Qed.

Lemma find_image_spec (m : M) rtc0 ram :
  let conf := (loaded m).1 in
  let m1 := (loaded m).2 in
  (forall p n, Forall is_byte (SPIRead m1 p n).2) -> (BOOT_RTC_ENABLED o = true -> length rtc0 = 12%nat) ->
  0 < get8 conf cf_count <= 255 -> 0 <= get8 conf cf_current_rom ->
  exists p', find_image o loader rtc0 (Boot m [] ram) =
    match first_good (slot_address m1 conf) (boot_slots m1 conf rtc0) with
    | None => Some (0, Boot (unbooted m1 conf rtc0) p' ram)
    | Some rom => Some (slot_address m1 conf rom, Boot (booted m1 conf rtc0 rom) p' (loader_copied ram))
    end.
Proof.
  intros conf m1 Hb Hl Hcount Hcur. destruct (load_run m [] ram) as (fs & p0 & p1 & E0 & E1).
  unfold find_image. rewrite (bind_run _ _ _ _ _ E0), (bind_run _ _ _ _ _ E1). fold conf m1.
  set (v := {| bv_conf := conf; bv_rom := _; bv_update := false; bv_gpio := false; bv_temp := false; bv_rtc := rtc0 |}).
  destruct (select_temp_run v m1 p1 ram) as (p2 & E2). cbn [v bv_conf bv_rom bv_update bv_gpio bv_temp bv_rtc] in E2.
  unfold boot_slots, booted, unbooted. set (rtc := rtc_found m1 rtc0) in *. set (count := get8 conf cf_count) in *.
  set (cur := get8 conf cf_current_rom) in *.
  assert (Hl2 : BOOT_RTC_ENABLED o = true -> length rtc = 12%nat)
    by (intros E; unfold rtc; rewrite length_rtc_found; auto).
  assert (Hgp : forall v s, select_gpio o v fs s = Some (Some v, s)) by (intros; unfold select_gpio; by rewrite Hgpio).
  destruct (temp_request m1 rtc0) as [t|] eqn:Et.
  - destruct (Z.leb_spec count t) as [Hbad|Ht].
    { rewrite (bind_run _ _ _ _ _ E2). by exists p2. }
    rewrite (bind_run _ _ _ _ _ E2), (bind_run _ _ _ _ _ (Hgp _ _)).
    assert (Hrtc : BOOT_RTC_ENABLED o = true)
      by (unfold temp_request in Et; destruct (BOOT_RTC_ENABLED o); [done|discriminate Et]).
    pose proof (rtc_found_bytes m1 rtc0 Hrtc (Hl Hrtc)) as Hby. fold rtc in Hby.
    assert (Ht0 : 0 <= t).
    { unfold temp_request in Et. fold rtc in Et. destruct (_ && _); [|discriminate Et]. injection Et as <-.
      pose proof (get8_byte rtc rt_temp_rom Hby). unfold is_byte in *. lia. }
    rewrite bool_decide_true by by eexists. unfold check_current. cbn [bv_conf]. fold count cur.
    destruct (Z.leb_spec count cur) as [Hc|Hc].
    + rewrite (proj2 (Z.ltb_ge cur count)) by done.
      unfold mbind at 1, st_bind at 1, mbind at 1, st_bind at 1, ets_printf at 1, st_modify, mret, st_ret. cbn [mach printed Rboot.ram].
      edestruct (boot_rom_temp {| bv_conf := set8 conf cf_current_rom 0; bv_rom := 0; bv_update := true; bv_gpio := false; bv_temp := true; bv_rtc := rtc |})
        as (p' & E); [exact Hb|exact Hrtc|by apply Hl2|exact Hby|done|done|].
      exists p'. rewrite E. cbn [bv_conf bv_rom bv_update bv_rtc]. rewrite slot_address_set8, set8_set8 by lia.
      cbn [first_good]. by destruct (slot_address m1 conf 0 =? 0).
    + rewrite (proj2 (Z.ltb_lt cur count)) by done. unfold mbind at 1, st_bind at 1, mret at 1, st_ret at 1.
      edestruct (boot_rom_temp {| bv_conf := conf; bv_rom := t; bv_update := false; bv_gpio := false; bv_temp := true; bv_rtc := rtc |})
        as (p' & E); [exact Hb|exact Hrtc|by apply Hl2|exact Hby|unfold is_byte; simpl; lia|done|].
      exists p'. rewrite E. cbn [bv_conf bv_rom bv_update bv_rtc]. cbn [first_good]. by destruct (slot_address m1 conf t =? 0).
  - rewrite (bind_run _ _ _ _ _ E2), (bind_run _ _ _ _ _ (Hgp _ _)).
    rewrite bool_decide_false by (by intros []). unfold check_current. cbn [bv_conf]. fold count cur.
    destruct (Z.leb_spec count cur) as [Hc|Hc].
    + rewrite (proj2 (Z.ltb_ge cur count)) by done.
      unfold mbind at 1, st_bind at 1, mbind at 1, st_bind at 1, ets_printf at 1, st_modify, mret, st_ret. cbn [mach printed Rboot.ram].
      edestruct (boot_rom_normal {| bv_conf := set8 conf cf_current_rom 0; bv_rom := 0; bv_update := true; bv_gpio := false; bv_temp := false; bv_rtc := rtc |})
        with (cur := 0) (count := count) as (p' & E); cbn [bv_conf bv_rom bv_temp bv_rtc]; auto;
        [by rewrite get8_set8_other|by apply get8_set8_zero|lia|lia|].
      exists p'. rewrite E. cbn [bv_conf bv_update bv_rtc].
      rewrite (first_good_ext (slot_address m1 (set8 conf cf_current_rom 0)) (slot_address m1 conf))
        by (intros s Hs%boot_order_range; [apply slot_address_set8; lia|lia]).
      destruct (first_good (slot_address m1 conf) _) as [rom|] eqn:Eg; [|reflexivity].
      apply first_good_in in Eg as [Hin%boot_order_range _]; [|lia].
      rewrite slot_address_set8, set8_set8 by lia. cbn [orb]. by rewrite (proj2 (Z.eqb_neq rom cur)) by lia.
    + rewrite (proj2 (Z.ltb_lt cur count)) by done. unfold mbind at 1, st_bind at 1, mret at 1, st_ret at 1.
      edestruct (boot_rom_normal {| bv_conf := conf; bv_rom := cur; bv_update := false; bv_gpio := false; bv_temp := false; bv_rtc := rtc |})
        with (cur := cur) (count := count) as (p' & E); cbn [bv_conf bv_rom bv_temp bv_rtc]; auto; try lia.
      exists p'. rewrite E. cbn [bv_conf bv_update bv_rtc orb].
      destruct (first_good _ _) as [rom|]; [|done]. by destruct (rom =? cur).
Qed.

(** With no ROM configured and a bad slot 0 the loop never ends. *)
Lemma try_roms_none fuel v s :
  get8 (bv_conf v) cf_count = 0 -> get8 (bv_conf v) cf_current_rom = 0 ->
  check_image o (mach s) (rom_address v (-1)) = Some 0 -> bv_rom v = 0 \/ bv_rom v = -1 ->
  try_roms o fuel v 0 s = None.
Proof.
  intros Hc Hcur Hbad. revert v s Hc Hcur Hbad; induction fuel as [|fuel IH]; intros v s Hc Hcur Hbad Hr; [done|].
  cbn [try_roms Z.eqb]. unfold mbind at 1, st_bind at 1, ets_printf at 1, st_modify at 1.
  rewrite Hc, Hcur. replace (if bv_rom v - 1 <? 0 then 0 - 1 else bv_rom v - 1) with (-1)
    by (destruct Hr as [->| ->]; done).
  cbn [Z.eqb]. unfold mbind at 1, st_bind at 1, do_check at 1. cbn [mach]. rewrite Hbad.
  apply IH; simpl; auto.
Qed.
End boot.

(** ** The theorems *)

(** C7: [check_image] on a standard image (old header, any section data, up to 255
    sections, or 254 with the option BOOT_IROM_CHKSUM, where 255 is the mark of a new
    image) whose bytes lie at [a] > 0 in the part of the flash that SPIRead can read
    (below 2^31) returns [a] exactly when the byte at the last position of the 16-byte
    line after the image is the exclusive or of 0xef and all the section data, and 0
    otherwise. *)
Theorem check_image_spec `{Machine M} o m rom limit a flags1 flags2 entry ss :
  limit <= 2 ^ 31 ->
  (forall p n, 0 <= p -> 0 <= n <= BUFFER_SIZE -> p + n <= limit -> SPIRead m p n = (0, rom_bytes rom p n)) ->
  0 < a -> Z.of_nat (length ss) <= (if BOOT_IROM_CHKSUM o then 254 else 255) -> is_byte flags1 -> is_byte flags2 ->
  let bs := image_bytes flags1 flags2 entry ss in
  let pos := Z.lor (a + Z.of_nat (length bs)) 0x0f in
  rom_holds rom a bs -> pos + 1 <= limit -> a + 16 <= limit ->
  check_image o m a = Some (if rom pos =? image_chksum ss then a else 0).
Proof.
  intros Hl Hr Ha Hn. apply (check_image_standard o m rom limit Hl Hr a flags1 flags2 entry ss Ha).
  - destruct (BOOT_IROM_CHKSUM o); lia.
  - destruct (BOOT_IROM_CHKSUM o); [|done]. by apply Z.eqb_neq; lia.
Qed.

(** When an image is accepted, the same image with one byte of its section data
    changed and the same stored checksum is rejected. *)
Theorem check_image_detects `{Machine M} o m m' rom rom' limit a flags1 flags2 entry ss ss' l1 x y l2 :
  limit <= 2 ^ 31 ->
  (forall p n, 0 <= p -> 0 <= n <= BUFFER_SIZE -> p + n <= limit -> SPIRead m p n = (0, rom_bytes rom p n)) ->
  (forall p n, 0 <= p -> 0 <= n <= BUFFER_SIZE -> p + n <= limit -> SPIRead m' p n = (0, rom_bytes rom' p n)) ->
  0 < a -> Z.of_nat (length ss) <= 254 -> length ss' = length ss -> is_byte flags1 -> is_byte flags2 ->
  let bs := image_bytes flags1 flags2 entry ss in
  let bs' := image_bytes flags1 flags2 entry ss' in
  let pos := Z.lor (a + Z.of_nat (length bs)) 0x0f in
  length bs' = length bs -> sections_data ss = l1 ++ x :: l2 -> sections_data ss' = l1 ++ y :: l2 -> x <> y ->
  rom_holds rom a bs -> rom_holds rom' a bs' -> rom' pos = rom pos -> pos + 1 <= limit -> a + 16 <= limit ->
  check_image o m a = Some a -> check_image o m' a = Some 0.
Proof.
  intros Hl Hr Hr' Ha Hn Hn' Hf1 Hf2 bs bs' pos Hlen Hd Hd' Hxy Hh Hh' Hpos Hfit H16 Hok.
  assert (Hi : forall n, Z.of_nat n <= 254 -> BOOT_IROM_CHKSUM o && (Z.of_nat n =? 255) = false).
  { intros n Hle. rewrite (proj2 (Z.eqb_neq _ _)) by lia. apply andb_false_r. }
  rewrite (check_image_standard o m rom limit Hl Hr a flags1 flags2 entry ss) in Hok; auto; try lia.
  fold bs pos in Hok.
  rewrite (check_image_standard o m' rom' limit Hl Hr' a flags1 flags2 entry ss'); auto; try lia.
  - fold bs'. rewrite Hlen. fold pos. rewrite Hpos.
    destruct (Z.eqb_spec (rom pos) (image_chksum ss)) as [Heq|]; [|injection Hok; lia].
    rewrite (proj2 (Z.eqb_neq _ _)); [done|]. rewrite Heq. unfold image_chksum. rewrite Hd, Hd'.
    by apply chksum_changed.
  - fold bs'. rewrite Hlen. done.
Qed.

(** [check_image] returns whatever the flash holds: no header, section count or
    section length makes its loops run forever. *)
Theorem check_image_returns `{Machine M} o m a :
  (forall p n, Forall is_byte (SPIRead m p n).2) -> exists r, check_image o m a = Some r.
Proof. intros Hb. by apply check_image_total. Qed.

(** C5: find_image without the GPIO option, the RTC option on (as the repository
    builds it) or off, for a configuration of 1 to 255 ROMs and flash reads that give
    bytes: it boots the first slot that passes [check_image] among the current ROM
    (slot 0 if the current one is not configured), the previous ones and then the
    later ones from the last down.  When a valid RTC block asks for a temporary ROM
    it tries that one alone (none if it is not configured; slot 0 if the current ROM
    is not).  It returns 0 when none passes; otherwise it copies the second stage to
    its place in memory, has rewritten the configuration sector exactly when that
    named another ROM (for a temporary boot: a ROM that is not configured), and
    leaves in the RTC memory the report of the boot, without a request.  A bad
    temporary ROM also clears the request. *)
Theorem find_image_boots `{Machine M} o loader m rtc0 ram :
  BOOT_GPIO_ENABLED o = false ->
  let conf := (loaded o m).1 in
  let m1 := (loaded o m).2 in
  (forall p n, Forall is_byte (SPIRead m1 p n).2) -> (BOOT_RTC_ENABLED o = true -> length rtc0 = 12%nat) ->
  0 < get8 conf cf_count <= 255 -> 0 <= get8 conf cf_current_rom ->
  exists p', find_image o loader rtc0 (Boot m [] ram) =
    match first_good (slot_address o m1 conf) (boot_slots o m1 conf rtc0) with
    | None => Some (0, Boot (unbooted o m1 conf rtc0) p' ram)
    | Some rom =>
        Some (slot_address o m1 conf rom, Boot (booted o m1 conf rtc0 rom) p' (loader_copied loader ram))
    end.
Proof. intros Hgpio. exact (find_image_spec o loader Hgpio m rtc0 ram). Qed.

(** The configuration that [find_image] writes when it finds none is one that it
    accepts at the next boot: two slots, the first one current, standard mode. *)
Theorem default_config_accepted o buffer flashsize :
  2 <= MAX_ROMS o <= 1000 -> length buffer = 4096%nat -> Forall is_byte buffer ->
  let conf := default_config o buffer flashsize in
  config_valid o conf = true /\ get8 conf cf_count = 2 /\ get8 conf cf_current_rom = 0 /\
  get8 conf cf_mode = MODE_STANDARD /\ length conf = 4096%nat.
Proof. apply default_config_fields. Qed.

(** A valid configuration with [count] 0 makes the search for a good ROM run
    forever when the words at slots 0 and -1 are not good images: no fuel is
    enough. *)
Theorem try_roms_empty_config `{Machine M} o fuel v s :
  get8 (bv_conf v) cf_count = 0 -> get8 (bv_conf v) cf_current_rom = 0 -> bv_rom v = 0 ->
  check_image o (mach s) (rom_address v (-1)) = Some 0 ->
  try_roms o fuel v 0 s = None.
Proof. intros ????. apply try_roms_none; auto. Qed.

(** The decision to boot from the GPIO does not depend on the mode of the
    configuration: [mode & MODE_GPIO_ROM == 0] is [mode & (MODE_GPIO_ROM == 0)]. *)
Theorem gpio_boot_ignores_mode `{Machine M} o m conf conf' :
  perform_gpio_boot o m conf = perform_gpio_boot o m conf'.
Proof.
  unfold perform_gpio_boot. cbn [MODE_GPIO_ROM Z.eqb c_bool]. by rewrite !Z.land_0_r.
Qed.

(** A block written to the RTC user memory and read back is the same, and no
    register outside that memory is written. *)
Theorem system_rtc_mem_roundtrip `{Machine M} addr len src buff m :
  (forall m a v, in_rtc_user_memory a -> READ_PERI_REG (WRITE_PERI_REG m a v) a = v) ->
  (forall m a b v, in_rtc_user_memory a -> a <> b ->
     READ_PERI_REG (WRITE_PERI_REG m a v) b = READ_PERI_REG m b) ->
  64 <= addr <= 192 -> 0 <= len -> len mod 4 = 0 -> addr * 4 + len <= 0x300 ->
  Forall is_byte src -> Z.of_nat (length src) = len -> Z.of_nat (length buff) = len ->
  exists m', system_rtc_mem m addr (Some src) true len RBOOT_RTC_WRITE = (1, src, m') /\
    system_rtc_mem m' addr (Some buff) true len RBOOT_RTC_READ = (1, src, m') /\
    (forall a, ~ in_rtc_user_memory a -> READ_PERI_REG m' a = READ_PERI_REG m a).
Proof. intros H1 H2. exact (rtc_roundtrip H1 H2 addr len src buff m). Qed.

(** ** A concrete machine

    Flash cells (erased where nothing is written) and registers, each a map. *)

Record sim_machine := { sim_flash : gmap Z Z; sim_regs : gmap Z Z }.
Definition sim_cell (s : sim_machine) (a : Z) : Z := u8 (default 255 (sim_flash s !! a)).
Fixpoint sim_put (f : gmap Z Z) (a : Z) (bs : list Z) : gmap Z Z :=
  match bs with
  | [] => f
  | b :: bs => sim_put (<[a := b]> f) (a + 1) bs
  end.
#[export] Instance sim_machine_ops : Machine sim_machine := {|
  SPIRead := fun s a n => (0, rom_bytes (sim_cell s) a n);
  SPIEraseSector := fun s sector =>
    {| sim_flash := filter (fun kv => kv.1 / SECTOR_SIZE <> sector) (sim_flash s); sim_regs := sim_regs s |};
  SPIWrite := fun s a bs n =>
    {| sim_flash := sim_put (sim_flash s) a (take (Z.to_nat n) bs); sim_regs := sim_regs s |};
  READ_PERI_REG := fun s a => default 0 (sim_regs s !! a);
  WRITE_PERI_REG := fun s a v => {| sim_flash := sim_flash s; sim_regs := <[a := v]> (sim_regs s) |}
|}.

Lemma sim_bytes (s : sim_machine) p n : Forall is_byte (SPIRead s p n).2.
Proof.
  simpl. unfold rom_bytes. apply Forall_map. rewrite Forall_forall. intros i _. apply u8_range.
Qed.

(** Two sections of three and one bytes. *)
Definition image1 : list rom_section :=
  [{| rs_address := 0x40100000; rs_data := [1; 2; 3] |}; {| rs_address := 0x3ffe8000; rs_data := [9] |}].
Definition image2 : list rom_section :=
  [{| rs_address := 0x40100000; rs_data := [1; 7; 3] |}; {| rs_address := 0x3ffe8000; rs_data := [9] |}].
(** An image at [a] with the checksum of [image1] behind it. *)
Definition sim_image (a : Z) (ss : list rom_section) (f : gmap Z Z) : gmap Z Z :=
  let bs := image_bytes 0 0 0x40100004 ss in
  <[Z.lor (a + Z.of_nat (length bs)) 15 := image_chksum image1]> (sim_put f a bs).

Definition sim1 : sim_machine :=
  {| sim_flash := sim_image 0x42000 image1 (sim_image 0x2000 image2 ∅); sim_regs := ∅ |}.
Definition sim2 : sim_machine := {| sim_flash := sim_image 0x2000 image1 ∅; sim_regs := ∅ |}.

Lemma rom_holds_check rom p bs :
  forallb (fun i => rom (p + Z.of_nat i) =? nth i bs 0) (seq 0 (length bs)) = true -> rom_holds rom p bs.
Proof.
  intros Hb i b Hi. rewrite List.forallb_forall in Hb.
  assert (Hlt : (i < length bs)%nat) by (by eapply lookup_lt_Some).
  specialize (Hb i (proj2 (in_seq _ _ _) (conj (Nat.le_0_l i) Hlt))). apply Z.eqb_eq in Hb. rewrite Hb.
  by apply nth_lookup_Some.
Qed.

Lemma check_image_spec_witness : check_image default_options sim2 0x2000 = Some 0x2000.
Proof.
  rewrite (check_image_spec default_options sim2 (sim_cell sim2) (2 ^ 24) 0x2000 0 0 0x40100004 image1);
    [by vm_compute|lia|reflexivity|lia|simpl; lia|unfold is_byte; lia|unfold is_byte; lia
    |by apply rom_holds_check; vm_compute|by vm_compute|lia].
Defined.

Definition sim3 : sim_machine := {| sim_flash := sim_image 0x2000 image2 ∅; sim_regs := ∅ |}.

Lemma check_image_detects_witness : check_image default_options sim3 0x2000 = Some 0.
Proof.
  apply (check_image_detects default_options sim2 sim3 (sim_cell sim2) (sim_cell sim3) (2 ^ 24) 0x2000 0 0
    0x40100004 image1 image2 [1] 2 7 [3; 9]); try reflexivity; try lia; try (unfold is_byte; lia).
  - simpl; lia.
  - by apply rom_holds_check; vm_compute.
  - by apply rom_holds_check; vm_compute.
  - by vm_compute.
Defined.

Lemma check_image_returns_witness : exists r, check_image default_options sim1 0x42000 = Some r.
Proof. apply (check_image_returns default_options sim1 0x42000 (sim_bytes sim1)). Defined.

(** No configuration: the default one is written, slot 0 is bad, and slot 1
    of a 4 Mbit flash is booted. *)
Definition loader1 : stage2_image := {| _text_addr := 0x4010fc00; _text_data := [7; 8]; _text_len := 2 |}.

Lemma find_image_boots_witness :
  exists s, find_image default_options loader1 (replicate 12 0) (Boot sim1 [] (fun _ => 0)) = Some (0x42000, s) /\
    get8 (rom_bytes (sim_cell (mach s)) 0x1000 4096) cf_current_rom = 1 /\ ram s 0x4010fc01 = 8 /\
    READ_PERI_REG (mach s) (rtc_word 65) = 0x00010000.
Proof.
  destruct (find_image_boots default_options loader1 sim1 (replicate 12 0) (fun _ => 0)) as (p' & E);
    [reflexivity|apply sim_bytes|reflexivity|by vm_compute|by vm_compute|].
  assert (Ef : first_good (slot_address default_options (loaded default_options sim1).2 (loaded default_options sim1).1)
    (boot_slots default_options (loaded default_options sim1).2 (loaded default_options sim1).1 (replicate 12 0)) = Some 1)
    by (by vm_compute).
  assert (Es : slot_address default_options (loaded default_options sim1).2 (loaded default_options sim1).1 1 =
    0x42000) by (by vm_compute).
  rewrite Ef, Es in E. eexists. split; [exact E|]. split; [|split]; vm_compute; reflexivity.
Defined.

Lemma default_config_accepted_witness :
  config_valid default_options (default_config default_options (replicate 4096 255) 0x80000) = true.
Proof.
  apply (default_config_accepted default_options (replicate 4096 255) 0x80000);
    [simpl; lia|apply length_replicate|apply Forall_replicate; unfold is_byte; lia].
Defined.

Lemma try_roms_empty_config_witness :
  try_roms default_options 1000
    {| bv_conf := [0xe1; 1; 0; 0; 0; 0; 0; 0]; bv_rom := 0; bv_update := false; bv_gpio := false;
       bv_temp := false; bv_rtc := [] |} 0 (Boot sim1 [] (fun _ => 0)) = None.
Proof. apply try_roms_empty_config; reflexivity. Defined.

Lemma system_rtc_mem_roundtrip_witness :
  exists m', system_rtc_mem m' 64 (Some (replicate 12 0)) true 12 RBOOT_RTC_READ =
    (1, [0x68; 0xae; 0x34; 0x23; 0; 1; 2; 3; 4; 5; 6; 7], m').
Proof.
  destruct (system_rtc_mem_roundtrip (M:=sim_machine) 64 12 [0x68; 0xae; 0x34; 0x23; 0; 1; 2; 3; 4; 5; 6; 7]
    (replicate 12 0) sim1) as (m' & _ & E & _); try lia; try reflexivity.
  - intros m a v _. simpl. by rewrite lookup_insert_eq.
  - intros m a b v _ Hne. simpl. by rewrite lookup_insert_ne.
  - repeat constructor; unfold is_byte; lia.
  - exists m'. exact E.
Defined.
