(* ===== verification/RbootStage2.v ===== *)
(** * bootloader/rboot/rboot-stage2a.c: loading the image

    find_image gives the address of an image and copies the second stage to the top of
    the instruction RAM; from there it copies the sections of the image to where they
    belong and jumps to the entry point.  Memory is a function of the address, without
    the stack of the boot loader; [buffer] is the buffer on the stack, which keeps what
    a read does not fill.  With the image in the flash the sections are in memory
    afterwards ([load_rom_loads]), and the boot loader as a whole starts the first good
    image ([rboot_starts_image]). *)

From S2P Require Import Prelude Rboot RbootImage RbootBoot.
Local Open Scope Z_scope.

Section stage2.
Context `{Machine M}.

(** SPIRead into the buffer. *)
Definition read_buffer (m : M) (readpos : Z) (buffer : list Z) (n : Z) : list Z :=
  let bs := (SPIRead m readpos n).2 in bs ++ drop (length bs) buffer.
(** [header->entry] and [section->address]. *)
Definition hdr_entry (b : list Z) : Z := get32 b 4.
Definition sect_address (b : list Z) : Z := get32 b 0.

(** Lines 43-55. *)
Fixpoint load_data (fuel : nat) (m : M) (buffer : list Z) (ram : memory) (readpos writepos remaining : Z)
    : option (list Z * memory * Z) :=
  match fuel with
  | O => None
  | S fuel =>
      if 0 <? remaining then
        let readlen := if remaining <? BUFFER_SIZE then remaining else BUFFER_SIZE in
        let buffer := read_buffer m readpos buffer readlen in
        load_data fuel m buffer (ets_memcpy ram writepos buffer readlen) (u32 (readpos + readlen)) (u32 (writepos + readlen))
          (remaining - readlen)
      else Some (buffer, ram, readpos)
  end.
(** Lines 33-56: [sectcount] counts down to 0. *)
Fixpoint load_sections (sectcount : nat) (m : M) (buffer : list Z) (ram : memory) (readpos : Z) : option memory :=
  match sectcount with
  | O => Some ram
  | S sectcount =>
      let buffer := read_buffer m readpos buffer sizeof_section_header in
      let readpos := u32 (readpos + sizeof_section_header) in
      let writepos := sect_address buffer in
      let remaining := sect_length buffer in
      match load_data (S (S (Z.to_nat (remaining / BUFFER_SIZE)))) m buffer ram readpos writepos remaining with
      | Some (buffer, ram, readpos) => load_sections sectcount m buffer ram readpos
      | None => None
      end
  end.
(** The entry point and the memory. *)
Definition load_rom (m : M) (buffer : list Z) (ram : memory) (readpos : Z) : option (Z * memory) :=
  let buffer := read_buffer m readpos buffer sizeof_rom_header in
  let readpos := u32 (readpos + sizeof_rom_header) in
  let usercode := hdr_entry buffer in
  match load_sections (Z.to_nat (hdr_count buffer)) m buffer ram readpos with
  | Some ram => Some (usercode, ram)
  | None => None
  end.

(** Both call_user_start: [None] as the inner result when find_image found no image;
    otherwise where the processor jumps.  The second stage, which find_image copied to
    where [entry_addr] points, is [load_rom] and the jump. *)
Definition call_user_start (o : options) (loader : stage2_image) (rtc0 buffer : list Z)
    : ST boot_state (option Z) := fun s =>
  match find_image o loader rtc0 s with
  | Some (addr, s) =>
      if addr =? 0 then Some (None, s)
      else match load_rom (mach s) buffer (ram s) addr with
           | Some (usercode, ram') => Some (Some usercode, Boot (mach s) (printed s) ram')
           | None => None
           end
  | None => None
  end.
End stage2.

(** ** Memory *)

Lemma store_bytes_app ram a bs cs : 0 <= a < 2 ^ 32 ->
  store_bytes ram a (bs ++ cs) = store_bytes (store_bytes ram a bs) (u32 (a + Z.of_nat (length bs))) cs.
Proof.
  revert ram a; induction bs as [|b bs IH]; intros ram a Ha; cbn [app store_bytes length].
  { by rewrite Z.add_0_r, u32_small. }
  rewrite IH by apply u32_range. f_equal. unfold u32. rewrite Zplus_mod_idemp_l. f_equal. lia.
Qed.
(** Bytes at addresses that do not wrap around. *)
Lemma store_bytes_lookup ram a bs x : 0 <= a -> a + Z.of_nat (length bs) <= 2 ^ 32 ->
  store_bytes ram a bs x = match (if a <=? x then bs !! Z.to_nat (x - a) else None) with Some b => b | None => ram x end.
Proof.
  revert ram a; induction bs as [|b bs IH]; intros ram a Ha Hl; cbn [store_bytes length] in *.
  { by destruct (a <=? x). }
  destruct (decide (bs = [])) as [->|Hne].
  { cbn [store_bytes]. unfold store_byte. destruct (Z.eqb_spec x a) as [->|Hxa].
    - rewrite (proj2 (Z.leb_le a a)) by lia. by rewrite Z.sub_diag.
    - destruct (Z.leb_spec a x); [|done]. by replace (Z.to_nat (x - a)) with (S (Z.to_nat (x - a - 1))) by lia. }
  assert (0 < length bs)%nat by (by destruct bs; [|cbn; lia]).
  rewrite u32_small by lia. rewrite IH by lia. unfold store_byte. destruct (Z.eqb_spec x a) as [->|Hxa].
  - rewrite (proj2 (Z.leb_gt (a + 1) a)), (proj2 (Z.leb_le a a)) by lia. by rewrite Z.sub_diag.
  - destruct (Z.leb_spec a x).
    + rewrite (proj2 (Z.leb_le (a + 1) x)) by lia. by replace (Z.to_nat (x - a)) with (S (Z.to_nat (x - (a + 1)))) by lia.
    + by rewrite (proj2 (Z.leb_gt (a + 1) x)) by lia.
Qed.

(** ** Loading an image *)
Section load.
Context `{Machine M} (m : M) (rom : Z -> Z) (limit : Z).
Context (Hlimit : limit <= 2 ^ 31).
(** The first [limit] bytes of the flash can be read. *)
Context (Hread : forall p n, 0 <= p -> 0 <= n <= BUFFER_SIZE -> p + n <= limit -> SPIRead m p n = (0, rom_bytes rom p n)).

Lemma read_buffer_spec p buffer n : 0 <= p -> 0 <= n <= BUFFER_SIZE -> p + n <= limit ->
  exists rest, read_buffer m p buffer n = rom_bytes rom p n ++ rest.
Proof. intros Hp Hn Hl. unfold read_buffer. rewrite Hread by done. by eexists. Qed.

Lemma load_data_spec fuel buffer ram p w r : 0 <= p -> 0 <= r -> p + r <= limit -> 0 <= w < 2 ^ 32 -> (r + 255) / 256 < Z.of_nat fuel ->
  exists buffer', load_data fuel m buffer ram p w r = Some (buffer', store_bytes ram w (rom_bytes rom p r), p + r).
Proof.
  revert buffer ram p w r; induction fuel as [|fuel IH]; intros buffer ram p w r Hp Hr Hl Hw Hf.
  { assert (0 <= (r + 255) / 256) by (apply Z.div_pos; lia). lia. }
  cbn [load_data]. unfold BUFFER_SIZE in *. destruct (Z.ltb_spec 0 r).
  2:{ replace r with 0 by lia. rewrite Z.add_0_r. by eexists. }
  set (n := if r <? 0x100 then r else 0x100).
  assert (Hn : 0 < n <= r /\ n <= 0x100) by (unfold n; destruct (Z.ltb_spec r 0x100); lia).
  destruct (read_buffer_spec p buffer n) as (rest & Eb); [lia|unfold BUFFER_SIZE; lia|lia|].
  destruct (IH (read_buffer m p buffer n) (ets_memcpy ram w (read_buffer m p buffer n) n) (p + n) (u32 (w + n)) (r - n)) as (buffer' & E);
    [lia..|apply u32_range|unfold n; destruct (Z.ltb_spec r 0x100); Z.div_mod_to_equations; lia|].
  rewrite u32_small by lia. exists buffer'. rewrite E. do 2 f_equal; [|lia].
  replace r with (n + (r - n)) at 2 by lia. rewrite rom_bytes_app, store_bytes_app, length_rom_bytes, Z2Nat.id by lia. f_equal. f_equal.
  unfold ets_memcpy. by rewrite Eb, take_app_length' by by rewrite length_rom_bytes.
Qed.

Definition load_section (ram : memory) (s : rom_section) : memory := store_bytes ram (rs_address s) (rs_data s).
Definition section_fits (s : rom_section) : Prop := 0 <= rs_address s /\ rs_address s + Z.of_nat (length (rs_data s)) <= 2 ^ 32.

Lemma get32_le_bytes pre x rest : 0 <= x < 2 ^ 32 -> get32 (pre ++ le_bytes 4 x ++ rest) (Z.of_nat (length pre)) = x.
Proof.
  intros Hx. unfold get32. rewrite Nat2Z.id, drop_app_length, take_app_length' by done. rewrite le_val_bytes. by apply Z.mod_small.
Qed.
Lemma load_sections_spec ss buffer ram p : 0 <= p -> p + Z.of_nat (length (sections_bytes ss)) <= limit ->
  rom_holds rom p (sections_bytes ss) -> Forall (fun s => section_fits s /\ rs_address s < 2 ^ 32) ss ->
  load_sections (length ss) m buffer ram p = Some (fold_left load_section ss ram).
Proof.
  revert buffer ram p; induction ss as [|s ss IH]; intros buffer ram p Hp Hl Hh Hf; [done|].
  apply Forall_cons in Hf as [[[Ha He] Ha2] Hf]. cbn [load_sections length fold_left].
  unfold sections_bytes in *. cbn [map concat] in *. apply rom_holds_app in Hh as [Hs Hh]. rewrite length_app in Hl.
  pose proof (length_section_bytes s) as Hls. set (n := Z.of_nat (length (rs_data s))) in *.
  destruct (read_buffer_spec p buffer sizeof_section_header) as (rest & Eb); [lia|unfold sizeof_section_header, BUFFER_SIZE; lia|unfold sizeof_section_header; lia|].
  unfold sizeof_section_header in *. rewrite (section_header rom p s Hs), <- app_assoc in Eb. fold n in Eb. set (b := read_buffer m p buffer 8) in *.
  assert (Ea : sect_address b = rs_address s).
  { rewrite Eb. exact (get32_le_bytes [] (rs_address s) _ ltac:(lia)). }
  assert (El : sect_length b = n).
  { rewrite Eb. unfold sect_length. apply (get32_le_bytes (le_bytes 4 (rs_address s)) n). lia. }
  rewrite Ea, El. rewrite u32_small by lia. assert (0 <= n / BUFFER_SIZE) by (apply Z.div_pos; unfold BUFFER_SIZE; lia).
  destruct (load_data_spec (S (S (Z.to_nat (n / BUFFER_SIZE)))) b ram (p + 8) (rs_address s) n) as (b' & ->);
    [lia..|unfold BUFFER_SIZE in *; Z.div_mod_to_equations; lia|].
  replace (p + 8 + n) with (p + Z.of_nat (length (section_bytes s))) by lia. rewrite IH; [|lia|lia|done|done].
  do 2 f_equal. unfold load_section. f_equal. unfold section_bytes in Hs. rewrite app_assoc in Hs. apply rom_holds_app in Hs as [_ Hd].
  apply rom_bytes_eq in Hd. rewrite <- Hd. fold n. f_equal.
Qed.

Lemma load_rom_spec a buffer ram flags1 flags2 entry ss : 0 <= a -> Z.of_nat (length ss) <= 255 -> 0 <= entry < 2 ^ 32 ->
  let bs := image_bytes flags1 flags2 entry ss in
  rom_holds rom a bs -> a + Z.of_nat (length bs) <= limit -> Forall (fun s => section_fits s /\ rs_address s < 2 ^ 32) ss ->
  load_rom m buffer ram a = Some (entry, fold_left load_section ss ram).
Proof.
  intros Ha Hss He bs Hh Hl Hf. unfold load_rom.
  assert (Eh : exists rest, read_buffer m a buffer sizeof_rom_header = [ROM_MAGIC; Z.of_nat (length ss); flags1; flags2] ++ le_bytes 4 entry ++ rest).
  { assert (Hlen : 8 <= Z.of_nat (length bs)).
    { unfold bs, image_bytes. rewrite !length_app, length_le_bytes. cbn [length]. lia. }
    destruct (read_buffer_spec a buffer sizeof_rom_header) as (rest & ->); [lia|unfold sizeof_rom_header, BUFFER_SIZE; lia|unfold sizeof_rom_header; lia|].
    exists rest. unfold bs, image_bytes in Hh. rewrite app_assoc in Hh. apply rom_holds_app in Hh as [Hh _]. apply rom_bytes_eq in Hh.
    rewrite app_assoc. f_equal. rewrite <- Hh. f_equal. }
  destruct Eh as (rest & ->). unfold hdr_count, get8, hdr_entry. change (nth (Z.to_nat 1) _ 0) with (Z.of_nat (length ss)).
  rewrite (get32_le_bytes [ROM_MAGIC; Z.of_nat (length ss); flags1; flags2] entry rest He : get32 _ 4 = entry).
  unfold bs, image_bytes in Hh, Hl. rewrite app_assoc in Hh. apply rom_holds_app in Hh as [_ Hh]. rewrite !length_app, length_le_bytes in *.
  cbn [length] in Hh, Hl. unfold sizeof_rom_header. rewrite u32_small by lia. rewrite Nat2Z.id.
  rewrite load_sections_spec; [done|lia| |exact Hh|exact Hf]. lia.
Qed.
End load.

(** ** Sections in memory *)

Definition in_section (s : rom_section) (x : Z) : Prop := rs_address s <= x < rs_address s + Z.of_nat (length (rs_data s)).
Definition apart (s t : rom_section) : Prop := forall x, in_section s x -> ~ in_section t x.
Lemma load_section_in ram s i b : section_fits s -> rs_data s !! i = Some b -> load_section ram s (rs_address s + Z.of_nat i) = b.
Proof.
  intros [Ha Hl] Hi. unfold load_section. rewrite store_bytes_lookup by done. rewrite (proj2 (Z.leb_le _ _)) by lia.
  replace (Z.to_nat (rs_address s + Z.of_nat i - rs_address s)) with i by lia. by rewrite Hi.
Qed.
Lemma load_section_out ram s x : section_fits s -> ~ in_section s x -> load_section ram s x = ram x.
Proof.
  intros [Ha Hl] Hx. unfold load_section. rewrite store_bytes_lookup by done. destruct (Z.leb_spec (rs_address s) x); [|done].
  rewrite lookup_ge_None_2; [done|]. unfold in_section in Hx. lia.
Qed.
Lemma load_sections_out ss ram x : Forall section_fits ss -> (forall s, In s ss -> ~ in_section s x) -> fold_left load_section ss ram x = ram x.
Proof.
  intros Hf. revert ram; induction Hf as [|s ss Hs Hf IH]; intros ram Hx; cbn [fold_left]; [done|].
  rewrite IH by (intros t Ht; apply Hx; by right). apply load_section_out; [done|]. apply Hx. by left.
Qed.
Lemma load_sections_in ss ram s : Forall section_fits ss -> ForallOrdPairs apart ss -> In s ss ->
  rom_holds (fold_left load_section ss ram) (rs_address s) (rs_data s).
Proof.
  intros Hf Hp. revert ram; induction Hp as [|t ss Ht Hp IH]; intros ram Hin; [done|].
  apply Forall_cons in Hf as [Hft Hf]. cbn [fold_left]. destruct Hin as [->|Hin]; [|by apply IH].
  intros i b Hi. rewrite load_sections_out; [by apply load_section_in|done|]. intros u Hu. rewrite List.Forall_forall in Ht. apply (Ht u Hu).
  pose proof (lookup_lt_Some _ _ _ Hi). unfold in_section. lia.
Qed.

(** load_rom returns the entry point and puts the bytes of every section where it
    belongs, and nothing else. *)
Lemma load_rom_loads `{Machine M} (m : M) rom limit a buffer ram flags1 flags2 entry ss : limit <= 2 ^ 31 ->
  (forall p n, 0 <= p -> 0 <= n <= BUFFER_SIZE -> p + n <= limit -> SPIRead m p n = (0, rom_bytes rom p n)) ->
  0 <= a -> Z.of_nat (length ss) <= 255 -> 0 <= entry < 2 ^ 32 ->
  rom_holds rom a (image_bytes flags1 flags2 entry ss) -> a + Z.of_nat (length (image_bytes flags1 flags2 entry ss)) <= limit ->
  Forall (fun s => section_fits s /\ rs_address s < 2 ^ 32) ss -> ForallOrdPairs apart ss ->
  exists ram', load_rom m buffer ram a = Some (entry, ram') /\
    (forall s, In s ss -> rom_holds ram' (rs_address s) (rs_data s)) /\
    (forall x, (forall s, In s ss -> ~ in_section s x) -> ram' x = ram x).
Proof.
  intros Hl Hr Ha Hss He Hh Hfit Hf Hp. exists (fold_left load_section ss ram).
  assert (Hf' : Forall section_fits ss) by (eapply Forall_impl; [exact Hf|]; by intros s []).
  split_and!; [by eapply (load_rom_spec m rom limit)|by intros s; apply load_sections_in|by intros x; apply load_sections_out].
Qed.

(** The bytes of the second stage, as a section of its own. *)
Definition loader_section (l : stage2_image) : rom_section :=
  {| rs_address := _text_addr l; rs_data := take (Z.to_nat (_text_len l)) (_text_data l) |}.
Lemma loader_copied_section l ram : loader_copied l ram = load_section ram (loader_section l).
Proof. done. Qed.

(** C6: the boot loader starts the image that find_image chooses (the first good one in
    its order, see find_image_boots; GPIO option off, RTC option on or off, 1 to 255
    configured ROMs): call_user_start copies the second stage to its place and each of
    the sections of the image to its address, changes no other memory, and jumps to the
    entry point in the header of the image.  The image is a standard one whose bytes the
    ROM's SPIRead returns, for blocks of any position and size, from the flash below
    2^31; its sections lie within the 32-bit addresses, do not overlap each other and do
    not overlap the second stage, which runs while they are copied.  The stack of the
    boot loader is not part of the memory. *)
Theorem rboot_starts_image `{Machine M} o loader (m : M) rtc0 buffer ram r rom limit flags1 flags2 entry ss :
  BOOT_GPIO_ENABLED o = false -> (BOOT_RTC_ENABLED o = true -> length rtc0 = 12%nat) ->
  let conf := (loaded o m).1 in
  let m1 := (loaded o m).2 in
  (forall p n, Forall is_byte (SPIRead m1 p n).2) ->
  0 < get8 conf cf_count <= 255 -> 0 <= get8 conf cf_current_rom ->
  first_good (slot_address o m1 conf) (boot_slots o m1 conf rtc0) = Some r ->
  let m2 := booted o m1 conf rtc0 r in
  let a := slot_address o m1 conf r in
  limit <= 2 ^ 31 ->
  (forall p n, 0 <= p -> 0 <= n <= BUFFER_SIZE -> p + n <= limit -> SPIRead m2 p n = (0, rom_bytes rom p n)) ->
  0 <= a -> Z.of_nat (length ss) <= 255 -> 0 <= entry < 2 ^ 32 ->
  rom_holds rom a (image_bytes flags1 flags2 entry ss) -> a + Z.of_nat (length (image_bytes flags1 flags2 entry ss)) <= limit ->
  Forall (fun s => section_fits s /\ rs_address s < 2 ^ 32) ss -> section_fits (loader_section loader) ->
  ForallOrdPairs apart (loader_section loader :: ss) ->
  exists ram' p, call_user_start o loader rtc0 buffer (Boot m [] ram) = Some (Some entry, Boot m2 p ram') /\
    (forall s, In s (loader_section loader :: ss) -> rom_holds ram' (rs_address s) (rs_data s)) /\
    (forall x, (forall s, In s (loader_section loader :: ss) -> ~ in_section s x) -> ram' x = ram x).
Proof.
  intros Hgpio Hl0 conf m1 Hb Hcount Hcur Hgood m2 a Hl Hr Ha Hss He Hh Hfit Hf Hfl Hp.
  destruct (find_image_spec o loader Hgpio m rtc0 ram Hb Hl0 Hcount Hcur) as (p & E). fold conf m1 in E. rewrite Hgood in E.
  fold m2 a in E. rewrite loader_copied_section in E.
  assert (Hall : Forall section_fits (loader_section loader :: ss)).
  { constructor; [done|]. eapply Forall_impl; [exact Hf|]. by intros s []. }
  pose proof (load_rom_spec m2 rom limit Hl Hr a buffer (load_section ram (loader_section loader)) flags1 flags2 entry ss
    Ha Hss He Hh Hfit Hf) as El.
  exists (fold_left load_section (loader_section loader :: ss) ram), p. split_and!.
  - unfold call_user_start. rewrite E. destruct (first_good_in _ _ _ Hgood) as [_ Hne].
    rewrite (proj2 (Z.eqb_neq a 0) Hne). cbn [mach Rboot.ram printed]. by rewrite El.
  - intros s. by apply load_sections_in.
  - intros x. by apply load_sections_out.
Qed.
(** Writing the configuration leaves the cells from 0x2000 on. *)
Lemma sim_put_out f a bs x : x < a \/ a + Z.of_nat (length bs) <= x -> sim_put f a bs !! x = f !! x.
Proof.
  revert f a; induction bs as [|b bs IH]; intros f a Hx; cbn [sim_put length] in *; [done|].
  rewrite IH by lia. by rewrite lookup_insert_ne by lia.
Qed.
Lemma written_cell (s : sim_machine) conf x : 0x2000 <= x -> sim_cell (written s conf) x = sim_cell s x.
Proof.
  intros Hx. unfold sim_cell, written. cbn [SPIWrite SPIEraseSector sim_machine_ops sim_flash]. do 2 f_equal.
  rewrite sim_put_out.
  - apply option_eq. intros v. rewrite map_lookup_filter_Some. cbn [fst]. split; [by intros [? _]|]. intros Hv. split; [done|].
    unfold SECTOR_SIZE, BOOT_CONFIG_SECTOR. intros Hq. pose proof (Z.div_le_mono 0x2000 x 0x1000 ltac:(lia) Hx) as Hd.
    rewrite Hq in Hd. change (0x2000 / 0x1000) with 2 in Hd. lia.
  - right. rewrite length_take. unfold SECTOR_SIZE, BOOT_CONFIG_SECTOR. lia.
Qed.
Lemma loaded_cell o (s : sim_machine) x : 0x2000 <= x -> sim_cell (loaded o s).2 x = sim_cell s x.
Proof. intros Hx. unfold loaded. destruct (flash_size _ _). destruct (config_valid _ _); [done|by apply written_cell]. Qed.
(** [sim1] boots the image in slot 1. *)
Lemma booted_cell o (s : sim_machine) conf rtc0 r x : 0x2000 <= x -> sim_cell (booted o s conf rtc0 r) x = sim_cell s x.
Proof.
  intros Hx. unfold booted. cbv zeta.
  assert (E : forall (s : sim_machine) rtc, sim_cell (rtc_left o s rtc) x = sim_cell s x).
  { intros s' rtc. unfold rtc_left. by destruct (BOOT_RTC_ENABLED o). }
  rewrite E. match goal with |- context [if ?b then s else _] => destruct b end; [done|by apply written_cell].
Qed.
Lemma rboot_starts_image_witness : exists ram' s',
  call_user_start default_options loader1 (replicate 12 0) [] (Boot sim1 [] (fun _ => 0)) = Some (Some 0x40100004, s') /\
  ram s' = ram' /\ rom_holds ram' 0x40100000 [1; 2; 3] /\ ram' 0x3ffe8000 = 9 /\ ram' 0x40100003 = 0 /\ ram' 0x4010fc00 = 7.
Proof.
  set (m2 := booted default_options (loaded default_options sim1).2 (loaded default_options sim1).1 (replicate 12 0) 1).
  assert (Ea : slot_address default_options (loaded default_options sim1).2 (loaded default_options sim1).1 1 = 0x42000) by by vm_compute.
  destruct (rboot_starts_image default_options loader1 sim1 (replicate 12 0) [] (fun _ => 0) 1 (sim_cell m2) (2 ^ 24) 0 0 0x40100004 image1)
    as (ram' & p & E & H1 & H2).
  - reflexivity.
  - reflexivity.
  - apply sim_bytes.
  - vm_compute. split; [reflexivity|]. intros Hc. discriminate Hc.
  - vm_compute. intros Hc. discriminate Hc.
  - vm_compute. reflexivity.
  - lia.
  - reflexivity.
  - vm_compute. intros Hc. discriminate Hc.
  - vm_compute. intros Hc. discriminate Hc.
  - lia.
  - intros i b Hi. change (slot_address _ _ _ _) with (slot_address default_options (loaded default_options sim1).2 (loaded default_options sim1).1 1).
    rewrite Ea. unfold m2. rewrite booted_cell, loaded_cell by lia. revert i b Hi. apply rom_holds_check. by vm_compute.
  - vm_compute. intros Hc. discriminate Hc.
  - clear Ea. repeat constructor; by vm_compute.
  - clear Ea. split; by vm_compute.
  - repeat constructor; intros x [Hx1 Hx2] [Hx3 Hx4]; cbn in *; lia.
  - exists ram', (Boot m2 p ram'). split_and!; [exact E|reflexivity| | | |].
    + exact (H1 _ (or_intror (or_introl eq_refl))).
    + exact (H1 _ (or_intror (or_intror (or_introl eq_refl))) 0%nat 9 eq_refl).
    + apply H2. intros s [<-|[<-|[<-|[]]]] [Hx Hy]; cbn in Hx, Hy; lia.
    + exact (H1 _ (or_introl eq_refl) 0%nat 7 eq_refl).
Defined.
