(* ===== verification/RbootApi.v ===== *)
(** * extras/rboot-ota/rboot-api.c: configuring rBoot and writing images from the application

    The API over a flash device [D] of [Flash] (the [sdk_spi_flash] calls that
    rboot-integration.h names) and, for the RTC data, over the machine of [Rboot]
    with the RTC memory functions of open_esplibs/libmain/user_interface.c.  The
    heap is the list of the outcomes of the next calls of [malloc]: a block with
    what it happens to contain, or none.  [rboot_config] and [rboot_rtc_data] are
    the bytes of the structures, with the offsets of [Rboot]. *)

From S2P Require Import Prelude Flash Rboot.
Local Open Scope Z_scope.

(** [memcpy] of [bs] to the start of the buffer [buf]. *)
Definition overlay (bs buf : list Z) : list Z := bs ++ drop (length bs) buf.

Definition flash_ok (r : sdk_SpiFlashOpResult) : bool :=
  match r with SPI_FLASH_RESULT_OK => true | _ => false end.

(** ** The RTC memory of the SDK (user_interface.c) *)

Section rtc_mem.
Context `{Machine M}.

(** [RTCMEM_SYSTEM[i]]. *)
Definition RTCMEM_SYSTEM (i : Z) : Z := 0x60001000 + 0x100 + 4 * i.

(** [(save_size & ~3) + 4] when the size is not a multiple of 4. *)
Definition rtc_round (save_size : Z) : Z :=
  if negb (Z.land save_size 3 =? 0) then u16 (Z.land save_size 0xfffc + 4) else save_size.

(** The loops copy words 0 to [n - 1]; [i] is the next one. *)
Fixpoint rtc_store (n : nat) (i : Z) (m : M) (src_buf : list Z) : M :=
  match n with
  | O => m
  | S n => rtc_store n (i + 1) (WRITE_PERI_REG m (RTCMEM_SYSTEM i) (get32 src_buf (4 * i))) src_buf
  end.
Fixpoint rtc_load (n : nat) (i : Z) (m : M) (dest_buf : list Z) : list Z :=
  match n with
  | O => dest_buf
  | S n => rtc_load n (i + 1) m (set32 dest_buf (4 * i) (READ_PERI_REG m (RTCMEM_SYSTEM i)))
  end.

(** [aligned]: the address of the buffer is a multiple of 4. *)
Definition sdk_system_rtc_mem_write (m : M) (des_addr : Z) (src : list Z) (aligned : bool)
    (save_size : Z) : bool * M :=
  if 191 <? des_addr then (false, m)
  else if negb aligned then (false, m)
  else if 768 - des_addr * 4 <? save_size then (false, m)
  else (true, rtc_store (Z.to_nat (Z.shiftr (rtc_round save_size) 2)) 0 m src).

Definition sdk_system_rtc_mem_read (m : M) (src_addr : Z) (des : list Z) (aligned : bool)
    (save_size : Z) : bool * list Z :=
  if 191 <? src_addr then (false, des)
  else if negb aligned then (false, des)
  else if 768 - src_addr * 4 <? save_size then (false, des)
  else (true, rtc_load (Z.to_nat (Z.shiftr (rtc_round save_size) 2)) 0 m des).
End rtc_mem.

(** ** RTC data of rBoot *)

Section rtc_data.
Context `{Machine M}.

Definition rboot_get_rtc_data (m : M) (rtc : list Z) : bool * list Z :=
  let '(ok, rtc) := sdk_system_rtc_mem_read m RBOOT_RTC_ADDR rtc true sizeof_rboot_rtc_data in
  if ok : bool then (get8 rtc rt_chksum =? calc_chksum rtc rt_chksum, rtc) else (false, rtc).

Definition rboot_set_rtc_data (m : M) (rtc : list Z) : bool * list Z * M :=
  let rtc := set8 rtc rt_chksum (calc_chksum rtc rt_chksum) in
  let '(ok, m) := sdk_system_rtc_mem_write m RBOOT_RTC_ADDR rtc true sizeof_rboot_rtc_data in
  (ok, rtc, m).

(** [rtc0]: what the stack holds where [rtc] lies. *)
Definition rboot_set_temp_rom (m : M) (rtc0 : list Z) (rom : Z) : bool * M :=
  let '(ok, rtc) := rboot_get_rtc_data m rtc0 in
  let rtc :=
    if ok : bool then rtc
    else set8 (set8 (set32 rtc rt_magic RBOOT_RTC_MAGIC) rt_last_mode MODE_STANDARD) rt_last_rom 0 in
  let rtc := set8 rtc rt_next_mode MODE_TEMP_ROM in
  let rtc := set8 rtc rt_temp_rom rom in
  let '(ok, _, m) := rboot_set_rtc_data m rtc in (ok, m).

(** The value stored at the pointer, if any. *)
Definition rboot_get_last_boot_rom (m : M) (rtc0 : list Z) : option Z :=
  let '(ok, rtc) := rboot_get_rtc_data m rtc0 in
  if ok : bool then Some (get8 rtc rt_last_rom) else None.
Definition rboot_get_last_boot_mode (m : M) (rtc0 : list Z) : option Z :=
  let '(ok, rtc) := rboot_get_rtc_data m rtc0 in
  if ok : bool then Some (get8 rtc rt_last_mode) else None.
End rtc_data.

(** ** The configuration and the flash *)

Record app (D : Type) := App { flash : D; heap : list (option (list Z)) }.
Arguments App {D} flash heap.
Arguments flash {D}.
Arguments heap {D}.

(** [rboot_write_status]. *)
Record rboot_write_status := WriteStatus {
  start_addr : Z;
  start_sector : Z;
  last_sector_erased : Z;
  extra_count : Z;
  extra_bytes : list Z
}.

(** The messages of [rboot_verify_image]. *)
Inductive verify_error :=
  | UnalignedOffset
  | FlashFail
  | MissingMagic
  | LengthNotModulo4
  | BadSecondMagic
  | ImageTruncated
  | InvalidChecksum.

(** [image_header_t] and [section_header_t]. *)
Definition ih_magic (b : list Z) : Z := get8 b 0.
Definition ih_section_count (b : list Z) : Z := u8 (get8 b 1).
Definition sh_length (b : list Z) : Z := get32 b 4.
Definition sizeof_image_header_t : Z := 8.
Definition sizeof_section_header_t : Z := 8.
Definition ROM_MAGIC_OLD : Z := 0xe9.
Definition ROM_MAGIC_NEW : Z := 0xea.

Section api.
Context `{FlashDev D} (o : options).
Abbreviation A := (ST (app D)).

Definition malloc (size : Z) : A (option (list Z)) := fun w =>
  match heap w with
  | Some junk :: h =>
      Some (Some (take (Z.to_nat size) (junk ++ replicate (Z.to_nat size) 0)), App (flash w) h)
  | None :: h => Some (None, App (flash w) h)
  | [] => Some (None, w)
  end.

(** Reading into the buffer [buf]. *)
Definition read_into (a n : Z) (buf : list Z) : A (sdk_SpiFlashOpResult * list Z) := fun w =>
  let '(r, bs) := flash_read (flash w) a n in Some ((r, overlay bs buf), w).
Definition erase_sector (s : Z) : A sdk_SpiFlashOpResult := fun w =>
  let '(r, d) := flash_erase_sector (flash w) (u16 s) in Some (r, App d (heap w)).
Definition write_flash (a : Z) (src : list Z) (n : Z) : A sdk_SpiFlashOpResult := fun w =>
  let '(r, d) := flash_write (flash w) a src n in Some (r, App d (heap w)).

(** [conf0]: what the stack holds where [conf] lies. *)
Definition rboot_get_config (conf0 : list Z) : A (list Z) :=
  '(_, conf) ← read_into (BOOT_CONFIG_SECTOR * SECTOR_SIZE) (sizeof_rboot_config o) conf0;
  mret conf.

(** The result is the return value and [conf], whose checksum it sets. *)
Definition rboot_set_config (conf : list Z) : A (bool * list Z) :=
  buffer ← malloc SECTOR_SIZE;
  match buffer with
  | None => mret (false, conf)
  | Some buffer =>
      let conf := update_chksum o conf in
      '(_, buffer) ← read_into (BOOT_CONFIG_SECTOR * SECTOR_SIZE) SECTOR_SIZE buffer;
      let buffer := overlay conf buffer in
      erase_sector BOOT_CONFIG_SECTOR;;
      write_flash (BOOT_CONFIG_SECTOR * SECTOR_SIZE) buffer SECTOR_SIZE;;
      mret (true, conf)
  end.

Definition rboot_get_current_rom (conf0 : list Z) : A Z :=
  conf ← rboot_get_config conf0; mret (get8 conf cf_current_rom).

Definition rboot_set_current_rom (conf0 : list Z) (rom : Z) : A bool :=
  conf ← rboot_get_config conf0;
  if get8 conf cf_count <=? rom then mret false
  else '(ok, _) ← rboot_set_config (set8 conf cf_current_rom rom); mret ok.

Definition rboot_get_slot_offset (conf0 : list Z) (slot : Z) : A Z :=
  conf ← rboot_get_config conf0;
  if get8 conf cf_count <=? slot then mret 0xffffffff else mret (get32 conf (cf_roms slot)).

(** ** Writing an image *)

Definition rboot_write_init (addr : Z) : rboot_write_status :=
  let sector := addr / SECTOR_SIZE in
  {| start_addr := addr; start_sector := sector; last_sector_erased := s32 (u32 (sector - 1));
     extra_count := 0; extra_bytes := [0; 0; 0; 0] |}.

(** The loop of lines 147-150. *)
Fixpoint erase_sectors (fuel : nat) (lastsect last : Z) : A Z :=
  if last <? lastsect then
    match fuel with
    | O => out_of_fuel
    | S fuel => erase_sector (last + 1);; erase_sectors fuel lastsect (last + 1)
    end
  else mret last.

(** [data = None] is the null pointer. *)
Definition rboot_write_flash (status : rboot_write_status) (data : option (list Z)) (len : Z)
    : A (bool * rboot_write_status) :=
  match data with
  | None => mret (true, status)
  | Some data =>
      if len =? 0 then mret (true, status)
      else
        buffer ← malloc (len + extra_count status);
        match buffer with
        | None => mret (false, status)
        | Some _ =>
            let buffer := take (Z.to_nat (extra_count status)) (extra_bytes status) ++
                          take (Z.to_nat len) data in
            let len := u16 (len + extra_count status) in
            let extra := len mod 4 in
            let len := u16 (len - extra) in
            let extra_bytes := overlay (take (Z.to_nat extra) (drop (Z.to_nat len) buffer))
                                 (extra_bytes status) in
            let lastsect := s32 (u32 (u32 (start_addr status + len) - 1) / SECTOR_SIZE) in
            last ← erase_sectors (Z.to_nat (lastsect - last_sector_erased status)) lastsect
                     (last_sector_erased status);
            r ← write_flash (start_addr status) buffer len;
            let ok := flash_ok r in
            mret (ok, {| start_addr := if ok then u32 (start_addr status + len) else start_addr status;
                         start_sector := start_sector status; last_sector_erased := last;
                         extra_count := extra; extra_bytes := extra_bytes |})
        end
  end.

(** ** Verifying an image *)

(** Lines 293-297: the checksum of the [n] bytes from [offset + i] on. *)
Fixpoint sum_section (n : nat) (d : D) (offset i : Z) (chunk : list Z) (checksum : Z) : Z :=
  match n with
  | O => checksum
  | S n =>
      let chunk := if i mod 16 =? 0 then overlay (flash_read d (u32 (offset + i)) 16).2 chunk
                   else chunk in
      sum_section n d offset (i + 1) chunk (u8 (Z.lxor checksum (get8 chunk (i mod 16))))
  end.

(** The loop of lines 269-320: where it ends and what is left, or a failure.
    [chunk0] is what the stack holds where [chunk] lies. *)
Fixpoint verify_sections (fuel : nat) (d : D) (chunk0 : list Z) (end_limit offset : Z)
    (image_header : list Z) (is_new_header : bool) (remaining_sections checksum : Z)
    : option ((Z * Z * Z) + (verify_error * Z)) :=
  match fuel with
  | O => None
  | S fuel =>
      if (0 <? remaining_sections) && (offset <? end_limit) then
        let '(r, header) := flash_read d offset sizeof_section_header_t in
        if negb (flash_ok r) then Some (inr (FlashFail, offset))
        else
          let offset := u32 (offset + sizeof_section_header_t) in
          let length := sh_length header in
          if end_limit <? u32 (length + offset)
          then Some (inl (offset, remaining_sections, checksum))
          else if negb (length mod 4 =? 0) then Some (inr (LengthNotModulo4, offset))
          else
            let checksum := if is_new_header then checksum
                            else sum_section (Z.to_nat length) d offset 0 chunk0 checksum in
            let offset := u32 (offset + length) in
            let offset := Z.land (u32 (offset + 3)) 0xfffffffc in
            if is_new_header then
              let offset := Z.land (u32 (offset + 15)) 0xfffffff0 in
              let image_header := overlay (flash_read d offset sizeof_image_header_t).2 image_header in
              let offset := u32 (offset + sizeof_image_header_t) in
              if negb (ih_magic image_header =? ROM_MAGIC_OLD) then Some (inr (BadSecondMagic, offset))
              else verify_sections fuel d chunk0 end_limit offset image_header false
                     (ih_section_count image_header) checksum
            else verify_sections fuel d chunk0 end_limit offset image_header false
                   (remaining_sections - 1) checksum
      else Some (inl (offset, remaining_sections, checksum))
  end.

(** The return value as the error of a failure, and [*image_length].  [word0] is
    what the stack holds where [read_checksum] lies. *)
Definition rboot_verify_image (d : D) (chunk0 word0 : list Z) (initial_offset : Z)
    : option (option verify_error * Z) :=
  let fail e offset := Some (Some e, u32 (offset - initial_offset)) in
  let offset := initial_offset in
  if negb (offset mod 4 =? 0) then fail UnalignedOffset offset
  else
    let end_limit := u32 (offset + 0x100000) in
    let '(r, image_header) := flash_read d offset sizeof_image_header_t in
    if negb (flash_ok r) then fail FlashFail offset
    else
      let offset := u32 (offset + sizeof_image_header_t) in
      if negb (ih_magic image_header =? ROM_MAGIC_OLD) && negb (ih_magic image_header =? ROM_MAGIC_NEW)
      then fail MissingMagic offset
      else
        match verify_sections 257 d chunk0 end_limit offset image_header
                (ih_magic image_header =? ROM_MAGIC_NEW) (ih_section_count image_header) CHKSUM_INIT with
        | None => None
        | Some (inr (e, offset)) => fail e offset
        | Some (inl (offset, remaining_sections, checksum)) =>
            if 0 <? remaining_sections then fail ImageTruncated offset
            else
              let offset := Z.land (u32 (u32 (offset + 1) + 15)) 0xfffffff0 in
              let read_checksum := overlay (flash_read d (u32 (offset - 1)) 1).2 word0 in
              if negb (get8 read_checksum 0 =? checksum) then fail InvalidChecksum offset
              else Some (None, u32 (offset - initial_offset))
        end.

(** ** Hashing an image *)

(** The state of the digest is the [X] of the callback. *)
Fixpoint digest_loop {X : Type} (update_fn : X -> list Z -> X) (fuel : nat) (d : D) (buf : list Z)
    (offset image_length i : Z) (ctx : X) : option (bool * X) :=
  if i <? image_length then
    match fuel with
    | O => None
    | S fuel =>
        let '(r, bs) := flash_read d (u32 (offset + i)) 32 in
        if negb (flash_ok r) then Some (false, ctx)
        else
          let buf := overlay bs buf in
          let digest_len := if image_length <? u32 (i + 32) then image_length - i else 32 in
          digest_loop update_fn fuel d buf offset image_length (i + 32)
            (update_fn ctx (take (Z.to_nat digest_len) buf))
    end
  else Some (true, ctx).

Definition rboot_digest_image {X : Type} (update_fn : X -> list Z -> X) (d : D) (buf0 : list Z)
    (offset image_length : Z) (ctx : X) : option (bool * X) :=
  digest_loop update_fn (Z.to_nat (image_length / 32 + 1)) d buf0 offset image_length 0 ctx.
End api.
