(* ===== verification/RbootStream.v ===== *)
(** * rBoot API: writing an image in pieces

    [rboot_write_flash] is called with one piece of an image after the other.  It
    writes whole words, keeps the up to three bytes left over for the next call
    and erases each sector before the first byte goes into it.  The theorem: any
    division of the image into pieces leaves the same flash. *)

From S2P Require Import Prelude Flash SpiFlash Rboot RbootApi.
Local Open Scope Z_scope.

(** A client that writes an image piece by piece and stops at a failure. *)
Fixpoint write_chunks `{FlashDev D} (status : rboot_write_status) (chunks : list (list Z))
    : ST (app D) (bool * rboot_write_status) :=
  match chunks with
  | [] => mret (true, status)
  | c :: chunks =>
      '(ok, status) ← rboot_write_flash status (Some c) (Z.of_nat (length c));
      if ok : bool then write_chunks status chunks else mret (false, status)
  end.

(** The bytes of the whole words of [l], and the first address after the sectors
    that hold addresses below [x]. *)
Definition whole (l : list Z) : Z := Z.of_nat (length l) / 4 * 4.
Definition sector_up (x : Z) : Z := ((x - 1) / SECTOR_SIZE + 1) * SECTOR_SIZE.

Lemma sector_up_range x : x <= sector_up x < x + SECTOR_SIZE.
Proof. unfold sector_up, SECTOR_SIZE. Z.div_mod_to_equations. lia. Qed.

Lemma sector_up_fits x lim : lim mod SECTOR_SIZE = 0 -> x <= lim -> sector_up x <= lim.
Proof. unfold sector_up, SECTOR_SIZE. intros. Z.div_mod_to_equations. lia. Qed.

Lemma whole_range l : 0 <= whole l <= Z.of_nat (length l) /\ Z.of_nat (length l) < whole l + 4.
Proof. unfold whole. Z.div_mod_to_equations. lia. Qed.

Lemma take_app_add {X} (n m : nat) (l : list X) : take (n + m) l = take n l ++ take m (drop n l).
Proof. revert l; induction n; intros [|x l]; simpl; rewrite ?take_nil; auto. f_equal. auto. Qed.

Section stream.
Context `{FlashOk D} (Hsector : sector_size sdk_flashchip = SECTOR_SIZE).

Lemma chip_facts :
  chip_size sdk_flashchip mod SECTOR_SIZE = 0 /\ 0 <= chip_size sdk_flashchip <= 2 ^ 24 /\
  chip_size sdk_flashchip / SECTOR_SIZE <= 2 ^ 16.
Proof. pose proof flash_chip_ok as [_ _ _ _ Hc Hf Hs]. rewrite Hsector in Hc, Hs. done. Qed.

(** Erasing the sectors after [last] up to [lastsect]. *)
Lemma erase_sectors_spec lastsect last (d : D) h :
  0 <= last + 1 -> last <= lastsect -> (lastsect + 1) * SECTOR_SIZE <= chip_size sdk_flashchip ->
  exists d', erase_sectors (Z.to_nat (lastsect - last)) lastsect last (App d h) =
      Some (lastsect, App d' h) /\
    (forall x, (last + 1) * SECTOR_SIZE <= x < (lastsect + 1) * SECTOR_SIZE -> fbyte d' x = 255) /\
    (forall x, x < (last + 1) * SECTOR_SIZE \/ (lastsect + 1) * SECTOR_SIZE <= x ->
       fbyte d' x = fbyte d x).
Proof.
  intros Hpos Hle Hfit. pose proof chip_facts as (_ & Hc & Hs).
  remember (Z.to_nat (lastsect - last)) as k eqn:Hk.
  revert last d Hpos Hle Hk; induction k as [|k IH]; intros last d Hpos Hle Hk.
  { assert (last = lastsect) as -> by lia. exists d. simpl. rewrite Z.ltb_irrefl.
    split; [done|]. split; [intros; lia|done]. }
  assert (Hlt : last + 1 < chip_size sdk_flashchip / SECTOR_SIZE).
  { apply Z.le_succ_l. apply Z.div_le_lower_bound; unfold SECTOR_SIZE in *; lia. }
  destruct (flash_erase_ok d (last + 1)) as (d1 & E & Hin & Hout); [rewrite Hsector; lia|].
  rewrite Hsector in Hin, Hout.
  destruct (IH (last + 1) d1) as (d' & E' & Hin' & Hout'); [lia|lia|lia|].
  exists d'. cbn [erase_sectors]. zif.
  unfold mbind, st_bind, erase_sector at 1. cbn [flash heap].
  rewrite (u16_small (last + 1)), E by lia. rewrite E'. split; [done|]. split.
  - intros x Hx. destruct (Z.ltb_spec x ((last + 1 + 1) * SECTOR_SIZE)).
    + rewrite Hout' by lia. apply Hin. unfold SECTOR_SIZE in *. lia.
    + apply Hin'. lia.
  - intros x Hx. unfold SECTOR_SIZE in *. rewrite Hout' by lia. apply Hout. lia.
Qed.

Context (a : Z) (Ha : 0 < a) (Hasec : a mod SECTOR_SIZE = 0) (d0 : D).

(** After the bytes [sent]: the whole words of them are in the flash and the
    rest is in [extra_bytes]; the sectors up to the last one written are erased
    beyond them, and nothing else has changed. *)
Record streamed (sent : list Z) (st : rboot_write_status) (d : D) : Prop := {
  st_addr : start_addr st = a + whole sent;
  st_last : last_sector_erased st = (a + whole sent - 1) / SECTOR_SIZE;
  st_count : extra_count st = Z.of_nat (length sent) - whole sent;
  st_extra : take (Z.to_nat (extra_count st)) (extra_bytes st) = drop (Z.to_nat (whole sent)) sent;
  st_bytes : fbytes d a (Z.to_nat (whole sent)) = take (Z.to_nat (whole sent)) sent;
  st_erased x : a + whole sent <= x < sector_up (a + whole sent) -> fbyte d x = 255;
  st_same x : x < a \/ sector_up (a + whole sent) <= x -> fbyte d x = fbyte d0 x
}.

Lemma streamed_init : a <= 2 ^ 24 -> streamed [] (rboot_write_init a) d0.
Proof.
  intros Hmax.
  assert (Hs : u32 (a / SECTOR_SIZE - 1) = a / SECTOR_SIZE - 1).
  { apply u32_small. unfold SECTOR_SIZE in *. Z.div_mod_to_equations. lia. }
  unfold rboot_write_init. rewrite Hs, s32_small by (unfold SECTOR_SIZE in *; Z.div_mod_to_equations; lia).
  change (whole []) with 0.
  split; simpl; try done; rewrite ?Z.add_0_r; try done.
  - unfold SECTOR_SIZE in *. Z.div_mod_to_equations. lia.
  - intros x Hx. assert (sector_up a = a); [|lia].
    unfold sector_up, SECTOR_SIZE in *. Z.div_mod_to_equations. lia.
Qed.

(** One call of [rboot_write_flash]. *)
Lemma write_flash_step sent st d junk h c :
  streamed sent st d -> 0 < Z.of_nat (length c) <= SECTOR_SIZE -> Forall is_byte (sent ++ c) ->
  a + Z.of_nat (length (sent ++ c)) <= chip_size sdk_flashchip ->
  exists st' d', rboot_write_flash st (Some c) (Z.of_nat (length c)) (App d (Some junk :: h)) =
      Some ((true, st'), App d' h) /\ streamed (sent ++ c) st' d'.
Proof.
  intros [Haddr Hlast Hcount Hextra Hbytes Herased Hsame] Hc Hb Hfit.
  pose proof chip_facts as (Hcs & Hcm & _).
  pose proof (whole_range sent) as Hw. pose proof (whole_range (sent ++ c)) as Hw'.
  assert (Hm : whole sent mod 4 = 0 /\ whole (sent ++ c) mod 4 = 0) by (unfold whole; Z.div_mod_to_equations; lia).
  set (e := Z.of_nat (length sent) - whole sent) in *.
  set (k := whole (sent ++ c) - whole sent).
  assert (Hlen : Z.of_nat (length (sent ++ c)) = whole sent + e + Z.of_nat (length c))
    by (rewrite length_app; unfold e; lia).
  unfold SECTOR_SIZE in Hc.
  assert (Hk : 0 <= k /\ k mod 4 = 0 /\ k <= e + Z.of_nat (length c) /\ e + Z.of_nat (length c) < k + 4)
    by (unfold k; Z.div_mod_to_equations; lia).
  unfold rboot_write_flash. zif. unfold mbind at 1, st_bind at 1, malloc. cbn [heap flash].
  rewrite Hcount. rewrite (u16_small (Z.of_nat (length c) + e)) by lia.
  assert (Hextra' : (Z.of_nat (length c) + e) mod 4 = e + Z.of_nat (length c) - k) by (Z.div_mod_to_equations; lia).
  rewrite Hextra'. replace (Z.of_nat (length c) + e - (e + Z.of_nat (length c) - k)) with k by lia.
  rewrite u16_small by lia. rewrite Hcount in Hextra. fold e in Hextra. rewrite Hextra.
  rewrite Nat2Z.id. rewrite (take_ge c) by lia.
  assert (Hbuf : drop (Z.to_nat (whole sent)) sent ++ c = drop (Z.to_nat (whole sent)) (sent ++ c))
    by (rewrite drop_app_le by lia; done).
  rewrite Hbuf. set (buf := drop (Z.to_nat (whole sent)) (sent ++ c)).
  assert (Hlb : Z.of_nat (length buf) = e + Z.of_nat (length c)) by (unfold buf; rewrite length_drop; lia).
  rewrite Haddr. rewrite (u32_small (a + whole sent + k)) by lia.
  replace (a + whole sent + k) with (a + whole (sent ++ c)) by (unfold k; lia).
  rewrite (u32_small (a + whole (sent ++ c) - 1)) by lia.
  set (lastsect := (a + whole (sent ++ c) - 1) / SECTOR_SIZE).
  assert (Hls : 0 <= lastsect < 2 ^ 24) by (unfold lastsect, SECTOR_SIZE; Z.div_mod_to_equations; lia).
  rewrite s32_small by lia.
  assert (Hup : sector_up (a + whole (sent ++ c)) <= chip_size sdk_flashchip) by (apply sector_up_fits; auto; lia).
  change (sector_up (a + whole (sent ++ c))) with ((lastsect + 1) * SECTOR_SIZE) in Hup.
  destruct (erase_sectors_spec lastsect (last_sector_erased st) d h) as (d1 & E1 & Hin1 & Hout1).
  { rewrite Hlast. unfold SECTOR_SIZE. Z.div_mod_to_equations. lia. }
  { rewrite Hlast. unfold lastsect, SECTOR_SIZE. Z.div_mod_to_equations. lia. }
  { exact Hup. }
  unfold mbind at 1, st_bind at 1. rewrite E1.
  pose proof (sector_up_range (a + whole (sent ++ c))) as Hru.
  change (sector_up (a + whole (sent ++ c))) with ((lastsect + 1) * SECTOR_SIZE) in Hru.
  destruct (flash_write_ok d1 (a + whole sent) buf k) as (d2 & E2 & Hin2 & Hout2); [lia| |lia| |].
  { unfold SECTOR_SIZE in Hasec. Z.div_mod_to_equations. lia. }
  { rewrite round4_id by lia. unfold k. lia. }
  rewrite round4_id in Hout2 by lia.
  unfold mbind, st_bind, write_flash. cbn [flash heap]. rewrite E2. cbn [flash_ok].
  do 2 eexists. split; [reflexivity|].
  assert (Hold : forall x, x < a + whole sent \/ a + whole (sent ++ c) <= x -> fbyte d2 x = fbyte d1 x)
    by (intros x Hx; apply Hout2; unfold k; lia).
  assert (Hlast1 : (last_sector_erased st + 1) * SECTOR_SIZE = sector_up (a + whole sent)) by (by rewrite Hlast).
  rewrite Hlast1 in Hin1, Hout1. pose proof (sector_up_range (a + whole sent)).
  assert (Hblank : forall x, a + whole sent <= x < (lastsect + 1) * SECTOR_SIZE -> fbyte d1 x = 255).
  { intros x Hx. destruct (Z.ltb_spec x (sector_up (a + whole sent))).
    - rewrite Hout1 by lia. apply Herased. lia.
    - apply Hin1. lia. }
  split; cbn [start_addr last_sector_erased extra_count extra_bytes].
  - done.
  - done.
  - rewrite Hlen. lia.
  - unfold overlay. rewrite take_app_le.
    + rewrite take_take. rewrite take_ge; [unfold buf; rewrite drop_drop; f_equal; lia|].
      unfold buf. rewrite !length_drop. lia.
    + rewrite length_take, length_drop. lia.
  - replace (Z.to_nat (whole (sent ++ c))) with (Z.to_nat (whole sent) + Z.to_nat k)%nat by lia.
    rewrite fbytes_app, take_app_add. f_equal.
    + rewrite take_app_le by lia. rewrite <- Hbytes. apply fbytes_ext. intros i Hi.
      rewrite Hold, Hout1 by lia. done.
    + fold buf. assert (Hlk : length (take (Z.to_nat k) buf) = Z.to_nat k) by (rewrite length_take; lia).
      rewrite <- Hlk at 1. apply fbytes_eq. intros i b Hi.
      apply lookup_take_Some in Hi as [Hi Hlt].
      replace (a + Z.of_nat (Z.to_nat (whole sent))) with (a + whole sent) by lia.
      rewrite (Hin2 i b Hi), Hblank by lia. apply land_byte_255.
      rewrite Forall_forall in Hb. apply Hb. apply list_elem_of_lookup_2 with (Z.to_nat (whole sent) + i)%nat.
      unfold buf in Hi. by rewrite lookup_drop in Hi.
  - intros x Hx. change (sector_up (a + whole (sent ++ c))) with ((lastsect + 1) * SECTOR_SIZE) in Hx.
    rewrite Hold by lia. apply Hblank. lia.
  - intros x Hx. change (sector_up (a + whole (sent ++ c))) with ((lastsect + 1) * SECTOR_SIZE) in Hx.
    assert (sector_up (a + whole sent) <= (lastsect + 1) * SECTOR_SIZE)
      by (unfold sector_up, lastsect, SECTOR_SIZE; Z.div_mod_to_equations; lia).
    rewrite Hold, Hout1 by lia. apply Hsame. lia.
Qed.

Lemma write_chunks_spec chunks sent st d hp :
  streamed sent st d -> Forall (fun c => Z.of_nat (length c) <= SECTOR_SIZE) chunks ->
  Forall is_byte (sent ++ concat chunks) ->
  a + Z.of_nat (length (sent ++ concat chunks)) <= chip_size sdk_flashchip ->
  (length chunks <= length hp)%nat -> Forall is_Some hp ->
  exists st' d' h, write_chunks st chunks (App d hp) = Some ((true, st'), App d' h) /\
    streamed (sent ++ concat chunks) st' d'.
Proof.
  intros Hs Hc. revert sent st d hp Hs; induction Hc as [|c chunks Hc _ IH]; intros sent st d hp Hs Hb Hfit Hl Hh.
  { simpl. rewrite app_nil_r. by exists st, d, hp. }
  cbn [concat] in *. rewrite (app_assoc sent c) in *. cbn [write_chunks].
  destruct (decide (length c = 0%nat)) as [Hc0|Hc0].
  - apply nil_length_inv in Hc0 as ->. rewrite app_nil_r in *. apply IH; auto. simpl in Hl. lia.
  - destruct hp as [|o hp]; [simpl in Hl; lia|]. apply Forall_cons in Hh as [[junk ->] Hh].
    rewrite Forall_app in Hb. destruct Hb as [Hb1 Hb2].
    destruct (write_flash_step sent st d junk hp c) as (st1 & d1 & E1 & Hs1); auto; [lia| |].
    { rewrite length_app in Hfit. lia. }
    rewrite (bind_run _ _ _ _ _ E1). apply IH; auto; [by apply Forall_app|simpl in Hl; lia].
Qed.
End stream.

(** C11: however an image is cut into pieces of at most a sector, writing them with [rboot_write_flash] from a boundary of the 4096-byte sectors, not 0, on puts the image's whole words in
    the flash, keeps the last one to three bytes, if any, for a next call (nothing
    ever writes them), leaves the rest of the last sector erased and changes no
    other byte.  Every call returns true while [malloc] succeeds and the image
    fits in the chip. *)
Theorem rboot_write_stream `{FlashOk D} a chunks (d : D) hp :
  sector_size sdk_flashchip = SECTOR_SIZE -> 0 < a -> a mod SECTOR_SIZE = 0 ->
  Forall (fun c => Z.of_nat (length c) <= SECTOR_SIZE) chunks -> Forall is_byte (concat chunks) ->
  a + Z.of_nat (length (concat chunks)) <= chip_size sdk_flashchip ->
  (length chunks <= length hp)%nat -> Forall is_Some hp ->
  let image := concat chunks in
  let n := whole image in
  exists st d' h,
    write_chunks (rboot_write_init a) chunks (App d hp) = Some ((true, st), App d' h) /\
    fbytes d' a (Z.to_nat n) = take (Z.to_nat n) image /\
    start_addr st = a + n /\
    take (Z.to_nat (extra_count st)) (extra_bytes st) = drop (Z.to_nat n) image /\
    (forall x, a + n <= x < sector_up (a + n) -> fbyte d' x = 255) /\
    (forall x, x < a \/ sector_up (a + n) <= x -> fbyte d' x = fbyte d x).
Proof.
  intros Hsec Ha Hasec Hc Hb Hfit Hl Hh image n. pose proof (chip_facts Hsec) as (_ & Hcs & _).
  destruct (write_chunks_spec Hsec a Ha Hasec d chunks [] (rboot_write_init a) d hp) as (st & d' & h & E & Hs);
    auto.
  { apply streamed_init; auto. lia. }
  exists st, d', h. destruct Hs. auto 7.
Qed.

Lemma rboot_write_stream_witness :
  exists st d' h,
    write_chunks (rboot_write_init 0x2000) [[1; 2; 3]; [4; 5; 6; 7]; [8; 9]]
      (App blank_dev [Some []; Some []; Some [7]]) = Some ((true, st), App d' h) /\
    fbytes d' 0x2000 8 = [1; 2; 3; 4; 5; 6; 7; 8].
Proof.
  destruct (rboot_write_stream 0x2000 [[1; 2; 3]; [4; 5; 6; 7]; [8; 9]] blank_dev
    [Some []; Some []; Some [7]]) as (st & d' & h & E & Hb & _).
  - reflexivity.
  - lia.
  - reflexivity.
  - repeat constructor; by vm_compute.
  - repeat constructor; by vm_compute.
  - by vm_compute.
  - simpl. lia.
  - repeat constructor; by eexists.
  - exists st, d', h. split; [exact E|exact Hb].
Defined.
