(* ===== verification/RbootVerify.v ===== *)
(** * rBoot API: what rboot_verify_image accepts

    The application checks a new image with [rboot_verify_image] before it makes
    the boot loader start it, and the boot loader checks it again with
    [check_image].  The two are different programs for the same format; here
    their verdicts on well-formed images of both header formats are shown to be
    the same. *)

From S2P Require Import Prelude Flash SpiFlash Rboot RbootImage RbootBoot RbootApi.
Local Open Scope Z_scope.

(** Reading one byte at any address: the SPI flash commands take byte addresses.
    The driver's header asks for word-aligned addresses, and [rboot_verify_image]
    relies on more than that for its last read. *)
Class FlashByteRead (D : Type) `{FlashDev D} := {
  flash_read_byte d a : 0 <= a < chip_size sdk_flashchip ->
    flash_read d a 1 = (SPI_FLASH_RESULT_OK, [fbyte d a])
}.

(** ** Masks *)

Lemma land_high x k : 0 <= k <= 32 -> 0 <= x < 2 ^ 32 -> Z.land x (2 ^ 32 - 2 ^ k) = x / 2 ^ k * 2 ^ k.
Proof.
  intros Hk Hx. rewrite <- Z.shiftr_div_pow2, <- Z.shiftl_mul_pow2 by lia.
  apply Z.bits_inj'; intros i Hi. rewrite Z.land_spec.
  assert (Hm : 2 ^ 32 - 2 ^ k = Z.shiftl (Z.ones (32 - k)) k).
  { rewrite Z.shiftl_mul_pow2, Z.ones_equiv by lia.
    replace (2 ^ 32) with (2 ^ (32 - k) * 2 ^ k) by (rewrite <- Z.pow_add_r by lia; f_equal; lia). lia. }
  rewrite Hm. destruct (Z.ltb_spec i k).
  - rewrite !Z.shiftl_spec_low by lia. apply andb_false_r.
  - rewrite !Z.shiftl_spec, Z.shiftr_spec by lia. replace (i - k + k) with i by lia.
    destruct (Z.ltb_spec i 32).
    + rewrite Z.ones_spec_low by lia. apply andb_true_r.
    + rewrite Z.ones_spec_high by lia. rewrite andb_false_r. symmetry.
      rewrite <- (Z.mod_small x (2 ^ 32)) by lia. by apply Z.mod_pow2_bits_high; lia.
Qed.

Lemma round_up_4 x : 0 <= x < 2 ^ 31 -> x mod 4 = 0 -> Z.land (u32 (x + 3)) 0xfffffffc = x.
Proof.
  intros Hx Hm. rewrite u32_small by lia. change 0xfffffffc with (2 ^ 32 - 2 ^ 2).
  rewrite land_high by lia. change (2 ^ 2) with 4. Z.div_mod_to_equations. lia.
Qed.
Lemma round_up_16 x : 0 <= x < 2 ^ 31 -> Z.land (u32 (x + 15)) 0xfffffff0 = (x + 15) / 16 * 16.
Proof.
  intros Hx. rewrite u32_small by lia. change 0xfffffff0 with (2 ^ 32 - 2 ^ 4).
  by rewrite land_high by lia.
Qed.

Lemma lxor_byte_range x y : 0 <= x < 256 -> is_byte y -> 0 <= Z.lxor x y < 256.
Proof.
  unfold is_byte. intros Hx Hy. split; [apply Z.lxor_nonneg; lia|].
  destruct (Z.eq_dec (Z.lxor x y) 0) as [->|]; [lia|].
  apply (Z.log2_lt_cancel _ 256). eapply Z.le_lt_trans; [apply Z.log2_lxor; lia|].
  change (Z.log2 256) with 8. apply Z.max_lub_lt.
  - destruct (Z.eq_dec x 0) as [->|]; [done|]. apply (Z.log2_lt_pow2 x 8); lia.
  - destruct (Z.eq_dec y 0) as [->|]; [done|]. apply (Z.log2_lt_pow2 y 8); lia.
Qed.

(** ** Images with the code for the flash first *)

(** [irom = None] is a standard image; otherwise the new header and the code that
    stays in the flash come before it. *)
Definition ota_bytes (flags1 flags2 entry flags1' flags2' entry' : Z) (irom : option (list Z))
    (ss : list rom_section) : list Z :=
  match irom with
  | None => image_bytes flags1' flags2' entry' ss
  | Some code =>
      ([ROM_MAGIC_NEW1; ROM_MAGIC_NEW2; flags1; flags2] ++ le_bytes 4 entry) ++
      (le_bytes 4 0 ++ le_bytes 4 (Z.of_nat (length code))) ++
      code ++ image_bytes flags1' flags2' entry' ss
  end.
(** Where its standard image starts. *)
Definition ota_start (a : Z) (irom : option (list Z)) : Z :=
  match irom with None => a | Some code => a + 16 + Z.of_nat (length code) end.

Lemma length_image_bytes f1 f2 e ss :
  Z.of_nat (length (image_bytes f1 f2 e ss)) = 8 + Z.of_nat (length (sections_bytes ss)).
Proof. unfold image_bytes. rewrite !length_app, length_le_bytes. simpl. lia. Qed.

Lemma ota_image_end g1 g2 ge f1 f2 e irom ss a :
  a + Z.of_nat (length (ota_bytes g1 g2 ge f1 f2 e irom ss)) =
  ota_start a irom + Z.of_nat (length (image_bytes f1 f2 e ss)).
Proof.
  destruct irom as [code|]; simpl ota_start; unfold ota_bytes; [|done].
  rewrite !length_app, !length_le_bytes. simpl. lia.
Qed.

(** The first bytes of a region, as a buffer. *)
Lemma get8_rom rom p n bs i b :
  rom_holds rom p bs -> bs !! i = Some b -> (i < Z.to_nat n)%nat -> get8 (rom_bytes rom p n) (Z.of_nat i) = b.
Proof.
  intros Hh Hi Hlt. unfold get8. rewrite Nat2Z.id. apply nth_lookup_Some.
  rewrite lookup_rom_bytes by lia. by rewrite (Hh i b Hi).
Qed.
Lemma get32_rom rom p n off x :
  0 <= off -> off + 4 <= n -> rom_holds rom (p + off) (le_bytes 4 x) -> 0 <= x < 2 ^ 32 ->
  get32 (rom_bytes rom p n) off = x.
Proof.
  intros Hoff Hn Hh Hx. unfold get32.
  assert (E : take 4 (drop (Z.to_nat off) (rom_bytes rom p n)) = le_bytes 4 x).
  { apply rom_bytes_eq in Hh. rewrite length_le_bytes in Hh. rewrite <- Hh.
    replace n with (off + (4 + (n - off - 4))) by lia.
    rewrite (rom_bytes_app rom p off) by lia. rewrite drop_app_length' by (rewrite length_rom_bytes; lia).
    rewrite (rom_bytes_app rom (p + off) 4) by lia. by rewrite take_app_length'. }
  rewrite E, le_val_bytes. apply Z.mod_small. simpl. lia.
Qed.

Lemma get8_overlay_l bs buf i : 0 <= i < Z.of_nat (length bs) -> get8 (overlay bs buf) i = get8 bs i.
Proof. intros Hi. unfold get8, overlay. by rewrite app_nth1 by lia. Qed.

(** What the parts of an image of the new kind are. *)
Lemma ota_code_holds rom a g1 g2 ge f1 f2 e code ss :
  rom_holds rom a (ota_bytes g1 g2 ge f1 f2 e (Some code) ss) ->
  rom_holds rom a ([ROM_MAGIC_NEW1; ROM_MAGIC_NEW2; g1; g2] ++ le_bytes 4 ge) /\
  rom_holds rom (a + 12) (le_bytes 4 (Z.of_nat (length code))) /\
  rom_holds rom (a + 16 + Z.of_nat (length code)) (image_bytes f1 f2 e ss).
Proof.
  unfold ota_bytes. intros [H1 H2]%rom_holds_app. split; [exact H1|].
  rewrite length_app, length_le_bytes in H2. simpl length in H2.
  apply rom_holds_app in H2 as [H2 H3]. apply rom_holds_app in H2 as [_ H2].
  rewrite length_app, !length_le_bytes in *. apply rom_holds_app in H3 as [_ H3].
  split.
  - revert H2. replace (a + Z.of_nat (4 + 4) + Z.of_nat 4) with (a + 12) by lia. done.
  - revert H3. replace (a + Z.of_nat (4 + 4) + Z.of_nat (4 + 4) + Z.of_nat (length code))
      with (a + 16 + Z.of_nat (length code)) by lia. done.
Qed.

(** ** The boot loader's check on the new kind of image *)

Section boot.
Context `{Machine M} (o : options) (m : M) (rom : Z -> Z) (limit : Z) (Hlimit : limit <= 2 ^ 31).
Context (Hread : forall p n, 0 <= p -> 0 <= n <= BUFFER_SIZE -> p + n <= limit ->
  SPIRead m p n = (0, rom_bytes rom p n)).

Lemma check_image_new a g1 g2 ge f1 f2 e code ss :
  BOOT_IROM_CHKSUM o = false -> 0 < a -> Z.of_nat (length ss) <= 255 ->
  let bs := ota_bytes g1 g2 ge f1 f2 e (Some code) ss in
  let pos := Z.lor (a + Z.of_nat (length bs)) 0x0f in
  rom_holds rom a bs -> pos + 1 <= limit ->
  check_image o m a = Some (if rom pos =? image_chksum ss then ota_start a (Some code) else 0).
Proof.
  intros Hirom Ha Hss bs pos Hh Hpos. unfold bs in Hh.
  pose proof (ota_image_end g1 g2 ge f1 f2 e (Some code) ss a) as Hend. simpl ota_start in *. fold bs in Hend.
  destruct (ota_code_holds _ _ _ _ _ _ _ _ _ _ Hh) as (Hhdr & Hlen & Himg).
  set (r := a + 16 + Z.of_nat (length code)) in *. rewrite length_image_bytes in Hend.
  assert (Hle : r + 8 + Z.of_nat (length (sections_bytes ss)) <= pos).
  { unfold pos. rewrite lor_15 by lia. Z.div_mod_to_equations. lia. }
  unfold check_image. rewrite (proj2 (Z.eqb_neq a 0)), (proj2 (Z.eqb_neq a 0xffffffff)) by lia.
  cbn [orb]. unfold check_header, sizeof_rom_header_new, sizeof_rom_header.
  rewrite Hread by (unfold BUFFER_SIZE; lia). cbn [negb Z.eqb].
  assert (H0 : get8 (rom_bytes rom a 16) 0 = ROM_MAGIC_NEW1) by exact (get8_rom rom a 16 _ 0 _ Hhdr eq_refl ltac:(lia)).
  assert (H1 : get8 (rom_bytes rom a 16) 1 = ROM_MAGIC_NEW2) by exact (get8_rom rom a 16 _ 1 _ Hhdr eq_refl ltac:(lia)).
  unfold hdr_magic, hdr_count, hdr_new_len. rewrite H0, H1.
  change (ROM_MAGIC_NEW1 =? ROM_MAGIC) with false. rewrite !Z.eqb_refl. cbn [andb]. rewrite Hirom.
  rewrite (get32_rom _ _ _ 12 (Z.of_nat (length code))) by (auto; lia).
  replace (a + Z.of_nat (length code) + 16) with r by (unfold r; lia). rewrite (u32_small r) by lia.
  rewrite Hread by (unfold BUFFER_SIZE; lia). cbn [negb Z.eqb]. rewrite u32_small by lia.
  unfold image_bytes in Himg. rewrite app_assoc in Himg. apply rom_holds_app in Himg as [Hih Hsecs].
  rewrite length_app, length_le_bytes in Hsecs. simpl length in Hsecs.
  assert (H2 : get8 (rom_bytes rom r 8) 1 = Z.of_nat (length ss)) by exact (get8_rom rom r 8 _ 1 _ Hih eq_refl ltac:(lia)).
  rewrite H2.
  rewrite check_sections_spec with (rom := rom) (limit := limit) (ss := ss); try lia; try done;
    [|by rewrite Hirom].
  unfold check_finish. replace (r + 8 + Z.of_nat (length (sections_bytes ss))) with
    (a + Z.of_nat (length bs)) by lia. fold pos.
  rewrite Hread by (unfold BUFFER_SIZE; lia). cbn [negb Z.eqb].
  unfold get8, rom_bytes. simpl. rewrite Z.add_0_r. done.
Qed.
End boot.

(** ** The application's check *)

Section verify.
Context `{FlashOk D} `{!FlashByteRead D} (d : D) (Hbytes : forall x, is_byte (fbyte d x)).
Context (chunk0 word0 : list Z).

Lemma rom_bytes_fbytes p n : rom_bytes (fbyte d) p n = fbytes d p (Z.to_nat n).
Proof.
  apply list_eq. intros i. destruct (decide (i < Z.to_nat n)%nat).
  - by rewrite lookup_rom_bytes, lookup_fbytes by lia.
  - rewrite !lookup_ge_None_2; [done|rewrite length_fbytes; lia|rewrite length_rom_bytes; lia].
Qed.

Lemma read_rom p n :
  0 <= p -> p mod 4 = 0 -> 0 <= n -> p + n <= chip_size sdk_flashchip ->
  flash_read d p n = (SPI_FLASH_RESULT_OK, rom_bytes (fbyte d) p n).
Proof. intros. by rewrite rom_bytes_fbytes, flash_read_ok. Qed.

Lemma chip_small : chip_size sdk_flashchip <= 2 ^ 24.
Proof. pose proof flash_chip_ok as [_ _ _ _ _ Hf _]. lia. Qed.

(** [chunk] holds what the rest of the current 16 bytes of the section need. *)
Lemma sum_section_spec n off i chunk c :
  0 <= off -> off mod 4 = 0 -> 0 <= i -> off + i + Z.of_nat n + 16 <= chip_size sdk_flashchip ->
  (i mod 16 <> 0 -> forall j, i mod 16 <= j < 16 -> get8 chunk j = fbyte d (off + i / 16 * 16 + j)) ->
  0 <= c < 256 ->
  sum_section n d off i chunk c = fold_left Z.lxor (rom_bytes (fbyte d) (off + i) (Z.of_nat n)) c.
Proof.
  pose proof chip_small. intros Hoff Hm. revert i chunk c; induction n as [|n IH]; intros i chunk c Hi Hfit Hck Hc; [done|].
  cbn [sum_section]. replace (Z.of_nat (S n)) with (1 + Z.of_nat n) by lia.
  rewrite (rom_bytes_app _ _ 1) by lia. rewrite fold_left_app.
  set (ck := if i mod 16 =? 0 then _ else _).
  assert (Hck' : forall j, i mod 16 <= j < 16 -> get8 ck j = fbyte d (off + i / 16 * 16 + j)).
  { unfold ck. destruct (Z.eqb_spec (i mod 16) 0) as [Hz|Hz]; [|auto]. intros j Hj.
    rewrite u32_small by lia. rewrite read_rom by (Z.div_mod_to_equations; lia). cbn [snd].
    unfold get8, overlay. rewrite app_nth1 by (rewrite length_rom_bytes; lia).
    apply nth_lookup_Some. rewrite lookup_rom_bytes by lia. do 2 f_equal. Z.div_mod_to_equations. lia. }
  pose proof (Z.mod_pos_bound i 16 ltac:(lia)).
  rewrite Hck' by lia. replace (off + i / 16 * 16 + i mod 16) with (off + i) by (Z.div_mod_to_equations; lia).
  pose proof (lxor_byte_range c (fbyte d (off + i)) Hc (Hbytes _)) as Hr. rewrite u8_small by lia.
  rewrite IH; [| lia | lia | | done].
  - replace (off + (i + 1)) with (off + i + 1) by lia. unfold rom_bytes at 2. simpl.
    by rewrite Z.add_0_r.
  - intros Hne j Hj. rewrite Hck' by (Z.div_mod_to_equations; lia). do 2 f_equal. Z.div_mod_to_equations. lia.
Qed.

Lemma verify_sections_spec fuel ss p ih c end_limit :
  0 <= p -> p mod 4 = 0 -> Forall (fun s => Z.of_nat (length (rs_data s)) mod 4 = 0) ss ->
  rom_holds (fbyte d) p (sections_bytes ss) ->
  p + Z.of_nat (length (sections_bytes ss)) + 16 <= chip_size sdk_flashchip ->
  p + Z.of_nat (length (sections_bytes ss)) <= end_limit -> (length ss < fuel)%nat -> 0 <= c < 256 ->
  verify_sections fuel d chunk0 end_limit p ih false (Z.of_nat (length ss)) c =
    Some (inl (p + Z.of_nat (length (sections_bytes ss)), 0, fold_left Z.lxor (sections_data ss) c)).
Proof.
  pose proof chip_small. intros Hp Hm Hss. revert fuel p ih c Hp Hm.
  induction Hss as [|s ss Hs _ IH]; intros [|fuel] p ih c Hp Hm Hh Hfit Hend Hf Hc; simpl in Hf; try lia;
    cbn [verify_sections].
  { simpl. by rewrite Z.add_0_r. }
  unfold sections_bytes, sections_data in *. cbn [map concat] in *.
  apply rom_holds_app in Hh as [Hsb Hh]. rewrite length_app in Hfit, Hend.
  pose proof (length_section_bytes s) as Hls. set (n := Z.of_nat (length (rs_data s))) in *.
  rewrite (proj2 (Z.ltb_lt 0 _)), (proj2 (Z.ltb_lt p end_limit)) by (simpl; lia). cbn [andb].
  unfold sizeof_section_header_t. rewrite read_rom by lia. cbn [flash_ok negb].
  rewrite (section_header _ p s Hsb). fold n.
  assert (Hlen : sh_length (le_bytes 4 (rs_address s) ++ le_bytes 4 n) = n).
  { unfold sh_length, get32. rewrite drop_app_length' by done.
    rewrite firstn_all2 by done. rewrite le_val_bytes. apply Z.mod_small. lia. }
  rewrite Hlen. rewrite !(u32_small (p + 8)), (u32_small (n + (p + 8))) by lia.
  rewrite (proj2 (Z.ltb_ge _ _)) by lia. rewrite Hs. cbn [Z.eqb negb].
  rewrite sum_section_spec by (try lia; try done; Z.div_mod_to_equations; lia).
  rewrite Z.add_0_r. rewrite (u32_small (p + 8 + n)) by lia.
  assert (Hm' : (p + 8 + n) mod 4 = 0) by (Z.div_mod_to_equations; lia).
  rewrite round_up_4 by (done || lia).
  replace (Z.of_nat (length (s :: ss)) - 1) with (Z.of_nat (length ss)) by (simpl; lia).
  assert (Hd : rom_bytes (fbyte d) (p + 8) (Z.of_nat (Z.to_nat n)) = rs_data s).
  { unfold section_bytes in Hsb. rewrite app_assoc in Hsb. apply rom_holds_app in Hsb as [_ Hd].
    apply rom_bytes_eq in Hd. etransitivity; [|exact Hd].
    change (length (le_bytes 4 (rs_address s) ++ _)) with 8%nat. f_equal. unfold n. lia. }
  rewrite Hd. assert (Hc' : 0 <= fold_left Z.lxor (rs_data s) c < 256).
  { rewrite <- Hd. unfold rom_bytes. revert Hc. generalize c. induction (seq 0 _) as [|x l IHl]; [done|].
    intros c' Hc'. simpl. apply IHl. by apply lxor_byte_range. }
  replace (p + 8 + n) with (p + Z.of_nat (length (section_bytes s))) by lia.
  rewrite IH; try lia; try done.
  - rewrite length_app, fold_left_app. do 3 f_equal. f_equal. lia.
  - replace (p + Z.of_nat (length (section_bytes s))) with (p + 8 + n) by lia. done.
Qed.

(** Lines 322-344, after the last section. *)
Lemma verify_end e a :
  0 <= a <= e -> e + 32 <= chip_size sdk_flashchip ->
  let pos := Z.lor e 0x0f in
  let offset := Z.land (u32 (u32 (e + 1) + 15)) 0xfffffff0 in
  offset = pos + 1 /\ u32 (offset - a) = pos + 1 - a /\
  get8 (overlay (flash_read d (u32 (offset - 1)) 1).2 word0) 0 = fbyte d pos.
Proof.
  pose proof chip_small. intros Ha Hfit pos offset. pose proof (lor_15 e ltac:(lia)) as Hpos. fold pos in Hpos.
  assert (Hoff : offset = pos + 1).
  { unfold offset. rewrite (u32_small (e + 1)) by lia. rewrite round_up_16 by lia. rewrite Hpos.
    Z.div_mod_to_equations. lia. }
  assert (e <= pos <= e + 15) by (rewrite Hpos; Z.div_mod_to_equations; lia).
  rewrite Hoff. split; [done|]. split; [by apply u32_small; lia|].
  replace (pos + 1 - 1) with pos by lia. rewrite u32_small, flash_read_byte by lia. done.
Qed.

(** The start of a standard image. *)
Lemma image_fields p f1 f2 e ss :
  rom_holds (fbyte d) p (image_bytes f1 f2 e ss) ->
  get8 (rom_bytes (fbyte d) p 8) 0 = ROM_MAGIC /\ get8 (rom_bytes (fbyte d) p 8) 1 = Z.of_nat (length ss) /\
  rom_holds (fbyte d) (p + 8) (sections_bytes ss).
Proof.
  unfold image_bytes. rewrite app_assoc. intros [Hih Hsec]%rom_holds_app.
  rewrite length_app, length_le_bytes in Hsec.
  split; [exact (get8_rom _ p 8 _ 0 _ Hih eq_refl ltac:(lia))|].
  split; [exact (get8_rom _ p 8 _ 1 _ Hih eq_refl ltac:(lia))|exact Hsec].
Qed.

(** The first turn of the loop on a new image skips the code section and reads
    the second header. *)
Lemma verify_sections_new fuel a g1 g2 ge f1 f2 e code ss ih count end_limit c :
  0 < a -> Z.of_nat (length ss) <= 255 -> a mod 16 = 0 -> Z.of_nat (length code) mod 16 = 0 -> 0 < count ->
  let r := ota_start a (Some code) in
  rom_holds (fbyte d) a (ota_bytes g1 g2 ge f1 f2 e (Some code) ss) ->
  r + 8 <= end_limit -> r + 8 <= chip_size sdk_flashchip ->
  exists ih', verify_sections (S fuel) d chunk0 end_limit (a + 8) ih true count c =
    verify_sections fuel d chunk0 end_limit (r + 8) ih' false (Z.of_nat (length ss)) c.
Proof.
  pose proof chip_small. intros Ha Hn Hm Hcode Hcount r Hh Hend Hfit. simpl in r.
  destruct (ota_code_holds _ _ _ _ _ _ _ _ _ _ Hh) as (Hhdr & Hcl & Himg). fold r in Himg.
  destruct (image_fields _ _ _ _ _ Himg) as (H2 & H3 & _).
  assert (Hr : r mod 16 = 0 /\ a + 16 <= r) by (unfold r; Z.div_mod_to_equations; lia).
  eexists. cbn [verify_sections].
  rewrite (proj2 (Z.ltb_lt 0 count)), (proj2 (Z.ltb_lt (a + 8) end_limit)) by lia. cbn [andb].
  unfold sizeof_section_header_t, sizeof_image_header_t, sh_length.
  rewrite read_rom by (Z.div_mod_to_equations; lia). cbn [flash_ok negb].
  rewrite (get32_rom _ _ _ 4 (Z.of_nat (length code))) by
    (try lia; replace (a + 8 + 4) with (a + 12) by lia; done).
  rewrite (u32_small (a + 8 + 8)), (u32_small (Z.of_nat (length code) + _)) by lia.
  rewrite (proj2 (Z.ltb_ge _ _)) by lia.
  rewrite (proj2 (Z.eqb_eq (Z.of_nat (length code) mod 4) 0)) by (Z.div_mod_to_equations; lia). cbn [negb].
  replace (a + 8 + 8 + Z.of_nat (length code)) with r by (unfold r; lia). rewrite (u32_small r) by lia.
  rewrite round_up_4 by (lia || (Z.div_mod_to_equations; lia)). rewrite round_up_16 by lia.
  replace ((r + 15) / 16 * 16) with r by (Z.div_mod_to_equations; lia).
  rewrite read_rom by (Z.div_mod_to_equations; lia). cbn [snd].
  unfold ih_magic, ih_section_count. rewrite !get8_overlay_l by (rewrite length_rom_bytes; lia).
  rewrite H2, H3, u8_small by lia. change (ROM_MAGIC =? ROM_MAGIC_OLD) with true. cbn [negb]. rewrite (u32_small (r + 8)) by lia.
  reflexivity.
Qed.

Lemma verify_image_run a g1 g2 ge f1 f2 e irom ss :
  0 < a -> a mod 16 = 0 -> Z.of_nat (length ss) <= 255 ->
  Forall (fun s => Z.of_nat (length (rs_data s)) mod 4 = 0) ss ->
  (forall code, irom = Some code -> Z.of_nat (length code) mod 16 = 0) ->
  let bs := ota_bytes g1 g2 ge f1 f2 e irom ss in
  let pos := Z.lor (a + Z.of_nat (length bs)) 0x0f in
  rom_holds (fbyte d) a bs -> Z.of_nat (length bs) <= 0x100000 -> pos + 32 <= chip_size sdk_flashchip ->
  rboot_verify_image d chunk0 word0 a =
    Some (if fbyte d pos =? image_chksum ss then None else Some InvalidChecksum, pos + 1 - a).
Proof.
  pose proof chip_small. intros Ha Hm Hn Hss Hcode bs pos Hh Hlen Hpos.
  pose proof (ota_image_end g1 g2 ge f1 f2 e irom ss a) as Hend. fold bs in Hend.
  rewrite length_image_bytes in Hend.
  assert (Hle : a + Z.of_nat (length bs) <= pos) by (unfold pos; rewrite lor_15 by lia; Z.div_mod_to_equations; lia).
  destruct (verify_end (a + Z.of_nat (length bs)) a) as (Hoff & Hout & Hck); [lia|lia|].
  fold pos in Hoff, Hout, Hck. rewrite Hoff in Hout, Hck.
  unfold rboot_verify_image. rewrite (proj2 (Z.eqb_eq (a mod 4) 0)) by (Z.div_mod_to_equations; lia).
  cbn [negb]. unfold sizeof_image_header_t.
  rewrite read_rom by (Z.div_mod_to_equations; lia). cbn [flash_ok negb].
  rewrite (u32_small (a + 8)), (u32_small (a + 0x100000)) by lia.
  remember 257%nat as fuel eqn:Hf257. assert (Hfuel : (256 < fuel)%nat) by lia. clear Hf257.
  assert (Hs : ota_start a irom mod 16 = 0 /\ a <= ota_start a irom).
  { destruct irom as [code|]; simpl; [|lia]. specialize (Hcode code eq_refl). Z.div_mod_to_equations. lia. }
  assert (Hsum : forall ih k, (255 < k)%nat -> rom_holds (fbyte d) (ota_start a irom + 8) (sections_bytes ss) ->
    verify_sections k d chunk0 (a + 0x100000) (ota_start a irom + 8) ih false (Z.of_nat (length ss)) CHKSUM_INIT =
    Some (inl (a + Z.of_nat (length bs), 0, image_chksum ss))).
  { intros ih k Hk Hsec. rewrite verify_sections_spec; try done; try lia.
    - unfold image_chksum. do 3 f_equal. f_equal. lia.
    - Z.div_mod_to_equations. lia. }
  assert (Hrun : exists magic count, ih_magic (rom_bytes (fbyte d) a 8) = magic /\
    ih_section_count (rom_bytes (fbyte d) a 8) = count /\
    negb (magic =? ROM_MAGIC_OLD) && negb (magic =? ROM_MAGIC_NEW) = false /\
    verify_sections fuel d chunk0 (a + 0x100000) (a + 8) (rom_bytes (fbyte d) a 8) (magic =? ROM_MAGIC_NEW)
      count CHKSUM_INIT = Some (inl (a + Z.of_nat (length bs), 0, image_chksum ss))).
  { destruct irom as [code|].
    - destruct (ota_code_holds _ _ _ _ _ _ _ _ _ _ Hh) as (Hhdr & _ & Himg).
      destruct (image_fields _ _ _ _ _ Himg) as (_ & _ & Hsec).
      exists ROM_MAGIC_NEW1, ROM_MAGIC_NEW2.
      split; [exact (get8_rom _ a 8 _ 0 _ Hhdr eq_refl ltac:(lia))|].
      split; [exact (f_equal u8 (get8_rom _ a 8 _ 1 _ Hhdr eq_refl ltac:(lia)))|].
      split; [done|].
      change (ROM_MAGIC_NEW1 =? ROM_MAGIC_NEW) with true. destruct fuel as [|fuel]; [lia|].
      destruct (verify_sections_new fuel a g1 g2 ge f1 f2 e code ss (rom_bytes (fbyte d) a 8) ROM_MAGIC_NEW2
        (a + 0x100000) CHKSUM_INIT) as (ih' & ->); auto;
        [unfold ROM_MAGIC_NEW2; lia|lia|lia|]. apply Hsum; [lia|exact Hsec].
    - destruct (image_fields _ _ _ _ _ Hh) as (H2 & H3 & Hsec).
      exists ROM_MAGIC, (Z.of_nat (length ss)). split; [exact H2|].
      split; [unfold ih_section_count; rewrite H3; apply u8_small; lia|]. split; [done|].
      apply (Hsum _ fuel); [lia|exact Hsec]. }
  destruct Hrun as (magic & count & -> & -> & -> & ->). cbn [Z.ltb Z.compare].
  rewrite Hoff, Hout, Hck. by destruct (_ =? _).
Qed.
End verify.

(** rboot_verify_image returns, whatever the flash holds. *)
Section verify_returns.
Context `{FlashDev D}.

Lemma verify_sections_returns fuel (d : D) chunk0 lim off ih (new : bool) count c :
  0 <= count -> (if new then 257 <= Z.of_nat fuel else count < Z.of_nat fuel) ->
  exists r, verify_sections fuel d chunk0 lim off ih new count c = Some r.
Proof.
  revert off ih new count c; induction fuel as [|fuel IH]; intros off ih new count c Hc Hf.
  { destruct new; lia. }
  cbn [verify_sections]. destruct (Z.ltb_spec 0 count); cbn [andb]; [|by eexists].
  destruct (off <? lim); [|by eexists]. destruct (flash_read d off sizeof_section_header_t) as [r h].
  destruct (negb (flash_ok r)); [by eexists|]. destruct (lim <? _); [by eexists|].
  destruct (negb (_ mod 4 =? 0)); [by eexists|]. destruct new; [|apply IH; lia].
  destruct (negb (_ =? ROM_MAGIC_OLD)); [by eexists|].
  unfold ih_section_count. set (b := get8 _ 1). pose proof (u8_range b). apply IH; lia.
Qed.

Lemma verify_image_returns (d : D) chunk0 word0 a :
  exists r, rboot_verify_image d chunk0 word0 a = Some r.
Proof.
  unfold rboot_verify_image. destruct (negb (a mod 4 =? 0)); [by eexists|].
  destruct (flash_read d a sizeof_image_header_t) as [r ih].
  destruct (negb (flash_ok r)); [by eexists|]. destruct (_ && _); [by eexists|].
  pose proof (u8_range (get8 ih 1)) as Hr. fold (ih_section_count ih) in Hr.
  destruct (verify_sections_returns 257 d chunk0 (u32 (a + 0x100000))
    (u32 (a + sizeof_image_header_t)) ih (ih_magic ih =? ROM_MAGIC_NEW) (ih_section_count ih)
    CHKSUM_INIT) as [v ->]; [lia|destruct (_ =? _); lia|].
  destruct v as [[[off left] c]|[e off]]; [|by eexists].
  destruct (0 <? left); [by eexists|]. destruct (negb (_ =? c)); by eexists.
Qed.
End verify_returns.

(** The boot loader's verdict on an image of either header format. *)
Section boot_verdict.
Context `{FlashOk D} `{Machine M} (o : options) (m : M) (d : D).
Context (Hread : forall p n, 0 <= p -> 0 <= n <= BUFFER_SIZE -> p + n <= chip_size (sdk_flashchip (D:=D)) ->
  SPIRead m p n = (0, rom_bytes (fbyte d) p n)).
Context (Hirom : BOOT_IROM_CHKSUM o = false).

Lemma check_image_ota a g1 g2 ge f1 f2 e irom ss :
  0 < a -> is_byte f1 -> is_byte f2 -> Z.of_nat (length ss) <= 255 ->
  let bs := ota_bytes g1 g2 ge f1 f2 e irom ss in
  let pos := Z.lor (a + Z.of_nat (length bs)) 0x0f in
  rom_holds (fbyte d) a bs -> pos + 32 <= chip_size (sdk_flashchip (D:=D)) ->
  check_image o m a = Some (if fbyte d pos =? image_chksum ss then ota_start a irom else 0).
Proof.
  intros Ha Hf1 Hf2 Hn bs pos Hh Hpos.
  assert (Hc : chip_size (sdk_flashchip (D:=D)) <= 2 ^ 31) by (pose proof (chip_small (D:=D)); lia).
  destruct irom as [code|].
  - apply (check_image_new o m (fbyte d) (chip_size (sdk_flashchip (D:=D))) Hc Hread a g1 g2 ge f1 f2 e code ss);
      auto. change (pos + 1 <= chip_size (sdk_flashchip (D:=D))). lia.
  - apply (check_image_standard o m (fbyte d) (chip_size (sdk_flashchip (D:=D))) Hc Hread a f1 f2 e ss); auto.
    + by rewrite Hirom.
    + change (pos + 1 <= chip_size (sdk_flashchip (D:=D))). lia.
    + assert (a + 8 <= pos); [|lia].
      pose proof (ota_image_end g1 g2 ge f1 f2 e None ss a) as He. fold bs in He. change (ota_start a None) with a in He.
      rewrite length_image_bytes in He. unfold pos. rewrite lor_15 by lia. Z.div_mod_to_equations. lia.
Qed.
End boot_verdict.


(** ** The two programs on one chip

    The boot loader's machine over the flash device of the application. *)
Record dev_machine := DevMachine { dm_dev : spi_dev; dm_regs : gmap Z Z }.
#[export] Instance dev_machine_ops : Machine dev_machine := {|
  SPIRead := fun m a n => (0, rom_bytes (fbyte (dm_dev m)) a n);
  SPIEraseSector := fun m s => DevMachine (sdk_spi_flash_erase_sector (dm_dev m) s).2 (dm_regs m);
  SPIWrite := fun m a bs n => DevMachine (sdk_spi_flash_write (dm_dev m) a (Some bs) n).2 (dm_regs m);
  READ_PERI_REG := fun m a => default 0 (dm_regs m !! a);
  WRITE_PERI_REG := fun m a v => DevMachine (dm_dev m) (<[a := v]> (dm_regs m))
|}.

#[export] Instance sim_rom_byte_read : FlashByteRead spi_dev.
Proof.
  split. intros d a Ha. simpl. unfold sdk_spi_flash_read, sdk_SPIRead. simpl. by rewrite Z.add_0_r.
Defined.

(** The bytes of a chip with a byte in every cell that was written. *)
Lemma cells_bytes (m : gmap Z Z) x :
  bool_decide (map_Forall (fun _ b => is_byte b) m) = true -> is_byte (cell m x).
Proof.
  intros Hm. apply bool_decide_eq_true in Hm. unfold cell. destruct (m !! x) as [b|] eqn:E; simpl.
  - exact (Hm x b E).
  - unfold is_byte. lia.
Qed.

Definition code1 : list Z := [1; 2; 3; 4; 5; 6; 7; 8; 9; 10; 11; 12; 13; 14; 15; 16].
Definition sections1 : list rom_section :=
  [{| rs_address := 0x40100000; rs_data := [1; 2; 3; 4; 5; 6; 7; 8] |};
   {| rs_address := 0x3ffe8000; rs_data := [9; 10; 11; 12] |}].
Definition ota1 : list Z := ota_bytes 0 0 0x40100004 0 0 0x40100004 (Some code1) sections1.
Definition dev1 : spi_dev :=
  set_cells (<[Z.lor (0x2000 + Z.of_nat (length ota1)) 15 := image_chksum sections1]>
               (sim_put ∅ 0x2000 ota1)) blank_dev.

