(* ===== verification/RbootConfig.v ===== *)
(** * rBoot API: choosing the ROM of the next boot

    What the application's calls mean to the boot loader: after
    [rboot_set_current_rom] the boot loader finds a valid configuration and boots
    the chosen ROM; [rboot_set_temp_rom] has no effect on it, because the RTC
    functions of the open SDK library ignore the address they are given. *)

From S2P Require Import Prelude Flash SpiFlash Rboot RbootImage RbootBoot RbootApi RbootVerify.
Local Open Scope Z_scope.
Local Opaque Z.to_nat.

(** ** The configuration sector *)

Lemma overlay_full bs buf : length buf = length bs -> overlay bs buf = bs.
Proof. intros Hl. unfold overlay. by rewrite drop_ge, app_nil_r by lia. Qed.

Lemma get8_overlay bs buf i :
  0 <= i -> get8 (overlay bs buf) i = if i <? Z.of_nat (length bs) then get8 bs i else get8 buf i.
Proof.
  intros Hi. unfold get8, overlay. destruct (Z.ltb_spec i (Z.of_nat (length bs))).
  - by rewrite app_nth1 by lia.
  - rewrite app_nth2 by lia. rewrite !nth_lookup, lookup_drop. do 2 f_equal. lia.
Qed.

Section config.
Context `{FlashOk D} (Hsector : sector_size (sdk_flashchip (D:=D)) = SECTOR_SIZE).
Context (Hsize : 2 * SECTOR_SIZE <= chip_size (sdk_flashchip (D:=D))) (oa : options).

(** The sector of the configuration. *)
Definition config_sector (d : D) : list Z := fbytes d SECTOR_SIZE (Z.to_nat SECTOR_SIZE).

Lemma length_config_sector d : Z.of_nat (length (config_sector d)) = SECTOR_SIZE.
Proof. unfold config_sector. rewrite length_fbytes. done. Qed.

Lemma get8_config_sector d i :
  0 <= i < SECTOR_SIZE -> get8 (config_sector d) i = fbyte d (SECTOR_SIZE + i).
Proof.
  intros Hi. unfold get8, config_sector. apply nth_lookup_Some.
  rewrite lookup_fbytes by lia. do 2 f_equal. lia.
Qed.

Lemma config_sector_bytes d : (forall x, is_byte (fbyte d x)) -> Forall is_byte (config_sector d).
Proof.
  intros Hd. apply Forall_lookup. intros j x Hj. unfold config_sector in Hj.
  assert (j < Z.to_nat SECTOR_SIZE)%nat by (rewrite <- (length_fbytes d SECTOR_SIZE); by eapply lookup_lt_Some).
  rewrite lookup_fbytes in Hj by done. injection Hj as <-. apply Hd.
Qed.

Lemma get_config_run d h conf0 :
  0 <= MAX_ROMS oa <= 1000 -> Z.of_nat (length conf0) = sizeof_rboot_config oa ->
  rboot_get_config oa conf0 (App d h) =
    Some (take (Z.to_nat (sizeof_rboot_config oa)) (config_sector d), App d h).
Proof.
  intros Hm Hl. assert (Hs : 0 <= sizeof_rboot_config oa <= 4012)
    by (unfold sizeof_rboot_config; destruct (BOOT_CONFIG_CHKSUM oa); lia).
  unfold rboot_get_config, mbind, st_bind, read_into. cbn [flash].
  change (BOOT_CONFIG_SECTOR * SECTOR_SIZE) with 4096. unfold SECTOR_SIZE in Hsize.
  rewrite flash_read_ok by (done || lia). unfold mret, st_ret. do 2 f_equal.
  rewrite overlay_full by (rewrite length_fbytes; lia).
  unfold config_sector. change (Z.to_nat SECTOR_SIZE) with 4096%nat.
  replace 4096%nat with (Z.to_nat (sizeof_rboot_config oa) + (4096 - Z.to_nat (sizeof_rboot_config oa)))%nat at 1 by lia.
  rewrite fbytes_app, take_app_length' by (by rewrite length_fbytes). done.
Qed.

(** [rboot_set_config] replaces the configuration in its sector and changes
    nothing else. *)
Lemma set_config_run d h junk conf :
  Z.of_nat (length conf) <= SECTOR_SIZE -> Forall is_byte conf -> Forall is_byte (config_sector d) ->
  let conf' := update_chksum oa conf in
  exists d', rboot_set_config oa conf (App d (Some junk :: h)) = Some ((true, conf'), App d' h) /\
    config_sector d' = overlay conf' (config_sector d) /\
    (forall x, x < SECTOR_SIZE \/ 2 * SECTOR_SIZE <= x -> fbyte d' x = fbyte d x).
Proof.
  intros Hl Hb Hd conf'. unfold rboot_set_config, mbind at 1, st_bind at 1, malloc. cbn [heap flash].
  fold conf'. set (buf0 := take _ _).
  assert (Hl0 : length buf0 = Z.to_nat SECTOR_SIZE)
    by (unfold buf0; rewrite length_take, length_app, length_replicate; lia).
  assert (Hlc : length conf' = length conf)
    by (unfold conf', update_chksum; destruct (BOOT_CONFIG_CHKSUM oa); rewrite ?length_set8; done).
  assert (Hbc : Forall is_byte conf')
    by (unfold conf', update_chksum; destruct (BOOT_CONFIG_CHKSUM oa); auto using set8_byte).
  unfold mbind at 1, st_bind at 1, read_into. cbn [flash]. change (BOOT_CONFIG_SECTOR * SECTOR_SIZE) with SECTOR_SIZE.
  rewrite flash_read_ok by (unfold SECTOR_SIZE in *; done || lia).
  fold (config_sector d). rewrite (overlay_full (config_sector d)) by (rewrite Hl0; by pose proof (length_config_sector d); lia).
  assert (Hlo : Z.of_nat (length (overlay conf' (config_sector d))) = SECTOR_SIZE).
  { unfold overlay. rewrite length_app, length_drop. pose proof (length_config_sector d). lia. }
  unfold mbind at 1, st_bind at 1, erase_sector. cbn [flash heap].
  destruct (flash_erase_ok d BOOT_CONFIG_SECTOR) as (d1 & E1 & Hin1 & Hout1).
  { rewrite Hsector. change (0 <= 1 < chip_size (sdk_flashchip (D:=D)) / SECTOR_SIZE).
    split; [lia|]. apply Z.le_succ_l. apply Z.div_le_lower_bound; unfold SECTOR_SIZE in *; lia. }
  change (u16 BOOT_CONFIG_SECTOR) with BOOT_CONFIG_SECTOR. rewrite E1. rewrite Hsector in Hin1, Hout1.
  destruct (flash_write_ok d1 SECTOR_SIZE (overlay conf' (config_sector d)) SECTOR_SIZE)
    as (d2 & E2 & Hin2 & Hout2); [done|done|rewrite Hlo; unfold SECTOR_SIZE; lia|exact Hsize|].
  unfold mbind, st_bind, write_flash. cbn [flash heap]. rewrite E2. exists d2. split; [done|]. split.
  - unfold config_sector at 1. replace (Z.to_nat SECTOR_SIZE) with (length (overlay conf' (config_sector d))) by lia.
    apply fbytes_eq. intros i b Hi.
    assert (Hlt : (i < length (overlay conf' (config_sector d)))%nat) by (by eapply lookup_lt_Some).
    rewrite (Hin2 i b Hi), Hin1 by (unfold BOOT_CONFIG_SECTOR; lia). apply land_byte_255.
    assert (Hbo : Forall is_byte (overlay conf' (config_sector d))).
    { unfold overlay. apply Forall_app. split; [done|]. by apply Forall_drop. }
    by eapply Forall_lookup_1.
  - intros x Hx. change (round4 SECTOR_SIZE) with SECTOR_SIZE in Hout2. rewrite Hout2, Hout1; [done| |lia].
    unfold BOOT_CONFIG_SECTOR. lia.
Qed.

(** Selecting a ROM: byte [cf_current_rom] of the sector becomes the ROM, the
    checksum is the one of the new configuration, and the other bytes stay. *)
Lemma set_current_rom_run d h junk conf0 rom :
  16 <= sizeof_rboot_config oa <= 4000 -> 0 <= MAX_ROMS oa <= 1000 -> BOOT_CONFIG_CHKSUM oa = true ->
  Z.of_nat (length conf0) = sizeof_rboot_config oa -> Forall is_byte (config_sector d) ->
  0 <= rom < get8 (config_sector d) cf_count -> rom < 256 ->
  exists d', rboot_set_current_rom oa conf0 rom (App d (Some junk :: h)) = Some (true, App d' h) /\
    (forall i, 0 <= i < SECTOR_SIZE -> get8 (config_sector d') i =
       if i =? cf_chksum oa then calc_chksum (set8 (config_sector d) cf_current_rom rom) (cf_chksum oa)
       else if i =? cf_current_rom then rom else get8 (config_sector d) i) /\
    (forall x, x < SECTOR_SIZE \/ 2 * SECTOR_SIZE <= x -> fbyte d' x = fbyte d x).
Proof.
  intros Hs Hm Hck Hl Hd Hrom Hr.
  set (n := sizeof_rboot_config oa) in *. set (conf := take (Z.to_nat n) (config_sector d)).
  pose proof (length_config_sector d) as Hls. unfold SECTOR_SIZE in Hls.
  assert (Hlc : Z.of_nat (length conf) = n) by (unfold conf; rewrite length_take; lia).
  assert (Hg : forall i, 0 <= i < n -> get8 conf i = get8 (config_sector d) i).
  { intros i Hi. unfold get8, conf. rewrite !nth_lookup. by rewrite lookup_take_lt by lia. }
  assert (Hn : n = cf_chksum oa + 4) by (unfold n, sizeof_rboot_config, cf_chksum; rewrite Hck; lia).
  assert (Hbc : Forall is_byte conf).
  { by apply Forall_take. }
  destruct (set_config_run d h junk (set8 conf cf_current_rom rom)) as (d' & E & Hc & Hout);
    [rewrite length_set8; unfold SECTOR_SIZE; lia|by apply set8_byte|done|].
  exists d'. unfold rboot_set_current_rom. rewrite (bind_run _ _ _ _ _ (get_config_run d _ conf0 Hm Hl)).
  fold n conf. rewrite Hg by (unfold cf_count; lia). rewrite (proj2 (Z.leb_gt _ _)) by lia.
  rewrite (bind_run _ _ _ _ _ E). split; [done|]. split; [|exact Hout].
  intros i Hi. rewrite Hc, get8_overlay by lia. unfold update_chksum. rewrite Hck, !length_set8, Hlc.
  assert (Hsum : calc_chksum (set8 conf cf_current_rom rom) (cf_chksum oa) =
                 calc_chksum (set8 (config_sector d) cf_current_rom rom) (cf_chksum oa)).
  { unfold calc_chksum. f_equal. unfold set8, conf. apply list_eq. intros j.
    destruct (decide (j < Z.to_nat (cf_chksum oa))%nat) as [Hj|Hj].
    - rewrite !lookup_take_lt by lia. destruct (decide (j = Z.to_nat cf_current_rom)) as [->|Hne].
      + rewrite !list_lookup_insert_eq; [done|lia|rewrite length_take; lia].
      + rewrite !list_lookup_insert_ne by done. by rewrite lookup_take_lt by lia.
    - by rewrite !lookup_take_ge by lia. }
  destruct (Z.ltb_spec i n) as [Hlt|Hge].
  - rewrite get8_set8 by (rewrite ?length_set8; unfold cf_current_rom in *; lia).
    destruct (Z.eqb_spec i (cf_chksum oa)) as [->|Hne1].
    + rewrite u8_small; [exact Hsum|]. apply calc_chksum_range. by apply set8_byte.
    + rewrite get8_set8 by (unfold cf_current_rom; lia).
      destruct (Z.eqb_spec i cf_current_rom); [by apply u8_small; lia|]. by apply Hg; lia.
  - rewrite (proj2 (Z.eqb_neq _ _)), (proj2 (Z.eqb_neq _ cf_current_rom)) by (unfold cf_current_rom; lia). done.
Qed.

(** A ROM that is not configured, or no memory: nothing changes. *)
Lemma set_current_rom_refused d h conf0 rom :
  16 <= sizeof_rboot_config oa <= 4000 -> 0 <= MAX_ROMS oa <= 1000 ->
  Z.of_nat (length conf0) = sizeof_rboot_config oa ->
  get8 (config_sector d) cf_count <= rom \/ h = [] \/ head h = Some None ->
  exists h', rboot_set_current_rom oa conf0 rom (App d h) = Some (false, App d h').
Proof.
  intros Hs Hm Hl Hno. unfold rboot_set_current_rom. rewrite (bind_run _ _ _ _ _ (get_config_run d _ conf0 Hm Hl)).
  assert (Hg : get8 (take (Z.to_nat (sizeof_rboot_config oa)) (config_sector d)) cf_count = get8 (config_sector d) cf_count).
  { unfold get8. rewrite !nth_lookup. by rewrite lookup_take_lt by (unfold cf_count; lia). }
  rewrite Hg. destruct (Z.leb_spec (get8 (config_sector d) cf_count) rom) as [Hle|Hgt]; [by exists h|].
  unfold rboot_set_config, mbind, st_bind, malloc. cbn [heap flash].
  destruct Hno as [?|[->|Hh]]; [lia|by eexists|].
  destruct h as [|[j|] h]; [done|done|by eexists].
Qed.
End config.

(** ** Buffers with the same bytes *)

Lemma take_drop_get8 b b' off k :
  0 <= off -> off + Z.of_nat k <= Z.of_nat (length b) -> off + Z.of_nat k <= Z.of_nat (length b') ->
  (forall i, off <= i < off + Z.of_nat k -> get8 b i = get8 b' i) ->
  take k (drop (Z.to_nat off) b) = take k (drop (Z.to_nat off) b').
Proof.
  intros Hoff Hl Hl' Hg. apply list_eq. intros j. destruct (decide (j < k)%nat).
  2:{ by rewrite !lookup_take_ge by lia. }
  rewrite !lookup_take_lt, !lookup_drop by lia.
  specialize (Hg (off + Z.of_nat j) ltac:(lia)). unfold get8 in Hg. rewrite !nth_lookup in Hg.
  replace (Z.to_nat (off + Z.of_nat j)) with (Z.to_nat off + j)%nat in Hg by lia.
  destruct (lookup_lt_is_Some_2 b (Z.to_nat off + j)) as [x Hx]; [lia|].
  destruct (lookup_lt_is_Some_2 b' (Z.to_nat off + j)) as [y Hy]; [lia|].
  rewrite Hx, Hy in *. simpl in Hg. by subst.
Qed.

Lemma calc_chksum_get8 b b' n :
  0 <= n -> n <= Z.of_nat (length b) -> n <= Z.of_nat (length b') ->
  (forall i, 0 <= i < n -> get8 b i = get8 b' i) -> calc_chksum b n = calc_chksum b' n.
Proof.
  intros Hn Hl Hl' Hg. unfold calc_chksum. f_equal.
  apply (take_drop_get8 b b' 0 (Z.to_nat n)); auto; try lia. intros; apply Hg; lia.
Qed.

Lemma get32_get8 b b' off :
  0 <= off -> off + 4 <= Z.of_nat (length b) -> off + 4 <= Z.of_nat (length b') ->
  (forall i, off <= i < off + 4 -> get8 b i = get8 b' i) -> get32 b off = get32 b' off.
Proof. intros ???? . unfold get32. f_equal. by apply take_drop_get8. Qed.

(** ** The next boot *)

Section next_boot.
Context `{FlashOk D} `{Machine M} (oa o : options) (loader : stage2_image).
Context (Hsize : 2 * SECTOR_SIZE <= chip_size (sdk_flashchip (D:=D))).
Context (Hmax : 0 <= MAX_ROMS oa <= 900) (Hsame : MAX_ROMS o = MAX_ROMS oa).
Context (Hgpio : BOOT_GPIO_ENABLED o = false).

(** The configuration sectors before and after [rboot_set_current_rom]. *)
Definition reconfigured (rom : Z) (s s' : list Z) : Prop :=
  forall i, 0 <= i < SECTOR_SIZE -> get8 s' i =
    if i =? cf_chksum oa then calc_chksum (set8 s cf_current_rom rom) (cf_chksum oa)
    else if i =? cf_current_rom then rom else get8 s i.

Lemma reconfigured_valid rom s s' :
  Z.of_nat (length s) = SECTOR_SIZE -> Z.of_nat (length s') = SECTOR_SIZE -> 0 <= rom < 256 ->
  reconfigured rom s s' -> config_valid o s = true -> config_valid o s' = true.
Proof.
  intros Hl Hl' Hr Hg Hv. unfold SECTOR_SIZE in *.
  assert (Hc : 8 <= cf_chksum oa <= 3608) by (unfold cf_chksum; lia).
  assert (He : cf_chksum o = cf_chksum oa) by (unfold cf_chksum; lia).
  unfold config_valid in *. unfold cf_magic, cf_version in *.
  rewrite (Hg 0), (Hg 1) by (unfold SECTOR_SIZE; lia). unfold cf_current_rom in *.
  rewrite (proj2 (Z.eqb_neq 0 (cf_chksum oa))), (proj2 (Z.eqb_neq 1 (cf_chksum oa))) by lia.
  change (0 =? 3) with false. change (1 =? 3) with false. cbv iota.
  apply negb_true_iff in Hv. apply orb_false_iff in Hv as [Hv _]. rewrite Hv. cbn [orb].
  rewrite He. rewrite Hg by (unfold SECTOR_SIZE; lia). rewrite Z.eqb_refl.
  rewrite (calc_chksum_get8 s' (set8 s 3 rom)); [by rewrite Z.eqb_refl; destruct (BOOT_CONFIG_CHKSUM o)|lia|lia|by rewrite length_set8; lia|].
  intros i Hi. rewrite Hg by (unfold SECTOR_SIZE; lia). unfold cf_current_rom.
  rewrite (proj2 (Z.eqb_neq i _)), get8_set8 by lia.
  destruct (Z.eqb_spec i 3); [symmetry; apply u8_small; lia|done].
Qed.

Lemma reconfigured_boots rtc0 ram (d' : D) (m' : M) s rom r :
  (forall p n, 0 <= p -> 0 <= n <= SECTOR_SIZE -> p + n <= chip_size (sdk_flashchip (D:=D)) ->
     SPIRead m' p n = (0, rom_bytes (fbyte d') p n)) ->
  (forall p n, Forall is_byte (SPIRead m' p n).2) ->
  Z.of_nat (length s) = SECTOR_SIZE -> reconfigured rom s (config_sector d') -> config_valid o s = true ->
  0 <= rom < get8 s cf_count -> get8 s cf_count <= MAX_ROMS oa -> get8 s cf_count <= 255 -> r <> 0 ->
  check_image o m' (get32 s (cf_roms rom)) = Some r ->
  (BOOT_RTC_ENABLED o = true -> length rtc0 = 12%nat) -> temp_request o m' rtc0 = None ->
  exists p', find_image o loader rtc0 (Boot m' [] ram) =
    Some (r, Boot (rtc_left o m' (rtc_report (rtc_found o m' rtc0) rom false)) p' (loader_copied loader ram)).
Proof.
  intros Hread Hb Hl Hg Hv Hrom Hcm Hc255 Hr0 Hck Hl0 Htemp.
  pose proof (length_config_sector d') as Hl'. unfold cf_count in *.
  assert (Hsec : (SPIRead m' (BOOT_CONFIG_SECTOR * SECTOR_SIZE) SECTOR_SIZE).2 = config_sector d').
  { rewrite Hread by (unfold BOOT_CONFIG_SECTOR, SECTOR_SIZE in *; lia). cbn [snd].
    rewrite rom_bytes_fbytes. done. }
  assert (Hload : loaded o m' = (config_sector d', m')).
  { unfold loaded. rewrite Hsec. destruct (flash_size o _) as [fs mb].
    rewrite (reconfigured_valid rom s); auto; lia. }
  assert (Hfield : forall i, 0 <= i < cf_chksum oa -> i <> 3 -> get8 (config_sector d') i = get8 s i).
  { intros i Hi Hne. rewrite Hg by (unfold cf_chksum, SECTOR_SIZE in *; lia).
    unfold cf_current_rom. by rewrite !(proj2 (Z.eqb_neq i _)) by lia. }
  assert (Hcur : get8 (config_sector d') cf_current_rom = rom).
  { rewrite Hg by (unfold cf_current_rom, SECTOR_SIZE; lia). unfold cf_current_rom, cf_chksum.
    by rewrite (proj2 (Z.eqb_neq 3 _)) by lia. }
  assert (Hslot : slot_address o m' (config_sector d') rom = r).
  { unfold slot_address. unfold SECTOR_SIZE in *.
    rewrite (get32_get8 (config_sector d') s); [by rewrite Hck|unfold cf_roms; lia..|].
    unfold cf_roms. intros i Hi. apply Hfield; unfold cf_chksum; lia. }
  assert (Hcount : get8 (config_sector d') cf_count = get8 s 5) by (apply Hfield; unfold cf_chksum; lia).
  pose proof (find_image_spec o loader Hgpio m' rtc0 ram) as Hf. rewrite Hload in Hf. cbn [fst snd] in Hf.
  destruct Hf as (p' & E); [done|done|rewrite Hcount; lia|rewrite Hcur; lia|].
  exists p'. rewrite E. unfold boot_slots, booted. rewrite Htemp, Hcount, Hcur, (proj2 (Z.ltb_lt _ _)) by lia.
  rewrite bool_decide_false by (by intros []). unfold boot_order. rewrite seqZ_cons by lia. cbn [map first_good].
  rewrite Z.sub_0_r, Z.mod_small by lia. rewrite Hslot, (proj2 (Z.eqb_neq r 0)) by done.
  by rewrite Hslot, Z.eqb_refl.
Qed.
End next_boot.

(** ** The RTC memory *)

Section temp_rom.
Context `{Machine M}.
(** A write changes no other register. *)
Context (Hother : forall (m : M) a b v, a <> b -> READ_PERI_REG (WRITE_PERI_REG m a v) b = READ_PERI_REG m b).

Lemma rtc_store_other n i (m : M) src a :
  0 <= i -> (a < RTCMEM_SYSTEM i \/ RTCMEM_SYSTEM (i + Z.of_nat n) <= a) ->
  READ_PERI_REG (rtc_store n i m src) a = READ_PERI_REG m a.
Proof.
  revert i m; induction n as [|n IH]; intros i m Hi Ha; [done|]. unfold RTCMEM_SYSTEM in *.
  cbn [rtc_store]. rewrite IH by lia. apply Hother. unfold RTCMEM_SYSTEM. lia.
Qed.

(** [rboot_set_temp_rom] stores three words at the start of the system part of
    the RTC memory. *)
Lemma set_temp_rom_run (m : M) rtc0 rom :
  exists m', rboot_set_temp_rom m rtc0 rom = (true, m') /\
    (forall a, in_rtc_user_memory a -> READ_PERI_REG m' a = READ_PERI_REG m a).
Proof.
  unfold rboot_set_temp_rom. destruct (rboot_get_rtc_data m rtc0) as [ok rtc].
  set (rtc' := set8 (set8 _ rt_next_mode MODE_TEMP_ROM) rt_temp_rom rom).
  unfold rboot_set_rtc_data, sdk_system_rtc_mem_write. cbn [Z.ltb Z.compare negb].
  change (Z.to_nat (Z.shiftr (rtc_round sizeof_rboot_rtc_data) 2)) with 3%nat.
  eexists. split; [reflexivity|]. intros a Ha. apply rtc_store_other; [lia|].
  unfold in_rtc_user_memory, RTCMEM_SYSTEM in *. lia.
Qed.

Lemma rtc_copy_same n (m m' : M) addr buff :
  (forall b, 0 <= b < Z.of_nat n -> READ_PERI_REG m' (rtc_word (addr + b)) = READ_PERI_REG m (rtc_word (addr + b))) ->
  exists bytes, rtc_copy n m addr buff RBOOT_RTC_READ = (bytes, m) /\
    rtc_copy n m' addr buff RBOOT_RTC_READ = (bytes, m').
Proof.
  revert buff; induction n as [|n IH]; intros buff Hr; [by exists buff|].
  cbn [rtc_copy]. change (RBOOT_RTC_READ =? RBOOT_RTC_WRITE) with false.
  rewrite Hr by lia. apply IH. intros; apply Hr; lia.
Qed.

Lemma select_temp_same o (m m' : M) v p ram :
  (forall a, in_rtc_user_memory a -> READ_PERI_REG m' a = READ_PERI_REG m a) ->
  exists r q, select_temp o v (Boot m p ram) = Some (r, Boot m q ram) /\
    select_temp o v (Boot m' p ram) = Some (r, Boot m' q ram).
Proof.
  intros Hr. unfold select_temp. destruct (BOOT_RTC_ENABLED o); [|by do 2 eexists].
  unfold mbind, st_bind, on_mach. cbn [mach printed].
  unfold RBOOT_RTC_ADDR, sizeof_rboot_rtc_data. rewrite !rtc_checks by done.
  destruct (rtc_copy_same (Z.to_nat (12 / 4)) m m' 64 (bv_rtc v)) as (bytes & -> & ->).
  { intros b Hb. apply Hr. unfold in_rtc_user_memory, rtc_word. change (Z.of_nat (Z.to_nat (12 / 4))) with 3 in Hb. lia. }
  cbn [Z.eqb negb andb]. unfold ets_printf, st_modify.
  destruct (_ =? calc_chksum bytes rt_chksum); [|by do 2 eexists].
  destruct (negb (_ =? 0)); [|by do 2 eexists].
  destruct (_ <=? _); do 2 eexists; split; reflexivity.
Qed.
End temp_rom.

(** ** The theorems *)

(** C8: when the application selects a configured ROM, [rboot_set_current_rom]
    returns true, changes only the sector of the configuration, and the next boot
    (of a boot loader without the GPIO option, with or without the configuration
    checksum and the RTC option, when the RTC memory does not ask for a temporary
    ROM) starts that ROM if its image is good, and writes nothing but its report to
    the RTC memory.  A ROM that is not configured, or a lack of memory, is reported
    and changes nothing.  The sector held a valid configuration of at most MAX_ROMS
    ROMs, sectors are of 4096 bytes, and the API keeps a checksum, as
    rboot-integration.h makes it do. *)
Theorem set_current_rom_boots `{FlashOk D} `{Machine M} oa o loader (d : D) junk h conf0 rom rtc0 ram :
  sector_size (sdk_flashchip (D:=D)) = SECTOR_SIZE ->
  2 * SECTOR_SIZE <= chip_size (sdk_flashchip (D:=D)) ->
  BOOT_CONFIG_CHKSUM oa = true -> 1 <= MAX_ROMS oa <= 900 -> MAX_ROMS o = MAX_ROMS oa ->
  BOOT_GPIO_ENABLED o = false -> (BOOT_RTC_ENABLED o = true -> length rtc0 = 12%nat) ->
  (forall x, is_byte (fbyte d x)) -> Z.of_nat (length conf0) = sizeof_rboot_config oa ->
  let s := config_sector d in
  config_valid o s = true -> get8 s cf_count <= MAX_ROMS oa ->
  (get8 s cf_count <= rom ->
     exists h', rboot_set_current_rom oa conf0 rom (App d (Some junk :: h)) = Some (false, App d h')) /\
  (0 <= rom < get8 s cf_count ->
     (exists h', rboot_set_current_rom oa conf0 rom (App d []) = Some (false, App d h')) /\
     exists d', rboot_set_current_rom oa conf0 rom (App d (Some junk :: h)) = Some (true, App d' h) /\
       (forall x, x < SECTOR_SIZE \/ 2 * SECTOR_SIZE <= x -> fbyte d' x = fbyte d x) /\
       forall (m' : M) r,
         (forall p n, 0 <= p -> 0 <= n <= SECTOR_SIZE -> p + n <= chip_size (sdk_flashchip (D:=D)) ->
            SPIRead m' p n = (0, rom_bytes (fbyte d') p n)) ->
         (forall p n, Forall is_byte (SPIRead m' p n).2) ->
         r <> 0 -> check_image o m' (get32 s (cf_roms rom)) = Some r -> temp_request o m' rtc0 = None ->
         exists p', find_image o loader rtc0 (Boot m' [] ram) =
           Some (r, Boot (rtc_left o m' (rtc_report (rtc_found o m' rtc0) rom false)) p' (loader_copied loader ram))).
Proof.
  intros Hsec Hsize Hck Hmax Hsame Hgpio Hl0 Hd Hl s Hv Hcm.
  assert (Hs : 16 <= sizeof_rboot_config oa <= 4000) by (unfold sizeof_rboot_config; rewrite Hck; lia).
  assert (Hc255 : get8 s cf_count <= 255).
  { unfold s, cf_count. rewrite get8_config_sector by (unfold SECTOR_SIZE; lia).
    pose proof (Hd (SECTOR_SIZE + 5)) as Hb. unfold is_byte in Hb. lia. }
  split.
  { intros Hno. apply set_current_rom_refused; auto; lia. }
  intros Hrom. split; [apply set_current_rom_refused; auto; lia|].
  destruct (set_current_rom_run Hsec Hsize oa d h junk conf0 rom) as (d' & E & Hg & Hout); auto;
    [lia|by apply config_sector_bytes|lia|].
  exists d'. split; [exact E|]. split; [exact Hout|]. intros m' r Hread Hb Hr0 Himg Htemp.
  apply (reconfigured_boots oa o loader Hsize ltac:(lia) Hsame Hgpio rtc0 ram d' m' s rom r); auto.
Qed.

(** [rboot_set_temp_rom] reports success and the boot loader does not see it:
    whatever it read before, it selects the same ROM and prints the same messages
    after the call, because [sdk_system_rtc_mem_write] ignores the address and
    stores in the system part of the RTC memory. *)
Theorem set_temp_rom_unseen `{Machine M} o (m : M) rtc0 rom v p ram :
  (forall (m : M) a b v, a <> b -> READ_PERI_REG (WRITE_PERI_REG m a v) b = READ_PERI_REG m b) ->
  exists m' r q, rboot_set_temp_rom m rtc0 rom = (true, m') /\
    select_temp o v (Boot m p ram) = Some (r, Boot m q ram) /\ select_temp o v (Boot m' p ram) = Some (r, Boot m' q ram).
Proof.
  intros Hother. destruct (set_temp_rom_run Hother m rtc0 rom) as (m' & E & Hr).
  destruct (select_temp_same o m m' v p ram Hr) as (r & q & E1 & E2). by exists m', r, q.
Qed.

(** ** Witnesses *)

(** The chip of [dev1] with a configuration of two ROMs, slot 0 current; the image
    of slot 1 is at 0x2000. *)
Definition conf2 : list Z :=
  [BOOT_CONFIG_MAGIC; BOOT_CONFIG_VERSION; 0; 0; 0; 2; 0; 0] ++ le_bytes 4 0x52000 ++ le_bytes 4 0x2000 ++
  le_bytes 4 0 ++ le_bytes 4 0.
Definition dev2 : spi_dev := set_cells (sim_put (cells dev1) SECTOR_SIZE conf2) blank_dev.
Definition api_options : options :=
  {| BOOT_CONFIG_CHKSUM := true; BOOT_BIG_FLASH := true; BOOT_RTC_ENABLED := true;
     BOOT_GPIO_ENABLED := false; BOOT_GPIO_NUM := 16; BOOT_IROM_CHKSUM := false; MAX_ROMS := 4 |}.

Lemma set_current_rom_boots_witness :
  exists d', rboot_set_current_rom api_options (replicate 28 0) 1 (App dev2 [Some []]) = Some (true, App d' []) /\
    fbyte d' 0x2000 = ROM_MAGIC_NEW1.
Proof.
  destruct (set_current_rom_boots (M:=dev_machine) api_options default_options loader1 dev2 [] [] (replicate 28 0) 1
    (replicate 12 0) (fun _ => 0)) as [_ Hsel].
  - reflexivity.
  - by vm_compute.
  - reflexivity.
  - simpl. lia.
  - reflexivity.
  - reflexivity.
  - reflexivity.
  - intros x. apply cells_bytes. by vm_compute.
  - reflexivity.
  - by vm_compute.
  - by vm_compute.
  - destruct Hsel as (_ & d' & E & Hout & _); [by vm_compute|]. exists d'. split; [exact E|].
    rewrite Hout by (unfold SECTOR_SIZE; lia). by vm_compute.
Defined.

Definition vars2 : boot_vars :=
  {| bv_conf := conf2; bv_rom := 0; bv_update := false; bv_gpio := false; bv_temp := false;
     bv_rtc := replicate 12 0 |}.

Lemma set_temp_rom_unseen_witness :
  exists m' r q, rboot_set_temp_rom (DevMachine dev1 ∅) (replicate 12 0) 1 = (true, m') /\
    select_temp api_options vars2 (Boot (DevMachine dev1 ∅) [] (fun _ => 0)) = Some (r, Boot (DevMachine dev1 ∅) q (fun _ => 0)) /\
    select_temp api_options vars2 (Boot m' [] (fun _ => 0)) = Some (r, Boot m' q (fun _ => 0)).
Proof.
  apply set_temp_rom_unseen. intros m a b v Hab. simpl. by rewrite lookup_insert_ne.
Defined.
