(* ===== verification/Tftp.v ===== *)
(** * Updates over the air: extras/rboot-ota/ota-tftp.c

    A TFTP server (and a client) that writes an image into a ROM slot, verifies it
    and makes it the ROM to boot.  The state [tftp] is the application's world of
    [RbootApi] (flash and heap), the events the network still has in store, the
    peer the socket is connected to, the results of the next sends, and what has
    been done: the packets sent, the calls of the progress callback, the restart.

    A received packet is the list of the segments of its netbuf, each with the
    remainder of its address modulo 4, on which the copying depends.  [None] as the
    result of a computation means, besides a loop without end, that the C program
    has undefined behaviour: a misaligned chunk of less than a word, or a division
    by a ROM count of zero.

    The theorems are in [TftpUpdate]; [TftpReceive] has the lemmas on a transfer. *)

From Stdlib Require Import String Ascii.
From S2P Require Import Prelude Flash Rboot RbootApi.
Local Open Scope Z_scope.

Definition ERR_OK : Z := 0.
Definition ERR_TIMEOUT : Z := -3.
Definition ERR_VAL : Z := -6.
Definition ERR_USE : Z := -8.
Definition ERR_IF : Z := -15.

Definition TFTP_OP_RRQ : Z := 1.
Definition TFTP_OP_WRQ : Z := 2.
Definition TFTP_OP_DATA : Z := 3.
Definition TFTP_OP_ACK : Z := 4.
Definition TFTP_OP_ERROR : Z := 5.
Definition TFTP_ERR_FILENOTFOUND : Z := 1.
Definition TFTP_ERR_FULL : Z := 3.
Definition TFTP_ERR_ILLEGAL : Z := 4.
Definition MAX_IMAGE_SIZE : Z := 0x100000.
Definition DATA_PACKET_SZ : Z := 512 + 4.
Definition TFTP_TIMEOUT_RETRANSMITS : Z := 10.

Definition chars (s : string) : list Z :=
  map (fun a => Z.of_N (N_of_ascii a)) (list_ascii_of_string s).
Definition TFTP_FIRMWARE_FILE : list Z := chars "firmware.bin".
Definition TFTP_OCTET_MODE : list Z := chars "octet".

(** ** State *)

(** An address and a port; a segment; what netconn_recv returns next. *)
Definition peer : Type := Z * Z.
Definition segment : Type := Z * list Z.
Inductive rx_event :=
  | RxTimeout
  | RxErr (e : Z)
  | RxPacket (from : peer) (segs : list segment).

Record tftp (D : Type) := {
  application : app D;
  rx : list rx_event;
  connected : option peer;
  send_errs : list Z;
  nc_ok : bool;
  bind_errs : list Z;
  dns : Z * Z;
  tx : list (option peer * list Z);
  progress : list Z;
  restarted : bool
}.
Arguments application {D}.
Arguments rx {D}.
Arguments connected {D}.
Arguments send_errs {D}.
Arguments nc_ok {D}.
Arguments bind_errs {D}.
Arguments dns {D}.
Arguments tx {D}.
Arguments progress {D}.
Arguments restarted {D}.

(** [NETCONN]: the changes of the fields. *)
Definition upd {D} (t : tftp D) a r c s x p b : tftp D :=
  {| application := a; rx := r; connected := c; send_errs := s; nc_ok := nc_ok t;
     bind_errs := bind_errs t; dns := dns t; tx := x; progress := p; restarted := b |}.
Definition set_app {D} (a : app D) (t : tftp D) : tftp D :=
  upd t a (rx t) (connected t) (send_errs t) (tx t) (progress t) (restarted t).
Definition set_rx {D} (r : list rx_event) (t : tftp D) : tftp D :=
  upd t (application t) r (connected t) (send_errs t) (tx t) (progress t) (restarted t).
Definition set_connected {D} (c : option peer) (t : tftp D) : tftp D :=
  upd t (application t) (rx t) c (send_errs t) (tx t) (progress t) (restarted t).
Definition set_sent {D} (s : list Z) (x : list (option peer * list Z)) (t : tftp D) : tftp D :=
  upd t (application t) (rx t) (connected t) s x (progress t) (restarted t).
Definition add_progress {D} (n : Z) (t : tftp D) : tftp D :=
  upd t (application t) (rx t) (connected t) (send_errs t) (tx t) (progress t ++ [n]) (restarted t).
Definition set_restarted {D} (t : tftp D) : tftp D :=
  upd t (application t) (rx t) (connected t) (send_errs t) (tx t) (progress t) true.

(** ** Network buffers *)

Definition netbuf_bytes (segs : list segment) : list Z := concat (map snd segs).
Definition netbuf_len (segs : list segment) : Z := u16 (Z.of_nat (length (netbuf_bytes segs))).

Definition be16 (x : Z) : list Z := [x / 256 mod 256; x mod 256].

Section network.
Context {D : Type}.

(** [stray i]: what an uninitialised byte holds. *)
Variable stray : nat -> Z.

Definition netbuf_read_u8 (segs : list segment) (offs : nat) : Z :=
  default (stray 0) (netbuf_bytes segs !! offs).
Definition netbuf_read_u16_n (segs : list segment) (offs : nat) : Z :=
  default (stray 0) (netbuf_bytes segs !! offs) * 256 +
  default (stray 1) (netbuf_bytes segs !! S offs).

Definition netconn_recv : ST (tftp D) (Z * option (peer * list segment)) := fun t =>
  match rx t with
  | [] => Some ((ERR_TIMEOUT, None), t)
  | RxTimeout :: r => Some ((ERR_TIMEOUT, None), set_rx r t)
  | RxErr e :: r => Some ((e, None), set_rx r t)
  | RxPacket from segs :: r => Some ((ERR_OK, Some (from, segs)), set_rx r t)
  end.

Definition netconn_connect (p : peer) : ST (tftp D) unit := st_modify (set_connected (Some p)).
Definition netconn_disconnect : ST (tftp D) unit := st_modify (set_connected None).

Definition netconn_send (bs : list Z) : ST (tftp D) Z := fun t =>
  Some (default ERR_OK (head (send_errs t)),
        set_sent (tail (send_errs t)) (tx t ++ [(connected t, bs)]) t).

(** ** Packets *)

Definition tftp_send_ack (block : Z) : ST (tftp D) Z :=
  netconn_send (be16 TFTP_OP_ACK ++ be16 (u16 block)).

Definition tftp_send_error (err_code : Z) (err_msg : list Z) : ST (tftp D) unit :=
  netconn_send (be16 TFTP_OP_ERROR ++ be16 err_code ++ err_msg ++ [0]);; mret ().

Definition tftp_send_rrq (filename : list Z) : ST (tftp D) Z :=
  netconn_send (be16 TFTP_OP_RRQ ++ filename ++ [0] ++ TFTP_OCTET_MODE ++ [0]).

(** The loop of tftp_get_field over the bytes from [offs] on: [field],
    [field_offs] and [field_len] at its end. *)
Fixpoint field_loop (rest : list Z) (field offs field_offs field_len : Z) : Z * Z * Z :=
  match rest with
  | [] => (field, field_offs, field_len)
  | c :: rest =>
      if field <? 0 then (field, field_offs, field_len)
      else
        let offs := offs + 1 in
        let field_len := if field =? 0 then field_len + 1 else field_len in
        let '(field, field_offs) :=
          if c =? 0 then (field - 1, if field - 1 =? 0 then offs else field_offs)
          else (field, field_offs) in
        field_loop rest field offs field_offs field_len
  end.
Definition tftp_get_field (field : Z) (segs : list segment) : option (list Z) :=
  let b := netbuf_bytes segs in
  let '(field, field_offs, field_len) := field_loop (drop 2 b) field 2 2 0 in
  if field =? -1 then Some (take (Z.to_nat field_len) (drop (Z.to_nat field_offs) b)) else None.

(** [strcmp(s, t) == 0], for [t] without a NUL. *)
Definition str_equal (s t : list Z) : bool :=
  bool_decide (take (Z.to_nat (strlen s)) s = t).
End network.

(** ** Receiving an image *)

Section receive.
Context `{FlashDev D} (stray : nat -> Z) (chunk0 word0 : list Z) (receive_cb : bool).

(** Undefined behaviour. *)
Definition undefined {A} : ST (tftp D) A := fun _ => None.

(** A call of the API or of the flash driver. *)
Definition on_app {A} (m : ST (app D) A) : ST (tftp D) A := fun t =>
  match m (application t) with
  | Some (x, a) => Some (x, set_app a t)
  | None => None
  end.

(** Lines 349-376 for one segment, after the TFTP header has been skipped: the new
    [offset]. *)
Definition write_chunk (write_offs offset align : Z) (chunk : list Z) : ST (tftp D) Z :=
  let chunk_len := Z.of_nat (length chunk) in
  if negb (chunk_len =? 0) && negb (align =? 0) then
    if chunk_len <? 4 then undefined
    else
      on_app (write_flash (u32 (write_offs + offset)) (take 4 chunk) 4);;
      on_app (write_flash (u32 (write_offs + (offset + 4))) (drop 4 chunk) (chunk_len - 4));;
      mret (offset + chunk_len)
  else
    on_app (write_flash (u32 (write_offs + offset)) chunk chunk_len);;
    mret (offset + chunk_len).

Fixpoint write_rest (write_offs offset : Z) (segs : list segment) : ST (tftp D) unit :=
  match segs with
  | [] => mret ()
  | (align, chunk) :: segs =>
      offset ← write_chunk write_offs offset align chunk;
      write_rest write_offs offset segs
  end.
Definition write_segments (write_offs : Z) (segs : list segment) : ST (tftp D) unit :=
  match segs with
  | [] => undefined
  | (align, bytes) :: segs =>
      if (length bytes <? 4)%nat then undefined
      else
        offset ← write_chunk write_offs 0 align (drop 4 bytes);
        write_rest write_offs offset segs
  end.

Definition verify_message (e : verify_error) : list Z :=
  chars match e with
  | UnalignedOffset => "Unaligned flash offset"
  | FlashFail => "Flash fail"
  | MissingMagic => "Missing initial magic"
  | LengthNotModulo4 => "Header length not modulo 4"
  | BadSecondMagic => "Bad second magic"
  | ImageTruncated => "Image truncated"
  | InvalidChecksum => "Invalid checksum"
  end.

(** Lines 387-393: the error message, if the image is refused. *)
Definition check_received (start_offs received_len : Z) : ST (tftp D) (option (list Z)) := fun t =>
  match rboot_verify_image (flash (application t)) chunk0 word0 start_offs with
  | None => None
  | Some (Some e, _) => Some (Some (verify_message e), t)
  | Some (None, image_length) =>
      Some (if image_length =? received_len then None
            else Some (chars "Unknown validation error"), t)
  end.

(** One packet of lines 308-412: [inl] is a return, [inr true] a packet that was
    accepted, [inr false] a repeated one. *)
Definition receive_packet (start_offs write_offs limit_offs block received_len : Z)
    (segs : list segment) : ST (tftp D) (Z + bool) :=
  let opcode := netbuf_read_u16_n stray segs 0 in
  if negb (opcode =? TFTP_OP_DATA) then
    tftp_send_error TFTP_ERR_ILLEGAL (chars "Unknown opcode");; mret (inl ERR_VAL)
  else
    let client_block := netbuf_read_u16_n stray segs 2 in
    if negb (client_block =? block) then
      if client_block =? block - 1 then tftp_send_ack (block - 1);; mret (inr false)
      else tftp_send_error TFTP_ERR_ILLEGAL (chars "Block# out of order");; mret (inl ERR_VAL)
    else
      (if write_offs mod SECTOR_SIZE =? 0 then
         on_app (erase_sector (write_offs / SECTOR_SIZE));; mret () else mret ());;
      let len := netbuf_len segs in
      if limit_offs <=? u32 (write_offs + len) then
        tftp_send_error TFTP_ERR_FULL (chars "Image too large");; mret (inl ERR_VAL)
      else
        write_segments write_offs segs;;
        let received_len := u32 (received_len + (len - 4)) in
        refused ← (if len <? DATA_PACKET_SZ then check_received start_offs received_len
                   else mret None);
        match refused with
        | Some msg => tftp_send_error TFTP_ERR_ILLEGAL msg;; mret (inl ERR_VAL)
        | None =>
            ack_err ← tftp_send_ack block;
            if negb (ack_err =? ERR_OK) then mret (inl ack_err)
            else
              (if receive_cb then st_modify (add_progress received_len) else mret ());;
              if len <? DATA_PACKET_SZ then mret (inl ERR_OK) else mret (inr true)
        end.

(** Lines 292-306, without a packet: the error that is returned, or none after the
    last ACK has been sent again. *)
Definition no_packet (err block retries : Z) : ST (tftp D) (option Z) :=
  if err =? ERR_TIMEOUT then
    if (0 <? retries) && (1 <? block) then tftp_send_ack (block - 1);; mret None
    else tftp_send_error TFTP_ERR_ILLEGAL (chars "Timeout");; mret (Some ERR_TIMEOUT)
  else tftp_send_error TFTP_ERR_ILLEGAL (chars "Failed to receive packet");; mret (Some err).

(** Lines 272-290: a packet, and the connection to its sender. *)
Definition receive_netbuf (peer_addr : option peer)
    : ST (tftp D) (Z * option (peer * list segment)) :=
  (if peer_addr then netconn_disconnect else mret ());;
  '(err, netbuf) ← netconn_recv;
  (match peer_addr, netbuf with
   | None, _ => mret ()
   | Some _, Some (from, _) => netconn_connect from
   | Some p, None => netconn_connect p
   end);;
  mret (err, netbuf).

(** The loop of tftp_receive_data.  [peer_addr] is the server the client asked. *)
Fixpoint receive_loop (fuel : nat) (start_offs write_offs limit_offs block retries received_len : Z)
    (peer_addr : option peer) : ST (tftp D) Z :=
  match fuel with
  | O => out_of_fuel
  | S fuel =>
      '(err, netbuf) ← receive_netbuf peer_addr;
      let peer_addr := match netbuf with Some _ => None | None => peer_addr end in
      match netbuf with
      | None =>
          r ← no_packet err block retries;
          match r with
          | Some err => mret err
          | None =>
              receive_loop fuel start_offs write_offs limit_offs block (retries - 1)
                received_len peer_addr
          end
      | Some (_, segs) =>
          r ← receive_packet start_offs write_offs limit_offs block received_len segs;
          match r with
          | inl err => mret err
          | inr false =>
              receive_loop fuel start_offs write_offs limit_offs block retries received_len peer_addr
          | inr true =>
              receive_loop fuel start_offs (u32 (write_offs + 512)) limit_offs (block + 1)
                TFTP_TIMEOUT_RETRANSMITS (u32 (received_len + (netbuf_len segs - 4))) peer_addr
          end
      end
  end.
Definition tftp_receive_data (fuel : nat) (write_offs limit_offs : Z) (peer_addr : option peer)
    : ST (tftp D) Z :=
  receive_loop fuel write_offs write_offs limit_offs 1 TFTP_TIMEOUT_RETRANSMITS 0 peer_addr.
End receive.

(** ** The server and the client *)

Section tasks.
Context `{FlashDev D} (o : options) (stray : nat -> Z) (chunk0 word0 conf0 : list Z).

(** Lines 173-221: what the server does for a request it accepts, the connection to
    the sender included.  [verify_cb] is the application's check of the slot, if it
    set one. *)
Definition tftp_serve (verify_cb : option (Z -> bool)) (fuel : nat) (from : peer)
    : ST (tftp D) unit :=
  netconn_connect from;;
  conf ← on_app (rboot_get_config o conf0);
  let current_rom := get8 conf cf_current_rom in
  if get8 conf cf_count =? 0 then undefined
  else
    let slot := (current_rom + 1) mod get8 conf cf_count in
    if slot =? current_rom then
      tftp_send_error TFTP_ERR_ILLEGAL (chars "Only one OTA slot!");;
      netconn_disconnect
    else
      ack_err ← tftp_send_ack 0;
      if negb (ack_err =? 0) then netconn_disconnect
      else
        let rom := get32 conf (cf_roms slot) in
        recv_err ← tftp_receive_data stray chunk0 word0 false fuel rom
                     (u32 (rom + MAX_IMAGE_SIZE)) None;
        netconn_disconnect;;
        let reboot := match verify_cb with Some cb => cb slot | None => true end in
        if (recv_err =? ERR_OK) && reboot then
          on_app (rboot_set_current_rom o conf0 slot);;
          st_modify set_restarted
        else mret ().

(** One turn of the server's loop. *)
Definition tftp_turn (verify_cb : option (Z -> bool)) (fuel : nat) : ST (tftp D) unit :=
  '(err, netbuf) ← netconn_recv;
  match netbuf with
  | None => mret ()
  | Some (from, segs) =>
      if netbuf_len segs <? 6 then mret ()
      else if negb (netbuf_read_u16_n stray segs 0 =? TFTP_OP_WRQ) then mret ()
      else
        match tftp_get_field 0 segs with
        | Some filename =>
            if str_equal filename TFTP_FIRMWARE_FILE then
              match tftp_get_field 1 segs with
              | Some mode =>
                  if str_equal mode TFTP_OCTET_MODE then tftp_serve verify_cb fuel from
                  else tftp_send_error TFTP_ERR_ILLEGAL (chars "Mode must be octet/binary")
              | None => tftp_send_error TFTP_ERR_ILLEGAL (chars "Mode must be octet/binary")
              end
            else tftp_send_error TFTP_ERR_FILENOTFOUND (chars "File must be firmware.bin")
        | None => tftp_send_error TFTP_ERR_FILENOTFOUND (chars "File must be firmware.bin")
        end
  end.

(** The do-while loop over the local ports: [n] ports are left after this one. *)
Fixpoint bind_loop (n : nat) : ST (tftp D) Z :=
  t ← st_get;
  let err := default ERR_OK (head (bind_errs t)) in
  st_put {| application := application t; rx := rx t; connected := connected t;
            send_errs := send_errs t; nc_ok := nc_ok t; bind_errs := tail (bind_errs t);
            dns := dns t; tx := tx t; progress := progress t; restarted := restarted t |};;
  match n with
  | O => mret err
  | S n => if err =? ERR_USE then bind_loop n else mret err
  end.

Definition ota_tftp_download (fuel : nat) (port : Z) (filename : list Z) (ota_slot : Z)
    (receive_cb : bool) : ST (tftp D) Z :=
  conf ← on_app (rboot_get_config o conf0);
  if (get8 conf cf_current_rom =? ota_slot) || (get8 conf cf_count <=? ota_slot) then mret ERR_VAL
  else
    let flash_offset := get32 conf (cf_roms ota_slot) in
    t ← st_get;
    if negb (nc_ok t) then mret ERR_IF
    else
      err ← bind_loop 10;
      if negb (err =? 0) then mret err
      else
        let '(err, addr) := dns t in
        if negb (err =? 0) then mret err
        else
          netconn_connect (addr, port);;
          err ← tftp_send_rrq filename;
          if negb (err =? 0) then mret err
          else
            tftp_receive_data stray chunk0 word0 receive_cb fuel flash_offset
              (u32 (flash_offset + MAX_IMAGE_SIZE)) (Some (addr, port)).
End tasks.
