(* ===== verification/TftpReceive.v ===== *)
(** * Receiving an image over TFTP

    [tftp_receive_confined]: whatever packets arrive, the transfer ends, changes
    nothing outside of the slot, and reports success only for an image that
    [rboot_verify_image] accepts.  [tftp_receive_image]: an image sent in blocks, with
    lost and repeated packets in between, ends up in the slot and is acknowledged
    block by block, and the result is the verdict of [rboot_verify_image]. *)

From Stdlib Require Import Sorted.
From S2P Require Import Prelude Flash Rboot RbootApi RbootStream RbootVerify Tftp.
Local Open Scope Z_scope.

(** ** Programming a range of the flash *)

(** [bs] has been written at [a]; up to three bytes after it may have changed. *)
Definition wrote `{FlashDev D} (d : D) (a : Z) (bs : list Z) (d' : D) : Prop :=
  (forall i b, bs !! i = Some b ->
     fbyte d' (a + Z.of_nat i) = Z.land (fbyte d (a + Z.of_nat i)) b) /\
  (forall x, x < a \/ a + round4 (Z.of_nat (length bs)) <= x -> fbyte d' x = fbyte d x).

Section wrote.
Context `{FlashDev D}.

Lemma wrote_nil (d : D) a : wrote d a [] d.
Proof. split; [done|done]. Qed.

Lemma round4_add n m : n mod 4 = 0 -> round4 (n + m) = n + round4 m.
Proof. unfold round4. Z.div_mod_to_equations. lia. Qed.

Lemma wrote_app (d d1 d2 : D) a l k : Z.of_nat (length l) mod 4 = 0 ->
  wrote d a l d1 -> wrote d1 (a + Z.of_nat (length l)) k d2 -> wrote d a (l ++ k) d2.
Proof.
  intros Hl [H1 O1] [H2 O2]. rewrite round4_id in O1 by done. split.
  - intros i b Hi. destruct (decide (i < length l)%nat).
    + rewrite lookup_app_l in Hi by lia. rewrite O2 by lia. by apply H1.
    + rewrite lookup_app_r in Hi by lia. apply H2 in Hi.
      replace (a + Z.of_nat (length l) + Z.of_nat (i - length l)) with (a + Z.of_nat i) in Hi by lia.
      rewrite Hi. rewrite (O1 (a + Z.of_nat i)) by lia. done.
  - intros x Hx. rewrite length_app, Nat2Z.inj_add, round4_add in Hx by done.
    pose proof (round4_range (Z.of_nat (length k))). rewrite O2, O1 by lia. done.
Qed.

Lemma wrote_out (d d' : D) a bs lo hi :
  wrote d a bs d' -> lo <= a -> a + round4 (Z.of_nat (length bs)) <= hi ->
  forall x, x < lo \/ hi <= x -> fbyte d' x = fbyte d x.
Proof. intros [_ O] ?? x ?. apply O. lia. Qed.
End wrote.

(** ** Writing a packet *)

(** The chunks that write_segments writes: all but the last are whole words, and a
    misaligned one is at least a word. *)
Fixpoint chunks_ok (cs : list segment) : Prop :=
  match cs with
  | [] => True
  | [(align, c)] => align = 0 \/ c = [] \/ (4 <= length c)%nat
  | (_, c) :: cs => Z.of_nat (length c) mod 4 = 0 /\ chunks_ok cs
  end.
Definition payload_segs (segs : list segment) : list segment :=
  match segs with
  | [] => []
  | (align, b) :: segs => (align, drop 4 b) :: segs
  end.

(** A packet as the code assumes it: the header is in the first segment. *)
Definition segs_ok (segs : list segment) : Prop :=
  (exists align b rest, segs = (align, b) :: rest /\ (4 <= length b)%nat) /\
  chunks_ok (payload_segs segs) /\ Z.of_nat (length (netbuf_bytes segs)) < 65536.

Section receive.
Context `{FlashOk D} (Hsector : sector_size sdk_flashchip = SECTOR_SIZE).
Context (stray : nat -> Z) (chunk0 word0 : list Z).
Implicit Types (t : tftp D) (d : D).

Definition tflash t : D := flash (application t).
Definition with_flash d t : tftp D := set_app (App d (heap (application t))) t.

Lemma with_flash_same t : with_flash (tflash t) t = t.
Proof. by destruct t as [[]]. Qed.
Lemma with_flash_twice d d' t : with_flash d' (with_flash d t) = with_flash d' t.
Proof. done. Qed.

Lemma write_flash_run t a src n :
  0 <= a -> a mod 4 = 0 -> 0 <= n <= Z.of_nat (length src) -> n = Z.of_nat (length src) ->
  a + round4 n <= chip_size sdk_flashchip ->
  exists d', on_app (write_flash a src n) t = Some (SPI_FLASH_RESULT_OK, with_flash d' t) /\
    wrote (tflash t) a src d'.
Proof.
  intros Ha Ha4 Hn En Hfit. destruct (flash_write_ok (tflash t) a src n Ha Ha4 Hn Hfit) as (d' & E & Hi & Ho).
  exists d'. split.
  - unfold on_app, write_flash. fold (tflash t). by rewrite E.
  - split; [|by rewrite <- En]. intros i b Hb. apply Hi; [done|].
    apply lookup_lt_Some in Hb. lia.
Qed.

Lemma write_chunk_run t w off align c :
  0 <= w -> 0 <= off -> (w + off) mod 4 = 0 -> align = 0 \/ c = [] \/ (4 <= length c)%nat ->
  w + off + round4 (Z.of_nat (length c)) <= chip_size sdk_flashchip ->
  exists d', write_chunk w off align c t = Some (off + Z.of_nat (length c), with_flash d' t) /\
    wrote (tflash t) (w + off) c d'.
Proof.
  intros ?? Ha Hal Hfit. pose proof (chip_facts Hsector) as (_ & Hc & _).
  pose proof (round4_range (Z.of_nat (length c))) as Hr.
  unfold write_chunk. destruct (negb _ && negb _) eqn:E.
  - zbool. assert (4 <= length c)%nat as Hl.
    { destruct Hal as [?|[->|?]]; [done| |done]. done. }
    rewrite (proj2 (Z.ltb_ge _ _)) by lia.
    rewrite !u32_small by lia.
    destruct (write_flash_run t (w + off) (take 4 c) 4) as (d1 & E1 & W1);
      [lia|done|rewrite length_take; lia|rewrite length_take; lia|change (round4 4) with 4; lia|].
    rewrite (bind_run _ _ _ _ _ E1).
    assert (round4 (Z.of_nat (length c)) = 4 + round4 (Z.of_nat (length c) - 4)) as Er.
    { rewrite <- round4_add by done. f_equal. lia. }
    destruct (write_flash_run (with_flash d1 t) (w + (off + 4)) (drop 4 c) (Z.of_nat (length c) - 4))
      as (d2 & E2 & W2); [lia| |rewrite length_drop; lia|rewrite length_drop; lia| |].
    { replace (w + (off + 4)) with (w + off + 1 * 4) by lia. by rewrite Z.mod_add. }
    { lia. }
    rewrite (bind_run _ _ _ _ _ E2). exists d2. split; [done|].
    rewrite <- (take_drop 4 c). eapply wrote_app; [rewrite length_take; by replace (Nat.min 4 (length c)) with 4%nat by lia|exact W1|].
    rewrite length_take. replace (Nat.min 4 (length c)) with 4%nat by lia.
    by replace (w + off + Z.of_nat 4) with (w + (off + 4)) by lia.
  - rewrite u32_small by lia.
    destruct (write_flash_run t (w + off) c (Z.of_nat (length c))) as (d1 & E1 & W1); [lia|done|lia|done|lia|].
    rewrite (bind_run _ _ _ _ _ E1). by exists d1.
Qed.

Lemma write_rest_run cs t w off :
  0 <= w -> 0 <= off -> (cs <> [] -> (w + off) mod 4 = 0) -> chunks_ok cs ->
  w + off + round4 (Z.of_nat (length (netbuf_bytes cs))) <= chip_size sdk_flashchip ->
  exists d', write_rest w off cs t = Some ((), with_flash d' t) /\
    wrote (tflash t) (w + off) (netbuf_bytes cs) d'.
Proof.
  revert t off; induction cs as [|[align c] cs IH]; intros t off Hw Hoff Ha Hok Hfit.
  { exists (tflash t). rewrite with_flash_same. split; [done|apply wrote_nil]. }
  change (netbuf_bytes ((align, c) :: cs)) with (c ++ netbuf_bytes cs) in *.
  assert (Hc : (cs = [] /\ (align = 0 \/ c = [] \/ (4 <= length c)%nat)) \/
               Z.of_nat (length c) mod 4 = 0 /\ chunks_ok cs).
  { destruct cs; [left|right]; done. }
  cbn [write_rest]. rewrite length_app, Nat2Z.inj_add in Hfit.
  destruct Hc as [[-> Hc]|[Hc Hok']].
  - change (netbuf_bytes []) with (@nil Z) in *. rewrite app_nil_r. simpl in Hfit. rewrite Z.add_0_r in Hfit.
    destruct (write_chunk_run t w off align c) as (d' & E & W); auto.
    rewrite (bind_run _ _ _ _ _ E). by exists d'.
  - rewrite round4_add in Hfit by done.
    pose proof (round4_range (Z.of_nat (length (netbuf_bytes cs)))).
    destruct (write_chunk_run t w off align c) as (d1 & E & W); auto.
    { destruct c as [|x [|y [|z [|? c]]]]; auto; try (simpl in Hc; done). right. right. simpl. lia. }
    { rewrite round4_id by done. lia. }
    rewrite (bind_run _ _ _ _ _ E).
    destruct (IH (with_flash d1 t) (off + Z.of_nat (length c))) as (d2 & E2 & W2); auto; try lia.
    { intros _. rewrite Z.add_assoc, Z.add_mod, Ha, Hc by (done || lia). done. }
    rewrite E2. exists d2. split; [done|]. eapply wrote_app; [done|exact W|].
    by rewrite <- Z.add_assoc.
Qed.

Lemma write_segments_run segs t w :
  segs_ok segs -> 0 <= w -> w mod 4 = 0 ->
  w + round4 (Z.of_nat (length (netbuf_bytes segs)) - 4) <= chip_size sdk_flashchip ->
  exists d', write_segments w segs t = Some ((), with_flash d' t) /\
    wrote (tflash t) w (drop 4 (netbuf_bytes segs)) d'.
Proof.
  intros ((align & b & rest & -> & Hb) & Hok & _) Hw Hw4 Hfit.
  assert (E4 : drop 4 (netbuf_bytes ((align, b) :: rest)) = netbuf_bytes (payload_segs ((align, b) :: rest))).
  { unfold netbuf_bytes. simpl. by rewrite drop_app_le by lia. }
  assert (Hlen : Z.of_nat (length (netbuf_bytes (payload_segs ((align, b) :: rest)))) =
                 Z.of_nat (length (netbuf_bytes ((align, b) :: rest))) - 4).
  { rewrite <- E4, length_drop. unfold netbuf_bytes. simpl. rewrite length_app. lia. }
  destruct (write_rest_run (payload_segs ((align, b) :: rest)) t w 0) as (d' & E & W); auto; try lia.
  { intros _. by rewrite Z.add_0_r. }
  { rewrite Hlen. lia. }
  rewrite Z.add_0_r in W. exists d'. rewrite E4. split; [|done].
  unfold write_segments. destruct (Nat.ltb_spec (length b) 4); [lia|]. exact E.
Qed.

(** ** One packet *)

(** What lines 332-334 do to the flash. *)
Definition sector_started (w : Z) d d1 : Prop :=
  (forall x, x < w \/ w + SECTOR_SIZE <= x -> fbyte d1 x = fbyte d x) /\
  (w mod SECTOR_SIZE = 0 -> forall x, w <= x < w + SECTOR_SIZE -> fbyte d1 x = 255) /\
  (w mod SECTOR_SIZE <> 0 -> d1 = d).

Lemma start_sector_run t w : 0 <= w < chip_size sdk_flashchip ->
  exists d1, (if w mod SECTOR_SIZE =? 0 then
                on_app (erase_sector (w / SECTOR_SIZE));; mret () else mret ()) t =
      Some ((), with_flash d1 t) /\ sector_started w (tflash t) d1.
Proof.
  intros Hw. pose proof (chip_facts Hsector) as (Hm & Hc & Hs).
  destruct (Z.eqb_spec (w mod SECTOR_SIZE) 0) as [E|E].
  - assert (Hsec : 0 <= w / SECTOR_SIZE < chip_size sdk_flashchip / SECTOR_SIZE).
    { unfold SECTOR_SIZE in *. Z.div_mod_to_equations. lia. }
    assert (Ew : w / SECTOR_SIZE * SECTOR_SIZE = w) by (unfold SECTOR_SIZE in *; Z.div_mod_to_equations; lia).
    destruct (flash_erase_ok (tflash t) (w / SECTOR_SIZE)) as (d' & Er & Hin & Hout); [by rewrite Hsector|].
    rewrite Hsector in Hin, Hout. rewrite Z.mul_add_distr_r, Ew, Z.mul_1_l in Hin, Hout.
    exists d'. split.
    + unfold on_app, erase_sector, mbind, st_bind. rewrite u16_small by lia. fold (tflash t).
      by rewrite Er.
    + split; [exact Hout|]. split; [by intros _|done].
  - exists (tflash t). rewrite with_flash_same. split; [done|]. split; [done|]. by split.
Qed.

(** The flash after a packet has been stored at [w]. *)
Definition stored (w : Z) (payload : list Z) d d' : Prop :=
  exists d1, sector_started w d d1 /\ wrote d1 w payload d'.

Lemma stored_out w payload d d' : 0 <= Z.of_nat (length payload) <= 512 -> w mod 512 = 0 ->
  stored w payload d d' -> forall x, x < w \/ sector_up (w + 512) <= x -> fbyte d' x = fbyte d x.
Proof.
  intros Hl Hw (d1 & (Ho & Hin & Hno) & W) x Hx.
  pose proof (round4_range (Z.of_nat (length payload))).
  assert (round4 (Z.of_nat (length payload)) <= 512) as Hr.
  { unfold round4. Z.div_mod_to_equations. lia. }
  pose proof (sector_up_range (w + 512)).
  destruct W as [_ W]. rewrite W by lia.
  destruct (Z.eq_dec (w mod SECTOR_SIZE) 0) as [E|E]; [|by rewrite (Hno E)].
  apply Ho. destruct Hx; [by left|right].
  unfold sector_up, SECTOR_SIZE in *. Z.div_mod_to_equations. lia.
Qed.

(** Everything but the flash, the packets and the callbacks is as before. *)
Definition same_world t t' : Prop :=
  heap (application t') = heap (application t) /\ restarted t' = restarted t.

Lemma receive_packet_run cb start w lim block received segs t :
  segs_ok segs -> 0 <= w < chip_size sdk_flashchip -> w mod 512 = 0 ->
  0 <= lim <= chip_size sdk_flashchip ->
  exists r t', receive_packet stray chunk0 word0 cb start w lim block received segs t = Some (r, t') /\
    same_world t t' /\ rx t' = rx t /\
    (tflash t' = tflash t \/ sector_started w (tflash t) (tflash t') \/
     (w + Z.of_nat (length (netbuf_bytes segs)) < lim /\
      stored w (drop 4 (netbuf_bytes segs)) (tflash t) (tflash t'))) /\
    (r = inl ERR_OK -> exists n, rboot_verify_image (tflash t') chunk0 word0 start = Some (None, n)) /\
    (r = inr false -> tflash t' = tflash t) /\
    (r = inr true -> w + 512 + 4 < lim /\ 512 <= Z.of_nat (length (netbuf_bytes segs)) - 4).
Proof.
  intros Hs Hw Hw512 Hlim. pose proof (chip_facts Hsector) as (_ & Hc & _).
  unfold receive_packet. destruct (negb (_ =? TFTP_OP_DATA)).
  { do 2 eexists. split; [reflexivity|]. split_and!; try done; by left. }
  destruct (negb (_ =? block)).
  { destruct (_ =? block - 1); do 2 eexists; (split; [reflexivity|]); split_and!; try done; by left. }
  destruct (start_sector_run t w Hw) as (d1 & E1 & S1). rewrite (bind_run _ _ _ _ _ E1).
  pose proof Hs as ((al & b & rest & Es & Hb) & Hch & Hlen).
  set (len := Z.of_nat (length (netbuf_bytes segs))) in *.
  assert (Hl4 : 4 <= len).
  { unfold len. rewrite Es. unfold netbuf_bytes. simpl. rewrite length_app. lia. }
  assert (Elen : netbuf_len segs = len) by (unfold netbuf_len; apply u16_small; fold len; lia).
  rewrite Elen, u32_small by lia. destruct (Z.leb_spec lim (w + len)).
  { do 2 eexists. split; [reflexivity|]. split_and!; try done. right; by left. }
  pose proof (round4_range (len - 4)).
  destruct (write_segments_run segs (with_flash d1 t) w Hs) as (d2 & E2 & W2); [lia| |fold len; lia|].
  { Z.div_mod_to_equations. lia. }
  rewrite (bind_run _ _ _ _ _ E2). rewrite with_flash_twice.
  assert (Hst : stored w (drop 4 (netbuf_bytes segs)) (tflash t) d2) by by exists d1.
  set (t2 := with_flash d2 t).
  assert (Hchk : exists refused, (if len <? DATA_PACKET_SZ then
      check_received chunk0 word0 start (u32 (received + (len - 4))) else mret None) t2 = Some (refused, t2) /\
    (len < DATA_PACKET_SZ -> refused = None -> exists n,
       rboot_verify_image (tflash t2) chunk0 word0 start = Some (None, n))).
  { destruct (Z.ltb_spec len DATA_PACKET_SZ); [|eexists; split; [done|lia]].
    unfold check_received. fold (tflash t2).
    destruct (verify_image_returns (tflash t2) chunk0 word0 start) as [[[e|] n] ->];
      eexists; (split; [reflexivity|]); [done|]. by eexists. }
  destruct Hchk as (refused & Ec & Hv). rewrite (bind_run _ _ _ _ _ Ec).
  destruct refused as [msg|].
  { do 2 eexists. split; [reflexivity|]. split_and!; try done. right; by right. }
  unfold tftp_send_ack, netconn_send. unfold mbind at 1, st_bind at 1.
  set (e := default ERR_OK _). destruct (Z.eqb_spec e ERR_OK) as [Ee|Ee]; cbn [negb].
  2:{ do 2 eexists. split; [reflexivity|]. split_and!; try done; [right; by right|].
      intros [= Ei]. by rewrite Ei in Ee. }
  cbn beta iota. destruct cb, (Z.ltb_spec len DATA_PACKET_SZ) as [Hlt|Hge];
    (do 2 eexists; split; [reflexivity|]); split_and!; try done; try (right; by right); intros _.
  all: first [by destruct (Hv Hlt eq_refl) as [n Hn]; exists n | unfold DATA_PACKET_SZ in Hge; lia].
Qed.

(** ** Any packets *)

Definition event_ok (ev : rx_event) : Prop :=
  match ev with
  | RxTimeout => True
  | RxErr e => e <> ERR_OK
  | RxPacket _ segs => segs_ok segs
  end.

(** The state after netconn_recv and the calls around it. *)
Lemma recv_run (p : option peer) t :
  exists err netbuf t1, receive_netbuf p t = Some ((err, netbuf), t1) /\
    application t1 = application t /\ restarted t1 = restarted t /\
    match rx t with
    | [] => err = ERR_TIMEOUT /\ netbuf = None /\ rx t1 = []
    | ev :: r => rx t1 = r /\
        match ev with
        | RxTimeout => err = ERR_TIMEOUT /\ netbuf = None
        | RxErr e => err = e /\ netbuf = None
        | RxPacket from segs => err = ERR_OK /\ netbuf = Some (from, segs)
        end
    end.
Proof.
  destruct p as [p|]; destruct t as [a [|[|e|from segs] r] c s ok be dn x pr b];
    do 3 eexists; (split; [reflexivity|]); simpl; auto.
Qed.

(** The flash outside of the megabyte that starts at [start] is as before. *)
Definition only_slot (start : Z) d d' : Prop :=
  forall x, x < start \/ start + MAX_IMAGE_SIZE <= x -> fbyte d' x = fbyte d x.

Lemma only_slot_trans start d1 d2 d3 : only_slot start d1 d2 -> only_slot start d2 d3 -> only_slot start d1 d3.
Proof. intros H1 H2 x ?. by rewrite H2, H1. Qed.

Lemma packet_confined start j w d d' payload : start mod SECTOR_SIZE = 0 ->
  0 <= j -> w = start + 512 * j -> w < start + MAX_IMAGE_SIZE ->
  d' = d \/ sector_started w d d' \/
    (w + 4 + Z.of_nat (length payload) < start + MAX_IMAGE_SIZE /\ stored w payload d d') ->
  only_slot start d d'.
Proof.
  intros Hs Hj Ew Hw Hd x Hx.
  assert (Hsec : forall d1, sector_started w d d1 -> fbyte d1 x = fbyte d x).
  { intros d1 (Ho & _ & Hno). destruct (Z.eq_dec (w mod SECTOR_SIZE) 0) as [E|E]; [|by rewrite (Hno E)].
    apply Ho. unfold SECTOR_SIZE, MAX_IMAGE_SIZE in *. destruct Hx; [lia|right].
    Z.div_mod_to_equations. lia. }
  destruct Hd as [->|[Hd|[Hl (d1 & Hs1 & [_ W])]]]; [done|by apply Hsec|].
  pose proof (round4_range (Z.of_nat (length payload))).
  rewrite W by lia. by apply Hsec.
Qed.

(** The number of turns that are enough. *)
Definition turns t (retries : Z) : Z := 11 * Z.of_nat (length (rx t)) + retries.

Lemma receive_loop_confined cb start : start mod SECTOR_SIZE = 0 -> 0 <= start ->
  start + MAX_IMAGE_SIZE <= chip_size sdk_flashchip ->
  forall fuel t j block retries received p,
  Forall event_ok (rx t) -> 0 <= j -> 0 <= retries <= TFTP_TIMEOUT_RETRANSMITS ->
  512 * j < MAX_IMAGE_SIZE -> turns t retries < Z.of_nat fuel ->
  exists err t',
    receive_loop stray chunk0 word0 cb fuel start (start + 512 * j) (start + MAX_IMAGE_SIZE) block
      retries received p t = Some (err, t') /\
    same_world t t' /\ only_slot start (tflash t) (tflash t') /\
    (err = ERR_OK -> exists n, rboot_verify_image (tflash t') chunk0 word0 start = Some (None, n)).
Proof.
  intros Hst Hst0 Hfit. pose proof (chip_facts Hsector) as (_ & Hc & _).
  unfold turns, TFTP_TIMEOUT_RETRANSMITS.
  induction fuel as [|fuel IH]; intros t j block retries received p Hrx Hj Hre Hjm Hf; [lia|].
  cbn [receive_loop]. destruct (recv_run p t) as (err & netbuf & t1 & E & Ha & Hres & Hev).
  rewrite (bind_run _ _ _ _ _ E). clear E.
  assert (Hfl : tflash t1 = tflash t) by (unfold tflash; by rewrite Ha).
  assert (Hsame : same_world t t1) by (split; congruence).
  assert (Hcase : (netbuf = None /\ err <> ERR_OK /\ Forall event_ok (rx t1) /\
      11 * Z.of_nat (length (rx t1)) <= 11 * Z.of_nat (length (rx t))) \/
    exists from segs, netbuf = Some (from, segs) /\ segs_ok segs /\ Forall event_ok (rx t1) /\
      Z.of_nat (length (rx t)) = Z.of_nat (length (rx t1)) + 1).
  { destruct (rx t) as [|ev r]; [left; by destruct Hev as (-> & -> & ->)|].
    apply Forall_cons in Hrx as [Hok Hrx]. destruct Hev as [<- Hev].
    destruct ev as [|e|from segs]; destruct Hev as [-> ->]; [left|left|right].
    - split_and!; try done. simpl. lia.
    - split_and!; try done. simpl. lia.
    - exists from, segs. split_and!; try done. simpl. lia. }
  destruct Hcase as [(-> & Hne & Hrx1 & Hl)|(from & segs & -> & Hs & Hrx1 & Hl)].
  - unfold no_packet. destruct (Z.eqb_spec err ERR_TIMEOUT) as [->|Hnt].
    2:{ do 2 eexists. split; [reflexivity|]. split_and!; [done..| |done]. simpl. by rewrite <- Hfl. }
    destruct (Z.ltb_spec 0 retries); cbn [andb].
    2:{ do 2 eexists. split; [reflexivity|]. split_and!; [done..| |done]. simpl. by rewrite <- Hfl. }
    destruct (1 <? block).
    2:{ do 2 eexists. split; [reflexivity|]. split_and!; [done..| |done]. simpl. by rewrite <- Hfl. }
    rewrite (bind_run _ _ _ None (set_sent (tail (send_errs t1))
      (tx t1 ++ [(connected t1, be16 TFTP_OP_ACK ++ be16 (u16 (block - 1)))]) t1) eq_refl).
    destruct (IH (set_sent (tail (send_errs t1))
      (tx t1 ++ [(connected t1, be16 TFTP_OP_ACK ++ be16 (u16 (block - 1)))]) t1)
      j block (retries - 1) received p) as (err' & t' & E' & [Hh' Hr'] & Ho' & Hv');
      [exact Hrx1|lia|lia|lia|simpl; lia|].
    exists err', t'. rewrite <- Hfl. split_and!; auto. split; [rewrite Hh'|rewrite Hr']; apply Hsame.
  - destruct (receive_packet_run cb start (start + 512 * j) (start + MAX_IMAGE_SIZE) block received
      segs t1) as (r & t2 & E2 & [Hh2 Hr2] & Hrx2 & Hd & Hok & _ & Hmore); auto.
    { lia. }
    { unfold SECTOR_SIZE in Hst. Z.div_mod_to_equations. lia. }
    { unfold MAX_IMAGE_SIZE in *. lia. }
    rewrite (bind_run _ _ _ _ _ E2).
    assert (Ho2 : only_slot start (tflash t) (tflash t2)).
    { rewrite <- Hfl. apply (packet_confined start j (start + 512 * j) _ _ (drop 4 (netbuf_bytes segs)));
        auto; [lia|]. destruct Hs as ((al & b & rest & Es & Hb) & _).
      assert (4 <= length (netbuf_bytes segs))%nat
        by (rewrite Es; unfold netbuf_bytes; simpl; rewrite length_app; lia).
      destruct Hd as [?|[?|[Hlt Hst2]]]; [by left|right; by left|right; right]. split; [|done].
      rewrite length_drop. lia. }
    assert (Hs2 : same_world t t2) by (destruct Hsame; split; congruence).
    destruct r as [err'|[]].
    + exists err', t2. split; [done|]. split_and!; auto. intros ->. by apply Hok.
    + specialize (Hmore eq_refl) as [Hmore _].
      replace (u32 (start + 512 * j + 512)) with (start + 512 * (j + 1))
        by (unfold MAX_IMAGE_SIZE in *; rewrite u32_small; lia).
      destruct (IH t2 (j + 1) (block + 1) 10 (u32 (received + (netbuf_len segs - 4))) None)
        as (err' & t' & E' & [Hh' Hr'] & Ho' & Hv'); [by rewrite Hrx2|lia|lia|lia|rewrite Hrx2; lia|].
      exists err', t'. split_and!; auto; [|by eapply only_slot_trans].
      destruct Hs2; split; congruence.
    + destruct (IH t2 j block retries received None) as (err' & t' & E' & [Hh' Hr'] & Ho' & Hv');
        [by rewrite Hrx2|lia|lia|lia|rewrite Hrx2; lia|].
      exists err', t'. split_and!; auto; [|by eapply only_slot_trans].
      destruct Hs2; split; congruence.
Qed.

(** Whatever packets arrive, tftp_receive_data returns, changes nothing in the
    flash outside of the megabyte of the slot, and returns ERR_OK only when
    rboot_verify_image accepts what the slot then holds. *)
Lemma tftp_receive_confined cb start p t fuel :
  start mod SECTOR_SIZE = 0 -> 0 <= start -> start + MAX_IMAGE_SIZE <= chip_size sdk_flashchip ->
  Forall event_ok (rx t) -> 11 * Z.of_nat (length (rx t)) + 11 <= Z.of_nat fuel ->
  exists err t',
    tftp_receive_data stray chunk0 word0 cb fuel start (start + MAX_IMAGE_SIZE) p t = Some (err, t') /\
    same_world t t' /\ only_slot start (tflash t) (tflash t') /\
    (err = ERR_OK -> exists n, rboot_verify_image (tflash t') chunk0 word0 start = Some (None, n)).
Proof.
  intros Hst Hst0 Hfit Hrx Hf. unfold tftp_receive_data.
  destruct (receive_loop_confined cb start Hst Hst0 Hfit fuel t 0 1 TFTP_TIMEOUT_RETRANSMITS 0 p)
    as (err & t' & E & Hrest); auto; try (unfold TFTP_TIMEOUT_RETRANSMITS, MAX_IMAGE_SIZE, turns; lia).
  replace (start + 512 * 0) with start in E by lia. by exists err, t'.
Qed.

(** ** An image in blocks *)

(** A DATA packet. *)
Definition data_packet (block : Z) (payload : list Z) (segs : list segment) : Prop :=
  netbuf_bytes segs = be16 TFTP_OP_DATA ++ be16 block ++ payload /\ segs_ok segs.

(** What may arrive before block [k]: timeouts (at most ten, and none before the
    first block, which is not asked for again) and repetitions of the block before
    it. *)
Definition noise_event (k : Z) (ev : rx_event) : Prop :=
  match ev with
  | RxTimeout => True
  | RxErr _ => False
  | RxPacket _ segs => exists payload, data_packet (k - 1) payload segs
  end.
Definition is_timeout (ev : rx_event) : bool := match ev with RxTimeout => true | _ => false end.
Definition noise_ok (k : Z) (evs : list rx_event) : Prop :=
  Forall (noise_event k) evs /\
  Z.of_nat (count_occ Bool.bool_dec (map is_timeout evs) true) <= (if k =? 1 then 0 else 10).

(** The events in which the blocks [bs] arrive, the first of them as number [k]. *)
Inductive delivers : Z -> list (list Z) -> list rx_event -> Prop :=
  | delivers_nil k : delivers k [] []
  | delivers_block k noise from segs payload bs evs :
      noise_ok k noise -> data_packet k payload segs -> delivers (k + 1) bs evs ->
      delivers k (payload :: bs) (noise ++ RxPacket from segs :: evs).

(** An image as [n] full blocks and a shorter last one. *)
Fixpoint blocks (n : nat) (img : list Z) : list (list Z) :=
  match n with
  | O => [img]
  | S n => take 512 img :: blocks n (drop 512 img)
  end.
Definition image_blocks (img : list Z) : list (list Z) := blocks (length img / 512) img.

(** The flash when the bytes [sent] of an image have been stored at [start] and the
    sectors below [hi] have been erased. *)
Record partial (start : Z) (d0 : D) (sent : list Z) (hi : Z) (d : D) : Prop := {
  pa_image : forall i b, sent !! i = Some b -> fbyte d (start + Z.of_nat i) = b;
  pa_blank : forall x, start + round4 (Z.of_nat (length sent)) <= x < hi -> fbyte d x = 255;
  pa_out : forall x, x < start \/ hi <= x -> fbyte d x = fbyte d0 x
}.

Lemma partial_start start d : partial start d [] start d.
Proof.
  split; [done| |done]. intros x. change (Z.of_nat (length (@nil Z))) with 0.
  change (round4 0) with 0. lia.
Qed.

(** The sectors erased when [w] bytes of the flash have been passed. *)
Lemma sector_up_block w n : w mod 512 = 0 -> 0 <= n <= 512 ->
  w + 512 <= sector_up (w + 1) /\ (0 < n -> sector_up (w + n) = sector_up (w + 1)) /\
  (w mod SECTOR_SIZE = 0 -> sector_up w = w /\ sector_up (w + 1) = w + SECTOR_SIZE) /\
  (w mod SECTOR_SIZE <> 0 -> sector_up (w + 1) = sector_up w).
Proof. unfold sector_up, SECTOR_SIZE. intros. Z.div_mod_to_equations. lia. Qed.

(** One more block. *)
Lemma partial_block start d0 sent payload d d' w :
  w = start + Z.of_nat (length sent) -> w mod 512 = 0 -> Z.of_nat (length sent) mod 4 = 0 ->
  Z.of_nat (length payload) <= 512 -> Forall is_byte payload ->
  partial start d0 sent (sector_up w) d -> stored w payload d d' ->
  partial start d0 (sent ++ payload) (sector_up (w + 1)) d'.
Proof.
  intros Ew Hw Hm Hl Hb [Him Hbl Hou] (d1 & (Ho & Hin & Hno) & [W1 W2]).
  set (n := Z.of_nat (length payload)) in *.
  rewrite round4_id in Hbl by done. rewrite <- Ew in Hbl.
  assert (Hn : n <= round4 n <= 512).
  { pose proof (round4_range n). split; [lia|]. unfold round4. Z.div_mod_to_equations. lia. }
  destruct (sector_up_block w n Hw ltac:(lia)) as (Hup & Hupn & Hup0 & Hup1).
  assert (Hblank : forall x, w <= x < sector_up (w + 1) -> fbyte d1 x = 255).
  { intros x Hx. destruct (Z.eq_dec (w mod SECTOR_SIZE) 0) as [E|E].
    - apply Hin; [done|]. destruct (Hup0 E). lia.
    - rewrite (Hno E). apply Hbl. rewrite <- Hup1; auto. }
  assert (Hlow : forall x, x < w -> fbyte d1 x = fbyte d x) by (intros; apply Ho; by left).
  assert (Hhigh : forall x, sector_up (w + 1) <= x -> fbyte d1 x = fbyte d x /\ sector_up w <= x).
  { intros x Hx. destruct (Z.eq_dec (w mod SECTOR_SIZE) 0) as [E|E].
    - destruct (Hup0 E) as [E1 E2]. split; [apply Ho; right|]; lia.
    - rewrite <- (Hup1 E). by rewrite (Hno E). }
  split.
  - intros i b Hi. destruct (decide (i < length sent)%nat).
    + rewrite lookup_app_l in Hi by lia. rewrite W2 by lia. rewrite Hlow by lia. by apply Him.
    + rewrite lookup_app_r in Hi by lia. pose proof (lookup_lt_Some _ _ _ Hi).
      replace (start + Z.of_nat i) with (w + Z.of_nat (i - length sent)) by lia.
      rewrite (W1 _ _ Hi), Hblank by lia. apply land_byte_255. by eapply Forall_lookup_1.
  - intros x Hx. rewrite length_app, Nat2Z.inj_add, round4_add in Hx by done. fold n in Hx.
    rewrite W2 by lia. apply Hblank. lia.
  - intros x Hx. rewrite W2 by lia. destruct Hx as [Hx|Hx].
    + rewrite Hlow by lia. apply Hou. by left.
    + destruct (Hhigh x Hx) as [-> ?]. apply Hou. by right.
Qed.

(** ** The transfer of an image *)

Definition ack_bytes (j : Z) : list Z := be16 TFTP_OP_ACK ++ be16 (u16 j).
Definition all_sent t : Prop := Forall (fun e => e = ERR_OK) (send_errs t).

(** [t'] comes after [t]: the acknowledgements [js] have been sent. *)
Definition acked t (js : list Z) t' : Prop :=
  same_world t t' /\ all_sent t' /\ map snd (tx t') = map snd (tx t) ++ map ack_bytes js.

Lemma acked_trans t1 js t2 ks t3 : acked t1 js t2 -> acked t2 ks t3 -> acked t1 (js ++ ks) t3.
Proof.
  intros ([H1 R1] & _ & T1) ([H2 R2] & A2 & T2). split_and!; [split; congruence|done|].
  by rewrite T2, T1, map_app, app_assoc.
Qed.

Lemma data_packet_fields k payload segs : 0 <= k < 65536 -> data_packet k payload segs ->
  netbuf_read_u16_n stray segs 0 = TFTP_OP_DATA /\ netbuf_read_u16_n stray segs 2 = k /\
  netbuf_len segs = 4 + Z.of_nat (length payload) /\ drop 4 (netbuf_bytes segs) = payload.
Proof.
  intros Hk [E (_ & _ & Hl)]. unfold netbuf_len, netbuf_read_u16_n. rewrite E in *.
  rewrite !length_app in *. simpl in Hl. split_and!; [done| |rewrite u16_small; simpl; lia|done].
  simpl. Z.div_mod_to_equations. lia.
Qed.

Lemma send_ack_run t j : all_sent t ->
  exists t', tftp_send_ack j t = Some (ERR_OK, t') /\ acked t [j] t' /\
    tflash t' = tflash t /\ rx t' = rx t.
Proof.
  intros Ha. exists (set_sent (tail (send_errs t)) (tx t ++ [(connected t, ack_bytes j)]) t).
  split; [|split; [|done]].
  - unfold tftp_send_ack, netconn_send. destruct (send_errs t) as [|e l] eqn:E; [done|].
    unfold all_sent in Ha. rewrite E in Ha. apply Forall_cons in Ha as [-> _]. done.
  - split_and!; [done| |].
    + unfold all_sent in *. simpl. destruct (send_errs t); [done|]. by apply Forall_cons in Ha as [].
    + simpl. by rewrite map_app.
Qed.

Lemma recv_event p t ev r : rx t = ev :: r -> (match ev with RxErr _ => False | _ => True end) ->
  exists t1, receive_netbuf p t = Some (match ev with
      | RxPacket from segs => (ERR_OK, Some (from, segs))
      | _ => (ERR_TIMEOUT, None)
      end, t1) /\ rx t1 = r /\ tflash t1 = tflash t /\ (all_sent t -> acked t [] t1).
Proof.
  intros E Hev. destruct t as [a rx0 c s ok be dn x pr b]. simpl in E. subst rx0.
  unfold acked, tflash. destruct p as [p|], ev as [|e|from segs]; try done;
    (eexists; split; [reflexivity|]; simpl; rewrite app_nil_r; split_and!; auto; done).
Qed.

(** Timeouts and repeated packets only cause acknowledgements. *)
Lemma noise_run cb start w lim k noise : 1 <= k < 65536 ->
  forall fuel t r retries received p,
  Forall (noise_event k) noise ->
  Z.of_nat (count_occ Bool.bool_dec (map is_timeout noise) true) <= (if k =? 1 then 0 else retries) ->
  rx t = noise ++ r -> all_sent t ->
  exists t1 retries' p',
    receive_loop stray chunk0 word0 cb (length noise + fuel) start w lim k retries received p t =
    receive_loop stray chunk0 word0 cb fuel start w lim k retries' received p' t1 /\
    rx t1 = r /\ tflash t1 = tflash t /\ acked t (replicate (length noise) (k - 1)) t1.
Proof.
  intros Hk. induction noise as [|ev noise IH]; intros fuel t r retries received p Hn Hc Hrx Hs.
  { exists t, retries, p. split_and!; try done. unfold acked. simpl. by rewrite app_nil_r. }
  apply Forall_cons in Hn as [Hev Hn]. simpl in Hrx.
  destruct (recv_event p t ev (noise ++ r) Hrx) as (t1 & E1 & Hrx1 & Hf1 & Ha1); [by destruct ev|].
  specialize (Ha1 Hs). assert (Hs1 : all_sent t1) by apply Ha1.
  destruct (send_ack_run t1 (k - 1) Hs1) as (t2 & E2 & Ha2 & Hf2 & Hrx2).
  assert (Hs2 : all_sent t2) by apply Ha2. pose proof (acked_trans _ _ _ _ _ Ha1 Ha2) as Ha12.
  cbn [length Nat.add receive_loop]. rewrite (bind_run _ _ _ _ _ E1).
  assert (Hgo : forall retries1 p1,
    Z.of_nat (count_occ Bool.bool_dec (map is_timeout noise) true) <= (if k =? 1 then 0 else retries1) ->
    exists t3 retries' p',
    receive_loop stray chunk0 word0 cb (length noise + fuel) start w lim k retries1 received p1 t2 =
    receive_loop stray chunk0 word0 cb fuel start w lim k retries' received p' t3 /\
    rx t3 = r /\ tflash t3 = tflash t /\ acked t (replicate (S (length noise)) (k - 1)) t3).
  { intros retries1 p1 Hc1.
    destruct (IH fuel t2 r retries1 received p1 Hn Hc1 ltac:(congruence) Hs2) as (t3 & r' & p' & E3 & Hr3 & Hf3 & Ha3).
    exists t3, r', p'. split_and!; [done|done|congruence|]. exact (acked_trans _ _ _ _ _ Ha12 Ha3). }
  destruct ev as [|e|from segs]; [|done|].
  - simpl in Hc. destruct (Z.eqb_spec k 1); [lia|]. unfold no_packet. rewrite Z.eqb_refl.
    rewrite (proj2 (Z.ltb_lt 0 retries)), (proj2 (Z.ltb_lt 1 k)) by lia. cbn [andb].
    rewrite (bind_run _ _ _ None t2) by (by rewrite (bind_run _ _ _ _ _ E2)).
    apply Hgo. lia.
  - destruct Hev as [payload Hp].
    destruct (data_packet_fields (k - 1) payload segs ltac:(lia) Hp) as (F1 & F2 & _ & _).
    unfold receive_packet. rewrite F1, F2, Z.eqb_refl. cbn [negb].
    rewrite (proj2 (Z.eqb_neq (k - 1) k)), Z.eqb_refl by lia. cbn [negb].
    rewrite (bind_run _ _ _ (inr false) t2) by (by rewrite (bind_run _ _ _ _ _ E2)).
    apply Hgo. exact Hc.
Qed.

(** rboot_verify_image accepts the image of [n] bytes at [start]. *)
Definition accepted (d : D) (start n : Z) : Prop :=
  rboot_verify_image d chunk0 word0 start = Some (None, n).

(** The callback changes nothing that matters here. *)
Lemma progress_run (cb : bool) n t :
  exists t', (if cb then st_modify (add_progress n) else mret ()) t = Some ((), t') /\
    tflash t' = tflash t /\ rx t' = rx t /\ (all_sent t -> acked t [] t').
Proof.
  destruct cb; (eexists; split; [reflexivity|]); unfold acked; simpl; rewrite app_nil_r; done.
Qed.

Lemma check_received_run start n t :
  (accepted (tflash t) start n /\ check_received chunk0 word0 start n t = Some (None, t)) \/
  (~ accepted (tflash t) start n /\ exists msg, check_received chunk0 word0 start n t = Some (Some msg, t)).
Proof.
  unfold accepted, check_received. fold (tflash t).
  destruct (verify_image_returns (tflash t) chunk0 word0 start) as [[[e|] m] ->]; [by right; split; [|eexists]|].
  destruct (Z.eqb_spec m n) as [->|]; [by left|]. right. split; [by intros [= ->]|by eexists].
Qed.

Lemma data_run cb start w lim k received segs payload t :
  1 <= k < 65536 -> data_packet k payload segs -> w mod 512 = 0 -> 0 <= w ->
  w + 4 + Z.of_nat (length payload) < lim -> lim <= chip_size sdk_flashchip ->
  Z.of_nat (length payload) <= 512 -> all_sent t ->
  0 <= received <= 2 ^ 24 ->
  let n := received + Z.of_nat (length payload) in
  exists r t', receive_packet stray chunk0 word0 cb start w lim k received segs t = Some (r, t') /\
    stored w payload (tflash t) (tflash t') /\ same_world t t' /\ rx t' = rx t /\
    if decide (Z.of_nat (length payload) < 512) then
      (accepted (tflash t') start n /\ r = inl ERR_OK /\ acked t [k] t') \/
      (~ accepted (tflash t') start n /\ r = inl ERR_VAL)
    else r = inr true /\ acked t [k] t'.
Proof.
  intros Hk Hp Hw Hw0 Hfit Hlim Hl Hs Hrec n. pose proof (chip_facts Hsector) as (_ & Hc & _).
  destruct (data_packet_fields k payload segs ltac:(lia) Hp) as (F1 & F2 & F3 & F4).
  pose proof Hp as [Eb Hok].
  unfold receive_packet. rewrite F1, F2, F3, !Z.eqb_refl. cbn [negb].
  destruct (start_sector_run t w) as (d1 & E1 & S1); [lia|]. rewrite (bind_run _ _ _ _ _ E1).
  rewrite u32_small, (proj2 (Z.leb_gt _ _)) by lia.
  assert (Hlen : Z.of_nat (length (netbuf_bytes segs)) - 4 = Z.of_nat (length payload)).
  { rewrite <- F4, length_drop. destruct Hok as ((al & b & rest & -> & Hb) & _).
    unfold netbuf_bytes. simpl. rewrite length_app. lia. }
  pose proof (round4_range (Z.of_nat (length payload))).
  destruct (write_segments_run segs (with_flash d1 t) w Hok Hw0) as (d2 & E2 & W2);
    [Z.div_mod_to_equations; lia|rewrite Hlen; lia|].
  rewrite (bind_run _ _ _ _ _ E2), with_flash_twice. rewrite F4 in W2.
  set (t2 := with_flash d2 t). assert (Hst : stored w payload (tflash t) d2) by by exists d1.
  replace (4 + Z.of_nat (length payload) - 4) with (Z.of_nat (length payload)) by lia.
  rewrite u32_small by lia. fold n.
  assert (Hs2 : all_sent t2) by done.
  destruct (send_ack_run t2 k Hs2) as (t3 & E3 & A3 & Hf3 & Hr3).
  destruct (progress_run cb n t3) as (t4 & E4 & Hf4 & Hr4 & A4). specialize (A4 ltac:(apply A3)).
  pose proof (acked_trans _ _ _ _ _ A3 A4) as A34. cbn [Datatypes.app] in A34.
  assert (Hf : tflash t4 = d2) by (by rewrite Hf4, Hf3).
  assert (Hrx4 : rx t4 = rx t) by (by rewrite Hr4, Hr3).
  unfold DATA_PACKET_SZ. destruct (decide (Z.of_nat (length payload) < 512)) as [Hlt|Hge].
  - rewrite (proj2 (Z.ltb_lt (4 + _) _)) by lia.
    destruct (check_received_run start n t2) as [[Hacc Ec]|[Hno [msg Ec]]]; rewrite (bind_run _ _ _ _ _ Ec).
    + rewrite (bind_run _ _ _ _ _ E3), Z.eqb_refl. cbn [negb]. rewrite (bind_run _ _ _ _ _ E4).
      exists (inl ERR_OK), t4. split; [done|]. rewrite Hf. split_and!; [done|apply A34|done|].
      left. by split_and!.
    + do 2 eexists. split; [reflexivity|]. split_and!; [exact Hst|done|done|]. right. by split.
  - rewrite (proj2 (Z.ltb_ge (4 + _) _)) by lia. rewrite (bind_run _ _ _ None t2) by done.
    rewrite (bind_run _ _ _ _ _ E3), Z.eqb_refl. cbn [negb]. rewrite (bind_run _ _ _ _ _ E4).
    exists (inr true), t4. split; [done|]. rewrite Hf. split_and!; [done|apply A34|done|done|done].
Qed.

(** One block and what comes before it. *)
Lemma block_run cb start w lim k noise from segs payload r fuel retries received p t :
  1 <= k < 65536 -> noise_ok k noise -> data_packet k payload segs ->
  (k <> 1 -> retries = TFTP_TIMEOUT_RETRANSMITS) ->
  w mod 512 = 0 -> 0 <= w -> w + 4 + Z.of_nat (length payload) < lim -> lim <= chip_size sdk_flashchip ->
  Z.of_nat (length payload) <= 512 -> all_sent t -> 0 <= received <= 2 ^ 24 ->
  rx t = noise ++ RxPacket from segs :: r ->
  let n := received + Z.of_nat (length payload) in
  exists t',
    stored w payload (tflash t) (tflash t') /\ same_world t t' /\ rx t' = r /\
    if decide (Z.of_nat (length payload) < 512) then
      exists err, receive_loop stray chunk0 word0 cb (length noise + S fuel) start w lim k retries received p t =
        Some (err, t') /\
        ((accepted (tflash t') start n /\ err = ERR_OK /\
          acked t (replicate (length noise) (k - 1) ++ [k]) t') \/
         (~ accepted (tflash t') start n /\ err = ERR_VAL))
    else acked t (replicate (length noise) (k - 1) ++ [k]) t' /\ exists p',
      receive_loop stray chunk0 word0 cb (length noise + S fuel) start w lim k retries received p t =
      receive_loop stray chunk0 word0 cb fuel start (u32 (w + 512)) lim (k + 1) TFTP_TIMEOUT_RETRANSMITS
        (u32 n) p' t'.
Proof.
  intros Hk [Hn Hc] Hp Hre Hw Hw0 Hfit Hlim Hl Hs Hrec Hrx n.
  destruct (noise_run cb start w lim k noise Hk (S fuel) t (RxPacket from segs :: r) retries received p
    Hn) as (t1 & retries' & p' & E & Hrx1 & Hf1 & Ha1); auto.
  { destruct (Z.eqb_spec k 1); [done|]. by rewrite Hre. }
  destruct (recv_event p' t1 _ r Hrx1 I) as (t2 & E2 & Hrx2 & Hf2 & Ha2). specialize (Ha2 ltac:(apply Ha1)).
  pose proof (acked_trans _ _ _ _ _ Ha1 Ha2) as Ha12. rewrite app_nil_r in Ha12.
  destruct (data_run cb start w lim k received segs payload t2) as (res & t3 & E3 & Hst & Hsw & Hrx3 & Hres);
    auto; [apply Ha12|].
  destruct (data_packet_fields k payload segs ltac:(lia) Hp) as (_ & _ & F3 & _).
  assert (Hloop : receive_loop stray chunk0 word0 cb (length noise + S fuel) start w lim k retries received p t =
    match res with
    | inl err => Some (err, t3)
    | inr false => receive_loop stray chunk0 word0 cb fuel start w lim k retries' received None t3
    | inr true => receive_loop stray chunk0 word0 cb fuel start (u32 (w + 512)) lim (k + 1)
                    TFTP_TIMEOUT_RETRANSMITS (u32 n) None t3
    end).
  { rewrite E. cbn [receive_loop]. rewrite (bind_run _ _ _ _ _ E2), (bind_run _ _ _ _ _ E3), F3.
    replace (4 + Z.of_nat (length payload) - 4) with (Z.of_nat (length payload)) by lia.
    by destruct res as [|[]]. }
  rewrite <- Hf1, <- Hf2. exists t3. split; [done|].
  destruct Ha12 as ([Hh12 Hr12] & Hs12 & Ht12).
  split; [destruct Hsw; split; congruence|]. split; [congruence|]. rewrite Hloop. fold n in Hres.
  assert (Hall : acked t2 [k] t3 -> acked t (replicate (length noise) (k - 1) ++ [k]) t3).
  { apply acked_trans. by split_and!. }
  destruct (decide _).
  - destruct Hres as [(Hacc & -> & Ha)|[Hno ->]]; eexists; (split; [done|]); [left|right]; auto.
  - destruct Hres as [-> Ha]. split; [auto|]. by exists None.
Qed.

(** The acknowledgements of the blocks from [k] on, [n] of them. *)
Definition acks_in_order (k n : Z) (js : list Z) : Prop :=
  StronglySorted Z.le js /\ Forall (fun j => k - 1 <= j < k + n) js /\
  forall j, k <= j < k + n -> j ∈ js.

Lemma acks_in_order_app k n m js : 0 <= n -> acks_in_order (k + 1) n js ->
  acks_in_order k (n + 1) (replicate m (k - 1) ++ k :: js).
Proof.
  intros Hn (Hs & Hf & Hin).
  assert (Hall : forall m, Forall (fun j => k - 1 <= j < k + (n + 1)) (replicate m (k - 1) ++ k :: js)).
  { clear m. intros m. apply Forall_app. split; [apply Forall_replicate; lia|]. constructor; [lia|].
    eapply Forall_impl; [exact Hf|]. simpl. lia. }
  split; [|split; [apply Hall|]].
  - induction m as [|m IH]; simpl.
    + constructor; [done|]. eapply Forall_impl; [exact Hf|]. simpl. lia.
    + constructor; [done|]. eapply Forall_impl; [apply Hall|]. simpl. lia.
  - intros j Hj. apply elem_of_app. right. destruct (decide (j = k)) as [->|]; [left|].
    right. apply Hin. lia.
Qed.

Lemma blocks_run cb start lim d0 img n : start mod SECTOR_SIZE = 0 -> 0 <= start ->
  lim = start + MAX_IMAGE_SIZE -> lim <= chip_size sdk_flashchip -> Forall is_byte img ->
  start + Z.of_nat (length img) + 4 < lim ->
  forall k sent rest evs r fuel retries p t,
  delivers k (blocks n rest) evs -> 1 <= k -> Z.of_nat (length sent) = 512 * (k - 1) ->
  sent ++ rest = img -> (512 * n <= length rest < 512 * n + 512)%nat ->
  (k <> 1 -> retries = TFTP_TIMEOUT_RETRANSMITS) ->
  partial start d0 sent (sector_up (start + Z.of_nat (length sent))) (tflash t) ->
  rx t = evs ++ r -> all_sent t -> (length evs <= fuel)%nat ->
  exists err t',
    receive_loop stray chunk0 word0 cb fuel start (start + Z.of_nat (length sent)) lim k retries
      (Z.of_nat (length sent)) p t = Some (err, t') /\
    same_world t t' /\ rx t' = r /\
    partial start d0 img (sector_up (start + Z.of_nat (length img) + 1)) (tflash t') /\
    ((accepted (tflash t') start (Z.of_nat (length img)) /\ err = ERR_OK /\
      exists js, acked t js t' /\ acks_in_order k (Z.of_nat n + 1) js) \/
     (~ accepted (tflash t') start (Z.of_nat (length img)) /\ err = ERR_VAL)).
Proof.
  intros Hst Hst0 Elim Hlim Hb Hfit. unfold MAX_IMAGE_SIZE in Elim.
  pose proof (chip_facts Hsector) as (_ & Hc & _).
  induction n as [|n IH]; intros k sent rest evs r fuel retries p t Hdel Hk Hsent Himg Hlen Hre Hpa Hrx Hs Hf;
    cbn [blocks] in Hdel; inversion Hdel as [|k' noise from segs payload bs evs' Hno Hp Hrest E1 E2 E3];
    subst k' payload evs; rewrite length_app in Hf; simpl in Hf.
  all: assert (Hw512 : (start + Z.of_nat (length sent)) mod 512 = 0)
      by (unfold SECTOR_SIZE in Hst; Z.div_mod_to_equations; lia).
  all: assert (Hi : Z.of_nat (length img) = Z.of_nat (length sent) + Z.of_nat (length rest))
      by (rewrite <- Himg, length_app; lia).
  all: rewrite <- app_assoc in Hrx; cbn [Datatypes.app] in Hrx.
  all: replace fuel with (length noise + S (fuel - length noise - 1))%nat by lia.
  - subst bs. inversion Hrest; subst.
    destruct (block_run cb start (start + Z.of_nat (length sent)) (start + 1048576) k noise from segs rest r
      (fuel - length noise - 1) retries (Z.of_nat (length sent)) p t) as (t' & Hsto & Hsw & Hrx' & Hres);
      auto; try lia.
    rewrite decide_True in Hres by lia. destruct Hres as (err & E & Hv). rewrite <- Nat2Z.inj_add, <- length_app in Hv.
    exists err, t'. split; [exact E|]. split; [done|]. split; [done|]. split.
    + replace (sector_up (start + Z.of_nat (length (sent ++ rest)) + 1)) with
        (sector_up (start + Z.of_nat (length sent) + 1)).
      2:{ rewrite Hi. unfold sector_up, SECTOR_SIZE in *. Z.div_mod_to_equations. lia. }
      eapply partial_block; [done|done|Z.div_mod_to_equations; lia|lia| |exact Hpa|exact Hsto].
      apply Forall_app in Hb. apply Hb.
    + destruct Hv as [(Hacc & -> & Ha)|?]; [left|by right]. split_and!; [done|done|].
      eexists. split; [exact Ha|]. apply (acks_in_order_app k 0); [lia|].
      split_and!; [constructor|constructor|intros; lia].
  - subst bs. pose proof (take_drop 512 rest) as Etd.
    assert (Hl512 : length (take 512 rest) = 512%nat) by (rewrite length_take; lia).
    destruct (block_run cb start (start + Z.of_nat (length sent)) lim k noise from segs (take 512 rest)
      (evs' ++ r) (fuel - length noise - 1) retries (Z.of_nat (length sent)) p t)
      as (t1 & Hsto & Hsw & Hrx' & Hres); auto; try lia.
    rewrite decide_False in Hres by lia. destruct Hres as (Ha & p' & E). rewrite E, Hl512.
    replace (u32 (start + Z.of_nat (length sent) + 512)) with
      (start + Z.of_nat (length (sent ++ take 512 rest))) by (rewrite length_app, Hl512, u32_small by lia; lia).
    replace (u32 (Z.of_nat (length sent) + Z.of_nat 512)) with (Z.of_nat (length (sent ++ take 512 rest)))
      by (rewrite length_app, Hl512, u32_small by lia; lia).
    destruct (IH (k + 1) (sent ++ take 512 rest) (drop 512 rest) evs' r (fuel - length noise - 1)%nat
      TFTP_TIMEOUT_RETRANSMITS p' t1) as (err & t' & E' & Hsw' & Hrx2 & Hpa' & Hv);
      [done|lia|rewrite length_app, Hl512; lia|by rewrite <- app_assoc, Etd|rewrite length_drop; lia|done| |done
      |apply Ha|lia|].
    { replace (sector_up (start + Z.of_nat (length (sent ++ take 512 rest)))) with
        (sector_up (start + Z.of_nat (length sent) + 1)).
      2:{ rewrite length_app, Hl512. unfold sector_up, SECTOR_SIZE in *. Z.div_mod_to_equations. lia. }
      eapply partial_block; [done|done|Z.div_mod_to_equations; lia|lia| |exact Hpa|exact Hsto].
      rewrite <- Himg in Hb. apply Forall_take. by apply Forall_app in Hb as [_ ?]. }
    exists err, t'. split; [exact E'|]. split; [destruct Hsw, Hsw'; split; congruence|]. split_and!; auto.
    destruct Hv as [(Hacc & -> & js & Hjs & Hord)|?]; [left|by right]. split_and!; [done|done|].
    exists (replicate (length noise) (k - 1) ++ k :: js). split.
    + pose proof (acked_trans _ _ _ _ _ Ha Hjs) as Hall. by rewrite <- app_assoc in Hall.
    + replace (Z.of_nat (S n) + 1) with (Z.of_nat n + 1 + 1) by lia. apply acks_in_order_app; [lia|done].
Qed.

(** An image that arrives block by block, with up to ten timeouts and any number
    of repeated packets before each block after the first (repeated packets only
    before the first), is stored in the slot: the flash holds its bytes, the rest of
    the sectors it reaches is erased but for the padding of the last word, and
    nothing else changes.  The result is ERR_OK exactly when rboot_verify_image
    accepts it with that length; then every block has been acknowledged, in order. *)
Lemma tftp_receive_image cb start img evs r p t fuel :
  start mod SECTOR_SIZE = 0 -> 0 <= start -> start + MAX_IMAGE_SIZE <= chip_size sdk_flashchip ->
  Forall is_byte img -> Z.of_nat (length img) + 4 < MAX_IMAGE_SIZE ->
  delivers 1 (image_blocks img) evs -> rx t = evs ++ r -> all_sent t -> (length evs <= fuel)%nat ->
  exists err t',
    tftp_receive_data stray chunk0 word0 cb fuel start (start + MAX_IMAGE_SIZE) p t = Some (err, t') /\
    same_world t t' /\ rx t' = r /\
    partial start (tflash t) img (sector_up (start + Z.of_nat (length img) + 1)) (tflash t') /\
    ((accepted (tflash t') start (Z.of_nat (length img)) /\ err = ERR_OK /\
      exists js, acked t js t' /\ acks_in_order 1 (Z.of_nat (length img / 512) + 1) js) \/
     (~ accepted (tflash t') start (Z.of_nat (length img)) /\ err = ERR_VAL)).
Proof.
  intros Hst Hst0 Hfit Hb Hlen Hdel Hrx Hs Hf. unfold tftp_receive_data.
  destruct (blocks_run cb start (start + MAX_IMAGE_SIZE) (tflash t) img (length img / 512) Hst Hst0
    eq_refl Hfit Hb ltac:(lia) 1 [] img evs r fuel TFTP_TIMEOUT_RETRANSMITS p t) as (err & t' & E & Hrest);
    auto; try done; try lia.
  - pose proof (Nat.div_mod (length img) 512 ltac:(lia)).
    pose proof (Nat.mod_upper_bound (length img) 512 ltac:(lia)). lia.
  - change (Z.of_nat (length (@nil Z))) with 0. rewrite Z.add_0_r.
    replace (sector_up start) with start; [apply partial_start|].
    unfold sector_up, SECTOR_SIZE in *. Z.div_mod_to_equations. lia.
  - exists err, t'. change (Z.of_nat (length (@nil Z))) with 0 in E. by rewrite Z.add_0_r in E.
Qed.
End receive.
