(* ===== verification/TftpUpdate.v ===== *)
(** * Updates over TFTP

    What a turn of the server and a download of the client do to the device.
    [tftp_turn_safe]: whatever packets arrive, the server restarts only after
    [rboot_verify_image] has accepted the contents of a slot other than the current
    one, and nothing outside of that slot and of the configuration changes.
    [tftp_update_boots]: an upload of a well-formed image ends with a restart into it.
    [ota_tftp_download_confined]: the client's download stays in the slot it was
    given, which is never the current one. *)

From S2P Require Import Prelude Flash SpiFlash Rboot RbootImage RbootBoot RbootApi RbootVerify.
From S2P Require Import RbootStream RbootConfig Tftp TftpReceive.
Local Open Scope Z_scope.
Local Opaque Z.to_nat.

(** ** Requests *)

(** A write request for the firmware. *)
Definition firmware_request (segs : list segment) : Prop :=
  (exists options, netbuf_bytes segs =
     be16 TFTP_OP_WRQ ++ TFTP_FIRMWARE_FILE ++ [0] ++ TFTP_OCTET_MODE ++ [0] ++ options) /\
  Z.of_nat (length (netbuf_bytes segs)) < 65536.

Section turn.
Context `{FlashOk D} (o : options) (stray : nat -> Z) (chunk0 word0 conf0 : list Z).
Implicit Types (t : tftp D) (d : D).

Lemma netconn_recv_packet t from segs r : rx t = RxPacket from segs :: r ->
  netconn_recv t = Some ((ERR_OK, Some (from, segs)), set_rx r t).
Proof. intros Hrx. unfold netconn_recv. by rewrite Hrx. Qed.

(** A turn serves the request that has arrived, or sends at most an error. *)
Lemma turn_cases verify_cb fuel t :
  (exists t', tftp_turn o stray chunk0 word0 conf0 verify_cb fuel t = Some ((), t') /\
     application t' = application t /\ restarted t' = restarted t) \/
  (exists from segs r, rx t = RxPacket from segs :: r /\
     tftp_turn o stray chunk0 word0 conf0 verify_cb fuel t =
     tftp_serve o stray chunk0 word0 conf0 verify_cb fuel from (set_rx r t)).
Proof.
  unfold tftp_turn. destruct (rx t) as [|[|e|from segs] r] eqn:Hrx.
  1-3: left; eexists; (split; [by unfold mbind, st_bind, netconn_recv; rewrite Hrx|done]).
  rewrite !(bind_run _ _ _ _ _ (netconn_recv_packet t from segs r Hrx)).
  destruct (netbuf_len segs <? 6); [left; eexists; (split; [reflexivity|done])|].
  destruct (negb _); [left; eexists; (split; [reflexivity|done])|].
  destruct (tftp_get_field 0 segs) as [filename|]; [|left; eexists; (split; [reflexivity|done])].
  destruct (str_equal filename _); [|left; eexists; (split; [reflexivity|done])].
  destruct (tftp_get_field 1 segs) as [mode|]; [|left; eexists; (split; [reflexivity|done])].
  destruct (str_equal mode _); [|left; eexists; (split; [reflexivity|done])].
  right. by exists from, segs, r.
Qed.

Lemma turn_request verify_cb fuel t from segs r :
  rx t = RxPacket from segs :: r -> firmware_request segs ->
  tftp_turn o stray chunk0 word0 conf0 verify_cb fuel t =
  tftp_serve o stray chunk0 word0 conf0 verify_cb fuel from (set_rx r t).
Proof.
  intros Hrx [[options E] Hl]. unfold tftp_turn.
  rewrite (bind_run _ _ _ _ _ (netconn_recv_packet t from segs r Hrx)).
  unfold netbuf_len, netbuf_read_u16_n, tftp_get_field. rewrite E in *. rewrite u16_small by lia.
  rewrite (proj2 (Z.ltb_ge _ _)) by (rewrite !length_app; simpl; lia).
  destruct options; reflexivity.
Qed.
(** What is outside of a slot does not affect the configuration. *)
Lemma config_sector_slot start d d1 :
  2 * SECTOR_SIZE <= start -> only_slot start d d1 -> config_sector d1 = config_sector d.
Proof.
  intros Hs Ho. unfold config_sector. apply fbytes_ext. intros x Hx. apply Ho. left.
  unfold SECTOR_SIZE in *. lia.
Qed.

End turn.

(** ** Serving a request *)

(** The slot that the server writes. *)
Definition current_slot (s : list Z) : Z := get8 s cf_current_rom.
Definition next_slot (s : list Z) : Z := (current_slot s + 1) mod get8 s cf_count.
Definition slot_start (s : list Z) (slot : Z) : Z := get32 s (cf_roms slot).

(** The slots of a configuration are megabytes of the flash behind the sector of
    the configuration, at sector boundaries. *)
Definition slots_ok (o : options) (chip : Z) (s : list Z) : Prop :=
  1 <= get8 s cf_count <= MAX_ROMS o /\ get8 s cf_count <= 255 /\
  forall slot, 0 <= slot < get8 s cf_count ->
    slot_start s slot mod SECTOR_SIZE = 0 /\ 2 * SECTOR_SIZE <= slot_start s slot /\
    slot_start s slot + MAX_IMAGE_SIZE <= chip.

Lemma next_slot_range s : 1 <= get8 s cf_count -> 0 <= next_slot s < get8 s cf_count.
Proof. intros. unfold next_slot. apply Z.mod_pos_bound. lia. Qed.

Lemma sizeof_config (o : options) : BOOT_CONFIG_CHKSUM o = true -> sizeof_rboot_config o = 12 + 4 * MAX_ROMS o.
Proof. intros Hck. unfold sizeof_rboot_config. rewrite Hck. lia. Qed.

Section serve.
Context `{FlashOk D} (o : options) (stray : nat -> Z) (chunk0 word0 conf0 : list Z).
Context (Hsector : sector_size (sdk_flashchip (D:=D)) = SECTOR_SIZE).
Context (Hsize : 2 * SECTOR_SIZE <= chip_size (sdk_flashchip (D:=D))).
Context (Hck : BOOT_CONFIG_CHKSUM o = true) (Hmax : 1 <= MAX_ROMS o <= 900).
Context (Hconf0 : Z.of_nat (length conf0) = sizeof_rboot_config o).
Implicit Types (t : tftp D) (d : D).

Lemma config_fields s i :
  SECTOR_SIZE = Z.of_nat (length s) -> 0 <= i < sizeof_rboot_config o ->
  get8 (take (Z.to_nat (sizeof_rboot_config o)) s) i = get8 s i.
Proof. intros Hl Hi. unfold get8. rewrite !nth_lookup. by rewrite lookup_take_lt by lia. Qed.

(** The state after the connection to the client and the first ACK. *)
Definition serving (from : peer) t : tftp D :=
  set_sent (tail (send_errs t)) (tx t ++ [(Some from, ack_bytes 0)]) (set_connected (Some from) t).

Lemma serve_cases verify_cb fuel from t :
  let s := config_sector (tflash t) in
  slots_ok o (chip_size (sdk_flashchip (D:=D))) s ->
  let start := slot_start s (next_slot s) in
  let serve := tftp_serve o stray chunk0 word0 conf0 verify_cb fuel from t in
  (exists t', serve = Some ((), t') /\ application t' = application t /\ restarted t' = restarted t /\
     (next_slot s = current_slot s \/ ~ all_sent t)) \/
  (next_slot s <> current_slot s /\
   forall err t2,
     tftp_receive_data stray chunk0 word0 false fuel start (start + MAX_IMAGE_SIZE) None (serving from t) =
       Some (err, t2) ->
     let reboot := match verify_cb with Some cb => cb (next_slot s) | None => true end in
     if (err =? ERR_OK) && reboot then
       forall ok a, rboot_set_current_rom o conf0 (next_slot s) (application t2) = Some (ok, a) ->
         serve = Some ((), set_restarted (set_app a (set_connected None t2)))
     else serve = Some ((), set_connected None t2)).
Proof.
  intros s (Hcount & H255 & Hslots) start serve.
  pose proof (length_config_sector (tflash t)) as Hls. fold s in Hls.
  assert (Hcfg : rboot_get_config o conf0 (application t) =
    Some (take (Z.to_nat (sizeof_rboot_config o)) s, application t)).
  { unfold s, tflash. destruct (application t) as [d h]. apply get_config_run; auto; lia. }
  pose proof (sizeof_config o Hck) as Hsz. set (conf := take _ s) in Hcfg.
  assert (Hconf : forall i, 0 <= i < sizeof_rboot_config o -> get8 conf i = get8 s i)
    by (intros; by apply config_fields).
  pose proof (next_slot_range s ltac:(lia)) as Hns. destruct (Hslots _ Hns) as (_ & Hlow & Hfit).
  fold start in Hlow, Hfit.
  assert (Hstart : get32 conf (cf_roms (next_slot s)) = start).
  { unfold start, slot_start. unfold SECTOR_SIZE in Hls. apply get32_get8; unfold cf_roms;
      [lia|unfold conf; rewrite length_take; lia|lia|]. intros; apply Hconf; lia. }
  assert (Happ : on_app (rboot_get_config o conf0) (set_connected (Some from) t) =
    Some (conf, set_connected (Some from) t)).
  { unfold on_app. simpl. rewrite Hcfg. by destruct t. }
  unfold serve, tftp_serve. rewrite (bind_run _ _ _ () (set_connected (Some from) t)) by done.
  rewrite (bind_run _ _ _ _ _ Happ), !Hconf by (unfold cf_count, cf_current_rom; lia).
  rewrite (proj2 (Z.eqb_neq (get8 s cf_count) 0)) by lia.
  fold (current_slot s). fold (next_slot s). destruct (Z.eqb_spec (next_slot s) (current_slot s)).
  { left. eexists. split; [reflexivity|]. by split_and!; [..|left]. }
  assert (Hack : tftp_send_ack 0 (set_connected (Some from) t) =
    Some (default ERR_OK (head (send_errs t)), serving from t)) by done.
  rewrite (bind_run _ _ _ _ _ Hack). destruct (Z.eqb_spec (default ERR_OK (head (send_errs t))) 0) as [Hs|Hs].
  2:{ left. eexists. split; [reflexivity|]. split_and!; [done..|]. right. unfold all_sent.
      intros Hall. destruct (send_errs t) as [|e l]; [done|]. by apply Forall_inv in Hall as ->. }
  cbn [negb]. right. split; [done|]. intros err t2 Hrecv. cbv zeta. rewrite Hstart.
  pose proof (chip_facts Hsector) as (_ & Hc & _).
  rewrite u32_small by (unfold SECTOR_SIZE, MAX_IMAGE_SIZE in *; lia).
  rewrite (bind_run _ _ _ _ _ Hrecv), (bind_run _ _ _ () (set_connected None t2)) by done.
  destruct ((err =? ERR_OK) && _); [|done]. intros ok a Hset.
  unfold mbind, st_bind, on_app. simpl. by rewrite Hset.
Qed.

(** Selecting a slot, with or without memory for the sector. *)
Lemma set_current_rom_any (a : app D) slot :
  Forall is_byte (config_sector (flash a)) -> get8 (config_sector (flash a)) cf_count <= 255 ->
  0 <= slot < get8 (config_sector (flash a)) cf_count ->
  exists ok a', rboot_set_current_rom o conf0 slot a = Some (ok, a') /\
    (forall x, x < SECTOR_SIZE \/ 2 * SECTOR_SIZE <= x -> fbyte (flash a') x = fbyte (flash a) x) /\
    if ok then reconfigured o slot (config_sector (flash a)) (config_sector (flash a'))
    else flash a' = flash a.
Proof.
  destruct a as [d h]. cbn [flash]. intros Hb H255 Hslot. pose proof (sizeof_config o Hck).
  assert (Hno : h = [] \/ head h = Some None \/ exists junk h', h = Some junk :: h').
  { destruct h as [|[junk|] h]; eauto. }
  destruct Hno as [Hh|[Hh|(junk & h' & ->)]].
  1-2: destruct (set_current_rom_refused Hsize o d h conf0 slot) as (h' & E); auto; try lia;
    exists false, (App d h'); by split_and!.
  destruct (set_current_rom_run Hsector Hsize o d h' junk conf0 slot) as (d' & E & Hg & Ho); auto; try lia.
  exists true, (App d' h'). by split_and!.
Qed.
End serve.

(** ** An image that boots *)

(** A well-formed image as it is uploaded: the bytes of [ota_bytes], padding, and the
    checksum at the end of a 16-byte line. *)
Record upload (irom : option (list Z)) (ss : list rom_section) (bs pad : list Z) : Prop := {
  up_flags : exists g1 g2 ge f1 f2 e, is_byte f1 /\ is_byte f2 /\
    bs = ota_bytes g1 g2 ge f1 f2 e irom ss;
  up_count : Z.of_nat (length ss) <= 255;
  up_sections : Forall (fun s => Z.of_nat (length (rs_data s)) mod 4 = 0) ss;
  up_code : forall code, irom = Some code -> Z.of_nat (length code) mod 16 = 0;
  up_pad : (length pad <= 15)%nat;
  up_line : (Z.of_nat (length bs) + Z.of_nat (length pad) + 1) mod 16 = 0
}.
Definition upload_bytes (ss : list rom_section) (bs pad : list Z) : list Z :=
  bs ++ pad ++ [image_chksum ss].

Section update.
Context `{FlashOk D} `{!FlashByteRead D}.
Context (irom : option (list Z)) (ss : list rom_section) (bs pad : list Z) (Hup : upload irom ss bs pad).
Context (start : Z) (Hstart : start mod SECTOR_SIZE = 0) (Hlow : 2 * SECTOR_SIZE <= start).
Context (Hlen : Z.of_nat (length (upload_bytes ss bs pad)) + 32 <= MAX_IMAGE_SIZE).
Context (Hfit : start + MAX_IMAGE_SIZE <= chip_size (sdk_flashchip (D:=D))).
Context (Hbytes : Forall is_byte (upload_bytes ss bs pad)).
Implicit Types (d : D).

Lemma length_upload : Z.of_nat (length (upload_bytes ss bs pad)) =
  Z.of_nat (length bs) + Z.of_nat (length pad) + 1.
Proof. unfold upload_bytes. rewrite !length_app. simpl. lia. Qed.

(** The checksum is where both programs look for it. *)
Lemma upload_pos : Z.lor (start + Z.of_nat (length bs)) 0x0f =
  start + Z.of_nat (length (upload_bytes ss bs pad)) - 1.
Proof.
  destruct Hup as [_ _ _ _ Hp Hl]. rewrite length_upload. unfold SECTOR_SIZE in *.
  rewrite lor_15 by lia. Z.div_mod_to_equations. lia.
Qed.

Section stored.
Context (d0 d : D) (hi : Z) (Hd0 : forall x, is_byte (fbyte d0 x)).
Context (Hpa : partial start d0 (upload_bytes ss bs pad) hi d).

Lemma partial_byte x : is_byte (fbyte d x).
Proof.
  destruct Hpa as [Him Hbl Hou]. set (img := upload_bytes ss bs pad) in *.
  assert (Hr : round4 (Z.of_nat (length img)) = Z.of_nat (length img)).
  { apply round4_id. unfold img. rewrite length_upload. destruct Hup as [_ _ _ _ _ Hl].
    Z.div_mod_to_equations. lia. }
  rewrite Hr in Hbl.
  destruct (decide (start <= x < start + Z.of_nat (length img))) as [Hx|Hx].
  - destruct (lookup_lt_is_Some_2 img (Z.to_nat (x - start))) as [b Hb]; [lia|].
    pose proof (Him _ _ Hb) as E. replace (start + Z.of_nat (Z.to_nat (x - start))) with x in E by lia.
    rewrite E. by eapply Forall_lookup_1 in Hbytes.
  - destruct (decide (start + Z.of_nat (length img) <= x < hi)) as [Hx'|Hx'].
    + rewrite Hbl by lia. unfold is_byte. lia.
    + rewrite Hou by lia. apply Hd0.
Qed.

Lemma upload_holds : rom_holds (fbyte d) start bs /\
  fbyte d (Z.lor (start + Z.of_nat (length bs)) 0x0f) = image_chksum ss.
Proof.
  destruct Hpa as [Him _ _]. split.
  - intros i b Hi. apply Him. unfold upload_bytes. by apply lookup_app_l_Some.
  - rewrite upload_pos, length_upload.
    replace (start + _ - 1) with (start + Z.of_nat (length bs + length pad)) by lia.
    apply Him. unfold upload_bytes. rewrite app_assoc, lookup_app_r by (rewrite length_app; lia).
    rewrite length_app. by replace (_ - _)%nat with 0%nat by lia.
Qed.

Lemma upload_accepted chunk0 word0 :
  accepted chunk0 word0 d start (Z.of_nat (length (upload_bytes ss bs pad))).
Proof.
  destruct Hup as [(g1 & g2 & ge & f1 & f2 & e & Hf1 & Hf2 & Ebs) Hn Hs Hc Hp Hl].
  destruct upload_holds as [Hh Hk]. pose proof length_upload as Hlu. pose proof upload_pos as Hpos.
  unfold accepted. rewrite (verify_image_run d partial_byte chunk0 word0 start g1 g2 ge f1 f2 e irom ss).
  - rewrite <- Ebs, Hk, Z.eqb_refl, Hpos. do 2 f_equal. lia.
  - unfold SECTOR_SIZE in *. lia.
  - unfold SECTOR_SIZE in *. Z.div_mod_to_equations. lia.
  - done.
  - done.
  - done.
  - by rewrite <- Ebs.
  - rewrite <- Ebs. unfold MAX_IMAGE_SIZE in *. lia.
  - rewrite <- Ebs, Hpos. lia.
Qed.
End stored.

(** The boot loader accepts it too, whatever has been written elsewhere since. *)
Lemma upload_boots `{Machine M} ob (m : M) d0 d d' hi :
  partial start d0 (upload_bytes ss bs pad) hi d ->
  (forall x, x < SECTOR_SIZE \/ 2 * SECTOR_SIZE <= x -> fbyte d' x = fbyte d x) ->
  (forall p n, 0 <= p -> 0 <= n <= BUFFER_SIZE -> p + n <= chip_size (sdk_flashchip (D:=D)) ->
     SPIRead m p n = (0, rom_bytes (fbyte d') p n)) ->
  BOOT_IROM_CHKSUM ob = false -> check_image ob m start = Some (ota_start start irom).
Proof.
  intros Hpa Ho Hr Hirom. destruct (upload_holds d0 d hi Hpa) as [Hh Hk].
  destruct Hup as [(g1 & g2 & ge & f1 & f2 & e & Hf1 & Hf2 & Ebs) Hn Hs Hc Hp Hl].
  pose proof length_upload as Hlu. pose proof upload_pos as Hpos.
  rewrite (check_image_ota ob m d' Hr Hirom start g1 g2 ge f1 f2 e irom ss); auto.
  - rewrite <- Ebs, Ho, Hk, Z.eqb_refl; [done|]. right. lia.
  - unfold SECTOR_SIZE in *. lia.
  - rewrite <- Ebs. intros i b Hi. rewrite Ho by lia. by apply Hh.
  - rewrite <- Ebs, Hpos. lia.
Qed.
End update.

(** ** The theorems *)

(** Two megabytes of the flash that do not overlap. *)
Definition slots_apart (a b : Z) : Prop := a + MAX_IMAGE_SIZE <= b \/ b + MAX_IMAGE_SIZE <= a.
Lemma slots_apart_kept `{FlashDev D} a b (d d' : D) x :
  slots_apart a b -> only_slot b d d' -> a <= x < a + MAX_IMAGE_SIZE -> fbyte d' x = fbyte d x.
Proof. intros Hap Ho Hx. apply Ho. unfold slots_apart in Hap. lia. Qed.

(** C10: a turn of the server ends whatever packets it receives, as long as they are
    in the shape the comments of the code assume (the four bytes of the header in the
    first segment, every segment but the last of whole words, a misaligned one of at
    least a word, less than 64 KiB).  Either the device does not restart and only the
    slot after the current one may have changed; or it restarts, after
    [rboot_verify_image] has accepted what that slot then holds and the application's
    check, if there is one, the slot: then nothing but that slot and the configuration
    sector has changed, and the latter names the slot if [rboot_set_current_rom]
    succeeded.  If the current ROM is configured and its megabyte does not overlap that
    slot's, it is never written.  The configuration has 1 to MAX_ROMS slots, each a
    megabyte of the chip at a sector boundary behind the configuration sector, and the
    flash works. *)
Theorem tftp_turn_safe `{FlashOk D} o stray chunk0 word0 conf0 verify_cb fuel (t : tftp D) :
  sector_size (sdk_flashchip (D:=D)) = SECTOR_SIZE ->
  2 * SECTOR_SIZE <= chip_size (sdk_flashchip (D:=D)) ->
  BOOT_CONFIG_CHKSUM o = true -> 1 <= MAX_ROMS o <= 900 ->
  Z.of_nat (length conf0) = sizeof_rboot_config o ->
  let d := tflash t in
  let s := config_sector d in
  Forall is_byte s -> slots_ok o (chip_size (sdk_flashchip (D:=D))) s ->
  Forall event_ok (rx t) -> 11 * Z.of_nat (length (rx t)) + 11 <= Z.of_nat fuel ->
  let slot := next_slot s in
  let start := slot_start s slot in
  exists t', tftp_turn o stray chunk0 word0 conf0 verify_cb fuel t = Some ((), t') /\
    ((restarted t' = restarted t /\ only_slot start d (tflash t') /\
      (slot = current_slot s -> tflash t' = d)) \/
     (restarted t' = true /\ slot <> current_slot s /\
      (forall cb, verify_cb = Some cb -> cb slot = true) /\
      exists d1 n (ok : bool), only_slot start d d1 /\
        rboot_verify_image d1 chunk0 word0 start = Some (None, n) /\
        (forall x, x < SECTOR_SIZE \/ 2 * SECTOR_SIZE <= x -> fbyte (tflash t') x = fbyte d1 x) /\
        if ok then reconfigured o slot s (config_sector (tflash t')) else tflash t' = d1)) /\
    (current_slot s < get8 s cf_count -> slots_apart (slot_start s (current_slot s)) start ->
     forall x, slot_start s (current_slot s) <= x < slot_start s (current_slot s) + MAX_IMAGE_SIZE ->
       fbyte (tflash t') x = fbyte d x).
Proof.
  intros Hsec Hsize Hck Hmax Hl d s Hb Hok Hrx Hf slot start.
  cut (exists t', tftp_turn o stray chunk0 word0 conf0 verify_cb fuel t = Some ((), t') /\
    ((restarted t' = restarted t /\ only_slot start d (tflash t') /\
      (slot = current_slot s -> tflash t' = d)) \/
     (restarted t' = true /\ slot <> current_slot s /\
      (forall cb, verify_cb = Some cb -> cb slot = true) /\
      exists d1 n (ok : bool), only_slot start d d1 /\
        rboot_verify_image d1 chunk0 word0 start = Some (None, n) /\
        (forall x, x < SECTOR_SIZE \/ 2 * SECTOR_SIZE <= x -> fbyte (tflash t') x = fbyte d1 x) /\
        if ok then reconfigured o slot s (config_sector (tflash t')) else tflash t' = d1))).
  { intros (t' & E & Hcase). exists t'. split; [exact E|]. split; [exact Hcase|]. intros Hcur Hap x Hx.
    destruct Hok as (_ & _ & Hslots). pose proof (get8_byte s cf_current_rom Hb) as Hc0.
    destruct (Hslots (current_slot s)) as (_ & Hlow & _); [by split; [apply Hc0|]|].
    destruct Hcase as [(_ & Ho & _)|(_ & _ & _ & d1 & n & ok & Ho & _ & Hout & _)].
    - by eapply slots_apart_kept.
    - rewrite Hout by lia. by eapply slots_apart_kept. }
  pose proof Hok as (Hcount & H255 & Hslots). pose proof (next_slot_range s ltac:(lia)) as Hns.
  destruct (Hslots slot Hns) as (Hm & Hlow & Hfit). fold start in Hm, Hlow, Hfit.
  destruct (turn_cases o stray chunk0 word0 conf0 verify_cb fuel t)
    as [(t' & -> & Ha & Hr)|(from & segs & r & E & ->)].
  { exists t'. split; [done|]. left. unfold tflash. rewrite Ha. by split_and!. }
  rewrite E in Hrx, Hf. apply Forall_inv_tail in Hrx. simpl in Hf.
  destruct (serve_cases o stray chunk0 word0 conf0 Hsec Hsize Hck Hmax Hl verify_cb fuel from (set_rx r t))
    as [(t' & -> & Ha & Hr & _)|[Hne Hserve]]; [done| |].
  { exists t'. split; [done|]. left. unfold tflash. rewrite Ha. by split_and!. }
  change (tflash (set_rx r t)) with d in *. fold s slot start in Hserve. fold s slot in Hne.
  destruct (tftp_receive_confined Hsec stray chunk0 word0 false start None (serving from (set_rx r t)) fuel)
    as (err & t2 & E2 & [Hh2 Hr2] & Ho2 & Hv2); [done|unfold SECTOR_SIZE in *; lia|done|done|simpl; lia|].
  specialize (Hserve err t2 E2). cbv zeta in Hserve. change (tflash (serving from (set_rx r t))) with d in Ho2.
  destruct (Z.eqb_spec err ERR_OK) as [->|Herr]; cbn [andb] in Hserve;
    [|by exists (set_connected None t2); split; [|left]].
  destruct (match verify_cb with Some cb => cb slot | None => true end) eqn:Ecb;
    [|by exists (set_connected None t2); split; [|left]].
  pose proof (config_sector_slot start d (tflash t2) Hlow Ho2) as Es. unfold tflash in Es. fold s in Es.
  destruct (set_current_rom_any o conf0 Hsec Hsize Hck Hmax Hl (application t2) slot)
    as (ok & a' & Eset & Hout & Hcfg); [by rewrite Es|by rewrite Es|by rewrite Es|].
  eexists. split; [by eapply Hserve|]. right. split; [done|]. split; [done|].
  split; [by intros cb ->|]. destruct (Hv2 eq_refl) as [n Hn]. exists (tflash t2), n, ok.
  rewrite Es in Hcfg. by split_and!.
Qed.

(** C9: an upload of a well-formed image (either header format, at most 255 sections
    of whole words, code of whole 16-byte lines, right checksum, less than a megabyte)
    to a device with a valid configuration of at least two slots (a megabyte of the
    chip each), with up to ten timeouts and any number of repeated packets before each
    block after the first (none lost before it), ends with a restart; the image is in
    the slot after the current one, every block has been acknowledged in order, nothing
    else but the configuration sector and the rest of the slot's sectors has changed,
    and the next boot starts the image.  Sends, malloc and the application's check
    succeed; packets have the shape the code assumes (see tftp_turn_safe); flash reads
    work for single bytes too, as both programs use them.  The boot loader is built
    without GPIO and IROM_CHKSUM options, with RTC (as the repository does) or without,
    and the RTC memory asks for no temporary ROM. *)
Theorem tftp_update_boots `{FlashOk D} `{!FlashByteRead D} `{Machine M} o ob loader stray chunk0 word0 conf0
    verify_cb fuel (t : tftp D) from request evs r junk h rtc0 ram irom ss bs pad :
  sector_size (sdk_flashchip (D:=D)) = SECTOR_SIZE ->
  2 * SECTOR_SIZE <= chip_size (sdk_flashchip (D:=D)) ->
  BOOT_CONFIG_CHKSUM o = true -> 1 <= MAX_ROMS o <= 900 -> MAX_ROMS ob = MAX_ROMS o ->
  BOOT_GPIO_ENABLED ob = false -> BOOT_IROM_CHKSUM ob = false -> (BOOT_RTC_ENABLED ob = true -> length rtc0 = 12%nat) ->
  Z.of_nat (length conf0) = sizeof_rboot_config o -> (forall x, is_byte (fbyte (tflash t) x)) ->
  let s := config_sector (tflash t) in
  config_valid ob s = true -> slots_ok o (chip_size (sdk_flashchip (D:=D))) s ->
  let slot := next_slot s in
  let start := slot_start s slot in
  let img := upload_bytes ss bs pad in
  slot <> current_slot s -> (forall cb, verify_cb = Some cb -> cb slot = true) ->
  upload irom ss bs pad -> Forall is_byte img -> Z.of_nat (length img) + 32 <= MAX_IMAGE_SIZE ->
  firmware_request request -> delivers 1 (image_blocks img) evs ->
  rx t = RxPacket from request :: evs ++ r -> all_sent t -> heap (application t) = Some junk :: h ->
  (length evs <= fuel)%nat ->
  exists t', tftp_turn o stray chunk0 word0 conf0 verify_cb fuel t = Some ((), t') /\
    restarted t' = true /\ rx t' = r /\
    (forall i b, img !! i = Some b -> fbyte (tflash t') (start + Z.of_nat i) = b) /\
    (forall x, x < SECTOR_SIZE \/ 2 * SECTOR_SIZE <= x < start \/
       sector_up (start + Z.of_nat (length img) + 1) <= x -> fbyte (tflash t') x = fbyte (tflash t) x) /\
    (exists js, map snd (tx t') = map snd (tx t) ++ map ack_bytes (0 :: js) /\
       acks_in_order 1 (Z.of_nat (length img / 512) + 1) js) /\
    forall m' : M,
      (forall p n, 0 <= p -> 0 <= n <= SECTOR_SIZE -> p + n <= chip_size (sdk_flashchip (D:=D)) ->
         SPIRead m' p n = (0, rom_bytes (fbyte (tflash t')) p n)) ->
      (forall p n, Forall is_byte (SPIRead m' p n).2) -> temp_request ob m' rtc0 = None ->
      exists p', find_image ob loader rtc0 (Boot m' [] ram) =
        Some (ota_start start irom,
              Boot (rtc_left ob m' (rtc_report (rtc_found ob m' rtc0) slot false)) p' (loader_copied loader ram)).
Proof.
  intros Hsec Hsize Hck Hmax Hsame Hgpio Hirom Hrtc0 Hl Hb s Hv Hok slot start img Hne Hcb Hup Hbi Hlen
    Hreq Hdel Hrx Hs Hheap Hf.
  pose proof Hok as (Hcount & H255 & Hslots). pose proof (next_slot_range s ltac:(lia)) as Hns.
  destruct (Hslots slot Hns) as (Hm & Hlow & Hfit). fold start in Hm, Hlow, Hfit.
  rewrite (turn_request o stray chunk0 word0 conf0 verify_cb fuel t from request (evs ++ r) Hrx Hreq).
  destruct (serve_cases o stray chunk0 word0 conf0 Hsec Hsize Hck Hmax Hl verify_cb fuel from
    (set_rx (evs ++ r) t)) as [(t1 & _ & _ & _ & [?|?])|[_ Hserve]]; [done|done|done|].
  change (tflash (set_rx (evs ++ r) t)) with (tflash t) in Hserve. fold s slot start in Hserve.
  set (t1 := serving from (set_rx (evs ++ r) t)) in *.
  destruct (tftp_receive_image Hsec stray chunk0 word0 false start img evs r None t1 fuel)
    as (err & t2 & E2 & [Hh2 _] & Hrx2 & Hpa & Hres); auto.
  { unfold SECTOR_SIZE in *. lia. }
  { lia. }
  { unfold all_sent, t1. simpl. unfold all_sent in Hs. destruct (send_errs t); [done|]. by apply Forall_inv_tail in Hs. }
  change (tflash t1) with (tflash t) in Hpa.
  destruct Hres as [(_ & -> & js & (_ & _ & Htx) & Hord)|[Hno _]].
  2:{ exfalso. apply Hno. by eapply (upload_accepted irom). }
  specialize (Hserve ERR_OK t2 E2). cbv zeta in Hserve. rewrite Z.eqb_refl in Hserve. cbn [andb] in Hserve.
  assert (Hcb1 : match verify_cb with Some cb => cb slot | None => true end = true)
    by (destruct verify_cb; auto). rewrite Hcb1 in Hserve.
  change (heap (application t1)) with (heap (application t)) in Hh2. rewrite Hheap in Hh2.
  assert (Es : config_sector (tflash t2) = s).
  { apply (config_sector_slot start); [done|]. intros x Hx. apply (pa_out _ _ _ _ _ Hpa).
    pose proof (sector_up_range (start + Z.of_nat (length img) + 1)).
    unfold SECTOR_SIZE, MAX_IMAGE_SIZE in *. destruct Hx; [by left|right].
    unfold sector_up, SECTOR_SIZE. Z.div_mod_to_equations. lia. }
  assert (Ea : application t2 = App (tflash t2) (Some junk :: h)).
  { unfold tflash. rewrite <- Hh2. by destruct (application t2). }
  rewrite Ea in Hserve.
  destruct (set_current_rom_run Hsec Hsize o (tflash t2) h junk conf0 slot) as (d' & Eset & Hg & Ho); auto;
    [rewrite (sizeof_config o Hck); lia|lia|rewrite Es; by apply config_sector_bytes|by rewrite Es|lia|].
  rewrite Es in Hg. eexists. split; [by eapply Hserve|]. change (tflash (set_restarted _)) with d'.
  split; [done|]. split; [done|]. split; [|split; [|split]].
  - intros i b Hi. rewrite Ho by lia. by apply (pa_image _ _ _ _ _ Hpa).
  - intros x Hx. rewrite Ho by (pose proof (sector_up_range (start + Z.of_nat (length img) + 1));
      unfold SECTOR_SIZE in *; lia). apply (pa_out _ _ _ _ _ Hpa). unfold SECTOR_SIZE in *. lia.
  - exists js. split; [|done]. simpl. rewrite Htx. simpl. by rewrite map_app, <- app_assoc.
  - intros m' Hr Hb' Htemp. apply (reconfigured_boots o ob loader Hsize ltac:(lia) Hsame Hgpio rtc0 ram d' m' s slot); auto.
    + lia.
    + destruct irom as [code|]; simpl; unfold SECTOR_SIZE in *; lia.
    + eapply (upload_boots irom ss bs pad Hup start Hm Hlow Hlen Hfit ob m'); eauto.
      intros p n ???. apply Hr; unfold BUFFER_SIZE, SECTOR_SIZE in *; lia.
Qed.

(** ** The client *)

Section download.
Context `{FlashOk D}.
Implicit Types (t : tftp D).

(** Binding to a port only uses up the answers of netconn_bind. *)
Lemma bind_loop_run n t : exists err t', bind_loop n t = Some (err, t') /\
  application t' = application t /\ restarted t' = restarted t /\ rx t' = rx t /\ dns t' = dns t.
Proof.
  revert t; induction n as [|n IH]; intros t; cbn [bind_loop].
  { do 2 eexists. split; [reflexivity|]. done. }
  unfold mbind, st_bind, st_get, st_put. cbn beta iota.
  destruct (_ =? ERR_USE); [|do 2 eexists; split; [reflexivity|done]].
  destruct (IH {| application := application t; rx := rx t; connected := connected t;
    send_errs := send_errs t; nc_ok := nc_ok t; bind_errs := tail (bind_errs t);
    dns := dns t; tx := tx t; progress := progress t; restarted := restarted t |}) as (err & t' & -> & Hx).
  by exists err, t'.
Qed.
End download.

(** A download into the current slot, or into one that is not configured, is
    refused; any other download ends, whatever the network does, and changes nothing
    but the slot, and it returns ERR_OK only when [rboot_verify_image] accepts what
    the slot then holds.  The configuration stays as it is. *)
Theorem ota_tftp_download_confined `{FlashOk D} o stray chunk0 word0 conf0 fuel port filename ota_slot
    receive_cb (t : tftp D) :
  sector_size (sdk_flashchip (D:=D)) = SECTOR_SIZE ->
  2 * SECTOR_SIZE <= chip_size (sdk_flashchip (D:=D)) ->
  BOOT_CONFIG_CHKSUM o = true -> 1 <= MAX_ROMS o <= 900 ->
  Z.of_nat (length conf0) = sizeof_rboot_config o ->
  let d := tflash t in
  let s := config_sector d in
  slots_ok o (chip_size (sdk_flashchip (D:=D))) s -> 0 <= ota_slot ->
  Forall event_ok (rx t) -> 11 * Z.of_nat (length (rx t)) + 11 <= Z.of_nat fuel ->
  let start := slot_start s ota_slot in
  let download := ota_tftp_download o stray chunk0 word0 conf0 fuel port filename ota_slot receive_cb t in
  (ota_slot = current_slot s \/ get8 s cf_count <= ota_slot -> download = Some (ERR_VAL, t)) /\
  (ota_slot <> current_slot s -> ota_slot < get8 s cf_count ->
   exists err t', download = Some (err, t') /\ same_world t t' /\
     only_slot start d (tflash t') /\ config_sector (tflash t') = s /\
     (err = ERR_OK -> exists n, rboot_verify_image (tflash t') chunk0 word0 start = Some (None, n))).
Proof.
  intros Hsec Hsize Hck Hmax Hl d s (Hcount & H255 & Hslots) Hslot Hrx Hf start download.
  pose proof (length_config_sector (tflash t)) as Hls. fold d s in Hls.
  pose proof (sizeof_config o Hck) as Hsz. set (conf := take (Z.to_nat (sizeof_rboot_config o)) s).
  assert (Hcfg : on_app (rboot_get_config o conf0) t = Some (conf, t)).
  { unfold on_app. unfold conf, s, d, tflash. destruct t as [[d0 h] ? ? ? ? ? ? ? ? ?]. cbn [application flash].
    rewrite get_config_run by (auto; lia). done. }
  assert (Hconf : forall i, 0 <= i < sizeof_rboot_config o -> get8 conf i = get8 s i)
    by (intros; by apply config_fields).
  unfold download, ota_tftp_download. rewrite (bind_run _ _ _ _ _ Hcfg).
  rewrite !Hconf by (unfold cf_count, cf_current_rom; lia). fold (current_slot s).
  split.
  { intros Hno. replace ((current_slot s =? ota_slot) || _) with true; [done|]. symmetry.
    apply orb_true_iff. destruct Hno; [left|right]; lia. }
  intros Hne Hin. rewrite (proj2 (Z.eqb_neq _ _)), (proj2 (Z.leb_gt _ _)) by (done || lia). cbn [orb].
  destruct (Hslots ota_slot ltac:(lia)) as (Hm & Hlow & Hfit). fold start in Hm, Hlow, Hfit.
  assert (Hdone : forall err t', application t' = application t -> restarted t' = restarted t ->
    err <> ERR_OK -> same_world t t' /\ only_slot start d (tflash t') /\ config_sector (tflash t') = s /\
    (err = ERR_OK -> exists n, rboot_verify_image (tflash t') chunk0 word0 start = Some (None, n))).
  { intros err t' Ha Hr He. unfold same_world, tflash. rewrite Ha. by split_and!. }
  unfold mbind at 1, st_bind at 1, st_get. cbn beta iota.
  destruct (nc_ok t); cbn [negb]; [|by exists ERR_IF, t; split; [|apply Hdone]].
  destruct (bind_loop_run 10 t) as (err & t1 & E1 & Ha1 & Hr1 & Hx1 & Hd1). rewrite (bind_run _ _ _ _ _ E1).
  destruct (Z.eqb_spec err 0); cbn [negb]; [|by exists err, t1; split; [|apply Hdone]].
  destruct (dns t) as [err' addr].
  destruct (Z.eqb_spec err' 0); cbn [negb]; [|by exists err', t1; split; [|apply Hdone]].
  rewrite (bind_run _ _ _ () (set_connected (Some (addr, port)) t1)) by done.
  unfold mbind, st_bind, tftp_send_rrq, netconn_send. set (sent := default ERR_OK _).
  set (t2 := set_sent _ _ _). destruct (Z.eqb_spec sent 0); cbn [negb];
    [|by exists sent, t2; split; [|apply Hdone]].
  assert (Hstart : get32 conf (cf_roms ota_slot) = start).
  { unfold start, slot_start. unfold SECTOR_SIZE in Hls. apply get32_get8; unfold cf_roms;
      [lia|unfold conf; rewrite length_take; lia|lia|]. intros; apply Hconf; lia. }
  pose proof (chip_facts Hsec) as (_ & Hc & _).
  rewrite Hstart, u32_small by (unfold SECTOR_SIZE, MAX_IMAGE_SIZE in *; lia).
  destruct (tftp_receive_confined Hsec stray chunk0 word0 receive_cb start (Some (addr, port)) t2 fuel)
    as (err2 & t3 & E3 & [Hh3 Hr3] & Ho3 & Hv3); auto.
  { unfold SECTOR_SIZE in *; lia. }
  { simpl. by rewrite Hx1. }
  { simpl. by rewrite Hx1. }
  assert (Hd2 : tflash t2 = d) by (unfold tflash; simpl; by rewrite Ha1).
  rewrite Hd2 in Ho3. exists err2, t3. split; [done|]. split; [|split; [done|split; [|done]]].
  - split; [rewrite Hh3|rewrite Hr3]; simpl; congruence.
  - by apply (config_sector_slot start).
Qed.

(** ** Witnesses *)

(** The chip of [dev2]: slot 0 is current, slot 1 at 0x2000 is next.  The image of
    [ota1] is uploaded again, in one block. *)
Definition pad1 : list Z := replicate (79 - length ota1) 0xff.
Definition upload1 : list Z := upload_bytes sections1 ota1 pad1.
Definition request1 : list segment :=
  [(2, be16 TFTP_OP_WRQ ++ TFTP_FIRMWARE_FILE ++ [0] ++ TFTP_OCTET_MODE ++ [0])].
Definition block1 : list segment := [(0, be16 TFTP_OP_DATA ++ be16 1 ++ upload1)].
Definition tftp1 (events : list rx_event) : tftp spi_dev :=
  {| application := App dev2 [Some []]; rx := events; connected := None; send_errs := [];
     nc_ok := true; bind_errs := []; dns := (ERR_OK, 1); tx := []; progress := []; restarted := false |}.

Lemma block1_ok : segs_ok block1.
Proof.
  split; [by exists 0, (be16 TFTP_OP_DATA ++ be16 1 ++ upload1), []; split; [|vm_compute; lia]|].
  split; [by left|by vm_compute].
Qed.
Lemma request1_ok : segs_ok request1.
Proof.
  split; [by do 3 eexists; split; [reflexivity|vm_compute; lia]|]. split; [|by vm_compute].
  right; right. vm_compute; lia.
Qed.
Lemma upload1_ok : upload (Some code1) sections1 ota1 pad1.
Proof.
  split; [|by vm_compute|by repeat constructor|by intros ? [= <-]|by vm_compute; lia|by vm_compute].
  exists 0, 0, 0x40100004, 0, 0, 0x40100004. by split_and!.
Qed.
Lemma dev2_slots : slots_ok api_options (chip_size (sdk_flashchip (D:=spi_dev))) (config_sector dev2).
Proof.
  assert (Hc : get8 (config_sector dev2) cf_count = 2) by by vm_compute.
  unfold slots_ok. rewrite Hc. split; [by split|]. split; [done|]. intros slot Hslot.
  assert (slot = 0 \/ slot = 1) as [-> | ->] by lia; by vm_compute.
Qed.

(** The same with slots a megabyte apart: slot 0 at 0x2000 is current. *)
Definition conf3 : list Z :=
  [BOOT_CONFIG_MAGIC; BOOT_CONFIG_VERSION; 0; 0; 0; 2; 0; 0] ++ le_bytes 4 0x2000 ++ le_bytes 4 0x102000 ++
  le_bytes 4 0 ++ le_bytes 4 0.
Definition dev3 : spi_dev := set_cells (sim_put (cells dev1) SECTOR_SIZE conf3) blank_dev.
Definition tftp3 (events : list rx_event) : tftp spi_dev := set_app (App dev3 [Some []]) (tftp1 events).
Lemma dev3_slots : slots_ok api_options (chip_size (sdk_flashchip (D:=spi_dev))) (config_sector dev3).
Proof.
  assert (Hc : get8 (config_sector dev3) cf_count = 2) by by vm_compute.
  unfold slots_ok. rewrite Hc. split; [by split|]. split; [done|]. intros slot Hslot.
  assert (slot = 0 \/ slot = 1) as [-> | ->] by lia; by vm_compute.
Qed.

Lemma tftp_turn_safe_witness :
  exists t', tftp_turn api_options (fun _ => 0) [] [] (replicate 28 0) None 40
      (tftp3 [RxPacket (1, 69) request1; RxPacket (1, 70) block1]) = Some ((), t') /\
    ((restarted t' = false /\ only_slot 0x102000 dev3 (tflash t')) \/ restarted t' = true) /\
    fbyte (tflash t') 0x2000 = fbyte dev3 0x2000.
Proof.
  destruct (tftp_turn_safe api_options (fun _ => 0) [] [] (replicate 28 0) None 40
    (tftp3 [RxPacket (1, 69) request1; RxPacket (1, 70) block1])) as (t' & E & Hcase & Hkept).
  - reflexivity.
  - by vm_compute.
  - reflexivity.
  - simpl. lia.
  - reflexivity.
  - apply config_sector_bytes. intros x. apply cells_bytes. by vm_compute.
  - exact dev3_slots.
  - constructor; [exact request1_ok|]. constructor; [exact block1_ok|constructor].
  - simpl. lia.
  - exists t'. split; [exact E|]. split.
    + destruct Hcase as [(Hr & Ho & _)|(Hr & _)]; [left; by split|by right].
    + apply Hkept; [by vm_compute|left; by vm_compute|split; by vm_compute].
Defined.

Lemma tftp_update_boots_witness :
  exists t', tftp_turn api_options (fun _ => 0) [] [] (replicate 28 0) None 1
      (tftp1 (RxPacket (1, 69) request1 :: [RxPacket (1, 70) block1])) = Some ((), t') /\
    restarted t' = true /\ fbyte (tflash t') 0x2000 = ROM_MAGIC_NEW1.
Proof.
  destruct (tftp_update_boots (M:=dev_machine) api_options default_options loader1 (fun _ => 0) [] [] (replicate 28 0)
    None 1 (tftp1 (RxPacket (1, 69) request1 :: [RxPacket (1, 70) block1])) (1, 69) request1
    [RxPacket (1, 70) block1] [] [] [] (replicate 12 0) (fun _ => 0) (Some code1) sections1 ota1 pad1)
    as (t' & E & Hr & _ & Hi & _ & _ & _).
  - reflexivity.
  - by vm_compute.
  - reflexivity.
  - simpl. lia.
  - reflexivity.
  - reflexivity.
  - reflexivity.
  - reflexivity.
  - reflexivity.
  - intros x. apply cells_bytes. by vm_compute.
  - by vm_compute.
  - exact dev2_slots.
  - by vm_compute.
  - done.
  - exact upload1_ok.
  - apply bytes_check. by vm_compute.
  - by vm_compute.
  - split; [by exists []|by vm_compute].
  - apply (delivers_block 1 [] (1, 70) block1 upload1 [] []); [|split; [done|exact block1_ok]|constructor].
    split; [constructor|done].
  - reflexivity.
  - constructor.
  - reflexivity.
  - simpl. lia.
  - exists t'. split; [exact E|]. split; [exact Hr|]. by apply (Hi 0%nat).
Defined.

Lemma ota_tftp_download_confined_witness :
  exists err t', ota_tftp_download api_options (fun _ => 0) [] [] (replicate 28 0) 40 69 [102] 1 true
      (tftp1 [RxPacket (1, 70) block1]) = Some (err, t') /\
    config_sector (tflash t') = config_sector dev2.
Proof.
  destruct (ota_tftp_download_confined api_options (fun _ => 0) [] [] (replicate 28 0) 40 69 [102] 1 true
    (tftp1 [RxPacket (1, 70) block1])) as [_ Hd].
  - reflexivity.
  - by vm_compute.
  - reflexivity.
  - simpl. lia.
  - reflexivity.
  - exact dev2_slots.
  - lia.
  - constructor; [exact block1_ok|constructor].
  - simpl. lia.
  - destruct Hd as (err & t' & E & _ & _ & Hc & _); [by vm_compute|by vm_compute|].
    exists err, t'. split; [exact E|exact Hc].
Defined.
