(* ===== verification/MqttPacket.v ===== *)
(** * MQTT packet primitives (extras/paho_mqtt_c/MQTTPacket.c)

    The buffer a packet is built in, or parsed from, is the list of its bytes
    and a pointer into it is an offset.  A load or a store outside of the
    buffer has no result ([None]), so a theorem that a routine returns a
    result also says that the routine stays inside of its buffer. *)

From S2P Require Import Prelude.

Local Open Scope Z_scope.

(** ** The buffer *)

Notation mem := (list Z).

Definition zlen {A} (l : list A) : Z := Z.of_nat (length l).

(** The buffer [m] with the bytes [bs] stored from offset [p] on. *)
Definition splice (p : Z) (bs m : mem) : mem :=
  take (Z.to_nat p) m ++ bs ++ drop (Z.to_nat p + length bs) m.

(** [memcpy(buf + p, bs, zlen bs)]. *)
Definition mem_put (p : Z) (bs : mem) : ST mem unit := fun m =>
  if (0 <=? p) && (p + zlen bs <=? zlen m) then Some ((), splice p bs m) else None.
Definition mem_get (p : Z) : ST mem Z := fun m =>
  if (0 <=? p) && (p <? zlen m) then Some (nth (Z.to_nat p) m 0, m) else None.

(** An argument that is not there: a null or short source pointer. *)
Definition st_opt {W A} (o : option A) : ST W A := fun w =>
  match o with Some x => Some (x, w) | None => None end.

(** ** The header byte: MQTTHeader *)

Definition CONNECT : Z := 1.
Definition CONNACK : Z := 2.
Definition PUBLISH : Z := 3.
Definition PUBACK : Z := 4.
Definition PUBREC : Z := 5.
Definition PUBREL : Z := 6.
Definition PUBCOMP : Z := 7.
Definition SUBSCRIBE : Z := 8.
Definition SUBACK : Z := 9.
Definition UNSUBSCRIBE : Z := 10.
Definition UNSUBACK : Z := 11.
Definition PINGREQ : Z := 12.
Definition PINGRESP : Z := 13.
Definition DISCONNECT : Z := 14.

Definition MQTTPACKET_BUFFER_TOO_SHORT : Z := -2.
Definition MQTTPACKET_READ_ERROR : Z := -1.
Definition MAX_NO_OF_REMAINING_LENGTH_BYTES : Z := 4.

(** The union's byte, from its bit fields and back. *)
Record MQTTHeader := Header { h_type : Z; h_dup : Z; h_qos : Z; h_retain : Z }.

Definition header_byte (h : MQTTHeader) : Z :=
  Z.land (h_retain h) 1 + 2 * Z.land (h_qos h) 3 + 8 * Z.land (h_dup h) 1 +
  16 * Z.land (h_type h) 15.
Definition header_of (b : Z) : MQTTHeader :=
  {| h_type := Z.land (Z.shiftr b 4) 15; h_dup := Z.land (Z.shiftr b 3) 1;
     h_qos := Z.land (Z.shiftr b 1) 3; h_retain := Z.land b 1 |}.

(** ** Strings: MQTTString *)

(** A C string pointer, and a length with a data pointer; [None] is NULL and
    [Some s] the memory from the pointer on. *)
Record MQTTString := MString {
  cstring : option mem;
  ls_len : Z;
  ls_data : option mem;
}.

Definition MQTTString_initializer : MQTTString := MString None 0 None.

(** ** The remaining length *)

(** The bytes that the do-while loop of [MQTTPacket_encode] stores; [S fuel]
    iterations. *)
Fixpoint encode_bytes (fuel : nat) (length : Z) : mem :=
  let d := u8 (Z.rem length 128) in
  let length := Z.quot length 128 in
  match fuel with
  | S fuel => if 0 <? length then Z.lor d 0x80 :: encode_bytes fuel length else [d]
  | O => [d]
  end.

(** Stores the length at [buf] and returns the number of bytes. *)
Fixpoint MQTTPacket_encode_loop (fuel : nat) (buf rc length : Z) : ST mem Z :=
  match fuel with
  | O => out_of_fuel
  | S fuel =>
      let d := u8 (Z.rem length 128) in
      let length := Z.quot length 128 in
      let d := if 0 <? length then Z.lor d 0x80 else d in
      mem_put (buf + rc) [d] ;;
      let rc := rc + 1 in
      if 0 <? length then MQTTPacket_encode_loop fuel buf rc length else mret rc
  end.
Definition MQTTPacket_encode (buf length : Z) : ST mem Z :=
  MQTTPacket_encode_loop 5 buf 0 length.

(** A source of bytes: asked for [n] bytes, it returns the result of the call
    and the bytes it stored at the destination. *)
Definition getfn (T : Type) : Type := Z -> ST T (Z * mem).

Section decode.
Context {T : Type} (getcharfn : getfn T).

(** One iteration per unit of fuel; the result is [len] and [*value]. *)
Fixpoint MQTTPacket_decode_loop (fuel : nat) (len multiplier value : Z) : ST T (Z * Z) :=
  match fuel with
  | O => out_of_fuel
  | S fuel =>
      let len := len + 1 in
      if MAX_NO_OF_REMAINING_LENGTH_BYTES <? len then mret (len, value) else
      r ← getcharfn 1;
      if negb (r.1 =? 1) then mret (len, value) else
      c ← st_opt (head r.2);
      let value := value + Z.land c 127 * multiplier in
      let multiplier := multiplier * 128 in
      if negb (Z.land c 128 =? 0)
      then MQTTPacket_decode_loop fuel len multiplier value
      else mret (len, value)
  end.
Definition MQTTPacket_decode : ST T (Z * Z) := MQTTPacket_decode_loop 5 0 1 0.
End decode.

Definition MQTTPacket_len (rem_len : Z) : Z :=
  let rem_len := rem_len + 1 in
  if rem_len <? 128 then rem_len + 1
  else if rem_len <? 16384 then rem_len + 2
  else if rem_len <? 2097151 then rem_len + 3
  else rem_len + 4.

(** The source that reads a buffer through the static [bufptr]; all [count]
    bytes go to the same [*c]. *)
Fixpoint bufchar_loop (count : nat) (c : mem) : ST (mem * Z) mem :=
  match count with
  | O => mret c
  | S count => fun s =>
      match mem_get s.2 s.1 with
      | Some (b, _) => bufchar_loop count [b] (s.1, s.2 + 1)
      | None => None
      end
  end.
Definition bufchar : getfn (mem * Z) := fun count =>
  c ← bufchar_loop (Z.to_nat count) []; mret (count, c).

Definition MQTTPacket_decodeBuf (buf : Z) : ST mem (Z * Z) := fun m =>
  match MQTTPacket_decode bufchar (m, buf) with
  | Some (r, _) => Some (r, m)
  | None => None
  end.

(** ** Characters, integers and strings

    [pptr] is passed as the offset and returned with the result. *)

Definition readInt (ptr : Z) : ST mem (Z * Z) :=
  a ← mem_get ptr; b ← mem_get (ptr + 1); mret (256 * a + b, ptr + 2).
Definition readChar (ptr : Z) : ST mem (Z * Z) :=
  c ← mem_get ptr; mret (c, ptr + 1).
Definition writeChar (c ptr : Z) : ST mem Z :=
  mem_put ptr [u8 c] ;; mret (ptr + 1).
Definition writeInt (anInt ptr : Z) : ST mem Z :=
  mem_put ptr [u8 (Z.quot anInt 256)] ;;
  let ptr := ptr + 1 in
  mem_put ptr [u8 (Z.rem anInt 256)] ;;
  mret (ptr + 1).
Definition writeCString (string : mem) (ptr : Z) : ST mem Z :=
  let len := strlen string in
  ptr ← writeInt len ptr;
  mem_put ptr (take (Z.to_nat len) string) ;;
  mret (ptr + len).

(** The [len] bytes at a data pointer. *)
Definition data_bytes (data : option mem) (len : Z) : option mem :=
  match data with
  | Some d => if len <=? zlen d then Some (take (Z.to_nat len) d) else None
  | None => None
  end.

Definition writeMQTTString (s : MQTTString) (ptr : Z) : ST mem Z :=
  if 0 <? ls_len s then
    ptr ← writeInt (ls_len s) ptr;
    d ← st_opt (data_bytes (ls_data s) (ls_len s));
    mem_put ptr d ;;
    mret (ptr + ls_len s)
  else
    match cstring s with
    | Some cs => writeCString cs ptr
    | None => writeInt 0 ptr
    end.

(** Result: the return value, the string and the pointer after the call. *)
Definition readMQTTLenString (s : MQTTString) (ptr enddata : Z) : ST mem (Z * MQTTString * Z) :=
  if 1 <? enddata - ptr then
    r ← readInt ptr;
    let (len, ptr) := (r : Z * Z) in
    if ptr + len <=? enddata then
      m ← st_get;
      mret (1, MString None len (Some (drop (Z.to_nat ptr) m)), ptr + len)
    else mret (0, MString None len (ls_data s), ptr)
  else mret (0, MString None (ls_len s) (ls_data s), ptr).

Definition getLenStringLen (ptr : Z) : ST mem Z :=
  a ← mem_get ptr; b ← mem_get (ptr + 1); mret (256 * a + b).

Definition MQTTstrlen (s : MQTTString) : Z :=
  match cstring s with
  | Some cs => strlen cs
  | None => ls_len s
  end.

(** [strncmp(a, b, n) == 0], the characters of a C string ending at its NUL. *)
Fixpoint strncmp0 (n : nat) (a b : mem) : bool :=
  match n with
  | O => true
  | S n =>
      let x := default 0 (head a) in
      let y := default 0 (head b) in
      if negb (x =? y) then false
      else if x =? 0 then true
      else strncmp0 n (tail a) (tail b)
  end.

(** A null data pointer is compared like an empty one: the length is 0 then. *)
Definition MQTTPacket_equals (a : MQTTString) (bptr : mem) : bool :=
  let (aptr, alen) :=
    match cstring a with
    | Some cs => (cs, strlen cs)
    | None => (default [] (ls_data a), ls_len a)
    end in
  (alen =? strlen bptr) && strncmp0 (Z.to_nat alen) aptr bptr.

(** ** Reading a packet from a source

    The state is the buffer and the state of the source. *)
Section read.
Context {T : Type} (getfn : getfn T).

(** Lift a computation on the buffer, or on the source. *)
Definition on_buf {A} (f : ST mem A) : ST (mem * T) A := fun w =>
  match f w.1 with Some (x, m) => Some (x, (m, w.2)) | None => None end.
Definition on_src {A} (f : ST T A) : ST (mem * T) A := fun w =>
  match f w.2 with Some (x, t) => Some (x, (w.1, t)) | None => None end.

(** [( *getfn)(buf + p, n)]. *)
Definition get_into (p n : Z) : ST (mem * T) Z :=
  r ← on_src (getfn n);
  on_buf (mem_put p r.2) ;;
  mret r.1.

Definition MQTTPacket_read (buflen : Z) : ST (mem * T) Z :=
  rc ← get_into 0 1;
  if negb (rc =? 1) then mret (-1) else
  let len := 1 in
  r ← on_src (MQTTPacket_decode getfn);
  let rem_len := r.2 in
  n ← on_buf (MQTTPacket_encode 1 rem_len);
  let len := len + n in
  if buflen <? rem_len + len then mret (-1) else
  rc ← get_into len rem_len;
  if negb (rc =? rem_len) then mret (-1) else
  b ← on_buf (mem_get 0);
  mret (h_type (header_of b)).
End read.

(** ** Reading a packet without blocking: MQTTTransport *)

Record MQTTTransport := Transport {
  trp_multiplier : Z; trp_rem_len : Z; trp_len : Z; trp_state : Z }.

Section readnb.
Context {T : Type} (getfn : getfn T).

(** The state: the buffer, the source and the transport. *)
Definition nb_state : Type := (mem * T) * MQTTTransport.

Definition on_mem {A} (f : ST (mem * T) A) : ST nb_state A := fun w =>
  match f w.1 with Some (x, m) => Some (x, (m, w.2)) | None => None end.
Definition trp_get : ST nb_state MQTTTransport := fun w => Some (w.2, w).
Definition trp_set (f : MQTTTransport -> MQTTTransport) : ST nb_state unit := fun w =>
  Some ((), (w.1, f w.2)).

Definition set_len (n : Z) (t : MQTTTransport) : MQTTTransport :=
  Transport (trp_multiplier t) (trp_rem_len t) n (trp_state t).
Definition set_state (n : Z) (t : MQTTTransport) : MQTTTransport :=
  Transport (trp_multiplier t) (trp_rem_len t) (trp_len t) n.

Fixpoint decodenb_loop (fuel : nat) : ST nb_state Z :=
  match fuel with
  | O => out_of_fuel
  | S fuel =>
      trp_set (fun t => set_len (trp_len t + 1) t) ;;
      t ← trp_get;
      if MAX_NO_OF_REMAINING_LENGTH_BYTES <? trp_len t then mret MQTTPACKET_READ_ERROR else
      r ← on_mem (on_src (getfn 1));
      if r.1 =? -1 then mret MQTTPACKET_READ_ERROR else
      if r.1 =? 0 then mret 0 else
      c ← st_opt (head r.2);
      trp_set (fun t => Transport (trp_multiplier t * 128)
        (trp_rem_len t + Z.land c 127 * trp_multiplier t) (trp_len t) (trp_state t)) ;;
      if negb (Z.land c 128 =? 0) then decodenb_loop fuel else mret (trp_len t)
  end.
Definition MQTTPacket_decodenb : ST nb_state Z :=
  t ← trp_get;
  (if trp_len t =? 0 then trp_set (fun t => Transport 1 0 (trp_len t) (trp_state t))
   else mret ()) ;;
  decodenb_loop 6.

(** The label [exit], which resets the state. *)
Definition nb_exit (rc : Z) : ST nb_state Z := trp_set (set_state 0) ;; mret rc.

(** The cases of the switch, each falling through to the next one. *)
Definition readnb_2 : ST nb_state Z :=
  t ← trp_get;
  frc ← on_mem (get_into getfn (trp_len t) (trp_rem_len t));
  if frc =? -1 then nb_exit (-1) else
  if frc =? 0 then mret 0 else
  trp_set (fun t => Transport (trp_multiplier t) (trp_rem_len t - frc) (trp_len t + frc)
    (trp_state t)) ;;
  t ← trp_get;
  if negb (trp_rem_len t =? 0) then mret 0 else
  b ← on_mem (on_buf (mem_get 0));
  nb_exit (h_type (header_of b)).
Definition readnb_1 (buflen : Z) : ST nb_state Z :=
  frc ← MQTTPacket_decodenb;
  if frc =? MQTTPACKET_READ_ERROR then nb_exit (-1) else
  if frc =? 0 then mret 0 else
  t ← trp_get;
  n ← on_mem (on_buf (MQTTPacket_encode 1 (trp_rem_len t)));
  trp_set (set_len (1 + n)) ;;
  if buflen <? trp_rem_len t + (1 + n) then nb_exit (-1) else
  trp_set (fun t => set_state (trp_state t + 1) t) ;;
  readnb_2.
Definition readnb_0 (buflen : Z) : ST nb_state Z :=
  frc ← on_mem (get_into getfn 0 1);
  if frc =? -1 then nb_exit (-1) else
  if frc =? 0 then mret 0 else
  trp_set (fun t => set_state (trp_state t + 1) (set_len 0 t)) ;;
  readnb_1 buflen.
Definition MQTTPacket_readnb (buflen : Z) : ST nb_state Z :=
  t ← trp_get;
  if trp_state t =? 1 then readnb_1 buflen
  else if trp_state t =? 2 then readnb_2
  else trp_set (set_state 0) ;; readnb_0 buflen.
End readnb.
