(* ===== verification/MqttWire.v ===== *)
(** * What the MQTT primitives put on the wire

    [emits f bs]: at any offset of a buffer with room for it, [f] stores the
    bytes [bs] and moves the pointer past them.  [mem_at] says that bytes lie at
    an offset, for the readers.  The lemmas compose along the code of a packet. *)

From S2P Require Import Prelude MqttPacket.

Local Open Scope Z_scope.

Lemma zlen_nil {A} : zlen ([] : list A) = 0.
Proof. done. Qed.
Lemma zlen_cons {A} (x : A) l : zlen (x :: l) = 1 + zlen l.
Proof. unfold zlen. simpl. lia. Qed.
Lemma zlen_app {A} (l k : list A) : zlen (l ++ k) = zlen l + zlen k.
Proof. unfold zlen. rewrite length_app. lia. Qed.
Lemma zlen_nonneg {A} (l : list A) : 0 <= zlen l.
Proof. unfold zlen. lia. Qed.
Lemma zlen_take {A} n (l : list A) : 0 <= n <= zlen l -> zlen (take (Z.to_nat n) l) = n.
Proof. unfold zlen. intros. rewrite length_take. lia. Qed.
#[export] Hint Rewrite @zlen_nil @zlen_cons @zlen_app : esp_len.
#[export] Hint Resolve zlen_nonneg : esp.

Ltac zlen_lia := autorewrite with esp_len in *; lia.

(** ** Stores *)

Lemma zlen_splice p bs m : 0 <= p -> p + zlen bs <= zlen m -> zlen (splice p bs m) = zlen m.
Proof.
  unfold zlen, splice. intros. rewrite !length_app, length_take, length_drop. lia.
Qed.

Lemma splice_nil p m : splice p [] m = m.
Proof. unfold splice. simpl. rewrite Nat.add_0_r. apply take_drop. Qed.

Lemma splice_app p a b m :
  0 <= p -> p + zlen a + zlen b <= zlen m ->
  splice (p + zlen a) b (splice p a m) = splice p (a ++ b) m.
Proof.
  intros Hp Hm. unfold splice, zlen in *. rewrite length_app.
  assert (Hl : length (take (Z.to_nat p) m ++ a) = Z.to_nat (p + Z.of_nat (length a))).
  { rewrite length_app, length_take. lia. }
  rewrite (app_assoc (take (Z.to_nat p) m) a), <- Hl.
  rewrite take_app_length, <- !app_assoc. f_equal. f_equal. f_equal.
  rewrite (app_assoc (take (Z.to_nat p) m) a), drop_app_ge by lia.
  rewrite drop_drop. f_equal. lia.
Qed.

Lemma splice_at p bs m : 0 <= p -> p + zlen bs <= zlen m ->
  take (Z.to_nat (zlen bs)) (drop (Z.to_nat p) (splice p bs m)) = bs.
Proof.
  unfold splice, zlen. intros. rewrite drop_app_ge by (rewrite length_take; lia).
  rewrite length_take, Nat2Z.id. replace (_ - _)%nat with 0%nat by lia.
  rewrite drop_0. apply take_app_length.
Qed.

Lemma splice_0 bs m : zlen bs <= zlen m -> splice 0 bs m = bs ++ drop (length bs) m.
Proof. done. Qed.

Lemma mem_put_run p bs m :
  0 <= p -> p + zlen bs <= zlen m -> mem_put p bs m = Some ((), splice p bs m).
Proof.
  intros. unfold mem_put.
  rewrite (proj2 (Z.leb_le 0 p)), (proj2 (Z.leb_le (p + zlen bs) (zlen m))) by lia. done.
Qed.

Lemma mem_get_run p m :
  0 <= p < zlen m -> mem_get p m = Some (nth (Z.to_nat p) m 0, m).
Proof.
  intros. unfold mem_get.
  rewrite (proj2 (Z.leb_le 0 p)), (proj2 (Z.ltb_lt p (zlen m))) by lia. done.
Qed.

(** ** Writers *)

Definition emits (f : Z -> ST mem Z) (bs : mem) : Prop :=
  forall p (m : mem), 0 <= p -> p + zlen bs <= zlen m -> f p m = Some (p + zlen bs, splice p bs m).

Lemma emits_ret : emits (fun p => mret p) [].
Proof. intros p m Hp Hm. rewrite splice_nil, zlen_nil, Z.add_0_r. done. Qed.

Lemma emits_bind f g a b :
  emits f a -> emits g b -> emits (fun p => f p ≫= g) (a ++ b).
Proof.
  intros Hf Hg p m Hp Hm. rewrite zlen_app in *. pose proof (zlen_nonneg b).
  pose proof (zlen_nonneg a).
  rewrite (bind_run _ _ _ _ _ (Hf p m ltac:(lia) ltac:(lia))).
  rewrite Hg by (rewrite ?zlen_splice; lia).
  rewrite splice_app by lia. do 2 f_equal. lia.
Qed.

Lemma emits_eq f a b : emits f a -> a = b -> emits f b.
Proof. by intros ? <-. Qed.

Lemma emits_put bs n : n = zlen bs -> emits (fun p => mem_put p bs ;; mret (p + n)) bs.
Proof. intros -> p m Hp Hm. rewrite (bind_run _ _ _ _ _ (mem_put_run p bs m Hp Hm)). done. Qed.

Lemma emits_writeChar c : emits (writeChar c) [u8 c].
Proof. apply (emits_put [u8 c] 1). done. Qed.

Definition int_bytes (n : Z) : mem := [u8 (Z.quot n 256); u8 (Z.rem n 256)].

Lemma emits_ext f g bs : (forall p m, f p m = g p m) -> emits g bs -> emits f bs.
Proof. intros E H p m Hp Hm. rewrite E. auto. Qed.

Lemma emits_writeInt n : emits (writeInt n) (int_bytes n).
Proof.
  apply (emits_ext _ (fun p => (mem_put p [u8 (Z.quot n 256)] ;; mret (p + 1)) ≫=
    (fun p => mem_put p [u8 (Z.rem n 256)] ;; mret (p + 1)))).
  - intros p m. unfold writeInt, mbind, st_bind, mret, st_ret.
    by destruct (mem_put p _ m) as [[[] m']|].
  - apply (emits_bind _ _ [_] [_]); by apply (emits_put [_] 1).
Qed.

Lemma length_take_strlen s : zlen (take (Z.to_nat (strlen s)) s) = strlen s.
Proof. pose proof (strlen_range s). apply zlen_take. unfold zlen. lia. Qed.

Lemma emits_writeCString s :
  emits (writeCString s) (int_bytes (strlen s) ++ take (Z.to_nat (strlen s)) s).
Proof.
  apply (emits_bind (writeInt (strlen s)) _ (int_bytes _)); [apply emits_writeInt|].
  apply emits_put. by rewrite length_take_strlen.
Qed.

(** The characters of a string, and the strings whose length [MQTTstrlen]
    and [writeMQTTString] agree on. *)
Definition mstr_bytes (s : MQTTString) : mem :=
  if 0 <? ls_len s then take (Z.to_nat (ls_len s)) (default [] (ls_data s))
  else match cstring s with
       | Some cs => take (Z.to_nat (strlen cs)) cs
       | None => []
       end.
Definition mstr_ok (s : MQTTString) : Prop :=
  match cstring s with
  | Some cs => ls_len s <= 0
  | None => ls_len s = 0 \/
      (0 < ls_len s /\ exists d, ls_data s = Some d /\ ls_len s <= zlen d)
  end.

Lemma mstr_ok_len s : mstr_ok s -> MQTTstrlen s = zlen (mstr_bytes s).
Proof.
  unfold mstr_ok, mstr_bytes, MQTTstrlen. destruct (cstring s) as [cs|].
  - intros H. destruct (Z.ltb_spec 0 (ls_len s)); [lia|]. by rewrite length_take_strlen.
  - intros [E|[Hl (d & Ed & Hd)]].
    + rewrite E. done.
    + rewrite Ed. destruct (Z.ltb_spec 0 (ls_len s)); [|lia].
      simpl. rewrite zlen_take; lia.
Qed.

Definition lp_bytes (bs : mem) : mem := int_bytes (zlen bs) ++ bs.

Lemma emits_writeMQTTString s : mstr_ok s -> emits (writeMQTTString s) (lp_bytes (mstr_bytes s)).
Proof.
  intros Hok. pose proof (mstr_ok_len s Hok) as El. revert Hok El.
  unfold lp_bytes, mstr_bytes, mstr_ok, MQTTstrlen. destruct (cstring s) as [cs|] eqn:Ec.
  - intros H El. apply (emits_ext _ (writeCString cs)).
    { intros p m. unfold writeMQTTString. rewrite Ec. destruct (Z.ltb_spec 0 (ls_len s)); [lia|done]. }
    destruct (Z.ltb_spec 0 (ls_len s)); [lia|]. rewrite <- El. apply emits_writeCString.
  - intros [E|[Hl (d & Ed & Hd)]] El.
    + apply (emits_ext _ (writeInt 0)).
      { intros p m. unfold writeMQTTString. by rewrite E, Ec. }
      rewrite E in *. rewrite app_nil_r. apply (emits_writeInt 0).
    + destruct (Z.ltb_spec 0 (ls_len s)) as [_|]; [|lia].
      rewrite <- El, Ed. change (default [] (Some d)) with d.
      apply (emits_ext _ (fun p => p ← writeInt (ls_len s) p;
        mem_put p (take (Z.to_nat (ls_len s)) d) ;; mret (p + ls_len s))).
      { intros p m. unfold writeMQTTString. destruct (Z.ltb_spec 0 (ls_len s)) as [_|]; [|lia].
        rewrite Ed. unfold data_bytes. destruct (Z.leb_spec (ls_len s) (zlen d)); [done|lia]. }
      apply (emits_bind (writeInt _) _ (int_bytes _)); [apply emits_writeInt|].
      apply emits_put. rewrite zlen_take; lia.
Qed.

(** ** The remaining length *)

Lemma encode_loop_run fuel buf rc n (m : mem) :
  0 <= n < 128 ^ (Z.of_nat fuel + 1) -> 0 <= buf + rc ->
  buf + rc + zlen (encode_bytes fuel n) <= zlen m ->
  MQTTPacket_encode_loop (S fuel) buf rc n m =
    Some (rc + zlen (encode_bytes fuel n), splice (buf + rc) (encode_bytes fuel n) m).
Proof.
  revert rc n m. induction fuel as [|fuel IH]; intros rc n m Hn Hp Hm.
  - simpl encode_bytes in *. cbn [MQTTPacket_encode_loop].
    assert (E : Z.quot n 128 = 0) by (apply Z.quot_small; lia). rewrite E. simpl.
    by rewrite (bind_run _ _ _ _ _ (mem_put_run (buf + rc) [_] m Hp Hm)).
  - cbn [encode_bytes] in *. remember (S fuel) as f eqn:Ef. cbn [MQTTPacket_encode_loop].
    assert (Hq : 0 <= Z.quot n 128 < 128 ^ (Z.of_nat fuel + 1)).
    { rewrite Z.quot_div_nonneg by lia. split; [apply Z.div_pos; lia|].
      apply Z.div_lt_upper_bound; [lia|].
      rewrite <- Z.pow_succ_r by lia. rewrite Ef, Nat2Z.inj_succ in Hn.
      replace (Z.succ (Z.of_nat fuel + 1)) with (Z.succ (Z.of_nat fuel) + 1) by lia. lia. }
    destruct (Z.ltb_spec 0 (Z.quot n 128)).
    + pose proof (zlen_nonneg (encode_bytes fuel (Z.quot n 128))).
      rewrite zlen_cons in *.
      assert (Hz : forall x : Z, zlen [x] = 1) by done.
      rewrite (bind_run _ _ _ _ _ (mem_put_run (buf + rc) [_] m Hp ltac:(rewrite Hz; lia))).
      rewrite Z.add_assoc in Hm.
      rewrite IH by (rewrite ?zlen_splice, ?Hz; rewrite ?Hz; lia).
      f_equal. f_equal; [lia|]. rewrite Z.add_assoc.
      apply (splice_app (buf + rc) [_]); rewrite ?Hz; lia.
    + by rewrite (bind_run _ _ _ _ _ (mem_put_run (buf + rc) [_] m Hp Hm)).
Qed.

(** The bytes of a remaining length. *)
Definition rl_bytes (n : Z) : mem := encode_bytes 4 n.

Lemma encode_run p n (m : mem) :
  0 <= n < 2 ^ 31 -> 0 <= p -> p + zlen (rl_bytes n) <= zlen m ->
  MQTTPacket_encode p n m = Some (zlen (rl_bytes n), splice p (rl_bytes n) m).
Proof.
  intros Hn Hp Hm. unfold MQTTPacket_encode.
  rewrite (encode_loop_run 4 p 0 n m); rewrite ?Z.add_0_r; try done. lia.
Qed.

Lemma emits_encode n :
  0 <= n < 2 ^ 31 -> emits (fun p => k ← MQTTPacket_encode p n; mret (p + k)) (rl_bytes n).
Proof. intros Hn p m Hp Hm. by rewrite (bind_run _ _ _ _ _ (encode_run p n m Hn Hp Hm)). Qed.

Lemma zlen_encode_bytes fuel n :
  0 <= n -> 1 <= zlen (encode_bytes fuel n) /\
  (forall k, (k <= fuel)%nat -> n < 128 ^ (Z.of_nat k + 1) -> zlen (encode_bytes fuel n) <= Z.of_nat k + 1).
Proof.
  revert n. induction fuel as [|fuel IH]; intros n Hn; cbn [encode_bytes].
  { split; [done|]. intros k Hk _. change (zlen [_]) with 1. lia. }
  assert (Hq : 0 <= Z.quot n 128) by (apply Z.quot_pos; lia).
  destruct (IH (Z.quot n 128) Hq) as [IH1 IH2].
  destruct (Z.ltb_spec 0 (Z.quot n 128)) as [H|H].
  - rewrite zlen_cons. split; [lia|]. intros [|k] Hk Hb.
    + exfalso. rewrite Z.quot_small in H; lia.
    + assert (zlen (encode_bytes fuel (Z.quot n 128)) <= Z.of_nat k + 1); [|lia].
      apply IH2; [lia|]. rewrite Z.quot_div_nonneg by lia.
      apply Z.div_lt_upper_bound; [lia|]. rewrite Nat2Z.inj_succ in Hb.
      rewrite <- Z.pow_succ_r by lia. eapply Z.lt_le_trans; [exact Hb|].
      apply Z.pow_le_mono_r; lia.
  - split; [done|]. intros k Hk _. change (zlen [_]) with 1. lia.
Qed.

Lemma zlen_rl_bytes n :
  0 <= n ->
  zlen (rl_bytes n) <= 5 /\ (n < 128 -> zlen (rl_bytes n) = 1) /\ (n < 2 ^ 14 -> zlen (rl_bytes n) <= 2) /\
  (n < 2 ^ 21 -> zlen (rl_bytes n) <= 3) /\ (n < 2 ^ 28 -> zlen (rl_bytes n) <= 4) /\
  1 <= zlen (rl_bytes n).
Proof.
  intros Hn. unfold rl_bytes. destruct (zlen_encode_bytes 4 n Hn) as [H1 H2].
  pose proof (H2 0%nat ltac:(lia)) as B0. pose proof (H2 1%nat ltac:(lia)) as B1.
  pose proof (H2 2%nat ltac:(lia)) as B2. pose proof (H2 3%nat ltac:(lia)) as B3.
  assert (B4 : zlen (encode_bytes 4 n) <= 5).
  { clear. cbn [encode_bytes].
    repeat match goal with |- context [if ?b then _ else _] => destruct b end;
      autorewrite with esp_len; lia. }
  change (128 ^ _) with (2 ^ 7) in B0. change (128 ^ _) with (2 ^ 14) in B1.
  change (128 ^ _) with (2 ^ 21) in B2. change (128 ^ _) with (2 ^ 28) in B3.
  split; [exact B4|]. repeat (split; [intros Hn'|]); [| | | |exact H1].
  - specialize (B0 ltac:(lia)). lia.
  - specialize (B1 ltac:(lia)). lia.
  - specialize (B2 ltac:(lia)). lia.
  - specialize (B3 ltac:(lia)). lia.
Qed.

(** The buffer space [MQTTPacket_len] asks for is enough for the packet. *)
Lemma MQTTPacket_len_enough n :
  0 <= n < 2 ^ 28 -> 1 + zlen (rl_bytes n) + n <= MQTTPacket_len n.
Proof.
  intros Hn. pose proof (zlen_rl_bytes n ltac:(lia)). unfold MQTTPacket_len.
  destruct (Z.ltb_spec (n + 1) 128); [lia|].
  destruct (Z.ltb_spec (n + 1) 16384); [lia|].
  destruct (Z.ltb_spec (n + 1) 2097151); lia.
Qed.

(** ** Readers *)

(** The bytes [bs] are in the buffer at offset [p]. *)
Definition mem_at (p : Z) (bs m : mem) : Prop :=
  exists pre post, m = pre ++ bs ++ post /\ zlen pre = p.

Lemma mem_at_app p a b m : mem_at p (a ++ b) m <-> mem_at p a m /\ mem_at (p + zlen a) b m.
Proof.
  split.
  - intros (pre & post & -> & <-). split.
    + exists pre, (b ++ post). by rewrite <- !app_assoc.
    + exists (pre ++ a), post. by rewrite zlen_app, <- !app_assoc.
  - intros [(pre & post & -> & <-) (pre' & post' & E & El)].
    exists pre, post'. split; [|done].
    rewrite app_assoc in E. unfold zlen in El.
    apply app_inj_1 in E as [<- ->]; [by rewrite <- !app_assoc|rewrite length_app; lia].
Qed.
Lemma mem_at_cons p b bs m : mem_at p (b :: bs) m <-> mem_at p [b] m /\ mem_at (p + 1) bs m.
Proof. apply (mem_at_app p [b] bs). Qed.

Lemma mem_at_bounds p bs m : mem_at p bs m -> 0 <= p /\ p + zlen bs <= zlen m.
Proof.
  intros (pre & post & -> & <-). autorewrite with esp_len.
  pose proof (zlen_nonneg pre). pose proof (zlen_nonneg post). lia.
Qed.

Lemma mem_at_splice p bs m : 0 <= p -> p + zlen bs <= zlen m -> mem_at p bs (splice p bs m).
Proof.
  intros Hp Hm. exists (take (Z.to_nat p) m). eexists. split; [reflexivity|].
  apply zlen_take. pose proof (zlen_nonneg bs). lia.
Qed.

Lemma mem_get_at p b bs m : mem_at p (b :: bs) m -> mem_get p m = Some (b, m).
Proof.
  intros H. pose proof (mem_at_bounds _ _ _ H) as Hb. rewrite zlen_cons in Hb.
  pose proof (zlen_nonneg bs). destruct H as (pre & post & -> & <-).
  rewrite mem_get_run by lia. do 2 f_equal. unfold zlen. rewrite Nat2Z.id.
  by rewrite app_nth2, Nat.sub_diag by lia.
Qed.

Lemma mem_at_drop p bs m : mem_at p bs m -> take (length bs) (drop (Z.to_nat p) m) = bs.
Proof.
  intros (pre & post & -> & <-). unfold zlen. rewrite Nat2Z.id, drop_app_length.
  apply take_app_length.
Qed.

Lemma int_bytes_val n : 0 <= n < 65536 ->
  256 * u8 (Z.quot n 256) + u8 (Z.rem n 256) = n.
Proof.
  intros Hn. rewrite Z.quot_div_nonneg, Z.rem_mod_nonneg by lia.
  pose proof (Z.mod_pos_bound n 256). pose proof (Z.div_mod n 256).
  assert (0 <= n / 256 < 256) by (split; [apply Z.div_pos; lia|apply Z.div_lt_upper_bound; lia]).
  rewrite !u8_small by lia. lia.
Qed.

Lemma readInt_at p n m :
  0 <= n < 65536 -> mem_at p (int_bytes n) m -> readInt p m = Some ((n, p + 2), m).
Proof.
  intros Hn H. apply mem_at_cons in H as [Ha Hb]. unfold readInt.
  rewrite (bind_run _ _ _ _ _ (mem_get_at _ _ _ _ Ha)).
  rewrite (bind_run _ _ _ _ _ (mem_get_at _ _ _ _ Hb)).
  rewrite int_bytes_val by done. done.
Qed.

Lemma readChar_at p c bs m : mem_at p (c :: bs) m -> readChar p m = Some ((c, p + 1), m).
Proof. intros H. unfold readChar. by rewrite (bind_run _ _ _ _ _ (mem_get_at _ _ _ _ H)). Qed.

(** A length-delimited string in front of [enddata] is read back. *)
Lemma readMQTTLenString_at p bs m s0 enddata :
  zlen bs < 65536 -> mem_at p (lp_bytes bs) m -> p + 2 + zlen bs <= enddata ->
  exists d, take (length bs) d = bs /\ zlen bs <= zlen d /\
    readMQTTLenString s0 p enddata m = Some ((1, MString None (zlen bs) (Some d), p + 2 + zlen bs), m).
Proof.
  intros Hl H He. unfold lp_bytes in H. apply mem_at_app in H as [Hi Hs].
  change (zlen (int_bytes (zlen bs))) with 2 in Hs. pose proof (zlen_nonneg bs).
  exists (drop (Z.to_nat (p + 2)) m). split; [by apply mem_at_drop|].
  pose proof (mem_at_bounds _ _ _ Hs). split.
  { unfold zlen in *. rewrite length_drop. lia. }
  unfold readMQTTLenString. destruct (Z.ltb_spec 1 (enddata - p)); [|lia].
  rewrite (bind_run _ _ _ _ _ (readInt_at p (zlen bs) m ltac:(lia) Hi)). cbv beta iota.
  destruct (Z.leb_spec (p + 2 + zlen bs) enddata); [|lia]. done.
Qed.

(** ** Decoding the remaining length *)

Lemma encode_bytes_fuel k k' n :
  (k <= k')%nat -> 0 <= n < 128 ^ (Z.of_nat k + 1) -> encode_bytes k' n = encode_bytes k n.
Proof.
  revert k' n. induction k as [|k IH]; intros k' n Hk Hn.
  - destruct k' as [|k']; [done|]. cbn [encode_bytes].
    assert (E : Z.quot n 128 = 0) by (apply Z.quot_small; lia). by rewrite E.
  - destruct k' as [|k']; [lia|]. cbn [encode_bytes].
    destruct (0 <? Z.quot n 128); [|done]. f_equal. apply IH; [lia|].
    rewrite Z.quot_div_nonneg by lia. split; [apply Z.div_pos; lia|].
    apply Z.div_lt_upper_bound; [lia|]. rewrite Nat2Z.inj_succ in Hn.
    replace (Z.succ (Z.of_nat k) + 1) with (Z.succ (Z.of_nat k + 1)) in Hn by lia.
    rewrite Z.pow_succ_r in Hn by lia. lia.
Qed.

Lemma digit_bits d : 0 <= d < 128 ->
  Z.land d 127 = d /\ Z.land d 128 = 0 /\ Z.land (Z.lor d 128) 127 = d /\ Z.land (Z.lor d 128) 128 <> 0.
Proof.
  intros Hd. assert (E : Z.land d 127 = d).
  { change 127 with (Z.ones 7). rewrite Z.land_ones by lia. apply Z.mod_small. lia. }
  split; [done|]. split; [|split].
  - rewrite <- E, <- Z.land_assoc. change (Z.land 127 128) with 0. apply Z.land_0_r.
  - rewrite Z.land_lor_distr_l. change (Z.land 128 127) with 0. by rewrite Z.lor_0_r.
  - rewrite Z.land_lor_distr_l. change (Z.land 128 128) with 128.
    intros H. apply Z.lor_eq_0_iff in H as [_ H]. done.
Qed.

Section source.
Context {T : Type} (getcharfn : getfn T).

(** A source that delivers the bytes [bs], each with [getcharfn(&c, 1)],
    while it goes from the state [t] to [t']. *)
Inductive delivers : mem -> T -> T -> Prop :=
| delivers_nil t : delivers [] t t
| delivers_cons b bs t t1 t2 :
    getcharfn 1 t = Some ((1, [b]), t1) -> delivers bs t1 t2 -> delivers (b :: bs) t t2.

Lemma decode_loop_run k fuel n len multiplier value t t' :
  (k < fuel)%nat -> 0 <= n < 128 ^ (Z.of_nat k + 1) -> len + Z.of_nat k + 1 <= 4 ->
  delivers (encode_bytes k n) t t' ->
  MQTTPacket_decode_loop getcharfn fuel len multiplier value t =
    Some ((len + zlen (encode_bytes k n), value + n * multiplier), t').
Proof.
  revert fuel n len multiplier value t. induction k as [|k IH];
    intros fuel n len multiplier value t Hf Hn Hl; (destruct fuel as [|fuel]; [lia|]);
    cbn [encode_bytes MQTTPacket_decode_loop];
    unfold MAX_NO_OF_REMAINING_LENGTH_BYTES.
  - intros Hd. inversion Hd as [|b bs ? t1 ? Hg Hd' E1]; subst. inversion Hd'; subst.
    destruct (Z.ltb_spec 4 (len + 1)); [lia|].
    rewrite (bind_run _ _ _ _ _ Hg). cbn -[Z.land Z.mul Z.add Z.rem].
    assert (E : Z.rem n 128 = n) by (apply Z.rem_small; lia). rewrite E.
    rewrite u8_small by lia. destruct (digit_bits n ltac:(lia)) as (E1 & E2 & _).
    unfold st_opt. cbn. unfold mbind, st_bind. rewrite E1, E2. done.
  - assert (Hr : 0 <= Z.rem n 128 < 128) by (pose proof (Z.rem_bound_pos n 128); lia).
    assert (Hq : 0 <= Z.quot n 128) by (apply Z.quot_pos; lia).
    destruct (Z.ltb_spec 4 (len + 1)); [lia|].
    destruct (digit_bits (Z.rem n 128) Hr) as (E1 & E2 & E3 & E4).
    rewrite (u8_small (Z.rem n 128)) by lia.
    destruct (Z.ltb_spec 0 (Z.quot n 128)) as [Hpos|Hz]; intros Hd;
      inversion Hd as [|b bs ? t1 ? Hg Hd' Ebs]; subst; rewrite (bind_run _ _ _ _ _ Hg);
      cbn -[Z.land Z.mul Z.add Z.rem Z.quot Z.lor]; unfold mbind, st_bind, st_opt.
    + destruct (Z.eqb_spec (Z.land (Z.lor (Z.rem n 128) 128) 128) 0); [done|]. simpl.
      rewrite Nat2Z.inj_succ in Hn. rewrite (IH _ (Z.quot n 128)).
      * rewrite zlen_cons, E3. do 3 f_equal; [lia|].
        pose proof (Z.quot_rem' n 128). nia.
      * lia.
      * split; [lia|]. rewrite Z.quot_div_nonneg by lia. apply Z.div_lt_upper_bound; [lia|].
        rewrite <- Z.pow_succ_r by lia.
        replace (Z.succ (Z.of_nat k + 1)) with (Z.succ (Z.of_nat k) + 1) by lia. lia.
      * lia.
      * exact Hd'.
    + inversion Hd'; subst. rewrite E1, E2. simpl.
      assert (Ez : Z.rem n 128 = n) by (pose proof (Z.quot_rem' n 128); lia).
      by rewrite Ez.
Qed.

Lemma decode_run n t t' :
  0 <= n < 2 ^ 28 -> delivers (rl_bytes n) t t' ->
  MQTTPacket_decode getcharfn t = Some ((zlen (rl_bytes n), n), t').
Proof.
  intros Hn. unfold rl_bytes. rewrite (encode_bytes_fuel 3 4) by (simpl; lia). intros Hd.
  unfold MQTTPacket_decode.
  rewrite (decode_loop_run 3 5 n 0 1 0 t t') by (simpl; lia || done).
  do 3 f_equal; lia.
Qed.
End source.

Lemma bufchar_delivers bs p m : mem_at p bs m -> delivers bufchar bs (m, p) (m, p + zlen bs).
Proof.
  revert p. induction bs as [|b bs IH]; intros p H.
  { rewrite zlen_nil, Z.add_0_r. constructor. }
  apply (delivers_cons _ b bs _ (m, p + 1)).
  - unfold bufchar. change (Z.to_nat 1) with 1%nat. unfold mbind, st_bind.
    cbn [bufchar_loop fst snd]. by rewrite (mem_get_at _ _ _ _ H).
  - rewrite zlen_cons, Z.add_assoc. apply IH. by apply mem_at_cons in H as [_ H].
Qed.

Lemma decodeBuf_run p n m :
  0 <= n < 2 ^ 28 -> mem_at p (rl_bytes n) m ->
  MQTTPacket_decodeBuf p m = Some ((zlen (rl_bytes n), n), m).
Proof.
  intros Hn H. unfold MQTTPacket_decodeBuf.
  by rewrite (decode_run bufchar n _ _ Hn (bufchar_delivers _ _ _ H)).
Qed.
