(* ===== verification/MqttSerial.v ===== *)
(** * MQTT serializers and deserializers

    extras/paho_mqtt_c/MQTTConnectClient.c, MQTTSerializePublish.c,
    MQTTDeserializePublish.c, MQTTSubscribeClient.c and
    MQTTUnsubscribeClient.c.  The packet buffer [buf] is the whole [mem], at
    offset 0; [buflen] is what the caller says its size is. *)

From S2P Require Import Prelude MqttPacket.

Local Open Scope Z_scope.

(** ** CONNECT and CONNACK: MQTTConnectClient.c *)

Record MQTTPacket_willOptions := WillOptions {
  will_topicName : MQTTString;
  will_message : MQTTString;
  will_retained : Z;
  will_qos : Z;
}.

Record MQTTPacket_connectData := ConnectData {
  MQTTVersion : Z;
  clientID : MQTTString;
  keepAliveInterval : Z;
  cleansession : Z;
  willFlag : Z;
  will : MQTTPacket_willOptions;
  username : MQTTString;
  password : MQTTString;
}.

Definition MQTTPacket_connectData_initializer : MQTTPacket_connectData :=
  ConnectData 4 MQTTString_initializer 60 1 0
    (WillOptions MQTTString_initializer MQTTString_initializer 0 0)
    MQTTString_initializer MQTTString_initializer.

Definition c_true (x : Z) : bool := negb (x =? 0).

(** [s.cstring || s.lenstring.data]. *)
Definition mstr_present (s : MQTTString) : bool :=
  match cstring s, ls_data s with
  | None, None => false
  | _, _ => true
  end.

Definition MQTTSerialize_connectLength (options : MQTTPacket_connectData) : Z :=
  let len := if MQTTVersion options =? 3 then 12
             else if MQTTVersion options =? 4 then 10 else 0 in
  let len := len + (MQTTstrlen (clientID options) + 2) in
  let len := if c_true (willFlag options)
             then len + (MQTTstrlen (will_topicName (will options)) + 2 +
                         MQTTstrlen (will_message (will options)) + 2)
             else len in
  let len := if mstr_present (username options)
             then len + (MQTTstrlen (username options) + 2) else len in
  if mstr_present (password options)
  then len + (MQTTstrlen (password options) + 2) else len.

(** The union MQTTConnectFlags, from its bit fields. *)
Definition connect_flags (options : MQTTPacket_connectData) : Z :=
  2 * Z.land (cleansession options) 1 +
  (if c_true (willFlag options)
   then 4 + 8 * Z.land (will_qos (will options)) 3 + 32 * Z.land (will_retained (will options)) 1
   else 0) +
  64 * Z.b2z (mstr_present (password options)) +
  128 * Z.b2z (mstr_present (username options)).

(** The characters M Q T T and M Q I s d p. *)
Definition str_MQTT : mem := [77; 81; 84; 84].
Definition str_MQIsdp : mem := [77; 81; 73; 115; 100; 112].

Definition MQTTSerialize_connect (buflen : Z) (options : MQTTPacket_connectData) : ST mem Z :=
  let len := MQTTSerialize_connectLength options in
  if buflen <? MQTTPacket_len len then mret MQTTPACKET_BUFFER_TOO_SHORT else
  ptr ← writeChar (header_byte (Header CONNECT 0 0 0)) 0;
  n ← MQTTPacket_encode ptr len;
  let ptr := ptr + n in
  ptr ← (if MQTTVersion options =? 4
         then ptr ← writeCString str_MQTT ptr; writeChar 4 ptr
         else ptr ← writeCString str_MQIsdp ptr; writeChar 3 ptr);
  ptr ← writeChar (connect_flags options) ptr;
  ptr ← writeInt (keepAliveInterval options) ptr;
  ptr ← writeMQTTString (clientID options) ptr;
  ptr ← (if c_true (willFlag options)
         then ptr ← writeMQTTString (will_topicName (will options)) ptr;
              writeMQTTString (will_message (will options)) ptr
         else mret ptr);
  ptr ← (if mstr_present (username options)
         then writeMQTTString (username options) ptr else mret ptr);
  ptr ← (if mstr_present (password options)
         then writeMQTTString (password options) ptr else mret ptr);
  mret ptr.

(** The results of a deserializer are its return value and the values of its
    out parameters, given the ones before the call. *)
Record connack_out := ConnackOut { ca_sessionPresent : Z; ca_rc : Z }.

Definition MQTTDeserialize_connack (out : connack_out) : ST mem (Z * connack_out) :=
  '(b, curdata) ← readChar 0;
  if negb (h_type (header_of b) =? CONNACK) then mret (0, out) else
  '(rc, mylen) ← MQTTPacket_decodeBuf curdata;
  let curdata := curdata + rc in
  let enddata := curdata + mylen in
  if enddata - curdata <? 2 then mret (rc, out) else
  '(flags, curdata) ← readChar curdata;
  '(connack_rc, _) ← readChar curdata;
  mret (1, ConnackOut (Z.land (Z.shiftr flags 7) 1) connack_rc).

Definition MQTTSerialize_zero (buflen packettype : Z) : ST mem Z :=
  if buflen <? 2 then mret MQTTPACKET_BUFFER_TOO_SHORT else
  ptr ← writeChar (header_byte (Header packettype 0 0 0)) 0;
  n ← MQTTPacket_encode ptr 0;
  mret (ptr + n).

Definition MQTTSerialize_disconnect (buflen : Z) : ST mem Z := MQTTSerialize_zero buflen DISCONNECT.
Definition MQTTSerialize_pingreq (buflen : Z) : ST mem Z := MQTTSerialize_zero buflen PINGREQ.

(** ** PUBLISH and its acknowledgements *)

Definition MQTTSerialize_publishLength (qos : Z) (topicName : MQTTString) (payloadlen : Z) : Z :=
  let len := 2 + MQTTstrlen topicName + payloadlen in
  if 0 <? qos then len + 2 else len.

Definition MQTTSerialize_publish (buflen dup qos retained packetid : Z) (topicName : MQTTString)
    (payload : option mem) (payloadlen : Z) : ST mem Z :=
  let rem_len := MQTTSerialize_publishLength qos topicName payloadlen in
  if buflen <? MQTTPacket_len rem_len then mret MQTTPACKET_BUFFER_TOO_SHORT else
  ptr ← writeChar (header_byte (Header PUBLISH dup qos retained)) 0;
  n ← MQTTPacket_encode ptr rem_len;
  let ptr := ptr + n in
  ptr ← writeMQTTString topicName ptr;
  ptr ← (if 0 <? qos then writeInt packetid ptr else mret ptr);
  d ← st_opt (data_bytes payload payloadlen);
  mem_put ptr d ;;
  mret (ptr + payloadlen).

Definition MQTTSerialize_ack (buflen packettype dup packetid : Z) : ST mem Z :=
  if buflen <? 4 then mret MQTTPACKET_BUFFER_TOO_SHORT else
  ptr ← writeChar (header_byte (Header packettype dup (if packettype =? PUBREL then 1 else 0) 0)) 0;
  n ← MQTTPacket_encode ptr 2;
  ptr ← writeInt packetid (ptr + n);
  mret ptr.

Definition MQTTSerialize_puback (buflen packetid : Z) : ST mem Z :=
  MQTTSerialize_ack buflen PUBACK 0 packetid.
Definition MQTTSerialize_pubrel (buflen dup packetid : Z) : ST mem Z :=
  MQTTSerialize_ack buflen PUBREL dup packetid.
Definition MQTTSerialize_pubcomp (buflen packetid : Z) : ST mem Z :=
  MQTTSerialize_ack buflen PUBCOMP 0 packetid.

(** [pb_payload] is a pointer into the buffer. *)
Record publish_out := PublishOut {
  pb_dup : Z; pb_qos : Z; pb_retained : Z; pb_packetid : Z;
  pb_topicName : MQTTString; pb_payload : Z; pb_payloadlen : Z }.

Definition MQTTDeserialize_publish (out : publish_out) : ST mem (Z * publish_out) :=
  '(b, curdata) ← readChar 0;
  let header := header_of b in
  if negb (h_type header =? PUBLISH) then mret (0, out) else
  let out := PublishOut (h_dup header) (h_qos header) (h_retain header) (pb_packetid out)
    (pb_topicName out) (pb_payload out) (pb_payloadlen out) in
  '(rc, mylen) ← MQTTPacket_decodeBuf curdata;
  let curdata := curdata + rc in
  let enddata := curdata + mylen in
  r ← readMQTTLenString (pb_topicName out) curdata enddata;
  let '(ok, topicName, curdata) := (r : Z * MQTTString * Z) in
  let out := PublishOut (pb_dup out) (pb_qos out) (pb_retained out) (pb_packetid out)
    topicName (pb_payload out) (pb_payloadlen out) in
  if negb (c_true ok) || (enddata - curdata <? 0) then mret (rc, out) else
  '(packetid, curdata) ← (if 0 <? pb_qos out then readInt curdata
                          else mret (pb_packetid out, curdata));
  mret (1, PublishOut (pb_dup out) (pb_qos out) (pb_retained out) packetid topicName
             curdata (enddata - curdata)).

Record ack_out := AckOut { ak_packettype : Z; ak_dup : Z; ak_packetid : Z }.

Definition MQTTDeserialize_ack (out : ack_out) : ST mem (Z * ack_out) :=
  '(b, curdata) ← readChar 0;
  let header := header_of b in
  '(rc, mylen) ← MQTTPacket_decodeBuf curdata;
  let curdata := curdata + rc in
  let enddata := curdata + mylen in
  if enddata - curdata <? 2 then mret (rc, AckOut (h_type header) (h_dup header) (ak_packetid out)) else
  '(packetid, _) ← readInt curdata;
  mret (1, AckOut (h_type header) (h_dup header) packetid).

(** ** SUBSCRIBE and SUBACK: MQTTSubscribeClient.c *)

(** [for (i = 0; i < count; ++i)] over an array that is the list [l]: an
    access past its end has no result. *)
Fixpoint topics_length (count : nat) (extra : Z) (l : list MQTTString) : option Z :=
  match count, l with
  | O, _ => Some 0
  | S count, s :: l => option_map (Z.add (2 + MQTTstrlen s + extra)) (topics_length count extra l)
  | S _, [] => None
  end.

Definition MQTTSerialize_subscribeLength (count : Z) (topicFilters : list MQTTString) : option Z :=
  option_map (Z.add 2) (topics_length (Z.to_nat count) 1 topicFilters).

Fixpoint write_subscriptions (count : nat) (topicFilters : list MQTTString) (requestedQoSs : list Z)
    (ptr : Z) : ST mem Z :=
  match count with
  | O => mret ptr
  | S count =>
      s ← st_opt (head topicFilters);
      ptr ← writeMQTTString s ptr;
      q ← st_opt (head requestedQoSs);
      ptr ← writeChar q ptr;
      write_subscriptions count (tail topicFilters) (tail requestedQoSs) ptr
  end.

Definition MQTTSerialize_subscribe (buflen dup packetid count : Z) (topicFilters : list MQTTString)
    (requestedQoSs : list Z) : ST mem Z :=
  rem_len ← st_opt (MQTTSerialize_subscribeLength count topicFilters);
  if buflen <? MQTTPacket_len rem_len then mret MQTTPACKET_BUFFER_TOO_SHORT else
  ptr ← writeChar (header_byte (Header SUBSCRIBE dup 1 0)) 0;
  n ← MQTTPacket_encode ptr rem_len;
  let ptr := ptr + n in
  ptr ← writeInt packetid ptr;
  ptr ← write_subscriptions (Z.to_nat count) topicFilters requestedQoSs ptr;
  mret ptr.

Record suback_out := SubackOut { sa_packetid : Z; sa_count : Z; sa_grantedQoSs : list Z }.

(** [grantedQoSs[n] = q]. *)
Definition set_granted (n q : Z) (out : suback_out) : option suback_out :=
  if (0 <=? n) && (n <? Z.of_nat (length (sa_grantedQoSs out)))
  then Some (SubackOut (sa_packetid out) (n + 1) (<[Z.to_nat n := q]> (sa_grantedQoSs out)))
  else None.

(** The loop [while (curdata < enddata)]; one iteration per byte left. *)
Fixpoint suback_loop (fuel : nat) (maxcount curdata enddata : Z) (out : suback_out) :
    ST mem (Z * suback_out) :=
  match fuel with
  | O => out_of_fuel
  | S fuel =>
      if curdata <? enddata then
        if maxcount <? sa_count out then mret (-1, out) else
        '(q, curdata) ← readChar curdata;
        out ← st_opt (set_granted (sa_count out) q out);
        suback_loop fuel maxcount curdata enddata out
      else mret (1, out)
  end.

Definition MQTTDeserialize_suback (maxcount : Z) (out : suback_out) : ST mem (Z * suback_out) :=
  '(b, curdata) ← readChar 0;
  if negb (h_type (header_of b) =? SUBACK) then mret (0, out) else
  '(rc, mylen) ← MQTTPacket_decodeBuf curdata;
  let curdata := curdata + rc in
  let enddata := curdata + mylen in
  if enddata - curdata <? 2 then mret (rc, out) else
  '(packetid, curdata) ← readInt curdata;
  suback_loop (S (Z.to_nat (enddata - curdata))) maxcount curdata enddata
    (SubackOut packetid 0 (sa_grantedQoSs out)).

(** ** UNSUBSCRIBE and UNSUBACK: MQTTUnsubscribeClient.c *)

Definition MQTTSerialize_unsubscribeLength (count : Z) (topicFilters : list MQTTString) : option Z :=
  option_map (Z.add 2) (topics_length (Z.to_nat count) 0 topicFilters).

Fixpoint write_topics (count : nat) (topicFilters : list MQTTString) (ptr : Z) : ST mem Z :=
  match count with
  | O => mret ptr
  | S count =>
      s ← st_opt (head topicFilters);
      ptr ← writeMQTTString s ptr;
      write_topics count (tail topicFilters) ptr
  end.

Definition MQTTSerialize_unsubscribe (buflen dup packetid count : Z)
    (topicFilters : list MQTTString) : ST mem Z :=
  rem_len ← st_opt (MQTTSerialize_unsubscribeLength count topicFilters);
  if buflen <? MQTTPacket_len rem_len then mret MQTTPACKET_BUFFER_TOO_SHORT else
  ptr ← writeChar (header_byte (Header UNSUBSCRIBE dup 1 0)) 0;
  n ← MQTTPacket_encode ptr rem_len;
  let ptr := ptr + n in
  ptr ← writeInt packetid ptr;
  ptr ← write_topics (Z.to_nat count) topicFilters ptr;
  mret ptr.

(** The result is the return value and the packet identifier. *)
Definition MQTTDeserialize_unsuback (packetid : Z) : ST mem (Z * Z) :=
  '(rc, out) ← MQTTDeserialize_ack (AckOut 0 0 packetid);
  mret (if ak_packettype out =? UNSUBACK then 1 else rc, ak_packetid out).
