(* ===== verification/MqttFormat.v ===== *)
(** * The packets of the MQTT serializers and deserializers

    Each serializer stores exactly the packet of the MQTT specification, or
    reports that the buffer is too short and leaves it alone; the
    deserializers read back what was serialized. *)

From S2P Require Import Prelude MqttPacket MqttWire MqttSerial.

Local Open Scope Z_scope.

(** A control packet: the header byte, the remaining length and the body. *)
Definition packet (h : MQTTHeader) (body : mem) : mem :=
  header_byte h :: rl_bytes (zlen body) ++ body.

Definition small_header (h : MQTTHeader) : Prop :=
  0 <= h_type h < 16 /\ 0 <= h_dup h < 2 /\ 0 <= h_qos h < 4 /\ 0 <= h_retain h < 2.

Section header.
Lemma header_byte_range h : 0 <= header_byte h < 256.
Proof.
  unfold header_byte.
  assert (H : forall x k, 0 <= k -> 0 <= Z.land x (Z.ones k) < 2 ^ k).
  { intros x k Hk. rewrite Z.land_ones by done. apply Z.mod_pos_bound. lia. }
  pose proof (H (h_retain h) 1 ltac:(lia)). pose proof (H (h_qos h) 2 ltac:(lia)).
  pose proof (H (h_dup h) 1 ltac:(lia)). pose proof (H (h_type h) 4 ltac:(lia)).
  change (Z.ones 1) with 1 in *. change (Z.ones 2) with 3 in *. change (Z.ones 4) with 15 in *.
  lia.
Qed.

Lemma u8_header_byte h : u8 (header_byte h) = header_byte h.
Proof. apply u8_small. pose proof (header_byte_range h). lia. Qed.

Definition all_headers : list MQTTHeader :=
  t ← seqZ 0 16; d ← seqZ 0 2; q ← seqZ 0 4; r ← seqZ 0 2; [Header t d q r].

Lemma all_headers_spec h : small_header h -> h ∈ all_headers.
Proof.
  destruct h as [t d q r]. unfold small_header, all_headers.
  cbn [h_type h_dup h_qos h_retain]. intros (Ht & Hd & Hq & Hr).
  apply list_elem_of_bind. exists t. split; [|apply elem_of_seqZ; lia].
  apply list_elem_of_bind. exists d. split; [|apply elem_of_seqZ; lia].
  apply list_elem_of_bind. exists q. split; [|apply elem_of_seqZ; lia].
  apply list_elem_of_bind. exists r. split; [|apply elem_of_seqZ; lia].
  apply list_elem_of_singleton. done.
Qed.

Lemma header_of_byte h : small_header h -> header_of (header_byte h) = h.
Proof.
  intros H. apply all_headers_spec in H. revert h H. apply Forall_forall.
  repeat constructor.
Qed.
End header.

Section frame.
Context (h : MQTTHeader) (rem : Z) (g : Z -> ST mem Z) (body : mem).
Context (Hg : emits g body) (Hrem : rem = zlen body) (Hmax : rem < 2 ^ 28).

Lemma frame_emits :
  emits (fun p => ptr ← writeChar (header_byte h) p; n ← MQTTPacket_encode ptr rem; g (ptr + n))
    (packet h body).
Proof.
  pose proof (zlen_nonneg body). unfold packet. rewrite <- Hrem.
  apply (emits_bind (writeChar (header_byte h)) (fun ptr => n ← MQTTPacket_encode ptr rem; g (ptr + n))
    [header_byte h] (rl_bytes rem ++ body)).
  - rewrite <- (u8_header_byte h) at 2. apply emits_writeChar.
  - apply (emits_ext _ (fun ptr => (n ← MQTTPacket_encode ptr rem; mret (ptr + n)) ≫= g)).
    { intros p m. by rewrite bind_assoc. }
    apply emits_bind; [|done]. apply emits_encode. lia.
Qed.

Lemma frame_run (buflen : Z) (m : mem) :
  buflen <= zlen m ->
  (if buflen <? MQTTPacket_len rem then mret MQTTPACKET_BUFFER_TOO_SHORT else
   ptr ← writeChar (header_byte h) 0; n ← MQTTPacket_encode ptr rem; g (ptr + n)) m =
  if buflen <? MQTTPacket_len rem then Some (MQTTPACKET_BUFFER_TOO_SHORT, m)
  else Some (zlen (packet h body), splice 0 (packet h body) m).
Proof.
  intros Hm. pose proof (zlen_nonneg body).
  destruct (Z.ltb_spec buflen (MQTTPacket_len rem)) as [_|Hl]; [done|].
  assert (Hp : 0 + zlen (packet h body) <= zlen m).
  { pose proof (MQTTPacket_len_enough rem). unfold packet. rewrite zlen_cons, zlen_app, <- Hrem. lia. }
  pose proof (frame_emits 0 m ltac:(lia) Hp) as E. cbv beta in E. rewrite E. done.
Qed.
End frame.

#[export] Hint Resolve emits_ret emits_writeChar emits_writeInt emits_writeCString
  emits_writeMQTTString : esp.

(** [emits_step] applies the lemma of the first writer of the body. *)
Ltac emits_step := eapply emits_bind; [solve [eauto with esp]|].

(** ** CONNECT *)

Definition connect_ok (o : MQTTPacket_connectData) : Prop :=
  (MQTTVersion o = 3 \/ MQTTVersion o = 4) /\
  mstr_ok (clientID o) /\
  (willFlag o <> 0 -> mstr_ok (will_topicName (will o)) /\ mstr_ok (will_message (will o))) /\
  (mstr_present (username o) = true -> mstr_ok (username o)) /\
  (mstr_present (password o) = true -> mstr_ok (password o)).

(** The variable header and the payload of the specification, version 3.1.1
    (protocol level 4) and 3.1 (level 3). *)
Definition connect_body (o : MQTTPacket_connectData) : mem :=
  (if MQTTVersion o =? 4 then lp_bytes str_MQTT ++ [4] else lp_bytes str_MQIsdp ++ [3]) ++
  [connect_flags o] ++ int_bytes (keepAliveInterval o) ++
  lp_bytes (mstr_bytes (clientID o)) ++
  (if c_true (willFlag o)
   then lp_bytes (mstr_bytes (will_topicName (will o))) ++ lp_bytes (mstr_bytes (will_message (will o)))
   else []) ++
  (if mstr_present (username o) then lp_bytes (mstr_bytes (username o)) else []) ++
  (if mstr_present (password o) then lp_bytes (mstr_bytes (password o)) else []).

Lemma zlen_lp_bytes bs : zlen (lp_bytes bs) = 2 + zlen bs.
Proof. unfold lp_bytes. rewrite zlen_app. done. Qed.
#[export] Hint Rewrite zlen_lp_bytes : esp_len.

Lemma connect_flags_range o : 0 <= connect_flags o < 256.
Proof.
  unfold connect_flags.
  assert (H : forall x k, 0 <= k -> 0 <= Z.land x (Z.ones k) < 2 ^ k).
  { intros x k Hk. rewrite Z.land_ones by done. apply Z.mod_pos_bound. lia. }
  pose proof (H (cleansession o) 1 ltac:(lia)). pose proof (H (will_qos (will o)) 2 ltac:(lia)).
  pose proof (H (will_retained (will o)) 1 ltac:(lia)).
  change (Z.ones 1) with 1 in *. change (Z.ones 2) with 3 in *.
  destruct (c_true _), (mstr_present (password o)), (mstr_present (username o)); simpl Z.b2z; lia.
Qed.

Lemma connect_body_len o :
  connect_ok o -> MQTTSerialize_connectLength o = zlen (connect_body o).
Proof.
  intros (Hv & Hc & Hw & Hu & Hp). unfold MQTTSerialize_connectLength, connect_body.
  rewrite (mstr_ok_len _ Hc).
  destruct (c_true (willFlag o)) eqn:Ew.
  - unfold c_true in Ew. apply negb_true_iff, Z.eqb_neq in Ew. destruct (Hw Ew) as [Ht Hm].
    rewrite (mstr_ok_len _ Ht), (mstr_ok_len _ Hm).
    destruct (mstr_present (username o)); [rewrite (mstr_ok_len _ (Hu eq_refl))|];
      (destruct (mstr_present (password o)); [rewrite (mstr_ok_len _ (Hp eq_refl))|]);
      destruct Hv as [-> | ->]; simpl; unfold int_bytes, str_MQTT, str_MQIsdp;
      repeat (autorewrite with esp_len; simpl); lia.
  - destruct (mstr_present (username o)); [rewrite (mstr_ok_len _ (Hu eq_refl))|];
      (destruct (mstr_present (password o)); [rewrite (mstr_ok_len _ (Hp eq_refl))|]);
      destruct Hv as [-> | ->]; simpl; unfold int_bytes, str_MQTT, str_MQIsdp;
      repeat (autorewrite with esp_len; simpl); lia.
Qed.

(** What [MQTTSerialize_connect] writes after the remaining length. *)
Definition connect_writer (o : MQTTPacket_connectData) (ptr : Z) : ST mem Z :=
  ptr ← (if MQTTVersion o =? 4
         then ptr ← writeCString str_MQTT ptr; writeChar 4 ptr
         else ptr ← writeCString str_MQIsdp ptr; writeChar 3 ptr);
  ptr ← writeChar (connect_flags o) ptr;
  ptr ← writeInt (keepAliveInterval o) ptr;
  ptr ← writeMQTTString (clientID o) ptr;
  ptr ← (if c_true (willFlag o)
         then ptr ← writeMQTTString (will_topicName (will o)) ptr;
              writeMQTTString (will_message (will o)) ptr
         else mret ptr);
  ptr ← (if mstr_present (username o) then writeMQTTString (username o) ptr else mret ptr);
  ptr ← (if mstr_present (password o) then writeMQTTString (password o) ptr else mret ptr);
  mret ptr.

Lemma connect_writer_emits o : connect_ok o -> emits (connect_writer o) (connect_body o).
Proof.
  intros (Hv & Hc & Hw & Hu & Hp). unfold connect_writer, connect_body.
  apply (emits_bind (fun ptr => if MQTTVersion o =? 4
         then ptr ← writeCString str_MQTT ptr; writeChar 4 ptr
         else ptr ← writeCString str_MQIsdp ptr; writeChar 3 ptr)).
  { destruct (MQTTVersion o =? 4).
    - exact (emits_bind _ _ _ _ (emits_writeCString str_MQTT) (emits_writeChar 4)).
    - exact (emits_bind _ _ _ _ (emits_writeCString str_MQIsdp) (emits_writeChar 3)). }
  apply emits_bind.
  { rewrite <- (u8_small (connect_flags o)) at 2 by apply connect_flags_range.
    apply emits_writeChar. }
  apply emits_bind; [auto with esp|]. apply emits_bind; [auto with esp|].
  apply (emits_bind (fun ptr => if c_true (willFlag o)
         then ptr ← writeMQTTString (will_topicName (will o)) ptr;
              writeMQTTString (will_message (will o)) ptr
         else mret ptr)).
  { destruct (c_true (willFlag o)) eqn:Ew; [|auto with esp].
    unfold c_true in Ew. apply negb_true_iff, Z.eqb_neq in Ew. destruct (Hw Ew).
    apply emits_bind; auto with esp. }
  apply (emits_bind (fun ptr => if mstr_present (username o)
    then writeMQTTString (username o) ptr else mret ptr)).
  { destruct (mstr_present (username o)); auto with esp. }
  rewrite <- (app_nil_r (if mstr_present (password o) then _ else _)).
  apply (emits_bind (fun ptr => if mstr_present (password o)
    then writeMQTTString (password o) ptr else mret ptr)); [|auto with esp].
  destruct (mstr_present (password o)); auto with esp.
Qed.

Lemma serialize_connect_run o buflen (m : mem) :
  connect_ok o -> MQTTSerialize_connectLength o < 2 ^ 28 -> buflen <= zlen m ->
  MQTTSerialize_connect buflen o m =
    if buflen <? MQTTPacket_len (MQTTSerialize_connectLength o)
    then Some (MQTTPACKET_BUFFER_TOO_SHORT, m)
    else Some (zlen (packet (Header CONNECT 0 0 0) (connect_body o)),
               splice 0 (packet (Header CONNECT 0 0 0) (connect_body o)) m).
Proof.
  intros Hok Hlen Hm.
  exact (frame_run (Header CONNECT 0 0 0) _ _ _ (connect_writer_emits o Hok)
    (connect_body_len o Hok) Hlen buflen m Hm).
Qed.

(** ** PUBLISH *)

Definition publish_body (qos packetid : Z) (topic payload : mem) : mem :=
  lp_bytes topic ++ (if 0 <? qos then int_bytes packetid else []) ++ payload.

Lemma publish_body_len qos packetid topic payload topicName payloadlen :
  mstr_ok topicName -> topic = mstr_bytes topicName -> payloadlen = zlen payload ->
  MQTTSerialize_publishLength qos topicName payloadlen = zlen (publish_body qos packetid topic payload).
Proof.
  intros Hok -> ->. unfold MQTTSerialize_publishLength, publish_body.
  rewrite (mstr_ok_len _ Hok).
  destruct (0 <? qos); unfold int_bytes; repeat (autorewrite with esp_len; simpl); lia.
Qed.

Lemma data_bytes_len data n d : 0 <= n -> data_bytes data n = Some d -> zlen d = n.
Proof.
  unfold data_bytes. intros Hn. destruct data as [l|]; [|done].
  destruct (Z.leb_spec n (zlen l)); [|done]. intros [= <-]. apply zlen_take. lia.
Qed.

Lemma serialize_publish_run buflen dup qos retained packetid topicName payload payloadlen d (m : mem) :
  mstr_ok topicName -> 0 <= payloadlen -> data_bytes payload payloadlen = Some d ->
  MQTTSerialize_publishLength qos topicName payloadlen < 2 ^ 28 -> buflen <= zlen m ->
  let p := packet (Header PUBLISH dup qos retained) (publish_body qos packetid (mstr_bytes topicName) d) in
  MQTTSerialize_publish buflen dup qos retained packetid topicName payload payloadlen m =
    if buflen <? MQTTPacket_len (MQTTSerialize_publishLength qos topicName payloadlen)
    then Some (MQTTPACKET_BUFFER_TOO_SHORT, m) else Some (zlen p, splice 0 p m).
Proof.
  intros Hok Hn Hd Hlen Hm p. pose proof (data_bytes_len _ _ _ Hn Hd) as Ed.
  set (g := fun ptr : Z =>
    ptr ← writeMQTTString topicName ptr;
    ptr ← (if 0 <? qos then writeInt packetid ptr else mret ptr);
    d ← st_opt (data_bytes payload payloadlen);
    mem_put ptr d ;;
    (mret (ptr + payloadlen) : ST mem Z)).
  assert (Hg : emits g (publish_body qos packetid (mstr_bytes topicName) d)).
  { apply emits_bind; [auto with esp|].
    apply (emits_bind (fun ptr => if 0 <? qos then writeInt packetid ptr else mret ptr)).
    { destruct (0 <? qos); auto with esp. }
    rewrite Hd. by apply (emits_put d). }
  exact (frame_run _ _ g _ Hg (publish_body_len _ _ _ _ _ _ Hok eq_refl (eq_sym Ed)) Hlen buflen m Hm).
Qed.

(** Parsing the header and the remaining length of a packet. *)
Lemma parse_packet h body (m : mem) :
  zlen body < 2 ^ 28 -> mem_at 0 (packet h body) m ->
  readChar 0 m = Some ((header_byte h, 1), m) /\
  MQTTPacket_decodeBuf 1 m = Some ((zlen (rl_bytes (zlen body)), zlen body), m) /\
  mem_at (1 + zlen (rl_bytes (zlen body))) body m.
Proof.
  intros Hb H. split; [by apply (readChar_at _ _ _ _ H)|].
  unfold packet in H. apply mem_at_cons in H as [_ H]. apply mem_at_app in H as [Hr Hbody].
  split; [|done]. apply decodeBuf_run; [|done]. pose proof (zlen_nonneg body). lia.
Qed.

Lemma deserialize_publish_run dup qos retained packetid topic payload out (m : mem) :
  0 <= dup < 2 -> 0 <= qos < 4 -> 0 <= retained < 2 -> 0 <= packetid < 65536 -> zlen topic < 65536 ->
  zlen (publish_body qos packetid topic payload) < 2 ^ 28 ->
  mem_at 0 (packet (Header PUBLISH dup qos retained) (publish_body qos packetid topic payload)) m ->
  exists td p, take (length topic) td = topic /\ zlen topic <= zlen td /\ mem_at p payload m /\
    MQTTDeserialize_publish out m = Some ((1, PublishOut dup qos retained
      (if 0 <? qos then packetid else pb_packetid out) (MString None (zlen topic) (Some td))
      p (zlen payload)), m).
Proof.
  intros Hd Hq Hr Hid Ht Hl H. set (body := publish_body qos packetid topic payload) in *.
  destruct (parse_packet _ _ _ Hl H) as (E1 & E2 & Hb).
  set (p0 := 1 + zlen (rl_bytes (zlen body))) in *.
  assert (Hh : header_of (header_byte (Header PUBLISH dup qos retained)) = Header PUBLISH dup qos retained).
  { apply header_of_byte. unfold small_header, PUBLISH. simpl. lia. }
  pose proof Hb as Hb'. unfold body, publish_body in Hb. apply mem_at_app in Hb as [Hbt Hb].
  rewrite zlen_lp_bytes in Hb. pose proof (zlen_nonneg payload).
  assert (El : zlen body = 2 + zlen topic + (if 0 <? qos then 2 else 0) + zlen payload).
  { unfold body, publish_body, int_bytes. destruct (0 <? qos); repeat (autorewrite with esp_len; simpl); lia. }
  destruct (readMQTTLenString_at p0 topic m (pb_topicName out) (p0 + zlen body) Ht Hbt) as (td & Etd & Hltd & E3).
  { destruct (0 <? qos); lia. }
  assert (Hp : exists p, mem_at p payload m /\ p0 + zlen body - p = zlen payload /\
    (if 0 <? qos then readInt (p0 + 2 + zlen topic) else mret (pb_packetid out, p0 + 2 + zlen topic)) m =
    Some ((if 0 <? qos then packetid else pb_packetid out, p), m)).
  { destruct (0 <? qos).
    - apply mem_at_app in Hb as [Hi Hp]. exists (p0 + 2 + zlen topic + 2).
      split; [|split; [lia|]].
      + change (zlen (int_bytes packetid)) with 2 in Hp. by rewrite Z.add_assoc in Hp.
      + rewrite Z.add_assoc in Hi. by apply readInt_at.
    - exists (p0 + 2 + zlen topic). rewrite Z.add_assoc in Hb. split; [done|]. split; [lia|done]. }
  destruct Hp as (p & Hmp & Ep & E4).
  exists td, p. split; [done|]. split; [done|]. split; [done|].
  unfold MQTTDeserialize_publish. rewrite (bind_run _ _ _ _ _ E1). cbv beta iota.
  rewrite Hh. cbn [h_type h_dup h_qos h_retain]. change (negb (PUBLISH =? PUBLISH)) with false.
  cbv iota zeta. rewrite (bind_run _ _ _ _ _ E2). cbv beta iota zeta. fold p0.
  rewrite (bind_run _ _ _ _ _ E3). cbv beta iota zeta.
  change (c_true 1) with true. cbn [negb orb pb_topicName pb_qos pb_dup pb_retained pb_packetid].
  destruct (Z.ltb_spec (p0 + zlen body - (p0 + 2 + zlen topic)) 0).
  { destruct (0 <? qos); lia. }
  rewrite (bind_run _ _ _ _ _ E4). cbv beta iota. by rewrite Ep.
Qed.

(** ** Acknowledgements *)

Definition ack_qos (packettype : Z) : Z := if packettype =? PUBREL then 1 else 0.
Definition ack_packet (packettype dup packetid : Z) : mem :=
  packet (Header packettype dup (ack_qos packettype) 0) (int_bytes packetid).

Lemma serialize_ack_run buflen packettype dup packetid (m : mem) :
  buflen <= zlen m ->
  MQTTSerialize_ack buflen packettype dup packetid m =
    if buflen <? 4 then Some (MQTTPACKET_BUFFER_TOO_SHORT, m)
    else Some (4, splice 0 (ack_packet packettype dup packetid) m).
Proof.
  intros Hm. set (g := fun ptr : Z => ptr ← writeInt packetid ptr; (mret ptr : ST mem Z)).
  assert (Hg : emits g (int_bytes packetid)).
  { rewrite <- (app_nil_r (int_bytes packetid)). apply emits_bind; auto with esp. }
  pose proof (frame_run (Header packettype dup (ack_qos packettype) 0) 2 g _ Hg eq_refl
    ltac:(lia) buflen m Hm) as E. exact E.
Qed.

Lemma deserialize_ack_run packettype dup packetid out (m : mem) :
  0 <= packettype < 16 -> 0 <= dup < 2 -> 0 <= packetid < 65536 ->
  mem_at 0 (ack_packet packettype dup packetid) m ->
  MQTTDeserialize_ack out m = Some ((1, AckOut packettype dup packetid), m).
Proof.
  intros Ht Hd Hid H. unfold ack_packet in H.
  destruct (parse_packet _ (int_bytes packetid) m eq_refl H) as (E1 & E2 & Hb).
  assert (Hh : header_of (header_byte (Header packettype dup (ack_qos packettype) 0)) =
    Header packettype dup (ack_qos packettype) 0).
  { apply header_of_byte. unfold small_header, ack_qos. destruct (_ =? _); simpl; lia. }
  unfold MQTTDeserialize_ack. rewrite (bind_run _ _ _ _ _ E1). cbv beta iota zeta. rewrite Hh.
  cbn [h_type h_dup]. rewrite (bind_run _ _ _ _ _ E2). cbv beta iota zeta.
  destruct (Z.ltb_spec (1 + zlen (rl_bytes (zlen (int_bytes packetid))) + zlen (int_bytes packetid) -
    (1 + zlen (rl_bytes (zlen (int_bytes packetid))))) 2) as [Hlt|_].
  { change (zlen (int_bytes packetid)) with 2 in Hlt. lia. }
  rewrite (bind_run _ _ _ _ _ (readInt_at _ packetid m Hid Hb)). done.
Qed.

(** ** SUBSCRIBE, UNSUBSCRIBE and SUBACK *)

Definition subscribe_body (packetid : Z) (topics : list MQTTString) (qoss : list Z) : mem :=
  int_bytes packetid ++
  concat (zip_with (fun s q => lp_bytes (mstr_bytes s) ++ [u8 q]) topics qoss).
Definition unsubscribe_body (packetid : Z) (topics : list MQTTString) : mem :=
  int_bytes packetid ++ concat (map (fun s => lp_bytes (mstr_bytes s)) topics).

Lemma subscribe_length topics qoss packetid :
  Forall mstr_ok topics -> length qoss = length topics ->
  MQTTSerialize_subscribeLength (zlen topics) topics = Some (zlen (subscribe_body packetid topics qoss)).
Proof.
  intros Hok Hl. unfold MQTTSerialize_subscribeLength, subscribe_body.
  assert (E : topics_length (length topics) 1 topics =
    Some (zlen (concat (zip_with (fun s q => lp_bytes (mstr_bytes s) ++ [u8 q]) topics qoss)))).
  { revert qoss Hl. induction Hok as [|s topics Hs _ IH]; intros [|q qoss] Hl; try discriminate Hl;
      [done|]. injection Hl as Hl. simpl. rewrite (IH qoss Hl). simpl. f_equal. rewrite (mstr_ok_len _ Hs).
    autorewrite with esp_len. unfold int_bytes. simpl. autorewrite with esp_len. lia. }
  unfold zlen at 1. rewrite Nat2Z.id, E. cbn [option_map]. by rewrite zlen_app.
Qed.

Lemma unsubscribe_length topics packetid :
  Forall mstr_ok topics ->
  MQTTSerialize_unsubscribeLength (zlen topics) topics = Some (zlen (unsubscribe_body packetid topics)).
Proof.
  intros Hok. unfold MQTTSerialize_unsubscribeLength, unsubscribe_body.
  assert (E : topics_length (length topics) 0 topics =
    Some (zlen (concat (map (fun s => lp_bytes (mstr_bytes s)) topics)))).
  { induction Hok as [|s topics Hs _ IH]; [done|]. simpl. rewrite IH. simpl. f_equal.
    rewrite (mstr_ok_len _ Hs). autorewrite with esp_len. lia. }
  unfold zlen at 1. rewrite Nat2Z.id, E. cbn [option_map]. by rewrite zlen_app.
Qed.

Lemma emits_opt {A} (o : option A) x (g : A -> Z -> ST mem Z) bs :
  o = Some x -> emits (g x) bs -> emits (fun p => y ← st_opt o; g y p) bs.
Proof. intros -> H. exact H. Qed.

Lemma write_subscriptions_emits topics qoss :
  Forall mstr_ok topics -> length qoss = length topics ->
  emits (write_subscriptions (length topics) topics qoss)
    (concat (zip_with (fun s q => lp_bytes (mstr_bytes s) ++ [u8 q]) topics qoss)).
Proof.
  intros Hok. revert qoss. induction Hok as [|s topics Hs _ IH]; intros [|q qoss] Hl;
    try discriminate Hl; [apply emits_ret|]. injection Hl as Hl.
  cbn [length write_subscriptions zip_with concat head tail]. rewrite <- app_assoc.
  eapply (emits_opt _ s (fun s p => ptr ← writeMQTTString s p; q ← st_opt (Some q); ptr ← writeChar q ptr;
    write_subscriptions (length topics) topics qoss ptr)); [done|].
  apply emits_bind; [auto with esp|]. cbv beta.
  apply (emits_opt _ q (fun q p => ptr ← writeChar q p; write_subscriptions (length topics) topics qoss ptr));
    [done|].
  apply (emits_bind (writeChar q) _ [u8 q]); auto with esp.
Qed.

Lemma write_topics_emits topics :
  Forall mstr_ok topics ->
  emits (write_topics (length topics) topics) (concat (map (fun s => lp_bytes (mstr_bytes s)) topics)).
Proof.
  induction 1 as [|s topics Hs _ IH]; [apply emits_ret|].
  cbn [length write_topics map concat head tail].
  apply (emits_opt _ s (fun s p => ptr ← writeMQTTString s p; write_topics (length topics) topics ptr));
    [done|].
  apply emits_bind; auto with esp.
Qed.

Lemma serialize_subscribe_run buflen dup packetid topics qoss (m : mem) :
  Forall mstr_ok topics -> length qoss = length topics ->
  zlen (subscribe_body packetid topics qoss) < 2 ^ 28 -> buflen <= zlen m ->
  let p := packet (Header SUBSCRIBE dup 1 0) (subscribe_body packetid topics qoss) in
  MQTTSerialize_subscribe buflen dup packetid (zlen topics) topics qoss m =
    if buflen <? MQTTPacket_len (zlen (subscribe_body packetid topics qoss))
    then Some (MQTTPACKET_BUFFER_TOO_SHORT, m) else Some (zlen p, splice 0 p m).
Proof.
  intros Hok Hl Hlen Hm p. unfold MQTTSerialize_subscribe.
  rewrite (subscribe_length topics qoss packetid Hok Hl).
  set (g := fun ptr : Z => ptr ← writeInt packetid ptr;
    ptr ← write_subscriptions (Z.to_nat (zlen topics)) topics qoss ptr; (mret ptr : ST mem Z)).
  assert (Hg : emits g (subscribe_body packetid topics qoss)).
  { apply emits_bind; [auto with esp|]. unfold zlen. rewrite Nat2Z.id, <- (app_nil_r (concat _)).
    apply (emits_bind (write_subscriptions _ topics qoss)); [|auto with esp].
    by apply write_subscriptions_emits. }
  exact (frame_run _ _ g _ Hg eq_refl Hlen buflen m Hm).
Qed.

Lemma serialize_unsubscribe_run buflen dup packetid topics (m : mem) :
  Forall mstr_ok topics ->
  zlen (unsubscribe_body packetid topics) < 2 ^ 28 -> buflen <= zlen m ->
  let p := packet (Header UNSUBSCRIBE dup 1 0) (unsubscribe_body packetid topics) in
  MQTTSerialize_unsubscribe buflen dup packetid (zlen topics) topics m =
    if buflen <? MQTTPacket_len (zlen (unsubscribe_body packetid topics))
    then Some (MQTTPACKET_BUFFER_TOO_SHORT, m) else Some (zlen p, splice 0 p m).
Proof.
  intros Hok Hlen Hm p. unfold MQTTSerialize_unsubscribe.
  rewrite (unsubscribe_length topics packetid Hok).
  set (g := fun ptr : Z => ptr ← writeInt packetid ptr;
    ptr ← write_topics (Z.to_nat (zlen topics)) topics ptr; (mret ptr : ST mem Z)).
  assert (Hg : emits g (unsubscribe_body packetid topics)).
  { apply emits_bind; [auto with esp|]. unfold zlen. rewrite Nat2Z.id, <- (app_nil_r (concat _)).
    apply (emits_bind (write_topics _ topics)); [|auto with esp]. by apply write_topics_emits. }
  exact (frame_run _ _ g _ Hg eq_refl Hlen buflen m Hm).
Qed.

Definition suback_packet (packetid : Z) (granted : list Z) : mem :=
  packet (Header SUBACK 0 0 0) (int_bytes packetid ++ granted).

(** The loop of the granted qualities of service: [done] ones are stored. *)
Lemma suback_loop_run maxcount packetid granted : forall fuel p done arr (m : mem),
  (length granted < fuel)%nat -> mem_at p granted m ->
  zlen done + zlen granted <= zlen arr -> take (length done) arr = done ->
  zlen done + zlen granted <= maxcount + 1 ->
  suback_loop fuel maxcount p (p + zlen granted) (SubackOut packetid (zlen done) arr) m =
    Some ((1, SubackOut packetid (zlen done + zlen granted)
                (done ++ granted ++ drop (length done + length granted) arr)), m).
Proof.
  induction granted as [|q granted IH]; intros fuel p dn arr m Hf Hp Ha Et Hmax;
    (destruct fuel as [|fuel]; [simpl in Hf; lia|]); cbn [suback_loop].
  - change (zlen []) with 0. destruct (Z.ltb_spec p (p + 0)); [lia|].
    unfold mret, st_ret. do 3 f_equal. simpl. rewrite Z.add_0_r. f_equal.
    rewrite Nat.add_0_r, <- Et at 1. by rewrite Et, <- Et, take_drop at 1.
  - rewrite zlen_cons in *. pose proof (zlen_nonneg granted).
    destruct (Z.ltb_spec p (p + (1 + zlen granted))); [|lia].
    cbn [sa_count sa_packetid sa_grantedQoSs].
    destruct (Z.ltb_spec maxcount (zlen dn)); [lia|].
    rewrite (bind_run _ _ _ _ _ (readChar_at _ _ _ _ Hp)). cbv beta iota.
    assert (Hlt : (length dn < length arr)%nat) by (unfold zlen in *; lia).
    assert (Eg : set_granted (zlen dn) q (SubackOut packetid (zlen dn) arr) =
      Some (SubackOut packetid (zlen (dn ++ [q])) (<[length dn := q]> arr))).
    { unfold set_granted. cbn [sa_count sa_packetid sa_grantedQoSs]. unfold zlen in *.
      rewrite (proj2 (Z.leb_le 0 _)), (proj2 (Z.ltb_lt _ (Z.of_nat (length arr)))) by lia.
      rewrite Nat2Z.id, length_app. simpl. do 2 f_equal. lia. }
    rewrite Eg. unfold mbind, st_bind, st_opt.
    apply mem_at_cons in Hp as [_ Hp].
    replace (p + (1 + zlen granted)) with (p + 1 + zlen granted) by lia.
    assert (Et' : take (length (dn ++ [q])) (<[length dn := q]> arr) = dn ++ [q]).
    { rewrite length_app, Nat.add_1_r, (take_S_r _ _ q) by (by apply list_lookup_insert_eq).
      rewrite take_insert_ge by lia. by rewrite Et. }
    rewrite (IH fuel (p + 1) (dn ++ [q]) (<[length dn := q]> arr) m); [|simpl in Hf; lia|done|..].
    + rewrite zlen_app, <- app_assoc. change (zlen [q]) with 1. do 3 f_equal; f_equal; [lia|].
      simpl. do 3 f_equal. rewrite length_app. simpl. rewrite drop_insert_lt by lia. f_equal. lia.
    + rewrite zlen_app. unfold zlen in *. rewrite length_insert. simpl. lia.
    + done.
    + rewrite zlen_app. change (zlen [q]) with 1. lia.
Qed.

Lemma deserialize_suback_run maxcount packetid granted out (m : mem) :
  0 <= packetid < 65536 -> zlen granted < 2 ^ 28 - 2 ->
  zlen granted <= zlen (sa_grantedQoSs out) -> zlen granted <= maxcount + 1 ->
  mem_at 0 (suback_packet packetid granted) m ->
  MQTTDeserialize_suback maxcount out m =
    Some ((1, SubackOut packetid (zlen granted)
      (granted ++ drop (length granted) (sa_grantedQoSs out))), m).
Proof.
  intros Hid Hl Ha Hmax H. unfold suback_packet in H. pose proof (zlen_nonneg granted).
  set (body := int_bytes packetid ++ granted) in *.
  assert (El : zlen body = 2 + zlen granted) by (unfold body; rewrite zlen_app; done).
  destruct (parse_packet _ body m ltac:(lia) H) as (E1 & E2 & Hb).
  unfold body in Hb. apply mem_at_app in Hb as [Hi Hg]. fold body in Hi, Hg.
  unfold MQTTDeserialize_suback. rewrite (bind_run _ _ _ _ _ E1). cbv beta iota.
  change (negb (h_type (header_of (header_byte (Header SUBACK 0 0 0))) =? SUBACK)) with false.
  cbv iota. rewrite (bind_run _ _ _ _ _ E2). cbv beta iota zeta.
  set (p := 1 + zlen (rl_bytes (zlen body))) in *.
  destruct (Z.ltb_spec (p + zlen body - p) 2); [lia|].
  rewrite (bind_run _ _ _ _ _ (readInt_at p packetid m Hid Hi)). cbv beta iota.
  change (zlen (int_bytes packetid)) with 2 in Hg.
  replace (p + zlen body) with (p + 2 + zlen granted) by lia.
  rewrite (suback_loop_run maxcount packetid granted _ (p + 2) [] (sa_grantedQoSs out) m);
    try done; try lia.
  unfold zlen. lia.
Qed.

(** One granted quality of service more than the array has room for. *)
Lemma suback_loop_overruns maxcount packetid granted q : forall fuel p (dn arr m : mem),
  (length granted + 1 < fuel)%nat -> mem_at p (granted ++ [q]) m ->
  zlen dn + zlen granted = zlen arr -> zlen arr <= maxcount ->
  suback_loop fuel maxcount p (p + zlen granted + 1) (SubackOut packetid (zlen dn) arr) m = None.
Proof.
  induction granted as [|g granted IH]; intros fuel p dn arr m Hf Hp Ha Hmax;
    (destruct fuel as [|fuel]; [simpl in Hf; lia|]); cbn [suback_loop].
  - change (zlen []) with 0 in *. rewrite (proj2 (Z.ltb_lt p (p + 0 + 1))) by lia. cbn [sa_count].
    rewrite (proj2 (Z.ltb_ge maxcount (zlen dn))) by lia.
    rewrite (bind_run _ _ _ _ _ (readChar_at _ _ _ _ Hp)). cbv beta iota.
    unfold set_granted. cbn [sa_count sa_grantedQoSs].
    change (Z.of_nat (length arr)) with (zlen arr). by rewrite andb_comm, (proj2 (Z.ltb_ge _ _)) by lia.
  - rewrite zlen_cons in *. pose proof (zlen_nonneg granted). pose proof (zlen_nonneg dn).
    rewrite (proj2 (Z.ltb_lt p (p + (1 + zlen granted) + 1))) by lia. cbn [sa_count].
    rewrite (proj2 (Z.ltb_ge maxcount (zlen dn))) by lia.
    rewrite (bind_run _ _ _ _ _ (readChar_at _ _ _ _ Hp)). cbv beta iota.
    unfold set_granted. cbn [sa_count sa_packetid sa_grantedQoSs].
    change (Z.of_nat (length arr)) with (zlen arr).
    rewrite (proj2 (Z.leb_le 0 _)), (proj2 (Z.ltb_lt _ (zlen arr))) by lia. cbn [andb].
    unfold mbind, st_bind, st_opt. apply mem_at_cons in Hp as [_ Hp].
    replace (p + (1 + zlen granted) + 1) with (p + 1 + zlen granted + 1) by lia.
    replace (zlen dn + 1) with (zlen (dn ++ [0])) by (rewrite zlen_app; done).
    apply IH; [simpl in Hf; lia|done| |].
    + rewrite zlen_app. unfold zlen in *. rewrite length_insert. simpl. lia.
    + unfold zlen in *. by rewrite length_insert.
Qed.

Lemma deserialize_suback_overruns packetid (granted array m : mem) :
  0 <= packetid < 65536 -> zlen granted < 2 ^ 28 - 2 ->
  zlen granted = zlen array + 1 ->
  mem_at 0 (suback_packet packetid granted) m ->
  MQTTDeserialize_suback (zlen array) (SubackOut 0 0 array) m = None.
Proof.
  intros Hid Hl Ha H. pose proof (zlen_nonneg array).
  destruct (exists_last (l := granted)) as (gs & q & ->); [intros ->; change (zlen []) with 0 in Ha; lia|].
  rewrite zlen_app in *. change (zlen [q]) with 1 in *.
  unfold suback_packet in H. set (body := int_bytes packetid ++ gs ++ [q]) in *.
  assert (El : zlen body = 2 + zlen gs + 1) by (unfold body; rewrite !zlen_app;
    change (zlen [q]) with 1; change (zlen (int_bytes packetid)) with 2; lia).
  destruct (parse_packet _ body m ltac:(lia) H) as (E1 & E2 & Hb).
  unfold body in Hb. apply mem_at_app in Hb as [Hi Hg]. fold body in Hi, Hg.
  unfold MQTTDeserialize_suback. rewrite (bind_run _ _ _ _ _ E1). cbv beta iota.
  change (negb (h_type (header_of (header_byte (Header SUBACK 0 0 0))) =? SUBACK)) with false.
  cbv iota. rewrite (bind_run _ _ _ _ _ E2). cbv beta iota zeta.
  set (p := 1 + zlen (rl_bytes (zlen body))) in *. pose proof (zlen_nonneg gs).
  destruct (Z.ltb_spec (p + zlen body - p) 2); [lia|].
  rewrite (bind_run _ _ _ _ _ (readInt_at p packetid m Hid Hi)). cbv beta iota.
  change (zlen (int_bytes packetid)) with 2 in Hg.
  replace (p + zlen body) with (p + 2 + zlen gs + 1) by lia.
  apply (suback_loop_overruns (zlen array) packetid gs q _ (p + 2) [] array m); try done; try lia.
  - unfold zlen in *. lia.
  - change (zlen []) with 0. lia.
Qed.
