(* ===== verification/MqttClient.v ===== *)
(** * The MQTT client (extras/paho_mqtt_c/MQTTClient.c, MQTTESP8266.c)

    The client works on its record, which owns the send and the receive
    buffer, and on an environment [E]: the FreeRTOS tick counter, the lwIP
    socket calls and the application's message handlers, all of them code
    that is not modelled (class [Env]). *)

From S2P Require Import Prelude MqttPacket MqttSerial.

Local Open Scope Z_scope.

(** ** Data: MQTTClient.h *)

Definition MAX_PACKET_ID : Z := 65535.
Definition MAX_MESSAGE_HANDLERS : nat := 5.
Definition MAX_FAIL_ALLOWED : Z := 2.

Definition QOS0 : Z := 0.
Definition QOS1 : Z := 1.
Definition QOS2 : Z := 2.

Definition READ_ERROR : Z := -4.
Definition DISCONNECTED : Z := -3.
Definition FAILURE : Z := -1.
Definition SUCCESS : Z := 0.

(** configTICK_RATE_HZ is 100. *)
Definition portTICK_RATE_MS : Z := 10.

Record Timer := MkTimer { end_time : Z }.
Record Network := MkNetwork { my_socket : Z }.

(** [payload] is the memory from the payload pointer on. *)
Record MQTTMessage := Message {
  msg_qos : Z; msg_retained : Z; msg_dup : Z; msg_id : Z;
  msg_payload : option mem; msg_payloadlen : Z }.

Record MessageData := MkMessageData { md_topic : MQTTString; md_message : MQTTMessage }.
Definition NewMessageData (aTopicName : MQTTString) (aMessage : MQTTMessage) : MessageData :=
  MkMessageData aTopicName aMessage.

(** A function pointer of the application is a number, NULL is [None]. *)
Record MessageHandler := MkHandler { topicFilter : option mem; fp : option nat }.

Record MQTTClient := Client {
  next_packetid : Z;
  command_timeout_ms : Z;
  buf_size : Z;
  readbuf_size : Z;
  buf : mem;
  readbuf : mem;
  keepAlive : Z;
  ping_outstanding : Z;
  fail_count : Z;
  isconnected : Z;
  messageHandlers : list MessageHandler;
  defaultMessageHandler : option nat;
  ipstack : Network;
  ping_timer : Timer;
}.

(** The assignments to one or a few members of the client. *)
Section setters.
Definition set_next_packetid v c := Client v (command_timeout_ms c) (buf_size c) (readbuf_size c)
  (buf c) (readbuf c) (keepAlive c) (ping_outstanding c) (fail_count c) (isconnected c)
  (messageHandlers c) (defaultMessageHandler c) (ipstack c) (ping_timer c).
Definition set_buf v c := Client (next_packetid c) (command_timeout_ms c) (buf_size c) (readbuf_size c)
  v (readbuf c) (keepAlive c) (ping_outstanding c) (fail_count c) (isconnected c)
  (messageHandlers c) (defaultMessageHandler c) (ipstack c) (ping_timer c).
Definition set_readbuf v c := Client (next_packetid c) (command_timeout_ms c) (buf_size c)
  (readbuf_size c) (buf c) v (keepAlive c) (ping_outstanding c) (fail_count c) (isconnected c)
  (messageHandlers c) (defaultMessageHandler c) (ipstack c) (ping_timer c).
Definition set_keepAlive v c := Client (next_packetid c) (command_timeout_ms c) (buf_size c)
  (readbuf_size c) (buf c) (readbuf c) v (ping_outstanding c) (fail_count c) (isconnected c)
  (messageHandlers c) (defaultMessageHandler c) (ipstack c) (ping_timer c).
Definition set_ping v f c := Client (next_packetid c) (command_timeout_ms c) (buf_size c)
  (readbuf_size c) (buf c) (readbuf c) (keepAlive c) v f (isconnected c)
  (messageHandlers c) (defaultMessageHandler c) (ipstack c) (ping_timer c).
Definition set_isconnected v c := Client (next_packetid c) (command_timeout_ms c) (buf_size c)
  (readbuf_size c) (buf c) (readbuf c) (keepAlive c) (ping_outstanding c) (fail_count c) v
  (messageHandlers c) (defaultMessageHandler c) (ipstack c) (ping_timer c).
Definition set_handlers v c := Client (next_packetid c) (command_timeout_ms c) (buf_size c)
  (readbuf_size c) (buf c) (readbuf c) (keepAlive c) (ping_outstanding c) (fail_count c)
  (isconnected c) v (defaultMessageHandler c) (ipstack c) (ping_timer c).
Definition set_ping_timer v c := Client (next_packetid c) (command_timeout_ms c) (buf_size c)
  (readbuf_size c) (buf c) (readbuf c) (keepAlive c) (ping_outstanding c) (fail_count c)
  (isconnected c) (messageHandlers c) (defaultMessageHandler c) (ipstack c) v.
End setters.

(** ** The environment

    [env_select for_write socket ticks] is the result of select() and of
    FD_ISSET(); [env_recv socket len] the result of recv() and the bytes it
    stored; [env_call] runs a message handler of the application. *)
Class Env (E : Type) := {
  env_tick : ST E Z;
  env_select : bool -> Z -> Z -> ST E (Z * bool);
  env_recv : Z -> Z -> ST E (Z * mem);
  env_send : Z -> mem -> ST E Z;
  env_call : nat -> MessageData -> ST E unit;
}.

Section client.
Context {E : Type} `{!Env E}.

(** ** MQTTESP8266.c: timers and the socket *)

Definition expired (timer : Timer) : ST E bool :=
  now ← env_tick;
  let left := s32 (end_time timer - now) in
  mret (left <? 0).

Definition countdown_ms (timeout : Z) : ST E Timer :=
  now ← env_tick;
  mret (MkTimer (u32 (now + u32 timeout / portTICK_RATE_MS))).

Definition countdown (timeout : Z) : ST E Timer := countdown_ms (u32 (timeout * 1000)).

Definition left_ms (timer : Timer) : ST E Z :=
  now ← env_tick;
  let left := s32 (end_time timer - now) in
  mret (if left <? 0 then 0 else left / portTICK_RATE_MS).

Definition InitTimer : Timer := MkTimer 0.
Definition NewNetwork : Network := MkNetwork (-1).

(** The result and the bytes stored in the buffer. *)
Definition mqtt_esp_read (n : Network) (len timeout_ms : Z) : ST E (Z * mem) :=
  '(rc, set) ← env_select false (my_socket n) (u32 timeout_ms / portTICK_RATE_MS);
  if (0 <? rc) && (set : bool) then env_recv (my_socket n) len
  else mret (-1, []).

Definition mqtt_esp_write (n : Network) (buffer : mem) (timeout_ms : Z) : ST E Z :=
  '(rc, set) ← env_select true (my_socket n) (u32 timeout_ms / portTICK_RATE_MS);
  if (0 <? rc) && (set : bool) then env_send (my_socket n) buffer
  else mret (-1).

(** ** The state of the client's functions *)

Definition cstate : Type := MQTTClient * E.
Definition c_get : ST cstate MQTTClient := fun w => Some (w.1, w).
Definition c_mod (f : MQTTClient -> MQTTClient) : ST cstate unit := fun w => Some ((), (f w.1, w.2)).
Definition on_env {A} (f : ST E A) : ST cstate A := fun w =>
  match f w.2 with Some (x, e) => Some (x, (w.1, e)) | None => None end.
Definition in_buf {A} (f : ST mem A) : ST cstate A := fun w =>
  match f (buf w.1) with Some (x, m) => Some (x, (set_buf m w.1, w.2)) | None => None end.
Definition in_readbuf {A} (f : ST mem A) : ST cstate A := fun w =>
  match f (readbuf w.1) with Some (x, m) => Some (x, (set_readbuf m w.1, w.2)) | None => None end.

(** [countdown(&(c->ping_timer), c->keepAliveInterval)]. *)
Definition rearm_ping : ST cstate unit :=
  c ← c_get; t ← on_env (countdown (keepAlive c)); c_mod (set_ping_timer t).

(** ** MQTTClient.c *)

Definition getNextPacketId : ST cstate Z :=
  c ← c_get;
  let id := if next_packetid c =? MAX_PACKET_ID then 1 else next_packetid c + 1 in
  c_mod (set_next_packetid id) ;; mret id.

(** The loop of [sendPacket]: result [sent]. *)
Fixpoint sendPacket_loop (fuel : nat) (sent length : Z) (timer : Timer) : ST cstate Z :=
  match fuel with
  | O => out_of_fuel
  | S fuel =>
      if negb (sent <? length) then mret sent else
      ex ← on_env (expired timer);
      if (ex : bool) then mret sent else
      left ← on_env (left_ms timer);
      c ← c_get;
      d ← st_opt (data_bytes (Some (drop (Z.to_nat sent) (buf c))) (length - sent));
      rc ← on_env (mqtt_esp_write (ipstack c) d left);
      if rc <? 0 then mret sent else
      sendPacket_loop fuel (sent + rc) length timer
  end.

Definition sendPacket (fuel : nat) (length : Z) (timer : Timer) : ST cstate Z :=
  sent ← sendPacket_loop fuel 0 length timer;
  if sent =? length then rearm_ping ;; mret SUCCESS else mret FAILURE.

(** [decodePacket] is the loop of [MQTTPacket_decode] with the network's
    read function; the result is [*value]. *)
Definition decodePacket (timeout : Z) : ST cstate Z :=
  c ← c_get;
  '(_, value) ← on_env (MQTTPacket_decode (fun n => mqtt_esp_read (ipstack c) n timeout));
  mret value.

(** Step 3 of [readPacket]: the rest of the packet. *)
Definition readPacket_rest (len rem_len : Z) (timer : Timer) : ST cstate Z :=
  c ← c_get;
  bad ← (if 0 <? rem_len then
           left ← on_env (left_ms timer);
           '(rc, d) ← on_env (mqtt_esp_read (ipstack c) rem_len left);
           in_readbuf (mem_put len d) ;;
           mret (negb (rc =? rem_len))
         else mret false);
  if (bad : bool) then mret READ_ERROR else
  b ← in_readbuf (mem_get 0);
  mret (h_type (header_of b)).

Definition readPacket (timer : Timer) : ST cstate Z :=
  c ← c_get;
  left ← on_env (left_ms timer);
  '(rc, d) ← on_env (mqtt_esp_read (ipstack c) 1 left);
  in_readbuf (mem_put 0 d) ;;
  if negb (rc =? 1) then mret FAILURE else
  let len := 1 in
  left ← on_env (left_ms timer);
  rem_len ← decodePacket left;
  n ← in_readbuf (MQTTPacket_encode 1 rem_len);
  readPacket_rest (len + n) rem_len timer.
End client.

(** ** Topic filters *)

Definition c_head (s : mem) : Z := default 0 (head s).

(** [while (nextpos < curn_end && *nextpos != '/') nextpos = ++curn + 1]:
    the topic name from [curn] on. *)
Fixpoint skip_level (curn : mem) : mem :=
  match curn with
  | c :: ((n :: _) as rest) => if n =? 47 then curn else skip_level rest
  | _ => curn
  end.

(** The filter from [curf] and the name from [curn] on; one recursive call
    per iteration, each of which increments [curf].  The characters are
    '/' 47, '+' 43 and '#' 35. *)
Fixpoint isTopicMatched_loop (curf curn : mem) : bool :=
  match curf, curn with
  | f :: curf', n :: _ =>
      if (f =? 0) || ((n =? 47) && negb (f =? 47)) ||
         (negb (f =? 43) && negb (f =? 35) && negb (f =? n))
      then false                                  (* not at the end of the name *)
      else
        let curn := if f =? 43 then skip_level curn
                    else if f =? 35 then drop (length curn - 1) curn
                    else curn in
        isTopicMatched_loop curf' (tail curn)
  | _, [] => c_head curf =? 0
  | [], _ :: _ => false
  end.

Definition isTopicMatched (filter : mem) (topicName : MQTTString) : bool :=
  isTopicMatched_loop filter (take (Z.to_nat (ls_len topicName)) (default [] (ls_data topicName))).

(** ** Messages *)

Section operations.
Context {E : Type} `{!Env E}.

(** The loop over the handlers; [rc] is the result so far. *)
Fixpoint deliver_loop (handlers : list MessageHandler) (topicName : MQTTString)
    (message : MQTTMessage) (rc : Z) : ST (cstate (E:=E)) Z :=
  match handlers with
  | [] => mret rc
  | h :: handlers =>
      let matched := match topicFilter h with
                     | Some f => MQTTPacket_equals topicName f || isTopicMatched f topicName
                     | None => false
                     end in
      rc ← (if matched then
              match fp h with
              | Some f => on_env (env_call f (NewMessageData topicName message)) ;; mret SUCCESS
              | None => mret rc
              end
            else mret rc);
      deliver_loop handlers topicName message rc
  end.

Definition deliverMessage (topicName : MQTTString) (message : MQTTMessage) : ST (cstate (E:=E)) Z :=
  c ← c_get;
  rc ← deliver_loop (messageHandlers c) topicName message FAILURE;
  match defaultMessageHandler c with
  | Some f => if rc =? FAILURE
              then on_env (env_call f (NewMessageData topicName message)) ;; mret SUCCESS
              else mret rc
  | None => mret rc
  end.

Section fuel.
(** The number of iterations the loops on the network are given. *)
Context (fuel : nat).

Definition keepalive : ST (cstate (E:=E)) Z :=
  c ← c_get;
  if keepAlive c =? 0 then mret SUCCESS else
  ex ← on_env (expired (ping_timer c));
  if negb ex then mret SUCCESS else
  broken ← (if c_true (ping_outstanding c) then
              c_mod (set_ping (ping_outstanding c) (fail_count c + 1)) ;;
              mret (MAX_FAIL_ALLOWED <=? fail_count c + 1)
            else
              timer ← on_env (countdown_ms 1000);
              c_mod (set_ping 1 (fail_count c)) ;;
              len ← in_buf (MQTTSerialize_pingreq (buf_size c));
              (if 0 <? len then (sendPacket fuel len timer ;; mret ()) else mret ()) ;;
              mret false);
  if (broken : bool) then mret DISCONNECTED else
  rearm_ping ;; mret SUCCESS.

(** The case PUBLISH of [cycle]: [None] is a jump to [exit] with [rc].  The
    message identifier is not set by a packet of QoS 0, here 0. *)
Definition cycle_publish (timer : Timer) : ST (cstate (E:=E)) (bool * Z) :=
  '(ok, o) ← in_readbuf (MQTTDeserialize_publish
    (PublishOut 0 0 0 0 MQTTString_initializer 0 0));
  if negb (ok =? 1) then mret (true, SUCCESS) else
  c ← c_get;
  let msg := Message (pb_qos o) (pb_retained o) (pb_dup o) (pb_packetid o)
    (Some (drop (Z.to_nat (pb_payload o)) (readbuf c))) (pb_payloadlen o) in
  deliverMessage (pb_topicName o) msg ;;
  if negb (msg_qos msg =? QOS0) then
    len ← (if msg_qos msg =? QOS1
           then in_buf (MQTTSerialize_ack (buf_size c) PUBACK 0 (msg_id msg))
           else if msg_qos msg =? QOS2
           then in_buf (MQTTSerialize_ack (buf_size c) PUBREC 0 (msg_id msg))
           else mret 0);
    rc ← (if len <=? 0 then mret FAILURE else sendPacket fuel len timer);
    mret (rc =? FAILURE, rc)
  else mret (false, SUCCESS).

Definition cycle_pubrec (timer : Timer) : ST (cstate (E:=E)) (bool * Z) :=
  c ← c_get;
  '(ok, o) ← in_readbuf (MQTTDeserialize_ack (AckOut 0 0 0));
  rc ← (if negb (ok =? 1) then mret FAILURE else
        len ← in_buf (MQTTSerialize_ack (buf_size c) PUBREL 0 (ak_packetid o));
        if len <=? 0 then mret FAILURE else
        rc ← sendPacket fuel len timer;
        mret (if negb (rc =? SUCCESS) then FAILURE else rc));
  mret (rc =? FAILURE, rc).

(** The switch: whether to jump to [exit], and [rc]. *)
Definition cycle_switch (packet_type : Z) (timer : Timer) : ST (cstate (E:=E)) (bool * Z) :=
  if packet_type =? PUBLISH then cycle_publish timer
  else if packet_type =? PUBREC then cycle_pubrec timer
  else if packet_type =? PINGRESP then c_mod (set_ping 0 0) ;; mret (false, SUCCESS)
  else if packet_type =? READ_ERROR then c_mod (set_isconnected 0) ;; mret (false, DISCONNECTED)
  else mret (false, SUCCESS).

Definition cycle (timer : Timer) : ST (cstate (E:=E)) Z :=
  packet_type ← readPacket timer;
  '(exit, rc) ← cycle_switch packet_type timer;
  rc ← (if exit : bool then mret rc else
        c ← c_get;
        if c_true (isconnected c) then keepalive else mret rc);
  mret (if rc =? SUCCESS then packet_type else rc).

(** The loop of [waitfor] with the result [rc] so far. *)
Fixpoint waitfor_loop (n : nat) (packet_type : Z) (timer : Timer) (rc : Z) : ST (cstate (E:=E)) Z :=
  match n with
  | O => out_of_fuel
  | S n =>
      ex ← on_env (expired timer);
      if (ex : bool) then mret rc else
      rc ← cycle timer;
      if negb (rc =? packet_type) then waitfor_loop n packet_type timer rc else mret rc
  end.
Definition waitfor (packet_type : Z) (timer : Timer) : ST (cstate (E:=E)) Z :=
  waitfor_loop fuel packet_type timer FAILURE.

Fixpoint yield_loop (n : nat) (timer : Timer) (rc : Z) : ST (cstate (E:=E)) Z :=
  match n with
  | O => out_of_fuel
  | S n =>
      ex ← on_env (expired timer);
      if (ex : bool) then mret rc else
      rc ← cycle timer;
      if rc =? DISCONNECTED then mret rc else yield_loop n timer SUCCESS
  end.
Definition MQTTYield (timeout_ms : Z) : ST (cstate (E:=E)) Z :=
  timer ← on_env (countdown_ms timeout_ms);
  yield_loop fuel timer SUCCESS.

(** ** The application's calls *)

(** The arrays that the caller passes are the new [buf] and [readbuf]; the
    members that are not assigned keep their value. *)
Definition NewMQTTClient (network : Network) (command_timeout : Z) (b : mem) (b_size : Z)
    (rb : mem) (rb_size : Z) (c : MQTTClient) : MQTTClient :=
  Client (next_packetid c) command_timeout b_size rb_size b rb (keepAlive c) 0 0 0
    (map (fun h => MkHandler None (fp h)) (messageHandlers c)) None network InitTimer.

Definition MQTTConnect (options : option MQTTPacket_connectData) : ST (cstate (E:=E)) Z :=
  c ← c_get;
  connect_timer ← on_env (countdown_ms (command_timeout_ms c));
  rc ← (if c_true (isconnected c) then mret FAILURE else
        let options := default MQTTPacket_connectData_initializer options in
        c_mod (set_keepAlive (keepAliveInterval options)) ;;
        rearm_ping ;;
        len ← in_buf (MQTTSerialize_connect (buf_size c) options);
        if len <=? 0 then mret FAILURE else
        rc ← sendPacket fuel len connect_timer;
        if negb (rc =? SUCCESS) then mret rc else
        rc ← waitfor CONNACK connect_timer;
        if rc =? CONNACK then
          '(ok, o) ← in_readbuf (MQTTDeserialize_connack (ConnackOut 0 255));
          mret (if ok =? 1 then ca_rc o else FAILURE)
        else mret FAILURE);
  (if rc =? SUCCESS then c_mod (set_isconnected 1) else mret ()) ;;
  mret rc.

(** The search for a free handler slot; [None] is the table when it is full. *)
Fixpoint store_handler (topic : mem) (handler : option nat) (hs : list MessageHandler) :
    option (list MessageHandler) :=
  match hs with
  | [] => None
  | h :: hs =>
      match topicFilter h with
      | None => Some (MkHandler (Some topic) handler :: hs)
      | Some _ => option_map (cons h) (store_handler topic handler hs)
      end
  end.

(** [MQTTString_initializer] with the topic as its C string. *)
Definition topic_string (topic : mem) : MQTTString := MString (Some topic) 0 None.

Definition MQTTSubscribe (topic : mem) (qos : Z) (handler : option nat) : ST (cstate (E:=E)) Z :=
  c ← c_get;
  timer ← on_env (countdown_ms (command_timeout_ms c));
  if negb (c_true (isconnected c)) then mret FAILURE else
  id ← getNextPacketId;
  len ← in_buf (MQTTSerialize_subscribe (buf_size c) 0 (u16 id) 1 [topic_string topic] [qos]);
  if len <=? 0 then mret FAILURE else
  rc ← sendPacket fuel len timer;
  if negb (rc =? SUCCESS) then mret rc else
  t ← waitfor SUBACK timer;
  if t =? SUBACK then
    '(ok, o) ← in_readbuf (MQTTDeserialize_suback 1 (SubackOut 0 0 [-1]));
    let rc := if ok =? 1 then nth 0 (sa_grantedQoSs o) 0 else rc in
    if negb (rc =? 0x80) then
      c ← c_get;
      match store_handler topic handler (messageHandlers c) with
      | Some hs => c_mod (set_handlers hs) ;; mret 0
      | None => mret rc
      end
    else mret rc
  else mret FAILURE.

Definition MQTTUnsubscribe (filter : mem) : ST (cstate (E:=E)) Z :=
  c ← c_get;
  timer ← on_env (countdown_ms (command_timeout_ms c));
  if negb (c_true (isconnected c)) then mret FAILURE else
  id ← getNextPacketId;
  len ← in_buf (MQTTSerialize_unsubscribe (buf_size c) 0 (u16 id) 1 [topic_string filter]);
  if len <=? 0 then mret FAILURE else
  rc ← sendPacket fuel len timer;
  if negb (rc =? SUCCESS) then mret rc else
  t ← waitfor UNSUBACK timer;
  if t =? UNSUBACK then
    '(ok, _) ← in_readbuf (MQTTDeserialize_unsuback 0);
    mret (if ok =? 1 then 0 else rc)
  else mret FAILURE.

(** Waiting for the acknowledgement of a publish. *)
Definition publish_wait (packet_type : Z) (timer : Timer) : ST (cstate (E:=E)) Z :=
  t ← waitfor packet_type timer;
  if t =? packet_type then
    c ← c_get;
    c_mod (set_ping (ping_outstanding c) 0) ;;
    '(ok, _) ← in_readbuf (MQTTDeserialize_ack (AckOut 0 0 0));
    mret (if negb (ok =? 1) then FAILURE else SUCCESS)
  else mret FAILURE.

(** The result is the return value and the message, whose identifier it sets. *)
Definition MQTTPublish (topic : mem) (message : MQTTMessage) : ST (cstate (E:=E)) (Z * MQTTMessage) :=
  c ← c_get;
  timer ← on_env (countdown_ms (command_timeout_ms c));
  if negb (c_true (isconnected c)) then mret (FAILURE, message) else
  message ← (if (msg_qos message =? QOS1) || (msg_qos message =? QOS2) then
               id ← getNextPacketId;
               mret (Message (msg_qos message) (msg_retained message) (msg_dup message) (u16 id)
                 (msg_payload message) (msg_payloadlen message))
             else mret message);
  len ← in_buf (MQTTSerialize_publish (buf_size c) 0 (msg_qos message) (msg_retained message)
    (msg_id message) (topic_string topic) (msg_payload message) (msg_payloadlen message));
  if len <=? 0 then mret (FAILURE, message) else
  rc ← sendPacket fuel len timer;
  if negb (rc =? SUCCESS) then mret (rc, message) else
  rc ← (if msg_qos message =? QOS1 then publish_wait PUBACK timer
        else if msg_qos message =? QOS2 then publish_wait PUBCOMP timer
        else mret rc);
  mret (rc, message).

Definition MQTTDisconnect : ST (cstate (E:=E)) Z :=
  c ← c_get;
  len ← in_buf (MQTTSerialize_disconnect (buf_size c));
  timer ← on_env (countdown_ms (command_timeout_ms c));
  rc ← (if 0 <? len then sendPacket fuel len timer else mret FAILURE);
  c_mod (set_isconnected 0) ;;
  mret rc.
End fuel.
End operations.
