(* ===== verification/MqttNet.v ===== *)
(** * The MQTT client on the network

    What the client's theorems assume of the environment (class [EnvLaws]),
    and the lemmas on [sendPacket], [readPacket] and [deliverMessage]. *)

From S2P Require Import Prelude MqttPacket MqttWire MqttSerial MqttFormat MqttClient.

Local Open Scope Z_scope.

(** ** The laws of the environment

    [wire e]: the bytes accepted by send() so far; [inbox e]: the bytes that
    the peer has sent and that recv() has not yet returned; [calls e]: the
    handlers called, with their message.  The calls return; recv() gives between
    one byte and all it is asked for of the bytes that are there (lwIP ends it at the
    end of a segment or at a PUSH flag, sockets.c lines 654-659); send() of a non-empty
    buffer either fails or accepts at least one byte of it. *)
Section laws.
Context {E : Type} (wire inbox : E -> mem) (calls : E -> list (nat * MessageData)).
Record env_same (e e' : E) : Prop := {
  same_wire : wire e' = wire e; same_inbox : inbox e' = inbox e; same_calls : calls e' = calls e }.
End laws.

Class EnvLaws (E : Type) `{!Env E} := {
  wire : E -> mem;
  inbox : E -> mem;
  calls : E -> list (nat * MessageData);
  law_tick e : wp env_tick (fun _ e' => env_same wire inbox calls e e') e;
  law_select w s t e : wp (env_select w s t) (fun _ e' => env_same wire inbox calls e e') e;
  law_readable s t e : inbox e <> [] ->
    wp (env_select false s t) (fun r e' => 0 < r.1 /\ r.2 = true /\ env_same wire inbox calls e e') e;
  law_recv s n e : 0 < n -> inbox e <> [] ->
    wp (env_recv s n) (fun r e' => exists k, 1 <= k <= n /\ k <= zlen (inbox e) /\
      r = (k, take (Z.to_nat k) (inbox e)) /\
      inbox e' = drop (Z.to_nat k) (inbox e) /\ wire e' = wire e /\ calls e' = calls e) e;
  law_send s d e : d <> [] ->
    wp (env_send s d) (fun r e' => (r < 0 /\ env_same wire inbox calls e e') \/
      (1 <= r <= zlen d /\ wire e' = wire e ++ take (Z.to_nat r) d /\
       inbox e' = inbox e /\ calls e' = calls e)) e;
  law_call f md e :
    wp (env_call f md) (fun _ e' => calls e' = calls e ++ [(f, md)] /\
      wire e' = wire e /\ inbox e' = inbox e) e;
}.

Notation same := (env_same wire inbox calls).

Section net.
Context {E : Type} `{!Env E} `{!EnvLaws E}.
Implicit Types (c : MQTTClient) (e : E).

Lemma same_refl e : same e e.
Proof. done. Qed.
Lemma same_trans e1 e2 e3 : same e1 e2 -> same e2 e3 -> same e1 e3.
Proof. intros [] []. split; congruence. Qed.

Lemma wp_on_env {A} (f : ST E A) (Q : A -> cstate -> Prop) c e :
  wp f (fun x e' => Q x (c, e')) e -> wp (on_env f) Q (c, e).
Proof. unfold wp, on_env. simpl. by destruct (f e) as [[x e']|]. Qed.

Lemma expired_wp t e : wp (expired t) (fun _ e' => same e e') e.
Proof. unfold expired. wp_steps. eapply wp_mono; [apply law_tick|]. intros. by wp_steps. Qed.
Lemma left_ms_wp t e : wp (left_ms t) (fun _ e' => same e e') e.
Proof. unfold left_ms. wp_steps. eapply wp_mono; [apply law_tick|]. intros. by wp_steps. Qed.
Lemma countdown_ms_wp n e : wp (countdown_ms n) (fun _ e' => same e e') e.
Proof. unfold countdown_ms. wp_steps. eapply wp_mono; [apply law_tick|]. intros. by wp_steps. Qed.
Lemma rearm_ping_wp c e :
  wp rearm_ping (fun _ w => exists t e', w = (set_ping_timer t c, e') /\ same e e') (c, e).
Proof.
  unfold rearm_ping. wp_steps. unfold wp at 1, c_get. simpl. apply wp_bind, wp_on_env.
  eapply wp_mono; [apply countdown_ms_wp|]. intros t e' H. by exists t, e'.
Qed.

(** ** Sending *)

Lemma write_wp n d t e :
  d <> [] ->
  wp (mqtt_esp_write n d t) (fun r e' => (r < 0 /\ same e e') \/
    (1 <= r <= zlen d /\ wire e' = wire e ++ take (Z.to_nat r) d /\
     inbox e' = inbox e /\ calls e' = calls e)) e.
Proof.
  intros Hd. unfold mqtt_esp_write. wp_steps. eapply wp_mono; [apply law_select|].
  intros [rc b] e1 [Hw Hi Hc]. destruct ((0 <? rc) && b).
  - eapply wp_mono; [by apply law_send|]. intros r e2 [[Hr [Hw' Hi' Hc']]|(Hr & Hw' & Hi' & Hc')].
    + left. split; [done|]. split; congruence.
    + right. rewrite Hw', Hi', Hc', Hw, Hi, Hc. done.
  - wp_steps. left. split; [lia|]. by split.
Qed.

Lemma take_drop_take (l : mem) a b :
  0 <= a -> 0 <= b -> a + b <= zlen l ->
  take (Z.to_nat a) l ++ take (Z.to_nat b) (drop (Z.to_nat a) l) = take (Z.to_nat (a + b)) l.
Proof.
  intros. rewrite Z2Nat.inj_add by done. by rewrite take_take_drop.
Qed.

Lemma sendPacket_loop_wp fuel sent len timer c e w0 :
  0 <= sent <= len -> len <= zlen (buf c) -> Z.of_nat fuel > len - sent ->
  wire e = w0 ++ take (Z.to_nat sent) (buf c) ->
  wp (sendPacket_loop fuel sent len timer) (fun sent' w => exists e', w = (c, e') /\
    sent <= sent' <= len /\ wire e' = w0 ++ take (Z.to_nat sent') (buf c) /\
    inbox e' = inbox e /\ calls e' = calls e) (c, e).
Proof.
  revert sent e. induction fuel as [|fuel IH]; intros sent e Hs Hl Hf Hw; [lia|].
  cbn [sendPacket_loop]. destruct (Z.ltb_spec sent len) as [Hlt|Hge]; simpl negb; cbv iota.
  2:{ wp_steps. exists e. repeat split; try done; lia. }
  wp_steps. apply wp_on_env. eapply wp_mono; [apply expired_wp|]. intros ex e1 [Hw1 Hi1 Hc1].
  destruct ex. { wp_steps. exists e1. rewrite Hw1. repeat split; try done; lia. }
  wp_steps. apply wp_on_env. eapply wp_mono; [apply left_ms_wp|]. intros left e2 [Hw2 Hi2 Hc2].
  wp_steps. unfold wp at 1, c_get. cbn [fst]. wp_steps.
  set (d := take (Z.to_nat (len - sent)) (drop (Z.to_nat sent) (buf c))).
  assert (Hzd : zlen (drop (Z.to_nat sent) (buf c)) = zlen (buf c) - sent).
  { unfold zlen in *. rewrite length_drop. lia. }
  assert (Hd : data_bytes (Some (drop (Z.to_nat sent) (buf c))) (len - sent) = Some d).
  { unfold data_bytes. rewrite (proj2 (Z.leb_le _ _)) by lia. done. }
  assert (Hld : zlen d = len - sent) by (apply zlen_take; lia).
  rewrite Hd. unfold wp at 1, st_opt. wp_steps. apply wp_on_env.
  eapply wp_mono; [apply write_wp; intros E0; rewrite E0 in Hld; change (zlen []) with 0 in Hld; lia|].
  intros r e3 [[Hr [Hw3 Hi3 Hc3]]|(Hr & Hw3 & Hi3 & Hc3)].
  - rewrite (proj2 (Z.ltb_lt r 0)) by lia. wp_steps. exists e3.
    rewrite Hw3, Hw2, Hw1, Hi3, Hi2, Hi1, Hc3, Hc2, Hc1. repeat split; try done; lia.
  - rewrite (proj2 (Z.ltb_ge r 0)) by lia.
    eapply wp_mono; [apply (IH (sent + r)); [lia|done|lia|]|].
    + rewrite Hw3, Hw2, Hw1, Hw, <- app_assoc. f_equal.
      unfold d. rewrite take_take. rewrite Nat.min_l by lia. apply take_drop_take; lia.
    + intros s' w (e' & -> & Hs' & Hw' & Hi' & Hc'). exists e'.
      repeat split; try lia; congruence.
Qed.

(** All bytes of the packet are sent, or a proper prefix of them. *)
Definition sent_post (c : MQTTClient) (e : E) (len rc : Z) (w : cstate (E:=E)) : Prop :=
  inbox w.2 = inbox e /\ calls w.2 = calls e /\
  ((rc = SUCCESS /\ wire w.2 = wire e ++ take (Z.to_nat len) (buf c) /\
    exists t, w.1 = set_ping_timer t c) \/
   (rc = FAILURE /\ w.1 = c /\
    exists k, 0 <= k < len /\ wire w.2 = wire e ++ take (Z.to_nat k) (buf c))).

Lemma sendPacket_wp fuel len timer c e :
  0 <= len <= zlen (buf c) -> Z.of_nat fuel > len ->
  wp (sendPacket fuel len timer) (sent_post c e len) (c, e).
Proof.
  intros Hl Hf. unfold sendPacket. wp_steps.
  eapply wp_mono; [apply (sendPacket_loop_wp fuel 0 len timer c e (wire e)); try lia|].
  { simpl. by rewrite app_nil_r. }
  intros s w (e' & -> & Hs & Hw & Hi & Hc).
  destruct (Z.eqb_spec s len) as [->|Hne].
  - wp_steps. eapply wp_mono; [apply rearm_ping_wp|].
    intros _ w (t & e2 & -> & [Hw2 Hi2 Hc2]). wp_steps. unfold sent_post. simpl.
    split; [congruence|]. split; [congruence|]. left. split; [done|]. split; [congruence|]. by exists t.
  - wp_steps. unfold sent_post. simpl. split; [done|]. split; [done|]. right.
    split; [done|]. split; [done|]. exists s. split; [lia|done].
Qed.

(** ** Receiving *)

Lemma read_wp n k t e :
  0 < k -> inbox e <> [] ->
  wp (mqtt_esp_read n k t) (fun r e' => exists s e1 j, same e e1 /\ env_recv s k e1 = Some (r, e') /\
    1 <= j <= k /\ j <= zlen (inbox e) /\ r = (j, take (Z.to_nat j) (inbox e)) /\
    inbox e' = drop (Z.to_nat j) (inbox e) /\ wire e' = wire e /\ calls e' = calls e) e.
Proof.
  intros Hk Hne. unfold mqtt_esp_read. wp_steps. eapply wp_mono; [by apply law_readable|].
  intros [rc b] e1 (Hrc & Hb & [Hw Hi Hc]). simpl in Hrc, Hb.
  rewrite Hb, (proj2 (Z.ltb_lt 0 rc)) by lia. simpl.
  destruct (wp_run _ _ _ (law_recv (my_socket n) k e1 Hk ltac:(by rewrite Hi)))
    as (r & e2 & E2 & j & Hj & Hjl & Hr & Hi2 & Hw2 & Hc2).
  eapply wp_of_run; [exact E2|]. exists (my_socket n), e1, j. rewrite Hi in *.
  split_and!; try done; try lia; congruence.
Qed.
Lemma read_one n t e :
  inbox e <> [] ->
  wp (mqtt_esp_read n 1 t) (fun r e' => r = (1, take 1 (inbox e)) /\
    inbox e' = drop 1 (inbox e) /\ wire e' = wire e /\ calls e' = calls e) e.
Proof.
  intros Hne. eapply wp_mono; [apply read_wp; [lia|done]|].
  intros r e' (s & e1 & j & _ & _ & Hj & _ & H). by replace j with 1 in H by lia.
Qed.

(** The next bytes to be received, [body], come in one piece: recv() gives all of them
    when it is asked for them. *)
Definition one_piece (body rest : mem) : Prop :=
  body <> [] -> forall s e, inbox e = body ++ rest ->
  wp (env_recv s (zlen body)) (fun r _ => r.1 = zlen body) e.
Lemma read_whole n body rest t e :
  body <> [] -> one_piece body rest -> inbox e = body ++ rest ->
  wp (mqtt_esp_read n (zlen body) t) (fun r e' => r = (zlen body, body) /\
    inbox e' = rest /\ wire e' = wire e /\ calls e' = calls e) e.
Proof.
  intros Hne Hone Hi. assert (0 < zlen body).
  { destruct body as [|b body]; [done|]. rewrite zlen_cons. pose proof (zlen_nonneg body). lia. }
  eapply wp_mono; [apply (read_wp n (zlen body) t e); [done|]|].
  { rewrite Hi. by destruct body. }
  intros r e' (s & e1 & j & [Hw Hi1 Hc] & Ee & Hj & _ & Hr & Hi2 & Hrest).
  assert (Hone1 : r.1 = zlen body).
  { pose proof (Hone Hne s e1 ltac:(congruence)) as Hwp. unfold wp in Hwp. by rewrite Ee in Hwp. }
  rewrite Hr in Hone1. simpl in Hone1. subst j. rewrite Hi in Hr, Hi2. unfold zlen in Hr, Hi2.
  rewrite Nat2Z.id, take_app_length in Hr. rewrite Nat2Z.id, drop_app_length in Hi2. done.
Qed.

Lemma inbox_delivers n t bs : forall e rest, inbox e = bs ++ rest ->
  exists e', delivers (fun k => mqtt_esp_read n k t) bs e e' /\ inbox e' = rest /\
    wire e' = wire e /\ calls e' = calls e.
Proof.
  induction bs as [|b bs IH]; intros e rest Hi.
  { exists e. split; [constructor|done]. }
  destruct (wp_run _ _ _ (read_one n t e ltac:(by rewrite Hi)))
    as (r & e1 & E1 & Hr & Hi1 & Hw1 & Hc1).
  rewrite Hi in Hr, Hi1. simpl in Hr, Hi1.
  destruct (IH e1 rest Hi1) as (e2 & Hd & Hi2 & Hw2 & Hc2).
  exists e2. split; [|by rewrite Hw2, Hc2, Hw1, Hc1].
  eapply delivers_cons; [|exact Hd]. rewrite E1, Hr. done.
Qed.

Lemma wp_in_readbuf {A} (f : ST mem A) (Q : A -> cstate -> Prop) c e :
  wp f (fun x m => Q x (set_readbuf m c, e)) (readbuf c) -> wp (in_readbuf f) Q (c, e).
Proof. unfold wp, in_readbuf. simpl. by destruct (f (readbuf c)) as [[x m]|]. Qed.
Lemma wp_in_buf {A} (f : ST mem A) (Q : A -> cstate -> Prop) c e :
  wp f (fun x m => Q x (set_buf m c, e)) (buf c) -> wp (in_buf f) Q (c, e).
Proof. unfold wp, in_buf. simpl. by destruct (f (buf c)) as [[x m]|]. Qed.
Lemma wp_c_get (Q : MQTTClient -> cstate -> Prop) c e : Q c (c, e) -> wp (c_get (E:=E)) Q (c, e).
Proof. done. Qed.
Lemma wp_c_mod f (Q : unit -> cstate -> Prop) c e : Q () (f c, e) -> wp (c_mod (E:=E) f) Q (c, e).
Proof. done. Qed.

(** The first two reads, with the header and the remaining length back in
    the buffer. *)
Definition prefix_of (h : MQTTHeader) (body : mem) : mem := header_byte h :: rl_bytes (zlen body).

Lemma packet_prefix h body : packet h body = prefix_of h body ++ body.
Proof. done. Qed.

Lemma decodePacket_wp t n rest c e :
  0 <= n < 2 ^ 28 -> inbox e = rl_bytes n ++ rest ->
  wp (decodePacket t) (fun v w => v = n /\ exists e', w = (c, e') /\ inbox e' = rest /\
    wire e' = wire e /\ calls e' = calls e) (c, e).
Proof.
  intros Hn Hi. unfold decodePacket. wp_steps. apply wp_c_get. wp_steps. apply wp_on_env.
  destruct (inbox_delivers (ipstack c) t (rl_bytes n) e rest Hi) as (e' & Hd & Hi' & Hw' & Hc').
  eapply wp_of_run; [exact (decode_run _ n e e' Hn Hd)|]. cbv beta iota. wp_steps.
  split; [done|]. by exists e'.
Qed.

Lemma on_env_run {A} (f : ST E A) c e x e' : f e = Some (x, e') -> on_env f (c, e) = Some (x, (c, e')).
Proof. unfold on_env. simpl. by intros ->. Qed.
Lemma in_readbuf_run {A} (f : ST mem A) c e x m :
  f (readbuf c) = Some (x, m) -> in_readbuf (E:=E) f (c, e) = Some (x, (set_readbuf m c, e)).
Proof. unfold in_readbuf. simpl. by intros ->. Qed.

Lemma readPacket_prefix h body rest timer c e :
  inbox e = packet h body ++ rest -> zlen body < 2 ^ 28 ->
  zlen (prefix_of h body) <= zlen (readbuf c) ->
  exists e1, inbox e1 = body ++ rest /\ wire e1 = wire e /\ calls e1 = calls e /\
    readPacket timer (c, e) = readPacket_rest (zlen (prefix_of h body)) (zlen body) timer
      (set_readbuf (splice 0 (prefix_of h body) (readbuf c)) c, e1).
Proof.
  intros Hi Hb Hl. pose proof (zlen_nonneg body). pose proof (zlen_nonneg rest).
  unfold packet in Hi. simpl in Hi. rewrite <- app_assoc in Hi.
  unfold prefix_of in *. rewrite zlen_cons in *. pose proof (zlen_nonneg (rl_bytes (zlen body))).
  destruct (wp_run _ _ _ (left_ms_wp timer e)) as (l1 & e1 & E1 & [Hw1 Hi1 Hc1]).
  rewrite Hi in Hi1.
  destruct (wp_run _ _ _ (read_one (ipstack c) l1 e1 ltac:(by rewrite Hi1)))
    as ([r d] & e2 & E2 & Er & Hi2 & Hw2 & Hc2).
  rewrite Hi1 in Er, Hi2. simpl in Er, Hi2. injection Er as -> ->.
  destruct (wp_run _ _ _ (left_ms_wp timer e2)) as (l3 & e3 & E3 & [Hw3 Hi3 Hc3]).
  set (c1 := set_readbuf (splice 0 [header_byte h] (readbuf c)) c).
  destruct (wp_run _ _ _ (decodePacket_wp l3 (zlen body) (body ++ rest) c1 e3 ltac:(lia)
    ltac:(by rewrite Hi3, Hi2))) as (v & w & E4 & -> & e4 & -> & Hi4 & Hw4 & Hc4).
  exists e4. split; [done|]. split; [congruence|]. split; [congruence|].
  unfold readPacket. unfold mbind at 1, st_bind at 1. unfold c_get. cbn [fst].
  rewrite (bind_run _ _ _ _ _ (on_env_run _ _ _ _ _ E1)).
  rewrite (bind_run _ _ _ _ _ (on_env_run _ _ _ _ _ E2)). cbv beta iota.
  change (zlen (header_byte h :: nil)) with 1 in *.
  rewrite (bind_run _ _ _ _ _ (in_readbuf_run (mem_put 0 [header_byte h]) c e2 _ _
    (mem_put_run 0 [header_byte h] (readbuf c) ltac:(lia) ltac:(change (zlen [header_byte h]) with 1; lia)))).
  change (negb (1 =? 1)) with false. cbv iota zeta.
  rewrite (bind_run _ _ _ _ _ (on_env_run _ _ _ _ _ E3)).
  fold c1. rewrite (bind_run _ _ _ _ _ E4).
  assert (Hz : zlen (splice 0 [header_byte h] (readbuf c)) = zlen (readbuf c)).
  { apply zlen_splice; [lia|]. change (zlen [header_byte h]) with 1. lia. }
  rewrite (bind_run _ _ _ _ _ (in_readbuf_run _ c1 e4 _ _ (encode_run 1 (zlen body) (readbuf c1)
    ltac:(lia) ltac:(lia) ltac:(simpl readbuf; rewrite Hz; lia)))).
  simpl readbuf. pose proof (splice_app 0 [header_byte h] (rl_bytes (zlen body)) (readbuf c)) as Es.
  change (0 + zlen [header_byte h]) with 1 in Es. rewrite Es by lia. done.
Qed.

Lemma readPacket_receives h body rest timer c e :
  small_header h -> inbox e = packet h body ++ rest -> one_piece body rest -> zlen body < 2 ^ 28 ->
  zlen (packet h body) <= zlen (readbuf c) ->
  exists e', inbox e' = rest /\ wire e' = wire e /\ calls e' = calls e /\
    readPacket timer (c, e) =
      Some (h_type h, (set_readbuf (splice 0 (packet h body) (readbuf c)) c, e')).
Proof.
  intros Hh Hi Hone Hb Hl. rewrite packet_prefix in *. pose proof (zlen_nonneg body).
  pose proof (zlen_nonneg rest). pose proof (zlen_nonneg (prefix_of h body)).
  rewrite zlen_app in Hl.
  destruct (readPacket_prefix h body rest timer c e Hi Hb ltac:(lia)) as (e1 & Hi1 & Hw1 & Hc1 & ->).
  set (c1 := set_readbuf (splice 0 (prefix_of h body) (readbuf c)) c).
  assert (Hz : zlen (readbuf c1) = zlen (readbuf c)) by (apply zlen_splice; lia).
  assert (Hget : forall e2, in_readbuf (E:=E) (mem_get 0)
    (set_readbuf (splice 0 (prefix_of h body ++ body) (readbuf c)) c, e2) =
    Some (header_byte h, (set_readbuf (splice 0 (prefix_of h body ++ body) (readbuf c)) c, e2))).
  { intros e2. rewrite (in_readbuf_run _ _ _ (header_byte h)
      (splice 0 (prefix_of h body ++ body) (readbuf c))); [done|].
    apply (mem_get_at _ _ (rl_bytes (zlen body) ++ body)). apply mem_at_splice; [lia|].
    change (header_byte h :: rl_bytes (zlen body) ++ body) with (prefix_of h body ++ body).
    rewrite zlen_app. lia. }
  unfold readPacket_rest. unfold mbind at 1, st_bind at 1. unfold c_get. cbn [fst].
  destruct (Z.ltb_spec 0 (zlen body)) as [Hpos|Hz0].
  - destruct (wp_run _ _ _ (left_ms_wp timer e1)) as (l2 & e2 & E2 & [Hw2 Hi2 Hc2]).
    assert (Hne : body <> []) by (by intros ->).
    destruct (wp_run _ _ _ (read_whole (ipstack c1) body rest l2 e2 Hne Hone ltac:(by rewrite Hi2)))
      as ([r d] & e3 & E3 & Er & Hi3 & Hw3 & Hc3).
    injection Er as -> ->.
    exists e3. split; [done|]. split; [congruence|]. split; [congruence|].
    rewrite bind_assoc. rewrite (bind_run _ _ _ _ _ (on_env_run _ _ _ _ _ E2)).
    rewrite bind_assoc. rewrite (bind_run _ _ _ _ _ (on_env_run _ _ _ _ _ E3)). cbv beta iota.
    rewrite bind_assoc. rewrite (bind_run _ _ _ _ _ (in_readbuf_run _ c1 e3 _ _
      (mem_put_run (zlen (prefix_of h body)) body (readbuf c1) ltac:(lia) ltac:(rewrite Hz; lia)))).
    rewrite Z.eqb_refl. unfold mbind at 1, st_bind at 1, mret, st_ret. cbn [negb].
    unfold c1. simpl readbuf.
    pose proof (splice_app 0 (prefix_of h body) body (readbuf c)) as Es.
    rewrite Z.add_0_l in Es. rewrite Es by lia.
    change (set_readbuf ?x (set_readbuf ?y c)) with (set_readbuf x c).
    rewrite (bind_run _ _ _ _ _ (Hget e3)). by rewrite header_of_byte.
  - assert (body = []) as -> by (destruct body; [done|rewrite zlen_cons in Hz0;
      pose proof (zlen_nonneg body); lia]).
    rewrite !app_nil_r in *. exists e1. repeat (split; [done|]).
    unfold mbind at 1, st_bind at 1, mret, st_ret. cbv beta iota. unfold c1.
    rewrite (bind_run _ _ _ _ _ (Hget e1)). by rewrite header_of_byte.
Qed.

(** When recv() gives less of the body than it was asked for, the packet is lost: the
    result is READ_ERROR, and the rest of the body is taken for the next packet. *)
Lemma readPacket_short h body rest timer c e :
  inbox e = packet h body ++ rest -> body <> [] -> zlen body < 2 ^ 28 ->
  zlen (packet h body) <= zlen (readbuf c) ->
  (forall s e', inbox e' = body ++ rest -> wp (env_recv s (zlen body)) (fun r _ => r.1 < zlen body) e') ->
  exists k b e', readPacket timer (c, e) = Some (READ_ERROR, (set_readbuf b c, e')) /\
    1 <= k < zlen body /\ inbox e' = drop (Z.to_nat k) body ++ rest /\ wire e' = wire e /\ calls e' = calls e.
Proof.
  intros Hi Hne Hb Hl Hshort. rewrite packet_prefix in *. rewrite zlen_app in Hl. pose proof (zlen_nonneg rest).
  pose proof (zlen_nonneg (prefix_of h body)). pose proof (zlen_nonneg body).
  destruct (readPacket_prefix h body rest timer c e Hi Hb ltac:(lia)) as (e1 & Hi1 & Hw1 & Hc1 & ->).
  set (c1 := set_readbuf (splice 0 (prefix_of h body) (readbuf c)) c).
  assert (Hz : zlen (readbuf c1) = zlen (readbuf c)) by (apply zlen_splice; lia).
  assert (Hpos : 0 < zlen body).
  { destruct body as [|b body]; [done|]. rewrite zlen_cons. pose proof (zlen_nonneg body). lia. }
  unfold readPacket_rest. unfold mbind at 1, st_bind at 1. unfold c_get. cbn [fst].
  rewrite (proj2 (Z.ltb_lt 0 (zlen body))) by done.
  destruct (wp_run _ _ _ (left_ms_wp timer e1)) as (l2 & e2 & E2 & [Hw2 Hi2 Hc2]).
  destruct (wp_run _ _ _ (read_wp (ipstack c1) (zlen body) l2 e2 Hpos
    ltac:(rewrite Hi2, Hi1; by destruct body))) as (r & e3 & E3 & s & e2' & k & [Hw2' Hi2' Hc2'] & Er & Hk & Hkl & -> & Hi3 & Hw3 & Hc3).
  assert (Hks : k < zlen body).
  { pose proof (Hshort s e2' ltac:(congruence)) as Hwp. unfold wp in Hwp. by rewrite Er in Hwp. }
  rewrite Hi2, Hi1 in Hi3, E3. rewrite drop_app_le in Hi3 by (unfold zlen in *; lia).
  rewrite take_app_le in E3 by (unfold zlen in *; lia).
  rewrite bind_assoc, (bind_run _ _ _ _ _ (on_env_run _ _ _ _ _ E2)).
  rewrite bind_assoc, (bind_run _ _ _ _ _ (on_env_run _ _ _ _ _ E3)). cbv beta iota.
  assert (Hzt : zlen (take (Z.to_nat k) body) = k) by (apply zlen_take; lia).
  rewrite bind_assoc, (bind_run _ _ _ _ _ (in_readbuf_run _ c1 e3 _ _
    (mem_put_run (zlen (prefix_of h body)) (take (Z.to_nat k) body) (readbuf c1) ltac:(lia) ltac:(rewrite Hz; lia)))).
  rewrite (proj2 (Z.eqb_neq k (zlen body))) by lia.
  exists k. do 2 eexists. split; [reflexivity|]. split_and!; try done; try lia; congruence.
Qed.

(** A packet that does not fit writes past the end of [readbuf]. *)
Lemma readPacket_overflows h body rest timer c e :
  inbox e = packet h body ++ rest -> one_piece body rest -> zlen body < 2 ^ 28 ->
  zlen (prefix_of h body) <= zlen (readbuf c) < zlen (packet h body) ->
  readPacket timer (c, e) = None.
Proof.
  intros Hi Hone Hb Hl. rewrite packet_prefix in *. rewrite zlen_app in Hl. pose proof (zlen_nonneg rest).
  pose proof (zlen_nonneg (prefix_of h body)).
  destruct (readPacket_prefix h body rest timer c e Hi Hb ltac:(lia)) as (e1 & Hi1 & Hw1 & Hc1 & ->).
  set (c1 := set_readbuf (splice 0 (prefix_of h body) (readbuf c)) c).
  assert (Hz : zlen (readbuf c1) = zlen (readbuf c)) by (apply zlen_splice; lia).
  unfold readPacket_rest. unfold mbind at 1, st_bind at 1. unfold c_get. cbn [fst].
  destruct (Z.ltb_spec 0 (zlen body)) as [Hpos|]; [|lia].
  destruct (wp_run _ _ _ (left_ms_wp timer e1)) as (l2 & e2 & E2 & [Hw2 Hi2 Hc2]).
  assert (Hne : body <> []) by (by intros ->).
  destruct (wp_run _ _ _ (read_whole (ipstack c1) body rest l2 e2 Hne Hone ltac:(by rewrite Hi2)))
    as ([r d] & e3 & E3 & Er & _).
  injection Er as -> ->.
  rewrite bind_assoc, (bind_run _ _ _ _ _ (on_env_run _ _ _ _ _ E2)).
  rewrite bind_assoc, (bind_run _ _ _ _ _ (on_env_run _ _ _ _ _ E3)). cbv beta iota.
  rewrite bind_assoc. unfold mbind, st_bind, in_readbuf, mem_put. cbn [fst].
  by rewrite (proj2 (Z.leb_le 0 (zlen (prefix_of h body)))), (proj2 (Z.leb_gt _ _)) by lia.
Qed.

(** ** Delivering *)

Definition handler_matches (topicName : MQTTString) (h : MessageHandler) : bool :=
  match topicFilter h with
  | Some f => MQTTPacket_equals topicName f || isTopicMatched f topicName
  | None => false
  end.

(** The handlers that a message is for, the default one when there is none. *)
Definition receivers (c : MQTTClient) (topicName : MQTTString) : list nat :=
  let fs := omap fp (filter (fun h => handler_matches topicName h = true) (messageHandlers c)) in
  match fs, defaultMessageHandler c with
  | [], Some f => [f]
  | _, _ => fs
  end.

Lemma deliver_loop_wp hs t msg rc c e :
  wp (deliver_loop hs t msg rc) (fun rc' w => exists e', w = (c, e') /\ wire e' = wire e /\
    inbox e' = inbox e /\
    let fs := omap fp (filter (fun h => handler_matches t h = true) hs) in
    calls e' = calls e ++ map (fun f => (f, NewMessageData t msg)) fs /\
    rc' = (if fs is [] then rc else SUCCESS)) (c, e).
Proof.
  revert rc e. induction hs as [|h hs IH]; intros rc e; cbn [deliver_loop].
  { wp_steps. exists e. by rewrite app_nil_r. }
  fold (handler_matches t h). rewrite filter_cons.
  destruct (handler_matches t h); [rewrite decide_True by done|rewrite decide_False by done].
  - wp_steps. cbn [omap list_omap]. destruct (fp h) as [f|].
    + wp_steps. apply wp_on_env. eapply wp_mono; [apply law_call|]. intros _ e1 (Hc & Hw & Hi).
      wp_steps. eapply wp_mono; [apply IH|]. intros rc' w (e' & -> & Hw' & Hi' & Hc' & Hrc).
      exists e'. split; [done|]. split; [congruence|]. split; [congruence|]. split.
      * by rewrite Hc', Hc, <- app_assoc.
      * rewrite Hrc. by destruct (omap fp _).
    + wp_steps. eapply wp_mono; [apply IH|]. intros rc' w H. exact H.
  - wp_steps. apply IH.
Qed.

Lemma deliverMessage_wp t msg c e :
  wp (deliverMessage t msg) (fun rc w => exists e', w = (c, e') /\ wire e' = wire e /\
    inbox e' = inbox e /\
    calls e' = calls e ++ map (fun f => (f, NewMessageData t msg)) (receivers c t) /\
    rc = (if receivers c t is [] then FAILURE else SUCCESS)) (c, e).
Proof.
  unfold deliverMessage, receivers. wp_steps. apply wp_c_get. wp_steps.
  eapply wp_mono; [apply (deliver_loop_wp (messageHandlers c) t msg FAILURE c e)|].
  intros rc w (e' & -> & Hw & Hi & Hc & ->).
  destruct (omap fp _) as [|f fs]; (destruct (defaultMessageHandler c) as [d|]; cbn [app map] in *);
    try (wp_steps; exists e'; by rewrite Hc).
  change (FAILURE =? FAILURE) with true. cbv iota.
  wp_steps. apply wp_on_env. eapply wp_mono; [apply law_call|]. intros _ e1 (Hc1 & Hw1 & Hi1).
  wp_steps. exists e1. rewrite Hc1, Hc, Hw1, Hi1, app_nil_r. done.
Qed.
End net.
