(* ===== verification/MqttTopic.v ===== *)
(** * Topic filters, level by level

    The reference definition of topic matching on lists of levels, and the
    proof that the character loop of [isTopicMatched] computes it. *)

From S2P Require Import Prelude MqttPacket MqttClient.

Local Open Scope Z_scope.

Definition SEP : Z := 47.
Definition PLUS : Z := 43.
Definition HASH : Z := 35.

(** Levels joined by '/'. *)
Fixpoint join (levels : list mem) : mem :=
  match levels with
  | [] => []
  | [l] => l
  | l :: levels => l ++ SEP :: join levels
  end.

(** A filter: literal levels, '+', and '#' as the last level only. *)
Definition literal (l : mem) : Prop := Forall (fun c => c <> 0 /\ c <> SEP /\ c <> PLUS /\ c <> HASH) l.
Fixpoint filter_ok (f : list mem) : Prop :=
  match f with
  | [] => True
  | l :: f => (literal l \/ l = [PLUS] \/ (l = [HASH] /\ f = [])) /\ filter_ok f
  end.
Definition name_ok (n : list mem) : Prop := Forall (Forall (fun c => c <> SEP)) n.

(** The wildcards match levels that are not empty. *)
Fixpoint levels_match (f n : list mem) : bool :=
  match f, n with
  | [], [] => true
  | fl :: f, nl :: n =>
      let nonempty := match nl with [] => false | _ => true end in
      if decide (fl = [HASH]) then nonempty
      else if decide (fl = [PLUS]) then nonempty && levels_match f n
      else bool_decide (fl = nl) && levels_match f n
  | _, _ => false
  end.

(** What follows a level in a joined string. *)
Definition after (levels : list mem) : mem :=
  match levels with [] => [] | _ => SEP :: join levels end.

Lemma join_cons l levels : join (l :: levels) = l ++ after levels.
Proof. destruct levels; simpl; [by rewrite app_nil_r|done]. Qed.

Lemma after_sep levels : match after levels with [] => True | c :: _ => c = SEP end.
Proof. by destruct levels. Qed.

Notation loop := isTopicMatched_loop.

Section level.
Context (fr nr : mem).
Context (Hfr : match fr with [] => True | c :: _ => c = SEP end).
Context (Hnr : match nr with [] => True | c :: _ => c = SEP end).

(** One character against another one. *)
Lemma loop_char f n fs ns :
  f <> 0 -> f <> PLUS -> f <> HASH ->
  loop (f :: fs) (n :: ns) = if n =? f then loop fs ns else false.
Proof.
  unfold PLUS, HASH. intros H0 Hp Hh. cbn [isTopicMatched_loop tail].
  destruct (Z.eqb_spec f 0); [done|]. destruct (Z.eqb_spec f 43); [done|].
  destruct (Z.eqb_spec f 35); [done|].
  destruct (Z.eqb_spec f n), (Z.eqb_spec n f), (Z.eqb_spec n 47), (Z.eqb_spec f 47);
    try congruence; try lia; done.
Qed.

Lemma loop_end f fs : f <> 0 -> loop (f :: fs) [] = false.
Proof. intros H. simpl. by apply Z.eqb_neq. Qed.

Lemma loop_literal l n :
  literal l -> Forall (fun c => c <> SEP) n ->
  loop (l ++ fr) (n ++ nr) = if decide (l = n) then loop fr nr else false.
Proof.
  intros Hl. revert n. induction Hl as [|f l (H0 & Hs & Hp & Hh) Hl IH]; intros n Hn.
  - destruct Hn as [|c n Hc Hn]; [done|]. rewrite decide_False by done. cbn [app].
    destruct fr as [|s fs]; [done|]. subst s. rewrite loop_char by done.
    by rewrite (proj2 (Z.eqb_neq c SEP)).
  - destruct Hn as [|c n Hc Hn]; cbn [app].
    + rewrite decide_False by done. destruct nr as [|s ns]; [by apply loop_end|]. subst s.
      rewrite loop_char by done. by rewrite (proj2 (Z.eqb_neq SEP f)) by done.
    + rewrite loop_char by done. rewrite IH by done.
      destruct (Z.eqb_spec c f) as [->|Hne].
      * destruct (decide (l = n)) as [->|]; [by rewrite decide_True|].
        rewrite decide_False by congruence. done.
      * rewrite decide_False by congruence. done.
Qed.

Lemma skip_level_tail c n : Forall (fun c => c <> SEP) n -> tail (skip_level (c :: n ++ nr)) = nr.
Proof.
  intros Hn. revert c. induction Hn as [|d n Hd Hn IH]; intros c; cbn [app].
  - destruct nr as [|s ns]; [done|]. subst s. done.
  - cbn [skip_level]. rewrite (proj2 (Z.eqb_neq d 47)) by done. apply IH.
Qed.

Lemma loop_plus n :
  Forall (fun c => c <> SEP) n ->
  loop (PLUS :: fr) (n ++ nr) = match n with [] => false | _ => loop fr nr end.
Proof.
  intros [|c n' Hc Hn].
  - destruct nr as [|s ns]; [done|]. subst s. done.
  - cbn [app isTopicMatched_loop]. change (PLUS =? 0) with false. change (PLUS =? 43) with true.
    rewrite (proj2 (Z.eqb_neq c 47)) by done. cbn [orb andb negb].
    by rewrite skip_level_tail.
Qed.

Lemma loop_hash n :
  Forall (fun c => c <> SEP) n ->
  loop [HASH] (n ++ nr) = match n with [] => false | _ => true end.
Proof.
  intros [|c n' Hc Hn].
  - destruct nr as [|s ns]; [done|]. subst s. done.
  - cbn [app isTopicMatched_loop]. change (HASH =? 0) with false.
    change (HASH =? 43) with false. change (HASH =? 35) with true.
    rewrite (proj2 (Z.eqb_neq c 47)) by done. cbn [orb andb negb].
    assert (E : tail (drop (length (c :: n' ++ nr) - 1) (c :: n' ++ nr)) = []).
    { destruct (drop (length (c :: n' ++ nr) - 1) (c :: n' ++ nr)) as [|x l] eqn:Ed; [done|].
      apply (f_equal length) in Ed. rewrite length_drop in Ed. simpl in Ed.
      destruct l; [done|simpl in Ed; lia]. }
    by rewrite E.
Qed.
End level.

Lemma loop_join f : forall n, filter_ok f -> name_ok n -> f <> [] -> n <> [] ->
  loop (join f) (join n) = levels_match f n.
Proof.
  assert (Hrec : forall f n, filter_ok f -> name_ok n ->
    loop (after f) (after n) = levels_match f n).
  { clear f. intros f. induction f as [|fl f IH]; intros n Hf Hn.
    { by destruct n. }
    destruct n as [|nl n]; [by destruct f|].
    destruct Hf as [Hl Hf]. apply Forall_cons in Hn as [Hnl Hn].
    unfold after at 1 2. rewrite !join_cons, loop_char by done. rewrite Z.eqb_refl.
    pose proof (after_sep f) as Af. pose proof (after_sep n) as An.
    cbn [levels_match]. destruct Hl as [Hl|[->|[-> ->]]].
    - assert (Hnh : fl <> [HASH] /\ fl <> [PLUS]).
      { split; intros ->; apply Forall_inv in Hl; unfold SEP, PLUS, HASH in *; lia. }
      rewrite !decide_False by tauto. rewrite (loop_literal _ _ Af An) by done.
      rewrite IH by done. destruct (decide (fl = nl)); [by rewrite bool_decide_true|].
      by rewrite bool_decide_false.
    - rewrite decide_False, decide_True by done. cbn [app]. rewrite (loop_plus _ _ An) by done.
      rewrite IH by done. by destruct nl.
    - rewrite decide_True by done. simpl after. rewrite app_nil_r. by apply loop_hash. }
  destruct f as [|fl f]; [done|]. intros n Hf Hn _ Hne. destruct n as [|nl n]; [done|].
  rewrite <- Hrec by done. unfold after. rewrite loop_char by done. by rewrite Z.eqb_refl.
Qed.
