(* ===== verification/MqttContract.v ===== *)
(** * The contract of the MQTT client

    The keep-alive machine, one cycle on a received PUBLISH, the acknowledgements
    it sends, what MQTTUnsubscribe leaves alone, and the packet identifiers. *)

From S2P Require Import Prelude MqttPacket MqttWire MqttSerial MqttFormat MqttClient MqttNet MqttTopic.

Local Open Scope Z_scope.

(** ** keepalive *)

(** The detection of a dead peer, as a machine on [ping_outstanding] and
    [fail_count]: one step per call, with whether the ping timer expired. *)
Definition ka_step (timer_expired : bool) (s : Z * Z) : Z * (Z * Z) :=
  if negb timer_expired then (SUCCESS, s)
  else if c_true s.1 then
    (if MAX_FAIL_ALLOWED <=? s.2 + 1 then DISCONNECTED else SUCCESS, (s.1, s.2 + 1))
  else (SUCCESS, (1, s.2)).

Definition ka_state (c : MQTTClient) : Z * Z := (ping_outstanding c, fail_count c).

(** PINGREQ and a zero remaining length. *)
Definition pingreq_packet : mem := packet (Header PINGREQ 0 0 0) [].

Lemma serialize_zero_run buflen packettype (m : mem) :
  2 <= buflen <= zlen m ->
  MQTTSerialize_zero buflen packettype m =
    Some (2, splice 0 (packet (Header packettype 0 0 0) []) m).
Proof.
  intros Hm. pose proof (frame_run (Header packettype 0 0 0) 0 (fun p => mret p) [] emits_ret
    eq_refl ltac:(lia) buflen m ltac:(lia)) as E.
  change (MQTTPacket_len 0) with 2 in E. unfold MQTTSerialize_zero.
  destruct (Z.ltb_spec buflen 2); [lia|]. exact E.
Qed.

Lemma take_splice_0 bs (m : mem) n : n = zlen bs -> zlen bs <= zlen m ->
  take (Z.to_nat n) (splice 0 bs m) = bs.
Proof. intros ->. rewrite <- (drop_0 (splice 0 bs m)). by apply (splice_at 0). Qed.

Lemma take_take_splice bs (m : mem) k : k <= zlen bs -> zlen bs <= zlen m ->
  take (Z.to_nat k) (splice 0 bs m) = take (Z.to_nat k) bs.
Proof.
  intros Hk Hm. rewrite <- (take_splice_0 bs m (zlen bs)) at 2 by done.
  rewrite take_take, Nat.min_l by lia. done.
Qed.

Section keepalive.
Context {E : Type} `{!Env E} `{!EnvLaws E}.

(** [n] bytes of [bs] were sent. *)
Definition sent_some (e e' : E) (bs : mem) : Prop :=
  exists k, 0 <= k <= zlen bs /\ wire e' = wire e ++ take (Z.to_nat k) bs.

Lemma send_frame_wp fuel timer c e p :
  zlen p <= zlen (buf c) -> Z.of_nat fuel > zlen p ->
  wp (sendPacket fuel (zlen p) timer) (fun rc w => inbox w.2 = inbox e /\ calls w.2 = calls e /\
    ((rc = SUCCESS /\ wire w.2 = wire e ++ p /\ exists t, w.1 = set_ping_timer t (set_buf (splice 0 p (buf c)) c)) \/
     (rc = FAILURE /\ w.1 = set_buf (splice 0 p (buf c)) c /\
      exists k, 0 <= k < zlen p /\ wire w.2 = wire e ++ take (Z.to_nat k) p)))
    (set_buf (splice 0 p (buf c)) c, e).
Proof.
  intros Hp Hf. pose proof (zlen_nonneg p).
  assert (Hz : zlen (splice 0 p (buf c)) = zlen (buf c)) by (apply zlen_splice; lia).
  eapply wp_mono; [apply sendPacket_wp; simpl; lia|].
  intros rc w (Hi & Hc & H'). split; [done|]. split; [done|]. simpl buf in H'.
  destruct H' as [(-> & Hw & Ht)|(-> & Hw & k & Hk & Hs)].
  - left. rewrite take_splice_0 in Hw by (done || lia). done.
  - right. split; [done|]. split; [done|]. exists k.
    rewrite take_take_splice in Hs by lia. done.
Qed.

Lemma keepalive_wp fuel b e1 c e :
  keepAlive c <> 0 -> expired (ping_timer c) e = Some (b, e1) ->
  2 <= buf_size c <= zlen (buf c) -> (2 < fuel)%nat ->
  wp (keepalive fuel) (fun rc w =>
    (rc, ka_state w.1) = ka_step b (ka_state c) /\
    inbox w.2 = inbox e /\ calls w.2 = calls e /\ isconnected w.1 = isconnected c /\
    (if b && negb (c_true (ping_outstanding c)) then sent_some e w.2 pingreq_packet
     else wire w.2 = wire e)) (c, e).
Proof.
  intros Hk Hex Hb Hf. destruct (wp_run _ _ _ (expired_wp (ping_timer c) e)) as (b' & e' & Ex & Hs).
  rewrite Hex in Ex. injection Ex as <- <-. destruct Hs as [Hw1 Hi1 Hc1].
  unfold keepalive. wp_steps. apply wp_c_get. rewrite (proj2 (Z.eqb_neq _ _)) by done.
  wp_steps. apply wp_on_env. eapply wp_of_run; [exact Hex|].
  destruct b; simpl negb; cbv iota; [|wp_steps; repeat split; done].
  unfold ka_step, ka_state. cbn [negb fst snd andb]. wp_steps.
  destruct (c_true (ping_outstanding c)) eqn:Eo; cbn [negb].
  - wp_steps. apply wp_c_mod. wp_steps.
    destruct (Z.leb_spec MAX_FAIL_ALLOWED (fail_count c + 1)); wp_steps.
    + repeat split; done.
    + eapply wp_mono; [apply rearm_ping_wp|]. intros _ w (t & e2 & -> & [Hw2 Hi2 Hc2]). wp_steps.
      simpl. repeat split; congruence.
  - wp_steps. apply wp_on_env. eapply wp_mono; [apply countdown_ms_wp|].
    intros t e2 [Hw2 Hi2 Hc2]. wp_steps. apply wp_c_mod. wp_steps. apply wp_in_buf.
    eapply wp_of_run; [apply serialize_zero_run; simpl; lia|]. fold pingreq_packet.
    simpl. wp_steps.
    change (set_buf ?x (set_ping 1 (fail_count c) c)) with (set_ping 1 (fail_count c) (set_buf x c)).
    eapply wp_mono.
    { apply (send_frame_wp fuel t (set_ping 1 (fail_count c) c) e2 pingreq_packet); try done;
        change (zlen pingreq_packet) with 2; simpl; lia. }
    intros rc [c' e3] (Hi3 & Hc3 & H). simpl in Hi3, Hc3, H. wp_steps.
    eapply wp_mono; [apply rearm_ping_wp|]. intros _ w (t2 & e4 & -> & [Hw4 Hi4 Hc4]). wp_steps.
    simpl. split; [|split; [congruence|split; [congruence|split]]].
    + by destruct H as [(_ & _ & ? & ->)|(_ & -> & _)].
    + by destruct H as [(_ & _ & ? & ->)|(_ & -> & _)].
    + destruct H as [(_ & Hw & _)|(_ & _ & k & Hk' & Hw)].
      * exists 2. split; [done|]. rewrite Hw4, Hw, Hw2, Hw1. done.
      * exists k. split; [lia|]. rewrite Hw4, Hw, Hw2, Hw1. done.
Qed.

Lemma keepalive_any fuel c e :
  2 <= buf_size c <= zlen (buf c) -> (2 < fuel)%nat ->
  wp (keepalive fuel) (fun rc w => (rc = SUCCESS \/ rc = DISCONNECTED) /\
    inbox w.2 = inbox e /\ calls w.2 = calls e /\ sent_some e w.2 pingreq_packet) (c, e).
Proof.
  intros Hb Hf. destruct (Z.eq_dec (keepAlive c) 0) as [Hk|Hk].
  - unfold keepalive. wp_steps. apply wp_c_get. rewrite Hk. change (0 =? 0) with true. cbv iota.
    wp_steps. split; [by left|]. repeat split. exists 0. split; [done|]. by rewrite app_nil_r.
  - destruct (wp_run _ _ _ (expired_wp (ping_timer c) e)) as (b & e1 & Ex & _).
    eapply wp_mono; [by apply (keepalive_wp fuel b e1)|].
    intros rc w (Hs & Hi & Hc & _ & Hw). split; [|split; [done|split; [done|]]].
    + unfold ka_step in Hs. destruct (negb b); [|destruct (c_true _)];
        simplify_eq; [by left| |by left]. destruct (_ <=? _); simplify_eq; [by right|by left].
    + destruct (b && _); [done|]. exists 0. split; [done|]. by rewrite app_nil_r.
Qed.
End keepalive.

(** ** Acknowledging *)

(** The answer to a PUBLISH of the given quality of service. *)
Definition ack_of (qos packetid : Z) : mem :=
  if qos =? QOS1 then ack_packet PUBACK 0 packetid
  else if qos =? QOS2 then ack_packet PUBREC 0 packetid else [].

Section cycle.
Context {E : Type} `{!Env E} `{!EnvLaws E}.

(** What a handler gets is the topic and the payload of the packet. *)
Definition delivered (c : MQTTClient) (e e' : E) (dup qos retained id : Z) (topic payload : mem) : Prop :=
  exists td pl, take (length topic) td = topic /\ take (length payload) pl = payload /\
    let t := MString None (zlen topic) (Some td) in
    let msg := Message qos retained dup (if 0 <? qos then id else 0) (Some pl) (zlen payload) in
    calls e' = calls e ++ map (fun f => (f, NewMessageData t msg)) (receivers c t).

Lemma serialize_ack_fits buflen ty id (m : mem) :
  4 <= buflen <= zlen m ->
  MQTTSerialize_ack buflen ty 0 id m = Some (4, splice 0 (ack_packet ty 0 id) m).
Proof.
  intros H. rewrite serialize_ack_run by lia. by rewrite (proj2 (Z.ltb_ge buflen 4)) by lia.
Qed.

(** The post-condition of answering with the packet [a]. *)
Definition answered (c : MQTTClient) (e : E) (a : mem) (r : bool * Z) (w : cstate (E:=E)) : Prop :=
  inbox w.2 = inbox e /\ calls w.2 = calls e /\
  buf_size w.1 = buf_size c /\ zlen (buf w.1) = zlen (buf c) /\
  ((r = (false, SUCCESS) /\ wire w.2 = wire e ++ a) \/
   (r = (true, FAILURE) /\ exists k, 0 <= k < zlen a /\ wire w.2 = wire e ++ take (Z.to_nat k) a)).

Lemma send_ack_wp fuel timer c e ty id :
  4 <= buf_size c <= zlen (buf c) -> (4 < fuel)%nat ->
  wp (len ← in_buf (MQTTSerialize_ack (buf_size c) ty 0 id);
      rc ← (if len <=? 0 then mret FAILURE else sendPacket fuel len timer);
      mret (rc =? FAILURE, rc)) (answered c e (ack_packet ty 0 id)) (c, e).
Proof.
  intros Hb Hf. wp_steps. apply wp_in_buf.
  eapply wp_of_run; [apply serialize_ack_fits; lia|]. cbv beta.
  change (4 <=? 0) with false. cbv iota. wp_steps.
  change 4 with (zlen (ack_packet ty 0 id)) at 1.
  assert (Hl : zlen (ack_packet ty 0 id) = 4) by done.
  assert (Hz : zlen (splice 0 (ack_packet ty 0 id) (buf c)) = zlen (buf c)) by (apply zlen_splice; lia).
  eapply wp_mono; [apply send_frame_wp; lia|].
  intros rc [c' e'] (Hi & Hc & H). wp_steps. simpl in *. unfold answered.
  destruct H as [(-> & Hw & t & ->)|(-> & -> & k & Hk & Hw)]; simpl.
  - repeat (split; [done|]). left. done.
  - repeat (split; [done|]). right. split; [done|]. by exists k.
Qed.

Lemma ack_wp fuel timer c e qos id :
  0 <= qos <= 2 -> 4 <= buf_size c <= zlen (buf c) -> (4 < fuel)%nat ->
  wp (if negb (qos =? QOS0) then
        len ← (if qos =? QOS1 then in_buf (MQTTSerialize_ack (buf_size c) PUBACK 0 id)
               else if qos =? QOS2 then in_buf (MQTTSerialize_ack (buf_size c) PUBREC 0 id)
               else mret 0);
        rc ← (if len <=? 0 then mret FAILURE else sendPacket fuel len timer);
        mret (rc =? FAILURE, rc)
      else mret (false, SUCCESS)) (answered c e (ack_of qos id)) (c, e).
Proof.
  intros Hq Hb Hf. assert (qos = 0 \/ qos = 1 \/ qos = 2) as [->|[->| ->]] by lia.
  - simpl. wp_steps. unfold answered. simpl. repeat (split; [done|]). left. by rewrite app_nil_r.
  - exact (send_ack_wp fuel timer c e PUBACK id Hb Hf).
  - exact (send_ack_wp fuel timer c e PUBREC id Hb Hf).
Qed.

Lemma receivers_readbuf c m t : receivers (set_readbuf m c) t = receivers c t.
Proof. done. Qed.

Lemma cycle_publish_wp fuel timer c e dup qos retained id topic payload :
  0 <= dup < 2 -> 0 <= qos <= 2 -> 0 <= retained < 2 -> 0 <= id < 65536 -> zlen topic < 65536 ->
  zlen (publish_body qos id topic payload) < 2 ^ 28 ->
  mem_at 0 (packet (Header PUBLISH dup qos retained) (publish_body qos id topic payload)) (readbuf c) ->
  4 <= buf_size c <= zlen (buf c) -> (4 < fuel)%nat ->
  wp (cycle_publish fuel timer) (fun r w => exists e1, delivered c e e1 dup qos retained id topic payload /\
    wire e1 = wire e /\ inbox e1 = inbox e /\ answered c e1 (ack_of qos id) r w) (c, e).
Proof.
  intros Hd Hq Hr Hid Ht Hl Hm Hb Hf.
  destruct (deserialize_publish_run dup qos retained id topic payload
    (PublishOut 0 0 0 0 MQTTString_initializer 0 0) (readbuf c) Hd ltac:(lia) Hr Hid Ht Hl Hm)
    as (td & p & Etd & Hltd & Hp & Erun).
  unfold cycle_publish. wp_steps. apply wp_in_readbuf. eapply wp_of_run; [exact Erun|].
  cbv beta iota. change (negb (1 =? 1)) with false. cbv iota. wp_steps. apply wp_c_get.
  cbn [pb_qos pb_retained pb_dup pb_packetid pb_payload pb_payloadlen pb_topicName].
  replace (set_readbuf (readbuf c) c) with c by (by destruct c).
  wp_steps. eapply wp_mono; [apply deliverMessage_wp|].
  intros _ w (e1 & -> & Hw1 & Hi1 & Hc1 & _). cbn [msg_qos msg_id].
  eapply wp_mono.
  { apply (ack_wp fuel timer c e1 qos (if 0 <? qos then id else 0)); lia. }
  intros r w Ha. exists e1. split.
  - exists td, (drop (Z.to_nat p) (readbuf c)). split; [done|]. split; [by apply mem_at_drop|]. exact Hc1.
  - split; [done|]. split; [done|]. unfold ack_of in Ha |- *.
    destruct (Z.eqb_spec qos QOS1) as [->|]; [exact Ha|].
    by destruct (Z.eqb_spec qos QOS2) as [->|].
Qed.

Lemma cycle_publish_packet fuel timer c e dup qos retained id topic payload rest :
  0 <= dup < 2 -> 0 <= qos <= 2 -> 0 <= retained < 2 -> 0 <= id < 65536 -> zlen topic < 65536 ->
  let p := packet (Header PUBLISH dup qos retained) (publish_body qos id topic payload) in
  zlen (publish_body qos id topic payload) < 2 ^ 28 -> inbox e = p ++ rest ->
  one_piece (publish_body qos id topic payload) rest ->
  zlen p <= zlen (readbuf c) -> 4 <= buf_size c <= zlen (buf c) -> (4 < fuel)%nat ->
  wp (cycle fuel timer) (fun rc w =>
    delivered c e w.2 dup qos retained id topic payload /\ inbox w.2 = rest /\
    (((rc = PUBLISH \/ rc = DISCONNECTED) /\ exists e1,
        wire e1 = wire e ++ ack_of qos id /\ sent_some e1 w.2 pingreq_packet) \/
     (rc = FAILURE /\ exists k, 0 <= k < zlen (ack_of qos id) /\
        wire w.2 = wire e ++ take (Z.to_nat k) (ack_of qos id)))) (c, e).
Proof.
  intros Hd Hq Hr Hid Ht p Hl Hi Hone Hp Hb Hf.
  destruct (readPacket_receives (Header PUBLISH dup qos retained)
    (publish_body qos id topic payload) rest timer c e) as (e1 & Hi1 & Hw1 & Hc1 & Er);
    [unfold small_header, PUBLISH; simpl; lia|done..|].
  unfold cycle. wp_steps. eapply wp_of_run; [exact Er|]. cbn [h_type].
  set (c1 := set_readbuf _ c). wp_steps.
  eapply wp_mono.
  { apply (cycle_publish_wp fuel timer c1 e1 dup qos retained id topic payload); try done.
    apply mem_at_splice; [lia|]. fold p. lia. }
  intros r [c2 e2] (e1' & (td & pl & Etd & Epl & Hdel) & Hw2 & Hi2 & Hi3 & Hc3 & Hbs & Hbl & Ha).
  simpl in Hi3, Hc3, Hbs, Hbl, Ha.
  assert (Hdel' : forall e3, calls e3 = calls e2 -> delivered c e e3 dup qos retained id topic payload).
  { intros e3 E3. exists td, pl. split; [done|]. split; [done|]. cbv zeta in Hdel |- *.
    by rewrite E3, Hc3, Hdel, Hc1. }
  destruct Ha as [[-> Hw3]|[-> (k & Hk & Hw3)]]; cbv iota; wp_steps.
  - apply wp_c_get. destruct (c_true (isconnected c2)).
    + eapply wp_mono; [apply keepalive_any; lia|]. intros rc w (Hrc & Hi4 & Hc4 & Hp4). wp_steps.
      split; [by apply Hdel'|]. split; [congruence|]. left. split; [|exists e2; split; [congruence|done]].
      destruct Hrc as [->| ->]; [by left|by right].
    + wp_steps. split; [by apply Hdel'|]. split; [simpl; congruence|]. left. split; [by left|].
      exists e2. split; [congruence|]. exists 0. split; [done|]. by rewrite app_nil_r.
  - split; [by apply Hdel'|]. split; [simpl; congruence|]. right. split; [done|].
    exists k. split; [done|]. simpl. congruence.
Qed.

Lemma cycle_short_packet fuel timer c e h body rest :
  inbox e = packet h body ++ rest -> body <> [] -> zlen body < 2 ^ 28 ->
  zlen (packet h body) <= zlen (readbuf c) ->
  (forall s e', inbox e' = body ++ rest -> wp (env_recv s (zlen body)) (fun r _ => r.1 < zlen body) e') ->
  wp (cycle fuel timer) (fun rc w => rc = DISCONNECTED /\ isconnected w.1 = 0 /\
    wire w.2 = wire e /\ calls w.2 = calls e /\
    exists k, 1 <= k < zlen body /\ inbox w.2 = drop (Z.to_nat k) body ++ rest) (c, e).
Proof.
  intros Hi Hne Hb Hl Hs. destruct (readPacket_short h body rest timer c e Hi Hne Hb Hl Hs)
    as (k & b & e1 & Er & Hk & Hi1 & Hw1 & Hc1).
  unfold cycle. wp_steps. eapply wp_of_run; [exact Er|]. wp_steps. unfold cycle_switch. cbn [Z.eqb READ_ERROR].
  wp_steps. repeat (apply wp_c_mod || apply wp_c_get || wp_steps). simpl. wp_steps.
  split_and!; try done. by exists k.
Qed.
End cycle.

(** ** The handler table

    [keeps f]: whatever the network does, [f] leaves the table of the message
    handlers as it is. *)
Section handlers.
Context {E : Type} `{!Env E}.

Definition keeps {A} (f : ST (cstate (E:=E)) A) : Prop :=
  forall w x w', f w = Some (x, w') -> messageHandlers w'.1 = messageHandlers w.1.

Lemma keeps_ret {A} (x : A) : keeps (mret x).
Proof. intros w y w' [= _ <-]. done. Qed.
Lemma keeps_fuel {A} : keeps (out_of_fuel (A:=A)).
Proof. done. Qed.
Lemma keeps_opt {A} (o : option A) : keeps (st_opt o).
Proof. intros w y w'. unfold st_opt. destruct o; [intros [= _ <-]|]; done. Qed.
Lemma keeps_bind {A B} (f : ST (cstate (E:=E)) A) (g : A -> ST cstate B) :
  keeps f -> (forall x, keeps (g x)) -> keeps (f ≫= g).
Proof.
  intros Hf Hg w y w'. unfold mbind, st_bind. destruct (f w) as [[x w1]|] eqn:Ef; [|done].
  intros Eg. etransitivity; [by eapply Hg|by eapply Hf].
Qed.
Lemma keeps_get : keeps c_get.
Proof. intros w y w' [= _ <-]. done. Qed.
Lemma keeps_on_env {A} (f : ST E A) : keeps (on_env f).
Proof. intros w y w'. unfold on_env. destruct (f w.2) as [[x e]|]; [|done]. intros [= _ <-]. done. Qed.
Lemma keeps_in_buf {A} (f : ST mem A) : keeps (in_buf f).
Proof. intros w y w'. unfold in_buf. destruct (f _) as [[x e]|]; [|done]. intros [= _ <-]. done. Qed.
Lemma keeps_in_readbuf {A} (f : ST mem A) : keeps (in_readbuf f).
Proof. intros w y w'. unfold in_readbuf. destruct (f _) as [[x e]|]; [|done]. intros [= _ <-]. done. Qed.
Lemma keeps_mod f : (forall c, messageHandlers (f c) = messageHandlers c) -> keeps (c_mod f).
Proof. intros H w y w' [= _ <-]. apply H. Qed.
End handlers.

#[export] Hint Resolve keeps_ret keeps_fuel keeps_opt keeps_get keeps_on_env keeps_in_buf
  keeps_in_readbuf : keeps.

(** One step along the code: sequences, tests and the primitives. *)
Ltac keeps_step :=
  match goal with
  | |- keeps (_ ≫= _) => apply keeps_bind; [|intros]
  | |- keeps (if ?b then _ else _) => destruct b
  | |- keeps (match ?x with _ => _ end) => destruct x
  | |- keeps (c_mod _) => apply keeps_mod; done
  | |- _ => solve [eauto with keeps]
  end.
Ltac keeps_tac := repeat keeps_step.

Section handlers_kept.
Context {E : Type} `{!Env E}.

Lemma keeps_rearm : keeps (rearm_ping (E:=E)).
Proof. unfold rearm_ping. keeps_tac. Qed.
Hint Resolve keeps_rearm : keeps.
Lemma keeps_sendPacket fuel len timer : keeps (sendPacket (E:=E) fuel len timer).
Proof.
  unfold sendPacket. assert (H : forall sent, keeps (sendPacket_loop (E:=E) fuel sent len timer)).
  { induction fuel as [|fuel IH]; intros sent; cbn [sendPacket_loop]; keeps_tac. }
  keeps_tac.
Qed.
Hint Resolve keeps_sendPacket : keeps.
Lemma keeps_readPacket timer : keeps (readPacket (E:=E) timer).
Proof. unfold readPacket, decodePacket, readPacket_rest. keeps_tac. Qed.
Hint Resolve keeps_readPacket : keeps.
Lemma keeps_keepalive fuel : keeps (keepalive (E:=E) fuel).
Proof. unfold keepalive. keeps_tac. Qed.
Hint Resolve keeps_keepalive : keeps.
Lemma keeps_deliver t msg : keeps (deliverMessage (E:=E) t msg).
Proof.
  unfold deliverMessage. assert (H : forall hs rc, keeps (deliver_loop (E:=E) hs t msg rc)).
  { induction hs as [|h hs IH]; intros rc; cbn [deliver_loop]; keeps_tac. }
  keeps_tac.
Qed.
Hint Resolve keeps_deliver : keeps.
Lemma keeps_cycle fuel timer : keeps (cycle (E:=E) fuel timer).
Proof. unfold cycle, cycle_switch, cycle_publish, cycle_pubrec. keeps_tac. Qed.
Hint Resolve keeps_cycle : keeps.
Lemma keeps_waitfor fuel ty timer : keeps (waitfor (E:=E) fuel ty timer).
Proof.
  unfold waitfor. assert (H : forall n rc, keeps (waitfor_loop (E:=E) fuel n ty timer rc)).
  { induction n as [|n IH]; intros rc; cbn [waitfor_loop]; keeps_tac. }
  keeps_tac.
Qed.
Hint Resolve keeps_waitfor : keeps.
Lemma keeps_MQTTUnsubscribe fuel filter : keeps (MQTTUnsubscribe (E:=E) fuel filter).
Proof. unfold MQTTUnsubscribe, getNextPacketId. keeps_tac. Qed.
End handlers_kept.

(** The next identifier, modulo the number of identifiers. *)
Lemma next_id_mod n k :
  let x := (n - 1 + Z.of_nat k) mod 65535 + 1 in
  (if x =? 65535 then 1 else x + 1) = (n - 1 + Z.of_nat (S k)) mod 65535 + 1.
Proof.
  intros x. subst x. replace (n - 1 + Z.of_nat (S k)) with (n - 1 + Z.of_nat k + 1) by lia.
  set (y := n - 1 + Z.of_nat k). pose proof (Z.mod_pos_bound y 65535 ltac:(lia)).
  rewrite <- Z.add_mod_idemp_l by lia.
  destruct (Z.eqb_spec (y mod 65535 + 1) 65535) as [E|E].
  - rewrite E. done.
  - rewrite (Z.mod_small (y mod 65535 + 1)); lia.
Qed.
