(* ===== verification/MqttTheorems.v ===== *)
(** * Theorems of the MQTT client

    The properties of extras/paho_mqtt_c, each with a run on a simulated
    network where its hypotheses hold. *)

From S2P Require Import Prelude MqttPacket MqttWire MqttSerial MqttFormat MqttClient MqttNet MqttTopic MqttContract.

Local Open Scope Z_scope.

(** ** A simulated network

    The clock advances at each look at it, send() accepts five bytes at a
    time, and the received bytes wait in [sim_in]. *)
Record sim := Sim { sim_tick : Z; sim_in : mem; sim_out : mem; sim_calls : list (nat * MessageData) }.

#[export] Instance sim_env : Env sim := {
  env_tick := fun e => Some (sim_tick e, Sim (sim_tick e + 1) (sim_in e) (sim_out e) (sim_calls e));
  env_select := fun w _ _ e =>
    Some (if w || negb (zlen (sim_in e) =? 0) then (1, true) else (0, false), e);
  env_recv := fun _ n e => let d := take (Z.to_nat n) (sim_in e) in
    Some ((zlen d, d), Sim (sim_tick e) (drop (Z.to_nat n) (sim_in e)) (sim_out e) (sim_calls e));
  env_send := fun _ d e => let d := take 5 d in
    Some (zlen d, Sim (sim_tick e) (sim_in e) (sim_out e ++ d) (sim_calls e));
  env_call := fun f md e => Some ((), Sim (sim_tick e) (sim_in e) (sim_out e) (sim_calls e ++ [(f, md)]));
}.

(** What a recv() of at most [n] bytes gives. *)
Lemma recv_some n (i : mem) : 0 < n -> i <> [] ->
  exists k, 1 <= k <= n /\ k <= zlen i /\
    (zlen (take (Z.to_nat n) i), take (Z.to_nat n) i) = (k, take (Z.to_nat k) i) /\
    drop (Z.to_nat n) i = drop (Z.to_nat k) i.
Proof.
  intros Hn Hne. exists (zlen (take (Z.to_nat n) i)).
  assert (0 < length i)%nat by (destruct i; [done|]; rewrite length_cons; lia).
  unfold zlen. rewrite length_take, Nat2Z.id.
  destruct (Nat.le_ge_cases (Z.to_nat n) (length i)); [rewrite Nat.min_l by done|rewrite Nat.min_r by done].
  - split_and!; try done; lia.
  - rewrite !firstn_all2, !drop_ge by lia. split_and!; try done; lia.
Qed.

#[export] Program Instance sim_laws : EnvLaws sim :=
  {| wire := sim_out; inbox := sim_in; calls := sim_calls |}.
Next Obligation. done. Qed.
Next Obligation. done. Qed.
Next Obligation.
  intros s t e H. unfold wp. cbn. destruct (sim_in e) as [|b l] eqn:E; [done|].
  destruct (Z.eqb_spec (zlen (b :: l)) 0) as [H0|]; [|done].
  rewrite zlen_cons in H0. pose proof (zlen_nonneg l). lia.
Qed.
Next Obligation.
  intros s n e Hn Hne. unfold wp. cbn. destruct (recv_some n (sim_in e) Hn Hne) as (k & Hk & Hkl & Hr & Hd).
  by exists k.
Qed.
Next Obligation.
  intros s d e H. unfold wp. cbn. right. destruct d as [|b d]; [done|]. unfold zlen.
  rewrite length_take. split; [rewrite length_cons; lia|]. split; [|done]. f_equal.
  rewrite Nat2Z.id. destruct (Nat.le_ge_cases 5 (length (b :: d))).
  - by rewrite Nat.min_l by done.
  - by rewrite Nat.min_r, !firstn_all2 by done.
Qed.
Next Obligation. done. Qed.

(** The same network with segments of three bytes: recv() gives at most three. *)
Record short_sim := Short { short_of : sim }.
Definition in_short {A} (f : ST sim A) : ST short_sim A := fun e =>
  match f (short_of e) with Some (x, e') => Some (x, Short e') | None => None end.
#[export] Instance short_env : Env short_sim := {
  env_tick := in_short env_tick;
  env_select := fun w s t => in_short (env_select w s t);
  env_recv := fun s n => in_short (env_recv s (Z.min n 3));
  env_send := fun s d => in_short (env_send s d);
  env_call := fun f md => in_short (env_call f md);
}.
Lemma wp_in_short {A} (f : ST sim A) (Q : A -> short_sim -> Prop) e :
  wp f (fun x e' => Q x (Short e')) (short_of e) -> wp (in_short f) Q e.
Proof. unfold wp, in_short. by destruct (f (short_of e)) as [[x e']|]. Qed.
Lemma short_same e e' : env_same sim_out sim_in sim_calls (short_of e) e' ->
  env_same (fun e => sim_out (short_of e)) (fun e => sim_in (short_of e)) (fun e => sim_calls (short_of e)) e (Short e').
Proof. by intros []. Qed.
#[export] Program Instance short_laws : EnvLaws short_sim :=
  {| wire e := sim_out (short_of e); inbox e := sim_in (short_of e); calls e := sim_calls (short_of e) |}.
Next Obligation. intros e. done. Qed.
Next Obligation. intros w s t e. done. Qed.
Next Obligation.
  intros s t e H. apply wp_in_short. eapply wp_mono; [by apply (law_readable (E:=sim))|].
  intros r e' (Hr & Hs & H2). split; [done|]. split; [done|]. by apply short_same.
Qed.
Next Obligation.
  intros s n e Hn Hne. apply wp_in_short. eapply wp_mono; [apply (law_recv (E:=sim)); [lia|done]|].
  intros r e' (k & Hk & H). exists k. split; [lia|exact H].
Qed.
Next Obligation.
  intros s d e H. apply wp_in_short. eapply wp_mono; [by apply (law_send (E:=sim))|].
  intros r e' [[Hr H2]|H2]; [left|right; exact H2]. split; [done|]. by apply short_same.
Qed.
Next Obligation. intros f md e. done. Qed.

(** ** Packets *)

(** MQTTSerialize_connect stores exactly the CONNECT packet of the
    specification (versions 3 and 4), or returns MQTTPACKET_BUFFER_TOO_SHORT
    and leaves the buffer as it was; it never stores outside of the buffer. *)
Theorem MQTTSerialize_connect_packet (o : MQTTPacket_connectData) (buflen : Z) (m : mem) :
  connect_ok o -> MQTTSerialize_connectLength o < 2 ^ 28 -> buflen <= zlen m ->
  let p := packet (Header CONNECT 0 0 0) (connect_body o) in
  MQTTSerialize_connect buflen o m =
    if buflen <? MQTTPacket_len (zlen (connect_body o)) then Some (MQTTPACKET_BUFFER_TOO_SHORT, m)
    else Some (zlen p, splice 0 p m).
Proof. intros Hok Hl Hm p. rewrite <- (connect_body_len o Hok). by apply serialize_connect_run. Qed.

Definition str_topic : MQTTString := MString (Some [115; 47; 116; 0; 9]) 0 None.
Definition demo_connect : MQTTPacket_connectData :=
  ConnectData 4 str_topic 60 1 1 (WillOptions str_topic (MString None 2 (Some [7; 8; 9])) 1 2)
    str_topic MQTTString_initializer.

Lemma MQTTSerialize_connect_packet_witness :
  MQTTSerialize_connect 64 demo_connect (replicate 64 0) =
    Some (31, [16; 29; 0; 4; 77; 81; 84; 84; 4; 182; 0; 60; 0; 3; 115; 47; 116; 0; 3; 115; 47; 116;
               0; 2; 7; 8; 0; 3; 115; 47; 116] ++ replicate 33 0).
Proof.
  assert (Hs : mstr_ok str_topic) by (unfold mstr_ok; simpl; lia).
  assert (Hm : mstr_ok (MString None 2 (Some [7; 8; 9]))).
  { right. simpl. split; [lia|]. eexists. split; [reflexivity|]. unfold zlen. simpl. lia. }
  pose proof (MQTTSerialize_connect_packet demo_connect 64 (replicate 64 0)) as H. cbv zeta in H.
  rewrite H; [vm_compute; reflexivity| |vm_compute; reflexivity|vm_compute; discriminate].
  split; [by right|]. split; [done|]. split; [by intros _|]. split; by intros.
Defined.

(** C24: A PUBLISH that MQTTSerialize_publish stored in a buffer is read back
    from it by MQTTDeserialize_publish: flags, packet identifier, topic and
    payload are the ones serialized; a buffer that is too short is refused.
    The flags have their bits, the topic has less than 2^16 bytes, the remaining
    length of the packet is below 2^28 and [buflen] is no more than the memory. *)
Theorem publish_roundtrip (buflen dup qos retained packetid : Z) (topicName : MQTTString)
    (payload : option mem) (payloadlen : Z) (d : mem) (out : publish_out) (m : mem) :
  0 <= dup < 2 -> 0 <= qos < 4 -> 0 <= retained < 2 -> 0 <= packetid < 65536 ->
  mstr_ok topicName -> MQTTstrlen topicName < 65536 ->
  0 <= payloadlen -> data_bytes payload payloadlen = Some d ->
  MQTTSerialize_publishLength qos topicName payloadlen < 2 ^ 28 -> buflen <= zlen m ->
  (buflen < MQTTPacket_len (MQTTSerialize_publishLength qos topicName payloadlen) /\
   MQTTSerialize_publish buflen dup qos retained packetid topicName payload payloadlen m =
     Some (MQTTPACKET_BUFFER_TOO_SHORT, m)) \/
  (exists n m' td p,
    MQTTSerialize_publish buflen dup qos retained packetid topicName payload payloadlen m = Some (n, m') /\
    0 < n <= buflen /\ drop (Z.to_nat n) m' = drop (Z.to_nat n) m /\
    take (Z.to_nat (MQTTstrlen topicName)) td = mstr_bytes topicName /\ mem_at p d m' /\
    MQTTDeserialize_publish out m' = Some ((1, PublishOut dup qos retained
      (if 0 <? qos then packetid else pb_packetid out) (MString None (MQTTstrlen topicName) (Some td))
      p payloadlen), m')).
Proof.
  intros Hdup Hqos Hret Hid Hok Hlt Hn Hd Hl Hm. pose proof (data_bytes_len _ _ _ Hn Hd) as Ed.
  pose proof (publish_body_len qos packetid _ d topicName payloadlen Hok eq_refl (eq_sym Ed)) as El.
  rewrite (serialize_publish_run _ _ _ _ _ _ _ _ d) by done.
  set (len := MQTTSerialize_publishLength qos topicName payloadlen) in *.
  destruct (Z.ltb_spec buflen (MQTTPacket_len len)) as [Hs|Hs]; [by left|right].
  set (body := publish_body qos packetid (mstr_bytes topicName) d) in *.
  set (p := packet (Header PUBLISH dup qos retained) body).
  pose proof (zlen_nonneg body). pose proof (zlen_nonneg (rl_bytes len)).
  assert (Hp : zlen p <= buflen /\ 0 < zlen p).
  { unfold p, packet. rewrite zlen_cons, zlen_app, <- El. pose proof (MQTTPacket_len_enough len). lia. }
  rewrite (mstr_ok_len _ Hok) in *.
  destruct (deserialize_publish_run dup qos retained packetid (mstr_bytes topicName) d out
    (splice 0 p m)) as (td & q & Etd & Hltd & Hq & Er); try done.
  { fold body. lia. }
  { apply mem_at_splice; [lia|]. fold body p. lia. }
  exists (zlen p), (splice 0 p m), td, q. split; [done|]. split; [lia|]. split.
  { unfold splice, zlen. simpl take. rewrite Nat2Z.id. simpl. apply drop_app_length. }
  split; [by unfold zlen; rewrite Nat2Z.id|]. split; [done|]. by rewrite Er, Ed.
Qed.

Lemma publish_roundtrip_witness :
  exists n m' td p,
    MQTTSerialize_publish 32 0 1 1 513 str_topic (Some [5; 6; 7]) 2 (replicate 32 0) = Some (n, m') /\
    take 3 td = [115; 47; 116] /\ mem_at p [5; 6] m' /\
    MQTTDeserialize_publish (PublishOut 0 0 0 0 MQTTString_initializer 0 0) m' =
      Some ((1, PublishOut 0 1 1 513 (MString None 3 (Some td)) p 2), m').
Proof.
  destruct (publish_roundtrip 32 0 1 1 513 str_topic (Some [5; 6; 7]) 2 [5; 6]
    (PublishOut 0 0 0 0 MQTTString_initializer 0 0) (replicate 32 0)) as [[H _]|H];
    try (vm_compute; congruence); try lia; try reflexivity.
  - vm_compute in H. discriminate H.
  - destruct H as (n & m' & td & p & E1 & _ & _ & E2 & Hm & E3). exists n, m', td, p.
    split; [exact E1|]. split; [exact E2|]. split; [exact Hm|exact E3].
Defined.

(** The acknowledgements: MQTTSerialize_ack stores four bytes or refuses,
    and MQTTDeserialize_ack reads back the type, the dup flag and the packet
    identifier. *)
Theorem ack_roundtrip (buflen packettype dup packetid : Z) (out : ack_out) (m : mem) :
  0 <= packettype < 16 -> 0 <= dup < 2 -> 0 <= packetid < 65536 -> buflen <= zlen m ->
  (buflen < 4 /\ MQTTSerialize_ack buflen packettype dup packetid m =
     Some (MQTTPACKET_BUFFER_TOO_SHORT, m)) \/
  exists m', MQTTSerialize_ack buflen packettype dup packetid m = Some (4, m') /\
    drop 4 m' = drop 4 m /\
    MQTTDeserialize_ack out m' = Some ((1, AckOut packettype dup packetid), m').
Proof.
  intros Ht Hd Hid Hm. rewrite serialize_ack_run by done.
  destruct (Z.ltb_spec buflen 4) as [|Hb]; [by left|]. right.
  assert (Hl : zlen (ack_packet packettype dup packetid) = 4) by done.
  eexists. split; [reflexivity|]. split; [done|].
  apply deserialize_ack_run; try done. apply mem_at_splice; lia.
Qed.

Lemma ack_roundtrip_witness :
  exists m', MQTTSerialize_ack 4 PUBREL 0 77 [0; 0; 0; 0; 9] = Some (4, m') /\
    MQTTDeserialize_ack (AckOut 0 0 0) m' = Some ((1, AckOut PUBREL 0 77), m').
Proof.
  destruct (ack_roundtrip 4 PUBREL 0 77 (AckOut 0 0 0) [0; 0; 0; 0; 9]) as [[H _]|(m' & E1 & _ & E2)];
    try (unfold PUBREL; lia); [vm_compute; discriminate|].
  exists m'. split; [exact E1|exact E2].
Defined.

(** MQTTSerialize_subscribe and MQTTSerialize_unsubscribe store exactly
    the packets of the specification for any number of topic filters, or
    report that the buffer is too short. *)
Theorem subscriptions_packets (buflen dup packetid : Z) (topics : list MQTTString) (qoss : list Z) (m : mem) :
  Forall mstr_ok topics -> length qoss = length topics ->
  zlen (subscribe_body packetid topics qoss) < 2 ^ 28 ->
  zlen (unsubscribe_body packetid topics) < 2 ^ 28 -> buflen <= zlen m ->
  let stored n p := if buflen <? MQTTPacket_len n then Some (MQTTPACKET_BUFFER_TOO_SHORT, m)
                    else Some (zlen p, splice 0 p m) in
  let s := subscribe_body packetid topics qoss in
  let u := unsubscribe_body packetid topics in
  MQTTSerialize_subscribe buflen dup packetid (zlen topics) topics qoss m =
    stored (zlen s) (packet (Header SUBSCRIBE dup 1 0) s) /\
  MQTTSerialize_unsubscribe buflen dup packetid (zlen topics) topics m =
    stored (zlen u) (packet (Header UNSUBSCRIBE dup 1 0) u).
Proof.
  intros Hok Hl Hs Hu Hm stored s u. split.
  - by apply serialize_subscribe_run.
  - by apply serialize_unsubscribe_run.
Qed.

Lemma subscriptions_packets_witness :
  MQTTSerialize_subscribe 20 0 7 2 [str_topic; str_topic] [1; 2] (replicate 20 0) =
    Some (16, [130; 14; 0; 7; 0; 3; 115; 47; 116; 1; 0; 3; 115; 47; 116; 2; 0; 0; 0; 0]).
Proof.
  assert (Hs : mstr_ok str_topic) by (unfold mstr_ok; simpl; lia).
  destruct (subscriptions_packets 20 0 7 [str_topic; str_topic] [1; 2] (replicate 20 0)) as [E _];
    [repeat constructor; exact Hs|reflexivity|vm_compute; reflexivity|vm_compute; reflexivity
    |vm_compute; discriminate|].
  change (zlen [str_topic; str_topic]) with 2 in E. rewrite E. vm_compute. reflexivity.
Defined.

(** MQTTDeserialize_suback returns the granted qualities of service of a
    SUBACK, and reads and stores inside of its arrays, as long as the packet
    has no more of them than the array; with one more its guard, which
    compares the count with [>], lets it store past the end of the array. *)
Theorem suback_array_bound (packetid : Z) (granted array : list Z) (m : mem) :
  0 <= packetid < 65536 -> zlen granted < 2 ^ 28 - 2 ->
  mem_at 0 (suback_packet packetid granted) m ->
  let run := MQTTDeserialize_suback (zlen array) (SubackOut 0 0 array) m in
  (zlen granted <= zlen array ->
   run = Some ((1, SubackOut packetid (zlen granted) (granted ++ drop (length granted) array)), m)) /\
  (zlen granted = zlen array + 1 -> run = None).
Proof.
  intros Hid Hl Hm run. split.
  - intros Hle. apply deserialize_suback_run; try done; simpl; lia.
  - intros He. by apply (deserialize_suback_overruns packetid granted).
Qed.

Lemma suback_array_bound_witness :
  MQTTDeserialize_suback 1 (SubackOut 0 0 [-1]) [0x90; 4; 0; 9; 1; 0] = None.
Proof.
  destruct (suback_array_bound 9 [1; 0] [-1] [0x90; 4; 0; 9; 1; 0]) as [_ H];
    [lia|unfold zlen; simpl; lia|exists [], []; split; reflexivity|].
  exact (H eq_refl).
Defined.

(** ** Topic filters *)

(** C27: isTopicMatched, a loop over the characters of the filter and of the
    name, decides the matching of their levels: literal levels are equal, '+'
    matches one level and '#' all the remaining ones, neither matching an
    empty level.  In the filter a wildcard is a level of its own, and '#' the last. *)
Theorem isTopicMatched_levels (f n : list mem) (data : mem) (len : Z) :
  filter_ok f -> name_ok n -> f <> [] -> n <> [] ->
  len = zlen (join n) -> take (Z.to_nat len) data = join n ->
  isTopicMatched (join f) (MString None len (Some data)) = levels_match f n.
Proof.
  intros Hf Hn Hf0 Hn0 -> Hd. unfold isTopicMatched. cbn [ls_len ls_data].
  change (default [] (Some data)) with data. rewrite Hd. by apply loop_join.
Qed.

(** The filter a/+/# and the name a/bc/d/e, with a byte after it in memory. *)
Lemma isTopicMatched_levels_witness :
  isTopicMatched [97; 47; 43; 47; 35] (MString None 8 (Some [97; 47; 98; 99; 47; 100; 47; 101; 33])) = true.
Proof.
  refine (isTopicMatched_levels [[97]; [43]; [35]] [[97]; [98; 99]; [100]; [101]]
    [97; 47; 98; 99; 47; 100; 47; 101; 33] 8 _ _ _ _ eq_refl eq_refl); try discriminate.
  - split; [left; repeat constructor; discriminate|]. split; [by right; left|].
    split; [by right; right|exact I].
  - repeat constructor; discriminate.
Defined.

(** ** The network *)

Section network.
Context {E : Type} `{!Env E} `{!EnvLaws E}.

(** C28: sendPacket returns.  When it returns SUCCESS it has given exactly
    the packet to the network, in order; when it returns FAILURE (the timer
    expired or send() failed) a proper prefix of it.
    The length is that of the packet in buf, and fuel is one turn more than its bytes. *)
Theorem sendPacket_sends (fuel : nat) (len : Z) (timer : Timer) (c : MQTTClient) (e : E) :
  0 <= len <= zlen (buf c) -> Z.of_nat fuel > len ->
  wp (sendPacket fuel len timer) (fun rc w =>
    buf w.1 = buf c /\ inbox w.2 = inbox e /\ calls w.2 = calls e /\
    ((rc = SUCCESS /\ wire w.2 = wire e ++ take (Z.to_nat len) (buf c)) \/
     (rc = FAILURE /\ exists k, 0 <= k < len /\ wire w.2 = wire e ++ take (Z.to_nat k) (buf c)))) (c, e).
Proof.
  intros Hl Hf. eapply wp_mono; [by apply sendPacket_wp|].
  intros rc w (Hi & Hc & [(-> & Hw & t & ->)|(-> & -> & H)]); repeat (split; [done|]).
  - by left.
  - by right.
Qed.

(** ReadPacket receives a packet that fits in the receive buffer, when recv() gives
    its body in one piece: it returns the packet's type, the buffer starts with the packet, and the
    bytes after it are still to be received.  It does not compare the
    remaining length with the size of the buffer: a longer packet is stored
    past its end. *)
Theorem readPacket_reads (h : MQTTHeader) (body rest : mem) (timer : Timer) (c : MQTTClient) (e : E) :
  small_header h -> inbox e = packet h body ++ rest -> one_piece body rest -> zlen body < 2 ^ 28 ->
  6 <= zlen (readbuf c) ->
  if zlen (packet h body) <=? zlen (readbuf c)
  then exists e', readPacket timer (c, e) =
         Some (h_type h, (set_readbuf (splice 0 (packet h body) (readbuf c)) c, e')) /\
       inbox e' = rest /\ wire e' = wire e /\ calls e' = calls e
  else readPacket timer (c, e) = None.
Proof.
  intros Hh Hi Hone Hb Hr. destruct (Z.leb_spec (zlen (packet h body)) (zlen (readbuf c))) as [Hl|Hl].
  - destruct (readPacket_receives h body rest timer c e Hh Hi Hone Hb Hl) as (e' & ? & ? & ? & ?).
    by exists e'.
  - apply (readPacket_overflows h body rest); [done..|]. split; [|done].
    unfold prefix_of. rewrite zlen_cons. pose proof (zlen_nonneg body).
    pose proof (zlen_rl_bytes (zlen body)). lia.
Qed.

(** C13: One cycle on a received PUBLISH (QoS 0 to 2) that fits readbuf, with at least
    4 bytes of buf for the answer, when recv() gives what follows the packet's length
    bytes in one piece: every handler whose filter matches (else the default one) is
    called once, in order, with the topic and the payload of the packet; then a QoS 1
    message is answered with PUBACK and a QoS 2 message with PUBREC, carrying its packet
    identifier, unless sending fails; only a ping may follow on the wire.  (A recv()
    that returns less makes the client give up the connection, see cycle_short_read; a
    packet that does not fit is stored past the end of readbuf, see readPacket_reads.) *)
Theorem cycle_acknowledges (fuel : nat) (timer : Timer) (c : MQTTClient) (e : E)
    (dup qos retained id : Z) (topic payload rest : mem) :
  0 <= dup < 2 -> 0 <= qos <= 2 -> 0 <= retained < 2 -> 0 <= id < 65536 -> zlen topic < 65536 ->
  let p := packet (Header PUBLISH dup qos retained) (publish_body qos id topic payload) in
  zlen (publish_body qos id topic payload) < 2 ^ 28 -> inbox e = p ++ rest ->
  one_piece (publish_body qos id topic payload) rest -> zlen p <= zlen (readbuf c) -> 4 <= buf_size c <= zlen (buf c) -> (4 < fuel)%nat ->
  wp (cycle fuel timer) (fun rc w =>
    delivered c e w.2 dup qos retained id topic payload /\ inbox w.2 = rest /\
    (((rc = PUBLISH \/ rc = DISCONNECTED) /\ exists e1,
        wire e1 = wire e ++ ack_of qos id /\ sent_some e1 w.2 pingreq_packet) \/
     (rc = FAILURE /\ exists k, 0 <= k < zlen (ack_of qos id) /\
        wire w.2 = wire e ++ take (Z.to_nat k) (ack_of qos id)))) (c, e).
Proof. intros. by apply cycle_publish_packet. Qed.

(** When recv() returns less than the rest of a packet, as lwIP does at the end of a
    segment, the cycle takes the connection for broken: no handler is called, nothing is
    sent, and the bytes that are left would be taken for the next packet. *)
Theorem cycle_short_read (fuel : nat) (timer : Timer) (c : MQTTClient) (e : E) (h : MQTTHeader) (body rest : mem) :
  inbox e = packet h body ++ rest -> body <> [] -> zlen body < 2 ^ 28 ->
  zlen (packet h body) <= zlen (readbuf c) ->
  (forall s e', inbox e' = body ++ rest -> wp (env_recv s (zlen body)) (fun r _ => r.1 < zlen body) e') ->
  wp (cycle fuel timer) (fun rc w => rc = DISCONNECTED /\ isconnected w.1 = 0 /\
    wire w.2 = wire e /\ calls w.2 = calls e /\
    exists k, 1 <= k < zlen body /\ inbox w.2 = drop (Z.to_nat k) body ++ rest) (c, e).
Proof. intros Hi Hne Hb Hl Hs. exact (cycle_short_packet fuel timer c e h body rest Hi Hne Hb Hl Hs). Qed.

(** Keepalive runs the machine [ka_step]: nothing happens while the ping
    timer runs; when it expires with no ping outstanding a PINGREQ is sent,
    and with one outstanding a failure is counted, the second one being
    reported as DISCONNECTED. *)
Theorem keepalive_refines (fuel : nat) (b : bool) (e1 : E) (c : MQTTClient) (e : E) :
  keepAlive c <> 0 -> expired (ping_timer c) e = Some (b, e1) ->
  2 <= buf_size c <= zlen (buf c) -> (2 < fuel)%nat ->
  wp (keepalive fuel) (fun rc w =>
    (rc, ka_state w.1) = ka_step b (ka_state c) /\
    inbox w.2 = inbox e /\ calls w.2 = calls e /\ isconnected w.1 = isconnected c /\
    (if b && negb (c_true (ping_outstanding c)) then sent_some e w.2 pingreq_packet
     else wire w.2 = wire e)) (c, e).
Proof. intros. by apply (keepalive_wp fuel b e1). Qed.
End network.

(** MQTTUnsubscribe never frees the slot of a topic's handler, whatever
    the network does: after five subscriptions no handler can be added. *)
Theorem unsubscribe_keeps_handlers {E : Type} `{!Env E} (fuel : nat) (filter : mem)
    (w w' : cstate (E:=E)) (rc : Z) :
  MQTTUnsubscribe fuel filter w = Some (rc, w') -> messageHandlers w'.1 = messageHandlers w.1.
Proof. apply keeps_MQTTUnsubscribe. Qed.

(** Packet identifiers: from 1 to 65535 they follow each other and start
    again from 1, never 0, so that 65535 consecutive ones are distinct. *)
Theorem packet_ids {E : Type} (k : nat) (c : MQTTClient) (e : E) :
  1 <= next_packetid c <= MAX_PACKET_ID ->
  exists w, Nat.iter k (fun m => m ≫= fun _ => getNextPacketId) (mret 0 : ST (cstate (E:=E)) Z) (c, e) =
      Some (if decide (k = 0%nat) then 0 else (next_packetid c - 1 + Z.of_nat k) mod MAX_PACKET_ID + 1, w) /\
    next_packetid w.1 = (next_packetid c - 1 + Z.of_nat k) mod MAX_PACKET_ID + 1 /\ w.2 = e.
Proof.
  intros Hc. unfold MAX_PACKET_ID in *. induction k as [|k (w & IH & Hn & He)].
  - exists (c, e). split; [done|]. split; [|done]. simpl. rewrite Z.add_0_r, Z.mod_small; lia.
  - rewrite Nat.iter_succ, (bind_run _ _ _ _ _ IH). destruct w as [c' e']. simpl in Hn, He. subst e'.
    eexists. unfold getNextPacketId, MAX_PACKET_ID. cbn [decide]. split; [|split].
    + unfold mbind, st_bind, c_get, c_mod, mret, st_ret. cbn [fst snd]. rewrite decide_False by done.
      do 2 f_equal. rewrite Hn. apply next_id_mod.
    + simpl. rewrite Hn. apply next_id_mod.
    + done.
Qed.

(** ** The hypotheses hold: runs on the simulated network *)

Definition demo_client (inbuf : nat) (ping : Z) : MQTTClient :=
  {| next_packetid := 1; command_timeout_ms := 5000; buf_size := 16; readbuf_size := Z.of_nat inbuf;
     buf := seqZ 65 16; readbuf := replicate inbuf 0; keepAlive := 60; ping_outstanding := ping;
     fail_count := 1; isconnected := 1;
     messageHandlers := [MkHandler (Some [115; 47; 43]) (Some 4%nat); MkHandler None None];
     defaultMessageHandler := None; ipstack := MkNetwork 3; ping_timer := MkTimer 500 |}.

Lemma sendPacket_sends_witness :
  exists rc w, sendPacket 20 12 (MkTimer 100) (demo_client 16 0, Sim 0 [] [1] []) = Some (rc, w) /\
    rc = SUCCESS /\ sim_out w.2 = [1; 65; 66; 67; 68; 69; 70; 71; 72; 73; 74; 75; 76].
Proof.
  destruct (wp_run _ _ _ (sendPacket_sends 20 12 (MkTimer 100) (demo_client 16 0) (Sim 0 [] [1] [])
    ltac:(vm_compute; split; discriminate) ltac:(lia))) as (rc & w & E & _ & _ & _ & H).
  exists rc, w. split; [exact E|]. vm_compute in E. injection E as <- <-.
  destruct H as [[_ H]|[H _]]; [|discriminate H]. split; [reflexivity|exact H].
Defined.

(** A PUBLISH with QoS 1 and identifier 258 on topic s/t. *)
Definition demo_publish : mem := packet (Header PUBLISH 0 1 0) (publish_body 1 258 [115; 47; 116] [42]).

Lemma sim_one_piece body rest : one_piece (E:=sim) body rest.
Proof.
  intros _ s e Hi. unfold wp. cbn. cbn in Hi. rewrite Hi. unfold zlen.
  by rewrite Nat2Z.id, take_app_length.
Qed.

Lemma readPacket_reads_witness :
  readPacket (MkTimer 100) (demo_client 8 0, Sim 0 demo_publish [] []) = None.
Proof.
  refine (readPacket_reads (Header PUBLISH 0 1 0) (publish_body 1 258 [115; 47; 116] [42]) []
    (MkTimer 100) (demo_client 8 0) (Sim 0 demo_publish [] []) _ _ (sim_one_piece _ _) _ _);
    [unfold small_header, PUBLISH; simpl; lia|vm_compute; reflexivity..|vm_compute; discriminate].
Defined.

Lemma cycle_acknowledges_witness :
  exists rc w, cycle 20 (MkTimer 100) (demo_client 16 0, Sim 0 (demo_publish ++ [0xd0; 0]) [] []) = Some (rc, w) /\
    rc = PUBLISH /\ sim_out w.2 = [64; 2; 1; 2] /\ map fst (sim_calls w.2) = [4%nat] /\
    sim_in w.2 = [0xd0; 0].
Proof.
  destruct (wp_run _ _ _ (cycle_acknowledges 20 (MkTimer 100) (demo_client 16 0)
    (Sim 0 (demo_publish ++ [0xd0; 0]) [] []) 0 1 0 258 [115; 47; 116] [42] [0xd0; 0]
    ltac:(lia) ltac:(lia) ltac:(lia) ltac:(lia) ltac:(vm_compute; reflexivity) ltac:(vm_compute; reflexivity)
    eq_refl (sim_one_piece _ _) ltac:(vm_compute; discriminate) ltac:(vm_compute; split; discriminate) ltac:(lia)))
    as (rc & w & E & _ & Hi & _).
  exists rc, w. split; [exact E|]. vm_compute in E. injection E as <- <-.
  split; [reflexivity|]. split; [reflexivity|]. split; [reflexivity|exact Hi].
Defined.

Lemma cycle_short_read_witness :
  exists w, cycle 20 (MkTimer 100) (demo_client 16 0, Short (Sim 0 (demo_publish ++ [0xd0; 0]) [] [])) = Some (DISCONNECTED, w) /\
    sim_in (short_of w.2) = [47; 116; 1; 2; 42; 0xd0; 0].
Proof.
  destruct (wp_run _ _ _ (@cycle_short_read short_sim short_env short_laws 20 (MkTimer 100) (demo_client 16 0)
    (Short (Sim 0 (demo_publish ++ [0xd0; 0]) [] [])) (Header PUBLISH 0 1 0) (publish_body 1 258 [115; 47; 116] [42]) [0xd0; 0]
    ltac:(vm_compute; reflexivity) ltac:(discriminate) ltac:(vm_compute; reflexivity) ltac:(vm_compute; discriminate)
    ltac:(intros s e' Hi; cbn in Hi; unfold wp; cbn; rewrite Hi; reflexivity))) as (rc & w & E & Hrc & _).
  exists w. rewrite Hrc in E. split; [exact E|]. vm_compute in E. injection E as <-. reflexivity.
Defined.

Lemma keepalive_refines_witness :
  exists w, keepalive 20 (demo_client 16 1, Sim 501 [] [] []) = Some (DISCONNECTED, w).
Proof.
  destruct (wp_run _ _ _ (keepalive_refines 20 true (Sim 502 [] [] []) (demo_client 16 1) (Sim 501 [] [] [])
    ltac:(discriminate) ltac:(vm_compute; reflexivity) ltac:(vm_compute; split; discriminate) ltac:(lia)))
    as (rc & w & E & H & _).
  exists w. injection H as H _ _. rewrite H in E. exact E.
Defined.

(** UNSUBACK for packet 2 after the client's own request. *)
Lemma unsubscribe_keeps_handlers_witness :
  exists w, MQTTUnsubscribe 40 [115; 47; 43] (demo_client 16 0, Sim 0 [0xb0; 2; 0; 2] [] []) = Some (0, w) /\
    messageHandlers w.1 = messageHandlers (demo_client 16 0).
Proof.
  destruct (MQTTUnsubscribe 40 [115; 47; 43] (demo_client 16 0, Sim 0 [0xb0; 2; 0; 2] [] [])) as [[rc w]|] eqn:E.
  2:{ vm_compute in E. discriminate E. }
  pose proof (unsubscribe_keeps_handlers _ _ _ _ _ E) as H.
  vm_compute in E. injection E as <- <-. eexists. split; [reflexivity|exact H].
Defined.

Lemma packet_ids_witness :
  exists w, Nat.iter 3 (fun m => m ≫= fun _ => getNextPacketId) (mret 0 : ST (cstate (E:=sim)) Z)
    (set_next_packetid 65534 (demo_client 16 0), Sim 0 [] [] []) = Some (2, w).
Proof.
  destruct (packet_ids 3 (set_next_packetid 65534 (demo_client 16 0)) (Sim 0 [] [] [])) as (w & E & _);
    [vm_compute; split; discriminate|].
  exists w. exact E.
Defined.
