(* ===== verification/Gpio.v ===== *)
(** * The GPIO pins

    What the bit-banged drivers use of core/include/esp/gpio.h, of the SDK's delay
    and of FreeRTOS: the class [Pin] of an environment with those operations.  Each
    driver adds the laws of the bus its pins are wired to. *)

From S2P Require Import Prelude.

Local Open Scope Z_scope.

Inductive gpio_direction_t := GPIO_INPUT | GPIO_OUTPUT | GPIO_OUT_OPEN_DRAIN.

Class Pin (E : Type) := {
  gpio_enable : Z -> gpio_direction_t -> ST E unit;
  gpio_set_pullup : Z -> bool -> bool -> ST E unit;
  gpio_write : Z -> bool -> ST E unit;
  gpio_read : Z -> ST E bool;
  sdk_os_delay_us : Z -> ST E unit;
  taskENTER_CRITICAL : ST E unit;
  taskEXIT_CRITICAL : ST E unit;
}.
