(* ===== verification/EspRegs.v ===== *)
(** * Registers of the chip: GPIO, IOMUX and interrupts

    core/include/esp/gpio.h, core/esp_gpio.c, core/include/esp/iomux.h,
    core/esp_iomux.c, core/include/esp/interrupts.h, core/esp_interrupts.c and
    core/esp_gpio_interrupts.c.  The state is the registers these files use, the
    table of interrupt handlers and what is outside of the chip.  A write to the
    _SET or _CLEAR register of another one sets or clears its bits, as gpio_regs.h
    says.  [None] is an index past the end of an array or a call of a null handler.

    The registers of the timers are part of the state; [EspTimer] has their code. *)

From S2P Require Import Prelude Gpio.
Local Open Scope Z_scope.

Definition BIT (x : Z) : Z := Z.shiftl 1 x.

(** struct GPIO_REGS, and struct IOMUX_REGS: [PIN]. *)
Record gpio_regs := {
  OUT : Z;
  ENABLE_OUT : Z;
  STATUS : Z;
  CONF : Z -> Z;
  PIN : Z -> Z
}.

(** struct TIMER_REGS. *)
Record timer_regs := { LOAD : Z; COUNT : Z; CTRL : Z; ALARM : Z }.

(** What the pins are connected to: how it reacts to a change of the registers, and
    the levels that GPIO.IN shows when it is read. *)
Class Pads (E : Type) := {
  pad_update : gpio_regs -> gpio_regs -> E -> E;
  pad_in : gpio_regs -> E -> Z * E;
  pad_delay : Z -> E -> E
}.

(** [H]: the names of the interrupt handlers.  [INTENABLE] and [INTERRUPT] are the
    special registers of the CPU, [INT_ENABLE] is DPORT.INT_ENABLE. *)
Record soc (H E : Type) := Soc {
  gpio : gpio_regs;
  frc : Z -> timer_regs;
  INT_ENABLE : Z;
  INTENABLE : Z;
  INTERRUPT : Z;
  isr : Z -> option H;
  esp_in_isr : bool;
  world : E
}.
Arguments Soc {H E}.
Arguments gpio {H E}.
Arguments frc {H E}.
Arguments INT_ENABLE {H E}.
Arguments INTENABLE {H E}.
Arguments INTERRUPT {H E}.
Arguments isr {H E}.
Arguments esp_in_isr {H E}.
Arguments world {H E}.

(** The handlers: the address of gpio_interrupt_handler, the code of each, and the
    functions gpioXX_interrupt_handler of the application. *)
Class Handlers (H E : Type) := {
  gpio_isr : H;
  call_isr : H -> ST (soc H E) unit;
  gpioxx_interrupt_handler : Z -> ST (soc H E) unit
}.

(** ** Register fields *)

Definition GPIO_OUT_PIN_MASK : Z := 0x0000FFFF.
Definition GPIO_CONF_INTTYPE_M : Z := 0x00000007.
Definition GPIO_CONF_INTTYPE_S : Z := 7.
Definition GPIO_CONF_OPEN_DRAIN : Z := BIT 2.
Definition IOMUX_PIN_OUTPUT_ENABLE : Z := BIT 0.
Definition IOMUX_PIN_OUTPUT_ENABLE_SLEEP : Z := BIT 1.
Definition IOMUX_PIN_PULLDOWN_SLEEP : Z := BIT 2.
Definition IOMUX_PIN_PULLUP_SLEEP : Z := BIT 3.
Definition IOMUX_PIN_PULLDOWN : Z := BIT 6.
Definition IOMUX_PIN_PULLUP : Z := BIT 7.
Definition IOMUX_PIN_FUNC_MASK : Z := 0x00000130.
Definition IOMUX_FUNC (val : Z) : Z := Z.lor (Z.shiftl (Z.land val 3) 4) (Z.shiftl (Z.land val 4) 6).

Definition FIELD2VAL (m s regbits : Z) : Z := Z.land (Z.shiftr regbits s) m.
Definition SET_FIELD (regbits m s value : Z) : Z := Z.lor (Z.ldiff regbits (Z.shiftl m s)) (Z.shiftl value s).

Definition INUM_GPIO : Z := 4.
Definition INUM_WDT : Z := 8.
Definition INUM_TIMER_FRC1 : Z := 9.
Definition INUM_TIMER_FRC2 : Z := 10.

Inductive gpio_inttype_t :=
  | GPIO_INTTYPE_NONE
  | GPIO_INTTYPE_EDGE_POS
  | GPIO_INTTYPE_EDGE_NEG
  | GPIO_INTTYPE_EDGE_ANY
  | GPIO_INTTYPE_LEVEL_LOW
  | GPIO_INTTYPE_LEVEL_HIGH.
Definition inttype_value (t : gpio_inttype_t) : Z :=
  match t with
  | GPIO_INTTYPE_NONE => 0
  | GPIO_INTTYPE_EDGE_POS => 1
  | GPIO_INTTYPE_EDGE_NEG => 2
  | GPIO_INTTYPE_EDGE_ANY => 3
  | GPIO_INTTYPE_LEVEL_LOW => 4
  | GPIO_INTTYPE_LEVEL_HIGH => 5
  end.

(** ** Pin numbers *)

Definition IOMUX_TO_GPIO : list Z := [12; 13; 14; 15; 3; 1; 6; 7; 8; 9; 10; 11; 0; 2; 4; 5].
Definition GPIO_TO_IOMUX : list Z := [12; 5; 13; 4; 14; 15; 6; 7; 8; 9; 10; 11; 0; 1; 2; 3].
Definition gpio_to_iomux (gpio_number : Z) : option Z := GPIO_TO_IOMUX !! Z.to_nat gpio_number.
Definition iomux_to_gpio (iomux_number : Z) : option Z := IOMUX_TO_GPIO !! Z.to_nat iomux_number.

(** ** Access to the state *)

Section access.
Context {H E : Type} `{!Pads E}.

Definition set_gpio (g : gpio_regs) (s : soc H E) : soc H E :=
  Soc g (frc s) (INT_ENABLE s) (INTENABLE s) (INTERRUPT s) (isr s) (esp_in_isr s) (pad_update (gpio s) g (world s)).
Definition set_frc (f : Z -> timer_regs) (s : soc H E) : soc H E :=
  Soc (gpio s) f (INT_ENABLE s) (INTENABLE s) (INTERRUPT s) (isr s) (esp_in_isr s) (world s).
Definition set_INT_ENABLE (v : Z) (s : soc H E) : soc H E :=
  Soc (gpio s) (frc s) v (INTENABLE s) (INTERRUPT s) (isr s) (esp_in_isr s) (world s).
Definition set_INTENABLE (v : Z) (s : soc H E) : soc H E :=
  Soc (gpio s) (frc s) (INT_ENABLE s) v (INTERRUPT s) (isr s) (esp_in_isr s) (world s).
Definition set_INTERRUPT (v : Z) (s : soc H E) : soc H E :=
  Soc (gpio s) (frc s) (INT_ENABLE s) (INTENABLE s) v (isr s) (esp_in_isr s) (world s).
Definition set_isr (t : Z -> option H) (s : soc H E) : soc H E :=
  Soc (gpio s) (frc s) (INT_ENABLE s) (INTENABLE s) (INTERRUPT s) t (esp_in_isr s) (world s).
Definition set_in_isr (b : bool) (s : soc H E) : soc H E :=
  Soc (gpio s) (frc s) (INT_ENABLE s) (INTENABLE s) (INTERRUPT s) (isr s) b (world s).
Definition set_world (e : E) (s : soc H E) : soc H E :=
  Soc (gpio s) (frc s) (INT_ENABLE s) (INTENABLE s) (INTERRUPT s) (isr s) (esp_in_isr s) e.

Definition with_OUT (v : Z) (g : gpio_regs) : gpio_regs :=
  {| OUT := v; ENABLE_OUT := ENABLE_OUT g; STATUS := STATUS g; CONF := CONF g; PIN := PIN g |}.
Definition with_ENABLE_OUT (v : Z) (g : gpio_regs) : gpio_regs :=
  {| OUT := OUT g; ENABLE_OUT := v; STATUS := STATUS g; CONF := CONF g; PIN := PIN g |}.
Definition with_STATUS (v : Z) (g : gpio_regs) : gpio_regs :=
  {| OUT := OUT g; ENABLE_OUT := ENABLE_OUT g; STATUS := v; CONF := CONF g; PIN := PIN g |}.
Definition with_CONF (i v : Z) (g : gpio_regs) : gpio_regs :=
  {| OUT := OUT g; ENABLE_OUT := ENABLE_OUT g; STATUS := STATUS g;
     CONF := fun j => if j =? i then v else CONF g j; PIN := PIN g |}.
Definition with_PIN (i v : Z) (g : gpio_regs) : gpio_regs :=
  {| OUT := OUT g; ENABLE_OUT := ENABLE_OUT g; STATUS := STATUS g; CONF := CONF g;
     PIN := fun j => if j =? i then v else PIN g j |}.

Definition write_gpio (f : gpio_regs -> gpio_regs) : ST (soc H E) unit :=
  st_modify (fun s => set_gpio (f (gpio s)) s).
Definition write_OUT_SET (v : Z) : ST (soc H E) unit := write_gpio (fun g => with_OUT (Z.lor (OUT g) v) g).
Definition write_OUT_CLEAR (v : Z) : ST (soc H E) unit := write_gpio (fun g => with_OUT (Z.ldiff (OUT g) v) g).
Definition write_ENABLE_OUT_SET (v : Z) : ST (soc H E) unit :=
  write_gpio (fun g => with_ENABLE_OUT (Z.lor (ENABLE_OUT g) v) g).
Definition write_ENABLE_OUT_CLEAR (v : Z) : ST (soc H E) unit :=
  write_gpio (fun g => with_ENABLE_OUT (Z.ldiff (ENABLE_OUT g) v) g).
Definition write_STATUS_CLEAR (v : Z) : ST (soc H E) unit :=
  write_gpio (fun g => with_STATUS (Z.ldiff (STATUS g) v) g).
(** The arrays have 16 elements. *)
Definition write_CONF (i : Z) (f : Z -> Z) : ST (soc H E) unit :=
  if (0 <=? i) && (i <? 16) then write_gpio (fun g => with_CONF i (f (CONF g i)) g) else fun _ => None.
Definition write_PIN (i : Z) (f : Z -> Z) : ST (soc H E) unit :=
  if (0 <=? i) && (i <? 16) then write_gpio (fun g => with_PIN i (f (PIN g i)) g) else fun _ => None.
Definition read_CONF (i : Z) : ST (soc H E) Z :=
  if (0 <=? i) && (i <? 16) then s ← st_get; mret (CONF (gpio s) i) else fun _ => None.
Definition read_IN : ST (soc H E) Z := fun s =>
  let '(v, e) := pad_in (gpio s) (world s) in Some (v, set_world e s).
Definition opt {A} (x : option A) : ST (soc H E) A := fun s =>
  match x with Some x => Some (x, s) | None => None end.

(** ** IOMUX (iomux.h) *)

Definition iomux_set_function (iomux_num iomux_func : Z) : ST (soc H E) unit :=
  write_PIN iomux_num (fun v => Z.lor iomux_func (Z.ldiff v IOMUX_PIN_FUNC_MASK)).
Definition iomux_set_direction_flags (iomux_num dir_flags : Z) : ST (soc H E) unit :=
  let mask := Z.lor IOMUX_PIN_OUTPUT_ENABLE IOMUX_PIN_OUTPUT_ENABLE_SLEEP in
  write_PIN iomux_num (fun v => Z.lor dir_flags (Z.ldiff v mask)).
Definition iomux_set_pullup_flags (iomux_num pullup_flags : Z) : ST (soc H E) unit :=
  let mask := Z.lor (Z.lor (Z.lor IOMUX_PIN_PULLUP IOMUX_PIN_PULLDOWN) IOMUX_PIN_PULLUP_SLEEP)
                    IOMUX_PIN_PULLDOWN_SLEEP in
  write_PIN iomux_num (fun v => Z.lor pullup_flags (Z.ldiff v mask)).
Definition iomux_set_gpio_function (gpio_number : Z) (output_enable : bool) : ST (soc H E) unit :=
  iomux_num ← opt (gpio_to_iomux gpio_number);
  let func := if 11 <? iomux_num then IOMUX_FUNC 0 else IOMUX_FUNC 3 in
  iomux_set_function iomux_num func;;
  iomux_set_direction_flags iomux_num (if output_enable then IOMUX_PIN_OUTPUT_ENABLE else 0).

(** ** GPIO (gpio.h, esp_gpio.c) *)

Definition esp_gpio_enable (gpio_num : Z) (direction : gpio_direction_t) : ST (soc H E) unit :=
  match direction with
  | GPIO_INPUT =>
      write_ENABLE_OUT_CLEAR (BIT gpio_num);;
      iomux_set_gpio_function gpio_num false
  | GPIO_OUTPUT =>
      write_CONF gpio_num (fun v => Z.ldiff v GPIO_CONF_OPEN_DRAIN);;
      write_ENABLE_OUT_SET (BIT gpio_num);;
      iomux_set_gpio_function gpio_num true
  | GPIO_OUT_OPEN_DRAIN =>
      write_CONF gpio_num (fun v => Z.lor v GPIO_CONF_OPEN_DRAIN);;
      write_ENABLE_OUT_SET (BIT gpio_num);;
      iomux_set_gpio_function gpio_num true
  end.
Definition esp_gpio_set_pullup (gpio_num : Z) (enabled enabled_during_sleep : bool) : ST (soc H E) unit :=
  let flags := if enabled then IOMUX_PIN_PULLUP else 0 in
  let flags := if enabled_during_sleep then Z.lor flags IOMUX_PIN_PULLUP_SLEEP else flags in
  iomux_num ← opt (gpio_to_iomux gpio_num);
  iomux_set_pullup_flags iomux_num flags.
Definition gpio_disable (gpio_num : Z) : ST (soc H E) unit :=
  write_ENABLE_OUT_CLEAR (BIT gpio_num);;
  iomux_num ← opt (gpio_to_iomux gpio_num);
  write_PIN iomux_num (fun v => Z.ldiff v IOMUX_PIN_OUTPUT_ENABLE).
Definition gpio_set_output_on_sleep (gpio_num : Z) (enabled : bool) : ST (soc H E) unit :=
  iomux_num ← opt (gpio_to_iomux gpio_num);
  write_PIN iomux_num (fun v => if enabled then Z.lor v IOMUX_PIN_OUTPUT_ENABLE_SLEEP
                                else Z.ldiff v IOMUX_PIN_OUTPUT_ENABLE_SLEEP).
Definition esp_gpio_write (gpio_num : Z) (set : bool) : ST (soc H E) unit :=
  if set then write_OUT_SET (Z.land (BIT gpio_num) GPIO_OUT_PIN_MASK)
  else write_OUT_CLEAR (Z.land (BIT gpio_num) GPIO_OUT_PIN_MASK).
Definition gpio_toggle (gpio_num : Z) : ST (soc H E) unit :=
  s ← st_get;
  if negb (Z.land (OUT (gpio s)) (BIT gpio_num) =? 0)
  then write_OUT_CLEAR (Z.land (BIT gpio_num) GPIO_OUT_PIN_MASK)
  else write_OUT_SET (Z.land (BIT gpio_num) GPIO_OUT_PIN_MASK).
Definition esp_gpio_read (gpio_num : Z) : ST (soc H E) bool :=
  levels ← read_IN;
  mret (negb (Z.land levels (BIT gpio_num) =? 0)).
Definition gpio_set_iomux_function (gpio_num func : Z) : ST (soc H E) unit :=
  iomux_num ← opt (gpio_to_iomux gpio_num);
  write_PIN iomux_num (fun v => Z.lor func (Z.ldiff v IOMUX_PIN_FUNC_MASK)).

(** ** Interrupts (interrupts.h, esp_interrupts.c, esp_gpio_interrupts.c) *)

Definition _xt_isr_unmask (unmask : Z) : ST (soc H E) unit :=
  st_modify (fun s => set_INTENABLE (Z.lor (INTENABLE s) unmask) s).
Definition _xt_isr_mask (mask : Z) : ST (soc H E) unit :=
  st_modify (fun s => set_INTENABLE (Z.ldiff (INTENABLE s) mask) s).
Definition _xt_read_ints : ST (soc H E) Z := s ← st_get; mret (INTERRUPT s).
Definition _xt_clear_ints (mask : Z) : ST (soc H E) unit :=
  st_modify (fun s => set_INTERRUPT (Z.ldiff (INTERRUPT s) mask) s).

Definition _xt_isr_attach (i : Z) (func : option H) : ST (soc H E) unit :=
  if (0 <=? i) && (i <? 16) then st_modify (fun s => set_isr (fun j => if j =? i then func else isr s j) s)
  else fun _ => None.

(** __builtin_ffs: one plus the index of the lowest bit that is set. *)
Fixpoint ffs_from (n : nat) (i x : Z) : Z :=
  match n with
  | O => 0
  | S n => if Z.testbit x i then i + 1 else ffs_from n (i + 1) x
  end.
Definition ffs (x : Z) : Z := ffs_from 32 0 x.

Section handlers.
Context `{!Handlers H E}.

(** [isr[index]()] *)
Definition call_index (index : Z) : ST (soc H E) unit :=
  s ← st_get;
  match isr s index with Some h => call_isr h | None => fun _ => None end.

(** [while(intset)]: each turn takes a bit off. *)
Fixpoint isr_loop (fuel : nat) (intset : Z) : ST (soc H E) unit :=
  if intset =? 0 then mret ()
  else
    match fuel with
    | O => fun _ => None
    | S fuel =>
        let index := ffs intset - 1 in
        let mask := BIT index in
        _xt_clear_ints mask;;
        call_index index;;
        isr_loop fuel (u16 (intset - mask))
    end.
Definition _xt_isr_handler (intset : Z) : ST (soc H E) Z :=
  st_modify (set_in_isr true);;
  intset ← (if negb (Z.land intset (BIT INUM_WDT) =? 0) then
              _xt_clear_ints (BIT INUM_WDT);;
              call_index INUM_WDT;;
              mret (u16 (intset - BIT INUM_WDT))
            else mret intset);
  isr_loop 16 intset;;
  st_modify (set_in_isr false);;
  mret 0.

Fixpoint gpio_isr_loop (fuel : nat) (status_reg : Z) : ST (soc H E) unit :=
  let gpio_idx := ffs status_reg in
  if gpio_idx =? 0 then mret ()
  else
    match fuel with
    | O => fun _ => None
    | S fuel =>
        let gpio_idx := gpio_idx - 1 in
        let status_reg := Z.ldiff status_reg (BIT gpio_idx) in
        conf ← read_CONF gpio_idx;
        (if negb (FIELD2VAL GPIO_CONF_INTTYPE_M GPIO_CONF_INTTYPE_S conf =? 0)
         then gpioxx_interrupt_handler gpio_idx else mret ());;
        gpio_isr_loop fuel status_reg
    end.
Definition gpio_interrupt_handler : ST (soc H E) unit :=
  s ← st_get;
  let status_reg := STATUS (gpio s) in
  write_STATUS_CLEAR status_reg;;
  gpio_isr_loop 32 status_reg.

Definition gpio_set_interrupt (gpio_num : Z) (int_type : gpio_inttype_t) : ST (soc H E) unit :=
  write_CONF gpio_num (fun v => SET_FIELD v GPIO_CONF_INTTYPE_M GPIO_CONF_INTTYPE_S (inttype_value int_type));;
  match int_type with
  | GPIO_INTTYPE_NONE => mret ()
  | _ =>
      _xt_isr_attach INUM_GPIO (Some gpio_isr);;
      _xt_isr_unmask (BIT INUM_GPIO)
  end.
Definition gpio_get_interrupt (gpio_num : Z) : ST (soc H E) Z :=
  conf ← read_CONF gpio_num;
  mret (FIELD2VAL GPIO_CONF_INTTYPE_M GPIO_CONF_INTTYPE_S conf).
End handlers.
End access.

(** The environment of the drivers in [Gpio]. *)
#[export] Instance esp_pins {H E} `{!Pads E} : Pin (soc H E) := {|
  gpio_enable := esp_gpio_enable;
  gpio_set_pullup := esp_gpio_set_pullup;
  gpio_write := esp_gpio_write;
  gpio_read := esp_gpio_read;
  sdk_os_delay_us := fun us s => Some ((), set_world (pad_delay us (world s)) s);
  taskENTER_CRITICAL := fun s => Some ((), s);
  taskEXIT_CRITICAL := fun s => Some ((), s)
|}.
