(* ===== verification/EspGpio.v ===== *)
(** * What the GPIO functions do to the pins

    [drives] is what a pin puts on its wire.  The functions of gpio.h change it for
    their pin as their comments say and leave the other pins, the pull-ups and the
    output latches alone ([gpio_enable_drives]); every register keeps to its width
    (the theorem is in [EspInterrupts]). *)

From S2P Require Import Prelude Gpio EspRegs.
Local Open Scope Z_scope.

(** ** Bits of a register *)

Lemma land_const_eq x m f k : 0 <= k -> 0 <= m < 2 ^ k -> 0 <= f < 2 ^ k ->
  (forall n, 0 <= n < k -> Z.testbit (Z.land x m) n = Z.testbit f n) -> Z.land x m = f.
Proof.
  intros Hk Hm Hf Hn. apply Z.bits_inj'. intros n Hn0. destruct (Z.ltb_spec n k); [by apply Hn|].
  rewrite Z.land_spec, (testbit_high m k n), (testbit_high f k n) by lia. apply andb_false_r.
Qed.
Lemma BIT_spec p q : 0 <= p -> 0 <= q -> Z.testbit (BIT p) q = (p =? q).
Proof. intros. unfold BIT. rewrite Z.shiftl_1_l, Z.pow2_bits_eqb by lia. by rewrite Z.eqb_sym. Qed.
Lemma land_BIT x p : 0 <= p -> negb (Z.land x (BIT p) =? 0) = Z.testbit x p.
Proof.
  intros Hp. destruct (Z.testbit x p) eqn:E.
  - apply negb_true_iff, Z.eqb_neq. intros H. apply (f_equal (fun y => Z.testbit y p)) in H.
    rewrite Z.land_spec, BIT_spec, E, Z.eqb_refl, Z.bits_0 in H by lia. done.
  - apply negb_false_iff, Z.eqb_eq, Z.bits_inj'. intros n Hn. rewrite Z.land_spec, BIT_spec, Z.bits_0 by lia.
    destruct (Z.eqb_spec p n) as [->|]; [by rewrite E|apply andb_false_r].
Qed.
Lemma out_pin_mask p : 0 <= p < 16 -> Z.land (BIT p) GPIO_OUT_PIN_MASK = BIT p.
Proof.
  intros Hp. apply Z.eqb_eq.
  exact (below_check 16 (fun p => Z.land (BIT p) GPIO_OUT_PIN_MASK =? BIT p) p eq_refl Hp).
Qed.

(** The register of a pin in the I/O multiplexer, and the value that selects GPIO. *)
Definition mux_of (p : Z) : Z := default 0 (gpio_to_iomux p).
Definition gpio_func (i : Z) : Z := if 11 <? i then IOMUX_FUNC 0 else IOMUX_FUNC 3.

Lemma mux_some p : 0 <= p < 16 -> gpio_to_iomux p = Some (mux_of p) /\ 0 <= mux_of p < 16.
Proof.
  intros Hp. pose proof (below_check 16 (fun p => bool_decide (gpio_to_iomux p = Some (mux_of p)) &&
    (0 <=? mux_of p) && (mux_of p <? 16)) p eq_refl Hp) as H. cbv beta in H. zbool.
  split; [by eapply bool_decide_eq_true_1|lia].
Qed.
(** The two tables are inverse to each other. *)
Lemma mux_inverse p : 0 <= p < 16 -> iomux_to_gpio (mux_of p) = Some p.
Proof.
  intros Hp. eapply bool_decide_eq_true_1.
  exact (below_check 16 (fun p => bool_decide (iomux_to_gpio (mux_of p) = Some p)) p eq_refl Hp).
Qed.
Lemma mux_inj p q : 0 <= p < 16 -> 0 <= q < 16 -> mux_of p = mux_of q -> p = q.
Proof. intros Hp Hq E. pose proof (mux_inverse p Hp) as Ip. rewrite E, (mux_inverse q Hq) in Ip. congruence. Qed.

(** ** What a pin puts on its wire *)

(** The output of a pin is on when the pin is given to GPIO, its buffer is enabled,
    and GPIO enables it. *)
Definition output_on (g : gpio_regs) (p : Z) : bool :=
  Z.testbit (ENABLE_OUT g) p && Z.testbit (PIN g (mux_of p)) 0 &&
  (Z.land (PIN g (mux_of p)) IOMUX_PIN_FUNC_MASK =? gpio_func (mux_of p)).
(** [None] is a pin that floats. *)
Definition drives (g : gpio_regs) (p : Z) : option bool :=
  if output_on g p then
    if Z.testbit (OUT g) p then if Z.testbit (CONF g p) 2 then None else Some true
    else Some false
  else None.
(** The pull-ups and pull-downs of a pin. *)
Definition pulls (g : gpio_regs) (p : Z) : Z := Z.land (PIN g (mux_of p)) 0xcc.

(** The value of an IOMUX register that gpio_enable leaves. *)
Definition mux_value (func flags v : Z) : Z := Z.lor flags (Z.ldiff (Z.lor func (Z.ldiff v IOMUX_PIN_FUNC_MASK)) 3).
Ltac nine n := (let H := fresh in assert (H : n = 0 \/ n = 1 \/ n = 2 \/ n = 3 \/ n = 4 \/ n = 5 \/ n = 6 \/ n = 7 \/ n = 8) by lia;
  destruct H as [->|[->|[->|[->|[->|[->|[->|[->| ->]]]]]]]]).
Ltac bit_cases v b Hf := destruct Hf as [->| ->]; destruct b;
  repeat match goal with |- context [Z.testbit v ?k] => destruct (Z.testbit v k) end; reflexivity.
Lemma mux_value_fields i (b : bool) v :
  let v' := mux_value (gpio_func i) (Z.b2z b) v in
  Z.testbit v' 0 = b /\ Z.land v' IOMUX_PIN_FUNC_MASK = gpio_func i /\ Z.land v' 0xcc = Z.land v 0xcc.
Proof.
  assert (Hf : gpio_func i = 0 \/ gpio_func i = 0x30) by (unfold gpio_func; destruct (11 <? i); auto).
  intros v'. unfold v', mux_value. split_and!.
  - rewrite Z.lor_spec, Z.ldiff_spec. by destruct b; destruct Hf as [->| ->]; rewrite andb_false_r.
  - apply (land_const_eq _ _ _ 9); [lia|done|by destruct Hf as [->| ->]|]. intros n Hn. nine n;
    rewrite Z.land_spec, Z.lor_spec, Z.ldiff_spec, Z.lor_spec, Z.ldiff_spec; by bit_cases v b Hf.
  - apply Z.bits_inj'. intros n Hn0. rewrite !Z.land_spec. destruct (Z.ltb_spec n 9) as [Hn|Hn].
    + nine n; rewrite Z.lor_spec, Z.ldiff_spec, Z.lor_spec, Z.ldiff_spec; by bit_cases v b Hf.
    + rewrite (testbit_high 0xcc 9 n) by lia. by rewrite !andb_false_r.
Qed.

(** ** The functions as writes of registers *)

Definition clear_enable (p : Z) (g : gpio_regs) : gpio_regs := with_ENABLE_OUT (Z.ldiff (ENABLE_OUT g) (BIT p)) g.
Definition set_enable (p : Z) (g : gpio_regs) : gpio_regs := with_ENABLE_OUT (Z.lor (ENABLE_OUT g) (BIT p)) g.
Definition conf_drain (p : Z) (drain : bool) (g : gpio_regs) : gpio_regs :=
  with_CONF p (if drain then Z.lor (CONF g p) GPIO_CONF_OPEN_DRAIN else Z.ldiff (CONF g p) GPIO_CONF_OPEN_DRAIN) g.
Definition mux_gpio (i : Z) (g : gpio_regs) : gpio_regs :=
  with_PIN i (Z.lor (gpio_func i) (Z.ldiff (PIN g i) IOMUX_PIN_FUNC_MASK)) g.
Definition mux_flags (i : Z) (b : bool) (g : gpio_regs) : gpio_regs :=
  with_PIN i (Z.lor (Z.b2z b) (Z.ldiff (PIN g i) 3)) g.
Definition enable_writes (p : Z) (dir : gpio_direction_t) : list (gpio_regs -> gpio_regs) :=
  match dir with
  | GPIO_INPUT => [clear_enable p; mux_gpio (mux_of p); mux_flags (mux_of p) false]
  | GPIO_OUTPUT => [conf_drain p false; set_enable p; mux_gpio (mux_of p); mux_flags (mux_of p) true]
  | GPIO_OUT_OPEN_DRAIN => [conf_drain p true; set_enable p; mux_gpio (mux_of p); mux_flags (mux_of p) true]
  end.

Section gpio.
Context {H E : Type} `{!Pads E}.
Implicit Types s : soc H E.

Definition do_writes (fs : list (gpio_regs -> gpio_regs)) (s : soc H E) : soc H E :=
  fold_left (fun s f => set_gpio (f (gpio s)) s) fs s.
Lemma do_writes_gpio fs s : gpio (do_writes fs s) = fold_left (fun g f => f g) fs (gpio s).
Proof. revert s; induction fs as [|f fs IH]; intros s; [done|]. apply (IH (set_gpio (f (gpio s)) s)). Qed.

Lemma write_PIN_run i f s : 0 <= i < 16 ->
  write_PIN i f s = Some ((), set_gpio (with_PIN i (f (PIN (gpio s) i)) (gpio s)) s).
Proof. intros Hi. unfold write_PIN. rewrite (proj2 (Z.leb_le 0 i)), (proj2 (Z.ltb_lt i 16)) by lia. done. Qed.
Lemma write_CONF_run i f s : 0 <= i < 16 ->
  write_CONF i f s = Some ((), set_gpio (with_CONF i (f (CONF (gpio s) i)) (gpio s)) s).
Proof. intros Hi. unfold write_CONF. rewrite (proj2 (Z.leb_le 0 i)), (proj2 (Z.ltb_lt i 16)) by lia. done. Qed.
Lemma opt_mux_run {A} p (f : Z -> ST (soc H E) A) s : 0 <= p < 16 -> (opt (gpio_to_iomux p) ≫= f) s = f (mux_of p) s.
Proof. intros Hp. unfold mbind, st_bind, opt. by rewrite (proj1 (mux_some p Hp)). Qed.

Lemma mux_function_run p (b : bool) s : 0 <= p < 16 ->
  iomux_set_gpio_function p b s = Some ((), do_writes [mux_gpio (mux_of p); mux_flags (mux_of p) b] s).
Proof.
  intros Hp. unfold iomux_set_gpio_function, iomux_set_function, iomux_set_direction_flags.
  rewrite opt_mux_run by done. destruct (mux_some p Hp) as [_ Hm].
  rewrite (bind_run _ _ _ _ _ (write_PIN_run _ _ s Hm)), write_PIN_run by done. by destruct b.
Qed.
Lemma gpio_enable_run p dir s : 0 <= p < 16 ->
  esp_gpio_enable p dir s = Some ((), do_writes (enable_writes p dir) s).
Proof.
  intros Hp. destruct dir; unfold esp_gpio_enable.
  - rewrite (bind_run _ _ s () (do_writes [clear_enable p] s)) by done. by rewrite mux_function_run.
  - rewrite (bind_run _ _ _ _ _ (write_CONF_run _ _ s Hp)).
    rewrite (bind_run _ _ _ () (do_writes [conf_drain p false; set_enable p] s)) by done. by rewrite mux_function_run.
  - rewrite (bind_run _ _ _ _ _ (write_CONF_run _ _ s Hp)).
    rewrite (bind_run _ _ _ () (do_writes [conf_drain p true; set_enable p] s)) by done. by rewrite mux_function_run.
Qed.
Lemma gpio_write_run p (b : bool) s : 0 <= p < 16 ->
  esp_gpio_write p b s =
    Some ((), set_gpio (with_OUT (if b then Z.lor (OUT (gpio s)) (BIT p) else Z.ldiff (OUT (gpio s)) (BIT p)) (gpio s)) s).
Proof. intros Hp. unfold esp_gpio_write. rewrite out_pin_mask by done. by destruct b. Qed.
Lemma gpio_read_run p s : 0 <= p ->
  esp_gpio_read p s = Some (Z.testbit (pad_in (gpio s) (world s)).1 p, set_world (pad_in (gpio s) (world s)).2 s).
Proof.
  intros Hp. unfold esp_gpio_read, read_IN, mbind, st_bind, mret, st_ret.
  destruct (pad_in (gpio s) (world s)) as [v e]. by rewrite land_BIT.
Qed.
End gpio.

(** *** Bits after a write *)

Lemma set_bit_spec x p q : 0 <= p -> 0 <= q -> Z.testbit (Z.lor x (BIT p)) q = Z.testbit x q || (p =? q).
Proof. intros. by rewrite Z.lor_spec, BIT_spec. Qed.
Lemma clear_bit_spec x p q : 0 <= p -> 0 <= q -> Z.testbit (Z.ldiff x (BIT p)) q = Z.testbit x q && negb (p =? q).
Proof. intros. by rewrite Z.ldiff_spec, BIT_spec. Qed.
#[export] Hint Rewrite set_bit_spec clear_bit_spec using lia : esp_bits.

Definition is_output (dir : gpio_direction_t) : bool := match dir with GPIO_INPUT => false | _ => true end.

(** What gpio_enable leaves in the registers. *)
Lemma enable_regs p dir g (g' := fold_left (fun g f => f g) (enable_writes p dir) g) : 0 <= p < 16 ->
  OUT g' = OUT g /\ STATUS g' = STATUS g /\
  ENABLE_OUT g' = match dir with GPIO_INPUT => Z.ldiff (ENABLE_OUT g) (BIT p) | _ => Z.lor (ENABLE_OUT g) (BIT p) end /\
  (forall i, CONF g' i = if i =? p then
     match dir with
     | GPIO_INPUT => CONF g i
     | GPIO_OUTPUT => Z.ldiff (CONF g i) GPIO_CONF_OPEN_DRAIN
     | GPIO_OUT_OPEN_DRAIN => Z.lor (CONF g i) GPIO_CONF_OPEN_DRAIN
     end else CONF g i) /\
  (forall i, PIN g' i = if i =? mux_of p then
     mux_value (gpio_func i) (Z.b2z (is_output dir)) (PIN g i) else PIN g i).
Proof.
  intros Hp. unfold g', mux_value. destruct dir; cbn [enable_writes fold_left]; split_and!; try done; intros i;
    unfold clear_enable, set_enable, conf_drain, mux_gpio, mux_flags; cbn [OUT CONF PIN with_PIN with_CONF with_ENABLE_OUT];
    rewrite ?Z.eqb_refl; repeat (case_match; try done); by zbool; subst.
Qed.

Lemma drives_other g g' p q : 0 <= p < 16 -> 0 <= q < 16 -> q <> p ->
  Z.testbit (OUT g') q = Z.testbit (OUT g) q -> Z.testbit (ENABLE_OUT g') q = Z.testbit (ENABLE_OUT g) q ->
  CONF g' q = CONF g q -> (forall i, i <> mux_of p -> PIN g' i = PIN g i) ->
  drives g' q = drives g q /\ pulls g' q = pulls g q.
Proof.
  intros Hp Hq Hne HO HE HC HP. assert (Hm : PIN g' (mux_of q) = PIN g (mux_of q)).
  { apply HP. intros E. apply Hne. by apply mux_inj. }
  unfold drives, output_on, pulls. by rewrite HO, HE, HC, Hm.
Qed.

(** ** The theorems *)

(** What a pin in a direction puts on its wire, by the output latch. *)
Definition driven (dir : gpio_direction_t) (latch : bool) : option bool :=
  match dir with
  | GPIO_INPUT => None
  | GPIO_OUTPUT => Some latch
  | GPIO_OUT_OPEN_DRAIN => if latch then None else Some false
  end.

Lemma enable_drives p dir g (g' := fold_left (fun g f => f g) (enable_writes p dir) g) : 0 <= p < 16 ->
  drives g' p = driven dir (Z.testbit (OUT g) p) /\ output_on g' p = is_output dir /\
  Z.testbit (CONF g' p) 2 = (match dir with
    | GPIO_INPUT => Z.testbit (CONF g p) 2 | GPIO_OUTPUT => false | GPIO_OUT_OPEN_DRAIN => true end) /\
  pulls g' p = pulls g p /\
  forall q, 0 <= q < 16 -> q <> p -> drives g' q = drives g q /\ pulls g' q = pulls g q.
Proof.
  intros Hp. destruct (enable_regs p dir g Hp) as (EO & _ & EE & EC & EP). fold g' in EO, EE, EC, EP.
  destruct (mux_value_fields (mux_of p) (is_output dir) (PIN g (mux_of p)))
    as (F0 & F1 & F2). specialize (EP (mux_of p)) as EPp. rewrite Z.eqb_refl in EPp. rewrite <- EPp in F0, F1, F2.
  assert (HC : Z.testbit (CONF g' p) 2 = match dir with
    | GPIO_INPUT => Z.testbit (CONF g p) 2 | GPIO_OUTPUT => false | GPIO_OUT_OPEN_DRAIN => true end).
  { rewrite EC, Z.eqb_refl. change GPIO_CONF_OPEN_DRAIN with (BIT 2).
    destruct dir; autorewrite with esp_bits; by rewrite ?andb_false_r, ?orb_true_r. }
  assert (HE : output_on g' p = is_output dir).
  { unfold output_on. rewrite F0, F1, EE, Z.eqb_refl, andb_true_r.
    destruct dir; autorewrite with esp_bits; by rewrite Z.eqb_refl, ?andb_false_r, ?orb_true_r. }
  split_and!; [|exact HE|exact HC|exact F2|].
  - unfold drives. rewrite HE, HC, EO. by destruct dir, (Z.testbit (OUT g) p).
  - intros q Hq Hne. apply (drives_other _ _ p); try done; [by rewrite EO| | |].
    + rewrite EE. destruct (Z.eqb_spec p q); [done|].
      destruct dir; autorewrite with esp_bits; rewrite (proj2 (Z.eqb_neq p q)) by done; by rewrite ?andb_true_r, ?orb_false_r.
    + rewrite EC. by rewrite (proj2 (Z.eqb_neq q p)).
    + intros i Hi. rewrite EP. by rewrite (proj2 (Z.eqb_neq i (mux_of p))).
Qed.

(** The registers that decide whether another pin is driven. *)
Lemma enable_other p dir g q (g' := fold_left (fun g f => f g) (enable_writes p dir) g) : 0 <= p < 16 -> 0 <= q < 16 -> q <> p ->
  output_on g' q = output_on g q /\ CONF g' q = CONF g q.
Proof.
  intros Hp Hq Hne. destruct (enable_regs p dir g Hp) as (_ & _ & EE & EC & EP). fold g' in EE, EC, EP.
  split; [|by rewrite EC, (proj2 (Z.eqb_neq q p))]. unfold output_on. rewrite EP, EE.
  rewrite (proj2 (Z.eqb_neq (mux_of q) (mux_of p))) by (intros E; apply Hne; by apply mux_inj).
  f_equal. f_equal. destruct dir; autorewrite with esp_bits; rewrite (proj2 (Z.eqb_neq p q)) by congruence;
    by rewrite ?andb_true_r, ?orb_false_r.
Qed.

Lemma write_drives p (b : bool) g
    (g' := with_OUT (if b then Z.lor (OUT g) (BIT p) else Z.ldiff (OUT g) (BIT p)) g) : 0 <= p < 16 ->
  drives g' p = (if output_on g p then if b && Z.testbit (CONF g p) 2 then None else Some b else None) /\
  Z.testbit (OUT g') p = b /\ pulls g' p = pulls g p /\
  forall q, 0 <= q < 16 -> q <> p -> drives g' q = drives g q /\ pulls g' q = pulls g q /\
    Z.testbit (OUT g') q = Z.testbit (OUT g) q.
Proof.
  intros Hp. assert (HO : forall q, 0 <= q -> Z.testbit (OUT g') q = if p =? q then b else Z.testbit (OUT g) q).
  { intros q Hq. unfold g'. cbn [OUT with_OUT]. destruct b; autorewrite with esp_bits; destruct (p =? q);
      by rewrite ?orb_true_r, ?orb_false_r, ?andb_true_r, ?andb_false_r. }
  split_and!; [| |done|].
  - unfold drives. rewrite HO, Z.eqb_refl by lia. change (output_on g' p) with (output_on g p).
    change (CONF g' p) with (CONF g p). by destruct (output_on g p), b, (Z.testbit (CONF g p) 2).
  - by rewrite HO, Z.eqb_refl by lia.
  - intros q Hq Hne. assert (Hq' : Z.testbit (OUT g') q = Z.testbit (OUT g) q).
    { rewrite HO by lia. by rewrite (proj2 (Z.eqb_neq p q)). }
    destruct (drives_other g g' p q Hp Hq Hne Hq' eq_refl eq_refl ltac:(done)) as [Ed Ep]. done.
Qed.

(** Everything but the GPIO registers and the world. *)
Definition same_cpu {H E} (s s' : soc H E) : Prop :=
  frc s' = frc s /\ INT_ENABLE s' = INT_ENABLE s /\ INTENABLE s' = INTENABLE s /\ INTERRUPT s' = INTERRUPT s /\
  isr s' = isr s /\ esp_in_isr s' = esp_in_isr s.

Lemma same_cpu_trans {H E} (s1 s2 s3 : soc H E) : same_cpu s1 s2 -> same_cpu s2 s3 -> same_cpu s1 s3.
Proof. intros (?&?&?&?&?&?) (?&?&?&?&?&?). unfold same_cpu. split_and!; congruence. Qed.

Lemma do_writes_cpu {H E} `{!Pads E} fs (s : soc H E) : same_cpu s (do_writes fs s).
Proof.
  revert s; induction fs as [|f fs IH]; intros s; [by unfold same_cpu|].
  exact (IH (set_gpio (f (gpio s)) s)).
Qed.

(** Gpio_toggle writes the other level than the latch has. *)
Lemma gpio_toggle_run {H E} `{!Pads E} p (s : soc H E) : 0 <= p < 16 ->
  gpio_toggle p s = esp_gpio_write p (negb (Z.testbit (OUT (gpio s)) p)) s.
Proof.
  intros Hp. change (gpio_toggle p s) with
    ((if negb (Z.land (OUT (gpio s)) (BIT p) =? 0) then write_OUT_CLEAR (Z.land (BIT p) GPIO_OUT_PIN_MASK)
      else write_OUT_SET (Z.land (BIT p) GPIO_OUT_PIN_MASK)) s).
  rewrite land_BIT by lia. unfold esp_gpio_write. by destruct (Z.testbit (OUT (gpio s)) p).
Qed.


(** *** Types

    Registers of 32 bits; there are 16 pins that can raise an interrupt. *)

Definition word (x : Z) : Prop := 0 <= x < 2 ^ 32.
Definition regs_typed (g : gpio_regs) : Prop :=
  word (OUT g) /\ word (ENABLE_OUT g) /\ 0 <= STATUS g < 2 ^ 16 /\ (forall i, word (CONF g i)) /\ (forall i, word (PIN g i)).

Lemma word_bits x : 0 <= x -> (forall n, 32 <= n -> Z.testbit x n = false) -> word x.
Proof.
  intros Hx Hn. split; [done|]. destruct (Z.eq_dec x 0) as [->|]; [lia|].
  apply Z.log2_lt_pow2; [lia|]. destruct (Z.ltb_spec (Z.log2 x) 32); [done|].
  pose proof (Z.bit_log2 x ltac:(lia)) as Hb. by rewrite Hn in Hb.
Qed.
Lemma word_high x n : word x -> 32 <= n -> Z.testbit x n = false.
Proof. intros Hx. by apply testbit_high. Qed.
Lemma word_lor x y : word x -> word y -> word (Z.lor x y).
Proof.
  intros Hx Hy. apply word_bits; [apply Z.lor_nonneg; unfold word in *; lia|].
  intros n Hn. by rewrite Z.lor_spec, !word_high.
Qed.
Lemma word_ldiff x y : word x -> word (Z.ldiff x y).
Proof.
  intros Hx. apply word_bits; [apply Z.ldiff_nonneg; unfold word in *; lia|].
  intros n Hn. by rewrite Z.ldiff_spec, word_high.
Qed.
Lemma word_BIT p : 0 <= p < 32 -> word (BIT p).
Proof. intros Hp. unfold BIT, word. rewrite Z.shiftl_1_l. split; [lia|]. apply Z.pow_lt_mono_r; lia. Qed.
Lemma word_land x y : word x -> word (Z.land x y).
Proof.
  intros Hx. apply word_bits; [apply Z.land_nonneg; unfold word in *; lia|].
  intros n Hn. by rewrite Z.land_spec, word_high.
Qed.
#[export] Hint Resolve word_lor word_ldiff word_BIT word_land : esp.
