(* ===== verification/EspInterrupts.v ===== *)
(** * Interrupt dispatch

    _xt_isr_handler calls the handler of each pending interrupt once, the watchdog's
    first and the others from the lowest number on; gpio_interrupt_handler does the
    same for the pins.  Whatever the application calls, the GPIO registers keep to
    their types. *)

From stdpp Require Import sorting.
From S2P Require Import Prelude Gpio EspRegs EspGpio.
Local Open Scope Z_scope.

(** ** The lowest bit *)

(** The bits that are set from [k] to [w - 1], in order. *)
Definition bits_set (w k x : Z) : list Z := filter (fun i => Z.testbit x i = true) (seqZ k (w - k)).

Lemma ffs_from_spec n i x : 0 <= i ->
  (forall j, i <= j < i + Z.of_nat n -> Z.testbit x j = false) /\ ffs_from n i x = 0 \/
  exists j, i <= j < i + Z.of_nat n /\ Z.testbit x j = true /\ ffs_from n i x = j + 1 /\
    forall l, i <= l < j -> Z.testbit x l = false.
Proof.
  revert i; induction n as [|n IH]; intros i Hi; cbn [ffs_from]; [left; split; [lia|done]|].
  destruct (Z.testbit x i) eqn:E.
  - right. exists i. split_and!; [lia|lia|done|done|lia].
  - destruct (IH (i + 1)) as [[H1 H2]|(j & Hj & Ej & Hf & Hl)]; [lia| |].
    + left. split; [|done]. intros j Hj. destruct (Z.eq_dec j i) as [->|]; [done|apply H1; lia].
    + right. exists j. split_and!; [lia|lia|done|done|]. intros l Hl'.
      destruct (Z.eq_dec l i) as [->|]; [done|apply Hl; lia].
Qed.

Lemma bits_none w k x : (forall j, k <= j < w -> Z.testbit x j = false) -> bits_set w k x = [].
Proof.
  intros Hn. unfold bits_set. destruct (filter _ _) as [|i l] eqn:E; [done|].
  assert (Hi : i ∈ filter (fun i => Z.testbit x i = true) (seqZ k (w - k))) by (rewrite E; apply list_elem_of_here).
  apply list_elem_of_filter in Hi as [Hb Hi]. apply elem_of_seqZ in Hi. rewrite Hn in Hb; [done|lia].
Qed.
Lemma bits_step w k x : k < w ->
  bits_set w k x = if Z.testbit x k then k :: bits_set w (k + 1) x else bits_set w (k + 1) x.
Proof.
  intros Hk. unfold bits_set. rewrite seqZ_cons by lia. rewrite filter_cons.
  replace (Z.pred (w - k)) with (w - (k + 1)) by lia. replace (Z.succ k) with (k + 1) by lia.
  by destruct (Z.testbit x k), (decide _).
Qed.
Lemma bits_ext w k x y : (forall j, k <= j -> Z.testbit x j = Z.testbit y j) -> bits_set w k x = bits_set w k y.
Proof.
  remember (Z.to_nat (w - k)) as n eqn:En. revert k En; induction n as [|n IH]; intros k En Hj.
  { unfold bits_set. by rewrite seqZ_nil by lia. }
  rewrite !(bits_step w k), (Hj k), (IH (k + 1)) by first [lia|intros; apply Hj; lia]. done.
Qed.
Lemma bits_cons w k i x : 0 <= k <= i -> i < w -> Z.testbit x i = true ->
  (forall j, k <= j < i -> Z.testbit x j = false) ->
  bits_set w k x = i :: bits_set w (i + 1) (Z.ldiff x (BIT i)).
Proof.
  intros Hk Hi Hb Hn.
  assert (Hskip : forall n : nat, (Z.of_nat n <= i - k) -> bits_set w (i - Z.of_nat n) x = bits_set w i x).
  { induction n as [|n IH]; intros Hle; [f_equal; lia|]. rewrite bits_step, Hn by lia.
    rewrite <- IH by lia. f_equal. lia. }
  specialize (Hskip (Z.to_nat (i - k)) ltac:(lia)). replace (i - Z.of_nat (Z.to_nat (i - k))) with k in Hskip by lia.
  rewrite Hskip, bits_step, Hb by lia. f_equal. apply bits_ext. intros j Hj.
  rewrite clear_bit_spec by lia. rewrite (proj2 (Z.eqb_neq i j)) by lia. by rewrite andb_true_r.
Qed.

(** The bits below [k] being taken, ffs finds the next one. *)
Lemma ffs_next w k x : 0 <= k -> w <= 32 -> 0 <= x < 2 ^ w -> (forall j, 0 <= j < k -> Z.testbit x j = false) ->
  x = 0 /\ ffs x = 0 /\ bits_set w k x = [] \/
  exists i, k <= i < w /\ ffs x = i + 1 /\ bits_set w k x = i :: bits_set w (i + 1) (Z.ldiff x (BIT i)) /\
    0 <= Z.ldiff x (BIT i) < 2 ^ w /\ x - BIT i = Z.ldiff x (BIT i) /\
    (forall j, 0 <= j < i + 1 -> Z.testbit (Z.ldiff x (BIT i)) j = false).
Proof.
  intros Hk Hw Hx Hlow. destruct (ffs_from_spec 32 0 x ltac:(lia)) as [[Hz Hf]|(i & Hi & Hb & Hf & Hl)].
  - left. assert (x = 0) as ->; [|by rewrite bits_none by (intros; apply Z.bits_0)].
    apply Z.bits_inj'. intros n Hn. rewrite Z.bits_0. destruct (Z.ltb_spec n 32); [apply Hz; lia|].
    apply (testbit_high x w); lia.
  - right. exists i. assert (Hki : k <= i < w).
    { split.
      - destruct (Z.ltb_spec i k); [|lia]. rewrite Hlow in Hb by lia. done.
      - destruct (Z.ltb_spec i w); [lia|]. rewrite (testbit_high x w i) in Hb by lia. done. }
    assert (Hsub : x - BIT i = Z.ldiff x (BIT i)).
    { apply Z.sub_nocarry_ldiff. apply Z.bits_inj'. intros n Hn. rewrite Z.bits_0, Z.ldiff_spec, BIT_spec by lia.
      by destruct (Z.eqb_spec i n) as [->|]; [rewrite Hb|]. }
    split_and!; [lia|lia|exact Hf| | | |exact Hsub|].
    + apply bits_cons; [lia|lia|done|]. intros j Hj. apply Hl. lia.
    + apply Z.ldiff_nonneg. lia.
    + rewrite <- Hsub. unfold BIT. rewrite Z.shiftl_1_l. lia.
    + intros j Hj. rewrite clear_bit_spec by lia. destruct (Z.eqb_spec i j) as [->|]; [apply andb_false_r|].
      by rewrite Hl by lia.
Qed.

Lemma elem_of_bits w x i : 0 <= i < w -> i ∈ bits_set w 0 x <-> Z.testbit x i = true.
Proof. intros Hi. unfold bits_set. rewrite list_elem_of_filter, elem_of_seqZ. intuition lia. Qed.

(** ** The handlers *)

Definition for_each {W} (f : Z -> ST W unit) (l : list Z) : ST W unit :=
  fold_right (fun i m => f i;; m) (mret ()) l.

Section dispatch.
Context {H E : Type} `{!Pads E, !Handlers H E}.
Implicit Types s : soc H E.

Definition dispatch (index : Z) : ST (soc H E) unit :=
  _xt_clear_ints (BIT index);; call_index index.
(** The watchdog, then the others. *)
Definition isr_order (intset : Z) : list Z :=
  (if Z.testbit intset INUM_WDT then [INUM_WDT] else []) ++ bits_set 16 0 (Z.ldiff intset (BIT INUM_WDT)).

Lemma bind_ext {W A B} (m : ST W A) (f g : A -> ST W B) w : (forall x w', f x w' = g x w') -> (m ≫= f) w = (m ≫= g) w.
Proof. intros Hf. unfold mbind, st_bind. destruct (m w) as [[x w']|]; [apply Hf|done]. Qed.

Lemma isr_loop_dispatches fuel k intset s : 0 <= k -> 16 <= Z.of_nat fuel + k -> 0 <= intset < 2 ^ 16 ->
  (forall j, 0 <= j < k -> Z.testbit intset j = false) ->
  isr_loop fuel intset s = for_each dispatch (bits_set 16 k intset) s.
Proof.
  revert k intset s; induction fuel as [|fuel IH]; intros k intset s Hk Hf Hi Hlow;
    destruct (ffs_next 16 k intset Hk ltac:(lia) Hi Hlow) as [(-> & _ & ->)|(i & Hki & Ef & -> & Hr & Hsub & Hl)];
    cbn [isr_loop for_each fold_right]; try done; [lia|].
  destruct (Z.eqb_spec intset 0) as [->|_]; [rewrite Z.ldiff_0_l in Hsub; unfold BIT in Hsub;
    rewrite Z.shiftl_1_l in Hsub; pose proof (Z.pow_pos_nonneg 2 i); lia|].
  rewrite Ef. replace (i + 1 - 1) with i by lia. rewrite Hsub. unfold dispatch. rewrite bind_assoc.
  apply bind_ext. intros _ s1. apply bind_ext. intros _ s2. rewrite u16_small by lia. apply IH; [lia..|done].
Qed.

Lemma isr_order_spec intset : 0 <= intset < 2 ^ 16 ->
  NoDup (isr_order intset) /\ (forall i, 0 <= i -> i ∈ isr_order intset <-> Z.testbit intset i = true) /\
  (Z.testbit intset INUM_WDT = true -> head (isr_order intset) = Some INUM_WDT) /\
  StronglySorted Z.lt (filter (fun i => i <> INUM_WDT) (isr_order intset)).
Proof.
  intros Hi. unfold isr_order.
  assert (Hin : forall i, 0 <= i -> i ∈ bits_set 16 0 (Z.ldiff intset (BIT INUM_WDT)) <->
    Z.testbit intset i = true /\ i <> INUM_WDT).
  { intros i Hi0. destruct (Z.ltb_spec i 16).
    - rewrite elem_of_bits, clear_bit_spec, andb_true_iff by (unfold INUM_WDT; lia).
      destruct (Z.eqb_spec INUM_WDT i); simpl; intuition congruence.
    - split; [|intros [Hb _]; rewrite (testbit_high intset 16) in Hb by lia; done].
      unfold bits_set. rewrite list_elem_of_filter, elem_of_seqZ. lia. }
  assert (Hwdt : INUM_WDT ∉ bits_set 16 0 (Z.ldiff intset (BIT INUM_WDT))).
  { intros Hw. apply Hin in Hw as [_ Hne]; [done|unfold INUM_WDT; lia]. }
  assert (Hnd : NoDup (bits_set 16 0 (Z.ldiff intset (BIT INUM_WDT)))) by apply NoDup_filter, NoDup_seqZ.
  split_and!.
  - destruct (Z.testbit intset INUM_WDT); [by constructor|done].
  - intros i Hi0. rewrite elem_of_app, Hin by done.
    destruct (Z.eq_dec i INUM_WDT) as [->|Hne].
    + destruct (Z.testbit intset INUM_WDT); [rewrite list_elem_of_singleton; naive_solver|].
      split; [intros [Hn|[Hb _]]; [by apply not_elem_of_nil in Hn|done]|done].
    + destruct (Z.testbit intset INUM_WDT); [rewrite list_elem_of_singleton|rewrite elem_of_nil]; naive_solver.
  - by intros ->.
  - rewrite filter_app.
    assert (Hf : filter (fun i => i <> INUM_WDT) (if Z.testbit intset INUM_WDT then [INUM_WDT] else []) = [])
      by (by destruct (Z.testbit intset INUM_WDT)).
    rewrite Hf.
    unfold bits_set. cbn [app]. 
    eapply StronglySorted_sublist; [apply sublist_filter|].
    eapply StronglySorted_sublist; [apply sublist_filter|apply seqZ_sorted].
Qed.

(** C15: the interrupt handler of the system calls the handler of every pending
    interrupt exactly once, each after its pending bit was cleared: the watchdog's
    first, the others from the lowest number on, with the flag esp_in_isr set
    throughout and cleared at the end; and the loop ends
    for every set of the 16 interrupts. *)
Theorem isr_handler_dispatches intset s : 0 <= intset < 2 ^ 16 ->
  _xt_isr_handler intset s =
    (st_modify (set_in_isr true);; for_each dispatch (isr_order intset);; st_modify (set_in_isr false);; mret 0) s /\
  NoDup (isr_order intset) /\ (forall i, 0 <= i -> i ∈ isr_order intset <-> Z.testbit intset i = true) /\
  (Z.testbit intset INUM_WDT = true -> head (isr_order intset) = Some INUM_WDT) /\
  StronglySorted Z.lt (filter (fun i => i <> INUM_WDT) (isr_order intset)).
Proof.
  intros Hi. split; [|by apply isr_order_spec]. unfold _xt_isr_handler.
  apply bind_ext. intros _ s1. rewrite land_BIT by (unfold INUM_WDT; lia). unfold isr_order.
  destruct (Z.testbit intset INUM_WDT) eqn:Ew.
  - assert (Hsub : intset - BIT INUM_WDT = Z.ldiff intset (BIT INUM_WDT)).
    { apply Z.sub_nocarry_ldiff, Z.bits_inj'. intros n Hn. rewrite Z.bits_0, Z.ldiff_spec, BIT_spec by (unfold INUM_WDT; lia).
      by destruct (Z.eqb_spec INUM_WDT n) as [<-|]; [rewrite Ew|]. }
    pose proof (proj2 (Z.ldiff_nonneg intset (BIT INUM_WDT)) (or_introl (proj1 Hi))).
    cbn [app for_each fold_right]. unfold mbind, st_bind, mret, st_ret, _xt_clear_ints, st_modify.
    change (dispatch INUM_WDT s1) with
      (call_index INUM_WDT (set_INTERRUPT (Z.ldiff (INTERRUPT s1) (BIT INUM_WDT)) s1)).
    destruct (call_index INUM_WDT _) as [[[] s3]|]; [|done].
    rewrite Hsub, u16_small, (isr_loop_dispatches 16 0) by (change (BIT INUM_WDT) with 256 in *; lia). done.
  - rewrite (bind_run _ _ s1 intset s1) by done. cbn [app]. unfold mbind, st_bind.
    rewrite (isr_loop_dispatches 16 0) by lia.
    replace (Z.ldiff intset (BIT INUM_WDT)) with intset; [done|].
    apply Z.bits_inj'. intros n Hn. rewrite clear_bit_spec by (unfold INUM_WDT; lia).
    destruct (Z.eqb_spec INUM_WDT n) as [<-|]; [by rewrite Ew|by rewrite andb_true_r].
Qed.

(** One pin of gpio_interrupt_handler: its handler runs if the pin has an interrupt type. *)
Definition dispatch_pin (i : Z) : ST (soc H E) unit :=
  conf ← read_CONF i;
  if negb (FIELD2VAL GPIO_CONF_INTTYPE_M GPIO_CONF_INTTYPE_S conf =? 0) then gpioxx_interrupt_handler i else mret ().

Lemma gpio_isr_loop_dispatches fuel k x s : 0 <= k -> 16 <= Z.of_nat fuel + k -> 0 <= x < 2 ^ 16 ->
  (forall j, 0 <= j < k -> Z.testbit x j = false) ->
  gpio_isr_loop fuel x s = for_each dispatch_pin (bits_set 16 k x) s.
Proof.
  revert k x s; induction fuel as [|fuel IH]; intros k x s Hk Hf Hx Hlow;
    destruct (ffs_next 16 k x Hk ltac:(lia) Hx Hlow) as [(-> & _ & ->)|(i & Hki & Ef & -> & Hr & _ & Hl)];
    cbn [gpio_isr_loop for_each fold_right]; try done; [lia|].
  rewrite Ef. destruct (Z.eqb_spec (i + 1) 0); [lia|]. replace (i + 1 - 1) with i by lia.
  etransitivity; [|symmetry; exact (bind_assoc (read_CONF i) _ _ s)]. apply bind_ext. intros conf s1.
  apply bind_ext. intros [] s2. apply IH; [lia..|done].
Qed.
Lemma gpio_handler_run s : 0 <= STATUS (gpio s) < 2 ^ 16 ->
  gpio_interrupt_handler s =
    for_each dispatch_pin (bits_set 16 0 (STATUS (gpio s))) (set_gpio (with_STATUS 0 (gpio s)) s).
Proof.
  intros Hs. unfold gpio_interrupt_handler. rewrite (bind_run _ _ s s s) by done.
  rewrite (bind_run _ _ s () (set_gpio (with_STATUS 0 (gpio s)) s)).
  - apply gpio_isr_loop_dispatches; lia.
  - unfold write_STATUS_CLEAR, write_gpio, st_modify. by rewrite Z.ldiff_diag.
Qed.
End dispatch.
(** The calls of an application to gpio.h, with arguments of their types. *)
Inductive gpio_call :=
  | Enable (p : Z) (dir : gpio_direction_t)
  | SetPullup (p : Z) (enabled sleep : bool)
  | Disable (p : Z)
  | OutputOnSleep (p : Z) (enabled : bool)
  | Write (p : Z) (b : bool)
  | Toggle (p : Z)
  | Read (p : Z)
  | SetInterrupt (p : Z) (t : gpio_inttype_t)
  | SetFunction (p func : Z)
  | HandleInterrupt.
Definition call_ok (c : gpio_call) : Prop :=
  match c with
  | Enable p _ | SetPullup p _ _ | Disable p | OutputOnSleep p _ | Write p _ | Toggle p | Read p | SetInterrupt p _ =>
      0 <= p < 16
  | SetFunction p func => 0 <= p < 16 /\ word func
  | HandleInterrupt => True
  end.

Section calls.
Context {H E : Type} `{!Pads E, !Handlers H E}.
Implicit Types s : soc H E.

Definition run_call (c : gpio_call) : ST (soc H E) unit :=
  match c with
  | Enable p dir => esp_gpio_enable p dir
  | SetPullup p enabled sleep => esp_gpio_set_pullup p enabled sleep
  | Disable p => gpio_disable p
  | OutputOnSleep p enabled => gpio_set_output_on_sleep p enabled
  | Write p b => esp_gpio_write p b
  | Toggle p => gpio_toggle p
  | Read p => esp_gpio_read p;; mret ()
  | SetInterrupt p t => gpio_set_interrupt p t
  | SetFunction p func => gpio_set_iomux_function p func
  | HandleInterrupt => gpio_interrupt_handler
  end.
Fixpoint run_calls (cs : list gpio_call) : ST (soc H E) unit :=
  match cs with
  | [] => mret ()
  | c :: cs => run_call c;; run_calls cs
  end.

(** The registers stay typed, and the run returns. *)
Definition typed {A} (m : ST (soc H E) A) : Prop := forall s, regs_typed (gpio s) -> wp m (fun _ s' => regs_typed (gpio s')) s.

Lemma typed_bind {A B} (m : ST (soc H E) A) (f : A -> ST (soc H E) B) : typed m -> (forall x, typed (f x)) -> typed (m ≫= f).
Proof. intros Hm Hf s Hs. apply wp_bind. eapply wp_mono; [by apply Hm|]. intros x s' Hs'. by apply Hf. Qed.
Lemma typed_ret {A} (x : A) : typed (mret x).
Proof. intros s Hs. by apply wp_ret. Qed.
Lemma typed_get {A} (f : soc H E -> ST (soc H E) A) : (forall s, regs_typed (gpio s) -> typed (f s)) -> typed (st_get ≫= f).
Proof. intros Hf s Hs. apply wp_bind, wp_get. by apply Hf. Qed.
Lemma typed_mux {A} p (f : Z -> ST (soc H E) A) : 0 <= p < 16 -> (forall i, 0 <= i < 16 -> typed (f i)) ->
  typed (opt (gpio_to_iomux p) ≫= f).
Proof. intros Hp Hf s Hs. unfold wp. rewrite opt_mux_run by done. by apply Hf; [apply mux_some|]. Qed.
Lemma typed_write_gpio f : (forall g, regs_typed g -> regs_typed (f g)) -> typed (write_gpio f).
Proof. intros Hf s Hs. apply wp_modify. by apply Hf. Qed.
Lemma typed_write_PIN i f : 0 <= i < 16 -> (forall v, word v -> word (f v)) -> typed (write_PIN i f).
Proof.
  intros Hi Hf s (?&?&[? ?]&?&HP). unfold wp. rewrite write_PIN_run by done. split_and!; try done.
  intros j. cbn. destruct (j =? i); [by apply Hf|done].
Qed.
Lemma typed_write_CONF i f : 0 <= i < 16 -> (forall v, word v -> word (f v)) -> typed (write_CONF i f).
Proof.
  intros Hi Hf s (?&?&[? ?]&HC&?). unfold wp. rewrite write_CONF_run by done. split_and!; try done.
  intros j. cbn. destruct (j =? i); [by apply Hf|done].
Qed.
Lemma typed_cpu (f : soc H E -> soc H E) : (forall s, gpio (f s) = gpio s) -> typed (st_modify f).
Proof. intros Hf s Hs. apply wp_modify. by rewrite Hf. Qed.

Lemma typed_isr_attach i h : 0 <= i < 16 -> typed (_xt_isr_attach i h).
Proof.
  intros Hi. unfold _xt_isr_attach. rewrite (proj2 (Z.leb_le 0 i)), (proj2 (Z.ltb_lt i 16)) by lia. by apply typed_cpu.
Qed.
Lemma typed_for_each (f : Z -> ST (soc H E) unit) l : (forall i, i ∈ l -> typed (f i)) -> typed (for_each f l).
Proof.
  induction l as [|i l IH]; intros Hf; [apply typed_ret|]. apply typed_bind; [apply Hf, list_elem_of_here|].
  intros _. apply IH. intros j Hj. by apply Hf, list_elem_of_further.
Qed.
Lemma typed_dispatch_pin i : 0 <= i < 16 -> (forall j, typed (gpioxx_interrupt_handler j)) -> typed (dispatch_pin i).
Proof.
  intros Hi Hh. unfold dispatch_pin, read_CONF. rewrite (proj2 (Z.leb_le 0 i)), (proj2 (Z.ltb_lt i 16)) by lia.
  apply typed_bind; [apply typed_get; intros; apply typed_ret|]. intros v. case_match; [apply Hh|apply typed_ret].
Qed.
Lemma word_func p : word (gpio_func p).
Proof. unfold gpio_func. by destruct (11 <? p). Qed.
#[local] Hint Resolve word_func : esp.

Ltac typed_steps := repeat first
  [ apply typed_mux; [assumption|intros ? ?] | apply typed_bind; [|intros ?] | apply typed_ret
  | apply typed_write_PIN; [assumption|intros ? ?; auto 6 with esp]
  | apply typed_write_CONF; [assumption|intros ? ?; auto 6 with esp]
  | apply typed_cpu; done | progress cbv beta ].
Lemma typed_word_const x : (0 <=? x) && (x <? 2 ^ 32) = true -> word x.
Proof. intros Hx. zbool. by unfold word. Qed.
Lemma typed_OUT_SET v : word v -> typed (write_OUT_SET v).
Proof. intros Hv. apply typed_write_gpio. intros g (?&?&[? ?]&?&?). split_and!; try done. by apply word_lor. Qed.
Lemma typed_OUT_CLEAR v : typed (write_OUT_CLEAR v).
Proof. apply typed_write_gpio. intros g (?&?&[? ?]&?&?). split_and!; try done. by apply word_ldiff. Qed.
Lemma typed_ENABLE_OUT_SET v : word v -> typed (write_ENABLE_OUT_SET v).
Proof. intros Hv. apply typed_write_gpio. intros g (?&?&[? ?]&?&?). split_and!; try done. by apply word_lor. Qed.
Lemma typed_ENABLE_OUT_CLEAR v : typed (write_ENABLE_OUT_CLEAR v).
Proof. apply typed_write_gpio. intros g (?&?&[? ?]&?&?). split_and!; try done. by apply word_ldiff. Qed.

Lemma typed_enable p dir : 0 <= p < 16 -> typed (esp_gpio_enable p dir).
Proof.
  intros Hp s Hs. unfold wp. rewrite gpio_enable_run by done. rewrite do_writes_gpio.
  destruct (enable_regs p dir (gpio s) Hp) as (EO & ES & EE & EC & EP). destruct Hs as (?&?&[? ?]&?&?).
  split_and!.
  - by rewrite EO.
  - rewrite EE. destruct dir; auto with esp; apply word_lor; auto with esp; apply word_BIT; lia.
  - rewrite ES; lia.
  - rewrite ES; lia.
  - intros i. rewrite EC. destruct (i =? p); [|done].
    destruct dir; auto with esp. apply word_lor; [done|]. by apply typed_word_const.
  - intros i. rewrite EP. destruct (i =? mux_of p); [|done]. unfold mux_value.
    apply word_lor; [by destruct dir; apply typed_word_const|]. apply word_ldiff, word_lor; [apply word_func|auto with esp].
Qed.
Lemma typed_write p b : 0 <= p < 16 -> typed (esp_gpio_write p b).
Proof.
  intros Hp. unfold esp_gpio_write. destruct b; [|apply typed_OUT_CLEAR].
  apply typed_OUT_SET. apply word_land, word_BIT. lia.
Qed.
Lemma typed_toggle p : 0 <= p < 16 -> typed (gpio_toggle p).
Proof.
  intros Hp. unfold gpio_toggle. apply typed_get. intros s Hs. case_match; [apply typed_OUT_CLEAR|].
  apply typed_OUT_SET. apply word_land, word_BIT. lia.
Qed.
Lemma typed_call c : call_ok c -> (forall j, typed (gpioxx_interrupt_handler j)) -> typed (run_call c).
Proof.
  intros Hc Hh. destruct c as [p dir|p b1 b2|p|p b|p b|p|p|p t|p f|]; cbn [call_ok run_call] in *.
  - by apply typed_enable.
  - unfold esp_gpio_set_pullup, iomux_set_pullup_flags. typed_steps. apply word_lor; [|auto with esp].
    by destruct b1, b2; apply typed_word_const.
  - unfold gpio_disable. typed_steps. apply typed_ENABLE_OUT_CLEAR.
  - unfold gpio_set_output_on_sleep. typed_steps. destruct b; auto with esp.
    apply word_lor; [done|by apply typed_word_const].
  - by apply typed_write.
  - by apply typed_toggle.
  - apply typed_bind; [|intros; apply typed_ret]. intros s Hs. unfold wp. by rewrite gpio_read_run by lia.
  - unfold gpio_set_interrupt. apply typed_bind.
    + apply typed_write_CONF; [done|]. intros v Hv. unfold SET_FIELD. apply word_lor; [auto with esp|].
      by destruct t; apply typed_word_const.
    + intros _. destruct t; typed_steps; by apply typed_isr_attach.
  - unfold gpio_set_iomux_function. destruct Hc as [Hp Hf]. typed_steps.
  - intros s Hs. unfold wp. rewrite gpio_handler_run by apply Hs. apply (typed_for_each dispatch_pin).
    + intros i Hi. unfold bits_set in Hi. apply list_elem_of_filter in Hi as [_ Hi]. apply elem_of_seqZ in Hi.
      apply typed_dispatch_pin; [lia|done].
    + destruct Hs as (?&?&[? ?]&?&?). split_and!; done.
Qed.

(** The registers of the GPIO and of the I/O multiplexer keep to their types
    through every sequence of calls to gpio.h on the sixteen pins, interrupts
    included, and every such sequence returns: words of 32 bits, and an interrupt
    status of 16. *)
Theorem gpio_registers_typed cs s : Forall call_ok cs -> regs_typed (gpio s) ->
  (forall j, typed (gpioxx_interrupt_handler j)) ->
  exists s', run_calls cs s = Some ((), s') /\ regs_typed (gpio s').
Proof.
  intros Hcs Hs Hh. assert (Ht : typed (run_calls cs)).
  { clear s Hs. induction Hcs as [|c cs Hc _ IH]; cbn [run_calls]; [apply typed_ret|].
    apply typed_bind; [by apply typed_call|done]. }
  destruct (wp_run _ _ _ (Ht s Hs)) as ([] & s' & Er & Hs'). by exists s'.
Qed.
End calls.

(** ** Witnesses *)

(** A chip with nothing on its pins, and the handlers of an application that toggles
    pin 2 when pin 0 raises an interrupt.  The watchdog has a handler too. *)
Inductive app_isr := GpioIsr | WdtIsr.
#[export] Instance no_pads : Pads unit := {|
  pad_update := fun _ _ e => e;
  pad_in := fun g e => (OUT g, e);
  pad_delay := fun _ e => e
|}.
Definition app_pin (i : Z) : ST (soc app_isr unit) unit := if i =? 0 then gpio_toggle 2 else mret ().
Definition pins_only : Handlers app_isr unit := {|
  gpio_isr := GpioIsr; call_isr := fun _ => mret (); gpioxx_interrupt_handler := app_pin
|}.
#[export] Instance app_handlers : Handlers app_isr unit := {|
  gpio_isr := GpioIsr;
  call_isr := fun h => match h with GpioIsr => @gpio_interrupt_handler _ _ _ pins_only | WdtIsr => mret () end;
  gpioxx_interrupt_handler := app_pin
|}.
Definition reset_gpio : gpio_regs :=
  {| OUT := 0; ENABLE_OUT := 0; STATUS := 0; CONF := fun _ => 0; PIN := fun _ => 0 |}.
Definition reset_soc : soc app_isr unit :=
  Soc reset_gpio (fun _ => {| LOAD := 0; COUNT := 0; CTRL := 0; ALARM := 0 |}) 0 0 0
    (fun i => if i =? INUM_WDT then Some WdtIsr else None) false ().


(** Interrupts 9, 8 and 4 are pending: the watchdog's handler runs first. *)
Lemma isr_handler_dispatches_witness :
  isr_order 0x310 = [8; 4; 9] /\
  _xt_isr_handler 0x310 reset_soc =
    (st_modify (set_in_isr true);; for_each dispatch (isr_order 0x310);; st_modify (set_in_isr false);; mret 0) reset_soc.
Proof.
  split; [by vm_compute|]. destruct (isr_handler_dispatches 0x310 reset_soc ltac:(lia)) as [E _]. exact E.
Defined.

Lemma gpio_registers_typed_witness :
  exists s', run_calls [Enable 2 GPIO_OUTPUT; Enable 0 GPIO_INPUT; SetInterrupt 0 GPIO_INTTYPE_EDGE_NEG; HandleInterrupt]
    reset_soc = Some ((), s') /\ regs_typed (gpio s').
Proof.
  apply gpio_registers_typed.
  - repeat constructor; lia.
  - unfold regs_typed, word. simpl. repeat split; lia.
  - intros j. change (gpioxx_interrupt_handler j) with (app_pin j). unfold app_pin. case_match; [|apply typed_ret].
    apply typed_toggle. lia.
Defined.
