(* ===== verification/EspTimer.v ===== *)
(** * The hardware timers (core/esp_timer.c, core/include/esp/timer.h)

    The conversions of frequencies and times to counts, and the programming of FRC1
    and FRC2, over the registers of [EspRegs].  [None] is a division by zero.  A
    divider is a number, since the functions test for values outside of the enum. *)

From S2P Require Import Prelude Gpio EspRegs.
Local Open Scope Z_scope.

Inductive timer_frc_t := FRC1 | FRC2.
Definition frc_index (f : timer_frc_t) : Z := match f with FRC1 => 0 | FRC2 => 1 end.

Definition TIMER_FRC1_MAX_LOAD : Z := 0x7fffff.
Definition UINT32_MAX : Z := 2 ^ 32 - 1.
Definition EINVAL : Z := 22.
Definition TIMER_CTRL_CLKDIV_M : Z := 0x00000003.
Definition TIMER_CTRL_CLKDIV_S : Z := 2.
Definition TIMER_CTRL_RELOAD : Z := BIT 6.
Definition TIMER_CTRL_RUN : Z := BIT 7.
Definition TIMER_CLKDIV_1 : Z := 0.
Definition TIMER_CLKDIV_16 : Z := 1.
Definition TIMER_CLKDIV_256 : Z := 2.
Definition DPORT_INT_ENABLE_FRC1 : Z := BIT 1.
Definition DPORT_INT_ENABLE_FRC2 : Z := BIT 2.

Definition _FREQ_DIV1 : Z := 80 * 1000 * 1000.
Definition _FREQ_DIV16 : Z := 5 * 1000 * 1000.
Definition _FREQ_DIV256 : Z := 312500.
Definition _TIMER_FREQS : list Z := [_FREQ_DIV1; _FREQ_DIV16; _FREQ_DIV256].
Definition _TIMER_DIV_VAL : list Z := [1; 16; 256].

(** ** Conversions *)

Definition timer_max_load (frc : timer_frc_t) : Z :=
  match frc with FRC1 => TIMER_FRC1_MAX_LOAD | FRC2 => UINT32_MAX end.

Definition timer_freq_to_count (frc : timer_frc_t) (freq div : Z) : option Z :=
  if (div <? TIMER_CLKDIV_1) || (TIMER_CLKDIV_256 <? div) then Some 0
  else
    let base := nth (Z.to_nat div) _TIMER_FREQS 0 in
    if base <? freq then Some 0
    else if freq =? 0 then None
    else Some (u32 (base / freq)).

Definition timer_time_to_count (frc : timer_frc_t) (us div : Z) : Z :=
  if (div <? TIMER_CLKDIV_1) || (TIMER_CLKDIV_256 <? div) then 0
  else
    let TIMER_MAX := timer_max_load frc in
    if negb (div =? TIMER_CLKDIV_256) then
      let counts_per_us := (if div =? TIMER_CLKDIV_1 then _FREQ_DIV1 else _FREQ_DIV16) / 1000 / 1000 in
      if TIMER_MAX / counts_per_us <? us then 0
      else u32 (us * counts_per_us)
    else
      let scalar := _FREQ_DIV256 / 500 in
      if 1 + UINT32_MAX / scalar <? us then 0
      else
        let counts := u32 (us * scalar) / 2000 in
        if TIMER_MAX <? counts then 0 else counts.

Definition timer_freq_to_div (freq : Z) : Z :=
  if 100 * 1000 <? freq then TIMER_CLKDIV_1
  else if 100 <? freq then TIMER_CLKDIV_16
  else TIMER_CLKDIV_256.
Definition timer_time_to_div (us : Z) : Z :=
  if us <? 1000 then TIMER_CLKDIV_1
  else if us <? 10 * 1000 then TIMER_CLKDIV_16
  else TIMER_CLKDIV_256.

(** ** Registers *)

Definition with_LOAD (v : Z) (t : timer_regs) : timer_regs :=
  {| LOAD := v; COUNT := COUNT t; CTRL := CTRL t; ALARM := ALARM t |}.
Definition with_CTRL (v : Z) (t : timer_regs) : timer_regs :=
  {| LOAD := LOAD t; COUNT := COUNT t; CTRL := v; ALARM := ALARM t |}.
Definition with_ALARM (v : Z) (t : timer_regs) : timer_regs :=
  {| LOAD := LOAD t; COUNT := COUNT t; CTRL := CTRL t; ALARM := v |}.

Section timer.
Context {H E : Type}.

Definition TIMER (f : timer_frc_t) (s : soc H E) : timer_regs := frc s (frc_index f).
Definition write_timer (f : timer_frc_t) (g : timer_regs -> timer_regs) : ST (soc H E) unit :=
  st_modify (fun s => set_frc (fun i => if i =? frc_index f then g (frc s i) else frc s i) s).

Definition timer_get_count (frc : timer_frc_t) : ST (soc H E) Z := s ← st_get; mret (COUNT (TIMER frc s)).
Definition timer_get_load (frc : timer_frc_t) : ST (soc H E) Z := s ← st_get; mret (LOAD (TIMER frc s)).
Definition timer_set_load (frc : timer_frc_t) (load : Z) : ST (soc H E) unit := write_timer frc (with_LOAD load).
Definition timer_set_divider (frc : timer_frc_t) (div : Z) : ST (soc H E) unit :=
  if (div <? TIMER_CLKDIV_1) || (TIMER_CLKDIV_256 <? div) then mret ()
  else write_timer frc (fun t => with_CTRL (SET_FIELD (CTRL t) TIMER_CTRL_CLKDIV_M TIMER_CTRL_CLKDIV_S div) t).
Definition timer_set_run (frc : timer_frc_t) (run : bool) : ST (soc H E) unit :=
  write_timer frc (fun t => with_CTRL (if run then Z.lor (CTRL t) TIMER_CTRL_RUN else Z.ldiff (CTRL t) TIMER_CTRL_RUN) t).
Definition timer_get_run (frc : timer_frc_t) : ST (soc H E) bool :=
  s ← st_get; mret (negb (Z.land (CTRL (TIMER frc s)) TIMER_CTRL_RUN =? 0)).
Definition timer_set_reload (frc : timer_frc_t) (reload : bool) : ST (soc H E) unit :=
  write_timer frc (fun t =>
    with_CTRL (if reload then Z.lor (CTRL t) TIMER_CTRL_RELOAD else Z.ldiff (CTRL t) TIMER_CTRL_RELOAD) t).
Definition timer_get_reload (frc : timer_frc_t) : ST (soc H E) bool :=
  s ← st_get; mret (negb (Z.land (CTRL (TIMER frc s)) TIMER_CTRL_RELOAD =? 0)).

Definition timer_set_interrupts (frc : timer_frc_t) (enable : bool) : ST (soc H E) unit :=
  let dp_bit := match frc with FRC1 => DPORT_INT_ENABLE_FRC1 | FRC2 => DPORT_INT_ENABLE_FRC2 end in
  let int_mask := BIT match frc with FRC1 => INUM_TIMER_FRC1 | FRC2 => INUM_TIMER_FRC2 end in
  if enable then
    st_modify (fun s => set_INT_ENABLE (Z.lor (INT_ENABLE s) dp_bit) s);;
    _xt_isr_unmask int_mask
  else
    st_modify (fun s => set_INT_ENABLE (Z.ldiff (INT_ENABLE s) dp_bit) s);;
    _xt_isr_mask int_mask.

(** TIMER(1).ALARM = counts + TIMER(1).COUNT *)
Definition set_alarm (counts : Z) : ST (soc H E) unit :=
  s ← st_get;
  write_timer FRC2 (with_ALARM (u32 (counts + COUNT (TIMER FRC2 s)))).

Definition timer_set_frequency (frc : timer_frc_t) (freq : Z) : ST (soc H E) Z :=
  let div := timer_freq_to_div freq in
  match timer_freq_to_count frc freq div with
  | None => fun _ => None
  | Some counts =>
      if counts =? 0 then mret (- EINVAL)
      else
        timer_set_divider frc div;;
        (match frc with
         | FRC1 => timer_set_load frc counts;; timer_set_reload frc true
         | FRC2 => set_alarm counts
         end);;
        mret 0
  end.

Definition timer_set_timeout (frc : timer_frc_t) (us : Z) : ST (soc H E) Z :=
  let div := timer_time_to_div us in
  let counts := timer_time_to_count frc us div in
  if counts =? 0 then mret (- EINVAL)
  else
    timer_set_divider frc div;;
    (match frc with
     | FRC1 => timer_set_load frc counts
     | FRC2 => set_alarm counts
     end);;
    mret 0.
(** The same code a second time. *)
Definition _timer_set_timeout_impl (frc : timer_frc_t) (us : Z) : ST (soc H E) Z :=
  let div := timer_time_to_div us in
  let counts := timer_time_to_count frc us div in
  if counts =? 0 then mret (- EINVAL)
  else
    timer_set_divider frc div;;
    (match frc with
     | FRC1 => timer_set_load frc counts
     | FRC2 => set_alarm counts
     end);;
    mret 0.
End timer.
