(* ===== verification/EspTimerContract.v ===== *)
(** * What the timer functions compute

    The conversions against exact arithmetic, and the programming of a timer: which
    frequencies and times are accepted, that the count fits the timer, and how close
    the timer then comes to what was asked for.  The CPU clock is 80 MHz, so the
    divider [d] makes a count [d / 80] microseconds long. *)

From S2P Require Import Prelude Gpio EspRegs EspGpio EspTimer.
Local Open Scope Z_scope.

Ltac div_lia := Z.to_euclidean_division_equations; lia.

Definition base_freq (div : Z) : Z := nth (Z.to_nat div) _TIMER_FREQS 0.
Definition div_val (div : Z) : Z := nth (Z.to_nat div) _TIMER_DIV_VAL 0.
Lemma clkdiv_cases div : 0 <= div <= 2 ->
  (div = 0 /\ base_freq div = 80000000 /\ div_val div = 1) \/
  (div = 1 /\ base_freq div = 5000000 /\ div_val div = 16) \/
  (div = 2 /\ base_freq div = 312500 /\ div_val div = 256).
Proof. intros Hd. assert (div = 0 \/ div = 1 \/ div = 2) as [->|[->| ->]] by lia; auto 10. Qed.

Lemma time_count_exact frc us div : 0 <= us < 2 ^ 32 -> 0 <= div <= 2 ->
  timer_time_to_count frc us div =
    let counts := us * base_freq div / 1000000 in
    if (counts <=? timer_max_load frc) && ((div <? 2) || (us * 625 <? 2 ^ 32)) then counts else 0.
Proof.
  intros Hus Hd. assert (Hmax : 8388607 <= timer_max_load frc < 2 ^ 32) by (destruct frc; done).
  unfold timer_time_to_count, TIMER_CLKDIV_1, TIMER_CLKDIV_256.
  rewrite (proj2 (Z.ltb_ge div 0)), (proj2 (Z.ltb_ge 2 div)) by lia. cbn [orb]. cbv zeta.
  destruct (clkdiv_cases div Hd) as [(-> & -> & _)|[(-> & -> & _)|(-> & -> & _)]].
  - change ((if 0 =? 0 then _FREQ_DIV1 else _) / 1000 / 1000) with 80.
    change (negb (0 =? 2)) with true. change (0 <? 2) with true. cbv iota.
    replace (us * 80000000 / 1000000) with (us * 80) by div_lia. cbn [orb]. rewrite andb_true_r.
    destruct (Z.ltb_spec (timer_max_load frc / 80) us), (Z.leb_spec (us * 80) (timer_max_load frc)); try div_lia.
    apply u32_small. lia.
  - change ((if 1 =? 0 then _FREQ_DIV1 else _) / 1000 / 1000) with 5.
    change (negb (1 =? 2)) with true. change (1 <? 2) with true. cbv iota.
    replace (us * 5000000 / 1000000) with (us * 5) by div_lia. cbn [orb]. rewrite andb_true_r.
    destruct (Z.ltb_spec (timer_max_load frc / 5) us), (Z.leb_spec (us * 5) (timer_max_load frc)); try div_lia.
    apply u32_small. lia.
  - change (negb (2 =? 2)) with false.
    change (_FREQ_DIV256 / 500) with 625. change (1 + UINT32_MAX / 625) with 6871948. change (2 <? 2) with false. cbv iota.
    replace (us * 312500 / 1000000) with (us * 625 / 2000) by div_lia. cbn [orb].
    destruct (Z.ltb_spec 6871948 us), (Z.ltb_spec (us * 625) (2 ^ 32)); try lia; rewrite ?andb_false_r; try done.
    + rewrite andb_true_r, u32_small by lia.
      by destruct (Z.ltb_spec (timer_max_load frc) (us * 625 / 2000)), (Z.leb_spec (us * 625 / 2000) (timer_max_load frc)); try lia.
    + assert (us = 6871948) as -> by lia. change (u32 (6871948 * 625) / 2000) with 0.
      destruct (Z.ltb_spec (timer_max_load frc) 0); [lia|done].
Qed.

(** The count of a time is the exact number of clocks of the divider in it, rounded
    down, whenever that fits the timer; with the divider 256 only when 625 times the
    time still fits 32 bits; and 0 otherwise.  (The comparison that is to keep that
    product from overflowing lets one value too many pass; its wrapped count is 0.) *)
Theorem timer_time_to_count_exact frc us div : 0 <= us < 2 ^ 32 -> 0 <= div <= 2 ->
  timer_time_to_count frc us div =
    let counts := us * base_freq div / 1000000 in
    if (counts <=? timer_max_load frc) && ((div <? 2) || (us * 625 <? 2 ^ 32)) then counts else 0.
Proof. apply time_count_exact. Qed.

Section programming.
Context {H E : Type}.
Implicit Types s : soc H E.

(** Only the timer [f] may change, to [t]. *)
Definition timer_becomes (f : timer_frc_t) (t : timer_regs) (s s' : soc H E) : Prop :=
  TIMER f s' = t /\ (forall g, g <> f -> TIMER g s' = TIMER g s) /\
  gpio s' = gpio s /\ INT_ENABLE s' = INT_ENABLE s /\ INTENABLE s' = INTENABLE s /\ INTERRUPT s' = INTERRUPT s /\
  isr s' = isr s /\ esp_in_isr s' = esp_in_isr s /\ world s' = world s.

Lemma write_timer_run f g s : exists s', write_timer f g s = Some ((), s') /\ timer_becomes f (g (TIMER f s)) s s'.
Proof.
  eexists. split; [reflexivity|]. unfold timer_becomes, TIMER. cbn. rewrite Z.eqb_refl. split_and!; try done.
  intros h Hh. by destruct h, f.
Qed.
Lemma timer_becomes_trans f t1 t2 s s1 s2 : timer_becomes f t1 s s1 -> timer_becomes f t2 s1 s2 -> timer_becomes f t2 s s2.
Proof.
  intros (_ & O1 & ? & ? & ? & ? & ? & ? & ?) (T2 & O2 & ? & ? & ? & ? & ? & ? & ?).
  split_and!; try congruence. intros g Hg. by rewrite O2, O1.
Qed.

(** The control register with a divider, and the count in its place. *)
Definition divided (div : Z) (t : timer_regs) : timer_regs :=
  with_CTRL (SET_FIELD (CTRL t) TIMER_CTRL_CLKDIV_M TIMER_CTRL_CLKDIV_S div) t.
Definition counting (f : timer_frc_t) (counts : Z) (t : timer_regs) : timer_regs :=
  match f with FRC1 => with_LOAD counts t | FRC2 => with_ALARM (u32 (counts + COUNT t)) t end.

Lemma set_divider_run f div s : 0 <= div <= 2 -> exists s', timer_set_divider f div s = Some ((), s') /\
  timer_becomes f (divided div (TIMER f s)) s s'.
Proof.
  intros Hd. unfold timer_set_divider, TIMER_CLKDIV_1, TIMER_CLKDIV_256.
  rewrite (proj2 (Z.ltb_ge div 0)), (proj2 (Z.ltb_ge 2 div)) by lia. apply write_timer_run.
Qed.
Lemma counting_run f counts s : exists s',
  (match f with FRC1 => timer_set_load f counts | FRC2 => set_alarm counts end) s = Some ((), s') /\
  timer_becomes f (counting f counts (TIMER f s)) s s'.
Proof.
  destruct f; [apply write_timer_run|]. unfold set_alarm. rewrite (bind_run _ _ s s s) by done.
  exact (write_timer_run FRC2 (with_ALARM (u32 (counts + COUNT (TIMER FRC2 s)))) s).
Qed.

(** A divider leaves the other bits of the control register as they are. *)
Lemma divided_ctrl div t : 0 <= div <= 2 -> FIELD2VAL TIMER_CTRL_CLKDIV_M TIMER_CTRL_CLKDIV_S (CTRL (divided div t)) = div /\
  Z.ldiff (CTRL (divided div t)) 0x0c = Z.ldiff (CTRL t) 0x0c.
Proof.
  intros Hd. cbn [divided with_CTRL CTRL]. unfold FIELD2VAL, SET_FIELD. change (Z.shiftl TIMER_CTRL_CLKDIV_M TIMER_CTRL_CLKDIV_S) with 0x0c.
  unfold TIMER_CTRL_CLKDIV_M, TIMER_CTRL_CLKDIV_S. set (v := CTRL t). split.
  - apply (land_const_eq _ 3 div 2); [lia|lia|lia|]. intros n Hn. rewrite Z.land_spec, Z.shiftr_spec, Z.lor_spec, Z.ldiff_spec by lia.
    assert (div = 0 \/ div = 1 \/ div = 2) as [->|[->| ->]] by lia; assert (n = 0 \/ n = 1) as [->| ->] by lia;
      by rewrite andb_false_r.
  - apply Z.bits_inj'. intros n Hn. rewrite !Z.ldiff_spec, Z.lor_spec, Z.ldiff_spec. destruct (Z.ltb_spec n 4).
    + assert (n = 0 \/ n = 1 \/ n = 2 \/ n = 3) as [->|[->|[->| ->]]] by lia;
        assert (div = 0 \/ div = 1 \/ div = 2) as [->|[->| ->]] by lia; by rewrite ?andb_false_r, ?andb_true_r, ?orb_false_r.
    + rewrite (testbit_high 0x0c 4 n), (testbit_high (Z.shiftl div 2) 4 n);
        [by rewrite !andb_true_r, orb_false_r| |lia|lia|lia]. rewrite Z.shiftl_mul_pow2 by lia. lia.
Qed.

Lemma time_to_count_range f us : 0 <= us < 2 ^ 32 -> let div := timer_time_to_div us in
  0 <= div <= 2 /\
  if (1 <=? us) && (us <=? 6871947) then
    let counts := timer_time_to_count f us div in
    0 < counts <= timer_max_load f /\ div_val div * counts <= 80 * us < div_val div * (counts + 1)
  else timer_time_to_count f us div = 0.
Proof.
  intros Hus div. assert (Hmax : 8388607 <= timer_max_load f < 2 ^ 32) by (destruct f; done).
  assert (Hd : 0 <= div <= 2 /\ (us < 1000 /\ div = 0 \/ 1000 <= us < 10000 /\ div = 1 \/ 10000 <= us /\ div = 2)).
  { unfold div, timer_time_to_div. change (10 * 1000) with 10000.
    destruct (Z.ltb_spec us 1000), (Z.ltb_spec us 10000); unfold TIMER_CLKDIV_1, TIMER_CLKDIV_16, TIMER_CLKDIV_256; lia. }
  destruct Hd as [Hd Hc]. split; [done|]. rewrite time_count_exact by done. cbv zeta.
  destruct (clkdiv_cases div Hd) as [(-> & -> & ->)|[(-> & -> & ->)|(-> & -> & ->)]].
  - change (0 <? 2) with true. rewrite orb_true_l, andb_true_r. destruct (Z.leb_spec 1 us), (Z.leb_spec us 6871947); cbn [andb];
      destruct (Z.leb_spec (us * 80000000 / 1000000) (timer_max_load f)); div_lia.
  - change (1 <? 2) with true. rewrite orb_true_l, andb_true_r. destruct (Z.leb_spec 1 us), (Z.leb_spec us 6871947); cbn [andb];
      destruct (Z.leb_spec (us * 5000000 / 1000000) (timer_max_load f)); div_lia.
  - change (2 <? 2) with false. rewrite orb_false_l. destruct (Z.leb_spec 1 us), (Z.leb_spec us 6871947); cbn [andb]; [| |lia..].
    + rewrite (proj2 (Z.leb_le _ _)), (proj2 (Z.ltb_lt (us * 625) _)) by div_lia. cbn [andb]. div_lia.
    + rewrite (proj2 (Z.ltb_ge (us * 625) _)) by lia. by rewrite andb_false_r.
Qed.

(** C23: timer_set_timeout accepts exactly the times of 1 to 6871947 microseconds, for
    both timers: it selects a divider, gives the timer a count that fits it (for FRC2
    an alarm that many counts ahead) and returns 0; the count is less than one period
    of the divider short of the time.  Any other time is refused with -EINVAL and
    changes nothing.  Nothing but the timer changes. *)
Theorem timer_set_timeout_programs f us s : 0 <= us < 2 ^ 32 ->
  if (1 <=? us) && (us <=? 6871947) then
    exists div counts s', timer_set_timeout f us s = Some (0, s') /\
      timer_becomes f (counting f counts (divided div (TIMER f s))) s s' /\
      FIELD2VAL TIMER_CTRL_CLKDIV_M TIMER_CTRL_CLKDIV_S (CTRL (TIMER f s')) = div /\
      0 < counts <= timer_max_load f /\
      div_val div * counts <= 80 * us < div_val div * (counts + 1)
  else timer_set_timeout f us s = Some (- EINVAL, s).
Proof.
  intros Hus. destruct (time_to_count_range f us Hus) as [Hd Hc]. unfold timer_set_timeout.
  set (div := timer_time_to_div us) in *. set (counts := timer_time_to_count f us div) in *.
  destruct ((1 <=? us) && (us <=? 6871947)); [|by rewrite Hc]. destruct Hc as [Hpos Hb].
  rewrite (proj2 (Z.eqb_neq counts 0)) by lia.
  destruct (set_divider_run f div s Hd) as (s1 & E1 & B1). destruct (counting_run f counts s1) as (s2 & E2 & B2).
  rewrite (bind_run _ _ _ _ _ E1), (bind_run _ _ _ _ _ E2). exists div, counts, s2. split; [done|].
  rewrite (proj1 B1) in B2. split_and!; try lia; [by eapply timer_becomes_trans|].
  rewrite (proj1 B2). transitivity (FIELD2VAL TIMER_CTRL_CLKDIV_M TIMER_CTRL_CLKDIV_S (CTRL (divided div (TIMER f s))));
    [by destruct f|by apply divided_ctrl].
Qed.

Lemma freq_to_count_range f freq : 0 < freq < 2 ^ 32 -> let div := timer_freq_to_div freq in
  0 <= div <= 2 /\
  if freq <=? 80000000 then
    exists counts, timer_freq_to_count f freq div = Some counts /\ 0 < counts <= TIMER_FRC1_MAX_LOAD /\
      freq * (div_val div * counts) <= 80000000 < freq * (div_val div * (counts + 1)) /\
      (freq <= 100000 -> 50 <= counts)
  else timer_freq_to_count f freq div = Some 0.
Proof.
  intros Hf div.
  assert (Hd : 0 <= div <= 2 /\ (100000 < freq /\ div = 0 \/ 100 < freq <= 100000 /\ div = 1 \/ freq <= 100 /\ div = 2)).
  { unfold div, timer_freq_to_div. change (100 * 1000) with 100000.
    destruct (Z.ltb_spec 100000 freq), (Z.ltb_spec 100 freq); unfold TIMER_CLKDIV_1, TIMER_CLKDIV_16, TIMER_CLKDIV_256; lia. }
  destruct Hd as [Hd Hc]. split; [done|]. unfold timer_freq_to_count, TIMER_CLKDIV_1, TIMER_CLKDIV_256.
  rewrite (proj2 (Z.ltb_ge div 0)), (proj2 (Z.ltb_ge 2 div)) by lia. cbn [orb].
  change (nth (Z.to_nat div) _TIMER_FREQS 0) with (base_freq div). cbv zeta.
  rewrite (proj2 (Z.eqb_neq freq 0)) by lia.
  assert (Hb : base_freq div * div_val div = 80000000 /\ 0 < div_val div /\ 0 < base_freq div)
    by (destruct (clkdiv_cases div Hd) as [(_ & -> & ->)|[(_ & -> & ->)|(_ & -> & ->)]]; lia).
  set (q := base_freq div / freq).
  assert (Hq : freq * q <= base_freq div < freq * (q + 1)).
  { unfold q. pose proof (Z.mul_div_le (base_freq div) freq). pose proof (Z.mul_succ_div_gt (base_freq div) freq). lia. }
  destruct (Z.leb_spec freq 80000000) as [Hle|Hgt].
  - assert (Hfb : freq <= base_freq div)
      by (destruct (clkdiv_cases div Hd) as [(? & -> & _)|[(? & -> & _)|(? & -> & _)]]; lia).
    rewrite (proj2 (Z.ltb_ge (base_freq div) freq)) by done. exists q.
    assert (Hq0 : 0 < q) by nia.
    assert (Hmax : q <= 312500).
    { destruct (clkdiv_cases div Hd) as [(? & Eb & _)|[(? & Eb & _)|(? & Eb & _)]]; rewrite Eb in Hq; nia. }
    assert (Hfifty : freq <= 100000 -> 50 <= q).
    { destruct (clkdiv_cases div Hd) as [(? & Eb & _)|[(? & Eb & _)|(? & Eb & _)]]; rewrite Eb in Hq; nia. }
    rewrite u32_small by lia. split; [done|]. split; [unfold TIMER_FRC1_MAX_LOAD; lia|]. split; [nia|done].
  - rewrite (proj2 (Z.ltb_lt (base_freq div) freq)); [done|].
    destruct (clkdiv_cases div Hd) as [(? & -> & _)|[(? & -> & _)|(? & -> & _)]]; lia.
Qed.

(** The run for an accepted frequency. *)
Lemma set_frequency_run f freq s : 0 < freq <= 80000000 -> let div := timer_freq_to_div freq in
  exists counts t s', timer_set_frequency f freq s = Some (0, s') /\ timer_becomes f t s s' /\
    LOAD t = (match f with FRC1 => counts | FRC2 => LOAD (TIMER f s) end) /\
    ALARM t = (match f with FRC1 => ALARM (TIMER f s) | FRC2 => u32 (counts + COUNT (TIMER f s)) end) /\
    CTRL t = (match f with FRC1 => Z.lor (CTRL (divided div (TIMER f s))) TIMER_CTRL_RELOAD
              | FRC2 => CTRL (divided div (TIMER f s)) end) /\
    0 < counts <= TIMER_FRC1_MAX_LOAD /\
    freq * (div_val div * counts) <= 80000000 < freq * (div_val div * (counts + 1)) /\
    (freq <= 100000 -> 50 <= counts).
Proof.
  intros Hf div. destruct (freq_to_count_range f freq ltac:(lia)) as [Hd Hc]. fold div in Hd, Hc.
  unfold timer_set_frequency. fold div. rewrite (proj2 (Z.leb_le freq 80000000)) in Hc by lia.
  destruct Hc as (counts & -> & Hpos & Hb & H50).
  rewrite (proj2 (Z.eqb_neq counts 0)) by lia.
  destruct (set_divider_run f div s Hd) as (s1 & E1 & B1). rewrite (bind_run _ _ _ _ _ E1). exists counts.
  destruct f.
  - destruct (write_timer_run FRC1 (with_LOAD counts) s1) as (s2 & E2 & B2).
    destruct (write_timer_run FRC1 (fun t => with_CTRL (Z.lor (CTRL t) TIMER_CTRL_RELOAD) t) s2) as (s3 & E3 & B3).
    pose proof (timer_becomes_trans _ _ _ _ _ _ B1 (timer_becomes_trans _ _ _ _ _ _ B2 B3)) as B.
    rewrite (proj1 B2), (proj1 B1) in B. eexists _, s3. split; [|split; [exact B|done]].
    by rewrite bind_assoc, (bind_run _ _ _ _ _ E2), (bind_run _ _ _ _ _ E3).
  - destruct (counting_run FRC2 counts s1) as (s2 & E2 & B2). rewrite (proj1 B1) in B2.
    eexists _, s2. split; [by rewrite (bind_run _ _ _ _ _ E2)|].
    split; [exact (timer_becomes_trans _ _ _ _ _ _ B1 B2)|done].
Qed.

(** Timer_set_frequency accepts exactly the frequencies of 1 Hz to 80 MHz: it gives
    FRC1 a load that fits its 23 bits and turns reloading on (FRC2 an alarm that many
    counts ahead); the period is the longest one of whole counts that is not longer
    than asked for, so that up to 100 kHz it is exact to 2 percent.  Frequencies above
    are refused without a change, and 0 divides by zero. *)
Theorem timer_set_frequency_programs f freq s : 0 <= freq < 2 ^ 32 ->
  if freq =? 0 then timer_set_frequency f freq s = None
  else if freq <=? 80000000 then
    exists div counts s', timer_set_frequency f freq s = Some (0, s') /\
      (exists t, timer_becomes f t s s' /\ LOAD t = (match f with FRC1 => counts | FRC2 => LOAD (TIMER f s) end) /\
         ALARM t = (match f with FRC1 => ALARM (TIMER f s) | FRC2 => u32 (counts + COUNT (TIMER f s)) end) /\
         CTRL t = (match f with FRC1 => Z.lor (CTRL (divided div (TIMER f s))) TIMER_CTRL_RELOAD
                   | FRC2 => CTRL (divided div (TIMER f s)) end)) /\
      0 < counts <= TIMER_FRC1_MAX_LOAD /\
      freq * (div_val div * counts) <= 80000000 < freq * (div_val div * (counts + 1)) /\
      (freq <= 100000 -> 50 <= counts)
  else timer_set_frequency f freq s = Some (- EINVAL, s).
Proof.
  intros Hf. destruct (Z.eqb_spec freq 0) as [->|Hne]; [done|]. destruct (Z.leb_spec freq 80000000) as [Hle|Hgt].
  - destruct (set_frequency_run f freq s) as (counts & t & s' & E' & B & HL & HA & HC & Hr); [lia|].
    exists (timer_freq_to_div freq), counts, s'. split; [exact E'|]. split; [by exists t|exact Hr].
  - destruct (freq_to_count_range f freq ltac:(lia)) as [_ Hc]. unfold timer_set_frequency.
    rewrite (proj2 (Z.leb_gt freq 80000000)) in Hc by lia. by rewrite Hc.
Qed.
End programming.

(** ** Witnesses *)

Definition timer_soc : soc unit unit :=
  Soc {| OUT := 0; ENABLE_OUT := 0; STATUS := 0; CONF := fun _ => 0; PIN := fun _ => 0 |}
    (fun _ => {| LOAD := 0; COUNT := 4294967295; CTRL := 0xff; ALARM := 0 |}) 0 0 0 (fun _ => None) false ().

Lemma timer_time_to_count_exact_witness :
  timer_time_to_count FRC1 6871947 TIMER_CLKDIV_256 = 2147483 /\ timer_time_to_count FRC1 6871948 TIMER_CLKDIV_256 = 0.
Proof.
  rewrite (timer_time_to_count_exact FRC1 6871947 TIMER_CLKDIV_256), (timer_time_to_count_exact FRC1 6871948 TIMER_CLKDIV_256)
    by (unfold TIMER_CLKDIV_256; lia).
  by split; vm_compute.
Defined.

(** 2 ms on FRC2, whose counter is about to wrap. *)
Lemma timer_set_timeout_programs_witness :
  exists div counts s', timer_set_timeout FRC2 2000 timer_soc = Some (0, s') /\
    timer_becomes FRC2 (counting FRC2 counts (divided div (TIMER FRC2 timer_soc))) timer_soc s' /\
    div_val div * counts <= 160000 < div_val div * (counts + 1).
Proof.
  pose proof (timer_set_timeout_programs FRC2 2000 timer_soc ltac:(lia)) as Ht.
  change ((1 <=? 2000) && (2000 <=? 6871947)) with true in Ht. cbv iota in Ht.
  destruct Ht as (div & counts & s' & E' & B & _ & _ & Hb). exists div, counts, s'.
  split; [exact E'|]. split; [exact B|exact Hb].
Defined.

Lemma timer_set_frequency_programs_witness :
  exists div counts s', timer_set_frequency FRC1 44100 timer_soc = Some (0, s') /\
    44100 * (div_val div * counts) <= 80000000 < 44100 * (div_val div * (counts + 1)) /\ 50 <= counts.
Proof.
  pose proof (timer_set_frequency_programs FRC1 44100 timer_soc ltac:(lia)) as Ht.
  change (44100 =? 0) with false in Ht. change (44100 <=? 80000000) with true in Ht. cbv iota in Ht.
  destruct Ht as (div & counts & s' & E' & _ & _ & Hb & H50). exists div, counts, s'.
  split; [exact E'|]. split; [exact Hb|apply H50; lia].
Defined.
