(* ===== verification/EspSpi.v ===== *)
(** * The SPI peripherals: core/esp_spi.c and core/include/esp/spi.h

    The two controllers as the registers the driver uses, on top of the chip of
    [EspRegs]; the sixteen data registers W are their 64 bytes in memory order.
    Writing the bit USR of CMD starts a transaction and the bit reads 1 until it is
    done: the class [SpiPads] is the hardware behind these two accesses.  [None] is
    an access past the end of an array or a number of a controller that does not
    exist; the loop of _wait takes as fuel the number of reads of CMD that
    the caller allows.

    The theorems are in [EspSpiContract]. *)

From S2P Require Import Prelude Gpio EspRegs.
Local Open Scope Z_scope.

Record spi_regs := { CTRL0 : Z; CLOCK : Z; USER0 : Z; USER1 : Z; SPIN : Z; W : list Z }.

(** What USR in CMD reads for a controller, and what setting it does.  While a
    transaction runs the controller owns its registers, so both can change them. *)
Class SpiPads (E : Type) := {
  cmd_usr : Z -> spi_regs -> E -> bool * spi_regs * E;
  usr_start : Z -> spi_regs -> E -> E
}.

(** The chip, the registers of the controllers, IOMUX.CONF and _minimal_pins. *)
Record spi_soc (H E : Type) := SpiSoc {
  chip : soc H E;
  SPI : Z -> spi_regs;
  IOMUX_CONF : Z;
  _minimal_pins : Z -> bool
}.
Arguments SpiSoc {H E}.
Arguments chip {H E}.
Arguments SPI {H E}.
Arguments IOMUX_CONF {H E}.
Arguments _minimal_pins {H E}.

Inductive spi_mode_t := SPI_MODE0 | SPI_MODE1 | SPI_MODE2 | SPI_MODE3.
Inductive spi_endianness_t := SPI_LITTLE_ENDIAN | SPI_BIG_ENDIAN.
Inductive spi_word_size_t := SPI_8BIT | SPI_16BIT | SPI_32BIT.
Record spi_settings_t := {
  mode : spi_mode_t;
  freq_divider : Z;
  msb : bool;
  endianness : spi_endianness_t;
  minimal_pins : bool
}.

#[export] Instance spi_mode_dec : EqDecision spi_mode_t.
Proof. solve_decision. Defined.
#[export] Instance spi_endianness_dec : EqDecision spi_endianness_t.
Proof. solve_decision. Defined.
#[export] Instance spi_word_size_dec : EqDecision spi_word_size_t.
Proof. solve_decision. Defined.

Definition mode_value (m : spi_mode_t) : Z :=
  match m with SPI_MODE0 => 0 | SPI_MODE1 => 1 | SPI_MODE2 => 2 | SPI_MODE3 => 3 end.
Definition mode_of (v : Z) : spi_mode_t :=
  if v =? 0 then SPI_MODE0 else if v =? 1 then SPI_MODE1 else if v =? 2 then SPI_MODE2 else SPI_MODE3.
Definition word_bytes (w : spi_word_size_t) : Z :=
  match w with SPI_8BIT => 1 | SPI_16BIT => 2 | SPI_32BIT => 4 end.

(** ** Register fields *)

Definition SPI_CTRL0_WR_BIT_ORDER : Z := BIT 26.
Definition SPI_CTRL0_RD_BIT_ORDER : Z := BIT 25.
Definition SPI_CLOCK_EQU_SYS_CLOCK : Z := BIT 31.
Definition SPI_CLOCK_DIV_PRE_M : Z := 0x1FFF.
Definition SPI_CLOCK_DIV_PRE_S : Z := 18.
Definition SPI_CLOCK_COUNT_NUM_M : Z := 0x3F.
Definition SPI_CLOCK_COUNT_NUM_S : Z := 12.
Definition SPI_CLOCK_COUNT_HIGH_M : Z := 0x3F.
Definition SPI_CLOCK_COUNT_HIGH_S : Z := 6.
Definition SPI_CLOCK_COUNT_LOW_M : Z := 0x3F.
Definition SPI_CLOCK_COUNT_LOW_S : Z := 0.
Definition SPI_USER0_MOSI : Z := BIT 27.
Definition SPI_USER0_WR_BYTE_ORDER : Z := BIT 11.
Definition SPI_USER0_RD_BYTE_ORDER : Z := BIT 10.
Definition SPI_USER0_CLOCK_OUT_EDGE : Z := BIT 7.
Definition SPI_USER0_CLOCK_IN_EDGE : Z := BIT 6.
Definition SPI_USER0_CS_SETUP : Z := BIT 5.
Definition SPI_USER0_CS_HOLD : Z := BIT 4.
Definition SPI_USER0_DUPLEX : Z := BIT 0.
Definition SPI_USER1_MOSI_BITLEN_M : Z := 0x1FF.
Definition SPI_USER1_MOSI_BITLEN_S : Z := 17.
Definition SPI_USER1_MISO_BITLEN_M : Z := 0x1FF.
Definition SPI_USER1_MISO_BITLEN_S : Z := 8.
Definition SPI_PIN_IDLE_EDGE : Z := BIT 29.
Definition IOMUX_CONF_SPI0_CLOCK_EQU_SYS_CLOCK : Z := BIT 8.
Definition IOMUX_CONF_SPI1_CLOCK_EQU_SYS_CLOCK : Z := BIT 9.
Definition _SPI0_SCK_GPIO : Z := 6.
Definition _SPI0_MISO_GPIO : Z := 7.
Definition _SPI0_MOSI_GPIO : Z := 8.
Definition _SPI0_HD_GPIO : Z := 9.
Definition _SPI0_WP_GPIO : Z := 10.
Definition _SPI0_CS0_GPIO : Z := 11.
Definition _SPI1_MISO_GPIO : Z := 12.
Definition _SPI1_MOSI_GPIO : Z := 13.
Definition _SPI1_SCK_GPIO : Z := 14.
Definition _SPI1_CS0_GPIO : Z := 15.
Definition _SPI0_FUNC : Z := IOMUX_FUNC 1.
Definition _SPI1_FUNC : Z := IOMUX_FUNC 2.
Definition _SPI_BUF_SIZE : Z := 160.
Definition APB_CLK_FREQ : Z := 80000000.
Definition SPI_GET_FREQ_DIV (divider count : Z) : Z := Z.lor (Z.shiftl count 16) (Z.land divider 0xffff).
Definition VAL2FIELD_M (m s value : Z) : Z := Z.shiftl (Z.land value m) s.

Definition with_CTRL0 (v : Z) (r : spi_regs) : spi_regs :=
  {| CTRL0 := v; CLOCK := CLOCK r; USER0 := USER0 r; USER1 := USER1 r; SPIN := SPIN r; W := W r |}.
Definition with_CLOCK (v : Z) (r : spi_regs) : spi_regs :=
  {| CTRL0 := CTRL0 r; CLOCK := v; USER0 := USER0 r; USER1 := USER1 r; SPIN := SPIN r; W := W r |}.
Definition with_USER0 (v : Z) (r : spi_regs) : spi_regs :=
  {| CTRL0 := CTRL0 r; CLOCK := CLOCK r; USER0 := v; USER1 := USER1 r; SPIN := SPIN r; W := W r |}.
Definition with_USER1 (v : Z) (r : spi_regs) : spi_regs :=
  {| CTRL0 := CTRL0 r; CLOCK := CLOCK r; USER0 := USER0 r; USER1 := v; SPIN := SPIN r; W := W r |}.
Definition with_SPIN (v : Z) (r : spi_regs) : spi_regs :=
  {| CTRL0 := CTRL0 r; CLOCK := CLOCK r; USER0 := USER0 r; USER1 := USER1 r; SPIN := v; W := W r |}.
Definition with_W (v : list Z) (r : spi_regs) : spi_regs :=
  {| CTRL0 := CTRL0 r; CLOCK := CLOCK r; USER0 := USER0 r; USER1 := USER1 r; SPIN := SPIN r; W := v |}.

Definition _swap_bytes (value : Z) : Z :=
  Z.lor (Z.lor (Z.lor (u32 (Z.shiftl value 24)) (Z.land (u32 (Z.shiftl value 8)) 0x00ff0000))
    (Z.land (Z.shiftr value 8) 0x0000ff00)) (Z.shiftr value 24).
Definition _swap_words (value : Z) : Z := Z.lor (u32 (Z.shiftl value 16)) (Z.shiftr value 16).

(** ** Access to the state *)

Section functions.
Context {H E : Type} `{!Pads E, !SpiPads E} (polls : nat).

Definition set_chip (c : soc H E) (s : spi_soc H E) : spi_soc H E :=
  SpiSoc c (SPI s) (IOMUX_CONF s) (_minimal_pins s).
Definition set_SPI (bus : Z) (r : spi_regs) (s : spi_soc H E) : spi_soc H E :=
  SpiSoc (chip s) (fun b => if b =? bus then r else SPI s b) (IOMUX_CONF s) (_minimal_pins s).
Definition set_IOMUX_CONF (v : Z) (s : spi_soc H E) : spi_soc H E :=
  SpiSoc (chip s) (SPI s) v (_minimal_pins s).
Definition set_minimal (bus : Z) (b : bool) (s : spi_soc H E) : spi_soc H E :=
  SpiSoc (chip s) (SPI s) (IOMUX_CONF s) (fun i => if i =? bus then b else _minimal_pins s i).

Definition on_chip {A} (m : ST (soc H E) A) : ST (spi_soc H E) A := fun s =>
  match m (chip s) with Some (x, c) => Some (x, set_chip c s) | None => None end.
Definition spi_exists (bus : Z) : bool := (bus =? 0) || (bus =? 1).
Definition get_SPI (bus : Z) : ST (spi_soc H E) spi_regs := fun s =>
  if spi_exists bus then Some (SPI s bus, s) else None.
Definition update_SPI (bus : Z) (f : spi_regs -> spi_regs) : ST (spi_soc H E) unit := fun s =>
  if spi_exists bus then Some ((), set_SPI bus (f (SPI s bus)) s) else None.
Definition read_CMD_USR (bus : Z) : ST (spi_soc H E) bool := fun s =>
  if spi_exists bus then
    let '(b, r, e) := cmd_usr bus (SPI s bus) (world (chip s)) in
    Some (b, set_SPI bus r (set_chip (set_world e (chip s)) s))
  else None.
Definition write_CMD_USR (bus : Z) : ST (spi_soc H E) unit := fun s =>
  if spi_exists bus then
    Some ((), set_chip (set_world (usr_start bus (SPI s bus) (world (chip s))) (chip s)) s)
  else None.

(** memcpy to the data registers, from the byte [0] on. *)
Definition memcpy_to_W (bus : Z) (out_data : list Z) (bytes : Z) : ST (spi_soc H E) unit :=
  if (bytes <=? Z.of_nat (length out_data)) && (bytes <=? 64) then
    update_SPI bus (fun r => with_W (take (Z.to_nat bytes) out_data ++ drop (Z.to_nat bytes) (W r)) r)
  else fun _ => None.
Definition memcpy_from_W (bus : Z) (bytes : Z) : ST (spi_soc H E) (list Z) :=
  if bytes <=? 64 then r ← get_SPI bus; mret (take (Z.to_nat bytes) (W r)) else fun _ => None.
(** data[i], a word of the data registers. *)
Definition word_at (i : Z) (w : list Z) : Z := le_val (take 4 (drop (Z.to_nat (4 * i)) w)).
Definition put_word (i v : Z) (w : list Z) : list Z :=
  take (Z.to_nat (4 * i)) w ++ le_bytes 4 v ++ drop (Z.to_nat (4 * i + 4)) w.
Definition update_word (bus i : Z) (f : Z -> Z) : ST (spi_soc H E) unit :=
  if i <? 16 then update_SPI bus (fun r => with_W (put_word i (f (word_at i (W r))) (W r)) r) else fun _ => None.

(** ** Settings *)

Definition spi_set_mode (bus : Z) (m : spi_mode_t) : ST (spi_soc H E) unit :=
  let cpha := negb (Z.land (mode_value m) 1 =? 0) in
  let cpol := negb (Z.land (mode_value m) 2 =? 0) in
  let cpha := if cpol then negb cpha else cpha in
  update_SPI bus (fun r => with_USER0 (if cpha then Z.lor (USER0 r) SPI_USER0_CLOCK_OUT_EDGE
                                       else Z.ldiff (USER0 r) SPI_USER0_CLOCK_OUT_EDGE) r);;
  update_SPI bus (fun r => with_SPIN (if cpol then Z.lor (SPIN r) SPI_PIN_IDLE_EDGE
                                      else Z.ldiff (SPIN r) SPI_PIN_IDLE_EDGE) r).
Definition spi_get_mode (bus : Z) : ST (spi_soc H E) spi_mode_t :=
  r ← get_SPI bus;
  let cpha := if negb (Z.land (USER0 r) SPI_USER0_CLOCK_OUT_EDGE =? 0) then 1 else 0 in
  let cpol := if negb (Z.land (SPIN r) SPI_PIN_IDLE_EDGE =? 0) then 2 else 0 in
  mret (mode_of (Z.lor cpol (if negb (cpol =? 0) then 1 - cpha else cpha))).

Definition spi_set_msb (bus : Z) (msb : bool) : ST (spi_soc H E) unit :=
  let mask := Z.lor SPI_CTRL0_WR_BIT_ORDER SPI_CTRL0_RD_BIT_ORDER in
  update_SPI bus (fun r => with_CTRL0 (if msb then Z.ldiff (CTRL0 r) mask else Z.lor (CTRL0 r) mask) r).
Definition spi_get_msb (bus : Z) : ST (spi_soc H E) bool :=
  r ← get_SPI bus;
  mret (Z.land (CTRL0 r) (Z.lor SPI_CTRL0_WR_BIT_ORDER SPI_CTRL0_RD_BIT_ORDER) =? 0).

Definition spi_set_endianness (bus : Z) (e : spi_endianness_t) : ST (spi_soc H E) unit :=
  let mask := Z.lor SPI_USER0_WR_BYTE_ORDER SPI_USER0_RD_BYTE_ORDER in
  update_SPI bus (fun r => with_USER0 (match e with
    | SPI_BIG_ENDIAN => Z.lor (USER0 r) mask | SPI_LITTLE_ENDIAN => Z.ldiff (USER0 r) mask end) r).
Definition spi_get_endianness (bus : Z) : ST (spi_soc H E) spi_endianness_t :=
  r ← get_SPI bus;
  mret (if negb (Z.land (USER0 r) (Z.lor SPI_USER0_WR_BYTE_ORDER SPI_USER0_RD_BYTE_ORDER) =? 0)
        then SPI_BIG_ENDIAN else SPI_LITTLE_ENDIAN).

Definition spi_set_frequency_div (bus divider : Z) : ST (spi_soc H E) unit :=
  let predivider := u32 (Z.land divider 0xffff - 1) in
  let count := u32 (Z.shiftr divider 16 - 1) in
  let equ := if bus =? 0 then IOMUX_CONF_SPI0_CLOCK_EQU_SYS_CLOCK else IOMUX_CONF_SPI1_CLOCK_EQU_SYS_CLOCK in
  if negb (count =? 0) || negb (predivider =? 0) then
    st_modify (fun s => set_IOMUX_CONF (Z.ldiff (IOMUX_CONF s) equ) s);;
    update_SPI bus (with_CLOCK
      (Z.lor (Z.lor (Z.lor (VAL2FIELD_M SPI_CLOCK_DIV_PRE_M SPI_CLOCK_DIV_PRE_S predivider)
        (VAL2FIELD_M SPI_CLOCK_COUNT_NUM_M SPI_CLOCK_COUNT_NUM_S count))
        (VAL2FIELD_M SPI_CLOCK_COUNT_HIGH_M SPI_CLOCK_COUNT_HIGH_S (count / 2)))
        (VAL2FIELD_M SPI_CLOCK_COUNT_LOW_M SPI_CLOCK_COUNT_LOW_S count)))
  else
    st_modify (fun s => set_IOMUX_CONF (Z.lor (IOMUX_CONF s) equ) s);;
    update_SPI bus (with_CLOCK SPI_CLOCK_EQU_SYS_CLOCK).
Definition spi_get_frequency_div (bus : Z) : ST (spi_soc H E) Z :=
  r ← get_SPI bus;
  mret (Z.lor (FIELD2VAL SPI_CLOCK_DIV_PRE_M SPI_CLOCK_DIV_PRE_S (CLOCK r) + 1)
              (FIELD2VAL SPI_CLOCK_COUNT_NUM_M SPI_CLOCK_COUNT_NUM_S (CLOCK r) + 1)).
Definition spi_get_frequency_hz (bus : Z) : ST (spi_soc H E) Z :=
  r ← get_SPI bus;
  mret (APB_CLK_FREQ / (FIELD2VAL SPI_CLOCK_DIV_PRE_M SPI_CLOCK_DIV_PRE_S (CLOCK r) + 1) /
          (FIELD2VAL SPI_CLOCK_COUNT_NUM_M SPI_CLOCK_COUNT_NUM_S (CLOCK r) + 1)).

(** The pins a controller takes. *)
Definition spi_init_pins (bus : Z) (minimal_pins : bool) : ST (spi_soc H E) bool :=
  if bus =? 0 then
    on_chip (gpio_set_iomux_function _SPI0_MISO_GPIO _SPI0_FUNC);;
    on_chip (gpio_set_iomux_function _SPI0_MOSI_GPIO _SPI0_FUNC);;
    on_chip (gpio_set_iomux_function _SPI0_SCK_GPIO _SPI0_FUNC);;
    (if negb minimal_pins then
       on_chip (gpio_set_iomux_function _SPI0_HD_GPIO _SPI0_FUNC);;
       on_chip (gpio_set_iomux_function _SPI0_WP_GPIO _SPI0_FUNC);;
       on_chip (gpio_set_iomux_function _SPI0_CS0_GPIO _SPI0_FUNC)
     else mret ());;
    mret true
  else if bus =? 1 then
    on_chip (gpio_set_iomux_function _SPI1_MISO_GPIO _SPI1_FUNC);;
    on_chip (gpio_set_iomux_function _SPI1_MOSI_GPIO _SPI1_FUNC);;
    on_chip (gpio_set_iomux_function _SPI1_SCK_GPIO _SPI1_FUNC);;
    (if negb minimal_pins then on_chip (gpio_set_iomux_function _SPI1_CS0_GPIO _SPI1_FUNC) else mret ());;
    mret true
  else mret false.
Definition spi_init (bus : Z) (m : spi_mode_t) (freq_divider : Z) (msb : bool) (e : spi_endianness_t)
    (minimal_pins : bool) : ST (spi_soc H E) bool :=
  known ← spi_init_pins bus minimal_pins;
  if negb known then mret false
  else
    st_modify (set_minimal bus minimal_pins);;
    update_SPI bus (with_USER0
      (Z.lor (Z.lor (Z.lor SPI_USER0_MOSI SPI_USER0_CLOCK_IN_EDGE) SPI_USER0_DUPLEX)
             (if minimal_pins then 0 else Z.lor SPI_USER0_CS_HOLD SPI_USER0_CS_SETUP)));;
    spi_set_frequency_div bus freq_divider;;
    spi_set_mode bus m;;
    spi_set_msb bus msb;;
    spi_set_endianness bus e;;
    mret true.
Definition spi_get_settings (bus : Z) : ST (spi_soc H E) spi_settings_t :=
  m ← spi_get_mode bus;
  d ← spi_get_frequency_div bus;
  b ← spi_get_msb bus;
  e ← spi_get_endianness bus;
  s ← st_get;
  mret {| mode := m; freq_divider := d; msb := b; endianness := e; minimal_pins := _minimal_pins s bus |}.
Definition spi_set_settings (bus : Z) (s : spi_settings_t) : ST (spi_soc H E) bool :=
  spi_init bus (mode s) (freq_divider s) (msb s) (endianness s) (minimal_pins s).

(** ** Transfers *)

Definition _set_size (bus bytes : Z) : ST (spi_soc H E) unit :=
  let bits := u32 (Z.shiftl bytes 3 - 1) in
  update_SPI bus (fun r => with_USER1 (u32 (SET_FIELD (USER1 r) SPI_USER1_MISO_BITLEN_M SPI_USER1_MISO_BITLEN_S bits)) r);;
  update_SPI bus (fun r => with_USER1 (u32 (SET_FIELD (USER1 r) SPI_USER1_MOSI_BITLEN_M SPI_USER1_MOSI_BITLEN_S bits)) r).

Fixpoint wait_loop (fuel : nat) (bus : Z) : ST (spi_soc H E) unit :=
  match fuel with
  | O => out_of_fuel
  | S fuel => usr ← read_CMD_USR bus; if (usr : bool) then wait_loop fuel bus else mret ()
  end.
Definition _wait (bus : Z) : ST (spi_soc H E) unit := wait_loop polls bus.
Definition _start (bus : Z) : ST (spi_soc H E) unit := write_CMD_USR bus.

Fixpoint prepare_loop (n : nat) (bus i : Z) (word_size : spi_word_size_t) : ST (spi_soc H E) unit :=
  match n with
  | O => mret ()
  | S n =>
      update_word bus i (match word_size with SPI_16BIT => _swap_words | _ => _swap_bytes end);;
      prepare_loop n bus (i + 1) word_size
  end.
Definition _spi_buf_prepare (bus len : Z) (e : spi_endianness_t) (word_size : spi_word_size_t) : ST (spi_soc H E) unit :=
  if bool_decide (e = SPI_LITTLE_ENDIAN) || bool_decide (word_size = SPI_32BIT) then mret ()
  else
    let count := match word_size with SPI_16BIT => (len + 1) / 2 | _ => (len + 3) / 4 end in
    prepare_loop (Z.to_nat count) bus 0 word_size.

(** The bytes of [in_data], none when it is null. *)
Definition _spi_buf_transfer (bus : Z) (out_data : list Z) (in_data : bool) (len : Z)
    (e : spi_endianness_t) (word_size : spi_word_size_t) : ST (spi_soc H E) (list Z) :=
  _wait bus;;
  let bytes := len * word_bytes word_size in
  _set_size bus (u8 bytes);;
  memcpy_to_W bus out_data bytes;;
  _spi_buf_prepare bus len e word_size;;
  _start bus;;
  _wait bus;;
  if in_data then
    _spi_buf_prepare bus len e word_size;;
    memcpy_from_W bus bytes
  else mret [].

Fixpoint blocks_loop (n : nat) (bus : Z) (out_data : list Z) (in_data : bool) (i buf_size : Z)
    (e : spi_endianness_t) (word_size : spi_word_size_t) : ST (spi_soc H E) (list Z) :=
  match n with
  | O => mret []
  | S n =>
      let offset := i * _SPI_BUF_SIZE in
      data ← _spi_buf_transfer bus (drop (Z.to_nat offset) out_data) in_data buf_size e word_size;
      rest ← blocks_loop n bus out_data in_data (i + 1) buf_size e word_size;
      mret (data ++ rest)
  end.
Definition spi_transfer (bus : Z) (out_data : option (list Z)) (in_data : bool) (len : Z)
    (word_size : spi_word_size_t) : ST (spi_soc H E) (Z * list Z) :=
  match out_data with
  | None => mret (0, [])
  | Some out_data =>
      if len =? 0 then mret (0, [])
      else
        e ← spi_get_endianness bus;
        let buf_size := u8 (_SPI_BUF_SIZE / word_bytes word_size) in
        let blocks := len / buf_size in
        data ← blocks_loop (Z.to_nat blocks) bus out_data in_data 0 buf_size e word_size;
        let tail := u8 (len mod buf_size) in
        rest ← (if negb (tail =? 0) then
                  _spi_buf_transfer bus (drop (Z.to_nat (blocks * _SPI_BUF_SIZE)) out_data) in_data tail e word_size
                else mret []);
        mret (len, data ++ rest)
  end.

(** One value; it is passed in memory, least significant byte first. *)
Definition spi_transfer_8 (bus data : Z) : ST (spi_soc H E) Z :=
  e ← spi_get_endianness bus;
  res ← _spi_buf_transfer bus (le_bytes 1 data) true 1 e SPI_8BIT;
  mret (le_val res).
Definition spi_transfer_16 (bus data : Z) : ST (spi_soc H E) Z :=
  e ← spi_get_endianness bus;
  res ← _spi_buf_transfer bus (le_bytes 2 data) true 1 e SPI_16BIT;
  mret (le_val res).
Definition spi_transfer_32 (bus data : Z) : ST (spi_soc H E) Z :=
  e ← spi_get_endianness bus;
  res ← _spi_buf_transfer bus (le_bytes 4 data) true 1 e SPI_32BIT;
  mret (le_val res).

(** [*fifoPtr = 0xFFFFFFFF] for each word. *)
Fixpoint fill_loop (dataSize : nat) (bus i : Z) : ST (spi_soc H E) unit :=
  match dataSize with
  | O => mret ()
  | S dataSize => update_word bus i (fun _ => 0xFFFFFFFF);; fill_loop dataSize bus (i + 1)
  end.
Definition spi_transfer_bytes_ (bus size : Z) : ST (spi_soc H E) (list Z) :=
  _wait bus;;
  _set_size bus size;;
  spi_set_endianness 1 SPI_LITTLE_ENDIAN;;
  fill_loop (Z.to_nat (u8 ((size + 3) / 4))) bus 0;;
  _start bus;;
  _wait bus;;
  data ← memcpy_from_W bus size;
  spi_set_endianness 1 SPI_BIG_ENDIAN;;
  mret data.
(** [bus] is not used.  Each turn takes up to 64 of the [size] bytes. *)
Fixpoint transfer_bytes_loop (fuel : nat) (size : Z) : ST (spi_soc H E) (list Z) :=
  if size =? 0 then mret []
  else
    match fuel with
    | O => out_of_fuel
    | S fuel =>
        if 64 <? size then
          data ← spi_transfer_bytes_ 1 64;
          rest ← transfer_bytes_loop fuel (size - 64);
          mret (data ++ rest)
        else spi_transfer_bytes_ 1 size
    end.
Definition spi_transfer_bytes (bus size : Z) : ST (spi_soc H E) (list Z) :=
  transfer_bytes_loop (Z.to_nat (size / 64 + 1)) size.
End functions.
