(* ===== verification/EspSpiBuffer.v ===== *)
(** * The data registers of the SPI controllers

    [SpiDevice] is a device behind a controller that follows the technical reference:
    a full-duplex transaction shifts out the bytes of the data registers in the byte
    order of the controller and stores the answer in the same places.  The driver
    rearranges the words of its buffer so that what is on the wire are the words of
    the caller in that byte order ([wp_buf_transfer]). *)

From S2P Require Import Prelude Gpio EspRegs EspGpio EspSpi.
Local Open Scope Z_scope.

(** ** Fields *)

Definition field (k s x : Z) : Z := Z.land (Z.shiftr x s) (Z.ones k).

Lemma field_bits k s x n : 0 <= k -> 0 <= s -> 0 <= n ->
  Z.testbit (field k s x) n = (n <? k) && Z.testbit x (n + s).
Proof.
  intros. unfold field. rewrite Z.land_spec, Z.shiftr_spec by lia. rewrite andb_comm.
  destruct (Z.ltb_spec n k); [by rewrite Z.ones_spec_low by lia|by rewrite Z.ones_spec_high by lia].
Qed.
Lemma VAL2FIELD_M_bits k s v n : 0 <= k -> 0 <= s -> 0 <= n ->
  Z.testbit (VAL2FIELD_M (Z.ones k) s v) n = (s <=? n) && (n <? s + k) && Z.testbit v (n - s).
Proof.
  intros. unfold VAL2FIELD_M. destruct (Z.leb_spec s n).
  - rewrite Z.shiftl_spec, Z.land_spec, andb_comm by lia. cbn [andb]. destruct (Z.ltb_spec n (s + k)).
    + by rewrite Z.ones_spec_low by lia.
    + by rewrite Z.ones_spec_high by lia.
  - by rewrite Z.shiftl_spec_low by lia.
Qed.
(** The bits of a register that SET_FIELD gets a value in range for. *)
Lemma SET_FIELD_bits k s r v n : 0 <= k -> 0 <= s -> 0 <= n -> 0 <= v < 2 ^ k ->
  Z.testbit (SET_FIELD r (Z.ones k) s v) n =
    if (s <=? n) && (n <? s + k) then Z.testbit v (n - s) else Z.testbit r n.
Proof.
  intros ? ? ? Hv. unfold SET_FIELD. rewrite Z.lor_spec, Z.ldiff_spec. destruct (Z.leb_spec s n); cbn [andb].
  - rewrite !Z.shiftl_spec by lia. destruct (Z.ltb_spec n (s + k)).
    + rewrite Z.ones_spec_low by lia. by rewrite andb_false_r.
    + rewrite Z.ones_spec_high, (testbit_high v k) by lia. by rewrite andb_true_r, orb_false_r.
  - rewrite !Z.shiftl_spec_low by lia. by rewrite andb_true_r, orb_false_r.
Qed.
Lemma u32_bits x n : 0 <= n -> Z.testbit (u32 x) n = (n <? 32) && Z.testbit x n.
Proof.
  intros. unfold u32. destruct (Z.ltb_spec n 32).
  - by rewrite Z.mod_pow2_bits_low by lia.
  - by rewrite Z.mod_pow2_bits_high by lia.
Qed.
(** A field is determined by its bits. *)
Lemma field_eq k s x v : 0 <= k -> 0 <= s -> 0 <= v < 2 ^ k ->
  (forall n, 0 <= n < k -> Z.testbit x (n + s) = Z.testbit v n) -> field k s x = v.
Proof.
  intros ? ? Hv Hb. apply Z.bits_inj'. intros n Hn. rewrite field_bits by lia.
  destruct (Z.ltb_spec n k); [by apply Hb|]. by rewrite (testbit_high v k).
Qed.
Ltac div_lia := zify; Z.to_euclidean_division_equations; lia.
Ltac range_tests := repeat match goal with
  | |- context [?a <=? ?b] => first [rewrite (proj2 (Z.leb_le a b)) by lia | rewrite (proj2 (Z.leb_gt a b)) by lia]
  | |- context [?a <? ?b] => first [rewrite (proj2 (Z.ltb_lt a b)) by lia | rewrite (proj2 (Z.ltb_ge a b)) by lia]
  end; cbn [andb orb].

(** ** Words of four bytes *)

Fixpoint on_groups (f : list Z -> list Z) (n : nat) (l : list Z) : list Z :=
  match n with
  | O => l
  | S n => f (take 4 l) ++ on_groups f n (drop 4 l)
  end.
(** [n] words of [k] bytes with the most significant byte first. *)
Fixpoint rev_words (n k : nat) (l : list Z) : list Z :=
  match n with
  | O => []
  | S n => rev (take k l) ++ rev_words n k (drop k l)
  end.
Definition swap2 (l : list Z) : list Z := drop 2 l ++ take 2 l.

(** The bytes of [len] words on the wire. *)
Definition encode (e : spi_endianness_t) (ws : spi_word_size_t) (len : Z) (l : list Z) : list Z :=
  match e with
  | SPI_LITTLE_ENDIAN => take (Z.to_nat (len * word_bytes ws)) l
  | SPI_BIG_ENDIAN => rev_words (Z.to_nat len) (Z.to_nat (word_bytes ws)) l
  end.

Definition keeps (f : list Z -> list Z) : Prop := forall l, length l = 4%nat -> length (f l) = 4%nat.

Lemma four (l : list Z) : (4 <= length l)%nat -> exists a b c d, l = a :: b :: c :: d :: drop 4 l.
Proof. intros Hl. destruct l as [|a [|b [|c [|d l]]]]; simpl in Hl; try lia. by exists a, b, c, d. Qed.

Lemma on_groups_length f n l : keeps f -> (4 * n <= length l)%nat -> length (on_groups f n l) = length l.
Proof.
  intros Hf. revert l; induction n as [|n IH]; intros l Hn; simpl; [done|].
  rewrite length_app, IH, Hf by (rewrite ?length_take, ?length_drop; lia). rewrite length_drop. lia.
Qed.
Lemma on_groups_S f n l : keeps f -> (4 <= length l)%nat ->
  take 4 (on_groups f (S n) l) = f (take 4 l) /\ drop 4 (on_groups f (S n) l) = on_groups f n (drop 4 l).
Proof.
  intros Hf Hl. cbn [on_groups]. assert (length (f (take 4 l)) = 4%nat) as E by (apply Hf; rewrite length_take; lia).
  split; [by apply take_app_length'|by apply drop_app_length'].
Qed.
(** Two passes over the words, one over more of them. *)
Lemma on_groups_after f g n m l : keeps f -> keeps g -> (n <= m)%nat -> (4 * n <= length l)%nat ->
  take (4 * n) (on_groups g m (on_groups f n l)) = take (4 * n) (on_groups (fun x => g (f x)) n l).
Proof.
  intros Hf Hg. revert m l; induction n as [|n IH]; intros [|m] l Hn Hl; try done; try lia.
  destruct (on_groups_S f n l) as [E1 E2]; [done|lia|].
  change (on_groups g (S m) ?x) with (g (take 4 x) ++ on_groups g m (drop 4 x)). rewrite E1, E2.
  change (on_groups ?h (S n) l) with (h (take 4 l) ++ on_groups h n (drop 4 l)).
  assert (length (g (f (take 4 l))) = 4%nat) as L by (apply Hg, Hf; rewrite length_take; lia).
  replace (4 * S n)%nat with (4 + 4 * n)%nat by lia. cbv beta.
  rewrite !take_app_add' by done. rewrite IH; [done|lia|rewrite length_drop; lia].
Qed.
Lemma on_groups_before f g n m l : keeps g -> (n <= m)%nat -> (4 * m <= length l)%nat ->
  keeps f -> take (4 * n) (on_groups f n (on_groups g m l)) = take (4 * n) (on_groups (fun x => f (g x)) n l).
Proof.
  intros Hg Hn Hl Hf. revert m l Hn Hl; induction n as [|n IH]; intros [|m] l Hn Hl; try done; try lia.
  destruct (on_groups_S g m l) as [E1 E2]; [done|lia|].
  change (on_groups f (S n) ?x) with (f (take 4 x) ++ on_groups f n (drop 4 x)). rewrite E1, E2.
  change (on_groups ?h (S n) l) with (h (take 4 l) ++ on_groups h n (drop 4 l)).
  assert (length (f (g (take 4 l))) = 4%nat) as L by (apply Hf, Hg; rewrite length_take; lia).
  replace (4 * S n)%nat with (4 + 4 * n)%nat by lia. cbv beta.
  rewrite !take_app_add' by done. rewrite IH; [done|lia|rewrite length_drop; lia].
Qed.

Lemma groups_id h n l : (forall x, length x = 4%nat -> h x = x) -> (4 * n <= length l)%nat -> on_groups h n l = l.
Proof.
  intros Hh. revert l; induction n as [|n IH]; intros l Hl; cbn [on_groups]; [done|].
  rewrite Hh by (rewrite length_take; lia). rewrite IH by (rewrite length_drop; lia). apply take_drop.
Qed.
Lemma groups_pairs h c n l : (forall a b c d, h [a; b; c; d] = [b; a; d; c]) -> (n <= 2 * c)%nat -> (4 * c <= length l)%nat ->
  take (2 * n) (on_groups h c l) = rev_words n 2 l.
Proof.
  intros Hh. revert n l; induction c as [|c IH]; intros n l Hn Hl.
  { by replace n with 0%nat by lia. }
  destruct (four l ltac:(lia)) as (x & y & z & w & E). rewrite E. cbn [on_groups].
  change (take 4 (x :: y :: z :: w :: drop 4 l)) with [x; y; z; w].
  change (drop 4 (x :: y :: z :: w :: drop 4 l)) with (drop 4 l). rewrite Hh.
  destruct n as [|[|n]]; [done|done|]. replace (2 * S (S n))%nat with (4 + 2 * n)%nat by lia.
  change (rev_words (S (S n)) 2 (x :: y :: z :: w :: drop 4 l)) with ([y; x; w; z] ++ rev_words n 2 (drop 4 l)).
  rewrite take_app_add', IH; [done|lia|rewrite length_drop; lia|done].
Qed.
Lemma groups_words n l : (4 * n <= length l)%nat -> take (4 * n) (on_groups (@rev Z) n l) = rev_words n 4 l.
Proof.
  revert l; induction n as [|n IH]; intros l Hl; [done|]. cbn [on_groups rev_words].
  assert (length (rev (take 4 l)) = 4%nat) as L by (rewrite length_rev, length_take; lia).
  replace (4 * S n)%nat with (4 + 4 * n)%nat by lia.
  rewrite take_app_add', IH; [done|rewrite length_drop; lia|done].
Qed.
Lemma rev_words_take n k m l : (n * k <= m)%nat -> rev_words n k (take m l) = rev_words n k l.
Proof.
  revert m l; induction n as [|n IH]; intros m l Hm; [done|]. cbn [rev_words].
  rewrite take_take, Nat.min_l, skipn_firstn_comm by lia. f_equal. rewrite IH by lia. done.
Qed.
Lemma rev_words_byte n l : (n <= length l)%nat -> rev_words n 1 l = take n l.
Proof.
  revert l; induction n as [|n IH]; intros l Hl; [done|]. destruct l as [|x l]; [simpl in Hl; lia|].
  change (rev_words (S n) 1 (x :: l)) with (x :: rev_words n 1 l). rewrite IH; [done|simpl in Hl; lia].
Qed.

(** *** The swaps of the driver *)

Lemma land_byte_mask b : is_byte b -> Z.land b 255 = b.
Proof. intros ?. by rewrite Z.land_comm, land_byte_255. Qed.
Lemma le_val4_bits a b c d n : Forall is_byte [a; b; c; d] -> 0 <= n ->
  Z.testbit (le_val [a; b; c; d]) n =
    if n <? 8 then Z.testbit a n else if n <? 16 then Z.testbit b (n - 8)
    else if n <? 24 then Z.testbit c (n - 16) else Z.testbit d (n - 24).
Proof.
  rewrite !Forall_cons. unfold is_byte. intros (Ha & Hb & Hc & Hd & _) Hn.
  assert (E : le_val [a; b; c; d] = Z.lor a (Z.shiftl (Z.lor b (Z.shiftl (Z.lor c (Z.shiftl d 8)) 8)) 8)).
  { cbn [le_val]. rewrite !lor_low_high, !Z.shiftl_mul_pow2 by (rewrite ?Z.shiftl_mul_pow2; lia). lia. }
  rewrite E, Z.lor_spec. destruct (Z.ltb_spec n 8).
  { by rewrite Z.shiftl_spec_low, orb_false_r by lia. }
  rewrite (testbit_high a 8), orb_false_l, Z.shiftl_spec, Z.lor_spec by lia. destruct (Z.ltb_spec n 16).
  { by rewrite Z.shiftl_spec_low, orb_false_r by lia. }
  rewrite (testbit_high b 8), orb_false_l, Z.shiftl_spec, Z.lor_spec by lia. destruct (Z.ltb_spec n 24).
  { rewrite Z.shiftl_spec_low, orb_false_r by lia. f_equal. lia. }
  rewrite (testbit_high c 8), orb_false_l, Z.shiftl_spec by lia. f_equal. lia.
Qed.
Lemma le_bytes_inj4 x a b c d : Forall is_byte [a; b; c; d] -> 0 <= x < 2 ^ 32 -> (forall n, 0 <= n < 32 -> Z.testbit x n = Z.testbit (le_val [a; b; c; d]) n) ->
  le_bytes 4 x = [a; b; c; d].
Proof.
  intros B Hx Hn.
  assert (x = le_val [a; b; c; d]) as ->; [|exact (le_bytes_val _ B)].
  apply Z.bits_inj'. intros n Hn0. destruct (Z.ltb_spec n 32); [by apply Hn|].
  pose proof (le_val_range _ B). by rewrite !(testbit_high _ 32).
Qed.
Lemma shl32_bits v k n : 0 <= k -> 0 <= n -> Z.testbit (u32 (Z.shiftl v k)) n = (k <=? n) && (n <? 32) && Z.testbit v (n - k).
Proof.
  intros. rewrite u32_bits by lia. destruct (Z.leb_spec k n).
  - by rewrite Z.shiftl_spec by lia.
  - by rewrite Z.shiftl_spec_low, andb_false_r by lia.
Qed.
Lemma mask_bits k s n : 0 <= k -> 0 <= s -> 0 <= n ->
  Z.testbit (Z.shiftl (Z.ones k) s) n = (s <=? n) && (n <? s + k).
Proof.
  intros. replace (Z.ones k) with (Z.land (Z.ones k) (Z.ones k)) by apply Z.land_diag.
  change (Z.shiftl (Z.land ?v ?m) s) with (VAL2FIELD_M m s v). rewrite VAL2FIELD_M_bits by lia.
  destruct (Z.leb_spec s n); [|done]. destruct (Z.ltb_spec n (s + k)); [|done]. by rewrite Z.ones_spec_low by lia.
Qed.
Ltac byte_of n := destruct (Z.ltb_spec n 8); [|destruct (Z.ltb_spec n 16); [|destruct (Z.ltb_spec n 24)]]; range_tests.


(** The bits of [v], a word of four bytes, by the position of its byte. *)
Ltac word_bits v VB VH :=
  repeat match goal with |- context [Z.testbit v ?m] => first [rewrite (VH m) by lia | rewrite (VB m) by lia; range_tests] end;
  rewrite ?orb_false_r, ?andb_false_r; cbn [orb andb]; rewrite ?orb_false_r; try (f_equal; lia).
Ltac start_swap v VB VH B' :=
  intros B; pose proof (le_val_range _ B);
  pose proof (fun n => le_val4_bits _ _ _ _ n B) as VB;
  match goal with |- context [le_val ?l] => set (v := le_val l) in * end;
  assert (VH : forall n, 32 <= n -> Z.testbit v n = false) by (intros; by apply (testbit_high _ 32));
  match goal with |- _ = ?r => assert (B' : Forall is_byte r) by (rewrite !Forall_cons in B |- *; naive_solver) end;
  clearbody v.

Lemma swap_words_bytes a b c d : Forall is_byte [a; b; c; d] ->
  le_bytes 4 (_swap_words (le_val [a; b; c; d])) = [c; d; a; b].
Proof.
  start_swap v VB VH B'. apply le_bytes_inj4; [done| |].
  - apply word_bits; unfold _swap_words.
    + apply Z.lor_nonneg. split; [apply u32_range|apply Z.shiftr_nonneg, H].
    + intros n Hn. rewrite Z.lor_spec, shl32_bits, Z.shiftr_spec by lia. range_tests. word_bits v VB VH.
  - intros n Hn. unfold _swap_words. rewrite Z.lor_spec, shl32_bits, Z.shiftr_spec, le_val4_bits by (done || lia).
    byte_of n; by word_bits v VB VH.
Qed.
Lemma swap_bytes_bytes a b c d : Forall is_byte [a; b; c; d] ->
  le_bytes 4 (_swap_bytes (le_val [a; b; c; d])) = [d; c; b; a].
Proof.
  start_swap v VB VH B'. assert (Hbits : forall n, 0 <= n -> Z.testbit (_swap_bytes v) n =
      (24 <=? n) && (n <? 32) && Z.testbit v (n - 24) || (16 <=? n) && (n <? 24) && Z.testbit v (n - 8) ||
      (8 <=? n) && (n <? 16) && Z.testbit v (n + 8) || Z.testbit v (n + 24)).
  { intros n Hn. unfold _swap_bytes. change 0x00ff0000 with (Z.shiftl (Z.ones 8) 16).
    change 0x0000ff00 with (Z.shiftl (Z.ones 8) 8).
    rewrite !Z.lor_spec, !Z.land_spec, !mask_bits, !shl32_bits, !Z.shiftr_spec by lia.
    byte_of n; rewrite ?andb_true_r, ?andb_false_r; done. }
  apply le_bytes_inj4; [done| |].
  - apply word_bits.
    + unfold _swap_bytes. rewrite !Z.lor_nonneg, !Z.land_nonneg. split_and!; first [apply Z.shiftr_nonneg, H|apply u32_range|right; lia].
    + intros n Hn. rewrite Hbits by lia. range_tests. by word_bits v VB VH.
  - intros n Hn. rewrite Hbits, le_val4_bits by (done || lia). byte_of n; by word_bits v VB VH.
Qed.

(** ** The device behind a controller *)

(** The bytes of the data registers in the order in which they are shifted. *)
Definition wire (big : bool) (w : list Z) : list Z := if big then on_groups (@rev Z) 16 w else w.

(** What the device sees of the settings: bit order, clock and edges. *)
Definition line (r : spi_regs) : Z * Z * Z * Z := (CTRL0 r, CLOCK r, USER0 r, SPIN r).

(** A full-duplex data transaction without a command, address or dummy phase. *)
Definition duplex (big : bool) (r : spi_regs) : Prop :=
  Z.testbit (USER0 r) 27 = true /\ Z.testbit (USER0 r) 0 = true /\
  Forall (fun i => Z.testbit (USER0 r) i = false) [24; 25; 28; 29; 30; 31] /\
  Z.testbit (USER0 r) 11 = big /\ Z.testbit (USER0 r) 10 = big.
Definition same_settings (r r' : spi_regs) : Prop :=
  CTRL0 r' = CTRL0 r /\ CLOCK r' = CLOCK r /\ USER0 r' = USER0 r /\ SPIN r' = SPIN r.
Definition buffer_ok (r : spi_regs) : Prop := length (W r) = 64%nat /\ Forall is_byte (W r).

(** [slave b l d out]: what a device in state [d] answers on controller [b] to the
    bytes [out], and its next state.  [spi_running b n e d]: a transaction is
    running, USR will read 1 for [n] more reads. *)
Class SpiDevice (E D : Type) `{!Pads E, !SpiPads E} := {
  slave : Z -> Z * Z * Z * Z -> D -> list Z -> list Z * D;
  max_polls : nat;
  spi_idle : Z -> E -> D -> Prop;
  spi_running : Z -> nat -> E -> D -> Prop;
  slave_length b l d out : length (slave b l d out).1 = length out;
  slave_bytes b l d out : Forall is_byte (slave b l d out).1;
  law_pads b e d g g' : spi_idle b e d -> spi_idle b (pad_update g g' e) d;
  law_idle b r e d : spi_idle b e d -> exists e', cmd_usr b r e = (false, r, e') /\ spi_idle b e' d;
  law_start b r e d : spi_idle b e d -> exists n, (n < max_polls)%nat /\ spi_running b n (usr_start b r e) d;
  law_busy b n r e d : spi_running b (S n) e d -> exists e', cmd_usr b r e = (true, r, e') /\ spi_running b n e' d;
  law_done b big k r e d : spi_running b 0 e d -> duplex big r -> buffer_ok r -> 1 <= k <= 64 ->
    field 9 17 (USER1 r) = 8 * k - 1 -> field 9 8 (USER1 r) = 8 * k - 1 ->
    let answer := slave b (line r) d (take (Z.to_nat k) (wire big (W r))) in
    exists r' e', cmd_usr b r e = (false, r', e') /\ same_settings r r' /\ buffer_ok r' /\
      take (Z.to_nat k) (wire big (W r')) = answer.1 /\ spi_idle b e' answer.2
}.

(** ** Steps of the driver *)

Section steps.
Context {H E D : Type} `{!Pads E, !SpiPads E, !SpiDevice E D}.
Implicit Types s : spi_soc H E.

(** Only the registers of [bus] and the world differ between [s0] and [s]. *)
Definition at_bus (s0 : spi_soc H E) (bus : Z) (r : spi_regs) (e : E) (s : spi_soc H E) : Prop :=
  SPI s bus = r /\ world (chip s) = e /\ (forall b, b <> bus -> SPI s b = SPI s0 b) /\
  chip s = set_world e (chip s0) /\ IOMUX_CONF s = IOMUX_CONF s0 /\ _minimal_pins s = _minimal_pins s0.

Lemma at_bus_start s bus : at_bus s bus (SPI s bus) (world (chip s)) s.
Proof. unfold at_bus. split_and!; try done. by destruct s as [[]]. Qed.

Context (s0 : spi_soc H E) (bus : Z) (Hbus : spi_exists bus = true).

Lemma at_bus_set r e s r' e' : at_bus s0 bus r e s ->
  at_bus s0 bus r' e' (set_SPI bus r' (set_chip (set_world e' (chip s)) s)).
Proof using.
  intros (_ & _ & HS & HC & HI & HM). unfold at_bus. cbn [SPI chip IOMUX_CONF _minimal_pins set_SPI set_chip world set_world].
  rewrite Z.eqb_refl. split_and!; try done.
  - intros b Hb. rewrite (proj2 (Z.eqb_neq b bus)) by done. by apply HS.
  - by rewrite HC.
Qed.
Lemma at_bus_update r e s r' : at_bus s0 bus r e s -> at_bus s0 bus r' e (set_SPI bus r' s).
Proof using.
  intros Hs. pose proof (at_bus_set r e s r' e Hs) as G. destruct Hs as (_ & He & _).
  replace (set_chip (set_world e (chip s)) s) with s in G; [done|]. rewrite <- He. by destruct s as [[]].
Qed.
Lemma wp_update_SPI r e s f (Q : unit -> spi_soc H E -> Prop) : at_bus s0 bus r e s ->
  (forall s', at_bus s0 bus (f r) e s' -> Q () s') -> wp (update_SPI bus f) Q s.
Proof using Hbus.
  intros Hs HQ. unfold wp, update_SPI. rewrite Hbus. apply HQ. rewrite (proj1 Hs). by apply (at_bus_update r).
Qed.
Lemma wp_get_SPI r e s (Q : spi_regs -> spi_soc H E -> Prop) : at_bus s0 bus r e s -> Q r s -> wp (get_SPI bus) Q s.
Proof using Hbus. intros Hs HQ. unfold wp, get_SPI. by rewrite Hbus, (proj1 Hs). Qed.
Lemma wp_read_CMD r e s b r' e' (Q : bool -> spi_soc H E -> Prop) : at_bus s0 bus r e s ->
  cmd_usr bus r e = (b, r', e') -> (forall s', at_bus s0 bus r' e' s' -> Q b s') -> wp (read_CMD_USR bus) Q s.
Proof using Hbus.
  intros Hs E' HQ. pose proof Hs as (Hr & He & _). unfold wp, read_CMD_USR. rewrite Hbus, Hr, He, E'.
  apply HQ. by apply (at_bus_set r e).
Qed.
Lemma wp_start r e s (Q : unit -> spi_soc H E -> Prop) : at_bus s0 bus r e s ->
  (forall s', at_bus s0 bus r (usr_start bus r e) s' -> Q () s') -> wp (_start bus) Q s.
Proof using Hbus.
  intros Hs HQ. pose proof Hs as (Hr & He & HS & HC & HI & HM). unfold wp, _start, write_CMD_USR. rewrite Hbus, Hr, He.
  apply HQ. unfold at_bus. cbn [SPI chip IOMUX_CONF _minimal_pins set_chip world set_world]. split_and!; try done. by rewrite HC.
Qed.

Lemma wp_wait_idle polls r e s d (Q : unit -> spi_soc H E -> Prop) : (0 < polls)%nat -> at_bus s0 bus r e s ->
  spi_idle bus e d -> (forall s' e', at_bus s0 bus r e' s' -> spi_idle bus e' d -> Q () s') -> wp (_wait polls bus) Q s.
Proof using Hbus.
  intros Hp Hs Hi HQ. destruct polls as [|polls]; [lia|]. unfold _wait. cbn [wait_loop]. apply wp_bind.
  destruct (law_idle bus r e d Hi) as (e' & E' & Hi'). eapply wp_read_CMD; [done|done|].
  intros s' Hs'. apply wp_ret. by eapply HQ.
Qed.
Lemma wp_wait_running polls n big k r e s d (Q : unit -> spi_soc H E -> Prop) : (n < polls)%nat -> at_bus s0 bus r e s ->
  spi_running bus n e d -> duplex big r -> buffer_ok r -> 1 <= k <= 64 ->
  field 9 17 (USER1 r) = 8 * k - 1 -> field 9 8 (USER1 r) = 8 * k - 1 ->
  let answer := slave bus (line r) d (take (Z.to_nat k) (wire big (W r))) in
  (forall s' r' e', at_bus s0 bus r' e' s' -> same_settings r r' -> buffer_ok r' ->
     take (Z.to_nat k) (wire big (W r')) = answer.1 -> spi_idle bus e' answer.2 -> Q () s') ->
  wp (_wait polls bus) Q s.
Proof using Hbus.
  intros Hp Hs Hr Hd Hb Hk H1 H2 answer HQ. unfold _wait. revert n e s Hp Hs Hr. induction polls as [|polls IH]; intros n e s Hp Hs Hr; [lia|].
  cbn [wait_loop]. apply wp_bind. destruct n as [|n].
  - destruct (law_done bus big k r e d Hr Hd Hb Hk H1 H2) as (r' & e' & E' & Hrest).
    eapply wp_read_CMD; [done|done|]. intros s' Hs'. apply wp_ret. destruct Hrest as (? & ? & ? & ?). by eapply HQ.
  - destruct (law_busy bus n r e d Hr) as (e' & E' & Hr'). eapply wp_read_CMD; [done|done|].
    intros s' Hs'. apply (IH n e'); [lia|done|done].
Qed.
End steps.

(** ** The buffer *)

Definition is_big (e : spi_endianness_t) : bool := match e with SPI_BIG_ENDIAN => true | _ => false end.
(** What _spi_buf_prepare does to a word, and to the data registers. *)
Definition prep (ws : spi_word_size_t) : list Z -> list Z := match ws with SPI_16BIT => swap2 | _ => @rev Z end.
Definition prepared_words (ws : spi_word_size_t) (len : Z) : nat :=
  Z.to_nat match ws with SPI_16BIT => (len + 1) / 2 | _ => (len + 3) / 4 end.
Definition prepared (e : spi_endianness_t) (ws : spi_word_size_t) (len : Z) (w : list Z) : list Z :=
  match e, ws with
  | SPI_LITTLE_ENDIAN, _ | _, SPI_32BIT => w
  | _, _ => on_groups (prep ws) (prepared_words ws len) w
  end.
Definition size (ws : spi_word_size_t) (len : Z) : nat := Z.to_nat (len * word_bytes ws).

Lemma rev_keeps : keeps (@rev Z).
Proof. intros l Hl. by rewrite length_rev. Qed.
Lemma swap2_keeps : keeps swap2.
Proof. intros l Hl. unfold swap2. rewrite length_app, length_drop, length_take. lia. Qed.
Lemma prep_keeps ws : keeps (prep ws).
Proof. destruct ws; auto using rev_keeps, swap2_keeps. Qed.
Lemma rev_rev_keeps : keeps (fun x : list Z => rev (rev x)).
Proof. intros l Hl. by rewrite !length_rev. Qed.

Lemma wire_length big w : length w = 64%nat -> length (wire big w) = 64%nat.
Proof. intros Hl. destruct big; [|done]. cbn [wire]. rewrite on_groups_length; [done|apply rev_keeps|lia]. Qed.
Lemma wire_wire big w : length w = 64%nat -> wire big (wire big w) = w.
Proof.
  intros Hl. destruct big; [|done]. pose proof (wire_length true _ (wire_length true w Hl)) as L.
  rewrite <- (take_ge (wire true (wire true w)) 64) by lia. cbn [wire].
  change 64%nat with (4 * 16)%nat. rewrite on_groups_after by (apply rev_keeps || lia).
  rewrite groups_id; [by rewrite take_ge by lia|intros; apply rev_involutive|lia].
Qed.
Lemma encode_take e ws len l : 0 <= len -> encode e ws len (take (size ws len) l) = encode e ws len l.
Proof.
  intros Hl. unfold encode, size. destruct e.
  - by rewrite take_take, Nat.min_id.
  - apply rev_words_take. destruct ws; cbn [word_bytes]; lia.
Qed.

Section arrange.
Context (ws : spi_word_size_t) (len : Z) (Hlen : 0 <= len) (Hsize : len * word_bytes ws <= 64).

(** The words of the driver against the words of the controller. *)
Lemma prepared_bound : (4 * prepared_words ws len <= 64)%nat.
Proof using Hlen Hsize. unfold prepared_words. destruct ws; cbn [word_bytes] in Hsize; cbv iota; div_lia. Qed.
Lemma groups_encode h w : length w = 64%nat -> ws <> SPI_32BIT ->
  (forall a b c d, h [a; b; c; d] = match ws with SPI_16BIT => [b; a; d; c] | _ => [a; b; c; d] end) ->
  take (size ws len) (on_groups h (prepared_words ws len) w) = encode SPI_BIG_ENDIAN ws len w.
Proof using Hlen Hsize.
  intros Hl Hws Hh. pose proof prepared_bound as Hb. unfold size, encode. destruct ws; cbn [word_bytes] in *; [| |done].
  - rewrite groups_id; [|intros x Hx|lia].
    + rewrite rev_words_byte by lia. by rewrite Z.mul_1_r.
    + destruct (four x ltac:(lia)) as (a & b & c & d & ->). rewrite (drop_ge x 4) by lia. apply Hh.
  - replace (Z.to_nat (len * 2)) with (2 * Z.to_nat len)%nat by lia.
    rewrite groups_pairs; [done|exact Hh| |lia]. unfold prepared_words. cbv iota. div_lia.
Qed.
Lemma words_encode w : length w = 64%nat -> ws = SPI_32BIT ->
  take (size ws len) (wire true w) = encode SPI_BIG_ENDIAN ws len w.
Proof using Hlen Hsize.
  intros Hl E. unfold size, encode, wire. rewrite E in *. cbn [word_bytes] in *.
  replace (Z.to_nat (len * 4)) with (4 * Z.to_nat len)%nat by lia. change (Z.to_nat 4) with 4%nat.
  transitivity (take (4 * Z.to_nat len) (on_groups (@rev Z) (Z.to_nat len) (on_groups (fun x => x) 16 w))).
  2:{ rewrite (groups_id (fun x => x) 16) by (done || lia). apply groups_words. lia. }
  rewrite <- (groups_id (fun x => x) (Z.to_nat len) w) at 1 by (done || lia).
  rewrite on_groups_after, on_groups_before; first [apply rev_keeps | lia | done | by intros x Hx].
Qed.
Lemma wire_prepared e w : length w = 64%nat ->
  take (size ws len) (wire (is_big e) (prepared e ws len w)) = encode e ws len w.
Proof using Hlen Hsize.
  intros Hl. pose proof prepared_bound as Hb. destruct e; [done|]. unfold is_big, prepared.
  destruct (decide (ws = SPI_32BIT)) as [E|E].
  { rewrite <- words_encode by done. by rewrite E. }
  transitivity (take (size ws len) (take (4 * prepared_words ws len)
    (wire true (on_groups (prep ws) (prepared_words ws len) w)))).
  { rewrite take_take, Nat.min_l; [by destruct ws|]. unfold size, prepared_words in *. destruct ws; cbn [word_bytes] in *; cbv iota in *; [div_lia|div_lia|done]. }
  cbn [wire]. rewrite on_groups_after by (apply rev_keeps || apply prep_keeps || lia).
  rewrite take_take, Nat.min_l by (unfold size, prepared_words in *; destruct ws; cbn [word_bytes] in *; cbv iota in *; [div_lia|div_lia|done]).
  apply groups_encode; [done|done|]. intros. by destruct ws.
Qed.
Lemma prepared_wire e w : length w = 64%nat ->
  take (size ws len) (prepared e ws len w) = encode e ws len (wire (is_big e) w).
Proof using Hlen Hsize.
  intros Hl. pose proof prepared_bound as Hb. destruct e; [done|]. unfold is_big.
  pose proof (wire_length true w Hl) as Hl'. rewrite <- (wire_wire true w Hl) at 1. set (v := wire true w) in *.
  unfold prepared. destruct (decide (ws = SPI_32BIT)) as [E|E].
  { rewrite <- words_encode by done. by rewrite E. }
  transitivity (take (size ws len) (take (4 * prepared_words ws len)
    (on_groups (prep ws) (prepared_words ws len) (wire true v)))).
  { rewrite take_take, Nat.min_l; [by destruct ws|]. unfold size, prepared_words in *. destruct ws; cbn [word_bytes] in *; cbv iota in *; [div_lia|div_lia|done]. }
  cbn [wire]. rewrite on_groups_before by (apply rev_keeps || apply prep_keeps || lia).
  rewrite take_take, Nat.min_l by (unfold size, prepared_words in *; destruct ws; cbn [word_bytes] in *; cbv iota in *; [div_lia|div_lia|done]).
  apply groups_encode; [done|done|]. intros. by destruct ws.
Qed.
End arrange.

(** ** A transfer *)

Lemma prep_word ws x : ws <> SPI_32BIT -> length x = 4%nat -> Forall is_byte x ->
  le_bytes 4 ((match ws with SPI_16BIT => _swap_words | _ => _swap_bytes end) (le_val x)) = prep ws x.
Proof.
  intros Hws Hl Hx. destruct (four x ltac:(lia)) as (a & b & c & d & E). rewrite (drop_ge x 4) in E by lia. subst x.
  destruct ws; [by apply swap_bytes_bytes|by apply swap_words_bytes|done].
Qed.
Lemma prep_byte ws l : Forall is_byte l -> Forall is_byte (prep ws l).
Proof.
  intros Hl. destruct ws; cbn [prep]; [by apply Forall_rev| |by apply Forall_rev].
  unfold swap2. apply Forall_app. split; [by apply Forall_drop|by apply Forall_take].
Qed.
Lemma on_groups_byte f n l : (forall x, Forall is_byte x -> Forall is_byte (f x)) -> Forall is_byte l -> Forall is_byte (on_groups f n l).
Proof.
  intros Hf. revert l; induction n as [|n IH]; intros l Hl; [done|]. cbn [on_groups].
  apply Forall_app. split; [by apply Hf, Forall_take|by apply IH, Forall_drop].
Qed.
Lemma prepared_ok e ws len r : 0 <= len -> len * word_bytes ws <= 64 -> buffer_ok r ->
  buffer_ok (with_W (prepared e ws len (W r)) r).
Proof.
  intros Hl Hs [HL HB]. pose proof (prepared_bound ws len Hl Hs). unfold buffer_ok, prepared. cbn [W with_W].
  destruct e; [done|]. destruct ws; [| |done]; (split; [rewrite on_groups_length; [done|apply prep_keeps|lia]
    |apply on_groups_byte; [apply prep_byte|done]]).
Qed.
(** The registers after _set_size. *)
Definition sized (bytes : Z) (r : spi_regs) : spi_regs :=
  let bits := u32 (Z.shiftl bytes 3 - 1) in
  let miso := u32 (SET_FIELD (USER1 r) SPI_USER1_MISO_BITLEN_M SPI_USER1_MISO_BITLEN_S bits) in
  with_USER1 (u32 (SET_FIELD miso SPI_USER1_MOSI_BITLEN_M SPI_USER1_MOSI_BITLEN_S bits)) r.
Lemma sized_fields k r : 1 <= k <= 64 ->
  field 9 17 (USER1 (sized k r)) = 8 * k - 1 /\ field 9 8 (USER1 (sized k r)) = 8 * k - 1.
Proof.
  intros Hk. unfold sized. rewrite Z.shiftl_mul_pow2 by lia. rewrite (u32_small (k * 2 ^ 3 - 1)) by lia.
  change SPI_USER1_MISO_BITLEN_M with (Z.ones 9). change SPI_USER1_MOSI_BITLEN_M with (Z.ones 9).
  change SPI_USER1_MISO_BITLEN_S with 8. change SPI_USER1_MOSI_BITLEN_S with 17. cbn [USER1 with_USER1].
  split; (apply field_eq; [lia|lia|lia|]); intros n Hn; rewrite u32_bits, SET_FIELD_bits by lia; range_tests.
  - f_equal; lia.
  - rewrite u32_bits, SET_FIELD_bits by lia. range_tests. f_equal; lia.
Qed.

Section transfer.
Context {H E D : Type} `{!Pads E, !SpiPads E, !SpiDevice E D}.
Context (s0 : spi_soc H E) (bus : Z) (Hbus : spi_exists bus = true).

Lemma wp_prepare_loop ws n i r e s (Q : unit -> spi_soc H E -> Prop) : ws <> SPI_32BIT -> 0 <= i ->
  at_bus s0 bus r e s -> buffer_ok r -> i + Z.of_nat n <= 16 ->
  (forall s', at_bus s0 bus (with_W (take (Z.to_nat (4 * i)) (W r) ++
     on_groups (prep ws) n (drop (Z.to_nat (4 * i)) (W r))) r) e s' -> Q () s') ->
  wp (prepare_loop n bus i ws) Q s.
Proof using Hbus.
  intros Hws. revert i r s; induction n as [|n IH]; intros i r s Hi Hs [HL HB] Hn HQ.
  { apply wp_ret, HQ. cbn [on_groups]. rewrite take_drop. by destruct r. }
  cbn [prepare_loop]. apply wp_bind. unfold update_word. rewrite (proj2 (Z.ltb_lt i 16)) by lia.
  eapply wp_update_SPI; [done|done|]. intros s' Hs'. cbn [W] in Hs'. unfold word_at, put_word in Hs'.
  set (w := W r) in *. set (k := Z.to_nat (4 * i)) in *.
  assert (Hx : length (take 4 (drop k w)) = 4%nat) by (rewrite length_take, length_drop; lia).
  rewrite (prep_word ws) in Hs' by (done || by apply Forall_take, Forall_drop).
  replace (Z.to_nat (4 * i + 4)) with (k + 4)%nat in Hs' by lia.
  assert (Hp : length (prep ws (take 4 (drop k w))) = 4%nat) by (by apply prep_keeps).
  assert (Hk : length (take k w) = k) by (rewrite length_take; lia).
  match type of Hs' with at_bus _ _ ?r1 _ _ => apply (IH (i + 1) r1 s') end; [lia|exact Hs'| |lia|].
  - unfold buffer_ok. cbn [W with_W]. split.
    + rewrite !length_app, Hk, Hp, length_drop. lia.
    + rewrite !Forall_app. split_and!; [by apply Forall_take|by apply prep_byte, Forall_take, Forall_drop|by apply Forall_drop].
  - intros s'' Hs''. apply HQ. cbn [W with_W] in Hs''. replace (Z.to_nat (4 * (i + 1))) with (k + 4)%nat in Hs'' by lia.
    rewrite app_assoc in Hs''. rewrite take_app_length', drop_app_length' in Hs'' by (rewrite length_app; lia).
    cbn [on_groups]. rewrite drop_drop, app_assoc. exact Hs''.
Qed.
Lemma wp_prepare en ws len r e s (Q : unit -> spi_soc H E -> Prop) : 0 <= len -> len * word_bytes ws <= 64 ->
  at_bus s0 bus r e s -> buffer_ok r ->
  (forall s', at_bus s0 bus (with_W (prepared en ws len (W r)) r) e s' -> Q () s') ->
  wp (_spi_buf_prepare bus len en ws) Q s.
Proof using Hbus.
  intros Hl Hz Hs Hb HQ. unfold _spi_buf_prepare. assert (Er : with_W (W r) r = r) by (by destruct r).
  pose proof (prepared_bound ws len Hl Hz) as Hn. unfold prepared_words in Hn.
  destruct (bool_decide_reflect (en = SPI_LITTLE_ENDIAN)) as [->|Hen].
  { apply wp_ret, HQ. cbn [prepared]. by rewrite Er. }
  destruct (bool_decide_reflect (ws = SPI_32BIT)) as [->|Hws].
  { apply wp_ret, HQ. destruct en; cbn [prepared]; by rewrite Er. }
  cbn [orb]. destruct en; [done|]. eapply (wp_prepare_loop ws); [done|lia|done|done|lia|].
  intros s' Hs'. apply HQ. destruct ws; [exact Hs'|exact Hs'|done].
Qed.

(** One exchange through the data registers: the device gets the words that start at
    [out] in the byte order of the controller, and its answer is stored the same way. *)
Lemma wp_buf_transfer polls en ws len out (in_data : bool) r e s d
    (Q : list Z -> spi_soc H E -> Prop) :
  (max_polls < polls)%nat -> at_bus s0 bus r e s -> spi_idle bus e d -> duplex (is_big en) r -> buffer_ok r ->
  Forall is_byte out -> 1 <= len -> len * word_bytes ws <= 64 -> len * word_bytes ws <= Z.of_nat (length out) ->
  let answer := slave bus (line r) d (encode en ws len out) in
  (forall s' r' e', at_bus s0 bus r' e' s' -> same_settings r r' -> buffer_ok r' -> spi_idle bus e' answer.2 ->
     Q (if in_data then encode en ws len answer.1 else []) s') ->
  wp (_spi_buf_transfer polls bus out in_data len en ws) Q s.
Proof using Hbus.
  intros Hp Hs Hi Hd Hb Ho Hl Hz Hlo answer HQ. unfold _spi_buf_transfer.
  assert (1 <= len * word_bytes ws) by (destruct ws; cbn [word_bytes]; lia).
  apply wp_bind. eapply (wp_wait_idle s0 bus Hbus); [lia|exact Hs|exact Hi|]. clear s Hs e Hi. intros s e Hs Hi.
  rewrite u8_small by lia. set (k := len * word_bytes ws) in *.
  apply wp_bind. unfold _set_size. apply wp_bind. eapply (wp_update_SPI s0 bus Hbus); [exact Hs|]. clear s Hs. intros s Hs.
  eapply (wp_update_SPI s0 bus Hbus); [exact Hs|]. clear s Hs. intros s Hs.
  change (at_bus s0 bus (sized k r) e s) in Hs. set (r1 := sized k r) in *.
  apply wp_bind. unfold memcpy_to_W. rewrite (proj2 (Z.leb_le _ _) Hlo), (proj2 (Z.leb_le _ _) Hz). cbn [andb].
  eapply (wp_update_SPI s0 bus Hbus); [exact Hs|]. clear s Hs. intros s Hs. change (W r1) with (W r) in Hs.
  set (w := take (Z.to_nat k) out ++ drop (Z.to_nat k) (W r)) in *.
  assert (Hw : length w = 64%nat) by (unfold w; rewrite length_app, length_take, length_drop; destruct Hb; lia).
  assert (Hb2 : buffer_ok (with_W w r1)).
  { split; [exact Hw|]. cbn [W with_W]. unfold w. apply Forall_app. split; [by apply Forall_take|by apply Forall_drop, Hb]. }
  apply wp_bind. eapply wp_prepare; [lia|exact Hz|exact Hs|exact Hb2|]. clear s Hs. intros s Hs.
  cbn [W with_W] in Hs. match type of Hs with at_bus _ _ ?x _ _ => set (r2 := x) in * end.
  apply wp_bind. eapply (wp_start s0 bus Hbus); [exact Hs|]. clear s Hs. intros s Hs.
  destruct (law_start bus r2 e d Hi) as (n & Hn & Hr).
  destruct (sized_fields k r ltac:(lia)) as [F1 F2]. apply wp_bind.
  eapply (wp_wait_running s0 bus Hbus polls n (is_big en) k r2); [lia|exact Hs|exact Hr|exact Hd| |lia|exact F1|exact F2|].
  { exact (prepared_ok en ws len (with_W w r1) ltac:(lia) Hz Hb2). }
  change (line r2) with (line r). cbn [W with_W r2].
  replace (take (Z.to_nat k) (wire (is_big en) (prepared en ws len w))) with (encode en ws len out).
  2:{ change (Z.to_nat k) with (size ws len). rewrite wire_prepared by (done || lia).
      rewrite <- (encode_take en ws len w), <- (encode_take en ws len out) by lia. f_equal.
      unfold w. change (size ws len) with (Z.to_nat k). rewrite take_app_length'; [done|rewrite length_take; lia]. }
  fold answer. clear s Hs. intros s r3 e3 Hs Hset Hb3 Hin Hi3.
  assert (Hset' : same_settings r r3) by exact Hset.
  destruct in_data; [|by apply wp_ret; eapply HQ].
  apply wp_bind. eapply wp_prepare; [lia|exact Hz|exact Hs|exact Hb3|]. clear s Hs. intros s Hs.
  unfold memcpy_from_W. rewrite (proj2 (Z.leb_le _ _) Hz). apply wp_bind.
  eapply (wp_get_SPI s0 bus Hbus); [exact Hs|]. apply wp_ret. cbn [W with_W].
  change (Z.to_nat k) with (size ws len) in Hin |- *. rewrite prepared_wire by (lia || apply Hb3).
  rewrite <- encode_take, Hin by lia. eapply HQ; [exact Hs|exact Hset'| |exact Hi3].
  exact (prepared_ok en ws len r3 ltac:(lia) Hz Hb3).
Qed.
End transfer.
