(* ===== verification/EspSpiContract.v ===== *)
(** * What the SPI driver does

    spi_init programs what it is asked for ([spi_init_configures]), transfers of up to
    64 bytes exchange the words of the caller with the device
    ([spi_session_exchanges]), longer ones leave the data registers
    ([spi_transfer_in_bounds]), and restoring saved settings changes the clock
    ([spi_restore_settings_clock]).  The end of the file has a concrete device. *)

From S2P Require Import Prelude Gpio EspRegs EspGpio EspSpi EspSpiBuffer.
Local Open Scope Z_scope.

(** ** Endianness *)

Lemma land_two_bits x a b : 0 <= a -> 0 <= b ->
  negb (Z.land x (Z.lor (BIT a) (BIT b)) =? 0) = Z.testbit x a || Z.testbit x b.
Proof.
  intros Ha Hb. rewrite <- (land_BIT x a), <- (land_BIT x b), Z.land_lor_distr_r, <- negb_andb by done. f_equal.
  apply eq_true_iff_eq. by rewrite andb_true_iff, !Z.eqb_eq, Z.lor_eq_0_iff.
Qed.
Lemma duplex_endianness e r : duplex (is_big e) r ->
  (if negb (Z.land (USER0 r) (Z.lor SPI_USER0_WR_BYTE_ORDER SPI_USER0_RD_BYTE_ORDER) =? 0)
   then SPI_BIG_ENDIAN else SPI_LITTLE_ENDIAN) = e.
Proof.
  intros (_ & _ & _ & B1 & B2). unfold SPI_USER0_WR_BYTE_ORDER, SPI_USER0_RD_BYTE_ORDER.
  rewrite land_two_bits, B1, B2 by lia. by destruct e.
Qed.

(** ** The theorems on transfers *)

Section theorems.
Context {H E D : Type} `{!Pads E, !SpiPads E, !SpiDevice E D}.

Lemma buf_size_bytes ws (buf := u8 (_SPI_BUF_SIZE / word_bytes ws)) : buf * word_bytes ws = 160 /\ 0 < buf <= 160.
Proof. unfold buf. destruct ws; vm_compute; repeat split; congruence. Qed.
(** At most 64 bytes are one exchange, more start with one that is too long. *)
Lemma spi_transfer_short polls bus out in_data len ws (s : spi_soc H E) e : 1 <= len -> len * word_bytes ws <= 64 ->
  spi_get_endianness bus s = Some (e, s) ->
  spi_transfer polls bus (Some out) in_data len ws s =
    (data ← _spi_buf_transfer polls bus out in_data len e ws; mret (len, data)) s.
Proof.
  intros Hl Hz He. unfold spi_transfer. rewrite (proj2 (Z.eqb_neq len 0)) by lia. rewrite (bind_run _ _ _ _ _ He).
  destruct (buf_size_bytes ws) as [E1 E2]. set (buf := u8 (_SPI_BUF_SIZE / word_bytes ws)) in *.
  assert (len < buf) by (destruct ws; cbn [word_bytes] in *; lia).
  rewrite Z.div_small, Z.mod_small by lia. rewrite (u8_small len) by lia.
  rewrite (proj2 (Z.eqb_neq len 0)) by lia. reflexivity.
Qed.
Lemma buf_transfer_overrun polls bus out in_data len e ws (s : spi_soc H E) : 64 < len * word_bytes ws ->
  _spi_buf_transfer polls bus out in_data len e ws s = None.
Proof.
  intros Hz. unfold _spi_buf_transfer, memcpy_to_W. rewrite (proj2 (Z.leb_gt _ _) Hz), andb_false_r.
  unfold mbind, st_bind. by repeat case_match.
Qed.
Lemma spi_transfer_overrun polls bus out in_data len ws (s : spi_soc H E) : 64 < len * word_bytes ws ->
  spi_transfer polls bus (Some out) in_data len ws s = None.
Proof.
  intros Hz. unfold spi_transfer. assert (1 <= len) by (destruct ws; cbn [word_bytes] in Hz; lia).
  rewrite (proj2 (Z.eqb_neq len 0)) by lia. unfold mbind at 1, st_bind at 1.
  destruct (spi_get_endianness bus s) as [[e s1]|]; [|done].
  destruct (buf_size_bytes ws) as [E1 E2]. set (buf := u8 (_SPI_BUF_SIZE / word_bytes ws)) in *.
  destruct (Z.ltb_spec len buf).
  - rewrite Z.div_small, Z.mod_small by lia. rewrite (u8_small len) by lia. rewrite (proj2 (Z.eqb_neq len 0)) by lia.
    change (Z.to_nat 0) with 0%nat. cbn [negb blocks_loop]. unfold mbind, st_bind, mret, st_ret.
    by rewrite buf_transfer_overrun by lia.
  - assert (1 <= len / buf) by (apply Z.div_le_lower_bound; lia).
    destruct (Z.to_nat (len / buf)) as [|n] eqn:En; [lia|]. cbn [blocks_loop].
    unfold mbind, st_bind. by rewrite buf_transfer_overrun by lia.
Qed.

Lemma wp_spi_transfer polls bus en ws len out (in_data : bool) (s : spi_soc H E) d (Q : Z * list Z -> spi_soc H E -> Prop) :
  spi_exists bus = true -> (max_polls < polls)%nat -> spi_idle bus (world (chip s)) d ->
  duplex (is_big en) (SPI s bus) -> buffer_ok (SPI s bus) ->
  Forall is_byte out -> 1 <= len -> len * word_bytes ws <= 64 -> len * word_bytes ws <= Z.of_nat (length out) ->
  let answer := slave bus (line (SPI s bus)) d (encode en ws len out) in
  (forall s' r' e', at_bus s bus r' e' s' -> same_settings (SPI s bus) r' -> buffer_ok r' -> spi_idle bus e' answer.2 ->
     Q (len, if in_data then encode en ws len answer.1 else []) s') ->
  wp (spi_transfer polls bus (Some out) in_data len ws) Q s.
Proof.
  intros Hbus Hp Hi Hd Hb Ho Hl Hz Hlo answer HQ. unfold wp. rewrite (spi_transfer_short _ _ _ _ _ _ _ en); [|done|done|].
  2:{ unfold spi_get_endianness, get_SPI, mbind, st_bind. rewrite Hbus. unfold mret, st_ret. by rewrite (duplex_endianness en). }
  change (wp (data ← _spi_buf_transfer polls bus out in_data len en ws; mret (len, data)) Q s). apply wp_bind.
  eapply (wp_buf_transfer s bus Hbus); [exact Hp|apply at_bus_start|done..|].
  intros s' r' e' H1 H2 H3 H4. apply wp_ret. by eapply HQ.
Qed.
End theorems.

(** ** Settings *)

(** The registers that the settings decide. *)
Definition mode_user0 (m : spi_mode_t) (v : Z) : Z :=
  match m with
  | SPI_MODE1 | SPI_MODE2 => Z.lor v SPI_USER0_CLOCK_OUT_EDGE
  | SPI_MODE0 | SPI_MODE3 => Z.ldiff v SPI_USER0_CLOCK_OUT_EDGE
  end.
Definition mode_pin (m : spi_mode_t) (v : Z) : Z :=
  match m with
  | SPI_MODE2 | SPI_MODE3 => Z.lor v SPI_PIN_IDLE_EDGE
  | SPI_MODE0 | SPI_MODE1 => Z.ldiff v SPI_PIN_IDLE_EDGE
  end.
Definition order_mask : Z := Z.lor SPI_CTRL0_WR_BIT_ORDER SPI_CTRL0_RD_BIT_ORDER.
Definition endian_mask : Z := Z.lor SPI_USER0_WR_BYTE_ORDER SPI_USER0_RD_BYTE_ORDER.
Definition clock_of (divider : Z) : Z :=
  let predivider := u32 (Z.land divider 0xffff - 1) in
  let count := u32 (Z.shiftr divider 16 - 1) in
  if negb (count =? 0) || negb (predivider =? 0) then
    Z.lor (Z.lor (Z.lor (VAL2FIELD_M SPI_CLOCK_DIV_PRE_M SPI_CLOCK_DIV_PRE_S predivider)
      (VAL2FIELD_M SPI_CLOCK_COUNT_NUM_M SPI_CLOCK_COUNT_NUM_S count))
      (VAL2FIELD_M SPI_CLOCK_COUNT_HIGH_M SPI_CLOCK_COUNT_HIGH_S (count / 2)))
      (VAL2FIELD_M SPI_CLOCK_COUNT_LOW_M SPI_CLOCK_COUNT_LOW_S count)
  else SPI_CLOCK_EQU_SYS_CLOCK.

Lemma clock_of_fields d :
  FIELD2VAL SPI_CLOCK_DIV_PRE_M SPI_CLOCK_DIV_PRE_S (clock_of d) = u32 (Z.land d 0xffff - 1) mod 2 ^ 13 /\
  FIELD2VAL SPI_CLOCK_COUNT_NUM_M SPI_CLOCK_COUNT_NUM_S (clock_of d) = u32 (Z.shiftr d 16 - 1) mod 2 ^ 6.
Proof.
  unfold clock_of. set (p := u32 (Z.land d 0xffff - 1)). set (q := u32 (Z.shiftr d 16 - 1)).
  unfold FIELD2VAL. change SPI_CLOCK_DIV_PRE_M with (Z.ones 13). change SPI_CLOCK_COUNT_NUM_M with (Z.ones 6).
  change SPI_CLOCK_COUNT_HIGH_M with (Z.ones 6). change SPI_CLOCK_COUNT_LOW_M with (Z.ones 6).
  change SPI_CLOCK_DIV_PRE_S with 18. change SPI_CLOCK_COUNT_NUM_S with 12. change SPI_CLOCK_COUNT_HIGH_S with 6.
  change SPI_CLOCK_COUNT_LOW_S with 0.
  destruct (Z.eqb_spec q 0) as [Eq|Eq], (Z.eqb_spec p 0) as [Ep|Ep]; cbn [negb orb];
    [rewrite Eq, Ep; split; reflexivity|split..]; (apply field_eq; [lia|lia|apply Z.mod_pos_bound; lia|]);
    intros n Hn; rewrite !Z.lor_spec, !VAL2FIELD_M_bits, Z.mod_pow2_bits_low by lia; range_tests;
    rewrite ?orb_false_r; f_equal; lia.
Qed.
Lemma clock_of_hz pre cnt : 1 <= pre <= 8192 -> 1 <= cnt <= 64 ->
  FIELD2VAL SPI_CLOCK_DIV_PRE_M SPI_CLOCK_DIV_PRE_S (clock_of (SPI_GET_FREQ_DIV pre cnt)) = pre - 1 /\
  FIELD2VAL SPI_CLOCK_COUNT_NUM_M SPI_CLOCK_COUNT_NUM_S (clock_of (SPI_GET_FREQ_DIV pre cnt)) = cnt - 1.
Proof.
  intros Hp Hc. destruct (clock_of_fields (SPI_GET_FREQ_DIV pre cnt)) as [-> ->]. unfold SPI_GET_FREQ_DIV.
  change 0xffff with (Z.ones 16). rewrite (Z.land_ones pre), (Z.mod_small pre) by lia.
  rewrite Z.lor_comm, lor_low_high, Z.land_ones, Z.shiftr_div_pow2, !Z.shiftl_mul_pow2 by lia.
  rewrite Z.mod_add, Z.div_add, (Z.mod_small pre), (Z.div_small pre), Z.add_0_l by lia.
  rewrite !u32_small, !Z.mod_small by lia. done.
Qed.

(** The pins of a controller and the function that connects them. *)
Definition spi_pins (bus : Z) (minimal : bool) : list Z :=
  if bus =? 0 then [7; 8; 6] ++ (if minimal then [] else [9; 10; 11]) else [12; 13; 14] ++ (if minimal then [] else [15]).
Definition spi_func (bus : Z) : Z := if bus =? 0 then _SPI0_FUNC else _SPI1_FUNC.

Section settings.
Context {H E : Type} `{!Pads E, !SpiPads E}.
Implicit Types s : spi_soc H E.

Definition mux_pin (func : Z) (c : soc H E) (p : Z) : soc H E :=
  set_gpio (with_PIN (mux_of p) (Z.lor func (Z.ldiff (PIN (gpio c) (mux_of p)) IOMUX_PIN_FUNC_MASK)) (gpio c)) c.
Lemma on_chip_mux p func s : 0 <= p < 16 ->
  on_chip (gpio_set_iomux_function p func) s = Some ((), set_chip (mux_pin func (chip s) p) s).
Proof.
  intros Hp. unfold on_chip, gpio_set_iomux_function. rewrite opt_mux_run by done.
  by rewrite write_PIN_run by (by apply mux_some).
Qed.
Ltac mux_step := rewrite ?bind_assoc; erewrite bind_run by (apply on_chip_mux; split; done); cbv beta.
Lemma spi_pins_run bus minimal s : spi_exists bus = true ->
  spi_init_pins bus minimal s = Some (true, set_chip (fold_left (mux_pin (spi_func bus)) (spi_pins bus minimal) (chip s)) s).
Proof.
  intros Hb. unfold spi_init_pins, spi_pins, spi_func. destruct (Z.eqb_spec bus 0) as [->|H0].
  - destruct minimal; cbn [negb app]; repeat mux_step; reflexivity.
  - assert (bus = 1) as -> by (unfold spi_exists in Hb; rewrite (proj2 (Z.eqb_neq bus 0)) in Hb by done; by apply Z.eqb_eq).
    destruct minimal; cbn [negb app]; repeat mux_step; reflexivity.
Qed.

(** Selecting a function twice is selecting it once. *)
Lemma mux_pin_PIN func c p i : Z.land func IOMUX_PIN_FUNC_MASK = func ->
  PIN (gpio (mux_pin func c p)) i =
    if i =? mux_of p then Z.lor func (Z.ldiff (PIN (gpio c) i) IOMUX_PIN_FUNC_MASK) else PIN (gpio c) i.
Proof. intros _. unfold mux_pin. cbn [gpio set_gpio PIN with_PIN]. by destruct (Z.eqb_spec i (mux_of p)) as [->|]. Qed.
Lemma muxed_function func v : Z.land func IOMUX_PIN_FUNC_MASK = func ->
  Z.land (Z.lor func (Z.ldiff v IOMUX_PIN_FUNC_MASK)) IOMUX_PIN_FUNC_MASK = func /\
  Z.ldiff (Z.lor func (Z.ldiff v IOMUX_PIN_FUNC_MASK)) IOMUX_PIN_FUNC_MASK = Z.ldiff v IOMUX_PIN_FUNC_MASK.
Proof.
  intros Hf. split; apply Z.bits_inj'; intros n Hn; pose proof (f_equal (fun x => Z.testbit x n) Hf) as Hb; cbv beta in Hb;
    rewrite Z.land_spec in Hb; rewrite ?Z.land_spec, ?Z.ldiff_spec, ?Z.lor_spec, ?Z.ldiff_spec; revert Hb;
    by destruct (Z.testbit func n), (Z.testbit v n), (Z.testbit IOMUX_PIN_FUNC_MASK n).
Qed.
Lemma mux_pins func l c (c' := fold_left (mux_pin func) l c) : Z.land func IOMUX_PIN_FUNC_MASK = func ->
  (forall p, In p l -> Z.land (PIN (gpio c') (mux_of p)) IOMUX_PIN_FUNC_MASK = func) /\
  (forall i, Z.ldiff (PIN (gpio c') i) IOMUX_PIN_FUNC_MASK = Z.ldiff (PIN (gpio c) i) IOMUX_PIN_FUNC_MASK) /\
  (forall i, ~ In i (map mux_of l) -> PIN (gpio c') i = PIN (gpio c) i) /\
  OUT (gpio c') = OUT (gpio c) /\ ENABLE_OUT (gpio c') = ENABLE_OUT (gpio c) /\ CONF (gpio c') = CONF (gpio c).
Proof.
  intros Hf. unfold c'. clear c'.
  assert (Hkeep : forall l c i, Z.land (PIN (gpio c) i) IOMUX_PIN_FUNC_MASK = func ->
    Z.land (PIN (gpio (fold_left (mux_pin func) l c)) i) IOMUX_PIN_FUNC_MASK = func).
  { intros l'; induction l' as [|q l' IH]; intros c' i Hi; [done|]. cbn [fold_left]. apply IH.
    rewrite mux_pin_PIN by done. destruct (i =? mux_of q); [by apply muxed_function|done]. }
  revert c; induction l as [|q l IH]; intros c; [by split_and!|]. cbn [fold_left].
  destruct (IH (mux_pin func c q)) as (I1 & I2 & I3 & I4 & I5 & I6). split_and!; try done.
  - intros p [->|Hp]; [|by apply I1]. apply Hkeep. rewrite mux_pin_PIN, Z.eqb_refl by done. by apply muxed_function.
  - intros i. rewrite I2, mux_pin_PIN by done. destruct (i =? mux_of q); [by apply muxed_function|done].
  - intros i Hi. cbn [map In] in Hi. rewrite I3, mux_pin_PIN by (done || tauto).
    destruct (Z.eqb_spec i (mux_of q)); [|done]. exfalso. apply Hi. by left.
Qed.
Lemma spi_func_mask bus : Z.land (spi_func bus) IOMUX_PIN_FUNC_MASK = spi_func bus.
Proof. unfold spi_func. by destruct (bus =? 0). Qed.

(** The state but for the registers of [bus]. *)
Definition at_regs (s0 : spi_soc H E) (bus : Z) (r : spi_regs) (c : soc H E) (io : Z) (m : Z -> bool) (s : spi_soc H E) : Prop :=
  SPI s bus = r /\ (forall b, b <> bus -> SPI s b = SPI s0 b) /\ chip s = c /\ IOMUX_CONF s = io /\ _minimal_pins s = m.

Context (s0 : spi_soc H E) (bus : Z) (Hbus : spi_exists bus = true).
Lemma wp_update_regs r c io m s f (Q : unit -> spi_soc H E -> Prop) : at_regs s0 bus r c io m s ->
  (forall s', at_regs s0 bus (f r) c io m s' -> Q () s') -> wp (update_SPI bus f) Q s.
Proof using Hbus.
  intros (H1 & H2 & H3 & H4 & H5) HQ. unfold wp, update_SPI. rewrite Hbus, H1. apply HQ. unfold at_regs.
  cbn [SPI chip IOMUX_CONF _minimal_pins set_SPI]. rewrite Z.eqb_refl. split_and!; try done.
  intros b Hb. rewrite (proj2 (Z.eqb_neq b bus)) by done. by apply H2.
Qed.
Definition init_user0 (minimal : bool) : Z :=
  Z.lor (Z.lor (Z.lor SPI_USER0_MOSI SPI_USER0_CLOCK_IN_EDGE) SPI_USER0_DUPLEX)
    (if minimal then 0 else Z.lor SPI_USER0_CS_HOLD SPI_USER0_CS_SETUP).
(** The registers that spi_init leaves. *)
Definition init_regs (st : spi_settings_t) (r : spi_regs) : spi_regs :=
  let user0 := mode_user0 (mode st) (init_user0 (minimal_pins st)) in
  {| CTRL0 := if msb st then Z.ldiff (CTRL0 r) order_mask else Z.lor (CTRL0 r) order_mask;
     CLOCK := clock_of (freq_divider st);
     USER0 := match endianness st with SPI_BIG_ENDIAN => Z.lor user0 endian_mask | _ => Z.ldiff user0 endian_mask end;
     USER1 := USER1 r;
     SPIN := mode_pin (mode st) (SPIN r);
     W := W r |}.
Lemma wp_set_settings st (Q : bool -> spi_soc H E -> Prop) :
  (forall s' io, at_regs s0 bus (init_regs st (SPI s0 bus))
     (fold_left (mux_pin (spi_func bus)) (spi_pins bus (minimal_pins st)) (chip s0)) io
     (fun i => if i =? bus then minimal_pins st else _minimal_pins s0 i) s' -> Q true s') ->
  wp (spi_set_settings bus st) Q s0.
Proof using Hbus.
  intros HQ. unfold spi_set_settings, spi_init. apply wp_bind. eapply wp_of_run; [by apply spi_pins_run|].
  cbn [negb]. set (c := fold_left _ _ _) in *. set (m := fun i => if i =? bus then _ else _) in HQ.
  apply wp_bind, wp_modify. assert (G : at_regs s0 bus (SPI s0 bus) c (IOMUX_CONF s0) m (set_minimal bus (minimal_pins st) (set_chip c s0))).
  { by unfold at_regs. }
  generalize dependent (set_minimal bus (minimal_pins st) (set_chip c s0)). intros s G.
  apply wp_bind. eapply wp_update_regs; [exact G|]. clear s G. intros s G. apply wp_bind. unfold spi_set_frequency_div.
  assert (F : exists io, wp (spi_set_frequency_div bus (freq_divider st))
    (fun _ => at_regs s0 bus (with_CLOCK (clock_of (freq_divider st)) (with_USER0 (init_user0 (minimal_pins st)) (SPI s0 bus))) c io m) s).
  { unfold spi_set_frequency_div, clock_of. destruct (_ || _); eexists; apply wp_bind, wp_modify;
      (eapply wp_update_regs; [|intros s' G'; exact G']); unfold at_regs in *; cbn [SPI chip IOMUX_CONF _minimal_pins set_IOMUX_CONF]; naive_solver. }
  destruct F as [io F]. eapply wp_mono; [exact F|]. clear s G F. intros ? s G.
  apply wp_bind. unfold spi_set_mode. apply wp_bind. eapply wp_update_regs; [exact G|]. clear s G. intros s G.
  eapply wp_update_regs; [exact G|]. clear s G. intros s G. apply wp_bind.
  eapply wp_update_regs; [exact G|]. clear s G. intros s G. apply wp_bind.
  eapply wp_update_regs; [exact G|]. clear s G. intros s G. apply wp_ret, (HQ s io).
  unfold init_regs. destruct st as [[] ? [] [] []]; exact G.
Qed.
End settings.

Section getters.
Context {H E : Type} `{!Pads E, !SpiPads E}.

Lemma mode_bits m v w : mode_of (let cpha := if Z.testbit (mode_user0 m v) 7 then 1 else 0 in
  let cpol := if Z.testbit (mode_pin m w) 29 then 2 else 0 in
  Z.lor cpol (if negb (cpol =? 0) then 1 - cpha else cpha)) = m.
Proof.
  assert (H1 : Z.testbit (mode_user0 m v) 7 = match m with SPI_MODE1 | SPI_MODE2 => true | _ => false end).
  { destruct m; cbn [mode_user0]; rewrite ?Z.lor_spec, ?Z.ldiff_spec; unfold SPI_USER0_CLOCK_OUT_EDGE; rewrite BIT_spec by lia;
      by rewrite ?orb_true_r, ?andb_false_r. }
  assert (H2 : Z.testbit (mode_pin m w) 29 = match m with SPI_MODE2 | SPI_MODE3 => true | _ => false end).
  { destruct m; cbn [mode_pin]; rewrite ?Z.lor_spec, ?Z.ldiff_spec; unfold SPI_PIN_IDLE_EDGE; rewrite BIT_spec by lia;
      by rewrite ?orb_true_r, ?andb_false_r. }
  cbv zeta. rewrite H1, H2. by destruct m.
Qed.

(** The getters of a controller that has been set up. *)
Lemma init_getters bus st r (s : spi_soc H E) : spi_exists bus = true -> SPI s bus = init_regs st r ->
  duplex (is_big (endianness st)) (SPI s bus) /\
  spi_get_mode bus s = Some (mode st, s) /\ spi_get_msb bus s = Some (msb st, s) /\
  spi_get_endianness bus s = Some (endianness st, s).
Proof.
  intros Hb Er. assert (Hd : duplex (is_big (endianness st)) (SPI s bus)).
  { rewrite Er. unfold duplex. destruct st as [[] ? ? [] []]; (split_and!; [reflexivity..| |reflexivity|reflexivity]);
      repeat constructor. }
  split; [exact Hd|].
  assert (Hg : forall A (f : spi_regs -> A), (r ← get_SPI bus; mret (f r)) s = Some (f (SPI s bus), s)).
  { intros A f. unfold get_SPI, mbind, st_bind. by rewrite Hb. }
  split_and!.
  - unfold spi_get_mode. rewrite Hg. do 2 f_equal. unfold SPI_USER0_CLOCK_OUT_EDGE, SPI_PIN_IDLE_EDGE.
    rewrite !land_BIT, Er by lia. etransitivity; [|apply (mode_bits (mode st) (init_user0 (minimal_pins st)) (SPIN r))]. cbv zeta.
    cbn [USER0 SPIN init_regs]. assert (E7 : forall v, Z.testbit (match endianness st with SPI_BIG_ENDIAN => Z.lor v endian_mask
      | SPI_LITTLE_ENDIAN => Z.ldiff v endian_mask end) 7 = Z.testbit v 7).
    { intros v. destruct (endianness st); rewrite ?Z.lor_spec, ?Z.ldiff_spec; change (Z.testbit endian_mask 7) with false;
        by rewrite ?orb_false_r, ?andb_true_r. }
    by rewrite E7.
  - unfold spi_get_msb. rewrite Hg. do 2 f_equal. rewrite <- negb_involutive at 1. unfold SPI_CTRL0_WR_BIT_ORDER, SPI_CTRL0_RD_BIT_ORDER.
    rewrite land_two_bits, Er by lia. cbn [CTRL0 init_regs].
    destruct (msb st); rewrite ?Z.lor_spec, ?Z.ldiff_spec; change (Z.testbit order_mask 26) with true;
      change (Z.testbit order_mask 25) with true; by rewrite ?andb_false_r, ?orb_true_r.
  - unfold spi_get_endianness. rewrite Hg. do 2 f_equal. by apply duplex_endianness.
Qed.
Lemma get_frequency bus (s : spi_soc H E) : spi_exists bus = true ->
  spi_get_frequency_div bus s = Some (Z.lor (FIELD2VAL SPI_CLOCK_DIV_PRE_M SPI_CLOCK_DIV_PRE_S (CLOCK (SPI s bus)) + 1)
    (FIELD2VAL SPI_CLOCK_COUNT_NUM_M SPI_CLOCK_COUNT_NUM_S (CLOCK (SPI s bus)) + 1), s) /\
  spi_get_frequency_hz bus s = Some (APB_CLK_FREQ / (FIELD2VAL SPI_CLOCK_DIV_PRE_M SPI_CLOCK_DIV_PRE_S (CLOCK (SPI s bus)) + 1) /
    (FIELD2VAL SPI_CLOCK_COUNT_NUM_M SPI_CLOCK_COUNT_NUM_S (CLOCK (SPI s bus)) + 1), s).
Proof. intros Hb. unfold spi_get_frequency_div, spi_get_frequency_hz, get_SPI, mbind, st_bind. by rewrite Hb. Qed.
Lemma set_settings_run bus st (s : spi_soc H E) : spi_exists bus = true -> exists s' io,
  spi_set_settings bus st s = Some (true, s') /\
  at_regs s bus (init_regs st (SPI s bus)) (fold_left (mux_pin (spi_func bus)) (spi_pins bus (minimal_pins st)) (chip s)) io
    (fun i => if i =? bus then minimal_pins st else _minimal_pins s i) s'.
Proof.
  intros Hb. assert (G : wp (spi_set_settings bus st) (fun b s' => b = true /\ exists io,
    at_regs s bus (init_regs st (SPI s bus)) (fold_left (mux_pin (spi_func bus)) (spi_pins bus (minimal_pins st)) (chip s)) io
      (fun i => if i =? bus then minimal_pins st else _minimal_pins s i) s') s) by (apply wp_set_settings; eauto).
  destruct (wp_run _ _ _ G) as (b & s' & E1 & -> & io & G'). by exists s', io.
Qed.
Lemma get_settings_run bus st r (s : spi_soc H E) : spi_exists bus = true -> SPI s bus = init_regs st r ->
  _minimal_pins s bus = minimal_pins st ->
  spi_get_settings bus s = Some ({| mode := mode st;
    freq_divider := Z.lor (FIELD2VAL SPI_CLOCK_DIV_PRE_M SPI_CLOCK_DIV_PRE_S (clock_of (freq_divider st)) + 1)
      (FIELD2VAL SPI_CLOCK_COUNT_NUM_M SPI_CLOCK_COUNT_NUM_S (clock_of (freq_divider st)) + 1);
    msb := msb st; endianness := endianness st; minimal_pins := minimal_pins st |}, s).
Proof.
  intros Hb Er Hm. destruct (init_getters bus st r s Hb Er) as (_ & E1 & E2 & E3). destruct (get_frequency bus s Hb) as [E4 _].
  unfold spi_get_settings. rewrite (bind_run _ _ _ _ _ E1), (bind_run _ _ _ _ _ E4), (bind_run _ _ _ _ _ E2), (bind_run _ _ _ _ _ E3).
  unfold mbind, st_bind, st_get, mret, st_ret. by rewrite Hm, Er.
Qed.
End getters.

(** ** The properties *)

Lemma mux_pins_idle {H E D} `{!Pads E, !SpiPads E, !SpiDevice E D} func l (c : soc H E) bus d :
  spi_idle bus (world c) d -> spi_idle bus (world (fold_left (mux_pin func) l c)) d.
Proof. revert c; induction l as [|p l IH]; intros c Hi; [done|]. apply IH. by apply law_pads. Qed.

(** Spi_init connects the pins of the controller and no others, leaves the other
    controller alone and programs what it is asked for: every getter gives its
    argument back, the frequency is 80 MHz over both divisors, and the controller is
    ready for full-duplex transfers in the byte order that was asked for. *)
Theorem spi_init_configures {H E D} `{!Pads E, !SpiPads E, !SpiDevice E D} (s : spi_soc H E) bus m pre cnt b e minimal :
  spi_exists bus = true -> 1 <= pre <= 8192 -> 1 <= cnt <= 64 ->
  exists s', spi_init bus m (SPI_GET_FREQ_DIV pre cnt) b e minimal s = Some (true, s') /\
    spi_get_mode bus s' = Some (m, s') /\ spi_get_msb bus s' = Some (b, s') /\
    spi_get_endianness bus s' = Some (e, s') /\ spi_get_frequency_hz bus s' = Some (80000000 / pre / cnt, s') /\
    _minimal_pins s' bus = minimal /\
    duplex (is_big e) (SPI s' bus) /\ W (SPI s' bus) = W (SPI s bus) /\
    (forall p, In p (spi_pins bus minimal) ->
       Z.land (PIN (gpio (chip s')) (mux_of p)) IOMUX_PIN_FUNC_MASK = spi_func bus) /\
    (forall i, ~ In i (map mux_of (spi_pins bus minimal)) -> PIN (gpio (chip s')) i = PIN (gpio (chip s)) i) /\
    (forall b', b' <> bus -> SPI s' b' = SPI s b') /\
    (forall d, spi_idle bus (world (chip s)) d -> spi_idle bus (world (chip s')) d).
Proof.
  intros Hb Hp Hc. set (st := {| mode := m; freq_divider := SPI_GET_FREQ_DIV pre cnt; msb := b; endianness := e; minimal_pins := minimal |}).
  destruct (set_settings_run bus st s Hb) as (s' & io & E1 & (R1 & R2 & R3 & R4 & R5)).
  destruct (init_getters bus st _ s' Hb R1) as (G1 & G2 & G3 & G4). destruct (get_frequency bus s' Hb) as [_ G5].
  destruct (clock_of_hz pre cnt Hp Hc) as [F1 F2].
  destruct (mux_pins (spi_func bus) (spi_pins bus minimal) (chip s) (spi_func_mask bus)) as (M1 & _ & M3 & _).
  exists s'. split_and!; try done.
  - rewrite G5, R1. cbn [CLOCK init_regs freq_divider st]. rewrite F1, F2. by rewrite !Z.sub_add.
  - by rewrite R5, Z.eqb_refl.
  - by rewrite R1.
  - by rewrite R3.
  - by rewrite R3.
  - intros d Hi. rewrite R3. by apply mux_pins_idle.
Qed.

Lemma lor_below_8192 x y : 1 <= x < 8192 -> 0 <= y < 8192 -> 1 <= Z.lor x y < 8192.
Proof.
  intros Hx Hy. assert (0 <= Z.lor x y) by (apply Z.lor_nonneg; lia). split.
  - destruct (Z.eq_dec (Z.lor x y) 0) as [E|]; [apply Z.lor_eq_0_iff in E|]; lia.
  - destruct (Z.eq_dec (Z.lor x y) 0) as [->|]; [done|]. change 8192 with (2 ^ 13). apply Z.log2_lt_pow2; [lia|].
    rewrite Z.log2_lor by lia. apply Z.max_lub_lt.
    + apply (Z.le_lt_trans _ (Z.log2 8191)); [apply Z.log2_le_mono; lia|done].
    + apply (Z.le_lt_trans _ (Z.log2 8191)); [apply Z.log2_le_mono; lia|done].
Qed.

(** spi_get_settings then spi_set_settings, which spi.h shows for saving and
    restoring the settings, keeps all of them but the frequency: the two divisors are
    read back as the bitwise or of both, so the restored clock is 80 MHz over that
    and over 64. *)
Theorem spi_restore_settings_clock {H E} `{!Pads E, !SpiPads E} (s : spi_soc H E) bus m pre cnt b e minimal :
  spi_exists bus = true -> 1 <= pre < 8192 -> 1 <= cnt <= 64 ->
  exists s1 s2 st, spi_init bus m (SPI_GET_FREQ_DIV pre cnt) b e minimal s = Some (true, s1) /\
    spi_get_settings bus s1 = Some (st, s1) /\ spi_set_settings bus st s1 = Some (true, s2) /\
    st = {| mode := m; freq_divider := Z.lor pre cnt; msb := b; endianness := e; minimal_pins := minimal |} /\
    spi_get_mode bus s2 = Some (m, s2) /\ spi_get_msb bus s2 = Some (b, s2) /\ spi_get_endianness bus s2 = Some (e, s2) /\
    spi_get_frequency_hz bus s2 = Some (80000000 / Z.lor pre cnt / 64, s2).
Proof.
  intros Hb Hp Hc. set (st := {| mode := m; freq_divider := SPI_GET_FREQ_DIV pre cnt; msb := b; endianness := e; minimal_pins := minimal |}).
  destruct (set_settings_run bus st s Hb) as (s1 & io & E1 & (R1 & _ & _ & _ & R5)).
  destruct (clock_of_hz pre cnt ltac:(lia) Hc) as [F1 F2].
  pose proof (get_settings_run bus st _ s1 Hb R1 ltac:(rewrite R5; cbv beta; by rewrite Z.eqb_refl)) as E2.
  cbn [mode freq_divider msb endianness minimal_pins st] in E2. rewrite F1, F2, !Z.sub_add in E2.
  match type of E2 with _ = Some (?x, _) => set (st' := x) in * end.
  destruct (set_settings_run bus st' s1 Hb) as (s2 & io2 & E3 & (R1' & _)).
  destruct (init_getters bus st' _ s2 Hb R1') as (_ & G2 & G3 & G4). destruct (get_frequency bus s2 Hb) as [_ G5].
  exists s1, s2, st'. split_and!; try done. rewrite G5, R1'. cbn [CLOCK init_regs].
  destruct (clock_of_fields (freq_divider st')) as [-> ->]. cbn [freq_divider st'].
  assert (Hor : 1 <= Z.lor pre cnt < 8192) by (apply lor_below_8192; lia).
  change 0xffff with (Z.ones 16). rewrite Z.land_ones, (Z.mod_small (Z.lor pre cnt)), Z.shiftr_div_pow2, (Z.div_small (Z.lor pre cnt)) by lia.
  rewrite (u32_small (Z.lor pre cnt - 1)), (Z.mod_small (Z.lor pre cnt - 1)), Z.sub_add by lia. reflexivity.
Qed.

(** A sequence of transfers, and what a device answers to it: each transfer carries
    its words in the byte order of the bus, both ways. *)
Definition words (t : spi_word_size_t * list Z) : Z := Z.of_nat (length t.2) / word_bytes t.1.
Definition fits (t : spi_word_size_t * list Z) : Prop :=
  Forall is_byte t.2 /\ Z.of_nat (length t.2) = words t * word_bytes t.1 /\ 1 <= Z.of_nat (length t.2) <= 64.
Fixpoint do_transfers {H E} `{!Pads E, !SpiPads E} (polls : nat) (bus : Z) (ts : list (spi_word_size_t * list Z)) :
    ST (spi_soc H E) (list (list Z)) :=
  match ts with
  | [] => mret []
  | t :: ts =>
      r ← spi_transfer polls bus (Some t.2) true (words t) t.1;
      rest ← do_transfers polls bus ts;
      mret (r.2 :: rest)
  end.
Fixpoint exchanges {E D} `{!Pads E, !SpiPads E, !SpiDevice E D} (bus : Z) (l : Z * Z * Z * Z) (e : spi_endianness_t) (d : D)
    (ts : list (spi_word_size_t * list Z)) : list (list Z) * D :=
  match ts with
  | [] => ([], d)
  | t :: ts =>
      let answer := slave bus l d (encode e t.1 (words t) t.2) in
      let rest := exchanges bus l e answer.2 ts in
      (encode e t.1 (words t) answer.1 :: rest.1, rest.2)
  end.

Lemma same_settings_ready big r r' : same_settings r r' -> duplex big r -> duplex big r' /\ line r' = line r.
Proof. unfold same_settings, duplex, line. intros (-> & -> & -> & ->). done. Qed.
Lemma wp_do_transfers {H E D} `{!Pads E, !SpiPads E, !SpiDevice E D} polls bus en ts (s : spi_soc H E) d :
  spi_exists bus = true -> (max_polls < polls)%nat -> spi_idle bus (world (chip s)) d ->
  duplex (is_big en) (SPI s bus) -> buffer_ok (SPI s bus) -> Forall fits ts ->
  wp (do_transfers polls bus ts) (fun answers s' =>
    answers = (exchanges bus (line (SPI s bus)) en d ts).1 /\
    spi_idle bus (world (chip s')) (exchanges bus (line (SPI s bus)) en d ts).2 /\
    same_settings (SPI s bus) (SPI s' bus) /\ buffer_ok (SPI s' bus)) s.
Proof.
  intros Hb Hp Hi Hd Ho Hts. revert s d Hi Hd Ho; induction Hts as [|t ts Ht _ IH]; intros s d Hi Hd Ho.
  { by apply wp_ret. }
  destruct Ht as (H1 & H2 & H3). assert (1 <= words t) by (destruct t as [[] ?]; cbn [fst word_bytes] in H2; lia).
  cbn [do_transfers exchanges]. apply wp_bind. eapply (wp_spi_transfer polls bus en); try done; [lia|lia|].
  intros s' r' e' Hs' Hset Hok Hi'. pose proof Hs' as (Er & Ee & _).
  rewrite <- Er in Hset, Hok. rewrite <- Ee in Hi'. destruct (same_settings_ready _ _ _ Hset Hd) as [Hd' El].
  apply wp_bind. eapply wp_mono; [by apply (IH s' _ Hi')|]. rewrite El. cbv beta. intros x s'' (-> & Hi'' & Hset' & Hok').
  apply wp_ret. cbn [fst snd]. split_and!; try done. unfold same_settings in *. naive_solver congruence.
Qed.

(** C29: after spi_init, every sequence of transfers of at most 64 bytes exchanges
    exactly the words of the caller with the device: it gets them in the byte order of
    the bus, for words of 8, 16 and 32 bits, and the words it answers are stored the
    same way; the settings stay, and enough reads of CMD see every transaction end. *)
Theorem spi_session_exchanges {H E D} `{!Pads E, !SpiPads E, !SpiDevice E D} polls (s : spi_soc H E) bus m pre cnt b en minimal d ts :
  spi_exists bus = true -> 1 <= pre <= 8192 -> 1 <= cnt <= 64 -> (max_polls < polls)%nat ->
  buffer_ok (SPI s bus) -> spi_idle bus (world (chip s)) d -> Forall fits ts ->
  exists s1 s2, spi_init bus m (SPI_GET_FREQ_DIV pre cnt) b en minimal s = Some (true, s1) /\
    do_transfers polls bus ts s1 = Some ((exchanges bus (line (SPI s1 bus)) en d ts).1, s2) /\
    spi_idle bus (world (chip s2)) (exchanges bus (line (SPI s1 bus)) en d ts).2 /\
    same_settings (SPI s1 bus) (SPI s2 bus).
Proof.
  intros Hb Hpre Hcnt Hp Ho Hi Hts.
  set (st := {| mode := m; freq_divider := SPI_GET_FREQ_DIV pre cnt; msb := b; endianness := en; minimal_pins := minimal |}).
  destruct (set_settings_run bus st s Hb) as (s1 & io & E1 & (R1 & _ & R3 & _)).
  destruct (init_getters bus st _ s1 Hb R1) as (G1 & _). pose proof (mux_pins_idle (spi_func bus) (spi_pins bus minimal) (chip s) bus d Hi) as Hi1.
  assert (Ho1 : buffer_ok (SPI s1 bus)) by (rewrite R1; exact Ho).
  cbn [minimal_pins st] in R3. rewrite <- R3 in Hi1.
  destruct (wp_run _ _ _ (wp_do_transfers polls bus en ts s1 d Hb Hp Hi1 G1 Ho1 Hts)) as (x & s2 & E2 & -> & H2 & H3 & _).
  by exists s1, s2.
Qed.

(** C39: a transfer stays inside the data registers exactly when it is 64 bytes or
    less: _SPI_BUF_SIZE lets blocks of up to 160 bytes be copied to the registers.  The
    controller is idle, in the full-duplex mode that spi_init leaves, in the byte order
    of the transfer, and there is data to send, as much as is announced. *)
Theorem spi_transfer_in_bounds {H E D} `{!Pads E, !SpiPads E, !SpiDevice E D} (s : spi_soc H E) bus d en out (in_data : bool) len ws :
  spi_exists bus = true -> spi_idle bus (world (chip s)) d -> duplex (is_big en) (SPI s bus) -> buffer_ok (SPI s bus) ->
  Forall is_byte out -> 1 <= len -> len * word_bytes ws <= Z.of_nat (length out) ->
  (exists polls, is_Some (spi_transfer polls bus (Some out) in_data len ws s)) <-> len * word_bytes ws <= 64.
Proof.
  intros Hb Hi Hd Ho Hout Hl Hlo. split.
  - intros [polls [x Ex]]. destruct (Z.leb_spec (len * word_bytes ws) 64); [done|].
    by rewrite spi_transfer_overrun in Ex.
  - intros Hz. exists (S max_polls). assert (G : wp (spi_transfer (S max_polls) bus (Some out) in_data len ws) (fun _ _ => True) s).
    { eapply (wp_spi_transfer _ bus en); try done. lia. }
    destruct (wp_run _ _ _ G) as (x & s' & -> & _). by eexists.
Qed.

(** ** Reading bytes *)

(** The line while spi_transfer_bytes runs: the bus is little-endian. *)
Definition little (r : spi_regs) : spi_regs := with_USER0 (Z.ldiff (USER0 r) endian_mask) r.
Definition big_again (r : spi_regs) : spi_regs := with_USER0 (Z.lor (USER0 r) endian_mask) r.
(** What the device answers to [size] bytes 0xff in pieces of 64. *)
Fixpoint pull {E D} `{!Pads E, !SpiPads E, !SpiDevice E D} (fuel : nat) (l : Z * Z * Z * Z) (d : D) (size : nat) : list Z * D :=
  match fuel, size with
  | S fuel, S _ =>
      let a := slave 1 l d (repeat 255 (size `min` 64)) in
      let rest := pull fuel l a.2 (size - 64) in (a.1 ++ rest.1, rest.2)
  | _, _ => ([], d)
  end.

Lemma little_user0 r n : 0 <= n -> Z.testbit (USER0 (little r)) n = Z.testbit (USER0 r) n && negb ((n =? 11) || (n =? 10)).
Proof.
  intros Hn. cbn [little USER0 with_USER0]. rewrite Z.ldiff_spec. do 2 f_equal. unfold endian_mask, SPI_USER0_WR_BYTE_ORDER, SPI_USER0_RD_BYTE_ORDER.
  rewrite Z.lor_spec, !BIT_spec by lia. by rewrite (Z.eqb_sym 11), (Z.eqb_sym 10).
Qed.
Lemma little_duplex big r : duplex big r -> duplex false (little r).
Proof.
  intros (H1 & H2 & H3 & H4 & H5). unfold duplex. rewrite !little_user0, H1, H2, H4, H5 by lia. split_and!; try (by destruct big).
  eapply Forall_impl; [exact H3|]. cbv beta. intros i Hi.
  destruct (Z.ltb_spec i 0) as [?|?]; [by rewrite Z.testbit_neg_r by lia|]. by rewrite little_user0, Hi by lia.
Qed.
Lemma small_bits : Forall (fun i => i = 24 \/ i = 25 \/ i = 28 \/ i = 29 \/ i = 30 \/ i = 31) [24; 25; 28; 29; 30; 31].
Proof. repeat constructor; tauto. Qed.
Lemma big_again_duplex big r : duplex big r -> duplex true (big_again r).
Proof.
  intros (H1 & H2 & H3 & H4 & H5). unfold duplex, big_again. cbn [USER0 with_USER0]. rewrite !Z.lor_spec, H1, H2, H4, H5.
  split_and!; try done; try (by destruct big). eapply Forall_impl; [exact (proj2 (Forall_and _ _) (conj H3 small_bits))|].
  cbv beta. intros i [Hi [->|[->|[->|[->|[->| ->]]]]]]; by rewrite Z.lor_spec, Hi.
Qed.
Lemma little_big_again r : little (big_again r) = little r.
Proof.
  unfold little, big_again, with_USER0. cbn [CTRL0 CLOCK USER0 USER1 SPIN W]. f_equal.
  apply Z.bits_inj'. intros n Hn. rewrite !Z.ldiff_spec, Z.lor_spec. by destruct (Z.testbit (USER0 r) n), (Z.testbit endian_mask n).
Qed.

Section bytes.
Context {H E D : Type} `{!Pads E, !SpiPads E, !SpiDevice E D} (s0 : spi_soc H E).

Lemma wp_fill_loop n i r e s (Q : unit -> spi_soc H E -> Prop) : 0 <= i -> i + Z.of_nat n <= 16 ->
  at_bus s0 1 r e s -> length (W r) = 64%nat ->
  (forall s', at_bus s0 1 (with_W (take (Z.to_nat (4 * i)) (W r) ++ repeat 255 (4 * n) ++
     drop (Z.to_nat (4 * i) + 4 * n) (W r)) r) e s' -> Q () s') -> wp (fill_loop n 1 i) Q s.
Proof using.
  revert i r s; induction n as [|n IH]; intros i r s Hi Hn Hs HL HQ.
  { apply wp_ret, HQ. replace (Z.to_nat (4 * i) + 4 * 0)%nat with (Z.to_nat (4 * i)) by lia.
    change (repeat 255 (4 * 0)) with (@nil Z). rewrite app_nil_l, take_drop. by destruct r. }
  cbn [fill_loop]. apply wp_bind. unfold update_word. rewrite (proj2 (Z.ltb_lt i 16)) by lia.
  eapply (wp_update_SPI s0 1 eq_refl); [exact Hs|]. intros s' Hs'. unfold put_word in Hs'.
  set (w := W r) in *. set (k := Z.to_nat (4 * i)) in *. change (le_bytes 4 0xFFFFFFFF) with (repeat 255 4) in Hs'.
  replace (Z.to_nat (4 * i + 4)) with (k + 4)%nat in Hs' by lia.
  assert (Hk : length (take k w) = k) by (rewrite length_take; lia).
  match type of Hs' with at_bus _ _ ?r1 _ _ => apply (IH (i + 1) r1 s') end; [lia|lia|exact Hs'| |].
  - cbn [W with_W]. rewrite !length_app, Hk, length_drop, repeat_length. lia.
  - intros s'' Hs''. apply HQ. cbn [W with_W] in Hs''. replace (Z.to_nat (4 * (i + 1))) with (k + 4)%nat in Hs'' by lia.
    set (w1 := take k w ++ repeat 255 4 ++ drop (k + 4) w) in *.
    assert (E1 : take (k + 4) w1 = take k w ++ repeat 255 4 /\ drop (k + 4) w1 = drop (k + 4) w).
    { unfold w1. rewrite app_assoc. assert (length (take k w ++ repeat 255 4) = (k + 4)%nat) by (rewrite length_app, repeat_length; lia).
      split; [by apply take_app_length'|by apply drop_app_length']. }
    destruct E1 as [E1 E2]. rewrite <- (drop_drop w1), E1, E2, drop_drop, <- app_assoc in Hs''.
    replace (4 * S n)%nat with (4 + 4 * n)%nat by lia. rewrite repeat_app, <- app_assoc, Nat.add_assoc. exact Hs''.
Qed.
Lemma wp_transfer_piece polls size big r e s d (Q : list Z -> spi_soc H E -> Prop) : (max_polls < polls)%nat ->
  1 <= size <= 64 -> at_bus s0 1 r e s -> spi_idle 1 e d -> duplex big r -> buffer_ok r ->
  let answer := slave 1 (line (little r)) d (repeat 255 (Z.to_nat size)) in
  (forall s' r' e', at_bus s0 1 r' e' s' -> same_settings (big_again r) r' -> buffer_ok r' -> spi_idle 1 e' answer.2 ->
     Q answer.1 s') ->
  wp (spi_transfer_bytes_ polls 1 size) Q s.
Proof using.
  intros Hp Hz Hs Hi Hd Hb answer HQ. unfold spi_transfer_bytes_.
  apply wp_bind. eapply (wp_wait_idle s0 1 eq_refl); [lia|exact Hs|exact Hi|]. clear s Hs e Hi. intros s e Hs Hi.
  apply wp_bind. unfold _set_size. apply wp_bind. eapply (wp_update_SPI s0 1 eq_refl); [exact Hs|]. clear s Hs. intros s Hs.
  eapply (wp_update_SPI s0 1 eq_refl); [exact Hs|]. clear s Hs. intros s Hs.
  change (at_bus s0 1 (sized size r) e s) in Hs. apply wp_bind.
  eapply (wp_update_SPI s0 1 eq_refl); [exact Hs|]. clear s Hs. intros s Hs.
  change (at_bus s0 1 (little (sized size r)) e s) in Hs. set (r1 := little (sized size r)) in *.
  set (n := Z.to_nat (u8 ((size + 3) / 4))). assert (Hn : (4 * n <= 64)%nat /\ size <= 4 * Z.of_nat n).
  { unfold n. rewrite u8_small by div_lia. div_lia. }
  destruct (sized_fields size r Hz) as [F1 F2]. destruct Hb as [HL HB].
  apply wp_bind. eapply wp_fill_loop; [lia|lia|exact Hs|exact HL|]. clear s Hs. intros s Hs.
  change (W r1) with (W r) in Hs. change (take (Z.to_nat (4 * 0)) (W r)) with (@nil Z) in Hs. cbn [app] in Hs.
  change (Z.to_nat (4 * 0) + 4 * n)%nat with (4 * n)%nat in Hs.
  set (w := repeat 255 (4 * n) ++ drop (4 * n) (W r)) in *.
  assert (Hb2 : buffer_ok (with_W w r1)).
  { split; cbn [W with_W]; unfold w.
    - rewrite length_app, repeat_length, length_drop. lia.
    - apply Forall_app. split; [|by apply Forall_drop]. apply Forall_forall. intros x Hx%list_elem_of_In%repeat_spec. subst x. unfold is_byte. lia. }
  apply wp_bind. eapply (wp_start s0 1 eq_refl); [exact Hs|]. clear s Hs. intros s Hs.
  destruct (law_start 1 (with_W w r1) e d Hi) as (p & Hpn & Hr).
  assert (Hd1 : duplex false (with_W w r1)) by exact (little_duplex big r Hd).
  apply wp_bind. eapply (wp_wait_running s0 1 eq_refl polls p false size (with_W w r1)); [lia|exact Hs|exact Hr|exact Hd1|exact Hb2|lia|exact F1|exact F2|].
  change (line (with_W w r1)) with (line (little r)). cbn [W with_W wire].
  replace (take (Z.to_nat size) w) with (repeat 255 (Z.to_nat size)).
  2:{ unfold w. replace (4 * n)%nat with (Z.to_nat size + (4 * n - Z.to_nat size))%nat at 1 by lia.
      by rewrite repeat_app, <- app_assoc, take_app_length' by (by rewrite repeat_length). }
  fold answer. clear s Hs. intros s r3 e3 Hs Hset Hb3 Hin Hi3. cbn [wire] in Hin.
  apply wp_bind. unfold memcpy_from_W. rewrite (proj2 (Z.leb_le size 64)) by lia. apply wp_bind.
  eapply (wp_get_SPI s0 1 eq_refl); [exact Hs|]. apply wp_ret. rewrite Hin. apply wp_bind.
  eapply (wp_update_SPI s0 1 eq_refl); [exact Hs|]. clear s Hs. intros s Hs. apply wp_ret.
  eapply HQ; [exact Hs| |exact Hb3|exact Hi3]. destruct Hset as (S1 & S2 & S3 & S4). unfold same_settings.
  cbn [CTRL0 CLOCK USER0 SPIN with_USER0]. split_and!; [exact S1|exact S2| |exact S4]. rewrite S3.
  cbn [big_again USER0 with_USER0]. change (USER0 (with_W w r1)) with (USER0 (little r)). cbn [little USER0 with_USER0].
  fold endian_mask. apply Z.bits_inj'. intros j Hj. rewrite !Z.lor_spec, Z.ldiff_spec. by destruct (Z.testbit (USER0 r) j), (Z.testbit endian_mask j).
Qed.
End bytes.

(** spi_transfer_bytes reads [size] bytes by sending 0xff in pieces of 64.  It
    works on controller 1 whatever [bus] is, and leaves it big-endian. *)
Theorem spi_transfer_bytes_reads {H E D} `{!Pads E, !SpiPads E, !SpiDevice E D} polls (s : spi_soc H E) bus big d size :
  (max_polls < polls)%nat -> 0 <= size -> spi_idle 1 (world (chip s)) d -> duplex big (SPI s 1) -> buffer_ok (SPI s 1) ->
  let answer := pull (Z.to_nat (size / 64 + 1)) (line (little (SPI s 1))) d (Z.to_nat size) in
  exists s', spi_transfer_bytes polls bus size s = Some (answer.1, s') /\ spi_idle 1 (world (chip s')) answer.2 /\
    (0 < size -> duplex true (SPI s' 1)).
Proof.
  intros Hp Hz Hi Hd Hb. unfold spi_transfer_bytes.
  assert (Hf : size < 64 * Z.of_nat (Z.to_nat (size / 64 + 1))) by div_lia. revert Hf.
  generalize (Z.to_nat (size / 64 + 1)). intros fuel Hf.
  set (answer := pull fuel _ d _).
  assert (G : wp (transfer_bytes_loop polls fuel size) (fun data s' => data = answer.1 /\
    spi_idle 1 (world (chip s')) answer.2 /\ (0 < size -> duplex true (SPI s' 1))) s).
  2:{ destruct (wp_run _ _ _ G) as (x & s' & E1 & -> & H2). by exists s'. }
  unfold answer. clear answer. revert s size d big Hz Hi Hd Hb Hf; induction fuel as [|fuel IH]; intros s size d big Hz Hi Hd Hb Hf; [lia|].
  destruct (Z.eq_dec size 0) as [->|Hne]; [apply wp_ret; split_and!; [done|done|lia]|].
  cbn [transfer_bytes_loop]. rewrite (proj2 (Z.eqb_neq size 0)) by done.
  assert (Hpull : forall l d, pull (S fuel) l d (Z.to_nat size) =
    (let a := slave 1 l d (repeat 255 (Z.to_nat size `min` 64)) in
     let rest := pull fuel l a.2 (Z.to_nat size - 64) in (a.1 ++ rest.1, rest.2))).
  { intros. by destruct (Z.to_nat size) eqn:Es; [lia|]. }
  rewrite Hpull. cbv zeta. destruct (Z.ltb_spec 64 size).
  - replace (Z.to_nat size `min` 64)%nat with (Z.to_nat 64) by lia. apply wp_bind.
    eapply wp_transfer_piece; [exact Hp|lia|apply at_bus_start|exact Hi|exact Hd|exact Hb|].
    intros s1 r1 e1 (Er & Ee & _) Hset Hb1 Hi1. apply wp_bind. rewrite <- Ee in Hi1. rewrite <- Er in Hset, Hb1.
    destruct (same_settings_ready _ _ _ Hset (big_again_duplex _ _ Hd)) as [Hd1 _].
    assert (El : line (little (SPI s1 1)) = line (little (SPI s 1))).
    { rewrite <- (little_big_again (SPI s 1)). unfold line, little. cbn [CTRL0 CLOCK USER0 SPIN with_USER0].
      unfold same_settings in Hset. naive_solver congruence. }
    eapply wp_mono; [exact (IH s1 (size - 64) _ true ltac:(lia) Hi1 Hd1 Hb1 ltac:(lia))|].
    rewrite El. replace (Z.to_nat (size - 64)) with (Z.to_nat size - 64)%nat by lia. cbv beta. intros x s2 (-> & H2 & H3).
    apply wp_ret. cbn [fst snd]. split_and!; [done|done|]. intros _. apply H3. lia.
  - replace (Z.to_nat size `min` 64)%nat with (Z.to_nat size) by lia. replace (Z.to_nat size - 64)%nat with 0%nat by lia.
    eapply wp_transfer_piece; [exact Hp|lia|apply at_bus_start|exact Hi|exact Hd|exact Hb|].
    intros s1 r1 e1 (Er & Ee & _) Hset Hb1 Hi1. rewrite <- Ee in Hi1. rewrite <- Er in Hset.
    destruct (same_settings_ready _ _ _ Hset (big_again_duplex _ _ Hd)) as [Hd1 _].
    assert (En : forall l (d : D), pull fuel l d 0 = ([], d)) by (by destruct fuel). rewrite En. cbn [fst snd]. by rewrite app_nil_r.
Qed.

(** ** A concrete device

    It answers each byte with the next number and keeps what it was sent; a
    transaction takes two reads of CMD.  It is the same on both controllers. *)
Record counter_dev := { sent : list Z; running : option nat }.
#[export] Instance counter_pads : Pads counter_dev := {|
  pad_update := fun _ _ e => e; pad_in := fun _ e => (0, e); pad_delay := fun _ e => e
|}.
Definition counter_answer (out : list Z) : list Z := map (fun x => Z.land (x + 1) 255) out.
Definition counter_exchange (r : spi_regs) (e : counter_dev) : spi_regs * counter_dev :=
  let big := Z.testbit (USER0 r) 11 in
  let k := Z.to_nat ((field 9 17 (USER1 r) + 1) / 8) in
  let out := take k (wire big (W r)) in
  (with_W (wire big (counter_answer out ++ drop k (wire big (W r)))) r, {| sent := sent e ++ out; running := None |}).
#[export] Instance counter_spi : SpiPads counter_dev := {|
  cmd_usr := fun _ r e =>
    match running e with
    | None => (false, r, e)
    | Some (S n) => (true, r, {| sent := sent e; running := Some n |})
    | Some O => let '(r, e) := counter_exchange r e in (false, r, e)
    end;
  usr_start := fun _ _ e => {| sent := sent e; running := Some 1%nat |}
|}.

Lemma wire_byte big w : Forall is_byte w -> Forall is_byte (wire big w).
Proof. intros Hw. destruct big; [|done]. apply on_groups_byte; [intros; by apply Forall_rev|done]. Qed.
Lemma counter_answer_byte out : Forall is_byte (counter_answer out).
Proof. unfold counter_answer. induction out; constructor; auto with esp. Qed.

#[export] Program Instance counter_device : SpiDevice counter_dev (list Z) := {|
  slave := fun _ _ d out => (counter_answer out, d ++ out);
  max_polls := 2;
  spi_idle := fun _ e d => e = {| sent := d; running := None |};
  spi_running := fun _ n e d => e = {| sent := d; running := Some n |}
|}.
Next Obligation. intros. apply length_map. Qed.
Next Obligation. intros. apply counter_answer_byte. Qed.
Next Obligation. done. Qed.
Next Obligation. intros b r e d ->. by eexists. Qed.
Next Obligation. intros b r e d ->. exists 1%nat. split; [lia|done]. Qed.
Next Obligation. intros b n r e d ->. by eexists. Qed.
Next Obligation.
  intros b big k r e d -> (_ & _ & _ & B1 & _) [HL HB] Hk H1 _ answer.
  cbn [cmd_usr counter_spi running]. unfold counter_exchange. rewrite B1, H1.
  replace ((8 * k - 1 + 1) / 8) with k by (rewrite Z.sub_add, Z.mul_comm, Z.div_mul; lia).
  assert (La : length (counter_answer (take (Z.to_nat k) (wire big (W r)))) = Z.to_nat k).
  { unfold counter_answer. rewrite length_map, length_take, wire_length by done. lia. }
  assert (L : length (counter_answer (take (Z.to_nat k) (wire big (W r))) ++ drop (Z.to_nat k) (wire big (W r))) = 64%nat).
  { rewrite length_app, La, length_drop, wire_length by done. lia. }
  eexists _, _. split; [reflexivity|]. split_and!; try done.
  - split; [by apply wire_length|]. apply wire_byte, Forall_app. split; [apply counter_answer_byte|by apply Forall_drop, wire_byte].
  - cbn [W with_W]. rewrite wire_wire by done. by rewrite take_app_length' by done.
Qed.

Definition reset_regs : spi_regs := {| CTRL0 := 0; CLOCK := 0; USER0 := 0; USER1 := 0; SPIN := 0; W := repeat 0 64 |}.
Definition demo_spi : spi_soc unit counter_dev :=
  SpiSoc (Soc {| OUT := 0; ENABLE_OUT := 0; STATUS := 0; CONF := fun _ => 0; PIN := fun _ => 0 |}
    (fun _ => {| LOAD := 0; COUNT := 0; CTRL := 0; ALARM := 0 |}) 0 0 0 (fun _ => None) false {| sent := []; running := None |})
    (fun _ => reset_regs) 0 (fun _ => false).
Lemma reset_buffer : buffer_ok reset_regs.
Proof. split; [done|]. apply bytes_check. by vm_compute. Qed.

Lemma spi_init_configures_witness : exists s',
  spi_init 1 SPI_MODE2 (SPI_GET_FREQ_DIV 2 10) true SPI_BIG_ENDIAN false demo_spi = Some (true, s') /\
  spi_get_frequency_hz 1 s' = Some (4000000, s') /\ Z.land (PIN (gpio (chip s')) (mux_of 15)) IOMUX_PIN_FUNC_MASK = 0x20.
Proof.
  destruct (spi_init_configures demo_spi 1 SPI_MODE2 2 10 true SPI_BIG_ENDIAN false eq_refl ltac:(lia) ltac:(lia))
    as (s' & E1 & _ & _ & _ & E2 & _ & _ & _ & E3 & _).
  exists s'. split_and!; [exact E1|exact E2|]. apply (E3 15). cbn. auto.
Defined.
(** The predefined 4 MHz becomes 125 kHz. *)
Lemma spi_restore_settings_clock_witness : exists s1 s2 st,
  spi_init 1 SPI_MODE0 (SPI_GET_FREQ_DIV 2 10) true SPI_LITTLE_ENDIAN true demo_spi = Some (true, s1) /\
  spi_get_settings 1 s1 = Some (st, s1) /\ spi_set_settings 1 st s1 = Some (true, s2) /\
  spi_get_frequency_hz 1 s2 = Some (125000, s2).
Proof.
  destruct (spi_restore_settings_clock demo_spi 1 SPI_MODE0 2 10 true SPI_LITTLE_ENDIAN true eq_refl ltac:(lia) ltac:(lia))
    as (s1 & s2 & st & E1 & E2 & E3 & _ & _ & _ & _ & E4).
  exists s1, s2, st. split_and!; [exact E1|exact E2|exact E3|exact E4].
Defined.
(** Three 16-bit words and then one byte on a big-endian bus. *)
Lemma spi_session_exchanges_witness : exists s1 s2,
  spi_init 1 SPI_MODE0 (SPI_GET_FREQ_DIV 2 10) true SPI_BIG_ENDIAN true demo_spi = Some (true, s1) /\
  do_transfers 3 1 [(SPI_16BIT, [1; 2; 3; 4; 5; 6]); (SPI_8BIT, [9])] s1 = Some ([[2; 3; 4; 5; 6; 7]; [10]], s2) /\
  spi_idle 1 (world (chip s2)) [2; 1; 4; 3; 6; 5; 9].
Proof.
  destruct (spi_session_exchanges 3 demo_spi 1 SPI_MODE0 2 10 true SPI_BIG_ENDIAN true []
    [(SPI_16BIT, [1; 2; 3; 4; 5; 6]); (SPI_8BIT, [9])] eq_refl ltac:(lia) ltac:(lia) (le_n 3 : (@max_polls _ _ _ _ counter_device < 3)%nat) reset_buffer eq_refl)
    as (s1 & s2 & E1 & E2 & E3 & _).
  { repeat constructor; cbn; try lia; reflexivity. }
  exists s1, s2. split_and!; [exact E1|exact E2|exact E3].
Defined.
Lemma spi_transfer_in_bounds_witness :
  (exists polls, is_Some (spi_transfer polls 1 (Some (repeat 7 65)) true 65 SPI_8BIT
     (set_SPI 1 (with_USER0 0x08000001 reset_regs) demo_spi))) <-> 65 * 1 <= 64.
Proof.
  apply (spi_transfer_in_bounds (set_SPI 1 (with_USER0 0x08000001 reset_regs) demo_spi) 1 [] SPI_LITTLE_ENDIAN (repeat 7 65) true 65 SPI_8BIT).
  - reflexivity.
  - reflexivity.
  - repeat split; repeat constructor.
  - exact reset_buffer.
  - apply bytes_check. by vm_compute.
  - lia.
  - by vm_compute.
Defined.
