(* ===== verification/Pwm.v ===== *)
(** * Pulse width modulation (extras/pwm/pwm.c)

    The pins are switched by the interrupts of FRC1, which alternate between the time
    the pins are on and the time they are off.  [pwmInfo] is part of the world of the
    chip, and the interrupt handler has the name [frc1_isr]. *)

From S2P Require Import Prelude Gpio EspRegs EspTimer.
Local Open Scope Z_scope.

Definition MAX_PWM_PINS : Z := 8.
Definition UINT16_MAX : Z := 65535.

Inductive pwm_step_t := PERIOD_ON | PERIOD_OFF.

(** The [divider] of a pin is not used by the source. *)
Record PWMInfo := {
  running : Z;
  freq : Z;
  dutyCicle : Z;
  _maxLoad : Z;
  _onLoad : Z;
  _offLoad : Z;
  _step : pwm_step_t;
  usedPins : Z;
  pins : list Z
}.

(** The static variable, the numbers that pwm_init complained about, and the rest. *)
Record pwm_world (P : Type) := PwmWorld { pwmInfo : PWMInfo; complaints : list Z; outside : P }.
Arguments PwmWorld {P}.
Arguments pwmInfo {P}.
Arguments complaints {P}.
Arguments outside {P}.

Class PwmIsr (H : Type) := frc1_isr : H.

#[export] Instance pwm_pads {P} `{!Pads P} : Pads (pwm_world P) := {|
  pad_update := fun g g' w => PwmWorld (pwmInfo w) (complaints w) (pad_update g g' (outside w));
  pad_in := fun g w => let '(v, p) := pad_in g (outside w) in (v, PwmWorld (pwmInfo w) (complaints w) p);
  pad_delay := fun us w => PwmWorld (pwmInfo w) (complaints w) (pad_delay us (outside w))
|}.

Definition with_running (v : Z) (i : PWMInfo) : PWMInfo :=
  {| running := v; freq := freq i; dutyCicle := dutyCicle i; _maxLoad := _maxLoad i; _onLoad := _onLoad i;
     _offLoad := _offLoad i; _step := _step i; usedPins := usedPins i; pins := pins i |}.
Definition with_freq (v : Z) (i : PWMInfo) : PWMInfo :=
  {| running := running i; freq := v; dutyCicle := dutyCicle i; _maxLoad := _maxLoad i; _onLoad := _onLoad i;
     _offLoad := _offLoad i; _step := _step i; usedPins := usedPins i; pins := pins i |}.
Definition with_duty (v : Z) (i : PWMInfo) : PWMInfo :=
  {| running := running i; freq := freq i; dutyCicle := v; _maxLoad := _maxLoad i; _onLoad := _onLoad i;
     _offLoad := _offLoad i; _step := _step i; usedPins := usedPins i; pins := pins i |}.
Definition with_loads (max on off : Z) (step : pwm_step_t) (i : PWMInfo) : PWMInfo :=
  {| running := running i; freq := freq i; dutyCicle := dutyCicle i; _maxLoad := max; _onLoad := on;
     _offLoad := off; _step := step; usedPins := usedPins i; pins := pins i |}.
Definition with_step (step : pwm_step_t) (i : PWMInfo) : PWMInfo :=
  with_loads (_maxLoad i) (_onLoad i) (_offLoad i) step i.
Definition with_pins (n : Z) (l : list Z) (i : PWMInfo) : PWMInfo :=
  {| running := running i; freq := freq i; dutyCicle := dutyCicle i; _maxLoad := _maxLoad i; _onLoad := _onLoad i;
     _offLoad := _offLoad i; _step := _step i; usedPins := n; pins := l |}.

Section pwm.
Context {H P : Type} `{!Pads P, !PwmIsr H}.
Notation soc := (soc H (pwm_world P)).

Definition get_info : ST soc PWMInfo := s ← st_get; mret (pwmInfo (world s)).
Definition mod_info (f : PWMInfo -> PWMInfo) : ST soc unit :=
  st_modify (fun s => set_world (PwmWorld (f (pwmInfo (world s))) (complaints (world s)) (outside (world s))) s).
Definition complain (n : Z) : ST soc unit :=
  st_modify (fun s => set_world (PwmWorld (pwmInfo (world s)) (complaints (world s) ++ [n]) (outside (world s))) s).

(** [for (; i < pwmInfo.usedPins; ++i) gpio_write(pwmInfo.pins[i].pin, out);] *)
Fixpoint write_each (l : list Z) (out : bool) : ST soc unit :=
  match l with
  | [] => mret ()
  | p :: l => esp_gpio_write p out;; write_each l out
  end.
Definition used (i : PWMInfo) : list Z := take (Z.to_nat (usedPins i)) (pins i).
Definition write_pins (out : bool) : ST soc unit :=
  i ← get_info;
  write_each (used i) out.

Definition frc1_interrupt_handler : ST soc unit :=
  i ← get_info;
  let '(out, load, step) :=
    match _step i with
    | PERIOD_ON => (false, _offLoad i, PERIOD_OFF)
    | PERIOD_OFF => (true, _onLoad i, PERIOD_ON)
    end in
  write_pins out;;
  timer_set_load FRC1 load;;
  mod_info (with_step step).

Definition pwm_stop : ST soc unit :=
  timer_set_interrupts FRC1 false;;
  timer_set_run FRC1 false;;
  mod_info (with_running 0).

Definition pwm_start : ST soc unit :=
  mod_info (fun i =>
    let onLoad := u32 (dutyCicle i * _maxLoad i) / UINT16_MAX in
    with_loads (_maxLoad i) onLoad (u32 (_maxLoad i - onLoad)) PERIOD_ON i);;
  write_pins true;;
  i ← get_info;
  timer_set_load FRC1 (_onLoad i);;
  timer_set_reload FRC1 false;;
  timer_set_interrupts FRC1 true;;
  timer_set_run FRC1 true;;
  mod_info (with_running 1).

Definition pwm_restart : ST soc unit :=
  i ← get_info;
  if negb (running i =? 0) then pwm_stop;; pwm_start else mret ().

Definition pwm_set_freq (f : Z) : ST soc unit :=
  mod_info (with_freq f);;
  i ← get_info;
  (if negb (running i =? 0) then pwm_stop;; mod_info (with_running 1) else mret ());;
  timer_set_frequency FRC1 f;;
  load ← timer_get_load FRC1;
  mod_info (fun i => with_loads load (_onLoad i) (_offLoad i) (_step i) i);;
  i ← get_info;
  if negb (running i =? 0) then pwm_start else mret ().

Definition pwm_set_duty (duty : Z) : ST soc unit :=
  mod_info (with_duty duty);;
  if (0 <? duty) && (duty <? UINT16_MAX) then pwm_restart
  else
    pwm_stop;;
    mod_info (with_running 1);;
    write_pins (duty =? UINT16_MAX).

(** The loop over the pins of pwm_init. *)
Fixpoint init_pins (n : nat) (i : Z) (args : list Z) : ST soc unit :=
  match n with
  | O => mret ()
  | S n =>
      let pin := default 0 (args !! Z.to_nat i) in
      mod_info (fun info => with_pins (usedPins info) (<[Z.to_nat i := pin]> (pins info)) info);;
      esp_gpio_enable pin GPIO_OUTPUT;;
      init_pins n (i + 1) args
  end.
Definition pwm_init (npins : Z) (args : list Z) : ST soc unit :=
  if MAX_PWM_PINS <? npins then complain npins
  else
    mod_info (with_loads 0 0 0 PERIOD_ON);;
    mod_info (fun i => with_pins npins (pins i) i);;
    init_pins (Z.to_nat npins) 0 args;;
    pwm_stop;;
    _xt_isr_attach INUM_TIMER_FRC1 (Some frc1_isr);;
    mod_info (with_running 0).
End pwm.
