(* ===== verification/PwmContract.v ===== *)
(** * What the PWM puts on its pins

    After pwm_start every interrupt of FRC1 switches the pins and loads the time until
    the next one, so the pins show the duty cycle; [pwm_waveform] follows it from
    pwm_init, through the interrupt dispatch and the registers of the timer and the
    GPIO, to the levels of the pins. *)

From S2P Require Import Prelude Gpio EspRegs EspGpio EspInterrupts EspTimer EspTimerContract Pwm.
Local Open Scope Z_scope.

(** A pin that drives its latch in both states. *)
Definition push_pull (g : gpio_regs) (p : Z) : Prop := output_on g p = true /\ Z.testbit (CONF g p) 2 = false.
Lemma drives_push_pull g p : push_pull g p -> drives g p = Some (Z.testbit (OUT g) p).
Proof. intros [Ho Hc]. unfold drives. rewrite Ho, Hc. by destruct (Z.testbit (OUT g) p). Qed.

Section pwm.
Context {H P : Type} `{!Pads P, !PwmIsr H, !Handlers H (pwm_world P)}.
Notation soc := (soc H (pwm_world P)).
Implicit Types s : soc.

Definition info s : PWMInfo := pwmInfo (world s).

(** The latches of the pins [l] are set to [out], and nothing else changes. *)
Definition wrote (l : list Z) (out : bool) s s' : Prop :=
  (exists v, gpio s' = with_OUT v (gpio s) /\
     forall q, 0 <= q < 16 -> Z.testbit v q = if bool_decide (q ∈ l) then out else Z.testbit (OUT (gpio s)) q) /\
  same_cpu s s' /\ info s' = info s.

Lemma write_each_run l out s : Forall (fun p => 0 <= p < 16) l ->
  exists s', write_each l out s = Some ((), s') /\ wrote l out s s'.
Proof.
  intros Hl. revert s; induction Hl as [|p l Hp Hl IH]; intros s; cbn [write_each].
  { exists s. split; [done|]. split; [|done]. exists (OUT (gpio s)). by destruct (gpio s). }
  rewrite (bind_run _ _ _ _ _ (gpio_write_run p out s Hp)).
  destruct (IH (set_gpio (with_OUT (if out then Z.lor (OUT (gpio s)) (BIT p) else Z.ldiff (OUT (gpio s)) (BIT p)) (gpio s)) s))
    as (s' & E & (v & Eg & Hv) & Hcpu & Hi).
  exists s'. split; [exact E|]. split; [|by split; [exact Hcpu|exact Hi]]. exists v. split; [by rewrite Eg|].
  intros q Hq. rewrite Hv by done. cbn [gpio set_gpio OUT with_OUT].
  destruct (bool_decide_reflect (q ∈ l)) as [Hin|Hin].
  { by rewrite bool_decide_true by (by apply list_elem_of_further). }
  destruct (Z.eq_dec q p) as [->|Hne].
  - rewrite bool_decide_true by apply list_elem_of_here.
    destruct out; autorewrite with esp_bits; by rewrite Z.eqb_refl, ?orb_true_r, ?andb_false_r.
  - rewrite bool_decide_false by (rewrite elem_of_cons; tauto).
    destruct out; autorewrite with esp_bits; rewrite (proj2 (Z.eqb_neq p q)) by done; by rewrite ?orb_false_r, ?andb_true_r.
Qed.
Lemma write_pins_run out s : Forall (fun p => 0 <= p < 16) (used (info s)) ->
  exists s', write_pins out s = Some ((), s') /\ wrote (used (info s)) out s s'.
Proof. intros Hl. unfold write_pins. exact (write_each_run _ out s Hl). Qed.
Lemma wrote_drives l out s s' p : wrote l out s s' -> p ∈ l -> 0 <= p < 16 -> push_pull (gpio s) p ->
  push_pull (gpio s') p /\ drives (gpio s') p = Some out.
Proof.
  intros ((v & Eg & Hv) & _) Hin Hp Hpp. rewrite Eg.
  assert (Hpp' : push_pull (with_OUT v (gpio s)) p) by exact Hpp. split; [exact Hpp'|].
  rewrite (drives_push_pull _ _ Hpp'). cbn [OUT with_OUT]. by rewrite Hv, bool_decide_true by done.
Qed.

(** ** Running *)

(** The divider that the control register of FRC1 selects. *)
Definition divider s : Z := FIELD2VAL TIMER_CTRL_CLKDIV_M TIMER_CTRL_CLKDIV_S (CTRL (TIMER FRC1 s)).
Lemma field_same v w : Z.testbit v 2 = Z.testbit w 2 -> Z.testbit v 3 = Z.testbit w 3 ->
  FIELD2VAL TIMER_CTRL_CLKDIV_M TIMER_CTRL_CLKDIV_S v = FIELD2VAL TIMER_CTRL_CLKDIV_M TIMER_CTRL_CLKDIV_S w.
Proof.
  intros H2 H3. unfold FIELD2VAL, TIMER_CTRL_CLKDIV_M, TIMER_CTRL_CLKDIV_S. apply Z.bits_inj'. intros n Hn.
  rewrite !Z.land_spec, !Z.shiftr_spec by lia. destruct (Z.lt_ge_cases n 2) as [Hlt|Hge].
  - assert (n = 0 \/ n = 1) as [-> | ->] by lia; [change (0 + 2) with 2|change (1 + 2) with 3]; f_equal; assumption.
  - change 3 with (Z.ones 2). rewrite Z.ones_spec_high by lia. by rewrite !andb_false_r.
Qed.

(** The PWM runs with the divider [div] and the loads [on] and [off] on the pins [l],
    which are on or off. *)
Definition playing (div on off : Z) (l : list Z) (level : bool) s : Prop :=
  used (info s) = l /\ Forall (fun p => 0 <= p < 16 /\ push_pull (gpio s) p /\ drives (gpio s) p = Some level) l /\
  isr s INUM_TIMER_FRC1 = Some frc1_isr /\
  _onLoad (info s) = on /\ _offLoad (info s) = off /\ _step (info s) = (if level then PERIOD_ON else PERIOD_OFF) /\
  LOAD (TIMER FRC1 s) = (if level then on else off) /\
  Z.testbit (CTRL (TIMER FRC1 s)) 7 = true /\ Z.testbit (CTRL (TIMER FRC1 s)) 6 = false /\
  Z.testbit (INT_ENABLE s) 1 = true /\ Z.testbit (INTENABLE s) INUM_TIMER_FRC1 = true /\
  divider s = div.

Lemma handler_plays div on off l level s : playing div on off l level s ->
  exists s', frc1_interrupt_handler s = Some ((), s') /\ playing div on off l (negb level) s'.
Proof.
  intros (Hu & Hl & Hisr & Hon & Hoff & Hst & Hload & Hrun & Hrel & Hdp & Hie & Hdiv).
  unfold frc1_interrupt_handler. rewrite (bind_run _ _ s (info s) s) by done. rewrite Hst.
  assert (Hv : Forall (fun p => 0 <= p < 16) (used (info s))) by (rewrite Hu; eapply Forall_impl; [exact Hl|by intros p [? _]]).
  destruct (write_pins_run (negb level) s Hv) as (s1 & E1 & Hw).
  assert (Hl1 : Forall (fun p => 0 <= p < 16 /\ push_pull (gpio s1) p /\ drives (gpio s1) p = Some (negb level)) l).
  { rewrite Forall_forall in Hl |- *. intros p Hp. destruct (Hl p Hp) as (Hp16 & Hpp & _). split; [done|].
    rewrite Hu in Hw. by eapply wrote_drives. }
  destruct Hw as (_ & (Hfrc & HIE & HIN & _ & His & _) & Hi).
  exists (set_world (PwmWorld (with_step (if level then PERIOD_OFF else PERIOD_ON) (info s1)) (complaints (world s1)) (outside (world s1)))
           (set_frc (fun i => if i =? 0 then with_LOAD (if level then off else on) (frc s1 i) else frc s1 i) s1)).
  split.
  - destruct level; cbn [negb] in E1; rewrite (bind_run _ _ _ _ _ E1); by rewrite ?Hon, ?Hoff.
  - unfold playing, divider, info, TIMER. cbn. fold (info s1). rewrite Hi, Hfrc, HIE, HIN, His, Hon, Hoff.
    split_and!; try done; by destruct level.
Qed.

Definition interrupt : ST soc unit := _xt_isr_handler (BIT INUM_TIMER_FRC1);; mret ().
Fixpoint interrupts (n : nat) : ST soc unit :=
  match n with
  | O => mret ()
  | S n => interrupt;; interrupts n
  end.

Lemma interrupt_plays div on off l level s : call_isr frc1_isr = frc1_interrupt_handler -> playing div on off l level s ->
  exists s', interrupt s = Some ((), s') /\ playing div on off l (negb level) s'.
Proof.
  intros Hcall Hp. set (s1 := set_INTERRUPT (Z.ldiff (INTERRUPT s) (BIT 9)) (set_in_isr true s)).
  destruct (handler_plays div on off l level s1 Hp) as (s2 & E2 & Hp2). exists (set_in_isr false s2).
  split; [|exact Hp2]. unfold interrupt.
  assert (Ec : call_index INUM_TIMER_FRC1 s1 = Some ((), s2)).
  { unfold call_index. rewrite (bind_run _ _ s1 s1 s1) by done.
    destruct Hp as (_ & _ & Hisr & _). change (isr s1) with (isr s). by rewrite Hisr, Hcall. }
  assert (El : isr_loop 16 512 (set_in_isr true s) = Some ((), s2)).
  { rewrite (isr_loop_dispatches 16 0) by lia. replace (bits_set 16 0 512) with [INUM_TIMER_FRC1] by (by vm_compute).
    cbn [for_each fold_right]. unfold dispatch. rewrite bind_assoc, (bind_run _ _ _ () s1) by reflexivity.
    rewrite (bind_run _ _ _ _ _ Ec). reflexivity. }
  unfold _xt_isr_handler. rewrite bind_assoc, (bind_run _ _ s () (set_in_isr true s)) by done.
  change (negb (Z.land (BIT INUM_TIMER_FRC1) (BIT INUM_WDT) =? 0)) with false. cbv iota.
  rewrite bind_assoc, (bind_run _ _ _ (BIT INUM_TIMER_FRC1) (set_in_isr true s)) by done.
  change (BIT INUM_TIMER_FRC1) with 512. by rewrite bind_assoc, (bind_run _ _ _ _ _ El).
Qed.
Lemma interrupts_play div on off l n level s : call_isr frc1_isr = frc1_interrupt_handler -> playing div on off l level s ->
  exists s', interrupts n s = Some ((), s') /\ playing div on off l (if Nat.even n then level else negb level) s'.
Proof.
  intros Hcall. revert level s; induction n as [|n IH]; intros level s Hp; cbn [interrupts]; [by exists s|].
  destruct (interrupt_plays _ _ _ _ _ _ Hcall Hp) as (s1 & E1 & Hp1). rewrite (bind_run _ _ _ _ _ E1).
  destruct (IH (negb level) s1 Hp1) as (s2 & E2 & Hp2). exists s2. split; [exact E2|].
  rewrite Nat.even_succ, <- Nat.negb_even. destruct (Nat.even n); [exact Hp2|]. by rewrite negb_involutive in Hp2.
Qed.

(** ** Starting *)

(** The pins are outputs and the handler is attached. *)
Definition prepared (l : list Z) s : Prop :=
  used (info s) = l /\ Forall (fun p => 0 <= p < 16 /\ push_pull (gpio s) p) l /\ isr s INUM_TIMER_FRC1 = Some frc1_isr.

Lemma start_plays l s : prepared l s -> 0 <= dutyCicle (info s) <= 65535 -> 0 <= _maxLoad (info s) < 2 ^ 32 ->
  dutyCicle (info s) * _maxLoad (info s) < 2 ^ 32 ->
  let on := dutyCicle (info s) * _maxLoad (info s) / 65535 in
  exists s', pwm_start s = Some ((), s') /\ playing (divider s) on (_maxLoad (info s) - on) l true s'.
Proof.
  intros (Hu & Hl & Hisr) Hd HM Hov on.
  assert (Hon : 0 <= on <= _maxLoad (info s)).
  { unfold on. split; [apply Z.div_pos; nia|]. apply Z.div_le_upper_bound; nia. }
  unfold pwm_start.
  set (s0 := set_world (PwmWorld (with_loads (_maxLoad (info s)) on (_maxLoad (info s) - on) PERIOD_ON (info s))
    (complaints (world s)) (outside (world s))) s).
  rewrite (bind_run _ _ s () s0).
  2: { unfold mod_info, st_modify, s0. fold (info s). rewrite (u32_small (dutyCicle (info s) * _maxLoad (info s))) by lia.
       change UINT16_MAX with 65535. fold on. by rewrite u32_small by lia. }
  assert (Hv : Forall (fun p => 0 <= p < 16) (used (info s0))).
  { change (used (info s0)) with (used (info s)). rewrite Hu. eapply Forall_impl; [exact Hl|by intros p [? _]]. }
  destruct (write_pins_run true s0 Hv) as (s1 & E1 & Hw). rewrite (bind_run _ _ _ _ _ E1).
  assert (Hl1 : Forall (fun p => 0 <= p < 16 /\ push_pull (gpio s1) p /\ drives (gpio s1) p = Some true) l).
  { rewrite Forall_forall in Hl |- *. intros p Hp. destruct (Hl p Hp) as [Hp16 Hpp]. split; [done|].
    change (used (info s0)) with (used (info s)) in Hw. rewrite Hu in Hw. by eapply wrote_drives. }
  destruct Hw as (_ & (Hfrc & HIE & HIN & _ & His & _) & Hi).
  eexists. split; [reflexivity|]. unfold playing, divider, info, TIMER. cbn -[Z.testbit FIELD2VAL]. fold (info s1).
  rewrite Hi, Hfrc, HIE, HIN, His. split_and!; try done.
  - change TIMER_CTRL_RUN with (BIT 7). autorewrite with esp_bits. by rewrite Z.eqb_refl, orb_true_r.
  - change TIMER_CTRL_RUN with (BIT 7). change TIMER_CTRL_RELOAD with (BIT 6). autorewrite with esp_bits.
    by rewrite Z.eqb_refl, andb_false_r.
  - change DPORT_INT_ENABLE_FRC1 with (BIT 1). autorewrite with esp_bits. by rewrite Z.eqb_refl, orb_true_r.
  - change INUM_TIMER_FRC1 with 9. autorewrite with esp_bits. by rewrite Z.eqb_refl, orb_true_r.
  - change TIMER_CTRL_RUN with (BIT 7). change TIMER_CTRL_RELOAD with (BIT 6).
    apply field_same; autorewrite with esp_bits; cbn [Z.eqb Pos.eqb negb]; by rewrite orb_false_r, andb_true_r.
Qed.

(** ** Setting up *)

Lemma do_writes_info fs s : info (do_writes fs s) = info s.
Proof. revert s; induction fs as [|f fs IH]; intros s; [done|]. exact (IH (set_gpio (f (gpio s)) s)). Qed.


Lemma enable_push_pull p s : 0 <= p < 16 -> let g := gpio (do_writes (enable_writes p GPIO_OUTPUT) s) in
  push_pull g p /\ forall q, 0 <= q < 16 -> push_pull (gpio s) q -> push_pull g q.
Proof.
  intros Hp g. unfold g. rewrite do_writes_gpio.
  destruct (enable_drives p GPIO_OUTPUT (gpio s) Hp) as (_ & Ho & Hc & _). split; [by split|].
  intros q Hq [Hqo Hqc]. destruct (Z.eq_dec q p) as [->|Hne]; [by split|].
  destruct (enable_other p GPIO_OUTPUT (gpio s) q Hp Hq Hne) as [E1 E2]. unfold push_pull. by rewrite E1, E2.
Qed.

(** What pwm_init leaves of the variables: the pins, and zero loads. *)
Lemma init_pins_run n i args s : 0 <= i -> (Z.to_nat i + n <= length args)%nat -> (length args <= length (pins (info s)))%nat ->
  Forall (fun p => 0 <= p < 16) args ->
  exists s', init_pins n i args s = Some ((), s') /\ same_cpu s s' /\
    info s' = with_pins (usedPins (info s)) (pins (info s')) (info s) /\
    length (pins (info s')) = length (pins (info s)) /\
    (forall j, (j < Z.to_nat i)%nat -> pins (info s') !! j = pins (info s) !! j) /\
    (forall j, (Z.to_nat i <= j < Z.to_nat i + n)%nat -> pins (info s') !! j = args !! j) /\
    (forall q, 0 <= q < 16 -> push_pull (gpio s) q -> push_pull (gpio s') q) /\
    (forall j p, (Z.to_nat i <= j < Z.to_nat i + n)%nat -> args !! j = Some p -> push_pull (gpio s') p).
Proof.
  revert i s; induction n as [|n IH]; intros i s Hi Hn Hlen Hargs; cbn [init_pins].
  { exists s. split; [done|]. split_and!; try done; try lia. by destruct (info s). }
  destruct (lookup_lt_is_Some_2 args (Z.to_nat i)) as [p Ep]; [lia|]. rewrite Ep. cbn [default].
  assert (Hp : 0 <= p < 16) by (rewrite Forall_lookup in Hargs; by eapply Hargs).
  set (s0 := set_world (PwmWorld (with_pins (usedPins (info s)) (<[Z.to_nat i := p]> (pins (info s))) (info s))
    (complaints (world s)) (outside (world s))) s).
  rewrite (bind_run _ _ s () s0) by done. rewrite (bind_run _ _ _ _ _ (gpio_enable_run p GPIO_OUTPUT s0 Hp)).
  set (s1 := do_writes (enable_writes p GPIO_OUTPUT) s0).
  destruct (enable_push_pull p s0 Hp) as [Hpp Hothers]. fold s1 in Hpp, Hothers.
  assert (Ei : info s1 = info s0) by apply do_writes_info.
  destruct (IH (i + 1) s1) as (s2 & E2 & Hcpu & Hinfo & Hl2 & Hlow & Hmid & Hkeep & Hnew); [lia|lia| |done|].
  { rewrite Ei. cbn. by rewrite length_insert. }
  replace (Z.to_nat (i + 1)) with (S (Z.to_nat i)) in * by lia. rewrite Ei in *. cbn [info s0 world set_world pwmInfo pins with_pins usedPins] in *.
  exists s2. split; [exact E2|]. split.
  { eapply same_cpu_trans; [|exact Hcpu]. exact (do_writes_cpu (enable_writes p GPIO_OUTPUT) s0). }
  split; [rewrite Hinfo; by destruct (info s)|]. split; [by rewrite Hl2, length_insert|]. split.
  { intros j Hj. rewrite Hlow by lia. apply list_lookup_insert_ne. lia. }
  split.
  { intros j Hj. destruct (decide (j = Z.to_nat i)) as [->|Hne]; [|apply Hmid; lia].
    rewrite Hlow by lia. rewrite list_lookup_insert_eq by lia. done. }
  split; [intros q Hq Hpq; apply Hkeep; [done|by apply Hothers]|].
  intros j q Hj Eq. destruct (decide (j = Z.to_nat i)) as [->|Hne]; [|by apply (Hnew j); [lia|]].
  assert (q = p) as -> by congruence. by apply Hkeep.
Qed.

Lemma init_prepares args s : (length args <= 8)%nat -> length (pins (info s)) = 8%nat ->
  Forall (fun p => 0 <= p < 16) args ->
  exists s', pwm_init (Z.of_nat (length args)) args s = Some ((), s') /\ prepared args s' /\ running (info s') = 0.
Proof.
  intros Hn Hlen Hargs. unfold pwm_init. change MAX_PWM_PINS with 8. rewrite (proj2 (Z.ltb_ge 8 _)) by lia.
  set (i0 := with_pins (Z.of_nat (length args)) (pins (info s)) (with_loads 0 0 0 PERIOD_ON (info s))).
  set (s0 := set_world (PwmWorld i0 (complaints (world s)) (outside (world s))) s).
  rewrite (bind_run _ _ s () (set_world (PwmWorld (with_loads 0 0 0 PERIOD_ON (info s)) (complaints (world s)) (outside (world s))) s)) by done.
  rewrite (bind_run _ _ _ () s0) by done. rewrite Nat2Z.id.
  destruct (init_pins_run (length args) 0 args s0) as (s1 & E1 & Hcpu & Hinfo & Hl1 & _ & Hmid & _ & Hpp);
    [lia|simpl; lia|by change (pins (info s0)) with (pins (info s)); rewrite Hlen|done|].
  rewrite (bind_run _ _ _ _ _ E1). eexists. split; [reflexivity|].
  assert (Hu : used (info s1) = args).
  { unfold used. rewrite Hinfo. cbn [usedPins with_pins pins]. change (usedPins (info s0)) with (Z.of_nat (length args)).
    rewrite Nat2Z.id. apply list_eq. intros j. destruct (Nat.lt_ge_cases j (length args)) as [Hj|Hj].
    - rewrite lookup_take_lt by done. apply Hmid. simpl. lia.
    - rewrite lookup_take_ge, lookup_ge_None_2 by done. done. }
  split; [|done]. split; [exact Hu|]. split; [|done]. apply Forall_lookup. intros j p Ej.
  split; [rewrite Forall_lookup in Hargs; by eapply Hargs|].
  apply (Hpp j p); [|done]. apply lookup_lt_Some in Ej. simpl. lia.
Qed.

Lemma set_duty_idle l d s : prepared l s -> running (info s) = 0 -> 0 < d < 65535 ->
  exists s', pwm_set_duty d s = Some ((), s') /\ prepared l s' /\ running (info s') = 0 /\ dutyCicle (info s') = d.
Proof.
  intros Hp Hr Hd. unfold pwm_set_duty.
  set (s0 := set_world (PwmWorld (with_duty d (info s)) (complaints (world s)) (outside (world s))) s).
  rewrite (bind_run _ _ s () s0) by done. change UINT16_MAX with 65535.
  rewrite (proj2 (Z.ltb_lt 0 d)), (proj2 (Z.ltb_lt d 65535)) by lia. cbn [andb]. unfold pwm_restart.
  rewrite (bind_run _ _ s0 (info s0) s0) by done. change (running (info s0)) with (running (info s)). rewrite Hr.
  exists s0. by split_and!.
Qed.

Lemma set_freq_idle l f s : prepared l s -> running (info s) = 0 -> 5 <= f < 65536 ->
  exists s' M, pwm_set_freq f s = Some ((), s') /\ prepared l s' /\ _maxLoad (info s') = M /\
    dutyCicle (info s') = dutyCicle (info s) /\ divider s' = timer_freq_to_div f /\ 50 <= M <= 62500 /\
    f * (div_val (timer_freq_to_div f) * M) <= 80000000 < f * (div_val (timer_freq_to_div f) * (M + 1)).
Proof.
  intros (Hu & Hl & Hisr) Hr Hf. unfold pwm_set_freq.
  set (s0 := set_world (PwmWorld (with_freq f (info s)) (complaints (world s)) (outside (world s))) s).
  rewrite (bind_run _ _ s () s0) by done. rewrite (bind_run _ _ s0 (info s0) s0) by done.
  change (running (info s0)) with (running (info s)). rewrite Hr. change (negb (0 =? 0)) with false. cbv iota.
  rewrite (bind_run _ _ s0 () s0) by done.
  destruct (set_frequency_run FRC1 f s0) as (M & t & s1 & E1 & (Ht & _ & Hg & _ & _ & _ & Hi & _ & Hw) & HL & _ & HC & HM & Hb & H50);
    [lia|].
  rewrite (bind_run _ _ _ _ _ E1). rewrite (bind_run _ _ s1 M s1).
  2: { unfold timer_get_load. rewrite (bind_run _ _ s1 s1 s1) by done. by rewrite Ht, HL. }
  assert (Ei : info s1 = info s0) by (unfold info; by rewrite Hw).
  set (i2 := with_loads M (_onLoad (info s1)) (_offLoad (info s1)) (_step (info s1)) (info s1)).
  set (s2 := set_world (PwmWorld i2 (complaints (world s1)) (outside (world s1))) s1).
  rewrite (bind_run _ _ s1 () s2) by done. rewrite (bind_run _ _ s2 i2 s2) by done.
  change (running i2) with (running (info s1)). rewrite Ei. change (running (info s0)) with (running (info s)). rewrite Hr.
  exists s2, M. split; [reflexivity|]. split.
  { unfold prepared. change (used (info s2)) with (used (info s1)). change (gpio s2) with (gpio s1).
    change (isr s2) with (isr s1). rewrite Ei, Hg, Hi. done. }
  split; [done|]. split; [change (dutyCicle (info s2)) with (dutyCicle (info s1)); by rewrite Ei|]. split.
  { change (divider s2) with (divider s1). unfold divider. rewrite Ht, HC.
    destruct (freq_to_count_range FRC1 f ltac:(lia)) as [Hd _].
    rewrite <- (proj1 (divided_ctrl (timer_freq_to_div f) (TIMER FRC1 s0) Hd)) at 2.
    change TIMER_CTRL_RELOAD with (BIT 6). apply field_same; autorewrite with esp_bits; cbn [Z.eqb Pos.eqb]; by rewrite orb_false_r. }
  split; [|done]. split; [apply H50; lia|].
  destruct (Z.leb_spec f 100) as [Hle|Hgt]; unfold timer_freq_to_div in Hb; change (100 * 1000) with 100000 in Hb;
    rewrite (proj2 (Z.ltb_ge 100000 f)) in Hb by lia.
  - rewrite (proj2 (Z.ltb_ge 100 f)) in Hb by lia. change (div_val TIMER_CLKDIV_256) with 256 in Hb. nia.
  - rewrite (proj2 (Z.ltb_lt 100 f)) in Hb by lia. change (div_val TIMER_CLKDIV_16) with 16 in Hb. nia.
Qed.

(** C14: a PWM that is set up with up to eight pins out of 0 to 15, a duty of [d] out of
    65535 that is neither 0 nor 65535 (those are constant levels, set without
    interrupts) and a frequency [f] of 5 to 65535 Hz plays it: the timer runs with the
    divider for [f] in its control register and the period [M] of counts that comes
    closest to [f] from above; after every number [n] of interrupts the pins drive high
    when [n] is even and low when it is odd, the timer is loaded with [d * M / 65535]
    counts for the one and the rest of [M] for the other, the divider is still
    selected, and the next interrupt is enabled. *)
Theorem pwm_waveform args d f s : call_isr frc1_isr = frc1_interrupt_handler ->
  (length args <= 8)%nat -> length (pins (info s)) = 8%nat -> Forall (fun p => 0 <= p < 16) args ->
  0 < d < 65535 -> 5 <= f < 65536 ->
  exists s1 M,
    (pwm_init (Z.of_nat (length args)) args;; pwm_set_duty d;; pwm_set_freq f;; pwm_start) s = Some ((), s1) /\
    f * (div_val (timer_freq_to_div f) * M) <= 80000000 < f * (div_val (timer_freq_to_div f) * (M + 1)) /\
    50 <= M /\
    forall n, exists s', interrupts n s1 = Some ((), s') /\
      playing (timer_freq_to_div f) (d * M / 65535) (M - d * M / 65535) args (Nat.even n) s'.
Proof.
  intros Hcall Hn Hlen Hargs Hd Hf.
  destruct (init_prepares args s Hn Hlen Hargs) as (s1 & E1 & Hp1 & Hr1).
  destruct (set_duty_idle args d s1 Hp1 Hr1 Hd) as (s2 & E2 & Hp2 & Hr2 & Ed2).
  destruct (set_freq_idle args f s2 Hp2 Hr2 Hf) as (s3 & M & E3 & Hp3 & EM & Ed3 & Ediv & HM & Hb).
  rewrite Ed2 in Ed3.
  destruct (start_plays args s3 Hp3) as (s4 & E4 & Hp4); [rewrite Ed3; lia|rewrite EM; lia|rewrite Ed3, EM; nia|].
  rewrite Ed3, EM, Ediv in Hp4. exists s4, M. split.
  { by rewrite (bind_run _ _ _ _ _ E1), (bind_run _ _ _ _ _ E2), (bind_run _ _ _ _ _ E3). }
  split; [exact Hb|]. split; [lia|]. intros n. destruct (interrupts_play _ _ _ _ n true s4 Hcall Hp4) as (s' & E' & Hp').
  exists s'. split; [exact E'|]. by destruct (Nat.even n).
Qed.
End pwm.

(** ** Witnesses *)

#[export] Instance demo_isr : PwmIsr unit := ().
#[export] Instance demo_handlers : Handlers unit (pwm_world unit) := {|
  gpio_isr := ();
  call_isr := fun _ => frc1_interrupt_handler;
  gpioxx_interrupt_handler := fun _ => mret ()
|}.
Definition demo_soc : soc unit (pwm_world unit) :=
  Soc reset_gpio (fun _ => {| LOAD := 0; COUNT := 0; CTRL := 0; ALARM := 0 |}) 0 0 0 (fun _ => None) false
    (PwmWorld {| running := 0; freq := 0; dutyCicle := 0; _maxLoad := 0; _onLoad := 0; _offLoad := 0;
                 _step := PERIOD_ON; usedPins := 0; pins := [0; 0; 0; 0; 0; 0; 0; 0] |} [] ()).

(** A quarter at 1 kHz: 1249 counts of 200 ns on, 3751 off. *)
Lemma pwm_waveform_witness :
  exists s1, (pwm_init 2 [12; 13];; pwm_set_duty 16383;; pwm_set_freq 1000;; pwm_start) demo_soc = Some ((), s1) /\
    exists s', interrupts 3 s1 = Some ((), s') /\ LOAD (TIMER FRC1 s') = 3751 /\ divider s' = TIMER_CLKDIV_16 /\
      drives (gpio s') 12 = Some false /\ drives (gpio s') 13 = Some false.
Proof.
  destruct (pwm_waveform [12; 13] 16383 1000 demo_soc) as (s1 & M & E1 & Hb & _ & Hn).
  - reflexivity.
  - simpl; lia.
  - reflexivity.
  - repeat constructor; lia.
  - lia.
  - lia.
  - change (div_val (timer_freq_to_div 1000)) with 16 in Hb. assert (M = 5000) as -> by lia.
    exists s1. split; [exact E1|]. destruct (Hn 3%nat) as (s' & E' & _ & Hl & _ & _ & _ & _ & HL & _ & _ & _ & _ & Hdiv).
    exists s'. split; [exact E'|]. split; [rewrite HL; reflexivity|]. split; [exact Hdiv|].
    split; [exact (proj2 (proj2 (Forall_inv Hl)))|exact (proj2 (proj2 (Forall_inv (Forall_inv_tail Hl))))].
Defined.

(** Below 5 Hz the product of the duty and the period wraps: at 1 Hz a half becomes 8 percent. *)
Example pwm_half_at_1_Hz :
  match (pwm_init 1 [12];; pwm_set_duty 32768;; pwm_set_freq 1;; pwm_start) demo_soc with
  | Some (_, s) => (_onLoad (info s), _maxLoad (info s)) = (25178, 312500)
  | None => False
  end.
Proof. by vm_compute. Qed.
(** A PWM at duty 0 that gets a new frequency drives its pins high again, with a load of 0. *)
Example pwm_frequency_at_duty_0 :
  match (pwm_init 1 [12];; pwm_set_freq 1000;; pwm_set_duty 0;; pwm_set_freq 1000) demo_soc with
  | Some (_, s) => (drives (gpio s) 12, LOAD (TIMER FRC1 s)) = (Some true, 0)
  | None => False
  end.
Proof. by vm_compute. Qed.
