(* ===== verification/I2c.v ===== *)
(** * The I2C master (extras/i2c/i2c.c)

    A bit-banged master on two open-drain pins: a pin is released by making it an
    input and pulled low by making it an output whose latch is 0.  The state is the
    environment of the pins (class [Pin] of [Gpio]), the static variables of the
    file and the messages printed.  Buffers are lists; the code relies on the caller
    for their length.

    [I2cBus] has the wires, the devices on them and what the functions do there. *)

From Stdlib Require Import String.
From S2P Require Import Prelude Gpio.
Local Open Scope Z_scope.

Record driver (E : Type) := Driver {
  env : E;
  started : bool;
  g_scl_pin : Z;
  g_sda_pin : Z;
  messages : list string
}.
Arguments Driver {E}.
Arguments env {E}.
Arguments started {E}.
Arguments g_scl_pin {E}.
Arguments g_sda_pin {E}.
Arguments messages {E}.

Definition CLK_HALF_PERIOD_US : Z := 1.
Definition CLK_STRETCH : nat := 10.

Section i2c.
Context {E : Type} `{!Pin E}.

Definition set_env (e : E) (d : driver E) : driver E :=
  Driver e (started d) (g_scl_pin d) (g_sda_pin d) (messages d).
Definition set_started (b : bool) (d : driver E) : driver E :=
  Driver (env d) b (g_scl_pin d) (g_sda_pin d) (messages d).
Definition set_pins (scl_pin sda_pin : Z) (d : driver E) : driver E :=
  Driver (env d) (started d) scl_pin sda_pin (messages d).

Definition on_env {A} (m : ST E A) : ST (driver E) A := fun d =>
  match m (env d) with
  | Some (x, e) => Some (x, set_env e d)
  | None => None
  end.
Definition printf (s : string) : ST (driver E) unit := fun d =>
  Some ((), Driver (env d) (started d) (g_scl_pin d) (g_sda_pin d) (messages d ++ [s])).

Definition i2c_init (scl_pin sda_pin : Z) : ST (driver E) unit :=
  st_modify (set_started false);;
  st_modify (set_pins scl_pin sda_pin);;
  on_env (gpio_set_pullup scl_pin true true);;
  on_env (gpio_set_pullup sda_pin true true);;
  on_env (gpio_enable scl_pin GPIO_INPUT);;
  on_env (gpio_enable scl_pin GPIO_INPUT);;
  on_env (gpio_write scl_pin false);;
  on_env (gpio_write sda_pin false).

Definition i2c_delay : ST (driver E) unit := on_env (sdk_os_delay_us CLK_HALF_PERIOD_US).

Definition read_scl : ST (driver E) bool :=
  d ← st_get;
  on_env (gpio_enable (g_scl_pin d) GPIO_INPUT);;
  on_env (gpio_read (g_scl_pin d)).
Definition read_sda : ST (driver E) bool :=
  d ← st_get;
  on_env (gpio_enable (g_sda_pin d) GPIO_INPUT);;
  i2c_delay;;
  on_env (gpio_read (g_sda_pin d)).
Definition clear_scl : ST (driver E) unit :=
  d ← st_get;
  on_env (gpio_enable (g_scl_pin d) GPIO_OUT_OPEN_DRAIN).
Definition clear_sda : ST (driver E) unit :=
  d ← st_get;
  on_env (gpio_enable (g_sda_pin d) GPIO_OUT_OPEN_DRAIN).

(** [while (read_scl() == 0 && clk_stretch--) ;] *)
Fixpoint stretch_loop (clk_stretch : nat) : ST (driver E) unit :=
  high ← read_scl;
  if (high : bool) then mret ()
  else
    match clk_stretch with
    | O => mret ()
    | S n => stretch_loop n
    end.

Definition i2c_start : ST (driver E) unit :=
  d ← st_get;
  (if started d then
     read_sda;;
     i2c_delay;;
     stretch_loop CLK_STRETCH;;
     i2c_delay
   else mret ());;
  high ← read_sda;
  (if negb high then printf "I2C: arbitration lost in i2c_start" else mret ());;
  clear_sda;;
  i2c_delay;;
  clear_scl;;
  st_modify (set_started true).

Definition i2c_stop : ST (driver E) unit :=
  clear_sda;;
  i2c_delay;;
  stretch_loop CLK_STRETCH;;
  i2c_delay;;
  high ← read_sda;
  (if negb high then printf "I2C: arbitration lost in i2c_stop" else mret ());;
  i2c_delay;;
  st_modify (set_started false).

Definition i2c_write_bit (bit : bool) : ST (driver E) unit :=
  (if bit then read_sda;; mret () else clear_sda);;
  i2c_delay;;
  stretch_loop CLK_STRETCH;;
  (if bit then
     high ← read_sda;
     if negb high then printf "I2C: arbitration lost in i2c_write_bit" else mret ()
   else mret ());;
  i2c_delay;;
  clear_scl.

Definition i2c_read_bit : ST (driver E) bool :=
  read_sda;;
  i2c_delay;;
  stretch_loop CLK_STRETCH;;
  bit ← read_sda;
  i2c_delay;;
  clear_scl;;
  mret bit.

Fixpoint write_bits (n : nat) (byte : Z) : ST (driver E) unit :=
  match n with
  | O => mret ()
  | S n => i2c_write_bit (negb (Z.land byte 0x80 =? 0));; write_bits n (u8 (Z.shiftl byte 1))
  end.
Definition i2c_write (byte : Z) : ST (driver E) bool :=
  write_bits 8 byte;;
  nack ← i2c_read_bit;
  mret (negb nack).

Fixpoint read_bits (n : nat) (byte : Z) : ST (driver E) Z :=
  match n with
  | O => mret byte
  | S n => bit ← i2c_read_bit; read_bits n (u8 (Z.lor (Z.shiftl byte 1) (Z.b2z bit)))
  end.
Definition i2c_read (ack : bool) : ST (driver E) Z :=
  byte ← read_bits 8 0;
  i2c_write_bit ack;;
  mret byte.

(** [while (len--) { if (!i2c_write( *data++)) break; }] *)
Fixpoint write_loop (data : list Z) : ST (driver E) unit :=
  match data with
  | [] => mret ()
  | byte :: data =>
      ok ← i2c_write byte;
      if negb ok then mret () else write_loop data
  end.

Definition i2c_slave_write (slave_addr : Z) (data : list Z) (len : Z) : ST (driver E) bool :=
  i2c_start;;
  ok ← i2c_write (u8 (Z.shiftl slave_addr 1));
  if negb ok then mret false
  else
    write_loop (take (Z.to_nat len) data);;
    i2c_stop;;
    mret true.

Definition i2c_slave_word_write (slave_addr regID : Z) (data : list Z) (len : Z) : ST (driver E) bool :=
  i2c_start;;
  ok ← i2c_write (u8 (Z.land (Z.shiftl slave_addr 1) 0xfe));
  if negb ok then mret false
  else
    i2c_write (u8 (Z.shiftr regID 8));;
    i2c_write (Z.land regID 0xff);;
    write_loop (take (Z.to_nat len) data);;
    i2c_stop;;
    mret true.

(** [while (len) { *buf = i2c_read(len == 1); buf++; len--; }]: the bytes stored. *)
Fixpoint read_loop (len : nat) : ST (driver E) (list Z) :=
  match len with
  | O => mret []
  | S n =>
      byte ← i2c_read (n =? 0)%nat;
      bytes ← read_loop n;
      mret (byte :: bytes)
  end.

(** The end of the read functions: the success, and the bytes stored in the buffer. *)
Definition read_end (bytes : option (list Z)) : ST (driver E) (bool * list Z) :=
  i2c_stop;;
  match bytes with
  | Some l => mret (true, l)
  | None => printf "I2C: write error";; mret (false, [])
  end.

Definition i2c_slave_read (slave_addr data : Z) (len : Z) : ST (driver E) (bool * list Z) :=
  i2c_start;;
  ok ← i2c_write (u8 (Z.shiftl slave_addr 1));
  if negb ok then read_end None
  else
    i2c_write data;;
    i2c_stop;;
    i2c_start;;
    ok ← i2c_write (u8 (Z.lor (Z.shiftl slave_addr 1) 1));
    if negb ok then read_end None
    else
      bytes ← read_loop (Z.to_nat len);
      read_end (Some bytes).

Definition i2c_slave_word_read (slave_addr data : Z) (len : Z) : ST (driver E) (bool * list Z) :=
  i2c_start;;
  ok ← i2c_write (u8 (Z.shiftl slave_addr 1));
  if negb ok then read_end None
  else
    i2c_write (u8 (Z.shiftr data 8));;
    i2c_write (Z.land data 0xff);;
    i2c_stop;;
    i2c_start;;
    ok ← i2c_write (u8 (Z.lor (Z.shiftl slave_addr 1) 1));
    if negb ok then read_end None
    else
      bytes ← read_loop (Z.to_nat len);
      read_end (Some bytes).
End i2c.
