(* ===== verification/I2cBus.v ===== *)
(** * The wires of an I2C bus

    A bus is two open-drain wires with pull-ups, the master's two pins and the
    devices ([I2cSlave]: what they put on SDA, how many readings they hold SCL low
    for, and how they react to edges and to start and stop conditions).  [I2cBus]
    gives the laws of an environment of pins that is wired to such a bus.  On it,
    the functions of the master are operations on the devices: [send] and [recv] of
    a byte between [sl_start] and [sl_stop]. *)

From Stdlib Require Import String.
From S2P Require Import Prelude Gpio I2c.
Local Open Scope Z_scope.

(** ** Devices and wires *)

(** [sl_out]: whether SDA is released; [sl_hold]: the readings of a pin, after the
    master has released SCL, for which the device stretches the clock. *)
Class I2cSlave (S : Type) := {
  sl_out : S -> bool;
  sl_hold : S -> nat;
  sl_rise : S -> bool -> S;
  sl_fall : S -> S;
  sl_start : S -> S;
  sl_stop : S -> S
}.

(** SDA changes only while SCL is low, and a clock is stretched for at most ten
    readings. *)
Class I2cSlaveOk (S : Type) `{I2cSlave S} := {
  law_out s b : sl_out (sl_rise s b) = sl_out s;
  law_hold s : (sl_hold s <= CLK_STRETCH)%nat
}.

(** Whether the master releases SCL and SDA, the readings for which SCL stays low,
    and the devices. *)
Record lines (S : Type) := Lines {
  scl_free : bool;
  sda_free : bool;
  held : nat;
  slave : S
}.
Arguments Lines {S}.
Arguments scl_free {S}.
Arguments sda_free {S}.
Arguments held {S}.
Arguments slave {S}.

Section lines.
Context {S : Type} `{I2cSlave S}.

Definition sda_level (l : lines S) : bool := sda_free l && sl_out (slave l).
Definition scl_level (l : lines S) : bool := scl_free l && (held l =? 0)%nat.

(** SCL is released and nobody holds it: the devices see a rising edge. *)
Definition rising (l : lines S) : lines S :=
  Lines true (sda_free l) 0 (sl_rise (slave l) (sda_level l)).
Definition set_scl (free : bool) (l : lines S) : lines S :=
  match scl_free l, free with
  | false, true => if (held l =? 0)%nat then rising l else Lines true (sda_free l) (held l) (slave l)
  | true, false =>
      if (held l =? 0)%nat then
        let s := sl_fall (slave l) in Lines false (sda_free l) (sl_hold s) s
      else Lines false (sda_free l) (held l) (slave l)
  | _, _ => l
  end.
(** A change of SDA while SCL is high is a start or a stop condition. *)
Definition set_sda (free : bool) (l : lines S) : lines S :=
  let new := free && sl_out (slave l) in
  Lines (scl_free l) free (held l)
    (if scl_level l then
       match sda_level l, new with
       | true, false => sl_start (slave l)
       | false, true => sl_stop (slave l)
       | _, _ => slave l
       end
     else slave l).
(** Time passes with a reading of a pin. *)
Definition after_reading (l : lines S) : lines S :=
  if scl_free l then
    match held l with
    | O => l
    | 1%nat => rising l
    | Datatypes.S n => Lines true (sda_free l) n (slave l)
    end
  else l.
End lines.

(** Pins wired to the bus.  [latched e p]: the output latch of the pin is 0;
    [is_input e p]: the pin is an input, so that its latch is not on the wire. *)
Class I2cBus (E S : Type) `{!Pin E} `{I2cSlave S} (scl sda : Z) := {
  lines_of : E -> lines S;
  latched : E -> Z -> Prop;
  is_input : E -> Z -> Prop;
  law_enable_in_scl e : exists e', gpio_enable scl GPIO_INPUT e = Some ((), e') /\
    lines_of e' = set_scl true (lines_of e) /\ (forall p, latched e p -> latched e' p) /\
    is_input e' scl /\ (is_input e sda -> is_input e' sda);
  law_enable_in_sda e : exists e', gpio_enable sda GPIO_INPUT e = Some ((), e') /\
    lines_of e' = set_sda true (lines_of e) /\ forall p, latched e p -> latched e' p;
  law_enable_out_scl e : latched e scl -> exists e', gpio_enable scl GPIO_OUT_OPEN_DRAIN e = Some ((), e') /\
    lines_of e' = set_scl false (lines_of e) /\ forall p, latched e p -> latched e' p;
  law_enable_out_sda e : latched e sda -> exists e', gpio_enable sda GPIO_OUT_OPEN_DRAIN e = Some ((), e') /\
    lines_of e' = set_sda false (lines_of e) /\ forall p, latched e p -> latched e' p;
  law_read_scl e : exists e', gpio_read scl e = Some (scl_level (lines_of e), e') /\
    lines_of e' = after_reading (lines_of e) /\ forall p, latched e p -> latched e' p;
  law_read_sda e : exists e', gpio_read sda e = Some (sda_level (lines_of e), e') /\
    lines_of e' = after_reading (lines_of e) /\ forall p, latched e p -> latched e' p;
  law_write e p : p = scl \/ p = sda -> is_input e p ->
    exists e', gpio_write p false e = Some ((), e') /\
    lines_of e' = lines_of e /\ latched e' p /\ (forall q, latched e q -> latched e' q) /\
    forall q, is_input e q -> is_input e' q;
  law_pullup e p b1 b2 : p = scl \/ p = sda -> exists e', gpio_set_pullup p b1 b2 e = Some ((), e') /\
    lines_of e' = lines_of e /\ forall q, is_input e q -> is_input e' q;
  law_delay e us : exists e', sdk_os_delay_us us e = Some ((), e') /\
    lines_of e' = lines_of e /\ forall p, latched e p -> latched e' p
}.

(** ** The devices seen byte by byte *)

Section devices.
Context {S : Type} `{I2cSlave S}.

(** One clock with [b] on SDA. *)
Definition clock (s : S) (b : bool) : S := sl_fall (sl_rise s b).
(** The master puts [b] on SDA, which the device may pull low. *)
Definition put_bit (s : S) (b : bool) : S := clock s (b && sl_out s).
Definition get_bit (s : S) : bool * S := (sl_out s, clock s (sl_out s)).

(** The bits of a byte, the most significant one first. *)
Definition bits_of (byte : Z) : list bool :=
  map (fun i => Z.testbit byte (Z.of_nat i)) [7; 6; 5; 4; 3; 2; 1; 0]%nat.
Definition value_of (bits : list bool) : Z := fold_left (fun v b => 2 * v + Z.b2z b) bits 0.

(** The acknowledgement and the devices after a byte was sent. *)
Definition send (byte : Z) (s : S) : bool * S :=
  let '(nack, s) := get_bit (fold_left put_bit (bits_of byte) s) in (negb nack, s).

Fixpoint get_bits (n : nat) (s : S) : list bool * S :=
  match n with
  | O => ([], s)
  | Datatypes.S n =>
      let '(b, s) := get_bit s in let '(l, s) := get_bits n s in (b :: l, s)
  end.
(** A byte that is received and answered with the bit [nack]. *)
Definition recv (nack : bool) (s : S) : Z * S :=
  let '(l, s) := get_bits 8 s in (value_of l, put_bit s nack).
End devices.

(** ** Runs of the master *)

Section runs.
Context {E S : Type} `{!Pin E} `{I2cSlaveOk S} (scl sda : Z) `{!I2cBus E S scl sda}.

(** The driver on the bus: the wires, and whether a transfer is open. *)
Definition bus_is (p : lines S * bool) (d : driver E) : Prop :=
  g_scl_pin d = scl /\ g_sda_pin d = sda /\
  latched (scl:=scl) (sda:=sda) (env d) scl /\ latched (scl:=scl) (sda:=sda) (env d) sda /\
  lines_of (scl:=scl) (sda:=sda) (env d) = p.1 /\ started d = p.2.

(** [m] leads from [p] to [q] and returns [x]. *)
Definition runs {A} (m : ST (driver E) A) (p q : lines S * bool) (x : A) : Prop :=
  forall d, bus_is p d -> exists d', m d = Some (x, d') /\ bus_is q d'.

Lemma runs_ret {A} (x : A) p : runs (mret x) p p x.
Proof. intros d Hd. by exists d. Qed.
Lemma runs_bind {A B} (m : ST (driver E) A) (f : A -> ST (driver E) B) p q r x y :
  runs m p q x -> runs (f x) q r y -> runs (m ≫= f) p r y.
Proof.
  intros Hm Hf d Hd. destruct (Hm d Hd) as (d1 & E1 & Hd1). destruct (Hf d1 Hd1) as (d2 & E2 & Hd2).
  exists d2. by rewrite (bind_run _ _ _ _ _ E1).
Qed.
Lemma runs_get {A} (f : driver E -> ST (driver E) A) p q x :
  (forall d, bus_is p d -> runs (f d) p q x) -> runs (st_get ≫= f) p q x.
Proof. intros Hf d Hd. destruct (Hf d Hd d Hd) as (d' & E' & Hd'). by exists d'. Qed.
Lemma runs_env {A} (m : ST E A) p l (x : A) :
  (forall e, latched (scl:=scl) (sda:=sda) e scl -> latched (scl:=scl) (sda:=sda) e sda ->
     lines_of (scl:=scl) (sda:=sda) e = p.1 ->
     exists e', m e = Some (x, e') /\ lines_of (scl:=scl) (sda:=sda) e' = l /\
       forall p, latched (scl:=scl) (sda:=sda) e p -> latched (scl:=scl) (sda:=sda) e' p) ->
  runs (on_env m) p (l, p.2) x.
Proof.
  intros Hm d (E1 & E2 & L1 & L2 & El & Es). destruct (Hm (env d) L1 L2 El) as (e' & E' & El' & Hl).
  exists (set_env e' d). unfold on_env. rewrite E'. split; [done|]. by split_and!; auto.
Qed.
Lemma runs_started b p : runs (st_modify (set_started b)) p (p.1, b) ().
Proof. intros d (? & ? & ? & ? & ? & ?). eexists. split; [reflexivity|]. by split_and!. Qed.
Lemma runs_printf s p : runs (printf s) p p ().
Proof. intros d (? & ? & ? & ? & ? & ?). eexists. split; [reflexivity|]. by split_and!. Qed.
Lemma runs_warn (b : bool) s p : runs (if b then printf s else mret ()) p p ().
Proof. destruct b; [apply runs_printf|apply runs_ret]. Qed.

Lemma runs_delay p : runs i2c_delay p p ().
Proof.
  destruct p as [l b]. apply (runs_env _ (l, b)). intros e _ _ El.
  destruct (law_delay (scl:=scl) (sda:=sda) e CLK_HALF_PERIOD_US) as (e' & E' & El' & Hl).
  exists e'. by rewrite El', El.
Qed.

Lemma runs_read_scl l b :
  runs read_scl (l, b) (after_reading (set_scl true l), b) (scl_level (set_scl true l)).
Proof.
  apply runs_get. intros d (Es & _). rewrite Es. eapply runs_bind.
  - apply (runs_env _ (l, b)). intros e _ _ El.
    destruct (law_enable_in_scl (scl:=scl) (sda:=sda) e) as (e' & E' & El' & Hl & _). exists e'. by rewrite El', El.
  - apply (runs_env _ (set_scl true l, b)). intros e _ _ El.
    destruct (law_read_scl (scl:=scl) (sda:=sda) e) as (e' & E' & El' & Hl). exists e'. by rewrite E', El', El.
Qed.
Lemma runs_read_sda l b :
  runs read_sda (l, b) (after_reading (set_sda true l), b) (sda_level (set_sda true l)).
Proof.
  apply runs_get. intros d (_ & Es & _). rewrite Es. eapply runs_bind; [|eapply runs_bind; [apply runs_delay|]].
  - apply (runs_env _ (l, b)). intros e _ _ El.
    destruct (law_enable_in_sda (scl:=scl) (sda:=sda) e) as (e' & E' & El' & Hl). exists e'. by rewrite El', El.
  - apply (runs_env _ (set_sda true l, b)). intros e _ _ El.
    destruct (law_read_sda (scl:=scl) (sda:=sda) e) as (e' & E' & El' & Hl). exists e'. by rewrite E', El', El.
Qed.
Lemma runs_clear_scl l b : runs clear_scl (l, b) (set_scl false l, b) ().
Proof.
  apply runs_get. intros d (Es & _). rewrite Es. apply (runs_env _ (l, b)). intros e L _ El.
  destruct (law_enable_out_scl (scl:=scl) (sda:=sda) e L) as (e' & E' & El' & Hl). exists e'. by rewrite El', El.
Qed.
Lemma runs_clear_sda l b : runs clear_sda (l, b) (set_sda false l, b) ().
Proof.
  apply runs_get. intros d (_ & Es & _). rewrite Es. apply (runs_env _ (l, b)). intros e _ L El.
  destruct (law_enable_out_sda (scl:=scl) (sda:=sda) e L) as (e' & E' & El' & Hl). exists e'. by rewrite El', El.
Qed.

(** Waiting for SCL ends when the devices release it. *)
Lemma runs_stretch_free n l b : scl_free l = true -> (held l <= n)%nat ->
  runs (stretch_loop n) (l, b) (if (held l =? 0)%nat then l else rising l, b) ().
Proof.
  revert l; induction n as [|n IH]; intros [cf sf k s] Hf Hn; simpl in Hf, Hn; subst cf; cbn [stretch_loop].
  - assert (k = 0)%nat as -> by lia. eapply runs_bind; [apply runs_read_scl|apply runs_ret].
  - eapply runs_bind; [apply runs_read_scl|]. destruct k as [|[|k]]; [apply runs_ret| |].
    + apply (IH (rising (Lines true sf 1 s))); [done|simpl; lia].
    + exact (IH (Lines true sf (Datatypes.S k) s) eq_refl ltac:(simpl; lia)).
Qed.
Lemma runs_stretch_low n l b : scl_free l = false -> (held l <= n)%nat ->
  runs (stretch_loop n) (l, b) (rising l, b) ().
Proof.
  destruct l as [cf sf k s]. intros Hf Hn. simpl in Hf, Hn. subst cf.
  destruct n as [|n]; cbn [stretch_loop].
  - assert (k = 0)%nat as -> by lia. eapply runs_bind; [apply runs_read_scl|apply runs_ret].
  - eapply runs_bind; [apply runs_read_scl|]. destruct k as [|[|k]]; [apply runs_ret| |].
    + apply (runs_stretch_free n (rising (Lines true sf 1 s))); [done|simpl; lia].
    + exact (runs_stretch_free n (Lines true sf (Datatypes.S k) s) b eq_refl ltac:(simpl; lia)).
Qed.

(** Between two clocks, and between two transfers. *)
Definition low (x : bool) (s : S) : lines S := Lines false x (sl_hold s) s.
Definition idle (s : S) : lines S := Lines true true 0 s.

Lemma runs_rise x s b : runs (stretch_loop CLK_STRETCH) (low x s, b) (Lines true x 0 (sl_rise s (x && sl_out s)), b) ().
Proof. exact (runs_stretch_low CLK_STRETCH (low x s) b eq_refl (law_hold s)). Qed.

(** Reading SDA while it is released has no effect on the devices. *)
Lemma runs_sense s b : runs read_sda (idle s, b) (idle s, b) (sl_out s).
Proof.
  pose proof (runs_read_sda (idle s) b) as Hr. unfold set_sda, sda_level, idle in *. simpl in *.
  by destruct (sl_out s) eqn:Es; rewrite ?Es in Hr.
Qed.

Lemma runs_write_bit bit x s b : runs (i2c_write_bit bit) (low x s, b) (low bit (put_bit s bit), b) ().
Proof.
  unfold i2c_write_bit. eapply (runs_bind _ _ _ (low bit s, b) _ ()).
  { destruct bit; [eapply runs_bind; [apply runs_read_sda|apply runs_ret]|apply runs_clear_sda]. }
  eapply runs_bind; [apply runs_delay|]. eapply runs_bind; [apply runs_rise|].
  eapply (runs_bind _ _ _ (Lines true bit 0 (sl_rise s (bit && sl_out s)), b) _ ()).
  { destruct bit; [|apply runs_ret]. eapply runs_bind; [apply runs_sense|apply runs_warn]. }
  eapply runs_bind; [apply runs_delay|apply runs_clear_scl].
Qed.
Lemma runs_read_bit x s b :
  runs i2c_read_bit (low x s, b) (low true (get_bit s).2, b) (get_bit s).1.
Proof.
  unfold i2c_read_bit. eapply runs_bind; [apply runs_read_sda|]. eapply runs_bind; [apply runs_delay|].
  eapply runs_bind; [apply (runs_rise true)|]. eapply runs_bind; [apply runs_sense|].
  eapply runs_bind; [apply runs_delay|]. eapply runs_bind; [apply runs_clear_scl|].
  rewrite law_out. apply runs_ret.
Qed.

(** *** Bytes *)

(** The bits that i2c_write takes from a byte. *)
Fixpoint top_bits (n : nat) (byte : Z) : list bool :=
  match n with
  | O => []
  | Datatypes.S n => negb (Z.land byte 0x80 =? 0) :: top_bits n (u8 (Z.shiftl byte 1))
  end.
Lemma top_bits_of byte : is_byte byte -> top_bits 8 byte = bits_of byte.
Proof.
  intros Hb. eapply bool_decide_eq_true_1.
  exact (byte_check (fun b => bool_decide (top_bits 8 b = bits_of b)) byte eq_refl Hb).
Qed.

Lemma runs_write_bits n byte x s b :
  exists y, runs (write_bits n byte) (low x s, b) (low y (fold_left put_bit (top_bits n byte) s), b) ().
Proof.
  revert byte x s; induction n as [|n IH]; intros byte x s; cbn [write_bits top_bits fold_left].
  - exists x. apply runs_ret.
  - destruct (IH (u8 (Z.shiftl byte 1)) (negb (Z.land byte 0x80 =? 0))
      (put_bit s (negb (Z.land byte 0x80 =? 0)))) as [y Hy].
    exists y. eapply runs_bind; [apply runs_write_bit|exact Hy].
Qed.
Lemma runs_write byte x s b : is_byte byte ->
  runs (i2c_write byte) (low x s, b) (low true (send byte s).2, b) (send byte s).1.
Proof.
  intros Hb. unfold i2c_write, send. destruct (runs_write_bits 8 byte x s b) as [y Hy].
  rewrite (top_bits_of byte Hb) in Hy. eapply runs_bind; [exact Hy|].
  eapply runs_bind; [apply runs_read_bit|apply runs_ret].
Qed.

(** The value of the bits read so far stays a byte. *)
Lemma value_of_snoc l b : value_of (l ++ [b]) = 2 * value_of l + Z.b2z b.
Proof. unfold value_of. by rewrite fold_left_app. Qed.
Lemma value_of_range l : 0 <= value_of l < 2 ^ Z.of_nat (length l).
Proof.
  induction l as [|b l IH] using rev_ind; [done|]. rewrite value_of_snoc, length_app.
  replace (Z.of_nat (length l + length [b])) with (Z.of_nat (length l) + 1) by (simpl; lia).
  rewrite Z.pow_add_r by lia. destruct b; simpl Z.b2z; lia.
Qed.
Lemma shift_in v b : 0 <= v < 128 -> u8 (Z.lor (Z.shiftl v 1) (Z.b2z b)) = 2 * v + Z.b2z b.
Proof.
  intros Hv. assert (Hb : is_byte v) by (unfold is_byte; lia).
  pose proof (byte_check (fun v => (128 <=? v) ||
    ((u8 (Z.lor (Z.shiftl v 1) (Z.b2z b)) =? 2 * v + Z.b2z b))) v ltac:(by destruct b) Hb) as Hc.
  simpl in Hc. zbool. lia.
Qed.

Lemma runs_read_bits n l x s b : (length l + n <= 8)%nat ->
  exists y, runs (read_bits n (value_of l)) (low x s, b) (low y (get_bits n s).2, b)
    (value_of (l ++ (get_bits n s).1)).
Proof.
  revert l x s; induction n as [|n IH]; intros l x s Hn; cbn [read_bits get_bits].
  - exists x. rewrite app_nil_r. apply runs_ret.
  - destruct (get_bit s) as [c s1] eqn:Ec. destruct (IH (l ++ [c]) true s1) as [y Hy].
    { rewrite length_app. simpl. lia. }
    destruct (get_bits n s1) as [k s2]. exists y. cbn [fst snd] in *. rewrite <- app_assoc in Hy.
    eapply runs_bind; [apply runs_read_bit|]. rewrite Ec. cbn [fst snd]. rewrite shift_in, <- value_of_snoc; [exact Hy|].
    pose proof (value_of_range l) as Hr. assert (2 ^ Z.of_nat (length l) <= 2 ^ 7); [|lia].
    apply Z.pow_le_mono_r; lia.
Qed.
Lemma runs_read nack x s b :
  runs (i2c_read nack) (low x s, b) (low nack (recv nack s).2, b) (recv nack s).1.
Proof.
  unfold i2c_read, recv. destruct (runs_read_bits 8 [] x s b) as [y Hy]; [done|].
  destruct (get_bits 8 s) as [l s1]. cbn [fst snd] in *.
  eapply runs_bind; [exact Hy|]. eapply runs_bind; [apply runs_write_bit|apply runs_ret].
Qed.

(** *** Start and stop *)

(** The devices after a start condition, with SCL low again, and after a stop. *)
Definition begin (s : S) : S := sl_fall (sl_start s).
Definition finish (s : S) : S := sl_stop (sl_rise s false).

Lemma runs_start s : sl_out s = true ->
  runs i2c_start (idle s, false) (low false (begin s), true) ().
Proof.
  intros Hs. unfold i2c_start. apply runs_get. intros d (_ & _ & _ & _ & _ & Ed). simpl in Ed. rewrite Ed.
  eapply runs_bind; [apply runs_ret|]. eapply runs_bind; [apply runs_sense|].
  eapply runs_bind; [apply runs_warn|]. eapply runs_bind; [apply runs_clear_sda|].
  unfold set_sda, sda_level, idle. simpl. rewrite Hs. eapply runs_bind; [apply runs_delay|].
  eapply runs_bind; [apply runs_clear_scl|]. apply (runs_started true (low false (begin s), false)).
Qed.

(** A start while a transfer is open: the clock goes high first. *)
Lemma runs_restart x s : sl_out s = true ->
  runs i2c_start (low x s, true) (low false (begin (sl_rise s true)), true) ().
Proof.
  intros Hs. unfold i2c_start. apply runs_get. intros d (_ & _ & _ & _ & _ & Ed). simpl in Ed. rewrite Ed.
  eapply (runs_bind _ _ _ (idle (sl_rise s true), true) _ ()).
  { replace (idle (sl_rise s true)) with (Lines true true 0 (sl_rise s (true && sl_out s))) by (by rewrite Hs).
    eapply runs_bind; [apply runs_read_sda|]. eapply runs_bind; [apply runs_delay|].
    eapply runs_bind; [apply (runs_rise true)|apply runs_delay]. }
  assert (Ho : sl_out (sl_rise s true) = true) by (by rewrite law_out).
  eapply runs_bind; [apply runs_sense|].
  eapply runs_bind; [apply runs_warn|]. eapply runs_bind; [apply runs_clear_sda|].
  unfold set_sda, sda_level, idle. simpl. rewrite Ho. eapply runs_bind; [apply runs_delay|].
  eapply runs_bind; [apply runs_clear_scl|]. apply (runs_started true (low false (begin (sl_rise s true)), true)).
Qed.

Lemma runs_stop x s b : sl_out s = true ->
  runs i2c_stop (low x s, b) (idle (finish s), false) ().
Proof.
  intros Hs. unfold i2c_stop. eapply runs_bind; [apply runs_clear_sda|].
  eapply runs_bind; [apply runs_delay|]. eapply runs_bind; [apply (runs_rise false)|].
  eapply runs_bind; [apply runs_delay|]. eapply runs_bind; [apply runs_read_sda|].
  assert (Ho : sl_out (sl_rise s false) = true) by (by rewrite law_out).
  unfold set_sda, sda_level. simpl. rewrite Ho.
  eapply runs_bind; [apply runs_warn|]. eapply runs_bind; [apply runs_delay|].
  apply (runs_started false (idle (finish s), b)).
Qed.


(** *** Initialisation

    i2c_init makes SCL an input, twice, and leaves SDA as it was: the bus is ready
    if SDA was an input before. *)
Lemma init_ready d s : is_input (scl:=scl) (sda:=sda) (env d) sda ->
  lines_of (scl:=scl) (sda:=sda) (env d) = idle s ->
  exists d', i2c_init scl sda d = Some ((), d') /\ bus_is (idle s, false) d'.
Proof.
  destruct d as [e st p1 p2 ms]. cbn [env]. intros Hi Hl. unfold i2c_init.
  rewrite (bind_run _ _ _ () (Driver e false p1 p2 ms)) by done.
  rewrite (bind_run _ _ _ () (Driver e false scl sda ms)) by done. unfold mbind, st_bind, on_env. cbn [env].
  destruct (law_pullup (scl:=scl) (sda:=sda) e scl true true) as (e1 & -> & L1 & I1); [by left|]. cbn [env set_env].
  destruct (law_pullup (scl:=scl) (sda:=sda) e1 sda true true) as (e2 & -> & L2 & I2); [by right|]. cbn [env set_env].
  destruct (law_enable_in_scl (scl:=scl) (sda:=sda) e2) as (e3 & -> & L3 & _ & S3 & I3). cbn [env set_env].
  destruct (law_enable_in_scl (scl:=scl) (sda:=sda) e3) as (e4 & -> & L4 & _ & S4 & I4). cbn [env set_env].
  destruct (law_write (scl:=scl) (sda:=sda) e4 scl) as (e5 & -> & L5 & W5 & _ & I5); [by left|done|]. cbn [env set_env].
  destruct (law_write (scl:=scl) (sda:=sda) e5 sda) as (e6 & -> & L6 & W6 & K6 & _); [by right|by auto 10|].
  eexists. split; [done|]. split_and!; try done; simpl; [by apply K6|].
  rewrite L6, L5, L4, L3, L2, L1, Hl. done.
Qed.
End runs.
