(* ===== verification/I2cRegs.v ===== *)
(** * Register devices on the I2C bus

    [regdev] is a device with a register file and an address pointer, as most I2C
    peripherals are: a write transfer sets the pointer and stores the bytes that
    follow, a read transfer returns the registers from the pointer on.  On a bus
    with such a device, i2c_slave_write and i2c_slave_read are transactions on the
    registers; [RegisterDevice] is that promise as an interface, which the
    drivers of the devices are proved against. *)

From Stdlib Require Import String.
From S2P Require Import Prelude Gpio I2c I2cBus.
Local Open Scope Z_scope.

(** ** The device *)

Inductive phase :=
  | Quiet
  | Addressed (bits : list bool)
  | AckAddress (reading : bool)
  | Receiving (pointer : bool) (bits : list bool)
  | AckByte
  | Sending (bits : list bool)
  | AwaitAck.

(** [rd_sampled]: SDA at the last rising edge, until the falling one. *)
Record regdev := {
  rd_addr : Z;
  rd_regs : list Z;
  rd_ptr : Z;
  rd_stretch : nat;
  rd_phase : phase;
  rd_sampled : option bool
}.

Definition set_phase (p : phase) (d : regdev) : regdev :=
  {| rd_addr := rd_addr d; rd_regs := rd_regs d; rd_ptr := rd_ptr d; rd_stretch := rd_stretch d;
     rd_phase := p; rd_sampled := None |}.
Definition set_file (regs : list Z) (ptr : Z) (d : regdev) : regdev :=
  {| rd_addr := rd_addr d; rd_regs := regs; rd_ptr := ptr; rd_stretch := rd_stretch d;
     rd_phase := rd_phase d; rd_sampled := rd_sampled d |}.

(** The pointer wraps at the end of the registers. *)
Definition next_ptr (regs : list Z) (ptr : Z) : Z := (ptr + 1) mod Z.of_nat (length regs).
Definition reg_at (regs : list Z) (ptr : Z) : Z := default 0 (regs !! Z.to_nat ptr).
Definition store_reg (v : Z) (d : regdev) : regdev :=
  set_file (<[Z.to_nat (rd_ptr d) := v]> (rd_regs d)) (next_ptr (rd_regs d) (rd_ptr d)) d.

(** A clock with [b] on SDA. *)
Definition dev_clock (d : regdev) (b : bool) : regdev :=
  match rd_phase d with
  | Quiet => set_phase Quiet d
  | Addressed bits =>
      if (length bits =? 7)%nat then
        set_phase (if value_of bits =? rd_addr d then AckAddress b else Quiet) d
      else set_phase (Addressed (bits ++ [b])) d
  | AckAddress true => set_phase (Sending (bits_of (reg_at (rd_regs d) (rd_ptr d)))) d
  | AckAddress false => set_phase (Receiving true []) d
  | Receiving pointer bits =>
      if (length bits =? 7)%nat then
        let v := value_of (bits ++ [b]) in
        set_phase AckByte (if pointer then set_file (rd_regs d) (v mod Z.of_nat (length (rd_regs d))) d
                           else store_reg v d)
      else set_phase (Receiving pointer (bits ++ [b])) d
  | AckByte => set_phase (Receiving false []) d
  | Sending bits =>
      match tail bits with
      | [] => set_phase AwaitAck (set_file (rd_regs d) (next_ptr (rd_regs d) (rd_ptr d)) d)
      | bits => set_phase (Sending bits) d
      end
  | AwaitAck =>
      set_phase (if b then Quiet else Sending (bits_of (reg_at (rd_regs d) (rd_ptr d)))) d
  end.

#[export] Instance regdev_slave : I2cSlave regdev := {|
  sl_out := fun d =>
    match rd_phase d with
    | AckAddress _ | AckByte => false
    | Sending (b :: _) => b
    | _ => true
    end;
  sl_hold := fun d => Nat.min (rd_stretch d) CLK_STRETCH;
  sl_rise := fun d b =>
    {| rd_addr := rd_addr d; rd_regs := rd_regs d; rd_ptr := rd_ptr d; rd_stretch := rd_stretch d;
       rd_phase := rd_phase d; rd_sampled := Some b |};
  sl_fall := fun d => match rd_sampled d with Some b => dev_clock d b | None => d end;
  sl_start := set_phase (Addressed []);
  sl_stop := set_phase Quiet
|}.
#[export] Instance regdev_slave_ok : I2cSlaveOk regdev.
Proof. split; [done|]. intros d. simpl. lia. Qed.

(** ** Bytes to and from the device *)

Definition at_phase (p : phase) (d : regdev) : Prop := rd_phase d = p /\ rd_sampled d = None.

Lemma dev_clocked d b : clock d b =
  dev_clock {| rd_addr := rd_addr d; rd_regs := rd_regs d; rd_ptr := rd_ptr d; rd_stretch := rd_stretch d;
     rd_phase := rd_phase d; rd_sampled := Some b |} b.
Proof. done. Qed.

Lemma set_phase_twice p q d : set_phase p (set_phase q d) = set_phase p d.
Proof. done. Qed.

(** Bits shift into the device while it releases SDA. *)
Lemma put_shift (mk : list bool -> phase) bits d b :
  mk = Addressed \/ (exists pointer, mk = Receiving pointer) -> (length bits < 7)%nat ->
  put_bit (set_phase (mk bits) d) b = set_phase (mk (bits ++ [b])) d.
Proof.
  intros Hmk Hl. unfold put_bit. rewrite dev_clocked. unfold dev_clock.
  destruct Hmk as [->|[pointer ->]]; simpl; rewrite andb_true_r;
    (destruct (Nat.eqb_spec (length bits) 7); [lia|done]).
Qed.
Lemma put_shifts (mk : list bool -> phase) l bits d :
  mk = Addressed \/ (exists pointer, mk = Receiving pointer) -> (length bits + length l <= 7)%nat ->
  fold_left put_bit l (set_phase (mk bits) d) = set_phase (mk (bits ++ l)) d.
Proof.
  intros Hmk. revert bits; induction l as [|b l IH]; intros bits Hl; cbn [fold_left]; [by rewrite app_nil_r|].
  simpl in Hl. rewrite put_shift, IH by (done || rewrite ?length_app; simpl; lia). by rewrite <- app_assoc.
Qed.

Lemma bits_split byte : exists l b, bits_of byte = l ++ [b] /\ length l = 7%nat /\ b = Z.testbit byte 0.
Proof. unfold bits_of. simpl. by eexists [_; _; _; _; _; _; _], _. Qed.

Lemma value_bits byte : is_byte byte -> value_of (bits_of byte) = byte.
Proof.
  intros Hb. apply Z.eqb_eq.
  exact (byte_check (fun b => value_of (bits_of b) =? b) byte eq_refl Hb).
Qed.

(** The address byte: the seven bits of the address and the direction. *)
Definition address_byte (addr : Z) (reading : bool) : Z := u8 (Z.lor (Z.shiftl addr 1) (Z.b2z reading)).
Lemma address_bits addr reading : 0 <= addr < 128 ->
  exists l, bits_of (address_byte addr reading) = l ++ [reading] /\ length l = 7%nat /\ value_of l = addr.
Proof.
  intros Ha. exists (take 7 (bits_of (address_byte addr reading))).
  assert (Hb : is_byte addr) by (unfold is_byte; lia).
  pose proof (byte_check (fun a => (128 <=? a) || (bool_decide (bits_of (address_byte a reading) =
      take 7 (bits_of (address_byte a reading)) ++ [reading]) &&
      (value_of (take 7 (bits_of (address_byte a reading))) =? a))) addr
    ltac:(by destruct reading; vm_compute) Hb) as Hc. cbv beta in Hc.
  rewrite (proj2 (Z.leb_gt _ _)) in Hc by lia. cbn [orb] in Hc. apply andb_prop in Hc as [He Hv].
  split; [by apply bool_decide_eq_true in He|]. split; [done|]. by apply Z.eqb_eq.
Qed.

(** The device answers to its address, and only to that. *)
Lemma send_address addr reading d : 0 <= addr < 128 ->
  send (address_byte addr reading) (set_phase (Addressed []) d) =
  if addr =? rd_addr d then
    (true, set_phase (if reading then Sending (bits_of (reg_at (rd_regs d) (rd_ptr d)))
                      else Receiving true []) d)
  else (false, set_phase Quiet d).
Proof.
  intros Ha. destruct (address_bits addr reading Ha) as (l & E & Hl & Ev).
  unfold send. rewrite E, fold_left_app, (put_shifts Addressed) by (simpl; auto; lia).
  cbn [fold_left app]. unfold put_bit. rewrite dev_clocked. unfold dev_clock at 1. simpl.
  rewrite Hl, Ev, andb_true_r. simpl. by destruct (addr =? rd_addr d), reading.
Qed.

Lemma send_byte v pointer d : is_byte v ->
  send v (set_phase (Receiving pointer []) d) =
    (true, set_phase (Receiving false []) (if pointer then set_file (rd_regs d) (v mod Z.of_nat (length (rd_regs d))) d
                                           else store_reg v d)).
Proof.
  intros Hv. destruct (bits_split v) as (l & b & E & Hl & _). pose proof (value_bits v Hv) as Ev. rewrite E in Ev.
  unfold send. rewrite E, fold_left_app, (put_shifts (Receiving pointer)) by (simpl; eauto; lia).
  cbn [fold_left app]. unfold put_bit. rewrite dev_clocked. unfold dev_clock at 1. simpl.
  rewrite Hl, andb_true_r, Ev. simpl. by destruct pointer.
Qed.

(** Whoever does not take part releases SDA. *)
Lemma send_quiet v d : send v (set_phase Quiet d) = (false, set_phase Quiet d).
Proof. done. Qed.

Lemma get_sending bits d : bits <> [] ->
  get_bits (length bits) (set_phase (Sending bits) d) =
    (bits, set_phase AwaitAck (set_file (rd_regs d) (next_ptr (rd_regs d) (rd_ptr d)) d)).
Proof.
  induction bits as [|b bits IH]; intros Hne; [done|]. destruct bits as [|c bits]; [done|].
  specialize (IH ltac:(done)). cbn [length] in IH |- *. remember (S (length bits)) as n eqn:En.
  cbn [get_bits]. change (get_bit _) with (b, set_phase (Sending (c :: bits)) d). cbv beta iota. by rewrite IH.
Qed.

(** A byte is received from the register at the pointer, which moves on. *)
Lemma recv_byte nack d : is_byte (reg_at (rd_regs d) (rd_ptr d)) ->
  let d1 := set_file (rd_regs d) (next_ptr (rd_regs d) (rd_ptr d)) d in
  recv nack (set_phase (Sending (bits_of (reg_at (rd_regs d) (rd_ptr d)))) d) =
    (reg_at (rd_regs d) (rd_ptr d),
     set_phase (if nack then Quiet else Sending (bits_of (reg_at (rd_regs d1) (rd_ptr d1)))) d1).
Proof.
  intros Hb d1. unfold recv. pose proof (get_sending (bits_of (reg_at (rd_regs d) (rd_ptr d))) d ltac:(done)) as Hg.
  change (length (bits_of _)) with 8%nat in Hg. rewrite Hg, value_bits by done. fold d1.
  unfold put_bit. rewrite dev_clocked. unfold dev_clock. simpl. by rewrite andb_true_r; destruct nack.
Qed.

(** ** Transactions *)

(** Bytes stored from the register [r] on, and the registers from [r] on. *)
Fixpoint write_file (regs : list Z) (r : Z) (vs : list Z) : list Z :=
  match vs with
  | [] => regs
  | v :: vs => write_file (<[Z.to_nat r := v]> regs) (next_ptr regs r) vs
  end.
Fixpoint read_file (regs : list Z) (r : Z) (n : nat) : list Z :=
  match n with
  | O => []
  | S n => reg_at regs r :: read_file regs (next_ptr regs r) n
  end.

Definition stored_bytes (vs : list Z) (d : regdev) : regdev := fold_left (fun d v => store_reg v d) vs d.
Fixpoint passed (n : nat) (d : regdev) : regdev :=
  match n with
  | O => d
  | S n => passed n (set_file (rd_regs d) (next_ptr (rd_regs d) (rd_ptr d)) d)
  end.

Lemma length_write_file regs r vs : length (write_file regs r vs) = length regs.
Proof. revert regs r; induction vs as [|v vs IH]; intros regs r; simpl; [done|]. by rewrite IH, length_insert. Qed.
Lemma write_file_bytes regs r vs : Forall is_byte regs -> Forall is_byte vs -> Forall is_byte (write_file regs r vs).
Proof.
  intros Hr Hv. revert regs r Hr; induction Hv as [|v vs Hb _ IH]; intros regs r Hr; simpl; [done|].
  apply IH. by apply Forall_insert.
Qed.
Lemma stored_file vs d : rd_regs (stored_bytes vs d) = write_file (rd_regs d) (rd_ptr d) vs /\
  rd_addr (stored_bytes vs d) = rd_addr d.
Proof. revert d; induction vs as [|v vs IH]; intros d; [done|]. apply (IH (store_reg v d)). Qed.
Lemma passed_file n d : rd_regs (passed n d) = rd_regs d /\ rd_addr (passed n d) = rd_addr d.
Proof. revert d; induction n as [|n IH]; intros d; [done|]. cbn [passed]. by destruct (IH (set_file (rd_regs d) (next_ptr (rd_regs d) (rd_ptr d)) d)) as [-> ->]. Qed.
Lemma reg_at_byte regs r : Forall is_byte regs -> is_byte (reg_at regs r).
Proof.
  intros Hr. unfold reg_at. destruct (regs !! Z.to_nat r) as [b|] eqn:E; simpl; [|by unfold is_byte].
  by eapply Forall_lookup_1.
Qed.

(** Within the file there is no wrapping. *)
Lemma next_ptr_in regs r : 0 <= r -> r + 1 < Z.of_nat (length regs) -> next_ptr regs r = r + 1.
Proof. intros. unfold next_ptr. apply Z.mod_small. lia. Qed.
Lemma write_file_in regs r vs : 0 <= r -> r + Z.of_nat (length vs) <= Z.of_nat (length regs) ->
  write_file regs r vs = take (Z.to_nat r) regs ++ vs ++ drop (Z.to_nat r + length vs) regs.
Proof.
  intros Hr. revert regs r Hr; induction vs as [|v vs IH]; intros regs r Hr Hl; simpl in Hl |- *.
  { by rewrite Nat.add_0_r, take_drop. }
  assert (Hi : <[Z.to_nat r := v]> regs = take (Z.to_nat r) regs ++ v :: drop (S (Z.to_nat r)) regs)
    by (apply insert_take_drop; lia).
  assert (Ht : length (take (Z.to_nat r) regs) = Z.to_nat r) by (rewrite length_take; lia).
  destruct vs as [|v2 vs].
  { cbn [write_file]. rewrite Hi. simpl. by rewrite Nat.add_1_r. }
  simpl in Hl. rewrite (next_ptr_in regs r) by lia. rewrite IH by (rewrite ?length_insert; simpl; lia).
  rewrite Hi, Z2Nat.inj_add by lia. change (Z.to_nat 1) with 1%nat.
  rewrite take_app_ge, drop_app_ge by lia. rewrite Ht.
  replace (Z.to_nat r + 1 - Z.to_nat r)%nat with 1%nat by lia.
  replace (Z.to_nat r + 1 + length (v2 :: vs) - Z.to_nat r)%nat with (S (length (v2 :: vs))) by lia.
  cbn [take drop length]. rewrite take_0, <- app_assoc. cbn [app]. rewrite drop_drop. do 5 f_equal. lia.
Qed.
Lemma read_file_in regs r n : 0 <= r -> r + Z.of_nat n <= Z.of_nat (length regs) ->
  read_file regs r n = take n (drop (Z.to_nat r) regs).
Proof.
  revert r; induction n as [|n IH]; intros r Hr Hl; [done|]. cbn [read_file]. unfold reg_at.
  destruct (lookup_lt_is_Some_2 regs (Z.to_nat r)) as [b Eb]; [lia|].
  rewrite (drop_S _ _ _ Eb), Eb. cbn [default take]. f_equal. destruct n as [|n]; [done|].
  rewrite (next_ptr_in regs r) by lia. rewrite IH by lia. by rewrite Z2Nat.inj_add, Nat.add_1_r by lia.
Qed.

Section transactions.
Context {E : Type} `{!Pin E} (scl sda : Z) `{!I2cBus E regdev scl sda}.
Notation runs := (runs (E:=E) scl sda).

(** The device takes no part: the bus is idle, or the master has left it open. *)
Definition resting (d : regdev) (p : lines regdev * bool) : Prop :=
  p = (idle (set_phase Quiet d), false) \/ exists x, p = (low x (set_phase Quiet d), true).

Lemma runs_begin d p : resting d p ->
  runs i2c_start p (low false (set_phase (Addressed []) d), true) ().
Proof.
  intros [->|[x ->]].
  - exact (runs_start scl sda (set_phase Quiet d) eq_refl).
  - exact (runs_restart scl sda x (set_phase Quiet d) eq_refl).
Qed.
Lemma runs_end x p d b : sl_out (set_phase p d) = true ->
  runs i2c_stop (low x (set_phase p d), b) (idle (set_phase Quiet d), false) ().
Proof. intros Hs. exact (runs_stop scl sda x (set_phase p d) b Hs). Qed.

Lemma runs_call addr (reading : bool) d p : 0 <= addr < 128 -> resting d p -> forall B (f : bool -> ST (driver E) B) q (y : B),
  runs (f (addr =? rd_addr d)) (low true (set_phase
    (if addr =? rd_addr d then if reading then Sending (bits_of (reg_at (rd_regs d) (rd_ptr d))) else Receiving true []
     else Quiet) d), true) q y ->
  runs (i2c_start ;; (i2c_write (address_byte addr reading) ≫= f)) p q y.
Proof.
  intros Ha Hp B f q y Hf. eapply runs_bind; [by apply runs_begin|]. eapply runs_bind.
  - apply runs_write. unfold address_byte, u8, is_byte. apply Z.mod_pos_bound. lia.
  - rewrite send_address by done. by destruct (addr =? rd_addr d).
Qed.

Lemma runs_write_loop vs x d b : Forall is_byte vs ->
  exists y, runs (write_loop vs) (low x (set_phase (Receiving false []) d), b)
    (low y (set_phase (Receiving false []) (stored_bytes vs d)), b) ().
Proof.
  intros Hv. revert x d; induction Hv as [|v vs Hb _ IH]; intros x d; cbn [write_loop].
  { exists x. apply runs_ret. }
  destruct (IH true (store_reg v d)) as [y Hy]. exists y. eapply runs_bind; [by apply runs_write|].
  rewrite send_byte by done. exact Hy.
Qed.

Lemma runs_read_loop n d b : Forall is_byte (rd_regs d) ->
  runs (read_loop (S n)) (low true (set_phase (Sending (bits_of (reg_at (rd_regs d) (rd_ptr d)))) d), b)
    (low true (set_phase Quiet (passed (S n) d)), b) (read_file (rd_regs d) (rd_ptr d) (S n)).
Proof.
  assert (Hgen : forall n x d, Forall is_byte (rd_regs d) ->
    runs (read_loop (S n)) (low x (set_phase (Sending (bits_of (reg_at (rd_regs d) (rd_ptr d)))) d), b)
      (low true (set_phase Quiet (passed (S n) d)), b) (read_file (rd_regs d) (rd_ptr d) (S n))); [|apply Hgen].
  clear n d. induction n as [|n IH]; intros x d Hr; cbn [read_loop]; (eapply runs_bind; [apply runs_read|]);
    rewrite recv_byte by (by apply reg_at_byte); cbn [fst snd Nat.eqb].
  - eapply runs_bind; apply runs_ret.
  - eapply runs_bind; [apply IH; exact Hr|apply runs_ret].
Qed.

(** Writing, reading and calling a device that is not there. *)
Lemma runs_slave_write addr r vs rest d p : 0 <= addr < 128 -> rd_addr d = addr -> is_byte r -> Forall is_byte vs ->
  resting d p ->
  runs (i2c_slave_write addr (r :: vs ++ rest) (1 + Z.of_nat (length vs))) p
    (idle (set_phase Quiet (stored_bytes vs (set_file (rd_regs d) (r mod Z.of_nat (length (rd_regs d))) d))), false) true.
Proof.
  intros Ha Ed Hr Hv Hp. unfold i2c_slave_write.
  replace (u8 (Z.shiftl addr 1)) with (address_byte addr false) by (unfold address_byte; by rewrite Z.lor_0_r).
  eapply runs_call; [done|done|]. rewrite Ed, Z.eqb_refl. cbn [negb].
  replace (Z.to_nat (1 + Z.of_nat (length vs))) with (S (length vs)) by lia. cbn [take]. rewrite take_app_length.
  destruct (runs_write_loop vs true (set_file (rd_regs d) (r mod Z.of_nat (length (rd_regs d))) d) true Hv) as [y Hy].
  eapply runs_bind.
  { cbn [write_loop]. eapply runs_bind; [by apply runs_write|]. rewrite send_byte by done. exact Hy. }
  eapply runs_bind; [by apply runs_end|apply runs_ret].
Qed.

Lemma runs_slave_read addr r n d p : 0 <= addr < 128 -> rd_addr d = addr -> is_byte r -> Forall is_byte (rd_regs d) ->
  resting d p ->
  let d1 := set_file (rd_regs d) (r mod Z.of_nat (length (rd_regs d))) d in
  runs (i2c_slave_read addr r (Z.of_nat (S n))) p (idle (set_phase Quiet (passed (S n) d1)), false)
    (true, read_file (rd_regs d) (r mod Z.of_nat (length (rd_regs d))) (S n)).
Proof.
  intros Ha Ed Hr Hb Hp d1. unfold i2c_slave_read. rewrite Nat2Z.id.
  replace (u8 (Z.shiftl addr 1)) with (address_byte addr false) by (unfold address_byte; by rewrite Z.lor_0_r).
  eapply runs_call; [done|done|]. rewrite Ed, Z.eqb_refl. cbn [negb].
  eapply runs_bind; [by apply runs_write|]. rewrite send_byte by done. cbn [fst snd]. fold d1.
  eapply runs_bind; [by apply runs_end|].
  change (u8 (Z.lor (Z.shiftl addr 1) 1)) with (address_byte addr true).
  apply (runs_call addr true d1); [done|by left|]. change (rd_addr d1) with (rd_addr d). rewrite Ed, Z.eqb_refl.
  cbn [negb]. eapply runs_bind; [apply (runs_read_loop n d1); exact Hb|].
  eapply runs_bind; [by apply runs_end|apply runs_ret].
Qed.

Lemma runs_slave_absent addr data len d p : 0 <= addr < 128 -> rd_addr d <> addr -> resting d p ->
  runs (i2c_slave_write addr data len) p (low true (set_phase Quiet d), true) false /\
  forall r, runs (i2c_slave_read addr r len) p (idle (set_phase Quiet d), false) (false, []).
Proof.
  intros Ha Ed Hp. split.
  - unfold i2c_slave_write.
    replace (u8 (Z.shiftl addr 1)) with (address_byte addr false) by (unfold address_byte; by rewrite Z.lor_0_r).
    eapply runs_call; [done|done|]. rewrite (proj2 (Z.eqb_neq _ _)) by done. apply runs_ret.
  - intros r. unfold i2c_slave_read.
    replace (u8 (Z.shiftl addr 1)) with (address_byte addr false) by (unfold address_byte; by rewrite Z.lor_0_r).
    eapply runs_call; [done|done|]. rewrite (proj2 (Z.eqb_neq _ _)) by done. cbn [negb].
    eapply runs_bind; [by apply runs_end|]. eapply runs_bind; [apply runs_printf|apply runs_ret].
Qed.
End transactions.

(** ** The interface for device drivers *)

(** The transfers that drivers call, and the promise that there is a device of [n]
    registers at [addr]. *)
Class I2c (W : Type) := {
  slave_write : Z -> list Z -> Z -> ST W bool;
  slave_read : Z -> Z -> Z -> ST W (bool * list Z)
}.
Class RegisterDevice (W : Type) `{I2c W} (addr n : Z) := {
  registers : W -> list Z;
  working : W -> Prop;
  law_registers w : working w -> Z.of_nat (length (registers w)) = n /\ Forall is_byte (registers w);
  law_slave_write w r vs rest : working w -> is_byte r -> Forall is_byte vs ->
    exists w', slave_write addr (r :: vs ++ rest) (1 + Z.of_nat (length vs)) w = Some (true, w') /\
      working w' /\ registers w' = write_file (registers w) (r mod n) vs;
  law_slave_read w r len : working w -> is_byte r -> (0 < len)%nat ->
    exists w', slave_read addr r (Z.of_nat len) w = Some ((true, read_file (registers w) (r mod n) len), w') /\
      working w' /\ registers w' = registers w
}.

#[export] Instance driver_i2c {E} `{!Pin E} : I2c (driver E) := {|
  slave_write := i2c_slave_write;
  slave_read := i2c_slave_read
|}.

Section implementation.
Context {E : Type} `{!Pin E} (scl sda : Z) `{!I2cBus E regdev scl sda} (addr n : Z) (Haddr : 0 <= addr < 128).

Definition device_of (d : driver E) : regdev := slave (lines_of (scl:=scl) (sda:=sda) (env d)).
Definition device_works (d : driver E) : Prop :=
  exists dv p, resting dv p /\ bus_is scl sda p d /\ rd_addr dv = addr /\
    Z.of_nat (length (rd_regs dv)) = n /\ Forall is_byte (rd_regs dv).

Lemma device_of_resting dv p d : resting dv p -> bus_is scl sda p d -> device_of d = set_phase Quiet dv.
Proof. unfold device_of. by intros [->|[x ->]] (_ & _ & _ & _ & -> & _). Qed.

(** The master is an implementation of the interface. *)
Program Definition register_device : RegisterDevice (driver E) addr n := {|
  registers := fun d => rd_regs (device_of d);
  working := device_works
|}.
Next Obligation.
  intros d (dv & p & Hp & Hd & _ & Hn & Hb). by rewrite (device_of_resting dv p d).
Qed.
Next Obligation.
  intros d r vs rest (dv & p & Hp & Hd & Ea & Hn & Hb) Hr Hv.
  destruct (runs_slave_write scl sda addr r vs rest dv p Haddr Ea Hr Hv Hp d Hd) as (d' & E' & Hd').
  set (dv1 := stored_bytes _ _) in Hd'. exists d'. split; [exact E'|].
  destruct (stored_file vs (set_file (rd_regs dv) (r mod Z.of_nat (length (rd_regs dv))) dv)) as [Er Eaddr].
  fold dv1 in Er, Eaddr. cbn [rd_regs rd_ptr rd_addr set_file] in Er, Eaddr. rewrite Hn in Er.
  assert (Hrest : resting dv1 (idle (set_phase Quiet dv1), false)) by by left.
  rewrite (device_of_resting dv1 _ d' Hrest Hd'), (device_of_resting dv p d Hp Hd). split; [|exact Er].
  exists dv1, (idle (set_phase Quiet dv1), false). split_and!; [done|done|congruence| |].
  - by rewrite Er, length_write_file.
  - rewrite Er. by apply write_file_bytes.
Qed.
Next Obligation.
  intros d r len (dv & p & Hp & Hd & Ea & Hn & Hb) Hr Hlen. destruct len as [|len]; [lia|].
  destruct (runs_slave_read scl sda addr r len dv p Haddr Ea Hr Hb Hp d Hd) as (d' & E' & Hd').
  set (dv1 := passed _ _) in Hd'. exists d'. rewrite Hn in E'. rewrite (device_of_resting dv p d Hp Hd).
  split; [exact E'|].
  destruct (passed_file (S len) (set_file (rd_regs dv) (r mod Z.of_nat (length (rd_regs dv))) dv)) as [Er Eaddr].
  fold dv1 in Er, Eaddr. cbn [rd_regs rd_addr set_file] in Er, Eaddr.
  assert (Hrest : resting dv1 (idle (set_phase Quiet dv1), false)) by by left.
  rewrite (device_of_resting dv1 _ d' Hrest Hd'). split; [|exact Er].
  exists dv1, (idle (set_phase Quiet dv1), false). split_and!; [done|done|congruence| |]; by rewrite Er.
Qed.
End implementation.

(** ** A bus *)

(** Two pins on the wires of a bus: the wires and the latches. *)
Definition SCL : Z := 5.
Definition SDA : Z := 4.
Record i2c_sim := { sim_lines : lines regdev; sim_latch : Z -> bool; sim_input : Z -> bool }.
Definition sim_drive (p : Z) (free : bool) (l : lines regdev) : lines regdev :=
  if p =? SCL then set_scl free l else if p =? SDA then set_sda free l else l.
Definition sim_with (l : lines regdev) (s : i2c_sim) : i2c_sim :=
  {| sim_lines := l; sim_latch := sim_latch s; sim_input := sim_input s |}.

#[export] Instance sim_pins : Pin i2c_sim := {
  gpio_enable := fun p dir s =>
    let free := match dir with GPIO_INPUT => true | _ => sim_latch s p end in
    Some ((), {| sim_lines := sim_drive p free (sim_lines s); sim_latch := sim_latch s;
                 sim_input := fun q => if q =? p then match dir with GPIO_INPUT => true | _ => false end
                                       else sim_input s q |});
  gpio_set_pullup := fun _ _ _ s => Some ((), s);
  gpio_write := fun p v s =>
    Some ((), {| sim_lines := if sim_input s p then sim_lines s else sim_drive p v (sim_lines s);
                 sim_latch := fun q => if q =? p then v else sim_latch s q; sim_input := sim_input s |});
  gpio_read := fun p s =>
    let level := if p =? SCL then scl_level (sim_lines s) else sda_level (sim_lines s) in
    Some (level, sim_with (after_reading (sim_lines s)) s);
  sdk_os_delay_us := fun _ s => Some ((), s);
  taskENTER_CRITICAL := fun s => Some ((), s);
  taskEXIT_CRITICAL := fun s => Some ((), s)
}.
#[export] Program Instance sim_bus : I2cBus i2c_sim regdev SCL SDA := {|
  lines_of := sim_lines;
  latched := fun s p => sim_latch s p = false;
  is_input := fun s p => sim_input s p = true
|}.
Next Obligation. intros s. by eexists. Qed.
Next Obligation. intros s. by eexists. Qed.
Next Obligation. intros s Hs. eexists. split; [reflexivity|]. simpl. by rewrite Hs. Qed.
Next Obligation. intros s Hs. eexists. split; [reflexivity|]. simpl. by rewrite Hs. Qed.
Next Obligation. intros s. by eexists. Qed.
Next Obligation. intros s. by eexists. Qed.
Next Obligation.
  intros s p _ Hi. eexists. split; [reflexivity|]. simpl. rewrite Hi, Z.eqb_refl. split_and!; try done.
  intros q Hq. by destruct (q =? p).
Qed.
Next Obligation. intros s p b1 b2 _. by eexists. Qed.
Next Obligation. intros s us. by eexists. Qed.

(** ** The theorem *)

(** C21: with a register device on the bus, which may stretch each clock for up to
    ten readings, i2c_slave_write stores its bytes from the register it names on and
    i2c_slave_read returns the registers, and both leave the bus idle; a transfer to
    an address where nobody answers fails and changes no register, and a write then
    leaves the transfer open with SCL low, from which the next transfer starts just
    as well.  Registers wrap at the end of the file; a write is of
    fewer than 255 bytes (its length is a uint8_t), a read of at least one. *)
Theorem i2c_register_transfers {E} `{!Pin E} scl sda `{!I2cBus E regdev scl sda}
    (dv : regdev) p (d : driver E) addr r vs rest n :
  0 <= addr < 128 -> is_byte r -> Forall is_byte vs -> Forall is_byte (rd_regs dv) -> (0 < n)%nat ->
  Z.of_nat (length vs) < 255 -> resting dv p -> bus_is scl sda p d ->
  let r' := r mod Z.of_nat (length (rd_regs dv)) in
  let rests dv' q d' := resting dv' q /\ bus_is scl sda q d' /\ rd_addr dv' = rd_addr dv in
  if addr =? rd_addr dv then
    (exists d' dv', i2c_slave_write addr (r :: vs ++ rest) (1 + Z.of_nat (length vs)) d = Some (true, d') /\
       rests dv' (idle (set_phase Quiet dv'), false) d' /\ rd_regs dv' = write_file (rd_regs dv) r' vs) /\
    (exists d' dv', i2c_slave_read addr r (Z.of_nat n) d = Some ((true, read_file (rd_regs dv) r' n), d') /\
       rests dv' (idle (set_phase Quiet dv'), false) d' /\ rd_regs dv' = rd_regs dv)
  else
    (exists d' x, i2c_slave_write addr (r :: vs ++ rest) (1 + Z.of_nat (length vs)) d = Some (false, d') /\
       rests dv (low x (set_phase Quiet dv), true) d') /\
    (exists d', i2c_slave_read addr r (Z.of_nat n) d = Some ((false, []), d') /\
       rests dv (idle (set_phase Quiet dv), false) d').
Proof.
  intros Ha Hr Hv Hb Hn _ Hp Hd r' rests. destruct n as [|n]; [lia|].
  destruct (Z.eqb_spec addr (rd_addr dv)) as [Ea|Ea]; split.
  - destruct (runs_slave_write scl sda addr r vs rest dv p Ha (eq_sym Ea) Hr Hv Hp d Hd) as (d' & E' & Hd').
    destruct (stored_file vs (set_file (rd_regs dv) r' dv)) as [Er Eaddr].
    do 2 eexists. split; [exact E'|]. split; [split_and!; [by left|exact Hd'|exact Eaddr]|exact Er].
  - destruct (runs_slave_read scl sda addr r n dv p Ha (eq_sym Ea) Hr Hb Hp d Hd) as (d' & E' & Hd').
    destruct (passed_file (S n) (set_file (rd_regs dv) r' dv)) as [Er Eaddr].
    do 2 eexists. split; [exact E'|]. split; [split_and!; [by left|exact Hd'|exact Eaddr]|exact Er].
  - destruct (runs_slave_absent scl sda addr (r :: vs ++ rest) (1 + Z.of_nat (length vs)) dv p Ha ltac:(done) Hp) as [Hw _].
    destruct (Hw d Hd) as (d' & E' & Hd'). exists d', true. split; [exact E'|].
    split_and!; [right; by exists true|exact Hd'|done].
  - destruct (runs_slave_absent scl sda addr [] (Z.of_nat (S n)) dv p Ha ltac:(done) Hp) as [_ Hw].
    destruct (Hw r d Hd) as (d' & E' & Hd'). exists d'. split; [exact E'|]. split_and!; [by left|exact Hd'|done].
Qed.

(** A device of eight registers at 0x68 that stretches every clock. *)
Definition device1 : regdev :=
  {| rd_addr := 0x68; rd_regs := [10; 11; 12; 13; 14; 15; 16; 17]; rd_ptr := 0; rd_stretch := 3;
     rd_phase := Quiet; rd_sampled := None |}.
Definition driver1 : driver i2c_sim :=
  Driver {| sim_lines := idle device1; sim_latch := fun _ => false; sim_input := fun _ => true |} false SCL SDA [].

Lemma i2c_register_transfers_witness :
  exists d' dv', i2c_slave_write 0x68 [6; 1; 2; 3; 9] 4 driver1 = Some (true, d') /\
    bus_is SCL SDA (idle (set_phase Quiet dv'), false) d' /\ rd_regs dv' = [3; 11; 12; 13; 14; 15; 1; 2].
Proof.
  destruct (i2c_register_transfers SCL SDA device1 (idle device1, false) driver1 0x68 6 [1; 2; 3] [9] 1)
    as [(d' & dv' & E & (_ & Hd & _) & Er) _].
  - lia.
  - unfold is_byte; lia.
  - by apply bytes_check.
  - by apply bytes_check.
  - lia.
  - simpl; lia.
  - by left.
  - done.
  - exists d', dv'. split; [exact E|]. split; [exact Hd|]. rewrite Er. reflexivity.
Defined.
