(* ===== verification/EspI2c.v ===== *)
(** * The I2C bus on the pins of the chip

    Two pins of the chip wired to an I2C bus: every write of a GPIO register changes
    the wires by what the two pins drive, and a reading of GPIO.IN shows the wires
    and takes time.  gpio.h over these registers obeys the laws that [I2cBus] asks
    for, so the results about i2c.c hold down to the registers. *)

From S2P Require Import Prelude Gpio EspRegs EspGpio I2c I2cBus I2cRegs.
Local Open Scope Z_scope.

(** A pin lets its wire float unless it drives it low. *)
Definition released (g : gpio_regs) (p : Z) : bool :=
  match drives g p with Some false => false | _ => true end.

(** The devices on the wires of pins [scl] and [sda], and for how long they hold SCL. *)
Record i2c_pads (S : Type) (scl sda : Z) := Wired { wired_held : nat; wired_slave : S }.
Arguments Wired {S scl sda}.
Arguments wired_held {S scl sda}.
Arguments wired_slave {S scl sda}.

Section wires.
Context {S : Type} `{!I2cSlave S} {scl sda : Z}.

Definition wires (g : gpio_regs) (e : i2c_pads S scl sda) : lines S :=
  Lines (released g scl) (released g sda) (wired_held e) (wired_slave e).
Definition of_wires (l : lines S) : i2c_pads S scl sda := Wired (held l) (slave l).
Definition rewired (g : gpio_regs) (l : lines S) : lines S :=
  set_sda (released g sda) (set_scl (released g scl) l).

#[export] Instance wired_pads : Pads (i2c_pads S scl sda) := {|
  pad_update := fun g g' e => of_wires (rewired g' (wires g e));
  pad_in := fun g e =>
    let l := wires g e in
    (Z.lor (if scl_level l then BIT scl else 0) (if sda_level l then BIT sda else 0), of_wires (after_reading l));
  pad_delay := fun _ e => e
|}.

Lemma set_scl_same l : set_scl (scl_free l) l = l.
Proof. by destruct l as [[] ? ? ?]. Qed.
Lemma set_sda_same l : set_sda (sda_free l) l = l.
Proof.
  destruct l as [c d h s]. unfold set_sda, scl_level, sda_level. simpl.
  by destruct c, (h =? 0)%nat, d, (sl_out s).
Qed.
Lemma set_scl_free b l : scl_free (set_scl b l) = b /\ sda_free (set_scl b l) = sda_free l.
Proof. by destruct l as [[] ? [|h] ?], b. Qed.
Lemma set_sda_free b l : scl_free (set_sda b l) = scl_free l /\ sda_free (set_sda b l) = b.
Proof. done. Qed.
Lemma after_reading_free l : scl_free (after_reading l) = scl_free l /\ sda_free (after_reading l) = sda_free l.
Proof. destruct l as [[] ? [|[|h]] ?]; done. Qed.

End wires.

(** *** Writes that set one pin *)

Lemma released_off g p : Z.testbit (ENABLE_OUT g) p = false -> released g p = true.
Proof. intros He. unfold released, drives, output_on. by rewrite He. Qed.
Lemma released_low g p : Z.testbit (OUT g) p = false -> released g p = negb (output_on g p).
Proof. intros Ho. unfold released, drives. rewrite Ho. by destruct (output_on g p). Qed.

(** Each write leaves the wire of [q] alone, and that of [p] too or gives it [r]. *)
Fixpoint keeps_to (p q : Z) (r : bool) (g : gpio_regs) (fs : list (gpio_regs -> gpio_regs)) : Prop :=
  match fs with
  | [] => released g p = r
  | f :: fs =>
      released (f g) q = released g q /\ (released (f g) p = r \/ released (f g) p = released g p) /\
      keeps_to p q r (f g) fs
  end.

Lemma released_other g g' p q : 0 <= p < 16 -> 0 <= q < 16 -> q <> p ->
  Z.testbit (OUT g') q = Z.testbit (OUT g) q -> Z.testbit (ENABLE_OUT g') q = Z.testbit (ENABLE_OUT g) q ->
  CONF g' q = CONF g q -> (forall i, i <> mux_of p -> PIN g' i = PIN g i) -> released g' q = released g q.
Proof. intros Hp Hq Hne HO HE HC HP. unfold released. by rewrite (proj1 (drives_other g g' p q Hp Hq Hne HO HE HC HP)). Qed.

(** Driving low never lets go in between. *)
Lemma output_grows g g' p : Z.testbit (OUT g) p = false -> Z.testbit (OUT g') p = false ->
  (output_on g p = true -> output_on g' p = true) -> released g' p = false \/ released g' p = released g p.
Proof.
  intros Ho Ho' Hg. rewrite !released_low by done. destruct (output_on g p); [left; by rewrite Hg|].
  destruct (output_on g' p); auto.
Qed.
Lemma mux_gpio_on g p : output_on g p = true -> output_on (mux_gpio (mux_of p) g) p = true.
Proof.
  unfold output_on, mux_gpio. cbn [ENABLE_OUT PIN with_PIN]. rewrite Z.eqb_refl. intros Ho. zbool.
  set (v := PIN g (mux_of p)) in *.
  assert (Hv : Z.lor (gpio_func (mux_of p)) (Z.ldiff v IOMUX_PIN_FUNC_MASK) = v).
  { apply Z.bits_inj'. intros n Hn. rewrite Z.lor_spec, Z.ldiff_spec.
    match goal with H : Z.land v _ = _ |- _ => rewrite <- H end. rewrite Z.land_spec.
    by destruct (Z.testbit v n), (Z.testbit IOMUX_PIN_FUNC_MASK n). }
  rewrite Hv. by repeat (apply andb_true_intro; split); [..|by apply Z.eqb_eq].
Qed.
Lemma mux_flags_on g p : output_on g p = true -> output_on (mux_flags (mux_of p) true g) p = true.
Proof.
  unfold output_on, mux_flags. cbn [ENABLE_OUT PIN with_PIN Z.b2z]. rewrite Z.eqb_refl. intros Ho. zbool.
  set (v := PIN g (mux_of p)) in *.
  assert (Hv : Z.land (Z.lor 1 (Z.ldiff v 3)) IOMUX_PIN_FUNC_MASK = Z.land v IOMUX_PIN_FUNC_MASK).
  { rewrite Z.land_lor_distr_l. change (Z.land 1 IOMUX_PIN_FUNC_MASK) with 0. rewrite Z.lor_0_l.
    apply Z.bits_inj'. intros n Hn. rewrite !Z.land_spec, Z.ldiff_spec. destruct (Z.ltb_spec n 2).
    - assert (n = 0 \/ n = 1) as [->| ->] by lia; by rewrite !andb_false_r.
    - rewrite (testbit_high 3 2) by lia. by rewrite andb_true_r. }
  rewrite Hv. apply andb_true_intro. split; [|by apply Z.eqb_eq]. apply andb_true_intro. split; [done|].
  by rewrite Z.lor_spec.
Qed.

Lemma enable_keeps p q dir g : 0 <= p < 16 -> 0 <= q < 16 -> q <> p -> dir <> GPIO_OUTPUT ->
  (dir = GPIO_OUT_OPEN_DRAIN -> Z.testbit (OUT g) p = false) ->
  keeps_to p q (negb (is_output dir)) g (enable_writes p dir).
Proof.
  intros Hp Hq Hne Hd Hl.
  assert (Hbit : (p =? q) = false) by (by apply Z.eqb_neq).
  assert (He : forall f g, (forall g, f g = clear_enable p g \/ f g = set_enable p g \/ (exists b, f g = conf_drain p b g) \/
      f g = mux_gpio (mux_of p) g \/ (exists b, f g = mux_flags (mux_of p) b g)) -> released (f g) q = released g q).
  { intros f g1 Hf. apply (released_other _ _ p); [done..| | | |]; try intros i Hi;
      destruct (Hf g1) as [E|[E|[[b E]|[E|[b E]]]]]; rewrite E; cbn; try done;
      autorewrite with esp_bits; rewrite ?Hbit, ?andb_true_r, ?orb_false_r; try done;
      rewrite ?(proj2 (Z.eqb_neq q p)), ?(proj2 (Z.eqb_neq i (mux_of p))) by done; done. }
  destruct dir; [|done|]; cbn [enable_writes keeps_to is_output negb].
  - assert (Hoff : forall g', ENABLE_OUT g' = Z.ldiff (ENABLE_OUT g) (BIT p) -> released g' p = true).
    { intros g' E. apply released_off. rewrite E. autorewrite with esp_bits. by rewrite Z.eqb_refl, andb_false_r. }
    split_and!; try (apply He; eauto 10); try (left; by apply Hoff). by apply Hoff.
  - specialize (Hl eq_refl).
    destruct (enable_drives p GPIO_OUT_OPEN_DRAIN g Hp) as (Hdr & _). rewrite Hl in Hdr.
    split_and!; try (apply He; eauto 10); try (apply output_grows; [done..|]).
    + done.
    + unfold output_on. cbn. intros Ho. zbool. autorewrite with esp_bits. rewrite Z.eqb_refl, orb_true_r.
      apply andb_true_intro. split; [done|by apply Z.eqb_eq].
    + apply mux_gpio_on.
    + apply mux_flags_on.
    + unfold released. cbn [enable_writes fold_left driven] in Hdr. by rewrite Hdr.
Qed.

Lemma mux_pulls flags v : flags = 0 \/ flags = 0x80 \/ flags = 0x08 \/ flags = 0x88 ->
  let v' := Z.lor flags (Z.ldiff v 0xcc) in
  Z.testbit v' 0 = Z.testbit v 0 /\ Z.land v' IOMUX_PIN_FUNC_MASK = Z.land v IOMUX_PIN_FUNC_MASK.
Proof.
  intros Hf v'. unfold v'. split.
  - rewrite Z.lor_spec, Z.ldiff_spec. destruct Hf as [->|[->|[->| ->]]]; by rewrite andb_true_r.
  - rewrite Z.land_lor_distr_l.
    replace (Z.land flags IOMUX_PIN_FUNC_MASK) with 0 by (by destruct Hf as [->|[->|[->| ->]]]). rewrite Z.lor_0_l.
    apply Z.bits_inj'. intros n Hn. rewrite !Z.land_spec, Z.ldiff_spec. destruct (Z.ltb_spec n 9).
    + nine n; by rewrite ?andb_false_r, ?andb_true_r.
    + rewrite (testbit_high IOMUX_PIN_FUNC_MASK 9) by (by unfold IOMUX_PIN_FUNC_MASK || lia). by rewrite !andb_false_r.
Qed.

Section board.
Context {H S : Type} `{!I2cSlave S} (scl sda : Z) (Hscl : 0 <= scl < 16) (Hsda : 0 <= sda < 16) (Hne : scl <> sda).
Notation board := (soc H (i2c_pads S scl sda)).
Implicit Types s : board.

Definition board_lines (s : board) : lines S := wires (gpio s) (world s).

Lemma set_gpio_lines g s : board_lines (set_gpio g s) = rewired (scl:=scl) (sda:=sda) g (board_lines s).
Proof.
  unfold board_lines, set_gpio. cbn [gpio world pad_update wired_pads]. unfold wires at 1, of_wires. cbn [wired_held wired_slave].
  set (l := wires (gpio s) (world s)). unfold rewired.
  destruct (set_scl_free (released g scl) l) as [E1 E2]. by rewrite <- E1 at 1.
Qed.

Lemma lines_scl fs s r : keeps_to scl sda r (gpio s) fs -> board_lines (do_writes fs s) = set_scl r (board_lines s).
Proof.
  revert s; induction fs as [|f fs IH]; intros s Hk; cbn [keeps_to do_writes fold_left] in *.
  { subst r. symmetry. exact (set_scl_same (board_lines s)). }
  destruct Hk as (Eq & Ep & Hk). unfold do_writes in IH. rewrite IH by done. rewrite set_gpio_lines. unfold rewired.
  set (l := board_lines s). assert (Es : sda_free (set_scl (released (f (gpio s)) scl) l) = released (f (gpio s)) sda).
  { rewrite (proj2 (set_scl_free _ _)), Eq. done. }
  rewrite <- Es, set_sda_same. destruct Ep as [->| ->].
  - pose proof (set_scl_same (set_scl r l)) as E. by rewrite (proj1 (set_scl_free r l)) in E.
  - f_equal. exact (set_scl_same l).
Qed.
Lemma lines_sda fs s r : keeps_to sda scl r (gpio s) fs -> board_lines (do_writes fs s) = set_sda r (board_lines s).
Proof.
  revert s; induction fs as [|f fs IH]; intros s Hk; cbn [keeps_to do_writes fold_left] in *.
  { subst r. symmetry. exact (set_sda_same (board_lines s)). }
  destruct Hk as (Eq & Ep & Hk). unfold do_writes in IH. rewrite IH by done. rewrite set_gpio_lines. unfold rewired.
  set (l := board_lines s). rewrite Eq. assert (Es : set_scl (released (gpio s) scl) l = l) by exact (set_scl_same l).
  rewrite Es. destruct Ep as [->| ->].
  - exact (set_sda_same (set_sda r l)).
  - f_equal. exact (set_sda_same l).
Qed.

Definition latch_low (s : board) (p : Z) : Prop := Z.testbit (OUT (gpio s)) p = false.
Definition input_pin (s : board) (p : Z) : Prop := Z.testbit (ENABLE_OUT (gpio s)) p = false.

Lemma enable_keeps_latch p dir s q : 0 <= p < 16 -> latch_low s q -> latch_low (do_writes (enable_writes p dir) s) q.
Proof. intros Hp Hl. unfold latch_low. rewrite do_writes_gpio. by rewrite (proj1 (enable_regs p dir (gpio s) Hp)). Qed.
Lemma enable_in_input p s q : 0 <= p < 16 -> 0 <= q -> (p = q \/ input_pin s q) ->
  input_pin (do_writes (enable_writes p GPIO_INPUT) s) q.
Proof.
  intros Hp Hq Hi. unfold input_pin. rewrite do_writes_gpio.
  destruct (enable_regs p GPIO_INPUT (gpio s) Hp) as (_ & _ & -> & _). autorewrite with esp_bits.
  destruct Hi as [->| ->]; [by rewrite Z.eqb_refl, andb_false_r|done].
Qed.

(** Writing the latch of an input changes no wire. *)
Lemma write_input_lines p (b : bool) s : p = scl \/ p = sda -> input_pin s p ->
  board_lines (set_gpio (with_OUT (if b then Z.lor (OUT (gpio s)) (BIT p) else Z.ldiff (OUT (gpio s)) (BIT p)) (gpio s)) s) =
  board_lines s.
Proof.
  intros Hp Hi. rewrite set_gpio_lines. set (g := with_OUT _ _). unfold rewired.
  assert (Hpr : 0 <= p < 16) by (destruct Hp as [->| ->]; done).
  destruct (write_drives p b (gpio s) Hpr) as (_ & _ & _ & Hq). fold g in Hq.
  assert (He : forall q, 0 <= q < 16 -> released g q = released (gpio s) q).
  { intros q Hqr. destruct (Z.eq_dec q p) as [->|Hqp].
    - rewrite !released_off by done. done.
    - unfold released. by rewrite (proj1 (Hq q Hqr Hqp)). }
  rewrite !He by done. change (released (gpio s) scl) with (scl_free (board_lines s)).
  change (released (gpio s) sda) with (sda_free (board_lines s)). by rewrite set_scl_same, set_sda_same.
Qed.

Lemma read_in_bit (a b : bool) : Z.testbit (Z.lor (if a then BIT scl else 0) (if b then BIT sda else 0)) scl = a /\
  Z.testbit (Z.lor (if a then BIT scl else 0) (if b then BIT sda else 0)) sda = b.
Proof.
  rewrite !Z.lor_spec. destruct a, b; rewrite ?BIT_spec, ?Z.bits_0, ?Z.eqb_refl by lia;
    rewrite ?(proj2 (Z.eqb_neq scl sda)), ?(proj2 (Z.eqb_neq sda scl)) by congruence; done.
Qed.
Lemma read_board p s (level : bool) : 0 <= p ->
  Z.testbit (pad_in (gpio s) (world s)).1 p = level ->
  exists s', esp_gpio_read p s = Some (level, s') /\ board_lines s' = after_reading (board_lines s) /\
    gpio s' = gpio s.
Proof.
  intros Hp Hl. rewrite gpio_read_run, Hl by done. eexists. split; [reflexivity|]. split; [|done].
  cbn [pad_in wired_pads snd]. set (l := wires (gpio s) (world s)).
  destruct (after_reading_free l) as [E1 E2]. change (board_lines s) with l.
  unfold board_lines, wires, of_wires, set_world. cbn [gpio world wired_held wired_slave].
  change (released (gpio s) scl) with (scl_free l). change (released (gpio s) sda) with (sda_free l).
  rewrite <- E1, <- E2. by destruct (after_reading l).
Qed.

(** The pull-ups have no part in what a pin drives. *)
Lemma pullup_board p (b1 b2 : bool) s : 0 <= p < 16 ->
  exists s', esp_gpio_set_pullup p b1 b2 s = Some ((), s') /\ board_lines s' = board_lines s /\
    ENABLE_OUT (gpio s') = ENABLE_OUT (gpio s).
Proof.
  intros Hp. unfold esp_gpio_set_pullup, iomux_set_pullup_flags. rewrite opt_mux_run by done.
  destruct (mux_some p Hp) as [_ Hm]. rewrite write_PIN_run by done. eexists. split; [reflexivity|]. split; [|done].
  rewrite set_gpio_lines. set (flags := if b2 then _ else _). set (g := with_PIN _ _ _).
  assert (Hf : flags = 0 \/ flags = 0x80 \/ flags = 0x08 \/ flags = 0x88) by (unfold flags; destruct b1, b2; auto).
  assert (He : forall q, 0 <= q < 16 -> released g q = released (gpio s) q).
  { intros q Hq. destruct (Z.eq_dec q p) as [->|Hqp]; [|by apply (released_other _ _ p); try done;
      intros i Hi; unfold g; cbn; rewrite (proj2 (Z.eqb_neq i (mux_of p))) by done].
    unfold released, drives, output_on, g. cbn [ENABLE_OUT PIN OUT CONF with_PIN]. rewrite Z.eqb_refl.
    change (Z.lor (Z.lor (Z.lor IOMUX_PIN_PULLUP _) _) _) with 0xcc.
    destruct (mux_pulls flags (PIN (gpio s) (mux_of p)) Hf) as [-> ->]. done. }
  unfold rewired. rewrite !He by done. change (released (gpio s) scl) with (scl_free (board_lines s)).
  change (released (gpio s) sda) with (sda_free (board_lines s)). by rewrite set_scl_same, set_sda_same.
Qed.

(** gpio.h on such a board is what i2c.c needs. *)
#[export] Program Instance board_bus : I2cBus board S scl sda := {|
  lines_of := board_lines;
  latched := latch_low;
  is_input := input_pin
|}.
Next Obligation.
  intros s. cbn [gpio_enable esp_pins]. rewrite gpio_enable_run by done. eexists. split; [reflexivity|].
  split; [exact (lines_scl _ _ _ (enable_keeps scl sda GPIO_INPUT _ Hscl Hsda (not_eq_sym Hne) ltac:(done) ltac:(done)))|].
  split; [intros; by apply enable_keeps_latch|]. split; [apply enable_in_input; auto; lia|].
  intros Hi. apply enable_in_input; auto; lia.
Qed.
Next Obligation.
  intros s. cbn [gpio_enable esp_pins]. rewrite gpio_enable_run by done. eexists. split; [reflexivity|].
  split; [exact (lines_sda _ _ _ (enable_keeps sda scl GPIO_INPUT _ Hsda Hscl Hne ltac:(done) ltac:(done)))|].
  intros; by apply enable_keeps_latch.
Qed.
Next Obligation.
  intros s Hl. cbn [gpio_enable esp_pins]. rewrite gpio_enable_run by done. eexists. split; [reflexivity|].
  split; [exact (lines_scl _ _ _ (enable_keeps scl sda GPIO_OUT_OPEN_DRAIN _ Hscl Hsda (not_eq_sym Hne) ltac:(done) (fun _ => Hl)))|].
  intros; by apply enable_keeps_latch.
Qed.
Next Obligation.
  intros s Hl. cbn [gpio_enable esp_pins]. rewrite gpio_enable_run by done. eexists. split; [reflexivity|].
  split; [exact (lines_sda _ _ _ (enable_keeps sda scl GPIO_OUT_OPEN_DRAIN _ Hsda Hscl Hne ltac:(done) (fun _ => Hl)))|].
  intros; by apply enable_keeps_latch.
Qed.
Next Obligation.
  intros s. destruct (read_board scl s (scl_level (board_lines s)) ltac:(lia)) as (s' & E & El & Eg).
  { apply read_in_bit. }
  exists s'. split_and!; [exact E|exact El|]. intros p. unfold latch_low. by rewrite Eg.
Qed.
Next Obligation.
  intros s. destruct (read_board sda s (sda_level (board_lines s)) ltac:(lia)) as (s' & E & El & Eg).
  { apply read_in_bit. }
  exists s'. split_and!; [exact E|exact El|]. intros p. unfold latch_low. by rewrite Eg.
Qed.
Next Obligation.
  intros s p Hp Hi. assert (Hpr : 0 <= p < 16) by (destruct Hp as [->| ->]; done).
  cbn [gpio_write esp_pins]. rewrite gpio_write_run by done. eexists. split; [reflexivity|].
  split; [by apply (write_input_lines p false)|]. split.
  - unfold latch_low. cbn. rewrite clear_bit_spec, Z.eqb_refl by lia. apply andb_false_r.
  - split; [|done]. intros q Hq. unfold latch_low. cbn. by rewrite Z.ldiff_spec, Hq.
Qed.
Next Obligation.
  intros s p b1 b2 Hp. assert (Hpr : 0 <= p < 16) by (destruct Hp as [->| ->]; done).
  cbn [gpio_set_pullup esp_pins]. destruct (pullup_board p b1 b2 s Hpr) as (s' & E & El & Ee).
  exists s'. split_and!; [exact E|exact El|]. intros q. unfold input_pin. by rewrite Ee.
Qed.
Next Obligation. intros s us. eexists. split; [reflexivity|]. by split; [|intros p]. Qed.
End board.

(** ** The theorem *)

(** C16: i2c.c over gpio.h, down to the registers: from a reset bus whose SDA pin is an
    input, i2c_init makes the bus ready; what i2c_slave_write then stores in the
    registers of a device, which may stretch the clock, i2c_slave_read returns; the
    other registers of the device keep their values, and the chip leaves both wires
    floating.  The pins are two different ones below 16, and the transfer is of 1 to
    254 bytes inside the register file. *)
Theorem i2c_on_gpio_registers {H} scl sda (dv : regdev) (d : driver (soc H (i2c_pads regdev scl sda))) r vs :
  0 <= scl < 16 -> 0 <= sda < 16 -> scl <> sda -> 0 <= rd_addr dv < 128 ->
  input_pin scl sda (env d) sda -> board_lines scl sda (env d) = idle (set_phase Quiet dv) ->
  Forall is_byte (rd_regs dv) -> Forall is_byte vs -> is_byte r -> 0 < Z.of_nat (length vs) < 255 ->
  r + Z.of_nat (length vs) <= Z.of_nat (length (rd_regs dv)) ->
  exists d1 d2 d3, i2c_init scl sda d = Some ((), d1) /\
    i2c_slave_write (rd_addr dv) (r :: vs) (1 + Z.of_nat (length vs)) d1 = Some (true, d2) /\
    i2c_slave_read (rd_addr dv) r (Z.of_nat (length vs)) d2 = Some ((true, vs), d3) /\
    rd_regs (wired_slave (world (env d3))) =
      take (Z.to_nat r) (rd_regs dv) ++ vs ++ drop (Z.to_nat r + length vs) (rd_regs dv) /\
    released (gpio (env d3)) scl = true /\ released (gpio (env d3)) sda = true.
Proof.
  intros Hc Ha Hne Haddr Hin Hl Hb Hv Hr Hn Hlen.
  set (bus := board_bus (H:=H) (S:=regdev) scl sda Hc Ha Hne).
  assert (Hr0 : 0 <= r) by (unfold is_byte in Hr; lia).
  assert (Hm : r mod Z.of_nat (length (rd_regs dv)) = r) by (apply Z.mod_small; lia).
  destruct (init_ready scl sda (I2cBus0:=bus) d (set_phase Quiet dv) Hin Hl) as (d1 & E1 & Hd1).
  destruct (runs_slave_write scl sda (I2cBus0:=bus) (rd_addr dv) r vs [] dv _ Haddr eq_refl Hr Hv
    (or_introl eq_refl) d1 Hd1) as (d2 & E2 & Hd2).
  rewrite app_nil_r in E2. rewrite Hm in Hd2. set (dv2 := stored_bytes _ _) in Hd2.
  destruct (stored_file vs (set_file (rd_regs dv) r dv)) as [Er Ea]. fold dv2 in Er, Ea. cbn in Er, Ea.
  rewrite write_file_in in Er by lia. rewrite <- Ea in Haddr.
  assert (Hlen2 : length (rd_regs dv2) = length (rd_regs dv)).
  { rewrite Er, !length_app, length_take, length_drop. lia. }
  assert (Hb2 : Forall is_byte (rd_regs dv2)).
  { rewrite Er. apply Forall_app; split; [by apply Forall_take|]. apply Forall_app; split; [done|by apply Forall_drop]. }
  destruct (length vs) as [|n] eqn:El; [lia|]. rewrite <- El in *.
  destruct (runs_slave_read scl sda (I2cBus0:=bus) (rd_addr dv2) r n dv2 _ Haddr eq_refl Hr Hb2
    (or_introl eq_refl) d2 Hd2) as (d3 & E3 & Hd3).
  rewrite <- El, Ea in E3. cbv zeta in Hd3. rewrite <- El in Hd3. rewrite Hlen2, Hm in E3, Hd3.
  rewrite read_file_in, Er in E3 by lia.
  destruct (passed_file (length vs) (set_file (rd_regs dv2) r dv2)) as [Ep _]. cbn in Ep.
  destruct Hd3 as (_ & _ & _ & _ & Hw & _). cbn in Hw.
  exists d1, d2, d3. split; [exact E1|]. split; [exact E2|]. split.
  { rewrite E3. do 3 f_equal. rewrite drop_app_length' by (rewrite length_take; lia).
    by rewrite take_app_length. }
  unfold board_lines, wires, idle in Hw. injection Hw as H1 H2 _ H4. split; [|done].
  rewrite H4. cbn. by rewrite Ep, Er.
Qed.

(** A chip after reset with the device [device1] on pins 5 and 4. *)
Definition board1 : soc unit (i2c_pads regdev 5 4) :=
  Soc {| OUT := 0; ENABLE_OUT := 0; STATUS := 0; CONF := fun _ => 0; PIN := fun _ => 0 |}
    (fun _ => {| LOAD := 0; COUNT := 0; CTRL := 0; ALARM := 0 |}) 0 0 0 (fun _ => None) false (Wired 0 device1).
Lemma i2c_on_gpio_registers_witness :
  exists d1 d2 d3, i2c_init 5 4 (Driver board1 false 0 0 []) = Some ((), d1) /\
    i2c_slave_write 0x68 [2; 1; 2; 3] 4 d1 = Some (true, d2) /\
    i2c_slave_read 0x68 2 3 d2 = Some ((true, [1; 2; 3]), d3) /\
    rd_regs (wired_slave (world (env d3))) = [10; 11; 1; 2; 3; 15; 16; 17].
Proof.
  destruct (i2c_on_gpio_registers 5 4 device1 (Driver board1 false 0 0 []) 2 [1; 2; 3])
    as (d1 & d2 & d3 & E1 & E2 & E3 & Er & _).
  - lia.
  - lia.
  - lia.
  - simpl; lia.
  - reflexivity.
  - reflexivity.
  - by apply bytes_check.
  - by apply bytes_check.
  - unfold is_byte; lia.
  - simpl; lia.
  - simpl; lia.
  - exists d1, d2, d3. split; [exact E1|]. split; [exact E2|]. split; [exact E3|]. rewrite Er. reflexivity.
Defined.
