(* ===== verification/Ds3231.v ===== *)
(** * The DS3231 clock (extras/ds3231/ds3231.c)

    The driver of the clock chip, over the I2C transfers of [I2cRegs].  A local
    buffer of the source is a list; [stray] is what an uninitialised byte holds.  The
    functions that return their result through a pointer return it with their
    success here. *)

From Stdlib Require Import QArith_base.
From S2P Require Import Prelude Gpio I2c I2cBus I2cRegs.
Local Open Scope Z_scope.

Definition DS3231_ADDR : Z := 0x68.
Definition DS3231_STAT_OSCILLATOR : Z := 0x80.
Definition DS3231_STAT_32KHZ : Z := 0x08.
Definition DS3231_CTRL_SQWAVE_8192HZ : Z := 0x18.
Definition DS3231_CTRL_ALARM_INTS : Z := 0x04.
Definition DS3231_ALARM_WDAY : Z := 0x40.
Definition DS3231_ALARM_NOTSET : Z := 0x80.
Definition DS3231_ADDR_TIME : Z := 0x00.
Definition DS3231_ADDR_ALARM1 : Z := 0x07.
Definition DS3231_ADDR_ALARM2 : Z := 0x0b.
Definition DS3231_ADDR_CONTROL : Z := 0x0e.
Definition DS3231_ADDR_STATUS : Z := 0x0f.
Definition DS3231_ADDR_TEMP : Z := 0x11.
Definition DS3231_12HOUR_FLAG : Z := 0x40.
Definition DS3231_12HOUR_MASK : Z := 0x1f.
Definition DS3231_PM_FLAG : Z := 0x20.
Definition DS3231_MONTH_MASK : Z := 0x1f.

Definition DS3231_SET : Z := 0.
Definition DS3231_CLEAR : Z := 1.
Definition DS3231_REPLACE : Z := 2.
Definition DS3231_ALARM_1 : Z := 1.
Definition DS3231_ALARM_2 : Z := 2.
Definition DS3231_ALARM_BOTH : Z := 3.
Definition DS3231_ALARM1_MATCH_SEC : Z := 1.
Definition DS3231_ALARM1_MATCH_SECMIN : Z := 2.
Definition DS3231_ALARM1_MATCH_SECMINHOUR : Z := 3.
Definition DS3231_ALARM1_MATCH_SECMINHOURDAY : Z := 4.
Definition DS3231_ALARM1_MATCH_SECMINHOURDATE : Z := 5.
Definition DS3231_ALARM2_MATCH_MIN : Z := 1.
Definition DS3231_ALARM2_MATCH_MINHOUR : Z := 2.
Definition DS3231_ALARM2_MATCH_MINHOURDAY : Z := 3.
Definition DS3231_ALARM2_MATCH_MINHOURDATE : Z := 4.

(** [struct tm] of the C library. *)
Record tm := {
  tm_sec : Z; tm_min : Z; tm_hour : Z; tm_mday : Z; tm_mon : Z; tm_year : Z; tm_wday : Z; tm_yday : Z; tm_isdst : Z
}.

Definition decToBcd (dec : Z) : Z := u8 (dec / 10 * 16 + dec mod 10).
Definition bcdToDec (bcd : Z) : Z := u8 (bcd / 16 * 10 + bcd mod 16).

Section ds3231.
Context {W : Type} `{!I2c W}.

Definition ds3231_send (data : list Z) (len : Z) : ST W bool := slave_write DS3231_ADDR data len.
(** The buffer, of which the first byte names the register, after the call. *)
Definition ds3231_recv (data : list Z) (len : Z) : ST W (bool * list Z) :=
  '(ok, bytes) ← slave_read DS3231_ADDR (default 0 (head data)) len;
  mret (ok, bytes ++ drop (length bytes) data).

Definition ds3231_setTime (time : tm) : ST W bool :=
  ds3231_send
    [DS3231_ADDR_TIME; decToBcd (u8 (tm_sec time)); decToBcd (u8 (tm_min time)); decToBcd (u8 (tm_hour time));
     decToBcd (u8 (tm_wday time + 1)); decToBcd (u8 (tm_mday time)); decToBcd (u8 (tm_mon time + 1));
     decToBcd (u8 (tm_year time - 100))] 8.

Definition alarm1_data (time1 : tm) (option1 : Z) : list Z :=
  [if DS3231_ALARM1_MATCH_SEC <=? option1 then decToBcd (u8 (tm_sec time1)) else DS3231_ALARM_NOTSET;
   if DS3231_ALARM1_MATCH_SECMIN <=? option1 then decToBcd (u8 (tm_min time1)) else DS3231_ALARM_NOTSET;
   if DS3231_ALARM1_MATCH_SECMINHOUR <=? option1 then decToBcd (u8 (tm_hour time1)) else DS3231_ALARM_NOTSET;
   if option1 =? DS3231_ALARM1_MATCH_SECMINHOURDAY then Z.land (decToBcd (u8 (tm_wday time1 + 1))) DS3231_ALARM_WDAY
   else if option1 =? DS3231_ALARM1_MATCH_SECMINHOURDATE then decToBcd (u8 (tm_mday time1)) else DS3231_ALARM_NOTSET].
Definition alarm2_data (time2 : tm) (option2 : Z) : list Z :=
  [if DS3231_ALARM2_MATCH_MIN <=? option2 then decToBcd (u8 (tm_min time2)) else DS3231_ALARM_NOTSET;
   if DS3231_ALARM2_MATCH_MINHOUR <=? option2 then decToBcd (u8 (tm_hour time2)) else DS3231_ALARM_NOTSET;
   if option2 =? DS3231_ALARM2_MATCH_MINHOURDAY then Z.land (decToBcd (u8 (tm_wday time2 + 1))) DS3231_ALARM_WDAY
   else if option2 =? DS3231_ALARM2_MATCH_MINHOURDATE then decToBcd (u8 (tm_mday time2)) else DS3231_ALARM_NOTSET].
Definition ds3231_setAlarm (alarms : Z) (time1 : tm) (option1 : Z) (time2 : tm) (option2 : Z) : ST W bool :=
  let data := (if alarms =? DS3231_ALARM_2 then DS3231_ADDR_ALARM2 else DS3231_ADDR_ALARM1) ::
    (if negb (alarms =? DS3231_ALARM_2) then alarm1_data time1 option1 else []) ++
    (if negb (alarms =? DS3231_ALARM_1) then alarm2_data time2 option2 else []) in
  ds3231_send data (Z.of_nat (length data)).

Definition ds3231_getFlag (addr mask : Z) : ST W (option Z) :=
  ok ← ds3231_send [addr] 1;
  if negb ok then mret None
  else
    '(ok, data) ← ds3231_recv [addr] 1;
    if negb ok then mret None else mret (Some (Z.land (default 0 (head data)) mask)).

(** [~bits] in a byte is [255 - bits]. *)
Definition ds3231_setFlag (stray addr bits mode : Z) : ST W bool :=
  ok ← ds3231_send [addr; stray] 1;
  if negb ok then mret false
  else
    '(ok, rest) ← ds3231_recv [stray] 1;
    if negb ok then mret false
    else
      let data1 := default 0 (head rest) in
      let data1 := if mode =? DS3231_REPLACE then bits
                   else if mode =? DS3231_SET then Z.lor data1 bits
                   else Z.land data1 (255 - bits) in
      ok ← ds3231_send [addr; data1] 2;
      if negb ok then mret false else mret true.

Definition ds3231_getOscillatorStopFlag : ST W (option bool) :=
  f ← ds3231_getFlag DS3231_ADDR_STATUS DS3231_STAT_OSCILLATOR;
  mret (option_map (fun f => negb (f =? 0)) f).
Definition ds3231_clearOscillatorStopFlag (stray : Z) : ST W bool :=
  ds3231_setFlag stray DS3231_ADDR_STATUS DS3231_STAT_OSCILLATOR DS3231_CLEAR.
Definition ds3231_getAlarmFlags : ST W (option Z) := ds3231_getFlag DS3231_ADDR_STATUS DS3231_ALARM_BOTH.
Definition ds3231_clearAlarmFlags (stray alarms : Z) : ST W bool :=
  ds3231_setFlag stray DS3231_ADDR_STATUS alarms DS3231_CLEAR.
Definition ds3231_enableAlarmInts (stray alarms : Z) : ST W bool :=
  ds3231_setFlag stray DS3231_ADDR_CONTROL (Z.lor DS3231_CTRL_ALARM_INTS alarms) DS3231_SET.
Definition ds3231_disableAlarmInts (stray alarms : Z) : ST W bool :=
  ds3231_setFlag stray DS3231_ADDR_CONTROL alarms DS3231_CLEAR.
Definition ds3231_enable32khz (stray : Z) : ST W bool :=
  ds3231_setFlag stray DS3231_ADDR_STATUS DS3231_STAT_32KHZ DS3231_SET.
Definition ds3231_disable32khz (stray : Z) : ST W bool :=
  ds3231_setFlag stray DS3231_ADDR_STATUS DS3231_STAT_32KHZ DS3231_CLEAR.
Definition ds3231_enableSquarewave (stray : Z) : ST W bool :=
  ds3231_setFlag stray DS3231_ADDR_CONTROL DS3231_CTRL_ALARM_INTS DS3231_CLEAR.
Definition ds3231_disableSquarewave (stray : Z) : ST W bool :=
  ds3231_setFlag stray DS3231_ADDR_CONTROL DS3231_CTRL_ALARM_INTS DS3231_SET.

Definition ds3231_setSquarewaveFreq (stray freq : Z) : ST W bool :=
  flag ← ds3231_getFlag DS3231_ADDR_CONTROL 0xff;
  match flag with
  | Some flag =>
      let flag := Z.land flag (255 - DS3231_CTRL_SQWAVE_8192HZ) in
      ds3231_setFlag stray DS3231_ADDR_CONTROL (Z.lor flag freq) DS3231_REPLACE
  | None => mret false
  end.

(** A signed byte. *)
Definition s8 (x : Z) : Z := if x <? 128 then x else x - 256.
Definition ds3231_getRawTemp (stray : Z) : ST W (option Z) :=
  ok ← ds3231_send [DS3231_ADDR_TEMP; stray] 1;
  if negb ok then mret None
  else
    '(ok, data) ← ds3231_recv [DS3231_ADDR_TEMP; stray] 2;
    if negb ok then mret None
    else mret (Some (Z.lor (Z.shiftl (s8 (default 0 (data !! 0%nat))) 2) (Z.shiftr (default 0 (data !! 1%nat)) 6))).
Definition ds3231_getTempInteger (stray : Z) : ST W (option Z) :=
  t ← ds3231_getRawTemp stray;
  mret (option_map (fun t => s8 (u8 (Z.shiftr t 2))) t).
(** The float is exact: the product with 0.25. *)
Definition ds3231_getTempFloat (stray : Z) : ST W (option Q) :=
  t ← ds3231_getRawTemp stray;
  mret (option_map (fun t => Qmake t 4) t).

(** Lines 268-284: the time in the bytes read; tm_yday stays what it was in [time]. *)
Definition time_of (time : tm) (data : list Z) : tm :=
  let at_ i := default 0 (data !! i) in
  {| tm_sec := bcdToDec (at_ 0%nat);
     tm_min := bcdToDec (at_ 1%nat);
     tm_hour :=
       if negb (Z.land (at_ 2%nat) DS3231_12HOUR_FLAG =? 0) then
         let hour := bcdToDec (Z.land (at_ 2%nat) DS3231_12HOUR_MASK) in
         if negb (Z.land (at_ 2%nat) DS3231_PM_FLAG =? 0) then hour + 12 else hour
       else bcdToDec (at_ 2%nat);
     tm_wday := bcdToDec (at_ 3%nat) - 1;
     tm_mday := bcdToDec (at_ 4%nat);
     tm_mon := bcdToDec (Z.land (at_ 5%nat) DS3231_MONTH_MASK) - 1;
     tm_year := bcdToDec (at_ 6%nat) + 100;
     tm_yday := tm_yday time;
     tm_isdst := 0 |}.
(** The result is the returned value and what the caller's structure holds then. *)
Definition ds3231_getTime (strays : list Z) (time : tm) : ST W (bool * tm) :=
  let data := DS3231_ADDR_TIME :: take 6 strays in
  ok ← ds3231_send data 1;
  if negb ok then mret (false, time)
  else
    '(ok, data) ← ds3231_recv data 7;
    if negb ok then mret (false, time) else mret (true, time_of time data).

(** ** What the functions do to the registers *)

Section registers.
Context `{!RegisterDevice W DS3231_ADDR 19}.
Notation regs := (registers (addr:=DS3231_ADDR) (n:=19)).
Notation ok := (working (addr:=DS3231_ADDR) (n:=19)).

Lemma reg_mod r : 0 <= r < 19 -> r mod 19 = r.
Proof. intros. by apply Z.mod_small. Qed.

(** Setting the pointer, and storing bytes; what is past the length is not sent. *)
Lemma clock_send_run w r vs rest : ok w -> 0 <= r < 19 -> Forall is_byte vs ->
  exists w', ds3231_send (r :: vs ++ rest) (1 + Z.of_nat (length vs)) w = Some (true, w') /\ ok w' /\
    regs w' = write_file (regs w) r vs.
Proof.
  intros Hw Hr Hv. destruct (law_slave_write w r vs rest Hw) as (w' & E & Hw' & Er); [unfold is_byte; lia|done|].
  rewrite reg_mod in Er by done. by exists w'.
Qed.
Lemma clock_recv_run w r rest n : ok w -> is_byte r -> (0 < n)%nat ->
  exists w', ds3231_recv (r :: rest) (Z.of_nat n) w =
      Some ((true, read_file (regs w) (r mod 19) n ++ drop n (r :: rest)), w') /\ ok w' /\ regs w' = regs w.
Proof.
  intros Hw Hr Hn. destruct (law_slave_read w r n Hw Hr Hn) as (w' & E & Hw' & Er).
  exists w'. split; [|done]. unfold ds3231_recv. cbn [head default]. rewrite (bind_run _ _ _ _ _ E).
  assert (Hl : forall regs r n, length (read_file regs r n) = n)
    by (clear; intros regs r n; revert r; induction n; intros r; simpl; auto).
  by rewrite Hl.
Qed.

(** Pointing at a register and reading from the one the second buffer names. *)
Lemma point_recv_run w r junk s rest n : ok w -> 0 <= r < 19 -> is_byte s -> (0 < n)%nat ->
  exists w1 w2, ds3231_send (r :: junk) 1 w = Some (true, w1) /\
    ds3231_recv (s :: rest) (Z.of_nat n) w1 =
      Some ((true, read_file (regs w) (s mod 19) n ++ drop n (s :: rest)), w2) /\
    ok w2 /\ regs w2 = regs w.
Proof.
  intros Hw Hr Hs Hn. destruct (clock_send_run w r [] junk Hw Hr ltac:(constructor)) as (w1 & E1 & Hw1 & Er1).
  destruct (clock_recv_run w1 s rest n Hw1 Hs Hn) as (w2 & E2 & Hw2 & Er2). cbn [write_file] in Er1.
  exists w1, w2. rewrite <- Er1 at 1. split_and!; [exact E1|exact E2|done|congruence].
Qed.
End registers.
End ds3231.

Definition ds3231_Init {E} `{!Pin E} (scl sda : Z) : ST (driver E) unit := i2c_init scl sda.
