(* ===== verification/Ds3231Contract.v ===== *)
(** * What the DS3231 driver does to the clock's registers

    The time that is set is the time that is read back; the temperature is the
    register pair in quarters of a degree; and the two defects of the driver: the
    flags are read from whatever register an uninitialised byte names, and the day of
    week of an alarm is masked away.  All against the interface of [I2cRegs]; the
    witnesses run on its bus with a 19-register device at 0x68. *)

From Stdlib Require Import QArith_base.
From S2P Require Import Prelude Gpio I2c I2cBus I2cRegs Ds3231.
Local Open Scope Z_scope.

(** The fields in the ranges of the C library, in the century the chip knows. *)
Definition tm_valid (t : tm) : Prop :=
  0 <= tm_sec t < 60 /\ 0 <= tm_min t < 60 /\ 0 <= tm_hour t < 24 /\ 0 <= tm_wday t < 7 /\
  1 <= tm_mday t <= 31 /\ 0 <= tm_mon t < 12 /\ 100 <= tm_year t < 200 /\ tm_isdst t = 0.

(** A number below 100 survives the two conversions. *)
Lemma bcd_roundtrip x : 0 <= x < 100 -> bcdToDec (decToBcd (u8 x)) = x /\ is_byte (decToBcd (u8 x)).
Proof.
  intros Hx. pose proof (below_check 100 (fun x => (bcdToDec (decToBcd (u8 x)) =? x) &&
    bool_decide (is_byte (decToBcd (u8 x)))) x eq_refl Hx) as H.
  apply andb_prop in H as [H1 H2]. split; [by apply Z.eqb_eq|by apply bool_decide_eq_true in H2].
Qed.

(** An hour and a month pass through the masks of the read. *)
Lemma bcd_hour x : 0 <= x < 24 -> Z.land (decToBcd (u8 x)) DS3231_12HOUR_FLAG = 0.
Proof.
  intros Hx. apply Z.eqb_eq.
  exact (below_check 24 (fun x => Z.land (decToBcd (u8 x)) DS3231_12HOUR_FLAG =? 0) x eq_refl Hx).
Qed.
Lemma bcd_month x : 0 <= x < 13 -> Z.land (decToBcd (u8 x)) DS3231_MONTH_MASK = decToBcd (u8 x).
Proof.
  intros Hx. apply Z.eqb_eq.
  exact (below_check 13 (fun x => Z.land (decToBcd (u8 x)) DS3231_MONTH_MASK =? decToBcd (u8 x)) x eq_refl Hx).
Qed.

Definition time_bytes (t : tm) : list Z :=
  [decToBcd (u8 (tm_sec t)); decToBcd (u8 (tm_min t)); decToBcd (u8 (tm_hour t));
   decToBcd (u8 (tm_wday t + 1)); decToBcd (u8 (tm_mday t)); decToBcd (u8 (tm_mon t + 1));
   decToBcd (u8 (tm_year t - 100))].

(** [t] with the day of the year [y], which the chip does not know. *)
Definition with_yday (y : Z) (t : tm) : tm :=
  {| tm_sec := tm_sec t; tm_min := tm_min t; tm_hour := tm_hour t; tm_mday := tm_mday t; tm_mon := tm_mon t;
     tm_year := tm_year t; tm_wday := tm_wday t; tm_yday := y; tm_isdst := tm_isdst t |}.

Lemma time_bytes_ok t : tm_valid t ->
  Forall is_byte (time_bytes t) /\ forall time rest, time_of time (time_bytes t ++ rest) = with_yday (tm_yday time) t.
Proof.
  intros (?&?&?&?&?&?&?&Hdst). split; [repeat constructor; apply bcd_roundtrip; lia|].
  intros time rest. unfold with_yday, time_of, time_bytes. cbn [app lookup list_lookup default].
  unfold id. rewrite bcd_hour by lia. cbn [negb Z.eqb]. rewrite bcd_month by lia.
  rewrite !(fun x H => proj1 (bcd_roundtrip x H)) by lia. rewrite <- Hdst. f_equal; lia.
Qed.

Section clock.
Context {W : Type} `{!I2c W, !RegisterDevice W DS3231_ADDR 19}.
Notation regs := (registers (addr:=DS3231_ADDR) (n:=19)).
Notation ok := (working (addr:=DS3231_ADDR) (n:=19)).

Lemma regs_length (w : W) : ok w -> Z.of_nat (length (regs w)) = 19.
Proof. apply law_registers. Qed.
Lemma regs_bytes (w : W) r : ok w -> is_byte (reg_at (regs w) r).
Proof. intros Hw. apply reg_at_byte, (law_registers w Hw). Qed.

(** C22: a time that is set is the time that is read back, for every time of the
    years 2000 to 2099 with its fields in range; the alarm, control, status and
    temperature registers keep their values, and what the bytes of the read buffer
    held before does not matter.  The day of the year, which the chip does not store,
    stays what it was in the caller's structure, and the daylight saving flag set is
    0, as the one read.  The clock works (it acknowledges its address). *)
Theorem ds3231_time_roundtrip (w : W) t strays time : ok w -> tm_valid t ->
  exists w1 w2, ds3231_setTime t w = Some (true, w1) /\
    ds3231_getTime strays time w1 = Some ((true, with_yday (tm_yday time) t), w2) /\
    ok w2 /\ regs w2 = time_bytes t ++ drop 7 (regs w).
Proof.
  intros Hw Ht. destruct (time_bytes_ok t Ht) as [Hb Hof].
  destruct (clock_send_run w 0 (time_bytes t) [] Hw ltac:(lia) Hb) as (w1 & E1 & Hw1 & Er1).
  rewrite app_nil_r in E1. pose proof (regs_length w Hw) as Hl. pose proof (regs_length w1 Hw1) as Hl1.
  rewrite write_file_in in Er1 by (simpl; lia).
  destruct (point_recv_run w1 0 (take 6 strays) 0 (take 6 strays) 7 Hw1 ltac:(lia) ltac:(by unfold is_byte) ltac:(lia))
    as (wp & w2 & Ep & E2 & Hw2 & Er2).
  exists w1, w2. split; [exact E1|]. split; [|by rewrite Er2, Er1].
  unfold ds3231_getTime. rewrite (bind_run _ _ _ _ _ Ep). cbn [negb].
  rewrite (bind_run _ _ _ _ _ E2). cbn [negb].
  change (0 mod 19) with 0. rewrite read_file_in, Er1 by lia.
  change (Some ((true, time_of time (time_bytes t ++ drop 7 (0 :: take 6 strays))), w2) = Some ((true, with_yday (tm_yday time) t), w2)).
  by rewrite Hof.
Qed.
End clock.

(** The registers of the driver's read-modify-write, as the modes define it. *)
Definition flag_value (mode bits old : Z) : Z :=
  if mode =? DS3231_REPLACE then bits else if mode =? DS3231_SET then Z.lor old bits else Z.land old (255 - bits).

Lemma flag_value_byte mode bits old : is_byte bits -> is_byte old -> is_byte (flag_value mode bits old).
Proof.
  intros Hb Ho. unfold flag_value. case_match; [done|]. case_match; [by apply lor_byte|]. apply land_byte; [done|].
  unfold is_byte in *. lia.
Qed.

(** The temperature bytes, by evaluation over both. *)
Lemma temp_value b1 b2 : is_byte b1 -> is_byte b2 ->
  Z.lor (Z.shiftl (s8 b1) 2) (Z.shiftr b2 6) = 4 * s8 b1 + b2 / 64 /\
  s8 (u8 (Z.shiftr (4 * s8 b1 + b2 / 64) 2)) = s8 b1 /\ -512 <= 4 * s8 b1 + b2 / 64 < 512.
Proof.
  intros H1 H2. assert (Hq : 0 <= b2 / 64 < 4) by (unfold is_byte in H2; split; [apply Z.div_pos|apply Z.div_lt_upper_bound]; lia).
  rewrite Z.shiftr_div_pow2 by lia. change (2 ^ 6) with 64.
  pose proof (byte_check (fun b => forallb (fun q => (Z.lor (Z.shiftl (s8 b) 2) q =? 4 * s8 b + q) &&
    (s8 (u8 (Z.shiftr (4 * s8 b + q) 2)) =? s8 b) && (-512 <=? 4 * s8 b + q) && (4 * s8 b + q <? 512)) (seqZ 0 4)) b1 eq_refl H1) as Hc.
  pose proof (below_check 4 _ _ Hc Hq) as H. cbv beta in H. zbool. lia.
Qed.

Section flags.
Context {W : Type} `{!I2c W, !RegisterDevice W DS3231_ADDR 19}.
Notation regs := (registers (addr:=DS3231_ADDR) (n:=19)).
Notation ok := (working (addr:=DS3231_ADDR) (n:=19)).

Lemma getFlag_run (w : W) addr mask : ok w -> 0 <= addr < 19 ->
  exists w', ds3231_getFlag addr mask w = Some (Some (Z.land (reg_at (regs w) addr) mask), w') /\ ok w' /\ regs w' = regs w.
Proof.
  intros Hw Ha. destruct (point_recv_run w addr [] addr [] 1 Hw Ha ltac:(unfold is_byte; lia) ltac:(lia))
    as (w1 & w2 & E1 & E2 & Hw2 & Er).
  exists w2. split; [|done]. unfold ds3231_getFlag. rewrite (bind_run _ _ _ _ _ E1). cbn [negb].
  rewrite (bind_run _ _ _ _ _ E2). cbn [negb]. by rewrite reg_mod.
Qed.

(** Ds3231_setFlag does not update the register it is given: the old value it
    sets or clears bits in is that of the register which the uninitialised second
    byte of its buffer names (modulo the number of registers), and the result is
    written to the register asked for.  Only when that byte happens to be the
    address, or the mode is DS3231_REPLACE, is the update what it means to be. *)
Theorem ds3231_setFlag_wrong_register (w : W) stray addr bits mode : ok w -> 0 <= addr < 19 ->
  is_byte stray -> is_byte bits ->
  exists w', ds3231_setFlag stray addr bits mode w = Some (true, w') /\ ok w' /\
    regs w' = <[Z.to_nat addr := flag_value mode bits (reg_at (regs w) (stray mod 19))]> (regs w).
Proof.
  intros Hw Ha Hs Hb. pose proof (regs_bytes w (stray mod 19) Hw) as Ho.
  destruct (point_recv_run w addr [stray] stray [] 1 Hw Ha Hs ltac:(lia)) as (w1 & w2 & E1 & E2 & Hw2 & Er).
  set (v := flag_value mode bits (reg_at (regs w) (stray mod 19))).
  destruct (clock_send_run w2 addr [v] [] Hw2 Ha ltac:(repeat constructor; by apply flag_value_byte)) as (w3 & E3 & Hw3 & Er3).
  exists w3. split; [|split; [done|by rewrite Er3, Er]]. unfold ds3231_setFlag. rewrite (bind_run _ _ _ _ _ E1). cbn [negb].
  rewrite (bind_run _ _ _ _ _ E2). cbn [negb]. rewrite (bind_run _ _ _ _ _ E3). done.
Qed.

(** The temperature is the two registers as the chip documents them: the first is
    the signed integer part, the upper two bits of the second are quarters; the raw
    value lies between -512 and 511, the integer is the floor of the temperature, and
    the float is the temperature exactly. *)
Theorem ds3231_temperature (w : W) stray : ok w ->
  let whole := s8 (reg_at (regs w) 0x11) in
  let quarters := reg_at (regs w) 0x12 / 64 in
  -512 <= 4 * whole + quarters < 512 /\
  (exists w', ds3231_getRawTemp stray w = Some (Some (4 * whole + quarters), w') /\ ok w' /\ regs w' = regs w) /\
  (exists w', ds3231_getTempInteger stray w = Some (Some whole, w') /\ ok w' /\ regs w' = regs w) /\
  (exists w', ds3231_getTempFloat stray w = Some (Some (Qmake (4 * whole + quarters) 4), w') /\ ok w' /\ regs w' = regs w).
Proof.
  intros Hw whole quarters. pose proof (regs_bytes w 0x11 Hw) as H1. pose proof (regs_bytes w 0x12 Hw) as H2.
  destruct (temp_value _ _ H1 H2) as (Hraw & Hint & Hr). fold whole quarters in Hraw, Hint, Hr. split; [exact Hr|].
  assert (E : exists w', ds3231_getRawTemp stray w = Some (Some (4 * whole + quarters), w') /\ ok w' /\ regs w' = regs w).
  { destruct (point_recv_run w DS3231_ADDR_TEMP [stray] DS3231_ADDR_TEMP [stray] 2 Hw
      ltac:(unfold DS3231_ADDR_TEMP; lia) ltac:(unfold DS3231_ADDR_TEMP, is_byte; lia) ltac:(lia))
      as (w1 & w2 & E1 & E2 & Hw2 & Er).
    exists w2. split; [|done]. unfold ds3231_getRawTemp. rewrite (bind_run _ _ _ _ _ E1). cbn [negb].
    rewrite (bind_run _ _ _ _ _ E2). cbn [negb]. rewrite <- Hraw. cbn [read_file].
    change (DS3231_ADDR_TEMP mod 19) with 17. pose proof (regs_length w Hw).
    by rewrite next_ptr_in by lia. }
  split; [exact E|]. destruct E as (w' & E & Hw'). split; exists w'; (split; [|exact Hw']).
  - unfold ds3231_getTempInteger. rewrite (bind_run _ _ _ _ _ E). cbn. by rewrite Hint.
  - unfold ds3231_getTempFloat. by rewrite (bind_run _ _ _ _ _ E).
Qed.
End flags.

(** ** Witnesses, on the bus *)

(** A clock at 12:34:56 on a Thursday, alarm 1 past due, -0.25 degrees. *)
Definition clock_device : regdev :=
  {| rd_addr := DS3231_ADDR;
     rd_regs := [0x56; 0x34; 0x12; 5; 0x14; 7; 0x22; 0; 0; 0; 0; 0; 0; 0; 0x1c; 0x89; 0; 0xff; 0xc0];
     rd_ptr := 3; rd_stretch := 2; rd_phase := Quiet; rd_sampled := None |}.
Definition clock_driver : driver i2c_sim :=
  Driver {| sim_lines := idle clock_device; sim_latch := fun _ => false; sim_input := fun _ => true |} false SCL SDA [].
Lemma clock_address : 0 <= DS3231_ADDR < 128.
Proof. unfold DS3231_ADDR. lia. Qed.
Definition clock_registers : RegisterDevice (driver i2c_sim) DS3231_ADDR 19 :=
  register_device SCL SDA DS3231_ADDR 19 clock_address.
Lemma clock_works : working (RegisterDevice:=clock_registers) clock_driver.
Proof.
  exists clock_device, (idle clock_device, false).
  split_and!; [by left|done|done|done|]. by apply bytes_check.
Qed.

Definition new_time : tm :=
  {| tm_sec := 5; tm_min := 59; tm_hour := 23; tm_mday := 31; tm_mon := 11; tm_year := 124; tm_wday := 2; tm_yday := 365; tm_isdst := 0 |}.
Lemma ds3231_time_roundtrip_witness :
  tm_valid new_time /\
  exists w1 w2, ds3231_setTime new_time clock_driver = Some (true, w1) /\
    ds3231_getTime [] (with_yday 0 new_time) w1 = Some ((true, with_yday 0 new_time), w2) /\
    registers (RegisterDevice:=clock_registers) w2 =
      [0x05; 0x59; 0x23; 3; 0x31; 0x12; 0x24; 0; 0; 0; 0; 0; 0; 0; 0x1c; 0x89; 0; 0xff; 0xc0].
Proof.
  split; [unfold tm_valid; simpl; lia|].
  destruct (@ds3231_time_roundtrip _ _ clock_registers clock_driver new_time [] (with_yday 0 new_time) clock_works) as (w1 & w2 & E1 & E2 & _ & Er).
  { unfold tm_valid; simpl; lia. }
  exists w1, w2. split; [exact E1|]. split; [exact E2|]. rewrite Er. reflexivity.
Defined.

(** With 0 in the uninitialised byte, clearing the oscillator flag of the status
    register 0x89 stores the seconds, 0x56, there: alarm 1 is cleared as well. *)
Lemma ds3231_setFlag_wrong_register_witness :
  exists w', ds3231_clearOscillatorStopFlag 0 clock_driver = Some (true, w') /\
    registers (RegisterDevice:=clock_registers) w' =
      [0x56; 0x34; 0x12; 5; 0x14; 7; 0x22; 0; 0; 0; 0; 0; 0; 0; 0x1c; 0x56; 0; 0xff; 0xc0].
Proof.
  destruct (@ds3231_setFlag_wrong_register _ _ clock_registers clock_driver 0 DS3231_ADDR_STATUS
    DS3231_STAT_OSCILLATOR DS3231_CLEAR clock_works) as (w' & E & _ & Er).
  - unfold DS3231_ADDR_STATUS; lia.
  - unfold is_byte; lia.
  - unfold is_byte, DS3231_STAT_OSCILLATOR; lia.
  - exists w'. split; [exact E|]. rewrite Er. reflexivity.
Defined.

Lemma ds3231_temperature_witness :
  (exists w', ds3231_getRawTemp 0 clock_driver = Some (Some (-1), w')) /\
  (exists w', ds3231_getTempInteger 0 clock_driver = Some (Some (-1), w')).
Proof.
  destruct (@ds3231_temperature _ _ clock_registers clock_driver 0 clock_works)
    as (_ & (w1 & E1 & _) & (w2 & E2 & _) & _).
  split; [by exists w1|by exists w2].
Defined.
