(* ===== verification/Onewire.v ===== *)
(** * The 1-Wire bus master (extras/onewire/onewire.c)

    The GPIO pin, the delays and the critical sections are hardware and
    FreeRTOS code (class [Pin] of [Gpio]).  The bit-banged slots are built on them, the
    bytes on the slots, and the ROM search on both. *)

From S2P Require Import Prelude Gpio.

Local Open Scope Z_scope.

Definition ONEWIRE_SELECT_ROM : Z := 0x55.
Definition ONEWIRE_SKIP_ROM : Z := 0xcc.
Definition ONEWIRE_SEARCH : Z := 0xf0.
Definition ONEWIRE_NONE : Z := 0xffffffffffffffff.

(** ** Slots and bytes *)

Section slots.
Context {E : Type} `{!Pin E} (pin : Z).

Fixpoint wait_for_bus_loop (n : nat) : ST E unit :=
  match n with
  | O => mret ()
  | S n =>
      high ← gpio_read pin;
      if (high : bool) then mret () else
      sdk_os_delay_us 5 ;; wait_for_bus_loop n
  end.
Definition _onewire_wait_for_bus (max_wait : Z) : ST E bool :=
  wait_for_bus_loop (Z.to_nat (Z.quot (max_wait + 4) 5)) ;;
  state ← gpio_read pin;
  sdk_os_delay_us 1 ;;
  mret state.

Definition onewire_reset : ST E bool :=
  gpio_enable pin GPIO_OUT_OPEN_DRAIN ;;
  gpio_write pin true ;;
  ok ← _onewire_wait_for_bus 250;
  if negb ok then mret false else
  gpio_write pin false ;;
  sdk_os_delay_us 480 ;;
  taskENTER_CRITICAL ;;
  gpio_write pin true ;;
  sdk_os_delay_us 70 ;;
  level ← gpio_read pin;
  let r := negb level in
  taskEXIT_CRITICAL ;;
  ok ← _onewire_wait_for_bus 410;
  if negb ok then mret false else mret r.

Definition _onewire_write_bit (v : bool) : ST E bool :=
  ok ← _onewire_wait_for_bus 10;
  if negb ok then mret false else
  (if v then
     taskENTER_CRITICAL ;;
     gpio_write pin false ;;
     sdk_os_delay_us 10 ;;
     gpio_write pin true ;;
     taskEXIT_CRITICAL ;;
     sdk_os_delay_us 55
   else
     taskENTER_CRITICAL ;;
     gpio_write pin false ;;
     sdk_os_delay_us 65 ;;
     gpio_write pin true ;;
     taskEXIT_CRITICAL) ;;
  sdk_os_delay_us 1 ;;
  mret true.

Definition _onewire_read_bit : ST E Z :=
  ok ← _onewire_wait_for_bus 10;
  if negb ok then mret (-1) else
  taskENTER_CRITICAL ;;
  gpio_write pin false ;;
  sdk_os_delay_us 2 ;;
  gpio_write pin true ;;
  sdk_os_delay_us 11 ;;
  r ← gpio_read pin;
  taskEXIT_CRITICAL ;;
  sdk_os_delay_us 48 ;;
  mret (Z.b2z r).

(** [for (bitMask = 0x01; bitMask; bitMask <<= 1)] on a [uint8_t]. *)
Fixpoint onewire_write_loop (fuel : nat) (bitMask v : Z) : ST E bool :=
  match fuel with
  | O => out_of_fuel
  | S fuel =>
      if bitMask =? 0 then mret true else
      ok ← _onewire_write_bit (negb (Z.land bitMask v =? 0));
      if negb ok then mret false else
      onewire_write_loop fuel (u8 (Z.shiftl bitMask 1)) v
  end.
Definition onewire_write (v : Z) : ST E bool := onewire_write_loop 9 0x01 v.

(** The loop over the bytes of [buf]. *)
Fixpoint onewire_write_bytes (buf : list Z) : ST E bool :=
  match buf with
  | [] => mret true
  | b :: buf =>
      ok ← onewire_write b;
      if negb ok then mret false else onewire_write_bytes buf
  end.

Fixpoint onewire_read_loop (fuel : nat) (bitMask r : Z) : ST E Z :=
  match fuel with
  | O => out_of_fuel
  | S fuel =>
      if bitMask =? 0 then mret r else
      bit ← _onewire_read_bit;
      if bit <? 0 then mret (-1) else
      onewire_read_loop fuel (u8 (Z.shiftl bitMask 1)) (if bit =? 0 then r else Z.lor r bitMask)
  end.
Definition onewire_read : ST E Z := onewire_read_loop 9 0x01 0.

(** The result and the bytes stored so far. *)
Fixpoint onewire_read_bytes (count : nat) : ST E (bool * list Z) :=
  match count with
  | O => mret (true, [])
  | S count =>
      b ← onewire_read;
      if b <? 0 then mret (false, []) else
      '(ok, bs) ← onewire_read_bytes count;
      mret (ok, u8 b :: bs)
  end.

Fixpoint onewire_select_loop (n : nat) (addr : Z) : ST E bool :=
  match n with
  | O => mret true
  | S n =>
      ok ← onewire_write (Z.land addr 0xff);
      if negb ok then mret false else onewire_select_loop n (Z.shiftr addr 8)
  end.
Definition onewire_select (addr : Z) : ST E bool :=
  ok ← onewire_write ONEWIRE_SELECT_ROM;
  if negb ok then mret false else onewire_select_loop 8 addr.

Definition onewire_skip_rom : ST E bool := onewire_write ONEWIRE_SKIP_ROM.

Definition onewire_power : ST E bool :=
  ok ← _onewire_wait_for_bus 10;
  if negb ok then mret false else
  gpio_enable pin GPIO_OUTPUT ;;
  gpio_write pin true ;;
  mret true.

Definition onewire_depower : ST E unit := gpio_enable pin GPIO_OUT_OPEN_DRAIN.
End slots.

(** ** The ROM search *)

Record onewire_search_t := Search {
  rom_no : list Z; last_discrepancy : Z; last_device_found : bool }.

Definition onewire_search_start : onewire_search_t := Search (replicate 8 0) 0 false.

Definition onewire_search_prefix (family_code : Z) : onewire_search_t :=
  Search (u8 family_code :: replicate 7 0) 64 false.

(** The local variables of the loop. *)
Record search_vars := Vars {
  id_bit_number : Z; last_zero : Z; rom_byte_number : Z; rom_byte_mask : Z; sv_rom : list Z }.

Definition rom_get (rom : list Z) (n : Z) : Z := nth (Z.to_nat n) rom 0.
Definition rom_set (rom : list Z) (n v : Z) : list Z := <[Z.to_nat n := u8 v]> rom.

(** The direction taken at a bit that reads [id_bit] and [cmp_id_bit], with
    the new [last_zero]. *)
Definition search_choice (last_discrepancy : Z) (s : search_vars) (id_bit cmp_id_bit : Z) : bool * Z :=
  if negb (id_bit =? cmp_id_bit) then (negb (id_bit =? 0), last_zero s)
  else
    let dir :=
      if id_bit_number s <? last_discrepancy
      then 0 <? Z.land (rom_get (sv_rom s) (rom_byte_number s)) (rom_byte_mask s)
      else id_bit_number s =? last_discrepancy in
    (dir, if dir then last_zero s else id_bit_number s).

(** Storing the direction and moving on to the next bit. *)
Definition search_advance (dir : bool) (lz : Z) (s : search_vars) : search_vars :=
  let b := rom_get (sv_rom s) (rom_byte_number s) in
  let rom := rom_set (sv_rom s) (rom_byte_number s)
    (if dir then Z.lor b (rom_byte_mask s) else Z.land b (Z.lnot (rom_byte_mask s))) in
  let mask := u8 (Z.shiftl (rom_byte_mask s) 1) in
  if mask =? 0
  then Vars (u8 (id_bit_number s + 1)) lz (rom_byte_number s + 1) 1 rom
  else Vars (u8 (id_bit_number s + 1)) lz (rom_byte_number s) mask rom.

Section search.
Context {E : Type} `{!Pin E} (pin : Z).

(** [id_bit] and [cmp_id_bit] are [uint8_t]: a failed read is 255. *)
Fixpoint search_loop (fuel : nat) (last_discrepancy : Z) (s : search_vars) : ST E search_vars :=
  match fuel with
  | O => out_of_fuel
  | S fuel =>
      r ← _onewire_read_bit pin;
      let id_bit := u8 r in
      r ← _onewire_read_bit pin;
      let cmp_id_bit := u8 r in
      if (id_bit <? 0) || (cmp_id_bit <? 0) then mret s
      else if (id_bit =? 1) && (cmp_id_bit =? 1) then mret s
      else
        let '(dir, lz) := search_choice last_discrepancy s id_bit cmp_id_bit in
        _onewire_write_bit pin dir ;;
        let s := search_advance dir lz s in
        if rom_byte_number s <? 8 then search_loop fuel last_discrepancy s else mret s
  end.

(** The bytes of [rom_no], the last one first. *)
Fixpoint rom_addr (n : nat) (rom : list Z) (addr : Z) : Z :=
  match n with
  | O => addr
  | S n => rom_addr n rom
      (Z.lor (Z.shiftl addr 8 mod 2 ^ 64) (rom_get rom (Z.of_nat n)))
  end.

(** The end of [onewire_search_next]: the address, or none. *)
Definition search_finish (found : bool) (search : onewire_search_t) : Z * onewire_search_t :=
  if negb found || (rom_get (rom_no search) 0 =? 0)
  then (ONEWIRE_NONE, Search (rom_no search) 0 false)
  else (rom_addr 8 (rom_no search) 0, search).

Definition onewire_search_next (search : onewire_search_t) : ST E (Z * onewire_search_t) :=
  if last_device_found search then mret (search_finish false search) else
  present ← onewire_reset pin;
  if negb present then mret (ONEWIRE_NONE, Search (rom_no search) 0 false) else
  onewire_write pin ONEWIRE_SEARCH ;;
  s ← search_loop 65 (last_discrepancy search) (Vars 1 0 0 1 (rom_no search));
  let search := Search (sv_rom s) (last_discrepancy search) (last_device_found search) in
  if negb (id_bit_number s <? 65)
  then mret (search_finish true
         (Search (sv_rom s) (last_zero s) (if last_zero s =? 0 then true else last_device_found search)))
  else mret (search_finish false search).
End search.

(** ** Checksums *)

(** The compile-time alternatives of [onewire_crc8]: bit by bit, and with the
    table. *)
Fixpoint crc8_bits (n : nat) (crc inbyte : Z) : Z :=
  match n with
  | O => crc
  | S n =>
      let mix := Z.land (Z.lxor crc inbyte) 0x01 in
      let crc := Z.shiftr crc 1 in
      let crc := if mix =? 0 then crc else Z.lxor crc 0x8C in
      crc8_bits n crc (Z.shiftr inbyte 1)
  end.
Definition onewire_crc8 (data : list Z) : Z :=
  fold_left (fun crc inbyte => crc8_bits 8 crc inbyte) data 0.

Definition dscrc_table : list Z := [
      0; 94;188;226; 97; 63;221;131;194;156;126; 32;163;253; 31; 65;
    157;195; 33;127;252;162; 64; 30; 95;  1;227;189; 62; 96;130;220;
     35;125;159;193; 66; 28;254;160;225;191; 93;  3;128;222; 60; 98;
    190;224;  2; 92;223;129; 99; 61;124; 34;192;158; 29; 67;161;255;
     70; 24;250;164; 39;121;155;197;132;218; 56;102;229;187; 89;  7;
    219;133;103; 57;186;228;  6; 88; 25; 71;165;251;120; 38;196;154;
    101; 59;217;135;  4; 90;184;230;167;249; 27; 69;198;152;122; 36;
    248;166; 68; 26;153;199; 37;123; 58;100;134;216; 91;  5;231;185;
    140;210; 48;110;237;179; 81; 15; 78; 16;242;172; 47;113;147;205;
     17; 79;173;243;112; 46;204;146;211;141;111; 49;178;236; 14; 80;
    175;241; 19; 77;206;144;114; 44;109; 51;209;143; 12; 82;176;238;
     50;108;142;208; 83; 13;239;177;240;174; 76; 18;145;207; 45;115;
    202;148;118; 40;171;245; 23; 73;  8; 86;180;234;105; 55;213;139;
     87;  9;235;181; 54;104;138;212;149;203; 41;119;244;170; 72; 22;
    233;183; 85; 11;136;214; 52;106; 43;117;151;201; 74; 20;246;168;
    116; 42;200;150; 21; 75;169;247;182;232; 10; 84;215;137;107; 53].
Definition onewire_crc8_table (data : list Z) : Z :=
  fold_left (fun crc b => nth (Z.to_nat (Z.lxor crc b)) dscrc_table 0) data 0.

Definition oddparity : list Z := [0; 1; 1; 0; 1; 0; 0; 1; 1; 0; 0; 1; 0; 1; 1; 0].

Definition crc16_step (crc b : Z) : Z :=
  let cdata := Z.land (Z.lxor b crc) 0xff in
  let crc := Z.shiftr crc 8 in
  let odd := Z.lxor (nth (Z.to_nat (Z.land cdata 0x0F)) oddparity 0)
                    (nth (Z.to_nat (Z.shiftr cdata 4)) oddparity 0) in
  let crc := if odd =? 0 then crc else Z.lxor crc 0xC001 in
  let cdata := u16 (Z.shiftl cdata 6) in
  let crc := Z.lxor crc cdata in
  let cdata := u16 (Z.shiftl cdata 1) in
  Z.lxor crc cdata.
(** The index is a [uint16_t]: the loop ends for at most 65535 bytes. *)
Definition onewire_crc16 (input : list Z) (crc_iv : Z) : Z := fold_left crc16_step input crc_iv.

Definition onewire_check_crc16 (input : list Z) (inverted_crc : Z * Z) (crc_iv : Z) : bool :=
  let crc := u16 (Z.lnot (onewire_crc16 input crc_iv)) in
  (Z.land crc 0xFF =? inverted_crc.1) && (Z.shiftr crc 8 =? inverted_crc.2).
