(* ===== verification/OnewireSearch.v ===== *)
(** * The 1-Wire ROM search enumerates the devices

    The search as a walk in the tree of the ROM codes: [dfs] is one call of
    [onewire_search_next] on the set of devices, [enum] the devices in the
    order of the tree, and each call finds the successor of the last one.
    Then the loop of the code is shown to run [dfs] on a bus that follows the
    1-Wire protocol (class [Bus]). *)

From S2P Require Import Prelude Gpio Onewire.

Local Open Scope Z_scope.

(** ** The tree of ROM codes *)

(** The codes, or what is left of them, that go on with the bit [b]. *)
Definition sub (b : bool) (act : list (list bool)) : list (list bool) :=
  omap (fun s => match s with c :: s => if Bool.eqb c b then Some s else None | [] => None end) act.

Definition head_bit (s : list bool) : bool := match s with b :: _ => b | [] => false end.
Definition has1 (act : list (list bool)) : bool := existsb head_bit act.
Definition has0 (act : list (list bool)) : bool := existsb (fun s => negb (head_bit s)) act.
Definition mixed (act : list (list bool)) : bool := has0 act && has1 act.

(** One search: the path taken and the last position where 0 was chosen. *)
Fixpoint dfs (n : nat) (act : list (list bool)) (prev : list bool) (L pos lz : Z) : list bool * Z :=
  match n with
  | O => ([], lz)
  | S n =>
      let dir := if mixed act then (if pos <? L then head_bit prev else pos =? L) else has1 act in
      let lz := if mixed act && negb dir then pos else lz in
      let (p, z) := dfs n (sub dir act) (tail prev) L (pos + 1) lz in
      (dir :: p, z)
  end.

(** The codes in the order of the tree. *)
Fixpoint enum (n : nat) (act : list (list bool)) : list (list bool) :=
  match n with
  | O => [[]]
  | S n => (if has0 act then map (cons false) (enum n (sub false act)) else []) ++
           (if has1 act then map (cons true) (enum n (sub true act)) else [])
  end.

(** The last position on the path [r] where 0 was chosen, 0 for none. *)
Fixpoint lzo (n : nat) (act : list (list bool)) (r : list bool) (pos : Z) : Z :=
  match n, r with
  | S n, b :: r =>
      let z := lzo n (sub b act) r (pos + 1) in
      if z =? 0 then (if mixed act && negb b then pos else 0) else z
  | _, _ => 0
  end.

Definition codes (n : nat) (act : list (list bool)) : Prop := Forall (fun s => length s = n) act.

Section tree.
Lemma elem_sub b s act : s ∈ sub b act <-> (b :: s) ∈ act.
Proof.
  unfold sub. rewrite list_elem_of_omap. split.
  - intros ([|c l] & Hx & E); [done|]. destruct (Bool.eqb_spec c b); [|done]. by simplify_eq.
  - intros H. exists (b :: s). split; [done|]. by rewrite Bool.eqb_reflx.
Qed.

Lemma sub_codes n b act : codes (S n) act -> codes n (sub b act).
Proof.
  unfold codes. rewrite !Forall_forall. intros H s Hs. apply elem_sub, H in Hs. simpl in Hs. lia.
Qed.

Lemma has1_spec n act : codes (S n) act -> has1 act = true <-> exists s, (true :: s) ∈ act.
Proof.
  unfold has1, codes. rewrite Forall_forall, existsb_exists. intros H. split.
  - intros (x & Hx & Hh). apply list_elem_of_In in Hx. specialize (H _ Hx).
    destruct x as [|b s]; [done|]. simpl in Hh. subst b. by exists s.
  - intros (s & Hs). exists (true :: s). split; [by apply list_elem_of_In|done].
Qed.
Lemma has0_spec n act : codes (S n) act -> has0 act = true <-> exists s, (false :: s) ∈ act.
Proof.
  unfold has0, codes. rewrite Forall_forall, existsb_exists. intros H. split.
  - intros (x & Hx & Hh). apply list_elem_of_In in Hx. specialize (H _ Hx).
    destruct x as [|b s]; [done|]. simpl in Hh. destruct b; [done|]. by exists s.
  - intros (s & Hs). exists (false :: s). split; [by apply list_elem_of_In|done].
Qed.

Lemma has_some n act : codes (S n) act -> act <> [] -> has0 act = true \/ has1 act = true.
Proof.
  intros Hc Hne. destruct act as [|x act]; [done|]. unfold has0, has1. simpl.
  destruct (head_bit x); [right|left]; done.
Qed.

Lemma sub_nonempty n (b : bool) act :
  codes (S n) act -> (if b then has1 act else has0 act) = true -> sub b act <> [].
Proof.
  intros Hc Hb E. assert (H : exists s, (b :: s) ∈ act).
  { destruct b; [by apply (has1_spec n)|by apply (has0_spec n)]. }
  destruct H as (s & Hs). apply elem_sub in Hs. rewrite E in Hs. by apply elem_of_nil in Hs.
Qed.

Lemma enum_elem n act r : codes n act -> act <> [] -> r ∈ enum n act <-> r ∈ act.
Proof.
  revert act r. induction n as [|n IH]; intros act r Hc Hne.
  - simpl. rewrite list_elem_of_singleton. unfold codes in Hc. rewrite Forall_forall in Hc. split.
    + intros ->. destruct act as [|x act]; [done|].
      assert (x = []) as -> by (apply nil_length_inv, Hc; left). left.
    + intros Hr. by apply nil_length_inv, Hc.
  - cbn [enum]. rewrite elem_of_app.
    assert (Hb : forall b : bool, r ∈ (if (if b then has1 act else has0 act)
      then map (cons b) (enum n (sub b act)) else []) <-> exists s, r = b :: s /\ r ∈ act).
    { intros b. destruct (if b then has1 act else has0 act) eqn:Eb.
      - rewrite list_elem_of_In, in_map_iff. split.
        + intros (s & <- & Hs). apply list_elem_of_In in Hs.
          rewrite IH in Hs by (by apply sub_codes || by apply (sub_nonempty n)). exists s. split; [done|]. by apply elem_sub.
        + intros (s & -> & Hs). exists s. split; [done|]. apply list_elem_of_In.
          rewrite IH by (by apply sub_codes || by apply (sub_nonempty n)). by apply elem_sub.
      - split; [intros H; by apply elem_of_nil in H|]. intros (s & -> & Hs).
        assert (E : (if b then has1 act else has0 act) = true).
        { destruct b; [apply (has1_spec n)|apply (has0_spec n)]; try done; by exists s. }
        by rewrite E in Eb. }
    rewrite (Hb false), (Hb true). split; [intros [(s & _ & H)|(s & _ & H)]; done|].
    intros Hr. unfold codes in Hc. rewrite Forall_forall in Hc. specialize (Hc r Hr).
    destruct r as [|[|] s]; [done|right|left]; by exists s.
Qed.

Lemma enum_NoDup n act : NoDup (enum n act).
Proof.
  revert act. induction n as [|n IH]; intros act; cbn [enum]; [apply NoDup_singleton|].
  assert (Hm : forall b : bool, NoDup (map (cons b) (enum n (sub b act)))).
  { intros b. apply (NoDup_fmap_2 (cons b)). apply IH. }
  apply NoDup_app. split; [destruct (has0 act); [apply Hm|constructor]|].
  split; [|destruct (has1 act); [apply Hm|constructor]].
  intros x H0 H1. destruct (has0 act), (has1 act); try (by apply elem_of_nil in H0);
    try (by apply elem_of_nil in H1).
  apply list_elem_of_In, in_map_iff in H0 as (? & <- & _).
  apply list_elem_of_In, in_map_iff in H1 as (? & E & _). done.
Qed.

(** ** One search finds the successor *)

Lemma lzo_range n act r pos : 0 < pos -> lzo n act r pos = 0 \/ pos <= lzo n act r pos.
Proof.
  revert act r pos. induction n as [|n IH]; intros act r pos Hp; [by left|].
  destruct r as [|b r]; [by left|]. cbn [lzo].
  destruct (IH (sub b act) r (pos + 1) ltac:(lia)) as [E|E].
  - rewrite E. simpl. destruct (mixed act && negb b); [right; lia|by left].
  - destruct (Z.eqb_spec (lzo n (sub b act) r (pos + 1)) 0); [lia|]. right. lia.
Qed.

Lemma dfs_lz n act prev L pos lz : 0 < pos ->
  (dfs n act prev L pos lz).2 =
    (let z := lzo n act (dfs n act prev L pos lz).1 pos in if z =? 0 then lz else z).
Proof.
  revert act prev pos lz. induction n as [|n IH]; intros act prev pos lz Hp; [done|].
  cbn [dfs]. set (dir := if mixed act then _ else _).
  specialize (IH (sub dir act) (tail prev) (pos + 1) (if mixed act && negb dir then pos else lz) ltac:(lia)).
  destruct (dfs n _ _ _ _ _) as [p z] eqn:Ed. cbn [fst snd lzo] in *. rewrite IH. cbv zeta.
  destruct (Z.eqb_spec (lzo n (sub dir act) p (pos + 1)) 0) as [E|E].
  - destruct (mixed act && negb dir); [|done]. by destruct (Z.eqb_spec pos 0); [lia|].
  - by destruct (Z.eqb_spec (lzo n (sub dir act) p (pos + 1)) 0).
Qed.

Lemma dfs_length n act prev L pos lz : length (dfs n act prev L pos lz).1 = n.
Proof.
  revert act prev pos lz. induction n as [|n IH]; intros act prev pos lz; [done|]. cbn [dfs].
  set (dir := if mixed act then _ else _).
  specialize (IH (sub dir act) (tail prev) (pos + 1) (if mixed act && negb dir then pos else lz)).
  destruct (dfs n _ _ _ _ _). simpl in *. lia.
Qed.

(** A fresh search takes the first code. *)
Lemma dfs_first n act prev L pos lz :
  L < pos -> codes n act -> act <> [] ->
  exists l, enum n act = (dfs n act prev L pos lz).1 :: l.
Proof.
  revert act prev pos lz. induction n as [|n IH]; intros act prev pos lz HL Hc Hne; [by exists []|].
  cbn [dfs enum]. rewrite (proj2 (Z.ltb_ge pos L)), (proj2 (Z.eqb_neq pos L)) by lia.
  pose proof (has_some n act Hc Hne) as Hsome. unfold mixed.
  destruct (has0 act) eqn:E0; cbn [andb].
  - assert (Ed : (if has1 act then false else has1 act) = false) by (by destruct (has1 act)).
    rewrite Ed.
    destruct (IH (sub false act) (tail prev) (pos + 1) (if has1 act && negb false then pos else lz)) as (l & El);
      [lia|by apply sub_codes|by apply (sub_nonempty n)|].
    destruct (dfs n _ _ _ _ _) as [p z]. simpl in El |- *. rewrite El. simpl. by eexists.
  - destruct Hsome as [|E1]; [done|]. rewrite E1. cbn [app].
    destruct (IH (sub true act) (tail prev) (pos + 1) lz) as (l & El);
      [lia|by apply sub_codes|by apply (sub_nonempty n)|].
    destruct (dfs n _ _ _ _ _) as [p z]. simpl in El |- *. rewrite El. simpl. by eexists.
Qed.

(** No 0 was chosen on the path of the last code only. *)
Lemma lzo_last n act r pos :
  0 < pos -> codes n act -> r ∈ act -> lzo n act r pos = 0 -> exists l, enum n act = l ++ [r].
Proof.
  revert act r pos. induction n as [|n IH]; intros act r pos Hp Hc Hr Hz.
  { unfold codes in Hc. rewrite Forall_forall in Hc.
    assert (r = []) as -> by (by apply nil_length_inv, Hc). by exists []. }
  pose proof Hc as Hc'. unfold codes in Hc'. rewrite Forall_forall in Hc'.
  destruct r as [|b r]; [by specialize (Hc' _ Hr)|]. cbn [lzo] in Hz. clear Hc'.
  destruct (lzo_range n (sub b act) r (pos + 1) ltac:(lia)) as [E|E].
  2:{ destruct (Z.eqb_spec (lzo n (sub b act) r (pos + 1)) 0); lia. }
  rewrite E in Hz. simpl in Hz.
  destruct (IH (sub b act) r (pos + 1)) as (l & El); [lia|by apply sub_codes|by apply elem_sub|done|].
  cbn [enum]. destruct b.
  - assert (E1 : has1 act = true) by (apply (has1_spec n); [done|by exists r]).
    rewrite E1, El, map_app. eexists. rewrite app_assoc. reflexivity.
  - assert (E0 : has0 act = true) by (apply (has0_spec n); [done|by exists r]).
    unfold mixed in Hz. rewrite E0 in *. simpl in Hz.
    destruct (has1 act); [simpl in Hz; lia|]. rewrite El, map_app, app_nil_r. by eexists.
Qed.

(** A search after the code [r] takes the next one. *)
Lemma dfs_next n act r pos lz :
  0 < pos -> codes n act -> r ∈ act -> lzo n act r pos <> 0 ->
  exists l1 l2, enum n act = l1 ++ r :: (dfs n act r (lzo n act r pos) pos lz).1 :: l2.
Proof.
  revert act r pos lz. induction n as [|n IH]; intros act r pos lz Hp Hc Hr Hz; [done|].
  pose proof Hc as Hc'. unfold codes in Hc'. rewrite Forall_forall in Hc'.
  destruct r as [|b r]; [by specialize (Hc' _ Hr)|]. clear Hc'.
  cbn [lzo] in Hz |- *. cbn [dfs enum head_bit tail].
  set (z := lzo n (sub b act) r (pos + 1)) in *.
  assert (Hsub : r ∈ sub b act) by (by apply elem_sub).
  assert (Hcs : forall b : bool, codes n (sub b act)) by (intros; by apply sub_codes).
  assert (Hrec : forall lz', z <> 0 -> exists l1 l2,
    enum n (sub b act) = l1 ++ r :: (dfs n (sub b act) r z (pos + 1) lz').1 :: l2).
  { intros lz' Hz'. apply IH; [lia|done|done|done]. }
  assert (Hb : (if b then has1 act else has0 act) = true).
  { destruct b; [apply (has1_spec n)|apply (has0_spec n)]; try done; by exists r. }
  destruct (Z.eqb_spec z 0) as [Ez|Ez].
  - (* the last 0 is here: take 1, then the first code *)
    destruct (mixed act) eqn:Em; [|done]. destruct b; [done|]. cbn [andb negb] in *.
    rewrite Z.ltb_irrefl, Z.eqb_refl. cbn [negb].
    unfold mixed in Em. apply andb_prop in Em as [E0 E1]. rewrite E0, E1.
    destruct (lzo_last n (sub false act) r (pos + 1)) as (l & El); [lia|done|done|done|].
    destruct (dfs_first n (sub true act) r pos (pos + 1) lz) as (l' & El');
      [lia|done|by apply (sub_nonempty n)|].
    destruct (dfs n (sub true act) r pos (pos + 1) lz) as [p q]. simpl in El'.
    rewrite El, El', map_app, <- app_assoc. simpl. by eexists _, _.
  - destruct (lzo_range n (sub b act) r (pos + 1) ltac:(lia)) as [|Hge]; [done|]. fold z in Hge.
    rewrite (proj2 (Z.ltb_lt pos z)) by lia.
    assert (Ed : (if mixed act then b else has1 act) = b).
    { unfold mixed. destruct b; [rewrite Hb; by destruct (has0 act)|].
      rewrite Hb. by destruct (has1 act). }
    rewrite Ed. destruct (Hrec (if mixed act && negb b then pos else lz) Ez) as (l1 & l2 & El).
    destruct (dfs n (sub b act) r z (pos + 1) _) as [p q]. simpl in El |- *. destruct b.
    + rewrite Hb, El, map_app. simpl. rewrite app_assoc. by eexists _, _.
    + rewrite Hb, El, map_app, <- app_assoc. simpl. by eexists _, _.
Qed.
End tree.

(** ** The bits of [rom_no] and of an address *)

Definition rom_bit (rom : list Z) (i : nat) : bool :=
  Z.testbit (nth (i / 8) rom 0) (Z.of_nat (i mod 8)).
Definition rom_bits (rom : list Z) : list bool := map (rom_bit rom) (seq 0 64).
Definition addr_bits (a : Z) : list bool := map (fun i => Z.testbit a (Z.of_nat i)) (seq 0 64).

(** The variables at the bit [i]. *)
Definition vars_at (i : nat) (lz : Z) (rom : list Z) : search_vars :=
  Vars (Z.of_nat i + 1) lz (Z.of_nat (i / 8)) (2 ^ Z.of_nat (i mod 8)) rom.

Section bits.
Lemma land_pow2 b k : 0 <= k -> (0 <? Z.land b (2 ^ k)) = Z.testbit b k.
Proof.
  intros Hk. assert (E : Z.land b (2 ^ k) = if Z.testbit b k then 2 ^ k else 0).
  { apply Z.bits_inj'. intros j Hj. rewrite Z.land_spec, Z.pow2_bits_eqb by done.
    destruct (Z.eqb_spec k j) as [->|Hne].
    - rewrite andb_true_r. destruct (Z.testbit b j); [by rewrite Z.pow2_bits_true|by rewrite Z.bits_0].
    - rewrite andb_false_r. destruct (Z.testbit b k); [by rewrite Z.pow2_bits_false|by rewrite Z.bits_0]. }
  rewrite E. destruct (Z.testbit b k); [|done]. apply Z.ltb_lt. by apply Z.pow_pos_nonneg.
Qed.

Lemma u8_testbit x j : 0 <= j < 8 -> Z.testbit (u8 x) j = Z.testbit x j.
Proof. intros Hj. unfold u8. by rewrite Z.mod_pow2_bits_low by lia. Qed.

Lemma add_lor_shift x b : 0 <= b < 256 -> Z.shiftl x 8 + b = Z.lor (Z.shiftl x 8) b.
Proof.
  intros Hb. rewrite <- Z.add_lor_land. assert (E : Z.land (Z.shiftl x 8) b = 0); [|lia].
  apply Z.bits_inj'. intros j Hj. rewrite Z.land_spec, Z.bits_0.
  destruct (Z.lt_ge_cases j 8).
  - by rewrite Z.shiftl_spec_low.
  - rewrite <- (Z.mod_small b (2 ^ 8)) by lia. rewrite Z.mod_pow2_bits_high by lia.
    apply andb_false_r.
Qed.

(** Storing the direction changes the bit [i] only. *)
Lemma rom_bit_set rom i j (dir : bool) :
  length rom = 8%nat -> (i < 64)%nat -> (j < 64)%nat ->
  let b := nth (i / 8) rom 0 in let mask := 2 ^ Z.of_nat (i mod 8) in
  rom_bit (rom_set rom (Z.of_nat (i / 8)) (if dir then Z.lor b mask else Z.land b (Z.lnot mask))) j =
    if decide (j = i) then dir else rom_bit rom j.
Proof.
  intros Hl Hi Hj b mask. unfold rom_bit, rom_set. rewrite Nat2Z.id.
  pose proof (Nat.div_mod_eq i 8) as Ei. pose proof (Nat.div_mod_eq j 8) as Ej.
  pose proof (Nat.mod_upper_bound i 8 ltac:(lia)). pose proof (Nat.mod_upper_bound j 8 ltac:(lia)).
  rewrite !nth_lookup. destruct (decide (j / 8 = i / 8)%nat) as [E|E].
  - rewrite E, list_lookup_insert_eq by lia.
    change (from_option id 0 (Some ?x)) with x. rewrite u8_testbit by lia.
    destruct (decide (j = i)) as [->|Hne].
    + destruct dir.
      * rewrite Z.lor_spec. unfold mask. rewrite Z.pow2_bits_true by lia. by rewrite orb_true_r.
      * rewrite Z.land_spec, Z.lnot_spec by lia. unfold mask. rewrite Z.pow2_bits_true by lia.
        by rewrite andb_false_r.
    + assert (j mod 8 <> i mod 8)%nat by lia. unfold b. rewrite nth_lookup.
      destruct dir.
      * rewrite Z.lor_spec. unfold mask. rewrite Z.pow2_bits_false by lia. by rewrite orb_false_r.
      * rewrite Z.land_spec, Z.lnot_spec by lia. unfold mask. rewrite Z.pow2_bits_false by lia.
        by rewrite andb_true_r.
  - rewrite list_lookup_insert_ne by lia. rewrite decide_False by (intros ->; lia). done.
Qed.

Lemma rom_bits_lookup rom i : (i < 64)%nat -> rom_bits rom !! i = Some (rom_bit rom i).
Proof.
  intros Hi. unfold rom_bits. change (map ?f ?l) with (f <$> l).
  rewrite list_lookup_fmap, lookup_seq_lt by done. done.
Qed.
Lemma length_rom_bits rom : length (rom_bits rom) = 64%nat.
Proof. unfold rom_bits. by rewrite length_map, length_seq. Qed.
Lemma length_addr_bits a : length (addr_bits a) = 64%nat.
Proof. unfold addr_bits. by rewrite length_map, length_seq. Qed.

Lemma rom_bits_set rom i (dir : bool) :
  length rom = 8%nat -> (i < 64)%nat ->
  let b := nth (i / 8) rom 0 in let mask := 2 ^ Z.of_nat (i mod 8) in
  rom_bits (rom_set rom (Z.of_nat (i / 8)) (if dir then Z.lor b mask else Z.land b (Z.lnot mask))) =
    <[i := dir]> (rom_bits rom).
Proof.
  intros Hl Hi b mask. apply list_eq. intros j. destruct (decide (j < 64)%nat) as [Hj|Hj].
  - rewrite rom_bits_lookup by done. unfold b, mask. rewrite rom_bit_set by done.
    destruct (decide (j = i)) as [->|Hne].
    + by rewrite list_lookup_insert_eq by (by rewrite length_rom_bits).
    + rewrite list_lookup_insert_ne by done. by rewrite rom_bits_lookup.
  - rewrite !lookup_ge_None_2; [done| |]; rewrite ?length_insert, length_rom_bits; lia.
Qed.

Lemma advance_at i lz lz' rom dir :
  length rom = 8%nat -> (i < 64)%nat ->
  exists rom', search_advance dir lz' (vars_at i lz rom) = vars_at (S i) lz' rom' /\
    length rom' = 8%nat /\ rom_bits rom' = <[i := dir]> (rom_bits rom) /\
    (Forall is_byte rom -> Forall is_byte rom').
Proof.
  intros Hl Hi. unfold search_advance, vars_at, rom_get.
  cbn [id_bit_number last_zero rom_byte_number rom_byte_mask sv_rom]. rewrite Nat2Z.id.
  eexists. split; [|split; [|split; [exact (rom_bits_set rom i dir Hl Hi)|]]].
  2:{ unfold rom_set. by rewrite length_insert. }
  2:{ intros Hb. apply Forall_insert; [done|]. unfold is_byte. apply u8_range. }
  pose proof (Nat.div_mod_eq i 8). pose proof (Nat.mod_upper_bound i 8 ltac:(lia)).
  rewrite Z.shiftl_mul_pow2 by lia. rewrite <- Z.pow_add_r by lia.
  rewrite (u8_small (Z.of_nat i + 1 + 1)) by lia.
  destruct (decide (i mod 8 = 7)%nat) as [E|E].
  - assert (Hd : (S i / 8 = S (i / 8))%nat) by (symmetry; apply Nat.div_unique with 0%nat; lia).
    assert (Hm : (S i mod 8 = 0)%nat) by (symmetry; apply Nat.mod_unique with (S (i / 8)); lia).
    rewrite Hd, Hm, E. change (u8 (2 ^ (Z.of_nat 7 + 1))) with 0. simpl Z.eqb. cbv iota.
    f_equal; lia.
  - assert (Hd : (S i / 8 = i / 8)%nat) by (symmetry; apply Nat.div_unique with (S (i mod 8)); lia).
    assert (Hm : (S i mod 8 = S (i mod 8))%nat) by (symmetry; apply Nat.mod_unique with (i / 8)%nat; lia).
    rewrite Hd, Hm.
    assert (Hb : 1 < 2 ^ (Z.of_nat (i mod 8) + 1) < 2 ^ 8).
    { split; [apply Z.pow_gt_1; lia|apply Z.pow_lt_mono_r; lia]. }
    rewrite (u8_small (2 ^ (Z.of_nat (i mod 8) + 1))) by lia.
    destruct (Z.eqb_spec (2 ^ (Z.of_nat (i mod 8) + 1)) 0); [lia|]. f_equal; [lia|f_equal; lia].
Qed.

(** The address is the value of the bytes. *)
Lemma rom_addr_val rom :
  length rom = 8%nat -> Forall is_byte rom -> rom_addr 8 rom 0 = le_val rom.
Proof.
  intros Hl Hb. pose proof (le_val_range rom Hb) as Hr.
  assert (Hstep : forall n acc, (n <= 8)%nat -> acc = le_val (drop n rom) ->
    rom_addr n rom acc = le_val rom).
  { induction n as [|n IH]; intros acc Hn ->; [by rewrite drop_0|]. cbn [rom_addr].
    apply IH; [lia|]. unfold rom_get. rewrite Nat2Z.id.
    destruct (lookup_lt_is_Some_2 rom n ltac:(lia)) as (b & Eb).
    rewrite (drop_S _ b n Eb). cbn [le_val]. rewrite (nth_lookup_Some _ _ _ _ Eb).
    assert (Hbyte : is_byte b) by (eapply Forall_lookup_1; eauto). unfold is_byte in Hbyte.
    pose proof (le_val_range (drop (S n) rom) (Forall_drop _ _ _ Hb)) as Hd.
    rewrite length_drop, Hl in Hd.
    assert (Hp : 2 ^ (8 * Z.of_nat (8 - S n)) <= 2 ^ 56) by (apply Z.pow_le_mono_r; lia).
    rewrite Z.shiftl_mul_pow2 by lia. rewrite Z.mod_small by lia.
    rewrite <- (Z.shiftl_mul_pow2 _ 8) by lia. rewrite <- add_lor_shift by lia.
    rewrite Z.shiftl_mul_pow2 by lia. lia. }
  apply Hstep; [lia|]. rewrite drop_ge by lia. done.
Qed.
End bits.

(** ** A bus that follows the protocol

    The devices are their ROM codes.  After a reset they listen to a command
    byte; the search command makes them all take part.  Then each bit of the
    search is read twice, once complemented, on the wired-AND bus, and the
    devices whose bit is not the one written drop out. *)
Inductive bus_phase :=
  | BIdle
  | BCommand (bits : list bool)
  | BSearch (reads : nat) (act : list (list bool)).

Definition search_command : list bool := [false; false; false; false; true; true; true; true].

Definition command_next (devices : list (list bool)) (bits : list bool) : bus_phase :=
  if (length bits =? 8)%nat then (if decide (bits = search_command) then BSearch 0 devices else BIdle)
  else BCommand bits.

(** The wired AND of the bits sent. *)
Definition wired_and (bits : list bool) : Z := Z.b2z (forallb id bits).

Class Bus (E : Type) `{!Pin E} (pin : Z) := {
  bus_ok : E -> Prop;
  bus_devices : E -> list (list bool);
  bus_at : E -> bus_phase;
  law_reset e : bus_ok e ->
    wp (onewire_reset pin) (fun r e' => r = negb (bool_decide (bus_devices e = [])) /\ bus_ok e' /\
      bus_devices e' = bus_devices e /\ bus_at e' = BCommand []) e;
  law_command e b bits : bus_ok e -> bus_at e = BCommand bits ->
    wp (_onewire_write_bit pin b) (fun ok e' => ok = true /\ bus_ok e' /\
      bus_devices e' = bus_devices e /\ bus_at e' = command_next (bus_devices e) (bits ++ [b])) e;
  law_read e act : bus_ok e -> bus_at e = BSearch 0 act ->
    wp (_onewire_read_bit pin) (fun r e' => r = wired_and (map head_bit act) /\ bus_ok e' /\
      bus_devices e' = bus_devices e /\ bus_at e' = BSearch 1 act) e;
  law_read_complement e act : bus_ok e -> bus_at e = BSearch 1 act ->
    wp (_onewire_read_bit pin) (fun r e' => r = wired_and (map (fun s => negb (head_bit s)) act) /\
      bus_ok e' /\ bus_devices e' = bus_devices e /\ bus_at e' = BSearch 2 act) e;
  law_write e b act : bus_ok e -> bus_at e = BSearch 2 act ->
    wp (_onewire_write_bit pin b) (fun ok e' => bus_ok e' /\
      bus_devices e' = bus_devices e /\ bus_at e' = BSearch 0 (sub b act)) e;
}.

Lemma wired_and_bits act : wired_and (map head_bit act) = Z.b2z (negb (has0 act)).
Proof.
  unfold wired_and, has0. induction act as [|s act IH]; [done|]. simpl.
  destruct (head_bit s); simpl; [exact IH|done].
Qed.
Lemma wired_and_complement act :
  wired_and (map (fun s => negb (head_bit s)) act) = Z.b2z (negb (has1 act)).
Proof.
  unfold wired_and, has1. induction act as [|s act IH]; [done|]. simpl.
  destruct (head_bit s); simpl; [done|exact IH].
Qed.

Lemma addr_bits_codes addrs : codes 64 (map addr_bits addrs).
Proof.
  unfold codes. rewrite Forall_forall. intros s Hs.
  apply list_elem_of_In, in_map_iff in Hs as (a & <- & _). apply length_addr_bits.
Qed.

Section search.
Context {E : Type} `{!Pin E} (pin : Z) `{!Bus E pin}.

(** One bit of the search command. *)
Lemma command_bit (Q : bool -> E -> Prop) n m bits b e e1 :
  bus_ok e1 -> bus_devices e1 = bus_devices e -> bus_at e1 = BCommand bits ->
  (m =? 0) = false -> negb (Z.land m ONEWIRE_SEARCH =? 0) = b ->
  (forall e2, bus_ok e2 -> bus_devices e2 = bus_devices e ->
     bus_at e2 = command_next (bus_devices e) (bits ++ [b]) ->
     wp (onewire_write_loop pin n (u8 (Z.shiftl m 1)) ONEWIRE_SEARCH) Q e2) ->
  wp (onewire_write_loop pin (S n) m ONEWIRE_SEARCH) Q e1.
Proof.
  intros Ho Hd Ha Hm Hb Hk. cbn [onewire_write_loop]. rewrite Hm, Hb. wp_steps.
  eapply wp_mono; [by apply (law_command e1 b bits)|]. intros ok e2 (-> & Ho2 & Hd2 & Ha2).
  cbn [negb]. apply Hk; [done|by rewrite Hd2|by rewrite Ha2, Hd].
Qed.

(** The search command reaches all devices. *)
Lemma search_command_wp e :
  bus_ok e -> bus_at e = BCommand [] ->
  wp (onewire_write pin ONEWIRE_SEARCH) (fun _ e' => bus_ok e' /\
    bus_devices e' = bus_devices e /\ bus_at e' = BSearch 0 (bus_devices e)) e.
Proof.
  intros Hok Hat. unfold onewire_write.
  apply (command_bit _ 8 1 [] false e); try done. intros e1 Ho1 Hd1 Ha1.
  apply (command_bit _ 7 2 [false] false e); try done. intros e2 Ho2 Hd2 Ha2.
  apply (command_bit _ 6 4 [false; false] false e); try done. intros e3 Ho3 Hd3 Ha3.
  apply (command_bit _ 5 8 [false; false; false] false e); try done. intros e4 Ho4 Hd4 Ha4.
  apply (command_bit _ 4 16 (take 4 search_command) true e); try done. intros e5 Ho5 Hd5 Ha5.
  apply (command_bit _ 3 32 (take 5 search_command) true e); try done. intros e6 Ho6 Hd6 Ha6.
  apply (command_bit _ 2 64 (take 6 search_command) true e); try done. intros e7 Ho7 Hd7 Ha7.
  apply (command_bit _ 1 128 (take 7 search_command) true e); done.
Qed.

Lemma tail_drop {A} i (l : list A) x : l !! i = Some x -> tail (drop i l) = drop (S i) l.
Proof. intros H. by rewrite (drop_S l x i H). Qed.

(** The loop of the code runs [dfs]. *)
Lemma search_loop_wp n : forall fuel i lz L rom act e,
  (n + i = 64)%nat -> (0 < n <= fuel)%nat -> length rom = 8%nat ->
  codes n act -> act <> [] -> bus_ok e -> bus_at e = BSearch 0 act ->
  let r := dfs n act (drop i (rom_bits rom)) L (Z.of_nat i + 1) lz in
  wp (search_loop pin fuel L (vars_at i lz rom)) (fun s e' => bus_ok e' /\
    bus_devices e' = bus_devices e /\
    exists rom', s = vars_at 64 r.2 rom' /\ length rom' = 8%nat /\
      rom_bits rom' = take i (rom_bits rom) ++ r.1 /\
      (Forall is_byte rom -> Forall is_byte rom')) e.
Proof.
  induction n as [|n IH]; intros fuel i lz L rom act e Hi Hf Hl Hc Hne Hok Hat r; [lia|].
  destruct fuel as [|fuel]; [lia|]. subst r. cbn [search_loop dfs].
  wp_steps. eapply wp_mono; [by apply law_read|]. intros r0 e1 (-> & Ho1 & Hd1 & Ha1).
  wp_steps. eapply wp_mono; [by apply law_read_complement|]. intros r1 e2 (-> & Ho2 & Hd2 & Ha2).
  rewrite wired_and_bits, wired_and_complement.
  pose proof (has_some n act Hc Hne) as Hsome.
  assert (Hlk : drop i (rom_bits rom) !! 0%nat = Some (rom_bit rom i)).
  { rewrite lookup_drop, Nat.add_0_r. apply rom_bits_lookup. lia. }
  assert (Hhead : head_bit (drop i (rom_bits rom)) = rom_bit rom i).
  { destruct (drop i (rom_bits rom)); [done|]. by injection Hlk as ->. }
  set (dir := if mixed act then _ else _).
  assert (Hchoice : search_choice L (vars_at i lz rom) (u8 (Z.b2z (negb (has0 act))))
    (u8 (Z.b2z (negb (has1 act)))) = (dir, if mixed act && negb dir then Z.of_nat i + 1 else lz)).
  { unfold search_choice, dir, mixed, vars_at, rom_get. cbn [id_bit_number last_zero rom_byte_number rom_byte_mask sv_rom].
    rewrite Nat2Z.id, land_pow2, Hhead by lia. fold (rom_bit rom i).
    destruct (has0 act), (has1 act); cbn; try reflexivity; [|by destruct Hsome].
    destruct (Z.of_nat i + 1 <? L); [by destruct (rom_bit rom i)|].
    by destruct (Z.of_nat i + 1 =? L). }
  rewrite Hchoice.
  assert (Hguard : ((u8 (Z.b2z (negb (has0 act))) <? 0) || (u8 (Z.b2z (negb (has1 act))) <? 0) = false) /\
    ((u8 (Z.b2z (negb (has0 act))) =? 1) && (u8 (Z.b2z (negb (has1 act))) =? 1) = false)).
  { destruct (has0 act), (has1 act); try (split; reflexivity); by destruct Hsome. }
  destruct Hguard as [-> ->]. cbv iota. wp_steps.
  eapply wp_mono; [by apply law_write|]. intros ok e3 (Ho3 & Hd3 & Ha3).
  set (lz' := if mixed act && negb dir then _ else _) in *.
  destruct (advance_at i lz lz' rom dir Hl ltac:(lia)) as (rom1 & Eadv & Hl1 & Eb1 & Hby1).
  rewrite Eadv. cbv zeta.
  assert (Hdir : (if dir then has1 act else has0 act) = true).
  { unfold dir, mixed. destruct (has0 act), (has1 act); cbn [andb]; try done; [|by destruct Hsome].
    match goal with |- (if ?b then true else true) = true => by destruct b end. }
  pose proof (sub_nonempty n dir act Hc Hdir) as Hne'. pose proof (sub_codes n dir act Hc) as Hc'.
  assert (Hdrop : drop (S i) (rom_bits rom1) = tail (drop i (rom_bits rom))).
  { rewrite Eb1, drop_insert_lt by lia. symmetry. eapply tail_drop. apply rom_bits_lookup. lia. }
  assert (Htake : take (S i) (rom_bits rom1) = take i (rom_bits rom) ++ [dir]).
  { rewrite Eb1. rewrite (take_S_r _ _ dir) by (apply list_lookup_insert_eq; rewrite length_rom_bits; lia).
    by rewrite take_insert_ge. }
  destruct (decide (n = 0%nat)) as [->|Hn0].
  - assert (i = 63%nat) as -> by lia. change (rom_byte_number (vars_at 64 lz' rom1) <? 8) with false.
    cbv iota. wp_steps. split; [done|]. split; [congruence|]. exists rom1.
    split; [done|]. split; [done|]. split; [|done]. etransitivity; [|exact Htake].
    by rewrite take_ge by (by rewrite length_rom_bits).
  - assert (Hlt : (rom_byte_number (vars_at (S i) lz' rom1) <? 8) = true).
    { apply Z.ltb_lt. cbn [vars_at rom_byte_number]. assert (S i / 8 < 8)%nat by
        (apply Nat.Div0.div_lt_upper_bound; lia). lia. }
    rewrite Hlt. eapply wp_mono; [apply (IH fuel (S i) lz' L rom1 (sub dir act) e3); done || lia|].
    rewrite Hdrop, Htake. replace (Z.of_nat (S i) + 1) with (Z.of_nat i + 1 + 1) by lia.
    intros s e' (Ho & Hd & rom' & -> & Hl' & Eb & Hby). split; [done|]. split; [congruence|].
    destruct (dfs n _ _ _ _ _) as [p z]. exists rom'. split; [done|]. split; [done|].
    split; [|by auto]. rewrite Eb, <- app_assoc. done.
Qed.
End search.

(** ** Addresses and codes *)

Fixpoint bits_val (p : list bool) : Z :=
  match p with [] => 0 | b :: p => Z.b2z b + 2 * bits_val p end.

Section addresses.
Lemma bits_val_nonneg p : 0 <= bits_val p.
Proof. induction p as [|b p IH]; simpl; [lia|]. destruct b; simpl Z.b2z; lia. Qed.
Lemma bits_val_testbit p (j : nat) : Z.testbit (bits_val p) (Z.of_nat j) = nth j p false.
Proof.
  revert j. induction p as [|b p IH]; intros j; [destruct j; apply Z.bits_0|].
  cbn [bits_val]. rewrite Z.add_comm. destruct j as [|j].
  - change (Z.of_nat 0) with 0. by rewrite Z.testbit_0_r.
  - rewrite Nat2Z.inj_succ, Z.testbit_succ_r by lia. apply IH.
Qed.

Lemma le_val_testbit bs (j : nat) :
  Forall is_byte bs -> Z.testbit (le_val bs) (Z.of_nat j) =
    Z.testbit (nth (j / 8) bs 0) (Z.of_nat (j mod 8)).
Proof.
  intros Hb. revert j. induction Hb as [|b bs Hb Hbs IH]; intros j.
  { assert (E : nth (j / 8) [] 0 = 0) by (by destruct (j / 8)%nat).
    rewrite E. change (le_val []) with 0. by rewrite !Z.bits_0. }
  unfold is_byte in Hb. cbn [le_val]. pose proof (le_val_range bs Hbs).
  replace (b + 256 * le_val bs) with (Z.shiftl (le_val bs) 8 + b)
    by (rewrite Z.shiftl_mul_pow2 by lia; lia).
  rewrite add_lor_shift by lia. rewrite Z.lor_spec. destruct (decide (j < 8)%nat) as [Hj|Hj].
  - rewrite Nat.div_small, Nat.mod_small by done. by rewrite Z.shiftl_spec_low by lia.
  - rewrite Z.shiftl_spec by lia. rewrite <- (Z.mod_small b (2 ^ 8)) at 1 by lia.
    rewrite Z.mod_pow2_bits_high by lia. rewrite orb_false_r.
    replace (Z.of_nat j - 8) with (Z.of_nat (j - 8)) by lia. rewrite IH.
    assert (E : (j / 8 = S ((j - 8) / 8))%nat).
    { replace j with (1 * 8 + (j - 8))%nat at 1 by lia. by rewrite Nat.div_add_l. }
    assert (E' : (j mod 8 = (j - 8) mod 8)%nat).
    { replace j with (j - 8 + 1 * 8)%nat at 1 by lia. by rewrite Nat.Div0.mod_add. }
    by rewrite E, E'.
Qed.

Lemma testbit_eq a b : 0 <= a < 2 ^ 64 -> 0 <= b < 2 ^ 64 ->
  (forall j, (j < 64)%nat -> Z.testbit a (Z.of_nat j) = Z.testbit b (Z.of_nat j)) -> a = b.
Proof.
  intros Ha Hb H. apply Z.bits_inj'. intros j Hj. destruct (Z.lt_ge_cases j 64).
  - specialize (H (Z.to_nat j) ltac:(lia)). by rewrite Z2Nat.id in H.
  - rewrite <- (Z.mod_small a (2 ^ 64)), <- (Z.mod_small b (2 ^ 64)) by lia.
    by rewrite !Z.mod_pow2_bits_high by lia.
Qed.

Lemma bits_val_range p : bits_val p < 2 ^ Z.of_nat (length p).
Proof.
  induction p as [|b p IH]; [done|]. cbn [bits_val]. rewrite length_cons, Nat2Z.inj_succ, Z.pow_succ_r by lia.
  destruct b; simpl Z.b2z; lia.
Qed.

Lemma nth_map_seq (f : nat -> bool) j : (j < 64)%nat -> nth j (map f (seq 0 64)) false = f j.
Proof.
  intros Hj. rewrite nth_lookup. change (map ?f ?l) with (f <$> l).
  rewrite list_lookup_fmap, lookup_seq_lt by done. done.
Qed.

Lemma rom_addr_bits rom :
  length rom = 8%nat -> Forall is_byte rom -> rom_addr 8 rom 0 = bits_val (rom_bits rom).
Proof.
  intros Hl Hb. rewrite rom_addr_val by done. pose proof (le_val_range rom Hb) as Hr. rewrite Hl in Hr.
  pose proof (bits_val_range (rom_bits rom)) as Hr'. rewrite length_rom_bits in Hr'.
  pose proof (bits_val_nonneg (rom_bits rom)).
  apply testbit_eq; [lia|lia|]. intros j Hj. rewrite le_val_testbit, bits_val_testbit by done.
  unfold rom_bits. by rewrite nth_map_seq.
Qed.

Lemma addr_bits_val a : 0 <= a < 2 ^ 64 -> bits_val (addr_bits a) = a.
Proof.
  intros Ha. pose proof (bits_val_range (addr_bits a)) as Hr. rewrite length_addr_bits in Hr.
  pose proof (bits_val_nonneg (addr_bits a)).
  apply testbit_eq; [lia|lia|]. intros j Hj. rewrite bits_val_testbit. unfold addr_bits.
  by rewrite nth_map_seq.
Qed.

(** The bits of a byte, the lowest one first. *)
Definition byte_bits (b : Z) : list bool := map (fun i => Z.testbit b (Z.of_nat i)) (seq 0 8).
Lemma length_byte_bits x : length (byte_bits x) = 8%nat.
Proof. done. Qed.
Lemma byte_bits_val x : is_byte x -> bits_val (byte_bits x) = x.
Proof.
  intros Hx. unfold is_byte in Hx. apply testbit_eq; [|lia|].
  { pose proof (bits_val_nonneg (byte_bits x)). pose proof (bits_val_range (byte_bits x)) as Hr. rewrite length_byte_bits in Hr. lia. }
  intros j Hj. rewrite bits_val_testbit. destruct (Nat.lt_ge_cases j 8) as [H|H].
  - unfold byte_bits. rewrite nth_lookup. change (map ?f ?l) with (f <$> l). by rewrite list_lookup_fmap, lookup_seq_lt by done.
  - rewrite nth_overflow by (rewrite length_byte_bits; lia). symmetry. rewrite <- (Z.mod_small x (2 ^ 8)) by lia.
    by rewrite Z.mod_pow2_bits_high by lia.
Qed.

(** The first byte of [rom_no] is the family code. *)
Lemma rom_family rom :
  length rom = 8%nat -> Forall is_byte rom ->
  rom_get rom 0 = Z.land (bits_val (rom_bits rom)) 255.
Proof.
  intros Hl Hb. rewrite <- rom_addr_bits, rom_addr_val, land_255 by done.
  destruct Hb as [|b bs Hb Hbs]; [done|]. unfold rom_get, is_byte in *. simpl.
  replace (b + 256 * le_val bs) with (b + le_val bs * 256) by lia.
  rewrite Z.mod_add by lia. by rewrite Z.mod_small.
Qed.
End addresses.
