(* ===== verification/OnewireContract.v ===== *)
(** * The contract of the 1-Wire master

    A full enumeration of the bus with [onewire_search_next]: one call finds the
    next device of the tree, and repeated calls find all of them. *)

From S2P Require Import Prelude Gpio Onewire OnewireSearch.

Local Open Scope Z_scope.

(** ** Enumerating the bus *)

Section enumerate.
Context {E : Type} `{!Pin E} (pin : Z) `{!Bus E pin}.

(** [n] calls of [onewire_search_next]: the addresses returned. *)
Fixpoint search_all (n : nat) (search : onewire_search_t) : ST E (list Z * onewire_search_t) :=
  match n with
  | O => mret ([], search)
  | S n =>
      '(a, search) ← onewire_search_next pin search;
      '(l, search) ← search_all n search;
      mret (a :: l, search)
  end.

Context (addrs : list Z).
Context (Haddr : Forall (fun a => 0 <= a < 2 ^ 64 /\ Z.land a 255 <> 0) addrs).

Definition dev_codes : list (list bool) := map addr_bits addrs.

Definition on_bus (e : E) : Prop := bus_ok (pin:=pin) e /\ bus_devices (pin:=pin) e = dev_codes.

Lemma code_addr p : p ∈ dev_codes -> exists a, a ∈ addrs /\ p = addr_bits a /\ bits_val p = a /\
  Z.land a 255 <> 0.
Proof.
  intros Hp. apply list_elem_of_In, in_map_iff in Hp as (a & <- & Ha). apply list_elem_of_In in Ha.
  rewrite Forall_forall in Haddr. destruct (Haddr a Ha). exists a.
  split; [done|]. split; [done|]. split; [by apply addr_bits_val|done].
Qed.

(** The search state after the device with the code [p]. *)
Definition tracks (p : list bool) (s : onewire_search_t) : Prop :=
  rom_bits (rom_no s) = p /\ length (rom_no s) = 8%nat /\ Forall is_byte (rom_no s) /\
  last_discrepancy s = lzo 64 dev_codes p 1 /\
  last_device_found s = (lzo 64 dev_codes p 1 =? 0).

(** One search that goes on. *)
Lemma dfs_pair s p :
  (dfs 64 dev_codes (rom_bits (rom_no s)) (last_discrepancy s) 1 0).1 = p ->
  dfs 64 dev_codes (rom_bits (rom_no s)) (last_discrepancy s) 1 0 = (p, lzo 64 dev_codes p 1).
Proof.
  intros Ep. pose proof (dfs_lz 64 dev_codes (rom_bits (rom_no s)) (last_discrepancy s) 1 0 ltac:(lia)) as Ez.
  cbv zeta in Ez. rewrite Ep in Ez.
  destruct (dfs 64 dev_codes (rom_bits (rom_no s)) (last_discrepancy s) 1 0) as [q z].
  cbn [fst snd] in Ep, Ez. rewrite Ep, Ez. f_equal.
  destruct (Z.eqb_spec (lzo 64 dev_codes p 1) 0) as [E0|]; [by rewrite E0|reflexivity].
Qed.

(** The end of a search that has gone through the 64 bits. *)
Lemma search_finish_found rom p :
  p ∈ dev_codes -> rom_bits rom = p -> length rom = 8%nat -> Forall is_byte rom ->
  let z := lzo 64 dev_codes p 1 in
  let s := Search rom z (if z =? 0 then true else false) in
  search_finish true s = (bits_val p, s) /\ tracks p s.
Proof.
  intros Hp Eb Hl Hb z s. destruct (code_addr p Hp) as (a & _ & _ & Ea & Hfam).
  assert (Efam : (rom_get (rom_no s) 0 =? 0) = false).
  { cbn [s rom_no]. rewrite (rom_family rom Hl Hb), Eb, Ea. apply Z.eqb_neq. exact Hfam. }
  unfold search_finish. rewrite Efam. cbn [negb orb]. split.
  - cbn [s rom_no]. by rewrite (rom_addr_bits rom Hl Hb), Eb.
  - unfold tracks. cbn [s rom_no last_discrepancy last_device_found].
    split; [exact Eb|]. split; [exact Hl|]. split; [exact Hb|]. split; [reflexivity|].
    fold z. by destruct (z =? 0).
Qed.

Local Opaque dfs lzo search_loop enum.
Lemma search_next_wp s e p :
  on_bus e -> dev_codes <> [] -> length (rom_no s) = 8%nat -> Forall is_byte (rom_no s) ->
  last_device_found s = false -> p ∈ dev_codes ->
  (dfs 64 dev_codes (rom_bits (rom_no s)) (last_discrepancy s) 1 0).1 = p ->
  wp (onewire_search_next pin s) (fun r e' => on_bus e' /\ r.1 = bits_val p /\ tracks p r.2) e.
Proof.
  intros [Hok Hdev] Hne Hl Hb Hf Hp Ep. apply dfs_pair in Ep.
  unfold onewire_search_next. rewrite Hf. wp_steps.
  eapply wp_mono; [by apply law_reset|]. intros r e1 (-> & Ho1 & Hd1 & Ha1).
  rewrite Hdev, bool_decide_false by done. cbn [negb]. wp_steps.
  eapply wp_mono; [by apply (search_command_wp pin)|]. intros _ e2 (Ho2 & Hd2 & Ha2).
  wp_steps. rewrite Hd1, Hdev in Hd2, Ha2.
  change (Vars 1 0 0 1 (rom_no s)) with (vars_at 0 0 (rom_no s)).
  pose proof (search_loop_wp pin 64 65 0 0 (last_discrepancy s) (rom_no s) dev_codes e2 eq_refl
    ltac:(lia) Hl (addr_bits_codes addrs) Hne Ho2 Ha2) as Hloop.
  cbv zeta in Hloop. rewrite drop_0 in Hloop. change (Z.of_nat 0 + 1) with 1 in Hloop.
  rewrite Ep in Hloop. cbn [fst snd take app] in Hloop.
  eapply wp_mono; [exact Hloop|].
  intros sv e3 (Ho3 & Hd3 & rom' & -> & Hl' & Eb & Hby).
  destruct (search_finish_found rom' p Hp Eb Hl' (Hby Hb)) as [Efin Htr]. cbv zeta in Efin, Htr.
  revert Efin Htr. generalize (lzo 64 dev_codes p 1). intros z Efin Htr.
  cbn [vars_at id_bit_number last_zero sv_rom last_device_found].
  change (negb (Z.of_nat 64 + 1 <? 65)) with true. cbv iota zeta. rewrite Efin.
  wp_steps. split; [split; [done|congruence]|]. by split.
Qed.

Lemma NoDup_split {A} (l1 l2 k1 k2 : list A) x :
  NoDup (l1 ++ x :: l2) -> l1 ++ x :: l2 = k1 ++ x :: k2 -> l2 = k2.
Proof.
  revert k1. induction l1 as [|y l1 IH]; intros [|z k1] Hnd Heq; simpl in Heq; simplify_eq.
  - done.
  - exfalso. apply NoDup_cons in Hnd as [Hx _]. apply Hx. set_solver.
  - exfalso. apply NoDup_cons in Hnd as [Hx _]. apply Hx. set_solver.
  - apply NoDup_cons in Hnd as [_ Hnd]. by apply (IH k1).
Qed.

(** From the device [r] on, the rest of the order, then none. *)
Lemma cons_head {A} (x y : A) l k : x :: l = y :: k -> x = y.
Proof. by intros [= -> _]. Qed.
Lemma elem_mid {A} (l1 l2 : list A) x : x ∈ l1 ++ x :: l2.
Proof. set_solver. Qed.
Lemma elem_mid2 {A} (l1 l2 : list A) x y : y ∈ l1 ++ x :: y :: l2.
Proof. set_solver. Qed.

Lemma enum_dev r : r ∈ enum 64 dev_codes -> dev_codes <> [] -> r ∈ dev_codes.
Proof. intros Hr Hne. exact (proj1 (enum_elem 64 dev_codes r (addr_bits_codes addrs) Hne) Hr). Qed.

(** The last device, and the one after the device [r]. *)
Lemma enum_end l1 r :
  enum 64 dev_codes = l1 ++ [r] -> dev_codes <> [] -> lzo 64 dev_codes r 1 = 0.
Proof.
  intros He Hne. destruct (Z.eq_dec (lzo 64 dev_codes r 1) 0) as [Hz|Hz]; [exact Hz|]. exfalso.
  assert (Hrd : r ∈ dev_codes) by (apply enum_dev; [rewrite He; apply elem_mid|exact Hne]).
  destruct (dfs_next 64 dev_codes r 1 0 ltac:(lia) (addr_bits_codes addrs) Hrd Hz) as (k1 & k2 & Ek).
  pose proof (enum_NoDup 64 dev_codes) as Hnd. rewrite He in Hnd, Ek.
  pose proof (NoDup_split _ _ _ _ _ Hnd Ek) as Hx. discriminate Hx.
Qed.
Lemma enum_step l1 r p l2 :
  enum 64 dev_codes = l1 ++ r :: p :: l2 -> dev_codes <> [] ->
  lzo 64 dev_codes r 1 <> 0 /\ (dfs 64 dev_codes r (lzo 64 dev_codes r 1) 1 0).1 = p /\ p ∈ dev_codes.
Proof.
  intros He Hne. pose proof (enum_NoDup 64 dev_codes) as Hnd.
  assert (Hrd : r ∈ dev_codes) by (apply enum_dev; [rewrite He; apply elem_mid|exact Hne]).
  assert (Hz : lzo 64 dev_codes r 1 <> 0).
  { intros Hz. destruct (lzo_last 64 dev_codes r 1 ltac:(lia) (addr_bits_codes addrs) Hrd Hz) as (k & Ek).
    rewrite He in Hnd, Ek. pose proof (NoDup_split _ _ _ _ _ Hnd Ek) as Hx. discriminate Hx. }
  split; [exact Hz|].
  destruct (dfs_next 64 dev_codes r 1 0 ltac:(lia) (addr_bits_codes addrs) Hrd Hz) as (k1 & k2 & Ek).
  split.
  - rewrite He in Hnd, Ek. pose proof (NoDup_split _ _ _ _ _ Hnd Ek) as Hx.
    exact (eq_sym (cons_head _ _ _ _ Hx)).
  - apply enum_dev; [rewrite He; apply elem_mid2|exact Hne].
Qed.

(** From the device [r] on, the rest of the order, then none. *)
Lemma search_rest l2 : forall l1 r s e,
  enum 64 dev_codes = l1 ++ r :: l2 -> tracks r s -> on_bus e -> dev_codes <> [] ->
  wp (search_all (S (length l2)) s) (fun x e' => x.1 = map bits_val l2 ++ [ONEWIRE_NONE] /\ on_bus e') e.
Proof.
  induction l2 as [|p l2 IH]; intros l1 r s e He (Hr & Hl & Hb & HL & Hf) Hon Hne.
  - pose proof (enum_end l1 r He Hne) as Hz. rewrite Hz in Hf.
    cbn [search_all length]. wp_steps. unfold onewire_search_next. rewrite Hf.
    change (0 =? 0) with true. cbv iota. wp_steps. split; [reflexivity|exact Hon].
  - destruct (enum_step l1 r p l2 He Hne) as (Hz & Ep & Hpd).
    change (S (length (p :: l2))) with (S (S (length l2))).
    remember (S (length l2)) as k eqn:Ek. cbn [search_all]. subst k.
    wp_steps. eapply wp_mono.
    { apply (search_next_wp s e p Hon Hne Hl Hb); [|exact Hpd|].
      - rewrite Hf. by apply Z.eqb_neq.
      - by rewrite Hr, HL. }
    intros [a s1] e1 (Hon1 & Ha & Ht). cbn [fst snd] in Ha, Ht. wp_steps.
    eapply wp_mono; [apply (IH (l1 ++ [r]) p s1 e1); [by rewrite <- app_assoc|done..]|].
    intros [l s2] e2 [Hx Ho2]. wp_steps. cbn [fst] in *. split; [|done]. by rewrite Hx, Ha.
Qed.

Lemma search_all_wp e :
  on_bus e ->
  wp (search_all (S (length (if decide (addrs = []) then [] else enum 64 dev_codes))) onewire_search_start)
    (fun x e' => x.1 = map bits_val (if decide (addrs = []) then [] else enum 64 dev_codes) ++ [ONEWIRE_NONE] /\
      on_bus e') e.
Proof.
  intros Hon. destruct (decide (addrs = [])) as [Ha|Ha].
  - cbn [length search_all]. wp_steps. unfold onewire_search_next. cbn [last_device_found onewire_search_start].
    wp_steps. destruct Hon as [Hok Hdev]. eapply wp_mono; [by apply law_reset|].
    intros r e1 (-> & Ho1 & Hd1 & Ha1). rewrite Hdev. unfold dev_codes. rewrite Ha. cbn [map].
    rewrite bool_decide_true by done. cbn [negb]. wp_steps. split; [done|]. split; [done|].
    rewrite Hd1, Hdev. unfold dev_codes. by rewrite Ha.
  - assert (Hne : dev_codes <> []) by (unfold dev_codes; by destruct addrs).
    destruct (dfs_first 64 dev_codes (rom_bits (replicate 8 0)) 0 1 0 ltac:(lia) (addr_bits_codes addrs) Hne)
      as (l2 & El).
    destruct (dfs 64 dev_codes (rom_bits (replicate 8 0)) 0 1 0) as [p z] eqn:Ep. cbn [fst] in El.
    assert (Hpd : p ∈ dev_codes).
    { apply (enum_elem 64); [apply addr_bits_codes|done|rewrite El; left]. }
    rewrite El. change (S (length (p :: l2))) with (S (S (length l2))).
    remember (S (length l2)) as k eqn:Ek. cbn [search_all]. subst k.
    wp_steps. eapply wp_mono.
    { apply (search_next_wp onewire_search_start e p Hon Hne eq_refl); [|reflexivity|exact Hpd|exact (f_equal fst Ep)].
      repeat constructor; unfold is_byte; lia. }
    intros [a s1] e1 (Hon1 & Ha1 & Ht). cbn [fst snd] in Ha1, Ht. wp_steps.
    eapply wp_mono; [exact (search_rest l2 [] p s1 e1 El Ht Hon1 Hne)|].
    intros [l s2] e2 [Hx Ho2]. wp_steps. cbn [fst] in *. split; [|done]. by rewrite Hx, Ha1.
Qed.

Lemma enum_addrs : NoDup addrs -> addrs <> [] -> map bits_val (enum 64 dev_codes) ≡ₚ addrs.
Proof.
  intros Hnd Hne. assert (Hdne : dev_codes <> []) by (unfold dev_codes; by destruct addrs).
  assert (Hval : map bits_val dev_codes = addrs).
  { unfold dev_codes. rewrite map_map. clear Hnd Hne Hdne. 
    induction Haddr as [|a l [Ha _] Hl IH]; [reflexivity|].
    cbn [map]. rewrite (addr_bits_val a Ha), (IH Hl). reflexivity. }
  assert (Hinj : NoDup dev_codes).
  { unfold dev_codes in *. rewrite map_map in Hval. apply NoDup_ListNoDup, (NoDup_map_inv bits_val).
    rewrite map_map, Hval. by apply NoDup_ListNoDup. }
  transitivity (map bits_val dev_codes); [|by rewrite Hval].
  apply Permutation_map, NoDup_Permutation; [apply enum_NoDup|done|].
  intros r. apply enum_elem; [apply addr_bits_codes|done].
Qed.
End enumerate.
