(* ===== verification/OnewireSim.v ===== *)
(** * Theorems of the 1-Wire master, on a bus accurate to the microsecond

    [ow_sim] simulates devices on the wire: how long the master holds the
    line low tells a reset, a written 0 and a short slot apart, and a device
    that sends a 0 or a presence pulse holds the line low for some time after
    the master releases it.  It satisfies the laws of [Bus].  The checksums and
    their theorems are here too. *)

From S2P Require Import Prelude Gpio Onewire OnewireSearch OnewireContract.

Local Open Scope Z_scope.

(** ** The simulated bus *)

Record ow_sim := OW {
  ow_devs : list (list bool);
  ow_phase : bus_phase;
  ow_held : option Z;      (* for how long the master has held the line low *)
  ow_low : Z;              (* for how long a device still holds it low *)
}.

(** What the devices do with a written bit. *)
Definition ow_written (devs : list (list bool)) (ph : bus_phase) (b : bool) : bus_phase :=
  match ph with
  | BCommand bits => command_next devs (bits ++ [b])
  | BSearch 2 act => BSearch 0 (sub b act)
  | _ => BIdle
  end.

(** Whether all the participants send 1, in the first and the second read. *)
Definition all_ones (act : list (list bool)) : bool := forallb id (map head_bit act).
Definition all_zeros (act : list (list bool)) : bool := forallb id (map (fun s => negb (head_bit s)) act).

(** The master releases the line after [t] microseconds. *)
Definition ow_release (s : ow_sim) (t : Z) : ow_sim :=
  if 480 <=? t then
    OW (ow_devs s) (BCommand []) None (match ow_devs s with [] => 0 | _ => 180 end)
  else if 60 <=? t then OW (ow_devs s) (ow_written (ow_devs s) (ow_phase s) false) None 0
  else
    match ow_phase s with
    | BSearch 0 act =>
        OW (ow_devs s) (BSearch 1 act) None (if all_ones act then 0 else 30)
    | BSearch 1 act =>
        OW (ow_devs s) (BSearch 2 act) None (if all_zeros act then 0 else 30)
    | ph => OW (ow_devs s) (ow_written (ow_devs s) ph true) None 0
    end.

#[export] Instance ow_pin : Pin ow_sim := {
  gpio_enable := fun _ _ s => Some ((), s);
  gpio_set_pullup := fun _ _ _ s => Some ((), s);
  gpio_write := fun _ v s => Some ((),
    match v, ow_held s with
    | true, Some t => ow_release s t
    | false, None => OW (ow_devs s) (ow_phase s) (Some 0) (ow_low s)
    | _, _ => s
    end);
  gpio_read := fun _ s => Some (match ow_held s with None => ow_low s =? 0 | Some _ => false end, s);
  sdk_os_delay_us := fun d s => Some ((),
    OW (ow_devs s) (ow_phase s) (option_map (Z.add d) (ow_held s)) (Z.max 0 (ow_low s - d)));
  taskENTER_CRITICAL := fun s => Some ((), s);
  taskEXIT_CRITICAL := fun s => Some ((), s);
}.

Definition ow_idle (devs : list (list bool)) (ph : bus_phase) : ow_sim := OW devs ph None 0.

Section laws.
Context (pin : Z) (devs : list (list bool)).

Lemma sim_reset ph :
  onewire_reset pin (ow_idle devs ph) =
    Some (negb (bool_decide (devs = [])), ow_idle devs (BCommand [])).
Proof. destruct devs; reflexivity. Qed.

Lemma sim_command bits b :
  _onewire_write_bit pin b (ow_idle devs (BCommand bits)) =
    Some (true, ow_idle devs (command_next devs (bits ++ [b]))).
Proof. by destruct b. Qed.

Lemma sim_read act :
  _onewire_read_bit pin (ow_idle devs (BSearch 0 act)) =
    Some (wired_and (map head_bit act), ow_idle devs (BSearch 1 act)).
Proof.
  change (wired_and (map head_bit act)) with (Z.b2z (all_ones act)).
  destruct (all_ones act) eqn:E; cbv -[all_ones]; rewrite E; reflexivity.
Qed.

Lemma sim_read_complement act :
  _onewire_read_bit pin (ow_idle devs (BSearch 1 act)) =
    Some (wired_and (map (fun s => negb (head_bit s)) act), ow_idle devs (BSearch 2 act)).
Proof.
  change (wired_and (map (fun s => negb (head_bit s)) act)) with (Z.b2z (all_zeros act)).
  destruct (all_zeros act) eqn:E; cbv -[all_zeros]; rewrite E; reflexivity.
Qed.

Lemma sim_write act b :
  _onewire_write_bit pin b (ow_idle devs (BSearch 2 act)) =
    Some (true, ow_idle devs (BSearch 0 (sub b act))).
Proof. by destruct b. Qed.
End laws.

#[export] Program Instance ow_bus (pin : Z) : Bus ow_sim pin :=
  {| bus_ok := fun s => ow_held s = None /\ ow_low s = 0;
     bus_devices := ow_devs; bus_at := ow_phase |}.
Next Obligation.
  intros pin [devs ph held low] [Hh Hl]. simpl in Hh, Hl. subst. eapply wp_of_run; [apply sim_reset|done].
Qed.
Next Obligation.
  intros pin [devs ph held low] b bits [Hh Hl] Hp. simpl in Hh, Hl, Hp. subst.
  eapply wp_of_run; [apply sim_command|done].
Qed.
Next Obligation.
  intros pin [devs ph held low] act [Hh Hl] Hp. simpl in Hh, Hl, Hp. subst.
  eapply wp_of_run; [apply sim_read|done].
Qed.
Next Obligation.
  intros pin [devs ph held low] act [Hh Hl] Hp. simpl in Hh, Hl, Hp. subst.
  eapply wp_of_run; [apply sim_read_complement|done].
Qed.
Next Obligation.
  intros pin [devs ph held low] b act [Hh Hl] Hp. simpl in Hh, Hl, Hp. subst.
  eapply wp_of_run; [apply sim_write|done].
Qed.

(** ** The search *)

(** C4: Calling onewire_search_next after onewire_search_start returns each
    device of the bus exactly once, then ONEWIRE_NONE: for any number of
    devices with distinct addresses and a non-zero family code on a bus that
    follows the protocol.  Each call returns. *)
Theorem onewire_search_enumerates {E : Type} `{!Pin E} (pin : Z) `{!Bus E pin} (addrs : list Z) (e : E) :
  NoDup addrs -> Forall (fun a => 0 <= a < 2 ^ 64 /\ Z.land a 255 <> 0) addrs ->
  bus_ok (pin:=pin) e -> bus_devices (pin:=pin) e = map addr_bits addrs ->
  wp (search_all pin (S (length addrs)) onewire_search_start) (fun r e' =>
    (exists found, r.1 = found ++ [ONEWIRE_NONE] /\ found ≡ₚ addrs) /\
    bus_ok (pin:=pin) e' /\ bus_devices (pin:=pin) e' = map addr_bits addrs) e.
Proof.
  intros Hnd Ha Hok Hdev. pose proof (search_all_wp pin addrs Ha e (conj Hok Hdev)) as H.
  pose proof (enum_addrs addrs Ha Hnd) as Hperm. destruct (decide (addrs = [])) as [->|Hne].
  - eapply wp_mono; [exact H|]. intros r e' [Hr Hon]. split; [by exists []|exact Hon].
  - specialize (Hperm Hne). pose proof (Permutation_length Hperm) as Hlen. rewrite length_map in Hlen.
    rewrite <- Hlen. eapply wp_mono; [exact H|]. intros r e' [Hr Hon].
    split; [by eexists|exact Hon].
Qed.

(** Three devices, two of the same family, on the simulated wire. *)
Definition demo_addrs : list Z := [0x5a00000b1c2d3e28; 0x1100000000000010; 0x3300000b1c2d3f28].

Lemma onewire_search_enumerates_witness :
  exists r e', search_all 4 4 onewire_search_start (ow_idle (map addr_bits demo_addrs) BIdle) = Some (r, e') /\
    r.1 = [0x1100000000000010; 0x5a00000b1c2d3e28; 0x3300000b1c2d3f28; ONEWIRE_NONE].
Proof.
  assert (Hnd : NoDup demo_addrs) by (apply (bool_decide_unpack _); vm_compute; exact I).
  assert (Ha : Forall (fun a => 0 <= a < 2 ^ 64 /\ Z.land a 255 <> 0) demo_addrs).
  { repeat constructor; vm_compute; congruence. }
  assert (Hok : bus_ok (pin:=4) (ow_idle (map addr_bits demo_addrs) BIdle)) by (split; reflexivity).
  destruct (wp_run _ _ _ (onewire_search_enumerates 4 demo_addrs (ow_idle (map addr_bits demo_addrs) BIdle)
    Hnd Ha Hok eq_refl)) as (r & e' & Er & _).
  exists r, e'. split; [exact Er|]. vm_compute in Er. injection Er as <- _. reflexivity.
Defined.

(** ** Checksums *)

Section crc8.
Lemma testbit0_land x : (Z.land x 1 =? 0) = negb (Z.testbit x 0).
Proof.
  change 1 with (Z.ones 1) at 1. rewrite Z.land_ones, Z.bit0_odd by lia. change (2 ^ 1) with 2.
  rewrite Zmod_odd. by destruct (Z.odd x).
Qed.

(** The register and the input byte enter the loop by their difference. *)
Lemma crc8_bits_lxor n crc b :
  0 <= b < 2 ^ Z.of_nat n -> crc8_bits n crc b = crc8_bits n (Z.lxor crc b) 0.
Proof.
  revert crc b. induction n as [|n IH]; intros crc b Hb.
  { assert (b = 0) as -> by (simpl in Hb; lia). by rewrite Z.lxor_0_r. }
  cbn [crc8_bits]. rewrite Z.lxor_0_r. rewrite Nat2Z.inj_succ, Z.pow_succ_r in Hb by lia.
  assert (Hs : 0 <= Z.shiftr b 1 < 2 ^ Z.of_nat n).
  { rewrite Z.shiftr_div_pow2 by lia. change (2 ^ 1) with 2.
    split; [apply Z.div_pos; lia|apply Z.div_lt_upper_bound; lia]. }
  rewrite IH by done. change (Z.shiftr 0 1) with 0. f_equal.
  rewrite Z.shiftr_lxor. destruct (Z.land (Z.lxor crc b) 1 =? 0); [done|].
  rewrite !Z.lxor_assoc. f_equal. apply Z.lxor_comm.
Qed.

(** One byte, by the difference [x]. *)
Definition crc8_byte (x : Z) : Z := crc8_bits 8 x 0.

Lemma crc8_step crc b : is_byte b -> crc8_bits 8 crc b = crc8_byte (Z.lxor crc b).
Proof. intros Hb. apply crc8_bits_lxor. unfold is_byte in Hb. simpl. lia. Qed.

Lemma crc8_byte_range x : is_byte x -> is_byte (crc8_byte x).
Proof.
  intros Hx. assert (H : ((0 <=? crc8_byte x) && (crc8_byte x <? 256)) = true).
  { revert Hx. apply (byte_check (fun x => (0 <=? crc8_byte x) && (crc8_byte x <? 256))). by vm_compute. }
  zbool. unfold is_byte. lia.
Qed.
Lemma crc8_byte_table x : is_byte x -> nth (Z.to_nat x) dscrc_table 0 = crc8_byte x.
Proof.
  intros Hx. apply Z.eqb_eq. revert Hx.
  apply (byte_check (fun x => nth (Z.to_nat x) dscrc_table 0 =? crc8_byte x)). by vm_compute.
Qed.
(** The checksum of a byte is linear, and 0 for the byte 0 only, so bytes
    that differ have checksums that differ. *)
Lemma crc8_bits_linear n x y :
  crc8_bits n (Z.lxor x y) 0 = Z.lxor (crc8_bits n x 0) (crc8_bits n y 0).
Proof.
  revert x y. induction n as [|n IH]; intros x y; [done|]. cbn [crc8_bits].
  change (Z.shiftr 0 1) with 0. rewrite !Z.lxor_0_r, <- IH, !testbit0_land, Z.lxor_spec, Z.shiftr_lxor.
  f_equal. apply Z.bits_inj'. intros j _.
  destruct (Z.testbit x 0), (Z.testbit y 0); cbn [xorb negb]; rewrite !Z.lxor_spec;
    by destruct (Z.testbit (Z.shiftr x 1) j), (Z.testbit (Z.shiftr y 1) j), (Z.testbit 0x8C j).
Qed.
Lemma crc8_byte_zero x : is_byte x -> crc8_byte x = 0 -> x = 0.
Proof.
  intros Hx E. assert (H : (negb (crc8_byte x =? 0) || (x =? 0)) = true).
  { revert Hx. apply (byte_check (fun x => negb (crc8_byte x =? 0) || (x =? 0))). by vm_compute. }
  rewrite E in H. by apply Z.eqb_eq.
Qed.
Lemma crc8_byte_inj x y : is_byte x -> is_byte y -> crc8_byte x = crc8_byte y -> x = y.
Proof.
  intros Hx Hy E. apply Z.lxor_eq, crc8_byte_zero; [by apply lxor_byte|].
  unfold crc8_byte in *. by rewrite crc8_bits_linear, E, Z.lxor_nilpotent.
Qed.

#[local] Opaque crc8_byte crc8_bits.

Definition crc8_from (crc : Z) (data : list Z) : Z :=
  fold_left (fun crc inbyte => crc8_bits 8 crc inbyte) data crc.

Lemma crc8_from_range crc data : is_byte crc -> Forall is_byte data -> is_byte (crc8_from crc data).
Proof.
  intros Hc Hd. revert crc Hc. induction Hd as [|b data Hb _ IH]; intros crc Hc; [done|].
  apply IH. rewrite crc8_step by done. by apply crc8_byte_range, lxor_byte.
Qed.

Lemma crc8_table_from crc data : is_byte crc -> Forall is_byte data ->
  fold_left (fun crc b => nth (Z.to_nat (Z.lxor crc b)) dscrc_table 0) data crc = crc8_from crc data.
Proof.
  intros Hc Hd. revert crc Hc. induction Hd as [|b data Hb _ IH]; intros crc Hc; [done|].
  unfold crc8_from in *. cbn [fold_left]. rewrite crc8_byte_table, <- crc8_step by (done || by apply lxor_byte).
  apply IH. rewrite crc8_step by done. by apply crc8_byte_range, lxor_byte.
Qed.

Lemma lxor_cancel_l a b c : Z.lxor a b = Z.lxor a c -> b = c.
Proof.
  intros H. apply (f_equal (Z.lxor a)) in H. by rewrite <- !Z.lxor_assoc, Z.lxor_nilpotent, !Z.lxor_0_l in H.
Qed.

Lemma crc8_from_inj crc crc' data :
  is_byte crc -> is_byte crc' -> Forall is_byte data -> crc8_from crc data = crc8_from crc' data -> crc = crc'.
Proof.
  intros Hc Hc' Hd. revert crc crc' Hc Hc'. induction Hd as [|b data Hb _ IH]; intros crc crc' Hc Hc'; [done|].
  unfold crc8_from in *. cbn [fold_left]. rewrite !crc8_step by done. intros E.
  apply IH in E; [|by apply crc8_byte_range, lxor_byte..].
  apply crc8_byte_inj in E; [|by apply lxor_byte..].
  rewrite !(Z.lxor_comm _ b) in E. by apply lxor_cancel_l in E.
Qed.
End crc8.

(** Onewire_crc8: the table gives the same checksum as the bit-by-bit
    definition; a message followed by its checksum has checksum 0; and a
    message with one byte changed has another checksum. *)
Theorem onewire_crc8_detects (data rest : list Z) (b b' : Z) :
  Forall is_byte data -> Forall is_byte rest -> is_byte b -> is_byte b' ->
  onewire_crc8_table data = onewire_crc8 data /\
  onewire_crc8 (data ++ [onewire_crc8 data]) = 0 /\
  (onewire_crc8 (data ++ b :: rest) = onewire_crc8 (data ++ b' :: rest) -> b = b').
Proof.
  intros Hd Hr Hb Hb'. assert (H0 : is_byte 0) by (unfold is_byte; lia).
  pose proof (crc8_from_range 0 data H0 Hd) as Hc. change (is_byte (onewire_crc8 data)) in Hc.
  split; [|split].
  - exact (crc8_table_from 0 data H0 Hd).
  - unfold onewire_crc8 at 1. rewrite fold_left_app. fold (onewire_crc8 data). cbn [fold_left].
    rewrite crc8_step, Z.lxor_nilpotent by done. vm_compute. reflexivity.
  - unfold onewire_crc8 at 1 2. rewrite !fold_left_app. fold (onewire_crc8 data). cbn [fold_left].
    intros E. apply (crc8_from_inj _ _ rest) in E;
      [|rewrite crc8_step by done; by apply crc8_byte_range, lxor_byte..|done].
    rewrite !crc8_step in E by done. apply crc8_byte_inj in E; [|by apply lxor_byte..].
    by apply lxor_cancel_l in E.
Qed.

Lemma onewire_crc8_detects_witness :
  onewire_crc8_table [0x10; 0x50; 0xa9; 0x0a; 0x02; 0x08; 0x00] = 0x37 /\
  onewire_crc8 [0x10; 0x50; 0xa9; 0x0a; 0x02; 0x08; 0x00; 0x37] = 0.
Proof.
  assert (Hd : Forall is_byte [0x10; 0x50; 0xa9; 0x0a; 0x02; 0x08; 0x00])
    by (repeat constructor; unfold is_byte; lia).
  assert (H0 : is_byte 0) by (unfold is_byte; lia).
  destruct (onewire_crc8_detects _ [] 0 0 Hd (Forall_nil_2 _) H0 H0) as (E1 & E2 & _).
  split; [rewrite E1; vm_compute; reflexivity|exact E2].
Defined.

(** The CRC-16 of the specification: polynomial x^16 + x^15 + x^2 + 1, least
    significant bit first. *)
Definition crc16_bit (x : Z) : Z :=
  if Z.testbit x 0 then Z.lxor (Z.shiftr x 1) 0xA001 else Z.shiftr x 1.
Definition crc16_ref (data : list Z) (crc : Z) : Z :=
  fold_left (fun crc b => Nat.iter 8 crc16_bit (Z.lxor crc b)) data crc.

Section crc16.
Lemma crc16_bit_lxor x y : crc16_bit (Z.lxor x y) = Z.lxor (crc16_bit x) (crc16_bit y).
Proof.
  unfold crc16_bit. rewrite Z.lxor_spec, Z.shiftr_lxor.
  destruct (Z.testbit x 0), (Z.testbit y 0); simpl xorb; cbv iota;
    apply Z.bits_inj'; intros j _; rewrite !Z.lxor_spec;
    by destruct (Z.testbit (Z.shiftr x 1) j), (Z.testbit (Z.shiftr y 1) j), (Z.testbit 40961 j).
Qed.
Lemma crc16_iter_lxor n x y :
  Nat.iter n crc16_bit (Z.lxor x y) = Z.lxor (Nat.iter n crc16_bit x) (Nat.iter n crc16_bit y).
Proof. induction n as [|n IH]; [done|]. by rewrite !Nat.iter_succ, IH, crc16_bit_lxor. Qed.
Lemma crc16_iter_shift n k x : (n <= k)%nat ->
  Nat.iter n crc16_bit (Z.shiftl x (Z.of_nat k)) = Z.shiftl x (Z.of_nat (k - n)).
Proof.
  induction n as [|n IH]; intros Hk; [by rewrite Nat.sub_0_r|].
  rewrite Nat.iter_succ, IH by lia. unfold crc16_bit.
  rewrite Z.shiftl_spec_low by lia. rewrite Z.shiftr_shiftl_l by lia. f_equal. lia.
Qed.

Lemma split_byte x : x = Z.lxor (Z.shiftl (Z.shiftr x 8) 8) (Z.land x 255).
Proof.
  apply Z.bits_inj'. intros j Hj. rewrite Z.lxor_spec, Z.land_spec.
  change 255 with (Z.ones 8). destruct (Z.lt_ge_cases j 8).
  - by rewrite Z.shiftl_spec_low, Z.ones_spec_low, andb_true_r by lia.
  - rewrite Z.shiftl_spec, Z.shiftr_spec, Z.ones_spec_high, andb_false_r, xorb_false_r by lia.
    f_equal. lia.
Qed.

Lemma crc16_step_ref crc b : is_byte b -> crc16_step crc b = Nat.iter 8 crc16_bit (Z.lxor crc b).
Proof.
  intros Hb. assert (Hx : forall x, is_byte x -> crc16_step 0 x = Nat.iter 8 crc16_bit x).
  { intros x Hx. apply Z.eqb_eq. revert Hx.
    apply (byte_check (fun x => crc16_step 0 x =? Nat.iter 8 crc16_bit x)). by vm_compute. }
  rewrite (split_byte (Z.lxor crc b)), crc16_iter_lxor, (crc16_iter_shift 8 8) by lia.
  change (Z.of_nat (8 - 8)) with 0. rewrite Z.shiftl_0_r, Z.shiftr_lxor.
  assert (E : Z.shiftr b 8 = 0).
  { rewrite Z.shiftr_div_pow2 by lia. apply Z.div_small. unfold is_byte in Hb. lia. }
  rewrite E, Z.lxor_0_r, <- Hx by apply land_255_byte. unfold crc16_step.
  rewrite Z.lxor_0_r, (Z.lxor_comm b crc).
  assert (Ex : Z.land (Z.land (Z.lxor crc b) 255) 255 = Z.land (Z.lxor crc b) 255)
    by (by rewrite <- Z.land_assoc).
  rewrite Ex. change (Z.shiftr 0 8) with 0. rewrite !Z.lxor_0_l.
  destruct (_ =? 0); by rewrite ?Z.lxor_0_l, <- ?Z.lxor_assoc.
Qed.
End crc16.

(** Onewire_crc16 is the CRC-16 of the specification, and
    onewire_check_crc16 accepts a message exactly with the two bytes of the
    complement of its checksum. *)
Theorem onewire_crc16_correct (input : list Z) (crc_iv lo hi : Z) :
  Forall is_byte input ->
  onewire_crc16 input crc_iv = crc16_ref input crc_iv /\
  (onewire_check_crc16 input (lo, hi) crc_iv = true <->
   [lo; hi] = le_bytes 2 (u16 (Z.lnot (crc16_ref input crc_iv)))).
Proof.
  intros Hd. assert (E : onewire_crc16 input crc_iv = crc16_ref input crc_iv).
  { unfold onewire_crc16, crc16_ref. revert crc_iv. induction Hd as [|b input Hb _ IH]; intros crc; [done|].
    cbn [fold_left]. rewrite crc16_step_ref by done. apply IH. }
  split; [done|]. unfold onewire_check_crc16. rewrite E. set (c := u16 _).
  assert (Hc : 0 <= c < 65536) by apply u16_range.
  assert (Hh : Z.land (Z.shiftr c 8) 255 = Z.shiftr c 8).
  { rewrite land_255, Z.shiftr_div_pow2 by lia. apply Z.mod_small. change (2 ^ 8) with 256.
    split; [apply Z.div_pos; lia|apply Z.div_lt_upper_bound; lia]. }
  cbn [le_bytes fst snd]. rewrite Hh, andb_true_iff, !Z.eqb_eq. split; [by intros [-> ->]|by intros [= -> ->]].
Qed.

(** The check value of the nine characters 123456789. *)
Lemma onewire_crc16_correct_witness :
  crc16_ref [49; 50; 51; 52; 53; 54; 55; 56; 57] 0 = 0xBB3D /\
  onewire_check_crc16 [49; 50; 51; 52; 53; 54; 55; 56; 57] (0xC2, 0x44) 0 = true.
Proof.
  destruct (onewire_crc16_correct [49; 50; 51; 52; 53; 54; 55; 56; 57] 0 0xC2 0x44) as [E H];
    [repeat constructor; unfold is_byte; lia|].
  rewrite <- E. split; [vm_compute; reflexivity|]. apply H. rewrite <- E. vm_compute. reflexivity.
Defined.
