(* ===== verification/Dhcp.v ===== *)
(** * The DHCP server: extras/dhcpserver/dhcpserver.c

    The server hands out the addresses that follow [first_client_addr], one for
    each entry of the lease table.  The state is [server_state_t] with the network
    interface's addresses and the packets broadcast so far; one turn of the task's
    loop is [dhcpserver_step], from a received packet, the tick count and the
    contents of an uninitialised variable to the new state.

    The theorems are in [DhcpContract]. *)

From S2P Require Import Prelude.
Local Open Scope Z_scope.

(** ** Messages *)

Definition DHCP_OPTIONS_LEN : Z := 312.
Definition NETIF_MAX_HWADDR_LEN : Z := 6.
Definition DHCP_BOOTREPLY : Z := 2.
Definition DHCP_HTYPE_ETH : Z := 1.
Definition DHCP_DISCOVER : Z := 1.
Definition DHCP_OFFER : Z := 2.
Definition DHCP_REQUEST : Z := 3.
Definition DHCP_ACK : Z := 5.
Definition DHCP_NAK : Z := 6.
Definition DHCP_RELEASE : Z := 7.
Definition DHCP_OPTION_SUBNET_MASK : Z := 1.
Definition DHCP_OPTION_ROUTER : Z := 3.
Definition DHCP_OPTION_REQUESTED_IP : Z := 50.
Definition DHCP_OPTION_LEASE_TIME : Z := 51.
Definition DHCP_OPTION_MESSAGE_TYPE : Z := 53.
Definition DHCP_OPTION_MESSAGE_TYPE_LEN : Z := 1.
Definition DHCP_OPTION_SERVER_ID : Z := 54.
Definition DHCP_OPTION_END : Z := 255.
Definition DHCPSERVER_LEASE_TIME : Z := 3600 * 24.
Definition configTICK_RATE_HZ : Z := 100.

(** [struct dhcp_msg]: the fields longer than a byte are lists of their bytes. *)
Record dhcp_msg := {
  op : Z; htype : Z; hlen : Z; hops : Z;
  xid : list Z; secs : list Z; flags : list Z;
  ciaddr : list Z; yiaddr : list Z; siaddr : list Z; giaddr : list Z;
  chaddr : list Z; sname : list Z; file : list Z; cookie : list Z;
  options : list Z
}.

Definition msg_bytes (m : dhcp_msg) : list Z :=
  [op m; htype m; hlen m; hops m] ++ xid m ++ secs m ++ flags m ++
  ciaddr m ++ yiaddr m ++ siaddr m ++ giaddr m ++ chaddr m ++ sname m ++ file m ++
  cookie m ++ options m.

Definition slice (o n : nat) (l : list Z) : list Z := take n (drop o l).

Definition msg_of (b : list Z) : dhcp_msg := {|
  op := default 0 (b !! 0%nat); htype := default 0 (b !! 1%nat);
  hlen := default 0 (b !! 2%nat); hops := default 0 (b !! 3%nat);
  xid := slice 4 4 b; secs := slice 8 2 b; flags := slice 10 2 b;
  ciaddr := slice 12 4 b; yiaddr := slice 16 4 b; siaddr := slice 20 4 b;
  giaddr := slice 24 4 b; chaddr := slice 28 16 b; sname := slice 44 64 b;
  file := slice 108 128 b; cookie := slice 236 4 b; options := slice 240 312 b
|}.

Definition options_offset : Z := 240.
Definition sizeof_dhcp_msg : Z := options_offset + DHCP_OPTIONS_LEN.

Definition set_op (v : Z) (m : dhcp_msg) : dhcp_msg :=
  {| op := v; htype := htype m; hlen := hlen m; hops := hops m; xid := xid m;
     secs := secs m; flags := flags m; ciaddr := ciaddr m; yiaddr := yiaddr m;
     siaddr := siaddr m; giaddr := giaddr m; chaddr := chaddr m; sname := sname m;
     file := file m; cookie := cookie m; options := options m |}.
Definition set_yiaddr (v : list Z) (m : dhcp_msg) : dhcp_msg :=
  {| op := op m; htype := htype m; hlen := hlen m; hops := hops m; xid := xid m;
     secs := secs m; flags := flags m; ciaddr := ciaddr m; yiaddr := v;
     siaddr := siaddr m; giaddr := giaddr m; chaddr := chaddr m; sname := sname m;
     file := file m; cookie := cookie m; options := options m |}.
Definition set_options (v : list Z) (m : dhcp_msg) : dhcp_msg :=
  {| op := op m; htype := htype m; hlen := hlen m; hops := hops m; xid := xid m;
     secs := secs m; flags := flags m; ciaddr := ciaddr m; yiaddr := yiaddr m;
     siaddr := siaddr m; giaddr := giaddr m; chaddr := chaddr m; sname := sname m;
     file := file m; cookie := cookie m; options := v |}.

(** ** State *)

Record dhcp_lease_t := { hwaddr : list Z; expires : Z }.

#[export] Instance dhcp_lease_t_eq_dec : EqDecision dhcp_lease_t.
Proof. solve_decision. Defined.

Record server_state_t := {
  max_leases : Z;
  first_client_addr : list Z;
  if_ip_addr : list Z;
  if_netmask : list Z;
  if_gw : list Z;
  leases : list dhcp_lease_t;
  sent : list (list Z)
}.

Definition set_leases (v : list dhcp_lease_t) (s : server_state_t) : server_state_t :=
  {| max_leases := max_leases s; first_client_addr := first_client_addr s;
     if_ip_addr := if_ip_addr s; if_netmask := if_netmask s; if_gw := if_gw s;
     leases := v; sent := sent s |}.

Definition set_expires (v : Z) (l : dhcp_lease_t) : dhcp_lease_t :=
  {| hwaddr := hwaddr l; expires := v |}.

(** netbuf_alloc, netbuf_take and netconn_sendto to the broadcast address. *)
Definition send_msg (m : dhcp_msg) : ST server_state_t unit :=
  st_modify (fun s =>
    {| max_leases := max_leases s; first_client_addr := first_client_addr s;
       if_ip_addr := if_ip_addr s; if_netmask := if_netmask s; if_gw := if_gw s;
       leases := leases s; sent := sent s ++ [msg_bytes m] |}).

(** dhcpserver_start, and the assignment of server_if in the task: [ifc] holds
    the addresses of the interface. *)
Definition dhcpserver_start (first : list Z) (max : Z) (ifc : list Z * list Z * list Z)
    : server_state_t :=
  {| max_leases := max; first_client_addr := first;
     if_ip_addr := ifc.1.1; if_netmask := ifc.1.2; if_gw := ifc.2;
     leases := replicate (Z.to_nat max) {| hwaddr := replicate 6 0; expires := 0 |};
     sent := [] |}.

(** ** Options *)

Definition byte_at (l : list Z) (p : Z) : Z := default 0 (l !! Z.to_nat p).

(** The loop of find_dhcp_option; [p] is the offset of the pointer from the start
    of the options. *)
Fixpoint find_option_loop {W} (fuel : nat) (opts : list Z) (option_num min_length p : Z)
    : ST W (option Z) :=
  if p <? DHCP_OPTIONS_LEN - 2 then
    match fuel with
    | O => out_of_fuel
    | S fuel =>
        let type := byte_at opts p in
        let len := byte_at opts (p + 1) in
        let p := p + 2 in
        if type =? DHCP_OPTION_END then mret None
        else if DHCP_OPTIONS_LEN <=? p + len then mret None
        else if type =? option_num then
          mret (if len <? min_length then None else Some p)
        else find_option_loop fuel opts option_num min_length (p + len)
    end
  else mret None.
Definition find_dhcp_option {W} (msg : dhcp_msg) (option_num min_length : Z)
    : ST W (option Z) :=
  find_option_loop 156 (options msg) option_num min_length 0.

(** The options written so far, in place of the pointer to their end. *)
Definition add_dhcp_option_byte (opt : list Z) (type value : Z) : list Z :=
  opt ++ [type; 1; value].
Definition add_dhcp_option_bytes (opt : list Z) (type : Z) (value : list Z) (len : Z) : list Z :=
  opt ++ type :: (if len =? 0 then [] else len :: take (Z.to_nat len) value).

(** The options array: zeroed, then overwritten from its start. *)
Definition options_array (opt : list Z) : list Z :=
  opt ++ replicate (Z.to_nat DHCP_OPTIONS_LEN - length opt) 0.

(** ** Leases *)

(** [memcmp(a, b, n) == 0] *)
Definition same_bytes (n : Z) (a b : list Z) : bool :=
  bool_decide (take (Z.to_nat n) a = take (Z.to_nat n) b).

Fixpoint find_lease_loop (hw : list Z) (ls : list dhcp_lease_t) (i : nat)
    (empty_lease : option nat) : option nat :=
  match ls with
  | [] => empty_lease
  | l :: ls =>
      if (expires l =? 0) && bool_decide (empty_lease = None) then
        find_lease_loop hw ls (S i) (Some i)
      else if same_bytes 6 hw (hwaddr l) then Some i
      else find_lease_loop hw ls (S i) empty_lease
  end.
Definition find_lease_slot (hw : list Z) (s : server_state_t) : option nat :=
  find_lease_loop hw (take (Z.to_nat (max_leases s)) (leases s)) 0 None.

(** The expiry of the leases that have passed. *)
Definition expire_leases (now : Z) (ls : list dhcp_lease_t) : list dhcp_lease_t :=
  map (fun l => if negb (expires l =? 0) && (expires l <? now) then set_expires 0 l else l) ls.

(** The [i]-th byte of an address and the address with its last byte changed. *)
Definition ip4_addr (i : nat) (a : list Z) : Z := default 0 (a !! i).
Definition add_addr4 (k : Z) (a : list Z) : list Z := alter (fun b => u8 (b + k)) 3%nat a.

(** ** Handlers *)

Definition send_dhcp_nak (m : dhcp_msg) : ST server_state_t unit :=
  s ← st_get;
  let m := set_op DHCP_BOOTREPLY m in
  let opt := add_dhcp_option_byte [] DHCP_OPTION_MESSAGE_TYPE DHCP_NAK in
  let opt := add_dhcp_option_bytes opt DHCP_OPTION_SERVER_ID (if_ip_addr s) 4 in
  let opt := add_dhcp_option_bytes opt DHCP_OPTION_END [] 0 in
  send_msg (set_options (options_array opt) m).

Definition handle_dhcp_discover (m : dhcp_msg) : ST server_state_t unit :=
  if negb (htype m =? DHCP_HTYPE_ETH) then mret ()
  else if NETIF_MAX_HWADDR_LEN <? hlen m then mret ()
  else
    s ← st_get;
    match find_lease_slot (chaddr m) s with
    | None => mret ()
    | Some freelease =>
        let m := set_op DHCP_BOOTREPLY m in
        let m := set_yiaddr (add_addr4 (Z.of_nat freelease) (first_client_addr s)) m in
        let opt := add_dhcp_option_byte [] DHCP_OPTION_MESSAGE_TYPE DHCP_OFFER in
        let opt := add_dhcp_option_bytes opt DHCP_OPTION_SERVER_ID (if_ip_addr s) 4 in
        let opt := add_dhcp_option_bytes opt DHCP_OPTION_SUBNET_MASK (if_netmask s) 4 in
        let opt := add_dhcp_option_bytes opt DHCP_OPTION_END [] 0 in
        send_msg (set_options (options_array opt) m)
    end.

(** The address a REQUEST asks for; [junk] is what the uninitialised
    [requested_ip] holds. *)
Definition request_ip (m : dhcp_msg) (junk : list Z) : ST server_state_t (option (list Z)) :=
  requested_ip_opt ← find_dhcp_option m DHCP_OPTION_REQUESTED_IP 4;
  match requested_ip_opt with
  | Some p => mret (Some (slice (Z.to_nat p) 4 (options m)))
  | None => mret (if bool_decide (junk = [0; 0; 0; 0]) then Some (ciaddr m) else None)
  end.

(** The lease with the client's hardware address and a new expiry. *)
Definition take_lease (m : dhcp_msg) (l : dhcp_lease_t) : dhcp_lease_t :=
  {| hwaddr := take (Z.to_nat (hlen m)) (chaddr m) ++ drop (Z.to_nat (hlen m)) (hwaddr l);
     expires := u32 (DHCPSERVER_LEASE_TIME * configTICK_RATE_HZ) |}.

Definition send_dhcp_ack (m : dhcp_msg) (requested_ip : list Z) : ST server_state_t unit :=
  s ← st_get;
  let m := set_op DHCP_BOOTREPLY m in
  let m := set_yiaddr requested_ip m in
  let opt := add_dhcp_option_byte [] DHCP_OPTION_MESSAGE_TYPE DHCP_ACK in
  let expiry := rev (le_bytes 4 DHCPSERVER_LEASE_TIME) in
  let opt := add_dhcp_option_bytes opt DHCP_OPTION_LEASE_TIME expiry 4 in
  let opt := add_dhcp_option_bytes opt DHCP_OPTION_SERVER_ID (if_ip_addr s) 4 in
  let opt := add_dhcp_option_bytes opt DHCP_OPTION_SUBNET_MASK (if_netmask s) 4 in
  let opt := add_dhcp_option_bytes opt DHCP_OPTION_ROUTER (if_gw s) 4 in
  let opt := add_dhcp_option_bytes opt DHCP_OPTION_END [] 0 in
  send_msg (set_options (options_array opt) m).

(** handle_dhcp_request once it knows the address the client asks for. *)
Definition grant_ip (m : dhcp_msg) (ip : list Z) : ST server_state_t unit :=
  s ← st_get;
  let first := first_client_addr s in
  if negb (ip4_addr 0 ip =? ip4_addr 0 first) || negb (ip4_addr 1 ip =? ip4_addr 1 first)
     || negb (ip4_addr 2 ip =? ip4_addr 2 first)
  then send_dhcp_nak m
  else
    let octet_offs := ip4_addr 3 ip - ip4_addr 3 first in
    if (octet_offs <? 0) || (max_leases s <=? octet_offs) then send_dhcp_nak m
    else
      let k := Z.to_nat octet_offs in
      let lease := default {| hwaddr := []; expires := 0 |} (leases s !! k) in
      if negb (expires lease =? 0) && negb (same_bytes (hlen m) (hwaddr lease) (chaddr m))
      then send_dhcp_nak m
      else
        st_put (set_leases (alter (take_lease m) k (leases s)) s);;
        send_dhcp_ack m ip.

Definition handle_dhcp_request (m : dhcp_msg) (junk : list Z) : ST server_state_t unit :=
  if negb (htype m =? DHCP_HTYPE_ETH) then mret ()
  else if NETIF_MAX_HWADDR_LEN <? hlen m then mret ()
  else
    requested ← request_ip m junk;
    match requested with
    | None => send_dhcp_nak m
    | Some ip => grant_ip m ip
    end.

Definition handle_dhcp_release (m : dhcp_msg) : ST server_state_t unit :=
  st_modify (fun s =>
    match find_lease_slot (chaddr m) s with
    | Some k => set_leases (alter (set_expires 0) k (leases s)) s
    | None => s
    end).

(** netbuf_copy into the zeroed [received]. *)
Definition received_msg (netbuf : list Z) : dhcp_msg :=
  let n := Z.to_nat sizeof_dhcp_msg in
  msg_of (take n netbuf ++ replicate (n - length netbuf) 0).

(** One turn of the loop of dhcpserver_task on a received packet. *)
Definition dhcpserver_step (now : Z) (junk netbuf : list Z) : ST server_state_t unit :=
  st_modify (fun s => set_leases (expire_leases now (leases s)) s);;
  if Z.of_nat (length netbuf) <? options_offset then mret ()
  else
    let received := received_msg netbuf in
    message_type ← find_dhcp_option received DHCP_OPTION_MESSAGE_TYPE
                     DHCP_OPTION_MESSAGE_TYPE_LEN;
    match message_type with
    | None => mret ()
    | Some p =>
        let type := byte_at (options received) p in
        if type =? DHCP_DISCOVER then handle_dhcp_discover received
        else if type =? DHCP_REQUEST then handle_dhcp_request received junk
        else if type =? DHCP_RELEASE then handle_dhcp_release received
        else mret ()
    end.

(** The task serves the packets [evs], each with the tick count and the stack
    contents at that time. *)
Fixpoint dhcpserver_run (evs : list (Z * list Z * list Z)) : ST server_state_t unit :=
  match evs with
  | [] => mret ()
  | (now, junk, netbuf) :: evs => dhcpserver_step now junk netbuf;; dhcpserver_run evs
  end.
