(* ===== verification/DhcpContract.v ===== *)
(** * The DHCP server is correct, for a day

    [find_dhcp_option] finds the options of a well-formed message; an address whose
    lease is active is given to nobody else ([dhcp_lease_kept]); the exchange of
    DISCOVER, OFFER, REQUEST and ACK binds a free address ([dhcp_discover_binds]);
    and after a day of uptime the leases stop excluding anybody
    ([dhcp_leases_expired]). *)

From S2P Require Import Prelude Dhcp.
Local Open Scope Z_scope.

(** ** Options *)

Definition option_bytes (o : Z * list Z) : list Z := o.1 :: Z.of_nat (length o.2) :: o.2.
Definition encode_options (os : list (Z * list Z)) : list Z :=
  flat_map option_bytes os ++ [DHCP_OPTION_END].

(** The data of the first option of a type. *)
Fixpoint opt_value (os : list (Z * list Z)) (num : Z) : option (list Z) :=
  match os with
  | [] => None
  | (t, d) :: os => if t =? num then Some d else opt_value os num
  end.

Definition no_end (os : list (Z * list Z)) : Prop := Forall (fun o => o.1 <> DHCP_OPTION_END) os.

Section options.
Context {W : Type}.

Lemma byte_at_app l k p : p = Z.of_nat (length l) -> byte_at (l ++ k) p = default 0 (k !! 0%nat).
Proof.
  intros ->. unfold byte_at. by rewrite Nat2Z.id, lookup_app_r, Nat.sub_diag by lia.
Qed.

Lemma slice_app l d k n : n = length d -> slice (length l) n (l ++ d ++ k) = d.
Proof. intros ->. unfold slice. by rewrite drop_app_length, take_app_length. Qed.

Lemma find_option_loop_step fuel pre t d X num min (w : W) :
  t <> DHCP_OPTION_END -> length (pre ++ t :: Z.of_nat (length d) :: d ++ X) = 312%nat ->
  (1 <= length X)%nat ->
  find_option_loop (S fuel) (pre ++ t :: Z.of_nat (length d) :: d ++ X) num min
    (Z.of_nat (length pre)) w =
  if t =? num then
    Some (if Z.of_nat (length d) <? min then None else Some (Z.of_nat (length pre) + 2), w)
  else find_option_loop fuel (pre ++ t :: Z.of_nat (length d) :: d ++ X) num min
         (Z.of_nat (length pre) + 2 + Z.of_nat (length d)) w.
Proof.
  intros Ht Hlen HX. rewrite !length_app in Hlen. simpl in Hlen. rewrite length_app in Hlen.
  cbn [find_option_loop]. unfold DHCP_OPTIONS_LEN. zif.
  rewrite (byte_at_app pre) by done. rewrite (cons_middle t), app_assoc.
  rewrite (byte_at_app (pre ++ [t])) by (rewrite length_app; simpl; lia). cbn [lookup list_lookup default].
  cbn. zif. by destruct (t =? num).
Qed.

Lemma find_option_loop_value fuel pre os rest num min (w : W) :
  no_end os -> num <> DHCP_OPTION_END ->
  length (pre ++ encode_options os ++ rest) = 312%nat -> (length os < fuel)%nat ->
  exists r,
    find_option_loop fuel (pre ++ encode_options os ++ rest) num min
      (Z.of_nat (length pre)) w = Some (r, w) /\
    match opt_value os num with
    | None => r = None
    | Some d =>
        if Z.of_nat (length d) <? min then r = None
        else exists p, r = Some p /\ 0 <= p < 312 /\
               slice (Z.to_nat p) (length d) (pre ++ encode_options os ++ rest) = d
    end.
Proof.
  intros Hos Hnum. revert fuel pre; induction Hos as [|[t d] os Ht _ IH];
    intros fuel pre Hlen Hf; (destruct fuel as [|fuel]; [simpl in Hf; lia|]); cbn [opt_value].
  - exists None. split; [|done]. cbn [find_option_loop]. unfold DHCP_OPTIONS_LEN.
    destruct (_ <? _); [|done]. by rewrite (byte_at_app pre).
  - assert (E : pre ++ encode_options ((t, d) :: os) ++ rest =
                pre ++ t :: Z.of_nat (length d) :: d ++ encode_options os ++ rest).
    { unfold encode_options. simpl. by rewrite <- !app_assoc. }
    assert (E' : pre ++ t :: Z.of_nat (length d) :: d ++ encode_options os ++ rest =
                 (pre ++ t :: Z.of_nat (length d) :: d) ++ encode_options os ++ rest).
    { by rewrite <- app_assoc. }
    assert (1 <= length (encode_options os ++ rest))%nat
      by (unfold encode_options; rewrite !length_app; simpl; lia).
    rewrite E in Hlen |- *. rewrite find_option_loop_step by auto.
    destruct (Z.eqb_spec t num) as [->|Hne].
    + eexists. split; [done|]. destruct (_ <? min); [done|]. eexists. split_and!; [done|lia| |].
      { rewrite length_app in Hlen. simpl in Hlen. rewrite length_app in Hlen. lia. }
      rewrite E'. replace (Z.to_nat _) with (length (pre ++ [num; Z.of_nat (length d)]))
        by (rewrite length_app; simpl; lia).
      replace (pre ++ num :: Z.of_nat (length d) :: d) with ((pre ++ [num; Z.of_nat (length d)]) ++ d)
        by (by rewrite <- app_assoc).
      rewrite <- app_assoc. by apply slice_app.
    + rewrite E' in Hlen |- *. simpl in Hf.
      replace (Z.of_nat (length pre) + 2 + Z.of_nat (length d)) with
        (Z.of_nat (length (pre ++ t :: Z.of_nat (length d) :: d)))
        by (rewrite length_app; simpl; lia).
      apply IH; [done|lia].
Qed.

(** find_dhcp_option on the options of a well-formed message: the first option of
    the type, when it is long enough. *)
Lemma find_dhcp_option_value m os rest num min (w : W) :
  no_end os -> num <> DHCP_OPTION_END ->
  options m = encode_options os ++ rest -> length (options m) = 312%nat ->
  exists r, find_dhcp_option m num min w = Some (r, w) /\
    match opt_value os num with
    | None => r = None
    | Some d =>
        if Z.of_nat (length d) <? min then r = None
        else exists p, r = Some p /\ 0 <= p < 312 /\
               slice (Z.to_nat p) (length d) (options m) = d
    end.
Proof.
  intros Hos Hnum E Hlen. unfold find_dhcp_option. rewrite E in Hlen |- *.
  apply (find_option_loop_value 156 [] os rest num min w); auto.
  assert (Hl : forall os, (2 * length os <= length (flat_map option_bytes os))%nat).
  { clear. induction os as [|[t d] os IH]; simpl; [done|]. rewrite length_app. lia. }
  specialize (Hl os). unfold encode_options in Hlen. rewrite !length_app in Hlen. simpl in Hlen. lia.
Qed.

Lemma find_option_loop_returns fuel opts num min p (w : W) :
  Forall is_byte opts -> 0 <= p -> 312 - p < 2 * Z.of_nat fuel + 2 ->
  exists r, find_option_loop fuel opts num min p w = Some (r, w).
Proof.
  intros Hb. revert p; induction fuel as [|fuel IH]; intros p Hp Hf;
    cbn [find_option_loop]; unfold DHCP_OPTIONS_LEN.
  { zif. by eexists. }
  destruct (p <? 312 - 2); [|by eexists].
  repeat (case_match; [by eexists|]).
  assert (0 <= byte_at opts (p + 1)).
  { unfold byte_at. destruct (opts !! _) eqn:E; simpl; [|lia].
    eapply Forall_lookup_1 in E; [|exact Hb]. unfold is_byte in E. lia. }
  apply IH; lia.
Qed.

(** find_dhcp_option returns on any message. *)
Lemma find_dhcp_option_returns m num min (w : W) :
  Forall is_byte (options m) -> exists r, find_dhcp_option m num min w = Some (r, w).
Proof. intros. unfold find_dhcp_option. apply find_option_loop_returns; auto; lia. Qed.
End options.

(** ** The lease table *)

Section leases.
Implicit Types (s : server_state_t) (m : dhcp_msg) (l : dhcp_lease_t).

Definition lease_ticks : Z := DHCPSERVER_LEASE_TIME * configTICK_RATE_HZ.

(** A server whose last address does not pass 255, with a full lease table. *)
Record server_ok s : Prop := {
  ok_length : Z.of_nat (length (leases s)) = max_leases s;
  ok_first : length (first_client_addr s) = 4%nat;
  ok_last : 0 <= ip4_addr 3 (first_client_addr s) <= 256 - max_leases s;
  ok_hwaddr : Forall (fun l => length (hwaddr l) = 6%nat) (leases s);
  ok_expires : Forall (fun l => 0 <= expires l <= lease_ticks) (leases s);
  ok_ifc : length (if_ip_addr s) = 4%nat /\ length (if_netmask s) = 4%nat /\
           length (if_gw s) = 4%nat
}.

Definition same_config s s' : Prop :=
  max_leases s' = max_leases s /\ first_client_addr s' = first_client_addr s /\
  if_ip_addr s' = if_ip_addr s /\ if_netmask s' = if_netmask s /\ if_gw s' = if_gw s.

(** The address of lease [k]. *)
Definition lease_addr s (k : nat) : list Z := add_addr4 (Z.of_nat k) (first_client_addr s).

Lemma dhcpserver_start_ok first max ifc :
  length first = 4%nat -> 0 <= ip4_addr 3 first <= 256 - max -> 0 <= max ->
  length ifc.1.1 = 4%nat -> length ifc.1.2 = 4%nat -> length ifc.2 = 4%nat ->
  server_ok (dhcpserver_start first max ifc).
Proof.
  intros. split; simpl; auto.
  - rewrite length_replicate. lia.
  - by apply Forall_replicate.
  - apply Forall_replicate. done.
Qed.

Lemma ip4_addr_lease s k : server_ok s -> Z.of_nat k < max_leases s ->
  ip4_addr 3 (lease_addr s k) = ip4_addr 3 (first_client_addr s) + Z.of_nat k.
Proof.
  intros [Hl Hf Hlast _ _ _] Hk. unfold lease_addr, add_addr4, ip4_addr in *.
  rewrite list_lookup_alter_eq. destruct (first_client_addr s !! 3%nat) eqn:E; simpl in *.
  - by rewrite u8_small by lia.
  - apply lookup_ge_None_1 in E. lia.
Qed.

Lemma lease_addr_inj s j k : server_ok s ->
  Z.of_nat j < max_leases s -> Z.of_nat k < max_leases s -> lease_addr s j = lease_addr s k -> j = k.
Proof.
  intros Hs Hj Hk E. pose proof (ip4_addr_lease s j Hs Hj) as Ej.
  rewrite E, (ip4_addr_lease s k Hs Hk) in Ej. lia.
Qed.

Lemma find_lease_loop_sound hw ls i e j :
  find_lease_loop hw ls i e = Some j ->
  e = Some j \/
  exists l, (i <= j)%nat /\ ls !! (j - i)%nat = Some l /\
            (expires l = 0 \/ take 6 hw = take 6 (hwaddr l)).
Proof.
  revert i e; induction ls as [|l ls IH]; intros i e E; simpl in E; [by left|].
  assert (Hrec : forall e', find_lease_loop hw ls (S i) e' = Some j ->
    e' = Some j \/ exists l0, (i <= j)%nat /\ (l :: ls) !! (j - i)%nat = Some l0 /\
      (expires l0 = 0 \/ take 6 hw = take 6 (hwaddr l0))).
  { intros e' [->|(l0 & ? & Hl & ?)]%IH; [by left|]. right. exists l0.
    split_and!; [lia| |done]. by replace (j - i)%nat with (S (j - S i)) by lia. }
  case_match eqn:E1.
  - apply andb_prop in E1 as [E1 _]. apply Z.eqb_eq in E1.
    destruct (Hrec _ E) as [[= <-]|?]; [|by right]. right. exists l.
    rewrite Nat.sub_diag. auto.
  - case_match eqn:E2; [|by apply Hrec]. right. injection E as <-.
    apply bool_decide_eq_true in E2. exists l. rewrite Nat.sub_diag. auto.
Qed.

Lemma find_lease_slot_sound hw s k : server_ok s -> find_lease_slot hw s = Some k ->
  exists l, leases s !! k = Some l /\ (expires l = 0 \/ take 6 hw = hwaddr l).
Proof.
  intros [Hl _ _ Hhw _ _] E. unfold find_lease_slot in E.
  rewrite take_ge in E by lia.
  apply find_lease_loop_sound in E as [?|(l & _ & Hk & Hor)]; [done|].
  rewrite Nat.sub_0_r in Hk. exists l. split; [done|].
  rewrite (take_ge (hwaddr l)) in Hor; [done|]. eapply Forall_lookup_1 in Hhw; [|exact Hk]. simpl in Hhw. lia.
Qed.

Lemma find_lease_loop_complete hw ls i e :
  is_Some e \/ Exists (fun l => expires l = 0 \/ take 6 hw = take 6 (hwaddr l)) ls ->
  is_Some (find_lease_loop hw ls i e).
Proof.
  revert i e; induction ls as [|l ls IH]; intros i e H; simpl.
  { destruct H as [?|H]; [done|by apply Exists_nil in H]. }
  case_match eqn:E1; [by apply IH; left|]. case_match eqn:E2; [by eexists|].
  apply IH. destruct H as [?|H]; [by left|]. apply Exists_cons in H as [[Hx|Hx]|?]; [| |by right].
  - left. rewrite Hx, Z.eqb_refl in E1. simpl in E1. apply bool_decide_eq_false in E1.
    by apply not_eq_None_Some in E1.
  - apply bool_decide_eq_false in E2. by destruct E2.
Qed.

Lemma find_lease_slot_complete hw s k l : server_ok s -> leases s !! k = Some l ->
  expires l = 0 \/ take 6 hw = hwaddr l -> exists j, find_lease_slot hw s = Some j.
Proof.
  intros [Hl _ _ Hhw _ _] Hk Hor. unfold find_lease_slot. rewrite take_ge by lia.
  apply find_lease_loop_complete. right. apply Exists_exists. exists l.
  split; [by eapply list_elem_of_lookup_2|].
  rewrite (take_ge (hwaddr l)); [done|]. eapply Forall_lookup_1 in Hhw; [|exact Hk]. simpl in Hhw. lia.
Qed.
End leases.

(** ** An active lease is exclusive *)

Section exclusion.
Implicit Types (s : server_state_t) (m : dhcp_msg) (l : dhcp_lease_t).

(** The type of a message the server builds. *)
Definition msg_type m : Z := byte_at (options m) 2.

(** [ms] are the messages sent between [s] and [s']. *)
Definition sends s (ms : list dhcp_msg) s' : Prop := sent s' = sent s ++ map msg_bytes ms.

(** Lease [k] of [s] is still [l], and its address has been given to nobody. *)
Definition stays (k : nat) l s s' : Prop :=
  server_ok s' /\ same_config s s' /\ leases s' !! k = Some l /\
  exists ms, sends s ms s' /\
    Forall (fun m => msg_type m = DHCP_NAK \/ yiaddr m <> lease_addr s k) ms.

Lemma same_config_refl s : same_config s s.
Proof. done. Qed.
Lemma same_config_trans s1 s2 s3 : same_config s1 s2 -> same_config s2 s3 -> same_config s1 s3.
Proof. unfold same_config. intuition congruence. Qed.
Lemma lease_addr_config s s' k : same_config s s' -> lease_addr s' k = lease_addr s k.
Proof. intros (_ & E & _). unfold lease_addr. by rewrite E. Qed.

Lemma stays_refl k l s : server_ok s -> leases s !! k = Some l -> stays k l s s.
Proof.
  intros. split_and!; auto using same_config_refl. exists []. split; [|done].
  unfold sends. by rewrite app_nil_r.
Qed.

Lemma stays_trans k l s1 s2 s3 : stays k l s1 s2 -> stays k l s2 s3 -> stays k l s1 s3.
Proof.
  intros (_ & Hc1 & _ & ms1 & Hs1 & Hm1) (Hok & Hc2 & Hl & ms2 & Hs2 & Hm2).
  split_and!; eauto using same_config_trans. exists (ms1 ++ ms2). split.
  - unfold sends in *. by rewrite Hs2, Hs1, map_app, app_assoc.
  - apply Forall_app. rewrite (lease_addr_config s1 s2) in Hm2 by done. done.
Qed.

(** Changing the leases, each to a good one. *)
Lemma server_ok_set_leases s ls : server_ok s -> length ls = length (leases s) ->
  Forall (fun l => length (hwaddr l) = 6%nat /\ 0 <= expires l <= lease_ticks) ls ->
  server_ok (set_leases ls s).
Proof.
  intros [Hl Hf Hla Hh He Hi] Hlen Hls. split; simpl; auto; try lia;
    eapply Forall_impl; try exact Hls; naive_solver.
Qed.

Lemma server_ok_forall s : server_ok s ->
  Forall (fun l => length (hwaddr l) = 6%nat /\ 0 <= expires l <= lease_ticks) (leases s).
Proof. intros [_ _ _ Hh He _]. by apply Forall_and. Qed.

Lemma set_leases_stays k l s ls : server_ok s -> length ls = length (leases s) ->
  Forall (fun l => length (hwaddr l) = 6%nat /\ 0 <= expires l <= lease_ticks) ls ->
  ls !! k = Some l -> stays k l s (set_leases ls s).
Proof.
  intros. split_and!; [by apply server_ok_set_leases|done|done|].
  exists []. split; [|done]. unfold sends. by rewrite app_nil_r.
Qed.

Lemma wp_send_msg k l s m (Q : unit -> server_state_t -> Prop) :
  server_ok s -> leases s !! k = Some l ->
  msg_type m = DHCP_NAK \/ yiaddr m <> lease_addr s k ->
  (forall s', stays k l s s' -> Q () s') -> wp (send_msg m) Q s.
Proof.
  intros Hok Hl Hm HQ. unfold send_msg. wp_steps. apply HQ.
  split_and!; [by destruct Hok | done | done |]. exists [m]. split; [done|].
  by apply Forall_singleton.
Qed.

Lemma received_msg_ok b : length (chaddr (received_msg b)) = 16%nat /\
  length (options (received_msg b)) = 312%nat.
Proof.
  unfold received_msg, msg_of, slice.
  set (l := take _ b ++ _).
  assert (length l = 552%nat) as Hl.
  { unfold l. rewrite length_app, length_take, length_replicate. change (Z.to_nat sizeof_dhcp_msg) with 552%nat. lia. }
  cbn [chaddr options]. rewrite !length_take, !length_drop. lia.
Qed.

Lemma received_msg_bytes b : Forall is_byte b -> Forall is_byte (options (received_msg b)).
Proof.
  intros Hb. unfold received_msg, msg_of, slice. cbn [options].
  apply Forall_take, Forall_drop, Forall_app. split; [by apply Forall_take|].
  apply Forall_replicate. unfold is_byte. lia.
Qed.

(** The expiry of other leases leaves an active lease alone. *)
Lemma expire_stays now k l s : server_ok s -> leases s !! k = Some l ->
  expires l <> 0 -> now <= expires l ->
  stays k l s (set_leases (expire_leases now (leases s)) s).
Proof.
  intros Hok Hk He Hn. apply set_leases_stays; auto.
  - apply length_map.
  - apply Forall_map. eapply Forall_impl; [by apply server_ok_forall|].
    intros l' [? ?]. by case_match.
  - unfold expire_leases. rewrite list_lookup_fmap, Hk. simpl.
    rewrite (proj2 (Z.ltb_ge _ _) Hn), andb_false_r. done.
Qed.

Lemma discover_stays k l s m : server_ok s -> leases s !! k = Some l -> expires l <> 0 ->
  take 6 (chaddr m) <> hwaddr l ->
  wp (handle_dhcp_discover m) (fun _ s' => stays k l s s') s.
Proof.
  intros Hok Hk He Hne. unfold handle_dhcp_discover.
  case_match; [apply wp_ret; by apply stays_refl|].
  case_match; [apply wp_ret; by apply stays_refl|]. wp_steps.
  destruct (find_lease_slot (chaddr m) s) as [j|] eqn:E; [|apply wp_ret; by apply stays_refl].
  destruct (find_lease_slot_sound _ _ _ Hok E) as (l' & Hj & Hor).
  apply (wp_send_msg k l); auto. right. cbn [yiaddr set_options set_yiaddr].
  intros Heq. pose proof (ok_length _ Hok).
  apply lookup_lt_Some in Hk as Hk'. apply lookup_lt_Some in Hj as Hj'.
  apply lease_addr_inj in Heq; [|done|lia..]. subst j. rewrite Hk in Hj. injection Hj as ->.
  by destruct Hor.
Qed.

Lemma release_stays k l s m : server_ok s -> leases s !! k = Some l -> expires l <> 0 ->
  take 6 (chaddr m) <> hwaddr l ->
  wp (handle_dhcp_release m) (fun _ s' => stays k l s s') s.
Proof.
  intros Hok Hk He Hne. unfold handle_dhcp_release. wp_steps.
  destruct (find_lease_slot (chaddr m) s) as [j|] eqn:E; [|by apply stays_refl].
  destruct (find_lease_slot_sound _ _ _ Hok E) as (l' & Hj & Hor).
  apply set_leases_stays; auto.
  - apply length_alter.
  - apply Forall_alter; [by apply server_ok_forall|].
    intros ? _ [? ?]. by split.
  - destruct (decide (j = k)) as [->|]; [|by rewrite list_lookup_alter_ne].
    rewrite Hk in Hj. injection Hj as ->. by destruct Hor.
Qed.

Lemma nak_stays k l s m : server_ok s -> leases s !! k = Some l ->
  wp (send_dhcp_nak m) (fun _ s' => stays k l s s') s.
Proof.
  intros. unfold send_dhcp_nak. wp_steps. apply (wp_send_msg k l); auto.
Qed.

Lemma take_lease_ok m l : hlen m = 6 -> length (chaddr m) = 16%nat -> length (hwaddr l) = 6%nat ->
  take_lease m l = {| hwaddr := take 6 (chaddr m); expires := lease_ticks |}.
Proof.
  intros E ??. unfold take_lease. rewrite E. change (Z.to_nat 6) with 6%nat.
  by rewrite drop_ge, app_nil_r by lia.
Qed.

Lemma taken_leases_ok s m j : server_ok s -> hlen m = 6 -> length (chaddr m) = 16%nat ->
  Forall (fun l => length (hwaddr l) = 6%nat /\ 0 <= expires l <= lease_ticks)
    (alter (take_lease m) j (leases s)).
Proof.
  intros Hok E Hc. apply Forall_alter; [by apply server_ok_forall|].
  intros l _ [? ?]. rewrite take_lease_ok by done. simpl. rewrite length_take. split; [lia|done].
Qed.

Lemma grant_stays k l s m ip : server_ok s -> leases s !! k = Some l -> expires l <> 0 ->
  hlen m = 6 -> length (chaddr m) = 16%nat -> take 6 (chaddr m) <> hwaddr l ->
  wp (grant_ip m ip) (fun _ s' => stays k l s s') s.
Proof.
  intros Hok Hk He Hh Hc Hne. unfold grant_ip. wp_steps. case_match; [by apply nak_stays|].
  case_match eqn:Eoff; [by apply nak_stays|]. zbool.
  set (j := Z.to_nat _). set (l0 := default _ _).
  case_match eqn:Eheld; [by apply nak_stays|]. wp_steps.
  pose proof (ok_length _ Hok). pose proof (lookup_lt_Some _ _ _ Hk).
  assert (j <> k) as Hjk.
  { intros Ej. unfold l0 in Eheld. rewrite Ej, Hk in Eheld. simpl in Eheld.
    rewrite (proj2 (Z.eqb_neq _ _) He), Hh in Eheld. cbn [negb andb] in Eheld.
    apply negb_false_iff in Eheld. unfold same_bytes in Eheld.
    apply bool_decide_eq_true in Eheld. change (Z.to_nat 6) with 6%nat in Eheld.
    apply Hne. rewrite <- Eheld. apply take_ge.
    pose proof (ok_hwaddr _ Hok) as Hw. eapply Forall_lookup_1 in Hw; [|exact Hk]. simpl in Hw. lia. }
  assert (Hs1 : stays k l s (set_leases (alter (take_lease m) j (leases s)) s)).
  { apply set_leases_stays; auto using taken_leases_ok; [apply length_alter|].
    by rewrite list_lookup_alter_ne. }
  unfold send_dhcp_ack. wp_steps. apply (wp_send_msg k l); [apply Hs1|apply Hs1| |].
  - right. cbn [yiaddr set_options set_yiaddr]. intros Eip.
    apply Hjk. unfold j. rewrite Eip. change (lease_addr (set_leases _ s) k) with (lease_addr s k).
    rewrite ip4_addr_lease by (done || lia). lia.
  - intros s' Hs'. eapply stays_trans; [exact Hs1|exact Hs'].
Qed.

Lemma request_stays k l s m junk : server_ok s -> leases s !! k = Some l -> expires l <> 0 ->
  hlen m = 6 -> length (chaddr m) = 16%nat -> Forall is_byte (options m) ->
  take 6 (chaddr m) <> hwaddr l ->
  wp (handle_dhcp_request m junk) (fun _ s' => stays k l s s') s.
Proof.
  intros Hok Hk He Hh Hc Hb Hne. unfold handle_dhcp_request, request_ip.
  case_match; [apply wp_ret; by apply stays_refl|].
  case_match; [apply wp_ret; by apply stays_refl|]. wp_steps.
  destruct (find_dhcp_option_returns m DHCP_OPTION_REQUESTED_IP 4 s Hb) as [r Hr].
  eapply wp_of_run; [exact Hr|]. destruct r; apply wp_ret; [by apply grant_stays|].
  case_bool_decide; [by apply grant_stays|by apply nak_stays].
Qed.

(** The packet is of another Ethernet client than the one that holds [l]. *)
Definition other_client l (b : list Z) : Prop :=
  hlen (received_msg b) = 6 /\ take 6 (chaddr (received_msg b)) <> hwaddr l.

Lemma step_stays k l now junk b s : server_ok s -> leases s !! k = Some l ->
  expires l <> 0 -> now <= expires l -> Forall is_byte b -> other_client l b ->
  wp (dhcpserver_step now junk b) (fun _ s' => stays k l s s') s.
Proof.
  intros Hok Hk He Hn Hb [Hh Hne]. destruct (received_msg_ok b) as [Hc _].
  pose proof (received_msg_bytes b Hb) as Hob.
  unfold dhcpserver_step. wp_steps.
  pose proof (expire_stays now k l s Hok Hk He Hn) as Hs1.
  set (s1 := set_leases _ s) in *. pose proof Hs1 as (Hok1 & _ & Hk1 & _).
  case_match; [by apply wp_ret|]. wp_steps.
  destruct (find_dhcp_option_returns (received_msg b) DHCP_OPTION_MESSAGE_TYPE
    DHCP_OPTION_MESSAGE_TYPE_LEN s1 Hob) as [r Hr].
  eapply wp_of_run; [exact Hr|]. destruct r; [|by apply wp_ret].
  repeat case_match; try (by apply wp_ret);
    (eapply wp_mono; [|intros ? s' Hs'; eapply stays_trans; [exact Hs1|exact Hs']]);
    [by apply discover_stays|by apply request_stays|by apply release_stays].
Qed.

(** C18: While a lease is active, other clients cannot disturb it. A server whose
    configuration is consistent (as dhcpserver_start makes it) receives any number of
    packets, each no later than the tick at which the lease expires, with any content
    but two fields: the hardware address length is 6 and the hardware address is not the
    owner's. The server handles them all, the lease stays as it is, and no message it
    sends offers or acknowledges the leased address (every one is a NAK or carries
    another address). The length matters: a request with length 0 takes over any lease
    (dhcpserver.c:256), and so is not among these packets. *)
Theorem dhcp_lease_kept k l evs s : server_ok s -> leases s !! k = Some l -> expires l <> 0 ->
  Forall (fun ev => ev.1.1 <= expires l /\ Forall is_byte ev.2 /\ other_client l ev.2) evs ->
  wp (dhcpserver_run evs)
    (fun _ s' => server_ok s' /\ leases s' !! k = Some l /\
       exists ms, sends s ms s' /\
         Forall (fun m => msg_type m = DHCP_NAK \/ yiaddr m <> lease_addr s k) ms) s.
Proof.
  intros Hok Hk He Hevs.
  enough (wp (dhcpserver_run evs) (fun _ s' => stays k l s s') s) as Hw.
  { eapply wp_mono; [exact Hw|]. unfold stays. naive_solver. }
  revert s Hok Hk; induction Hevs as [|[[now junk] b] evs (Hn & Hb & Ho) _ IH]; intros s Hok Hk;
    cbn [dhcpserver_run].
  { apply wp_ret. by apply stays_refl. }
  wp_steps. eapply wp_mono; [by apply (step_stays k l)|]. intros [] s1 Hs1.
  pose proof Hs1 as (Hok1 & _ & Hk1 & _).
  eapply wp_mono; [by apply IH|]. intros [] s2 Hs2. eapply stays_trans; [exact Hs1|exact Hs2].
Qed.
End exclusion.

(** ** Getting an address *)

Section binding.
Implicit Types (s : server_state_t) (m : dhcp_msg) (l : dhcp_lease_t).

(** A packet of type [t] of the Ethernet client [h], with the options [os]. *)
Record client_packet (b : list Z) (h : list Z) (t : Z) (os : list (Z * list Z)) : Prop := {
  cp_length : 240 <= Z.of_nat (length b);
  cp_htype : htype (received_msg b) = DHCP_HTYPE_ETH;
  cp_hlen : hlen (received_msg b) = 6;
  cp_chaddr : take 6 (chaddr (received_msg b)) = h;
  cp_options : exists rest, options (received_msg b) = encode_options os ++ rest;
  cp_no_end : no_end os;
  cp_type : opt_value os DHCP_OPTION_MESSAGE_TYPE = Some [t]
}.

Definition after_expiry now s : server_state_t := set_leases (expire_leases now (leases s)) s.

(** The options of an OFFER and of an ACK. *)
Definition offer_options s : list (Z * list Z) :=
  [(DHCP_OPTION_MESSAGE_TYPE, [DHCP_OFFER]); (DHCP_OPTION_SERVER_ID, if_ip_addr s);
   (DHCP_OPTION_SUBNET_MASK, if_netmask s)].
Definition ack_options s : list (Z * list Z) :=
  [(DHCP_OPTION_MESSAGE_TYPE, [DHCP_ACK]); (DHCP_OPTION_LEASE_TIME, [0; 1; 81; 128]);
   (DHCP_OPTION_SERVER_ID, if_ip_addr s); (DHCP_OPTION_SUBNET_MASK, if_netmask s);
   (DHCP_OPTION_ROUTER, if_gw s)].

(** [m'] is the server's answer to [m] that gives it lease [k]. *)
Definition answers s (k : nat) (os : list (Z * list Z)) m m' : Prop :=
  op m' = DHCP_BOOTREPLY /\ xid m' = xid m /\ chaddr m' = chaddr m /\
  yiaddr m' = lease_addr s k /\ exists rest, options m' = encode_options os ++ rest.

Lemma expired_ok now s : server_ok s -> server_ok (after_expiry now s).
Proof.
  intros Hok. apply server_ok_set_leases; [done|apply length_map|].
  apply Forall_map. eapply Forall_impl; [by apply server_ok_forall|].
  intros l [? ?]. by case_match.
Qed.

Lemma expired_lookup now s k l : leases s !! k = Some l ->
  exists l', leases (after_expiry now s) !! k = Some l' /\ hwaddr l' = hwaddr l /\
    (expires l = 0 -> expires l' = 0) /\
    (lease_ticks < now -> expires l <= lease_ticks -> expires l' = 0).
Proof.
  intros Hk. unfold after_expiry, expire_leases. cbn [leases set_leases].
  rewrite list_lookup_fmap, Hk. eexists. split; [done|].
  destruct (Z.eqb_spec (expires l) 0); simpl; [done|].
  destruct (Z.ltb_spec (expires l) now); simpl; split_and!; auto; lia.
Qed.

(** The step on a client's packet is its handler on the expired leases. *)
Lemma step_client now junk b h t os s (Q : unit -> server_state_t -> Prop) :
  client_packet b h t os ->
  wp (if t =? DHCP_DISCOVER then handle_dhcp_discover (received_msg b)
      else if t =? DHCP_REQUEST then handle_dhcp_request (received_msg b) junk
      else if t =? DHCP_RELEASE then handle_dhcp_release (received_msg b)
      else mret ()) Q (after_expiry now s) ->
  wp (dhcpserver_step now junk b) Q s.
Proof.
  intros [Hlen _ _ _ [rest Ho] Hne Ht] Hw. unfold dhcpserver_step. wp_steps.
  fold (after_expiry now s). unfold options_offset. zif. wp_steps.
  destruct (received_msg_ok b) as [_ Hol].
  destruct (find_dhcp_option_value (received_msg b) os rest DHCP_OPTION_MESSAGE_TYPE
    DHCP_OPTION_MESSAGE_TYPE_LEN (after_expiry now s)) as (r & Hr & Hv); auto.
  eapply wp_of_run; [exact Hr|]. rewrite Ht in Hv.
  change (Z.of_nat (length [t]) <? DHCP_OPTION_MESSAGE_TYPE_LEN) with false in Hv. cbv iota in Hv.
  destruct Hv as (p & -> & Hp & Hs). cbn zeta.
  enough (byte_at (options (received_msg b)) p = t) as -> by done.
  unfold byte_at. unfold slice in Hs.
  assert ((take (length [t]) (drop (Z.to_nat p) (options (received_msg b)))) !! 0%nat = Some t) as E
    by by rewrite Hs.
  rewrite lookup_take_lt, lookup_drop, Nat.add_0_r in E by (simpl; lia). by rewrite E.
Qed.

Lemma take4 (l : list Z) : length l = 4%nat -> take (Z.to_nat 4) l = l.
Proof. intros. apply take_ge. change (Z.to_nat 4) with 4%nat. lia. Qed.

Lemma discover_offers s m k : server_ok s -> htype m = DHCP_HTYPE_ETH -> hlen m = 6 ->
  find_lease_slot (chaddr m) s = Some k ->
  wp (handle_dhcp_discover m)
    (fun _ s' => exists offer, sends s [offer] s' /\ answers s k (offer_options s) m offer /\
       server_ok s' /\ same_config s s' /\ leases s' = leases s) s.
Proof.
  intros Hok Ht Hh Hk. unfold handle_dhcp_discover. rewrite Ht, Hh, Z.eqb_refl.
  change (NETIF_MAX_HWADDR_LEN <? 6) with false. cbn [negb]. wp_steps. rewrite Hk.
  unfold send_msg. wp_steps. pose proof (ok_ifc _ Hok) as (Hi & Hn & _).
  eexists. split; [done|]. unfold answers. split_and!; try done; [|by destruct Hok].
  eexists. cbn [options set_options].
  unfold options_array. apply f_equal2; [|reflexivity].
  unfold add_dhcp_option_bytes, add_dhcp_option_byte, encode_options, offer_options. cbn [Z.eqb].
  rewrite !take4 by done. simpl. rewrite Hi, Hn. by repeat (rewrite <- app_assoc; simpl).
Qed.

(** The first three bytes of a lease's address. *)
Lemma ip4_addr_low s k i : (i < 3)%nat -> ip4_addr i (lease_addr s k) = ip4_addr i (first_client_addr s).
Proof. intros. unfold ip4_addr, lease_addr, add_addr4. by rewrite list_lookup_alter_ne by lia. Qed.

Lemma grant_acks s m k l : server_ok s -> hlen m = 6 -> length (chaddr m) = 16%nat ->
  leases s !! k = Some l -> expires l = 0 \/ hwaddr l = take 6 (chaddr m) ->
  wp (grant_ip m (lease_addr s k))
    (fun _ s' => exists ack, sends s [ack] s' /\ answers s k (ack_options s) m ack /\
       server_ok s' /\ same_config s s' /\
       leases s' = <[k := {| hwaddr := take 6 (chaddr m); expires := lease_ticks |}]> (leases s)) s.
Proof.
  intros Hok Hh Hc Hk Hor. unfold grant_ip. wp_steps.
  pose proof (ok_length _ Hok). pose proof (lookup_lt_Some _ _ _ Hk).
  pose proof (ok_ifc _ Hok) as (Hi & Hn & Hg).
  rewrite !ip4_addr_low by lia. rewrite !Z.eqb_refl. cbn [negb orb].
  rewrite ip4_addr_lease by (done || lia).
  replace (ip4_addr 3 (first_client_addr s) + Z.of_nat k - ip4_addr 3 (first_client_addr s))
    with (Z.of_nat k) by lia.
  rewrite (proj2 (Z.ltb_ge _ _)), (proj2 (Z.leb_gt _ _)) by lia. cbn [orb].
  rewrite Nat2Z.id, Hk. cbn [default]. unfold id. rewrite Hh.
  replace (negb _ && negb _) with false.
  2:{ destruct Hor as [->| E]; [done|]. unfold same_bytes. rewrite E, take_take.
      by rewrite bool_decide_eq_true_2, andb_false_r. }
  wp_steps. unfold send_dhcp_ack, send_msg. wp_steps.
  eexists. split; [done|]. unfold answers. split_and!; try done.
  - eexists. cbn [options set_options if_ip_addr if_netmask if_gw set_leases].
    unfold options_array. apply f_equal2; [|reflexivity].
    unfold add_dhcp_option_bytes, add_dhcp_option_byte, encode_options, ack_options. cbn [Z.eqb].
    change (rev (le_bytes 4 DHCPSERVER_LEASE_TIME)) with [0; 1; 81; 128].
    rewrite !take4 by done. simpl. rewrite Hi, Hn, Hg. by repeat (rewrite <- app_assoc; simpl).
  - pose proof (server_ok_set_leases s (alter (take_lease m) k (leases s)) Hok
      ltac:(apply length_alter) ltac:(by apply taken_leases_ok)) as Hok1. by destruct Hok1.
  - simpl. rewrite <- (take_lease_ok m l); [|done..|].
    + apply list_eq. intros j. destruct (decide (j = k)) as [->|].
      * by rewrite list_lookup_alter_eq, list_lookup_insert_eq, Hk by lia.
      * by rewrite list_lookup_alter_ne, list_lookup_insert_ne.
    + pose proof (ok_hwaddr _ Hok) as Hw. by eapply Forall_lookup_1 in Hw.
Qed.

(** A REQUEST for an address whose lease is free, or the client's own. *)
Lemma request_acks now junk b h os s k l : server_ok s ->
  client_packet b h DHCP_REQUEST os ->
  opt_value os DHCP_OPTION_REQUESTED_IP = Some (lease_addr s k) ->
  leases (after_expiry now s) !! k = Some l -> expires l = 0 \/ hwaddr l = h ->
  wp (dhcpserver_step now junk b)
    (fun _ s' => exists ack, sends s [ack] s' /\
       answers s k (ack_options s) (received_msg b) ack /\ server_ok s' /\ same_config s s' /\
       leases s' = <[k := {| hwaddr := h; expires := lease_ticks |}]> (leases (after_expiry now s))) s.
Proof.
  intros Hok Hb Hip Hk Hor. eapply step_client; [done|].
  change (DHCP_REQUEST =? DHCP_DISCOVER) with false. rewrite Z.eqb_refl. cbv iota.
  pose proof (expired_ok now s Hok) as Hok1.
  pose proof Hb as [_ Ht Hh Hch [rest Ho] Hne _]. destruct (received_msg_ok b) as [Hc Hol].
  assert (length (lease_addr s k) = 4%nat) as H4.
  { unfold lease_addr, add_addr4. rewrite length_alter. apply Hok. }
  unfold handle_dhcp_request, request_ip. rewrite Ht, Hh, Z.eqb_refl.
  change (NETIF_MAX_HWADDR_LEN <? 6) with false. cbn [negb]. wp_steps.
  destruct (find_dhcp_option_value (received_msg b) os rest DHCP_OPTION_REQUESTED_IP 4
    (after_expiry now s)) as (r & Hr & Hv); auto.
  rewrite Hip, H4 in Hv. change (Z.of_nat 4 <? 4) with false in Hv. cbv iota in Hv.
  destruct Hv as (p & -> & Hp & Hs).
  eapply wp_of_run; [exact Hr|]. apply wp_ret. rewrite Hs. rewrite <- Hch in Hor |- *.
  exact (grant_acks (after_expiry now s) (received_msg b) k l Hok1 Hh Hc Hk Hor).
Qed.

(** C19: a client obtains an address: when a lease is free, or is its own, the
    DISCOVER is answered by an OFFER, and a REQUEST for the offered address, sent
    at any later time with no packet in between, by an ACK of that address with
    the server's options; the lease becomes the client's and no other lease
    changes but by expiry.  The server's configuration is consistent, and both packets
    are Ethernet ones (address length 6) with their type among their options. *)
Theorem dhcp_discover_binds now1 now2 junk1 junk2 d h os1 s j lj :
  server_ok s -> client_packet d h DHCP_DISCOVER os1 ->
  leases (after_expiry now1 s) !! j = Some lj -> expires lj = 0 \/ hwaddr lj = h ->
  wp (dhcpserver_step now1 junk1 d)
    (fun _ s1 => exists k offer,
       sends s [offer] s1 /\ answers s k (offer_options s) (received_msg d) offer /\
       forall r os2, client_packet r h DHCP_REQUEST os2 ->
         opt_value os2 DHCP_OPTION_REQUESTED_IP = Some (yiaddr offer) ->
         wp (dhcpserver_step now2 junk2 r)
           (fun _ s2 => exists ack,
              sends s1 [ack] s2 /\ answers s k (ack_options s) (received_msg r) ack /\
              leases s2 = <[k := {| hwaddr := h; expires := lease_ticks |}]>
                            (leases (after_expiry now2 s1))) s1) s.
Proof.
  intros Hok Hd Hj Hor. eapply step_client; [done|].
  rewrite Z.eqb_refl.
  pose proof (expired_ok now1 s Hok) as Hok1. pose proof Hd as [_ Ht Hh Hch _ _ _].
  destruct (find_lease_slot_complete (chaddr (received_msg d)) (after_expiry now1 s) j lj) as [k Hk];
    [done..|rewrite Hch; naive_solver|].
  destruct (find_lease_slot_sound _ _ _ Hok1 Hk) as (l & Hl & Hlor).
  eapply wp_mono; [by apply (discover_offers _ _ k)|].
  intros [] s1 (offer & Hs & Ha & Hok' & Hcf & Hls). exists k, offer. split_and!; [done|done|].
  assert (Hcf' : same_config s s1) by exact Hcf.
  intros r os2 Hr Hip. rewrite <- Hls in Hl.
  destruct (expired_lookup now2 s1 k l Hl) as (l' & Hl' & Hhw & He0 & _).
  destruct Ha as (_ & _ & _ & Hy & _). rewrite Hy in Hip.
  change (lease_addr (after_expiry now1 s) k) with (lease_addr s k) in Hip.
  rewrite <- (lease_addr_config s s1) in Hip by done.
  eapply wp_mono; [apply (request_acks now2 junk2 r h os2 s1 k l'); auto|].
  { rewrite Hhw, <- Hch. naive_solver. }
  intros [] s2 (ack & Hs2 & Ha2 & _ & _ & Hls2). exists ack. split_and!; [done| |done].
  unfold answers in *. rewrite (lease_addr_config s s1) in Ha2 by done.
  destruct Hcf' as (_ & _ & Hi & Hn & Hg). unfold ack_options in *. by rewrite Hi, Hn, Hg in Ha2.
Qed.

(** The expiry is stored as the length of a lease and not as the time it ends,
    so once the system has been up for a day every lease has expired at the next
    packet: any two clients that ask for the same address, one right after the
    other, are both given it. *)
Theorem dhcp_leases_expired now1 now2 junk1 junk2 r1 r2 h1 h2 os1 os2 s k :
  server_ok s -> lease_ticks < now1 -> lease_ticks < now2 -> Z.of_nat k < max_leases s ->
  client_packet r1 h1 DHCP_REQUEST os1 -> client_packet r2 h2 DHCP_REQUEST os2 ->
  opt_value os1 DHCP_OPTION_REQUESTED_IP = Some (lease_addr s k) ->
  opt_value os2 DHCP_OPTION_REQUESTED_IP = Some (lease_addr s k) ->
  wp (dhcpserver_run [(now1, junk1, r1); (now2, junk2, r2)])
    (fun _ s' => exists a1 a2, sends s [a1; a2] s' /\
       answers s k (ack_options s) (received_msg r1) a1 /\
       answers s k (ack_options s) (received_msg r2) a2) s.
Proof.
  intros Hok Hn1 Hn2 Hk H1 H2 Hip1 Hip2.
  assert (Hfree : forall now s0, server_ok s0 -> same_config s s0 -> lease_ticks < now ->
            exists l, leases (after_expiry now s0) !! k = Some l /\ expires l = 0).
  { intros now s0 Hok0 (Hm & _) Hnow. pose proof (ok_length _ Hok0).
    destruct (lookup_lt_is_Some_2 (leases s0) k) as [l Hl]; [lia|].
    destruct (expired_lookup now s0 k l Hl) as (l' & Hl' & _ & _ & He). exists l'.
    split; [done|]. apply He; [done|].
    pose proof (ok_expires _ Hok0) as Hx. eapply Forall_lookup_1 in Hx; [|exact Hl]. apply Hx. }
  cbn [dhcpserver_run]. wp_steps.
  destruct (Hfree now1 s Hok (same_config_refl s) Hn1) as (l1 & Hl1 & He1).
  eapply wp_mono; [apply (request_acks now1 junk1 r1 h1 os1 s k l1); auto|].
  intros [] s1 (a1 & Hs1 & Ha1 & Hok1 & Hcf & _). wp_steps.
  destruct (Hfree now2 s1 Hok1 Hcf Hn2) as (l2 & Hl2 & He2).
  rewrite <- (lease_addr_config s s1) in Hip2 by done.
  eapply wp_mono; [apply (request_acks now2 junk2 r2 h2 os2 s1 k l2); auto|].
  intros [] s2 (a2 & Hs2 & Ha2 & _ & _ & _). wp_steps. exists a1, a2. split_and!; [|done|].
  - unfold sends in *. by rewrite Hs2, Hs1, <- app_assoc.
  - unfold answers in *. rewrite (lease_addr_config s s1) in Ha2 by done.
    destruct Hcf as (_ & _ & Hi & Hn & Hg). unfold ack_options in *. by rewrite Hi, Hn, Hg in Ha2.
Qed.
End binding.

(** ** A network *)

(** A client's packet: the fixed fields, the hardware address and the options. *)
Definition client_bytes (h : list Z) (os : list (Z * list Z)) : list Z :=
  [1; 1; 6; 0] ++ replicate 24 0 ++ h ++ replicate 206 0 ++ encode_options os.

Definition demo_server : server_state_t :=
  dhcpserver_start [172; 16; 0; 2] 2 ([172; 16; 0; 1], [255; 255; 255; 0], [0; 0; 0; 0]).
Definition mac_a : list Z := [0x18; 0xfe; 0x34; 0; 0; 1].
Definition mac_b : list Z := [0x18; 0xfe; 0x34; 0; 0; 2].

Definition discover_os : list (Z * list Z) := [(53, [DHCP_DISCOVER])].
Definition request_os (k : nat) : list (Z * list Z) :=
  [(53, [DHCP_REQUEST]); (50, lease_addr demo_server k)].

Lemma demo_server_ok : server_ok demo_server.
Proof. apply dhcpserver_start_ok; vm_compute; done. Defined.

(** The server after client A has taken the first address. *)
Definition bound_server : server_state_t :=
  set_leases [{| hwaddr := mac_a; expires := lease_ticks |};
              {| hwaddr := replicate 6 0; expires := 0 |}] demo_server.

Lemma dhcp_lease_kept_witness :
  wp (dhcpserver_run [(100, [], client_bytes mac_b (request_os 0));
                      (200, [], client_bytes mac_b discover_os)])
    (fun _ s' => server_ok s' /\ leases s' !! 0%nat = Some {| hwaddr := mac_a; expires := lease_ticks |} /\
       exists ms, sends bound_server ms s' /\
         Forall (fun m => msg_type m = DHCP_NAK \/ yiaddr m <> lease_addr bound_server 0) ms)
    bound_server.
Proof.
  apply (dhcp_lease_kept 0).
  - apply server_ok_set_leases; [exact demo_server_ok|done|].
    constructor; [|constructor; [|constructor]]; by split.
  - done.
  - by vm_compute.
  - constructor; [|constructor; [|constructor]]; (split; [by vm_compute|]);
      (split; [by apply bytes_check; vm_compute|by split; [|vm_compute]]).
Defined.

Lemma dhcp_discover_binds_witness :
  exists k s1, dhcpserver_step 100 [] (client_bytes mac_a discover_os) demo_server = Some ((), s1) /\
    length (sent s1) = 1%nat /\ k = 0%nat.
Proof.
  destruct (wp_run _ _ _ (dhcp_discover_binds 100 200 [] [] (client_bytes mac_a discover_os) mac_a
    discover_os demo_server 0 {| hwaddr := replicate 6 0; expires := 0 |} demo_server_ok
    ltac:(split; try (by vm_compute); [by eexists|repeat constructor; done])
    ltac:(by vm_compute) ltac:(by left))) as ([] & s1 & E & k & offer & Hs & _).
  exists 0%nat, s1. split_and!; [done| |done]. unfold sends in Hs. by rewrite Hs.
Defined.

Lemma dhcp_leases_expired_witness :
  exists s', dhcpserver_run [(8640001, [], client_bytes mac_a (request_os 0));
                             (8640002, [], client_bytes mac_b (request_os 0))] demo_server
    = Some ((), s') /\ length (sent s') = 2%nat.
Proof.
  destruct (wp_run _ _ _ (dhcp_leases_expired 8640001 8640002 [] []
    (client_bytes mac_a (request_os 0)) (client_bytes mac_b (request_os 0)) mac_a mac_b
    (request_os 0) (request_os 0) demo_server 0 demo_server_ok
    ltac:(by vm_compute) ltac:(by vm_compute) ltac:(by vm_compute)
    ltac:(split; try (by vm_compute); [by eexists|repeat constructor; done])
    ltac:(split; try (by vm_compute); [by eexists|repeat constructor; done])
    ltac:(done) ltac:(done))) as ([] & s' & E & a1 & a2 & Hs & _).
  exists s'. split; [done|]. unfold sends in Hs. by rewrite Hs.
Defined.
