(* ===== verification/LwipTimers.v ===== *)
(** * The timeouts of lwIP: lwip/lwip/src/core/timers.c

    The stack and the clients of its raw API put functions on one list of timeouts;
    the lwIP thread calls them while it waits for a message.  The list is sorted, and
    the time of an entry counts from the entry before it.

    [sys_timeout], [sys_untimeout] and [mbox_fetch_turn] are the list operations, over
    the type [H] of the functions that are put on the list, each with its argument.
    The periodic timers of the stack, with the options of lwipopts.h (ARP, DHCP, DNS and
    TCP; no reassembly, IGMP or AutoIP), are a state and a step over them.  Blocks of
    the pool MEMP_SYS_TIMEOUT come from the heap (MEMP_MEM_MALLOC), so memp_malloc is a
    parameter; LWIP_PLATFORM_ASSERT does nothing.  The theorems are in
    [LwipTimersContract]. *)

From S2P Require Import Prelude.
Local Open Scope Z_scope.

(** ** The list *)
Section timeout_list.
Context {H : Type} `{!EqDecision H}.

(** The time and what is called. *)
Definition sys_timeo : Type := Z * H.

(** The loop of sys_timeout: [timeout->time] is [time] when the loop is at the first
    entry of the list. *)
Fixpoint insert_after (time : Z) (h : H) (l : list sys_timeo) : list sys_timeo :=
  match l with
  | [] => []
  | t :: next =>
      let time := u32 (time - t.1) in
      match next with
      | [] => [t; (time, h)]
      | n :: next' =>
          if time <? n.1 then t :: (time, h) :: (u32 (n.1 - time), n.2) :: next'
          else t :: insert_after time h next
      end
  end.
(** [timeout]: memp_malloc gave a block. *)
Definition sys_timeout (timeout : bool) (msecs : Z) (h : H) (next_timeout : list sys_timeo) : list sys_timeo :=
  if timeout then
    match next_timeout with
    | [] => [(msecs, h)]
    | t :: next =>
        if msecs <? t.1 then (msecs, h) :: (u32 (t.1 - msecs), t.2) :: next
        else insert_after msecs h next_timeout
    end
  else next_timeout.

Fixpoint sys_untimeout (h : H) (next_timeout : list sys_timeo) : list sys_timeo :=
  match next_timeout with
  | [] => []
  | t :: next =>
      if bool_decide (t.2 = h) then
        match next with
        | [] => []
        | n :: next' => (u32 (n.1 + t.1), n.2) :: next'
        end
      else t :: sys_untimeout h next
  end.

(** One turn of the loop of sys_timeouts_mbox_fetch: [fetch] is the result of
    sys_arch_mbox_fetch, the milliseconds until a message came or [None] for
    SYS_ARCH_TIMEOUT; it is not called when the first timeout is due.  The result is the
    function to call. *)
Definition mbox_fetch_turn (fetch : option Z) (next_timeout : list sys_timeo) : option H * list sys_timeo :=
  match next_timeout with
  | [] => (None, [])
  | t :: next =>
      let time_needed := if 0 <? t.1 then fetch else None in
      match time_needed with
      | None => (Some t.2, next)
      | Some n => (None, ((if n <? t.1 then t.1 - n else 0), t.2) :: next)
      end
  end.
End timeout_list.

(** ** The timers of the stack *)

Definition TCP_TMR_INTERVAL : Z := 250.
Definition ARP_TMR_INTERVAL : Z := 5000.
Definition DHCP_COARSE_TIMER_MSECS : Z := 60 * 1000.
Definition DHCP_FINE_TIMER_MSECS : Z := 500.
Definition DNS_TMR_INTERVAL : Z := 1000.

(** The functions on the list: the stack's and those of other clients. *)
Inductive lwip_handler :=
  | Tcpip_tcp_timer | Arp_timer | Dhcp_timer_coarse | Dhcp_timer_fine | Dns_timer
  | Other_handler (k : nat).
#[export] Instance lwip_handler_dec : EqDecision lwip_handler.
Proof. solve_decision. Defined.

(** The rest of the stack: the periodic functions of its protocols, whether there are
    TCP connections ([tcp_active_pcbs || tcp_tw_pcbs]), and the heap. *)
Class LwipEnv (E : Type) := {
  memp_malloc : ST E bool;
  tcp_tmr : ST E unit;
  tcp_pcbs : E -> bool;
  etharp_tmr : ST E unit;
  dhcp_coarse_tmr : ST E unit;
  dhcp_fine_tmr : ST E unit;
  dns_tmr : ST E unit;
  other_tmr : nat -> ST E unit
}.

Record lwip (E : Type) := Lwip {
  next_timeout : list (Z * lwip_handler);
  tcpip_tcp_timer_active : bool;
  lwip_env : E
}.
Arguments Lwip {E}.
Arguments next_timeout {E}.
Arguments tcpip_tcp_timer_active {E}.
Arguments lwip_env {E}.

Section lwip_timers.
Context {E : Type} `{!LwipEnv E}.
Implicit Types s : lwip E.

Definition set_next_timeout (l : list (Z * lwip_handler)) s : lwip E := Lwip l (tcpip_tcp_timer_active s) (lwip_env s).
Definition set_tcp_active (b : bool) s : lwip E := Lwip (next_timeout s) b (lwip_env s).
Definition on_lwip {A} (m : ST E A) : ST (lwip E) A := fun s =>
  match m (lwip_env s) with
  | Some (x, e) => Some (x, Lwip (next_timeout s) (tcpip_tcp_timer_active s) e)
  | None => None
  end.
Definition lwip_timeout (msecs : Z) (h : lwip_handler) : ST (lwip E) unit :=
  timeout ← on_lwip memp_malloc;
  st_modify (fun s => set_next_timeout (sys_timeout timeout msecs h (next_timeout s)) s).

Definition tcpip_tcp_timer : ST (lwip E) unit :=
  on_lwip tcp_tmr;;
  s ← st_get;
  if tcp_pcbs (lwip_env s) then lwip_timeout TCP_TMR_INTERVAL Tcpip_tcp_timer
  else st_modify (set_tcp_active false).
Definition tcp_timer_needed : ST (lwip E) unit :=
  s ← st_get;
  if negb (tcpip_tcp_timer_active s) && tcp_pcbs (lwip_env s) then
    st_modify (set_tcp_active true);;
    lwip_timeout TCP_TMR_INTERVAL Tcpip_tcp_timer
  else mret ().
Definition arp_timer : ST (lwip E) unit := on_lwip etharp_tmr;; lwip_timeout ARP_TMR_INTERVAL Arp_timer.
Definition dhcp_timer_coarse : ST (lwip E) unit :=
  on_lwip dhcp_coarse_tmr;; lwip_timeout DHCP_COARSE_TIMER_MSECS Dhcp_timer_coarse.
Definition dhcp_timer_fine : ST (lwip E) unit :=
  on_lwip dhcp_fine_tmr;; lwip_timeout DHCP_FINE_TIMER_MSECS Dhcp_timer_fine.
Definition dns_timer : ST (lwip E) unit := on_lwip dns_tmr;; lwip_timeout DNS_TMR_INTERVAL Dns_timer.
Definition sys_timeouts_init : ST (lwip E) unit :=
  lwip_timeout ARP_TMR_INTERVAL Arp_timer;;
  lwip_timeout DHCP_COARSE_TIMER_MSECS Dhcp_timer_coarse;;
  lwip_timeout DHCP_FINE_TIMER_MSECS Dhcp_timer_fine;;
  lwip_timeout DNS_TMR_INTERVAL Dns_timer.

Definition call_handler (h : lwip_handler) : ST (lwip E) unit :=
  match h with
  | Tcpip_tcp_timer => tcpip_tcp_timer
  | Arp_timer => arp_timer
  | Dhcp_timer_coarse => dhcp_timer_coarse
  | Dhcp_timer_fine => dhcp_timer_fine
  | Dns_timer => dns_timer
  | Other_handler k => on_lwip (other_tmr k)
  end.
(** A turn of sys_timeouts_mbox_fetch; true when it returns with a message. *)
Definition sys_timeouts_mbox_fetch_turn (fetch : option Z) : ST (lwip E) bool :=
  s ← st_get;
  match next_timeout s with
  | [] => mret true
  | _ :: _ =>
      let r := mbox_fetch_turn fetch (next_timeout s) in
      st_modify (set_next_timeout r.2);;
      match r.1 with
      | Some handler => call_handler handler;; mret false
      | None => mret true
      end
  end.
End lwip_timers.
