(* ===== verification/LwipTimersContract.v ===== *)
(** * What the list of timeouts means

    An agenda is the list of the functions to call with the time that is left until
    each, in the order of the calls.  The list of timers.c with its relative times
    refines the operations of an agenda ([timeouts_refine_agenda]), and the periodic
    timers of the stack stay on it, each once and due within its interval, as long as
    the heap gives the blocks ([periodic_timers_stay]). *)

From S2P Require Import Prelude LwipTimers.
Local Open Scope Z_scope.

(** ** Agendas *)
Section agenda.
Context {H : Type} `{!EqDecision H}.
Implicit Types (l a : list (Z * H)) (h : H).

Fixpoint agenda_add (d : Z) h a : list (Z * H) :=
  match a with
  | [] => [(d, h)]
  | x :: a' => if d <? x.1 then (d, h) :: a else x :: agenda_add d h a'
  end.
Fixpoint agenda_cancel h a : list (Z * H) :=
  match a with
  | [] => []
  | x :: a' => if bool_decide (x.2 = h) then a' else x :: agenda_cancel h a'
  end.
Lemma agenda_add_in d h a : In (d, h) (agenda_add d h a).
Proof. induction a as [|x a IH]; cbn [agenda_add]; [by left|]. destruct (d <? x.1); [by left|by right]. Qed.
Definition elapse (k : Z) a : list (Z * H) := map (fun x => (x.1 - k, x.2)) a.

(** The deadlines of a list of timers.c, [b] milliseconds before its first entry. *)
Fixpoint deadlines (b : Z) l : list (Z * H) :=
  match l with
  | [] => []
  | t :: l => (b + t.1, t.2) :: deadlines (b + t.1) l
  end.
Definition total l : Z := foldr (fun t n => t.1 + n) 0 l.
Definition times_ok l : Prop := Forall (fun t => 0 <= t.1) l /\ total l < 2 ^ 32.

Lemma total_nonneg l : Forall (fun t : Z * H => 0 <= t.1) l -> 0 <= total l.
Proof. induction 1 as [|t l Ht Hl IH]; [done|]. cbn. fold (total l). lia. Qed.
Lemma total_cons t l : total (t :: l) = t.1 + total l.
Proof. done. Qed.
Lemma times_ok_cons t l : times_ok (t :: l) -> 0 <= t.1 /\ 0 <= total l /\ t.1 + total l < 2 ^ 32 /\ times_ok l.
Proof.
  intros [HF HT]. apply Forall_cons in HF as [H0 HF]. rewrite total_cons in HT. pose proof (total_nonneg _ HF).
  split_and!; [done..|lia|split; [done|lia]].
Qed.
Lemma times_ok_intro t l : 0 <= t.1 -> times_ok l -> t.1 + total l < 2 ^ 32 -> times_ok (t :: l).
Proof. intros H0 [HF _] HT. split; [by constructor|exact HT]. Qed.
Ltac agenda_eq := repeat (f_equal; try lia).
Lemma deadlines_cons b t l : deadlines b (t :: l) = (b + t.1, t.2) :: deadlines (b + t.1) l.
Proof. done. Qed.
Lemma elapse_cons k x a : elapse k (x :: a) = (x.1 - k, x.2) :: elapse k a.
Proof. done. Qed.
Lemma deadlines_elapse b k l : deadlines (b - k) l = elapse k (deadlines b l).
Proof.
  revert b; induction l as [|t l IH]; intros b; [done|]. rewrite !deadlines_cons, elapse_cons, <- IH. cbn [fst snd].
  agenda_eq.
Qed.

(** ** The operations *)

Lemma agenda_add_ge d h x a : x.1 <= d -> agenda_add d h (x :: a) = x :: agenda_add d h a.
Proof. intros Hd. cbn [agenda_add]. by rewrite (proj2 (Z.ltb_ge d x.1)). Qed.
Lemma insert_after_2 time h t n l : insert_after time h (t :: n :: l) =
  if u32 (time - t.1) <? n.1 then t :: (u32 (time - t.1), h) :: (u32 (n.1 - u32 (time - t.1)), n.2) :: l
  else t :: insert_after (u32 (time - t.1)) h (n :: l).
Proof. done. Qed.
Lemma insert_after_spec time h t l b : times_ok (t :: l) -> t.1 <= time < 2 ^ 32 ->
  deadlines b (insert_after time h (t :: l)) = agenda_add (b + time) h (deadlines b (t :: l)) /\
  Forall (fun t => 0 <= t.1) (insert_after time h (t :: l)) /\
  total (insert_after time h (t :: l)) = Z.max time (total (t :: l)).
Proof.
  revert time t b; induction l as [|n l IH]; intros time t b Hl Ht;
    destruct (times_ok_cons _ _ Hl) as (H0 & H1 & H2 & Hl'); rewrite deadlines_cons, agenda_add_ge by (cbn [fst]; lia).
  { cbn [insert_after]. rewrite u32_small by lia. cbn [deadlines agenda_add fst snd].
    split_and!; [agenda_eq|repeat constructor; cbn [fst]; lia|rewrite !total_cons; cbn in *; lia]. }
  destruct (times_ok_cons _ _ Hl') as (N0 & N1 & N2 & [Hf _]). rewrite insert_after_2, u32_small by lia. rewrite !total_cons in *.
  destruct (Z.ltb_spec (time - t.1) n.1).
  - rewrite u32_small by lia. cbn [deadlines agenda_add fst snd]. rewrite (proj2 (Z.ltb_lt (b + time) (b + t.1 + n.1))) by lia. split_and!.
    + agenda_eq.
    + repeat constructor; cbn [fst]; try lia. done.
    + rewrite !total_cons. cbn [fst]. lia.
  - destruct (IH (time - t.1) n (b + t.1) Hl' ltac:(lia)) as (E1 & E2 & E3). split_and!.
    + rewrite deadlines_cons, E1. by replace (b + t.1 + (time - t.1)) with (b + time) by lia.
    + by constructor.
    + rewrite total_cons, E3, total_cons. lia.
Qed.
Lemma sys_timeout_spec b msecs h l : times_ok l -> 0 <= msecs < 2 ^ 32 ->
  deadlines b (sys_timeout true msecs h l) = agenda_add (b + msecs) h (deadlines b l) /\
  times_ok (sys_timeout true msecs h l) /\ total (sys_timeout true msecs h l) = Z.max msecs (total l).
Proof.
  intros Hl Hm. unfold sys_timeout. destruct l as [|t l].
  { split_and!; [done| |rewrite total_cons; cbn; lia]. split; [repeat constructor; cbn; lia|rewrite total_cons; cbn; lia]. }
  destruct (times_ok_cons _ _ Hl) as (H0 & H1 & H2 & [Hf _]). destruct (Z.ltb_spec msecs t.1).
  - rewrite u32_small by lia. cbn [deadlines agenda_add fst snd]. rewrite (proj2 (Z.ltb_lt (b + msecs) (b + t.1))) by lia. split_and!.
    + agenda_eq.
    + split; [repeat constructor; cbn [fst]; try lia; done|rewrite !total_cons; cbn [fst]; lia].
    + rewrite !total_cons. cbn [fst]. lia.
  - destruct (insert_after_spec msecs h t l b Hl ltac:(lia)) as (E1 & E2 & E3). split_and!; [exact E1| |exact E3].
    split; [exact E2|]. rewrite E3, total_cons. lia.
Qed.
Lemma sys_timeout_nonempty msecs h l : sys_timeout true msecs h l <> [].
Proof.
  destruct l as [|t l]; cbn [sys_timeout]; [done|]. destruct (_ <? _); [done|]. cbn [insert_after]. destruct l; [done|]. by destruct (_ <? _).
Qed.
Lemma sys_untimeout_spec b h l : times_ok l ->
  deadlines b (sys_untimeout h l) = agenda_cancel h (deadlines b l) /\
  Forall (fun t => 0 <= t.1) (sys_untimeout h l) /\ total (sys_untimeout h l) <= total l.
Proof.
  revert b; induction l as [|t l IH]; intros b Hl; [by repeat constructor|]. cbn [sys_untimeout deadlines agenda_cancel snd].
  destruct (times_ok_cons _ _ Hl) as (H0 & H1 & H2 & Hl'). case_bool_decide.
  - destruct l as [|n l]; [split_and!; [done|constructor|cbn; lia]|].
    destruct (times_ok_cons _ _ Hl') as (N0 & N1 & N2 & [Hf _]). rewrite !total_cons in *. rewrite u32_small by lia. split_and!.
    + cbn [deadlines fst snd]. agenda_eq.
    + constructor; [cbn; lia|done].
    + cbn [fst]. lia.
  - destruct (IH (b + t.1) Hl') as (E1 & E2 & E3). split_and!; [by rewrite <- E1|by constructor|rewrite !total_cons; lia].
Qed.
Lemma sys_untimeout_ok h l : times_ok l -> times_ok (sys_untimeout h l).
Proof. intros Hl. destruct (sys_untimeout_spec 0 h l Hl) as (_ & E2 & E3). split; [done|]. destruct Hl. lia. Qed.

(** What a turn of sys_timeouts_mbox_fetch does to an agenda: a message after [n]
    milliseconds takes [n] off, but not more than the first deadline; otherwise the first
    entry is called. *)
Definition agenda_turn (fetch : option Z) a : option H * list (Z * H) :=
  match a with
  | [] => (None, [])
  | x :: a' =>
      match (if 0 <? x.1 then fetch else None) with
      | Some n => (None, elapse (Z.min n x.1) a)
      | None => (Some x.2, elapse x.1 a')
      end
  end.
Lemma mbox_fetch_turn_spec fetch l : times_ok l -> (forall n, fetch = Some n -> 0 <= n) ->
  (mbox_fetch_turn fetch l).1 = (agenda_turn fetch (deadlines 0 l)).1 /\
  deadlines 0 (mbox_fetch_turn fetch l).2 = (agenda_turn fetch (deadlines 0 l)).2 /\ times_ok (mbox_fetch_turn fetch l).2.
Proof.
  intros Hl Hfe. destruct l as [|t l]; [done|]. destruct (times_ok_cons _ _ Hl) as (H0 & H1 & H2 & Hl').
  cbn [mbox_fetch_turn deadlines agenda_turn fst snd]. rewrite Z.add_0_l. destruct (if 0 <? t.1 then fetch else None) as [n|] eqn:En.
  - assert (Hn : 0 <= n) by (destruct (0 <? t.1); [by apply Hfe|done]). cbn [fst snd deadlines elapse map].
    set (m := if n <? t.1 then t.1 - n else 0). assert (Hm : m = t.1 - Z.min n t.1) by (unfold m; destruct (Z.ltb_spec n t.1); lia).
    clearbody m. split_and!; [done| |].
    + f_equal; [f_equal; lia|]. change (map _ (deadlines t.1 l)) with (elapse (Z.min n t.1) (deadlines t.1 l)).
      rewrite <- deadlines_elapse. f_equal. lia.
    + apply times_ok_intro; [cbn; lia|done|cbn; lia].
  - cbn [fst snd]. split_and!; [done| |done]. by rewrite <- deadlines_elapse, Z.sub_diag.
Qed.

Lemma mbox_fetch_turn_total fetch l : times_ok l -> (forall n, fetch = Some n -> 0 <= n) ->
  total (mbox_fetch_turn fetch l).2 <= total l /\ (l <> [] -> (mbox_fetch_turn fetch l).1 = None -> (mbox_fetch_turn fetch l).2 <> []).
Proof.
  intros Hl Hfe. destruct l as [|t l]; [done|]. destruct (times_ok_cons _ _ Hl) as (H0 & H1 & _). cbn [mbox_fetch_turn].
  destruct (if 0 <? t.1 then fetch else None) as [n|] eqn:En; cbn [fst snd]; rewrite !total_cons; [|split; [lia|done]].
  assert (Hn : 0 <= n) by (destruct (0 <? t.1); [by apply Hfe|done]). cbn [fst]. destruct (Z.ltb_spec n t.1); (split; [lia|done]).
Qed.
Lemma deadlines_total b l : Forall (fun t => 0 <= t.1) l -> Forall (fun t => t.1 <= b + total l) (deadlines b l).
Proof.
  intros Hf. revert b; induction Hf as [|t l Ht Hl IH]; intros b; [constructor|]. rewrite deadlines_cons, total_cons.
  pose proof (total_nonneg _ Hl). constructor; [cbn; lia|]. eapply Forall_impl; [apply IH|]. cbn. intros; lia.
Qed.

(** ** Sessions *)

Inductive timer_op := Start (msecs : Z) (h : H) | Stop (h : H) | Fetch (fetch : option Z).
Definition op_ok (op : timer_op) : Prop :=
  match op with Start msecs _ => 0 <= msecs < 2 ^ 32 | Stop _ => True | Fetch fetch => from_option (Z.le 0) True fetch end.
(** The list after the operations, and the functions that were called. *)
Fixpoint timers_run (ops : list timer_op) l : list H * list (Z * H) :=
  match ops with
  | [] => ([], l)
  | Start msecs h :: ops => timers_run ops (sys_timeout true msecs h l)
  | Stop h :: ops => timers_run ops (sys_untimeout h l)
  | Fetch fetch :: ops => let r := mbox_fetch_turn fetch l in let r' := timers_run ops r.2 in (option_list r.1 ++ r'.1, r'.2)
  end.
Fixpoint agenda_run (ops : list timer_op) a : list H * list (Z * H) :=
  match ops with
  | [] => ([], a)
  | Start msecs h :: ops => agenda_run ops (agenda_add msecs h a)
  | Stop h :: ops => agenda_run ops (agenda_cancel h a)
  | Fetch fetch :: ops => let r := agenda_turn fetch a in let r' := agenda_run ops r.2 in (option_list r.1 ++ r'.1, r'.2)
  end.
Lemma timers_run_spec ops l : times_ok l -> Forall op_ok ops ->
  (timers_run ops l).1 = (agenda_run ops (deadlines 0 l)).1 /\ deadlines 0 (timers_run ops l).2 = (agenda_run ops (deadlines 0 l)).2.
Proof.
  intros Hl Hops. revert l Hl; induction Hops as [|op ops Hop _ IH]; intros l Hl; [done|]. destruct op as [msecs h|h|fetch]; cbn [timers_run agenda_run].
  - destruct (sys_timeout_spec 0 msecs h l Hl Hop) as (E1 & E2 & _). rewrite Z.add_0_l in E1. rewrite <- E1. by apply IH.
  - destruct (sys_untimeout_spec 0 h l Hl) as (E1 & _). rewrite <- E1. by apply IH, sys_untimeout_ok.
  - destruct (mbox_fetch_turn_spec fetch l Hl) as (E1 & E2 & E3); [intros n ->; exact Hop|].
    cbv zeta. rewrite <- E1, <- E2. destruct (IH _ E3) as [I1 I2]. cbn [fst snd]. by rewrite I1, I2.
Qed.
End agenda.
Arguments timer_op : clear implicits.

(** C31: the timeouts of timers.c refine an agenda of deadlines: whatever is started,
    stopped and waited for, in any order, the same functions are called in the same
    order, and the sums of the relative times are the time that is left until each call
    (no 32-bit time wraps around).  Each start gets memory for
    its timeout, and has a delay of 32 bits. *)
Theorem timeouts_refine_agenda {H} `{!EqDecision H} (ops : list (timer_op H)) : Forall op_ok ops ->
  (timers_run ops []).1 = (agenda_run ops []).1 /\ deadlines 0 (timers_run ops []).2 = (agenda_run ops []).2.
Proof. intros Hops. apply (timers_run_spec ops []); [split; [constructor|done]|exact Hops]. Qed.
Lemma timeouts_refine_agenda_witness :
  Forall op_ok [Start 500 1%nat; Start 200 2%nat; Start 500 3%nat; Fetch (Some 150); Start 300 4%nat; Stop 1%nat; Fetch None; Fetch (Some 400); Fetch None] /\
  (timers_run [Start 500 1%nat; Start 200 2%nat; Start 500 3%nat; Fetch (Some 150); Start 300 4%nat; Stop 1%nat; Fetch None; Fetch (Some 400); Fetch None] []).1
  = [2%nat; 4%nat].
Proof.
  assert (Hok : Forall op_ok [Start 500 1%nat; Start 200 2%nat; Start 500 3%nat; Fetch (Some 150); Start 300 4%nat; Stop 1%nat; Fetch None; Fetch (Some 400); Fetch None])
    by (repeat constructor; cbn; lia).
  split; [exact Hok|]. destruct (timeouts_refine_agenda _ Hok) as [-> _]. reflexivity.
Defined.

(** ** One function on an agenda *)
Section entries.
Context {H : Type} `{!EqDecision H}.
Implicit Types (l a : list (Z * H)) (h : H).

Definition entries h a : list (Z * H) := filter (fun x => x.2 = h) a.

Lemma entries_cons h x a : entries h (x :: a) = (if decide (x.2 = h) then [x] else []) ++ entries h a.
Proof. unfold entries. rewrite filter_cons. by destruct (decide (x.2 = h)). Qed.
Lemma entries_add_ne h h' d a : h' <> h -> entries h (agenda_add d h' a) = entries h a.
Proof.
  intros Hne. assert (Hd : entries h [(d, h')] = []) by (rewrite entries_cons; by destruct (decide _)).
  induction a as [|x a IH]; cbn [agenda_add]; [done|]. destruct (d <? x.1).
  - rewrite entries_cons. cbn [snd]. by destruct (decide (h' = h)).
  - by rewrite !entries_cons, IH.
Qed.
Lemma entries_add_new h d a : entries h a = [] -> entries h (agenda_add d h a) = [(d, h)].
Proof.
  induction a as [|x a IH]; intros Ha; cbn [agenda_add]; [rewrite entries_cons; cbn [snd]; by destruct (decide _)|].
  destruct (d <? x.1).
  - rewrite entries_cons, Ha. cbn [snd]. by destruct (decide _).
  - rewrite entries_cons in Ha |- *. destruct (decide _); [done|]. by apply IH.
Qed.
Lemma entries_cancel_ne h h' a : h' <> h -> entries h (agenda_cancel h' a) = entries h a.
Proof.
  intros Hne. induction a as [|x a IH]; [done|]. cbn [agenda_cancel]. rewrite entries_cons. case_bool_decide as Hx.
  - rewrite decide_False by congruence. done.
  - by rewrite entries_cons, IH.
Qed.
Lemma entries_elapse h k a : entries h (elapse k a) = elapse k (entries h a).
Proof.
  induction a as [|x a IH]; [done|]. rewrite elapse_cons, !entries_cons, IH. cbn [snd]. by destruct (decide (x.2 = h)).
Qed.

(** [h] is on the agenda once, within [n]. *)
Definition due h (n : Z) a : Prop := exists d, entries h a = [(d, h)] /\ d <= n.
Lemma due_add_ne h h' n d a : h' <> h -> due h n a -> due h n (agenda_add d h' a).
Proof. intros Hne (d0 & E & Hd). exists d0. by rewrite entries_add_ne. Qed.
Lemma due_add_new h n a : entries h a = [] -> due h n (agenda_add n h a).
Proof. intros Ha. exists n. by rewrite entries_add_new. Qed.
Lemma due_elapse h n k a : 0 <= k -> due h n a -> due h n (elapse k a).
Proof. intros Hk (d & E & Hd). exists (d - k). rewrite entries_elapse, E. split; [done|lia]. Qed.
Lemma due_tail_ne h n x a : x.2 <> h -> due h n (x :: a) -> due h n a.
Proof. intros Hne (d & E & Hd). exists d. split; [|done]. rewrite entries_cons in E. by rewrite decide_False in E. Qed.
Lemma due_tail_eq h n x a : x.2 = h -> due h n (x :: a) -> entries h a = [].
Proof. intros Heq (d & E & Hd). rewrite entries_cons, decide_True in E by done. by injection E. Qed.
Lemma none_tail h x a : entries h (x :: a) = [] -> x.2 <> h /\ entries h a = [].
Proof. rewrite entries_cons. by destruct (decide (x.2 = h)). Qed.
End entries.

(** ** The timers of the stack *)

(** Every function returns and the heap gives a block. *)
Class LwipEnvOk (E : Type) `{!LwipEnv E} := {
  law_memp_malloc e : exists e', memp_malloc e = Some (true, e');
  law_tcp_tmr e : exists e', tcp_tmr e = Some ((), e');
  law_etharp_tmr e : exists e', etharp_tmr e = Some ((), e');
  law_dhcp_coarse_tmr e : exists e', dhcp_coarse_tmr e = Some ((), e');
  law_dhcp_fine_tmr e : exists e', dhcp_fine_tmr e = Some ((), e');
  law_dns_tmr e : exists e', dns_tmr e = Some ((), e');
  law_other_tmr k e : exists e', other_tmr k e = Some ((), e')
}.

(** What happens to the list: a turn of sys_timeouts_mbox_fetch, a new TCP connection,
    and the calls of other clients. *)
Inductive lwip_event :=
  | MboxFetch (fetch : option Z)
  | TcpNeeded
  | ClientTimeout (msecs : Z) (k : nat)
  | ClientUntimeout (k : nat).
Definition event_ok (ev : lwip_event) : Prop :=
  match ev with MboxFetch fetch => from_option (Z.le 0) True fetch | ClientTimeout msecs _ => 0 <= msecs < 2 ^ 32 | _ => True end.

Section stack.
Context {E : Type} `{!LwipEnv E, !LwipEnvOk E}.
Implicit Types s : lwip E.

Definition lwip_event_step (ev : lwip_event) : ST (lwip E) unit :=
  match ev with
  | MboxFetch fetch => _ ← sys_timeouts_mbox_fetch_turn fetch; mret ()
  | TcpNeeded => tcp_timer_needed
  | ClientTimeout msecs k => lwip_timeout msecs (Other_handler k)
  | ClientUntimeout k => st_modify (fun s => set_next_timeout (sys_untimeout (Other_handler k) (next_timeout s)) s)
  end.
Fixpoint lwip_run (evs : list lwip_event) : ST (lwip E) unit :=
  match evs with
  | [] => mret ()
  | ev :: evs => lwip_event_step ev;; lwip_run evs
  end.
(** From the start of the lwIP thread. *)
Definition lwip_session (evs : list lwip_event) : ST (lwip E) unit := sys_timeouts_init;; lwip_run evs.

Definition periodic : list (lwip_handler * Z) :=
  [(Arp_timer, ARP_TMR_INTERVAL); (Dhcp_timer_coarse, DHCP_COARSE_TIMER_MSECS); (Dhcp_timer_fine, DHCP_FINE_TIMER_MSECS);
   (Dns_timer, DNS_TMR_INTERVAL)].
Definition stack_handler (h : lwip_handler) : Prop := match h with Other_handler _ => False | _ => True end.
Definition agenda_of s : list (Z * lwip_handler) := deadlines 0 (next_timeout s).
Definition tcp_timer_ok (active : bool) (a : list (Z * lwip_handler)) : Prop :=
  if active then due Tcpip_tcp_timer TCP_TMR_INTERVAL a else entries Tcpip_tcp_timer a = [].
Definition timers_ok s : Prop :=
  times_ok (next_timeout s) /\ (forall h n, In (h, n) periodic -> due h n (agenda_of s)) /\
  tcp_timer_ok (tcpip_tcp_timer_active s) (agenda_of s).

Lemma wp_on_lwip (m : ST E unit) (Q : unit -> lwip E -> Prop) s : (forall e, exists e', m e = Some ((), e')) ->
  (forall e, Q () (Lwip (next_timeout s) (tcpip_tcp_timer_active s) e)) -> wp (on_lwip m) Q s.
Proof. intros Hm HQ. destruct (Hm (lwip_env s)) as (e & E1). unfold wp, on_lwip. rewrite E1. apply HQ. Qed.
(** A timeout that is started is on the agenda afterwards. *)
Lemma wp_lwip_timeout msecs h (Q : unit -> lwip E -> Prop) s : times_ok (next_timeout s) -> 0 <= msecs < 2 ^ 32 ->
  (forall l e, times_ok l -> deadlines 0 l = agenda_add msecs h (agenda_of s) -> Q () (Lwip l (tcpip_tcp_timer_active s) e)) ->
  wp (lwip_timeout msecs h) Q s.
Proof.
  intros Hl Hm HQ. unfold lwip_timeout. destruct (law_memp_malloc (lwip_env s)) as (e & E1). apply wp_bind.
  unfold wp at 1, on_lwip. rewrite E1. wp_step. destruct (sys_timeout_spec 0 msecs h (next_timeout s) Hl Hm) as (E2 & E3 & _).
  rewrite Z.add_0_l in E2. by apply HQ.
Qed.

(** [timers_ok] apart from [h], which is not on the list. *)
Definition timers_ok_but (h : lwip_handler) s : Prop :=
  times_ok (next_timeout s) /\ (stack_handler h -> entries h (agenda_of s) = []) /\
  (forall h' n, In (h', n) periodic -> h' <> h -> due h' n (agenda_of s)) /\
  (h <> Tcpip_tcp_timer -> tcp_timer_ok (tcpip_tcp_timer_active s) (agenda_of s)).

Lemma tcp_ok_add h d active a : h <> Tcpip_tcp_timer -> tcp_timer_ok active a -> tcp_timer_ok active (agenda_add d h a).
Proof. intros Hne. destruct active; cbn; [by apply due_add_ne|by rewrite entries_add_ne]. Qed.
Lemma periodic_not_tcp h n : In (h, n) periodic -> h <> Tcpip_tcp_timer.
Proof. cbn. intuition congruence. Qed.
Lemma periodic_stack h n : In (h, n) periodic -> stack_handler h.
Proof. by destruct h; cbn; intuition congruence. Qed.
Lemma stack_periodic h : stack_handler h -> h = Tcpip_tcp_timer \/ exists n, In (h, n) periodic.
Proof. destruct h; cbn; intros []; first [by left|right; eexists; tauto]. Qed.
Lemma periodic_range h n : In (h, n) periodic -> 0 <= n < 2 ^ 32.
Proof.
  cbn. unfold ARP_TMR_INTERVAL, DHCP_COARSE_TIMER_MSECS, DHCP_FINE_TIMER_MSECS, DNS_TMR_INTERVAL.
  intros Hin; repeat (destruct Hin as [[= <- <-]|Hin]; [lia|]); done.
Qed.
Lemma periodic_one h n n' : In (h, n) periodic -> In (h, n') periodic -> n = n'.
Proof. cbn. intuition congruence. Qed.

Lemma restart_ok h n s : In (h, n) periodic -> timers_ok_but h s -> wp (lwip_timeout n h) (fun _ => timers_ok) s.
Proof.
  intros Hin (Ht & Hh & Hp & Hc). apply wp_lwip_timeout; [done|by apply (periodic_range h)|]. intros l e Hl El.
  unfold timers_ok, agenda_of. cbn [next_timeout tcpip_tcp_timer_active]. rewrite El. split_and!; [done| |].
  - intros h' n' Hin'. destruct (decide (h' = h)) as [->|Hne]; [|by apply due_add_ne; [congruence|apply Hp]].
    rewrite (periodic_one _ _ _ Hin' Hin). by apply due_add_new, Hh, (periodic_stack h n).
  - pose proof (periodic_not_tcp _ _ Hin). by apply tcp_ok_add; [|apply Hc].
Qed.
Lemma periodic_ok h n m s : In (h, n) periodic -> (forall e, exists e', m e = Some ((), e')) -> timers_ok_but h s ->
  wp (on_lwip m;; lwip_timeout n h) (fun _ => timers_ok) s.
Proof. intros Hin Hm Hs. apply wp_bind, wp_on_lwip; [done|]. intros e. by apply restart_ok. Qed.
Lemma tcp_restart_ok s : timers_ok_but Tcpip_tcp_timer s -> tcpip_tcp_timer_active s = true ->
  wp (lwip_timeout TCP_TMR_INTERVAL Tcpip_tcp_timer) (fun _ => timers_ok) s.
Proof.
  intros (Ht & Hh & Hp & _) Ha. apply wp_lwip_timeout; [done|unfold TCP_TMR_INTERVAL; lia|]. intros l e Hl El.
  unfold timers_ok, agenda_of. cbn [next_timeout tcpip_tcp_timer_active]. rewrite El, Ha. split_and!; [done| |].
  - intros h n Hin. pose proof (periodic_not_tcp _ _ Hin). by apply due_add_ne; [congruence|apply Hp].
  - by apply due_add_new, Hh.
Qed.
Lemma tcpip_tcp_timer_ok s : timers_ok_but Tcpip_tcp_timer s -> tcpip_tcp_timer_active s = true ->
  wp tcpip_tcp_timer (fun _ => timers_ok) s.
Proof.
  intros Hs Ha. unfold tcpip_tcp_timer. apply wp_bind, wp_on_lwip; [apply law_tcp_tmr|]. intros e. wp_step. wp_step.
  destruct (tcp_pcbs _); [by apply tcp_restart_ok|]. apply wp_modify. destruct Hs as (Ht & Hh & Hp & _). split_and!; [done| |by apply Hh].
  intros h n Hin. exact (Hp h n Hin (periodic_not_tcp _ _ Hin)).
Qed.
Lemma call_handler_ok h s : timers_ok_but h s -> (h = Tcpip_tcp_timer -> tcpip_tcp_timer_active s = true) ->
  wp (call_handler h) (fun _ => timers_ok) s.
Proof.
  intros Hs Ha. destruct h as [| | | | |k]; cbn [call_handler];
    [by apply tcpip_tcp_timer_ok; [|apply Ha]|eapply periodic_ok; eauto using law_etharp_tmr, law_dhcp_coarse_tmr, law_dhcp_fine_tmr, law_dns_tmr; cbn; tauto..|].
  apply wp_on_lwip; [apply law_other_tmr|]. intros e. destruct Hs as (Ht & _ & Hp & Hc). split_and!; [done| |by apply Hc].
  intros h n Hin. apply Hp; [done|]. intros ->. cbn in Hin. intuition congruence.
Qed.

(** ** Steps *)

Lemma tcp_ok_elapse k active a : 0 <= k -> tcp_timer_ok active a -> tcp_timer_ok active (elapse k a).
Proof. intros Hk. destruct active; cbn; [by apply due_elapse|]. intros Ha. by rewrite entries_elapse, Ha. Qed.
Lemma fetch_turn_ok fetch s : from_option (Z.le 0) True fetch -> timers_ok s ->
  wp (sys_timeouts_mbox_fetch_turn fetch) (fun _ => timers_ok) s.
Proof.
  intros Hf (Ht & Hp & Hc). unfold sys_timeouts_mbox_fetch_turn. do 2 wp_step. destruct (next_timeout s) as [|t l] eqn:El.
  { apply wp_ret. unfold timers_ok. by rewrite El. }
  destruct (mbox_fetch_turn_spec fetch (t :: l) Ht) as (E1 & E2 & E3); [intros n ->; exact Hf|].
  destruct (times_ok_cons _ _ Ht) as (H0 & _). unfold agenda_of in *. rewrite El in Hp, Hc.
  do 2 wp_step. set (s1 := set_next_timeout _ s). assert (Ea : agenda_of s1 = (agenda_turn fetch (deadlines 0 (t :: l))).2) by exact E2.
  rewrite E1. set (a := deadlines 0 (t :: l)) in *. change a with ((0 + t.1, t.2) :: deadlines (0 + t.1) l) in Ea |- *.
  cbn [agenda_turn fst snd] in Ea |- *. destruct (if 0 <? 0 + t.1 then fetch else None) as [n|] eqn:En; cbn [fst snd] in Ea |- *.
  - assert (Hn : 0 <= n) by (destruct (0 <? _); [by rewrite En in Hf|done]).
    apply wp_ret. split; [exact E3|]. rewrite Ea. split; [|by apply tcp_ok_elapse; [lia|]].
    intros h m Hin. by apply due_elapse; [lia|apply Hp].
  - apply wp_bind. eapply wp_mono; [|intros ? ? HQ; apply wp_ret; exact HQ].
    assert (Htail : forall h m, due h m a -> h <> t.2 -> due h m (agenda_of s1)).
    { intros h m Hd Hne. rewrite Ea. apply due_elapse; [lia|]. eapply due_tail_ne; [|exact Hd]. cbn. congruence. }
    assert (Htcp : t.2 = Tcpip_tcp_timer -> tcpip_tcp_timer_active s = true /\ entries t.2 (deadlines (0 + t.1) l) = []).
    { intros Hh. unfold tcp_timer_ok in Hc. destruct (tcpip_tcp_timer_active s).
      - split; [done|]. rewrite Hh. eapply due_tail_eq; [|exact Hc]. done.
      - by destruct (none_tail _ _ _ Hc). }
    apply call_handler_ok; [split_and!|by apply Htcp].
    + exact E3.
    + intros Hst. rewrite Ea, entries_elapse. destruct (stack_periodic _ Hst) as [Hh|[n Hin]]; [by rewrite (proj2 (Htcp Hh))|].
      by rewrite (due_tail_eq t.2 n (0 + t.1, t.2) (deadlines (0 + t.1) l) eq_refl (Hp _ _ Hin)).
    + intros h n Hin Hne. by apply Htail; [apply Hp|].
    + intros Hne. rewrite Ea. apply tcp_ok_elapse; [lia|]. change (tcpip_tcp_timer_active s1) with (tcpip_tcp_timer_active s).
      unfold tcp_timer_ok in *. destruct (tcpip_tcp_timer_active s); [by eapply due_tail_ne; [|exact Hc]|by destruct (none_tail _ _ _ Hc)].
Qed.
Lemma event_step_ok ev s : event_ok ev -> timers_ok s -> wp (lwip_event_step ev) (fun _ => timers_ok) s.
Proof.
  intros Hev Hs. pose proof Hs as (Ht & Hp & Hc). destruct ev as [fetch| |msecs k|k]; cbn [lwip_event_step].
  - apply wp_bind. eapply wp_mono; [by apply fetch_turn_ok|]. intros b s' Hs'. by apply wp_ret.
  - unfold tcp_timer_needed. do 2 wp_step. destruct (tcpip_tcp_timer_active s) eqn:Ea; [by apply wp_ret|]. cbn [negb andb].
    destruct (tcp_pcbs _); [|by apply wp_ret]. do 2 wp_step. apply tcp_restart_ok; [|done]. split_and!; [done|intros _; exact Hc| |done].
    intros h n Hin _. exact (Hp h n Hin).
  - apply wp_lwip_timeout; [done..|]. intros l e Hl El. unfold timers_ok, agenda_of. cbn [next_timeout tcpip_tcp_timer_active]. rewrite El.
    split_and!; [done| |by apply tcp_ok_add]. intros h n Hin. apply due_add_ne; [|by apply Hp]. intros <-. by apply periodic_stack in Hin.
  - apply wp_modify. unfold timers_ok, agenda_of. cbn [next_timeout tcpip_tcp_timer_active set_next_timeout].
    destruct (sys_untimeout_spec 0 (Other_handler k) (next_timeout s) Ht) as (-> & _). split_and!; [by apply sys_untimeout_ok| |].
    + intros h n Hin. destruct (Hp h n Hin) as (d & Ed & Hd). exists d. rewrite entries_cancel_ne; [done|]. intros <-. by apply periodic_stack in Hin.
    + unfold tcp_timer_ok, due in *. by rewrite entries_cancel_ne.
Qed.
Lemma lwip_run_ok evs s : Forall event_ok evs -> timers_ok s -> wp (lwip_run evs) (fun _ => timers_ok) s.
Proof.
  intros Hevs. revert s; induction Hevs as [|ev evs Hev _ IH]; intros s Hs; [by apply wp_ret|]. cbn [lwip_run]. apply wp_bind.
  eapply wp_mono; [by apply event_step_ok|]. intros [] s' Hs'. by apply IH.
Qed.
Lemma timeouts_init_ok e : wp sys_timeouts_init (fun _ => timers_ok) (Lwip [] false e).
Proof.
  unfold sys_timeouts_init.
  apply wp_bind, wp_lwip_timeout; [by split|by vm_compute|]. intros l1 e1 H1 E1.
  apply wp_bind, wp_lwip_timeout; [done|by vm_compute|]. unfold agenda_of. cbn [next_timeout tcpip_tcp_timer_active]. rewrite E1. intros l2 e2 H2 E2.
  apply wp_bind, wp_lwip_timeout; [done|by vm_compute|]. unfold agenda_of. cbn [next_timeout tcpip_tcp_timer_active]. rewrite E2. intros l3 e3 H3 E3.
  apply wp_lwip_timeout; [done|by vm_compute|]. unfold agenda_of. cbn [next_timeout tcpip_tcp_timer_active]. rewrite E3. intros l4 e4 H4 E4.
  split_and!; [done| |]; unfold agenda_of; cbn [next_timeout tcpip_tcp_timer_active]; rewrite E4; [|done].
  intros h n Hin. cbn in Hin. repeat (destruct Hin as [[= <- <-]|Hin]; [eexists; split; [vm_compute; reflexivity|by vm_compute]|]). done.
Qed.
End stack.

(** C32: The periodic timers never stop and never double, as long as no allocation of a
    timeout fails (every memp_malloc succeeds: when one fails sys_timeout does nothing,
    and a periodic timer ends) and the protocol functions (tcp_tmr, etharp_tmr, ...)
    return. Then, whatever times messages take to arrive, whatever TCP connections open
    and whatever other clients start (with delays of 32 bits) and stop on the list, the
    ARP, the two DHCP and the DNS timers are each on it exactly once after
    sys_timeouts_init, due within their interval, and the TCP timer is on it exactly
    once, due within 250 ms, or not at all, as [tcpip_tcp_timer_active] says. *)
Theorem periodic_timers_stay {E} `{!LwipEnv E, !LwipEnvOk E} (e : E) evs : Forall event_ok evs ->
  exists s, lwip_session evs (Lwip [] false e) = Some ((), s) /\
    (forall h n, In (h, n) periodic -> exists d, entries h (agenda_of s) = [(d, h)] /\ d <= n) /\
    (if tcpip_tcp_timer_active s then exists d, entries Tcpip_tcp_timer (agenda_of s) = [(d, Tcpip_tcp_timer)] /\ d <= 250
     else entries Tcpip_tcp_timer (agenda_of s) = []).
Proof.
  intros Hevs. assert (Hw : wp (lwip_session evs) (fun _ => timers_ok) (Lwip [] false e)).
  { apply wp_bind. eapply wp_mono; [apply timeouts_init_ok|]. intros [] s Hs. by apply lwip_run_ok. }
  destruct (wp_run _ _ _ Hw) as ([] & s & E1 & (_ & Hp & Hc)). exists s. split_and!; [done|exact Hp|exact Hc].
Qed.

(** A stack whose functions do nothing; the number is how many TCP connections there
    are. *)
#[export] Instance demo_lwip : LwipEnv nat := {|
  memp_malloc := fun e => Some (true, e); tcp_tmr := fun e => Some ((), pred e); tcp_pcbs := fun e => (0 <? e)%nat;
  etharp_tmr := fun e => Some ((), e); dhcp_coarse_tmr := fun e => Some ((), e); dhcp_fine_tmr := fun e => Some ((), e);
  dns_tmr := fun e => Some ((), e); other_tmr := fun _ e => Some ((), e)
|}.
#[export] Instance demo_lwip_ok : LwipEnvOk nat.
Proof. by split; eexists. Qed.
Lemma periodic_timers_stay_witness : exists s,
  lwip_session [TcpNeeded; ClientTimeout 100 0; MboxFetch None; MboxFetch (Some 90); TcpNeeded; MboxFetch None] (Lwip [] false 2%nat)
  = Some ((), s) /\ agenda_of s <> [] /\ exists d, entries Arp_timer (agenda_of s) = [(d, Arp_timer)] /\ d <= 5000.
Proof.
  destruct (periodic_timers_stay 2%nat [TcpNeeded; ClientTimeout 100 0; MboxFetch None; MboxFetch (Some 90); TcpNeeded; MboxFetch None])
    as (s & E1 & Hp & _); [by repeat constructor|].
  exists s. split; [exact E1|]. destruct (Hp Arp_timer 5000) as (d & Ed & Hd); [by left|]. split; [|by exists d].
  intros Hn. by rewrite Hn in Ed.
Defined.
