(* ===== verification/Sntp.v ===== *)
(** * The SNTP client: extras/sntp/sntp.c and sntp_fun.c

    sntp.c asks a time server with lwIP's raw API: everything happens in callbacks of
    timeouts, received packets and resolved names.  sntp_fun.c keeps the time in the
    scratch registers of the RTC as a number of ticks and a calibration.  The macros
    are the ones of sntp.h: names are resolved by DNS, four servers, and
    SNTP_CHECK_RESPONSE is 0.

    The state is the static variables of both files, the scratch registers, the
    timeouts of this client on lwIP's list (a list of [LwipTimers]: what other clients
    have on it only makes the waits of the thread shorter) and the number of names that
    are being resolved.  [SntpEnv] is the rest: the RTC counter, its calibration, the
    heap, the resolver and the sending of packets.  [None] is a division by zero or
    an access past the end of an array.  The theorems are in [SntpClock] (the time)
    and [SntpClient] (the requests). *)

From S2P Require Import Prelude LwipTimers.
Local Open Scope Z_scope.

Definition u64 (x : Z) : Z := x mod 2 ^ 64.

(** What dns_gethostbyname gives: ERR_OK with an address, ERR_INPROGRESS or another
    error. *)
Inductive dns_result := DnsOk (addr : Z) | DnsInProgress | DnsError.

Class SntpEnv (E : Type) := {
  TIMER_COUNT : ST E Z;
  sdk_system_rtc_clock_cali_proc : ST E Z;
  dns_gethostbyname : option (list Z) -> ST E dns_result;
  pbuf_alloc : ST E bool;
  udp_sendto : Z -> list Z -> ST E unit;
  udp_new : ST E bool;
  (** Whether malloc of this many bytes succeeds, and the memp_malloc of sys_timeout. *)
  malloc : Z -> ST E bool;
  sys_timeo_malloc : ST E bool
}.

(** The functions sys_timeout is given. *)
Inductive handler := Sntp_request | Sntp_try_next_server.
#[export] Instance handler_dec : EqDecision handler.
Proof. solve_decision. Defined.

(** A block of the heap: its size and what was stored from its start on. *)
Record block := { block_size : Z; stored : list Z }.

Record sntp (E : Type) := Sntp {
  sntp_base : Z;
  tim_ref : Z;
  cal : Z;
  tz_minuteswest : Z;
  tz_dsttime : Z;
  sntp_server_addresses : list (option block);
  sntp_num_servers : Z;
  sntp_current_server : Z;
  sntp_update_delay : Z;
  sntp_retry_timeout : Z;
  timeouts : list (Z * handler);
  resolving : nat;
  env : E
}.
Arguments Sntp {E}.
Arguments sntp_base {E}.
Arguments tim_ref {E}.
Arguments cal {E}.
Arguments tz_minuteswest {E}.
Arguments tz_dsttime {E}.
Arguments sntp_server_addresses {E}.
Arguments sntp_num_servers {E}.
Arguments sntp_current_server {E}.
Arguments sntp_update_delay {E}.
Arguments sntp_retry_timeout {E}.
Arguments timeouts {E}.
Arguments resolving {E}.
Arguments env {E}.

Definition SNTP_NUM_SERVERS_SUPPORTED : Z := 4.
Definition SNTP_PORT : Z := 123.
Definition SNTP_RECV_TIMEOUT : Z := 3000.
Definition SNTP_UPDATE_DELAY : Z := 3600000.
Definition SNTP_RETRY_TIMEOUT : Z := SNTP_RECV_TIMEOUT.
Definition SNTP_RETRY_TIMEOUT_MAX : Z := SNTP_RETRY_TIMEOUT * 10.
Definition SNTP_MSG_LEN : Z := 48.
Definition SNTP_OFFSET_LI_VN_MODE : nat := 0.
Definition SNTP_LI_NO_WARNING : Z := 0x00.
Definition SNTP_VERSION : Z := Z.shiftl 4 3.
Definition SNTP_MODE_MASK : Z := 0x07.
Definition SNTP_MODE_CLIENT : Z := 0x03.
Definition SNTP_MODE_SERVER : Z := 0x04.
Definition SNTP_MODE_BROADCAST : Z := 0x05.
Definition SNTP_OFFSET_STRATUM : nat := 1.
Definition SNTP_STRATUM_KOD : Z := 0x00.
Definition SNTP_OFFSET_RECEIVE_TIME : nat := 32.
Definition DIFF_SEC_1900_1970 : Z := 2208988800.
(** "pool.ntp.org" *)
Definition SNTP_SERVER_ADDRESS : list Z := [112; 111; 111; 108; 46; 110; 116; 112; 46; 111; 114; 103].

Section functions.
Context {E : Type} `{!SntpEnv E}.
Implicit Types s : sntp E.

(** ** The state *)

Definition set_clock (base ref c : Z) s : sntp E :=
  Sntp base ref c (tz_minuteswest s) (tz_dsttime s) (sntp_server_addresses s) (sntp_num_servers s)
    (sntp_current_server s) (sntp_update_delay s) (sntp_retry_timeout s) (timeouts s) (resolving s) (env s).
Definition set_stz (west dst : Z) s : sntp E :=
  Sntp (sntp_base s) (tim_ref s) (cal s) west dst (sntp_server_addresses s) (sntp_num_servers s)
    (sntp_current_server s) (sntp_update_delay s) (sntp_retry_timeout s) (timeouts s) (resolving s) (env s).
Definition set_addresses (l : list (option block)) s : sntp E :=
  Sntp (sntp_base s) (tim_ref s) (cal s) (tz_minuteswest s) (tz_dsttime s) l (sntp_num_servers s)
    (sntp_current_server s) (sntp_update_delay s) (sntp_retry_timeout s) (timeouts s) (resolving s) (env s).
Definition set_num_servers (n : Z) s : sntp E :=
  Sntp (sntp_base s) (tim_ref s) (cal s) (tz_minuteswest s) (tz_dsttime s) (sntp_server_addresses s) n
    (sntp_current_server s) (sntp_update_delay s) (sntp_retry_timeout s) (timeouts s) (resolving s) (env s).
Definition set_current_server (n : Z) s : sntp E :=
  Sntp (sntp_base s) (tim_ref s) (cal s) (tz_minuteswest s) (tz_dsttime s) (sntp_server_addresses s)
    (sntp_num_servers s) n (sntp_update_delay s) (sntp_retry_timeout s) (timeouts s) (resolving s) (env s).
Definition set_update_delay (ms : Z) s : sntp E :=
  Sntp (sntp_base s) (tim_ref s) (cal s) (tz_minuteswest s) (tz_dsttime s) (sntp_server_addresses s)
    (sntp_num_servers s) (sntp_current_server s) ms (sntp_retry_timeout s) (timeouts s) (resolving s) (env s).
Definition set_retry_timeout (ms : Z) s : sntp E :=
  Sntp (sntp_base s) (tim_ref s) (cal s) (tz_minuteswest s) (tz_dsttime s) (sntp_server_addresses s)
    (sntp_num_servers s) (sntp_current_server s) (sntp_update_delay s) ms (timeouts s) (resolving s) (env s).
Definition set_timeouts (l : list (Z * handler)) s : sntp E :=
  Sntp (sntp_base s) (tim_ref s) (cal s) (tz_minuteswest s) (tz_dsttime s) (sntp_server_addresses s)
    (sntp_num_servers s) (sntp_current_server s) (sntp_update_delay s) (sntp_retry_timeout s) l (resolving s) (env s).
Definition set_resolving (n : nat) s : sntp E :=
  Sntp (sntp_base s) (tim_ref s) (cal s) (tz_minuteswest s) (tz_dsttime s) (sntp_server_addresses s)
    (sntp_num_servers s) (sntp_current_server s) (sntp_update_delay s) (sntp_retry_timeout s) (timeouts s) n (env s).
Definition set_env (e : E) s : sntp E :=
  Sntp (sntp_base s) (tim_ref s) (cal s) (tz_minuteswest s) (tz_dsttime s) (sntp_server_addresses s)
    (sntp_num_servers s) (sntp_current_server s) (sntp_update_delay s) (sntp_retry_timeout s) (timeouts s) (resolving s) e.
Definition on_env {A} (m : ST E A) : ST (sntp E) A := fun s =>
  match m (env s) with Some (x, e) => Some (x, set_env e s) | None => None end.
Definition fault {A} : ST (sntp E) A := fun _ => None.

(** ** The clock (sntp_fun.c) *)

Definition sntp_set_timezone (tz : option (Z * Z)) : ST (sntp E) unit :=
  match tz with
  | Some (west, dst) => st_modify (set_stz west dst)
  | None => st_modify (set_stz 0 0)
  end.

Definition sntp_check_timer_wrap (current_value : Z) : ST (sntp E) unit :=
  s ← st_get;
  if current_value <? tim_ref s then st_modify (fun s => set_clock (u64 (sntp_base s - 2 ^ 32)) (tim_ref s) (cal s) s)
  else mret ().

(** The seconds, and what is stored at [us]. *)
Definition sntp_get_rtc_time : ST (sntp E) (Z * Z) :=
  tim ← on_env TIMER_COUNT;
  sntp_check_timer_wrap tim;;
  s ← st_get;
  let base := u64 (sntp_base s + tim - tim_ref s) in
  let secs := s32 (u64 (base * cal s) / (1000000 * 2 ^ 12)) in
  mret (secs, s32 (u64 (base * cal s) mod (1000000 * 2 ^ 12))).

(** [None] for the result is EINVAL: [tzp] is not null or [tp] is. *)
Definition _gettimeofday_r (tp tzp : bool) : ST (sntp E) (option (Z * Z)) :=
  if tzp || negb tp then mret None
  else t ← sntp_get_rtc_time; mret (Some t).

Definition sntp_update_rtc (t us : Z) : ST (sntp E) unit :=
  s ← st_get;
  let t := s32 (t + s32 ((tz_minuteswest s + tz_dsttime s * 60) * 60)) in
  let time := u64 (Z.shiftl (u64 (u64 us + u64 t * 1000000)) 12) in
  (* the drift is printed *)
  _ ← on_env TIMER_COUNT;
  s ← st_get;
  if cal s =? 0 then fault
  else
    ref ← on_env TIMER_COUNT;
    st_modify (fun s => set_clock (sntp_base s) ref (cal s) s);;
    c ← on_env sdk_system_rtc_clock_cali_proc;
    st_modify (fun s => set_clock (sntp_base s) (tim_ref s) c s);;
    s ← st_get;
    if cal s =? 0 then fault
    else st_modify (fun s => set_clock (time / cal s) (tim_ref s) (cal s) s).

(** ** Servers and timeouts (sntp.c) *)

Definition sntp_timeout (msecs : Z) (h : handler) : ST (sntp E) unit :=
  timeout ← on_env sys_timeo_malloc;
  st_modify (fun s => set_timeouts (sys_timeout timeout msecs h (timeouts s)) s).
Definition sntp_untimeout (h : handler) : ST (sntp E) unit :=
  st_modify (fun s => set_timeouts (sys_untimeout h (timeouts s)) s).

Definition SNTP_RESET_RETRY_TIMEOUT : ST (sntp E) unit := st_modify (set_retry_timeout SNTP_RETRY_TIMEOUT).

(** free and NULL for the elements [i], [i - 1], ... of the servers. *)
Fixpoint free_servers (n : nat) (l : list (option block)) : list (option block) :=
  match n with
  | O => l
  | S n => free_servers n (<[n := None]> l)
  end.
(** strcpy also copies the NUL, one byte more than malloc(strlen(url)) gave.  The write
    past the block is no fault here and changes nothing else: what a heap does with it is
    not known.  A block keeps its size beside what is stored ([block_size]), so the
    overflow is visible in the state: [stored] is one byte longer than [block_size]. *)
Fixpoint copy_servers (server_url : list (list Z)) (i : nat) : ST (sntp E) bool :=
  match server_url with
  | [] => mret true
  | url :: server_url =>
      ok ← on_env (malloc (Z.of_nat (length url)));
      if (ok : bool) then
        st_modify (fun s => set_addresses (<[i := Some {| block_size := Z.of_nat (length url); stored := url ++ [0] |}]>
                                             (sntp_server_addresses s)) s);;
        copy_servers server_url (S i)
      else
        st_modify (fun s => set_addresses (<[i := None]> (sntp_server_addresses s)) s);;
        st_modify (set_num_servers (Z.of_nat i));;
        mret false
  end.
Definition sntp_set_servers (server_url : list (list Z)) : ST (sntp E) Z :=
  let num_servers := Z.of_nat (length server_url) in
  if SNTP_NUM_SERVERS_SUPPORTED <? num_servers then mret (-1)
  else
    st_modify (fun s => set_addresses (free_servers (Z.to_nat (sntp_num_servers s)) (sntp_server_addresses s)) s);;
    ok ← copy_servers server_url 0;
    if (ok : bool) then st_modify (set_num_servers num_servers);; mret 0 else mret (-2).
Definition sntp_set_update_delay (ms : Z) : ST (sntp E) unit :=
  st_modify (set_update_delay (if 15000 <? ms then ms else 15000)).

(** The C string in a block. *)
Fixpoint c_str (l : list Z) : list Z :=
  match l with
  | [] => []
  | c :: l => if c =? 0 then [] else c :: c_str l
  end.

(** ** Requests *)

Definition sntp_initialize_request : list Z :=
  Z.lor (Z.lor SNTP_LI_NO_WARNING SNTP_VERSION) SNTP_MODE_CLIENT :: repeat 0 (Z.to_nat (SNTP_MSG_LEN - 1)).

Definition sntp_send_request (server_addr : Z) : ST (sntp E) unit :=
  p ← on_env pbuf_alloc;
  if (p : bool) then
    on_env (udp_sendto server_addr sntp_initialize_request);;
    sntp_timeout SNTP_RECV_TIMEOUT Sntp_try_next_server
  else sntp_timeout SNTP_RETRY_TIMEOUT Sntp_request.

Definition sntp_request : ST (sntp E) unit :=
  s ← st_get;
  match sntp_server_addresses s !! Z.to_nat (sntp_current_server s) with
  | None => fault
  | Some address =>
      err ← on_env (dns_gethostbyname (option_map (fun b => c_str (stored b)) address));
      match err with
      | DnsInProgress => st_modify (fun s => set_resolving (S (resolving s)) s)
      | DnsOk server_address => sntp_send_request server_address
      | DnsError => sntp_timeout SNTP_RETRY_TIMEOUT Sntp_try_next_server
      end
  end.

Definition sntp_retry : ST (sntp E) unit :=
  s ← st_get;
  sntp_timeout (sntp_retry_timeout s) Sntp_request;;
  let new_retry_timeout := u32 (Z.shiftl (sntp_retry_timeout s) 1) in
  if (new_retry_timeout <=? SNTP_RETRY_TIMEOUT_MAX) && (sntp_retry_timeout s <? new_retry_timeout)
  then st_modify (set_retry_timeout new_retry_timeout) else mret ().

Definition sntp_try_next_server : ST (sntp E) unit :=
  s ← st_get;
  if 1 <? sntp_num_servers s then
    SNTP_RESET_RETRY_TIMEOUT;;
    st_modify (fun s => set_current_server (u8 (sntp_current_server s + 1)) s);;
    s ← st_get;
    (if sntp_num_servers s <=? sntp_current_server s then st_modify (set_current_server 0) else mret ());;
    sntp_request
  else sntp_retry.

(** ntohl of the word at byte [i] of a packet. *)
Definition ntohl_at (i : nat) (p : list Z) : Z := le_val (rev (take 4 (drop i p))).

Definition sntp_process (sec frac : Z) : ST (sntp E) unit :=
  let t := s32 (u32 (sec - DIFF_SEC_1900_1970)) in
  sntp_update_rtc t (frac / 4295).

Inductive sntp_err := ERR_OK | SNTP_ERR_KOD | ERR_ARG.
(** The checks of a received packet. *)
Definition check_response (p : list Z) : sntp_err :=
  if Z.of_nat (length p) =? SNTP_MSG_LEN then
    let mode := Z.land (nth SNTP_OFFSET_LI_VN_MODE p 0) SNTP_MODE_MASK in
    if (mode =? SNTP_MODE_SERVER) || (mode =? SNTP_MODE_BROADCAST) then
      if nth SNTP_OFFSET_STRATUM p 0 =? SNTP_STRATUM_KOD then SNTP_ERR_KOD else ERR_OK
    else ERR_ARG
  else ERR_ARG.
Definition sntp_recv (p : list Z) : ST (sntp E) unit :=
  sntp_untimeout Sntp_try_next_server;;
  sntp_untimeout Sntp_request;;
  match check_response p with
  | ERR_OK =>
      SNTP_RESET_RETRY_TIMEOUT;;
      sntp_process (ntohl_at SNTP_OFFSET_RECEIVE_TIME p) (ntohl_at (SNTP_OFFSET_RECEIVE_TIME + 4) p);;
      s ← st_get;
      sntp_timeout (sntp_update_delay s) Sntp_request
  | SNTP_ERR_KOD => sntp_try_next_server
  | ERR_ARG => sntp_retry
  end.

Definition sntp_dns_found (ipaddr : option Z) : ST (sntp E) unit :=
  match ipaddr with
  | Some ipaddr => sntp_send_request ipaddr
  | None => sntp_try_next_server
  end.

(** The result says whether there is a pcb, so that packets can arrive. *)
Definition sntp_init : ST (sntp E) bool :=
  st_modify (set_num_servers 0);;
  sntp_set_servers [SNTP_SERVER_ADDRESS];;
  SNTP_RESET_RETRY_TIMEOUT;;
  sntp_pcb ← on_env udp_new;
  if (sntp_pcb : bool) then sntp_request;; mret true else mret false.
Definition sntp_initialize (tz : option (Z * Z)) : ST (sntp E) bool :=
  sntp_set_timezone tz;;
  st_modify (fun s => set_clock 0 (tim_ref s) (cal s) s);;
  st_modify (fun s => set_clock (sntp_base s) (tim_ref s) 1 s);;
  ref ← on_env TIMER_COUNT;
  st_modify (fun s => set_clock (sntp_base s) ref (cal s) s);;
  sntp_init.

(** ** What can happen

    The lwIP thread waits (a timeout is called, or [fetch] milliseconds pass), a packet
    arrives, a name is resolved, or the application calls one of the functions of
    sntp.h. *)
Inductive sntp_event :=
  | Wait (fetch : option Z)
  | Packet (p : list Z)
  | DnsFound (ipaddr : option Z)
  | SetServers (urls : list (list Z))
  | SetUpdateDelay (ms : Z)
  | SetTimezone (tz : option (Z * Z))
  | GetTime.
Definition run_handler (h : handler) : ST (sntp E) unit :=
  match h with Sntp_request => sntp_request | Sntp_try_next_server => sntp_try_next_server end.
Definition handle_event (ev : sntp_event) : ST (sntp E) unit :=
  s ← st_get;
  match ev with
  | Wait fetch =>
      let r := mbox_fetch_turn fetch (timeouts s) in
      st_modify (set_timeouts r.2);;
      match r.1 with Some h => run_handler h | None => mret () end
  | Packet p => sntp_recv p
  | DnsFound ipaddr =>
      match resolving s with
      | S n => st_modify (set_resolving n);; sntp_dns_found ipaddr
      | O => mret ()
      end
  | SetServers urls => _ ← sntp_set_servers urls; mret ()
  | SetUpdateDelay ms => sntp_set_update_delay ms
  | SetTimezone tz => sntp_set_timezone tz
  | GetTime => _ ← sntp_get_rtc_time; mret ()
  end.
Fixpoint handle_events (evs : list sntp_event) : ST (sntp E) unit :=
  match evs with
  | [] => mret ()
  | ev :: evs => handle_event ev;; handle_events evs
  end.
End functions.
