(* ===== verification/SntpClock.v ===== *)
(** * The time of the SNTP client

    [sntp_fun.c] stores the time as RTC ticks.  Until the 32-bit tick counter wraps,
    the time that is read is at most one tick behind the server's time carried on by
    the counter ([sntp_clock_follows]); from the wrap to the next update it is wrong,
    and goes back by 2^32 ticks each time it is read ([sntp_clock_after_wrap]). *)

From S2P Require Import Prelude LwipTimers LwipTimersContract Sntp.
Local Open Scope Z_scope.

(** What the rest of the system promises: [now] is the number of RTC ticks since the
    start, of which the counter shows the low 32 bits; the calibration, the 4096th
    parts of a microsecond in a tick, is positive; every call returns.  A null name is
    refused by dns_gethostbyname, and there is memory for a timeout. *)
Class SntpEnvOk (E : Type) `{!SntpEnv E} := {
  now : E -> Z;
  law_counter e : exists e', TIMER_COUNT e = Some (now e mod 2 ^ 32, e') /\ now e <= now e';
  law_cali e : exists c e', sdk_system_rtc_clock_cali_proc e = Some (c, e') /\ 0 < c < 2 ^ 32 /\ now e <= now e';
  law_dns name e : exists r e', dns_gethostbyname name e = Some (r, e');
  law_dns_null e : exists e', dns_gethostbyname None e = Some (DnsError, e');
  law_alloc e : exists b e', pbuf_alloc e = Some (b, e');
  law_send a p e : exists e', udp_sendto a p e = Some ((), e');
  law_new e : exists b e', udp_new e = Some (b, e');
  law_malloc n e : exists b e', malloc n e = Some (b, e');
  law_sys_timeo e : exists e', sys_timeo_malloc e = Some (true, e') /\ now e <= now e'
}.

(** 4096000000: a second in 4096th parts of a microsecond. *)
Definition SECOND : Z := 1000000 * 2 ^ 12.

Lemma s32_range x : - 2 ^ 31 <= s32 x < 2 ^ 31.
Proof. unfold s32. pose proof (Z.mod_pos_bound (x + 2 ^ 31) (2 ^ 32) eq_refl). lia. Qed.

Section clock.
Context {E : Type} `{!SntpEnv E, !SntpEnvOk E}.
Implicit Types s : sntp E.

Definition same_clock s s' : Prop := sntp_base s' = sntp_base s /\ tim_ref s' = tim_ref s /\ cal s' = cal s.

Lemma sntp_env_run {A} (m : ST E A) s x e : m (env s) = Some (x, e) -> on_env m s = Some (x, set_env e s).
Proof. intros Em. unfold on_env. by rewrite Em. Qed.

(** The time as it is stored, and what is made of [tim], a value of the counter. *)
Definition stored_time (t us c : Z) : Z := (us + t * 1000000) * 2 ^ 12 / c.
Definition local_time s (t : Z) : Z := s32 (t + s32 ((tz_minuteswest s + tz_dsttime s * 60) * 60)).

Lemma update_rtc_run s t us : cal s <> 0 -> 0 <= us < 2 ^ 32 -> 0 <= local_time s t ->
  exists s' n, sntp_update_rtc t us s = Some ((), s') /\ now (env s) <= n <= now (env s') /\
    0 < cal s' < 2 ^ 32 /\ tim_ref s' = n mod 2 ^ 32 /\
    sntp_base s' = u64 ((us + local_time s t * 1000000) * 2 ^ 12) / cal s' /\
    s' = set_env (env s') (set_clock (sntp_base s') (tim_ref s') (cal s') s).
Proof.
  intros Hc Hus Ht. unfold sntp_update_rtc. fold (local_time s t). set (lt := local_time s t) in *.
  assert (Hlt : lt < 2 ^ 31) by apply s32_range.
  destruct (law_counter (env s)) as (e1 & E1 & M1). destruct (law_counter e1) as (e2 & E2 & M2).
  destruct (law_cali e2) as (c & e3 & E3 & Hc3 & M3).
  eexists _, (now e1).
  unfold mbind, st_bind, st_get, st_modify. unfold on_env at 1. rewrite E1. cbn [cal set_env].
  rewrite (proj2 (Z.eqb_neq (cal s) 0)) by done. unfold on_env at 1. cbn [env set_env]. rewrite E2.
  cbn [sntp_base tim_ref cal set_clock set_env env]. unfold on_env. cbn [env set_clock set_env]. rewrite E3.
  cbn [sntp_base tim_ref cal set_clock set_env env]. rewrite (proj2 (Z.eqb_neq c 0)) by lia.
  split; [reflexivity|]. cbn [sntp_base tim_ref cal set_clock set_env env].
  split_and!; try done; try lia. f_equal. rewrite Z.shiftl_mul_pow2 by lia. unfold u64.
  rewrite (Z.mod_small us), (Z.mod_small lt) by lia. by rewrite Zmult_mod_idemp_l.
Qed.

(** A read of the clock. *)
Definition clock_value (base c : Z) : Z := u64 (u64 base * c).
Lemma get_rtc_time_run s (n := now (env s)) (tim := n mod 2 ^ 32)
    (base := if tim <? tim_ref s then u64 (sntp_base s - 2 ^ 32) else sntp_base s) :
  exists s', sntp_get_rtc_time s = Some ((s32 (clock_value (base + tim - tim_ref s) (cal s) / SECOND),
      s32 (clock_value (base + tim - tim_ref s) (cal s) mod SECOND)), s') /\
    now (env s) <= now (env s') /\ s' = set_env (env s') (set_clock base (tim_ref s) (cal s) s).
Proof.
  destruct (law_counter (env s)) as (e1 & E1 & M1). fold n in E1. fold tim in E1.
  exists (set_env e1 (set_clock base (tim_ref s) (cal s) s)). unfold sntp_get_rtc_time.
  rewrite (bind_run _ _ _ _ _ (sntp_env_run _ _ _ _ E1)). unfold sntp_check_timer_wrap, mbind, st_bind, st_get, st_modify, mret, st_ret.
  cbn [tim_ref set_env]. unfold base. destruct (tim <? tim_ref s); (split; [reflexivity|split; [exact M1|]]);
    cbn [set_env set_clock env]; reflexivity.
Qed.

(** Both counters between two wraps. *)
Lemma same_lap a b : a <= b -> a / 2 ^ 32 = b / 2 ^ 32 -> b mod 2 ^ 32 - a mod 2 ^ 32 = b - a.
Proof. intros Hab He. pose proof (Z.div_mod a (2 ^ 32)). pose proof (Z.div_mod b (2 ^ 32)). lia. Qed.
Lemma next_lap a b : b / 2 ^ 32 = a / 2 ^ 32 + 1 -> b mod 2 ^ 32 - a mod 2 ^ 32 = b - a - 2 ^ 32.
Proof. intros He. pose proof (Z.div_mod a (2 ^ 32)). pose proof (Z.div_mod b (2 ^ 32)). lia. Qed.

(** Rounding down to ticks loses less than a tick. *)
Lemma div_mul_bounds x c : 0 < c -> x - c < x / c * c <= x.
Proof. intros Hc. pose proof (Z.div_mod x c). pose proof (Z.mod_pos_bound x c). lia. Qed.

(** After [n0], when the counter was [n0 mod 2 ^ 32]: the true time at tick [n]. *)
Definition time_at (t us c n0 n : Z) : Z := (us + t * 1000000) * 2 ^ 12 + (n - n0) * c.

Lemma clock_value_small b c : 0 <= b * c < 2 ^ 64 -> 0 < c -> clock_value b c = b * c.
Proof. intros Hbc Hc. unfold clock_value, u64. by rewrite Zmult_mod_idemp_l, Z.mod_small. Qed.

(** A correct packet, and the time it carries. *)
Definition packet_sec (p : list Z) : Z := ntohl_at 32 p.
Definition packet_us (p : list Z) : Z := ntohl_at 36 p / 4295.
Definition packet_time s (p : list Z) : Z := local_time s (s32 (u32 (packet_sec p - DIFF_SEC_1900_1970))).

Lemma ntohl_at_range i p : Forall is_byte p -> 0 <= ntohl_at i p < 2 ^ 32.
Proof.
  intros Hp. unfold ntohl_at. set (l := take 4 (drop i p)).
  assert (Hl : Forall is_byte (rev l)) by (by apply Forall_rev, Forall_take, Forall_drop).
  pose proof (le_val_range _ Hl) as R. rewrite length_rev in R. unfold l in *. rewrite length_take in R.
  assert (2 ^ (8 * Z.of_nat (4 `min` length (drop i p))) <= 2 ^ 32) by (apply Z.pow_le_mono_r; lia). lia.
Qed.
(** The timeouts after a packet stopped those of the client. *)
Definition stopped s : list (Z * handler) := sys_untimeout Sntp_request (sys_untimeout Sntp_try_next_server (timeouts s)).
Lemma sntp_recv_ok s p : Forall is_byte p -> check_response p = ERR_OK -> cal s <> 0 -> 0 <= packet_time s p ->
  exists s' n, sntp_recv p s = Some ((), s') /\ now (env s) <= n <= now (env s') /\
    0 < cal s' < 2 ^ 32 /\ tim_ref s' = n mod 2 ^ 32 /\
    sntp_base s' = u64 ((packet_us p + packet_time s p * 1000000) * 2 ^ 12) / cal s' /\
    sntp_retry_timeout s' = SNTP_RETRY_TIMEOUT /\
    timeouts s' = sys_timeout true (sntp_update_delay s) Sntp_request (stopped s).
Proof.
  intros Hp Hok Hc Ht.
  set (s1 := set_retry_timeout SNTP_RETRY_TIMEOUT (set_timeouts (stopped s) s)).
  pose proof (ntohl_at_range 36 p Hp) as R. assert (Hus : 0 <= packet_us p < 2 ^ 32).
  { unfold packet_us. split; [apply Z.div_pos; lia|]. apply Z.div_lt_upper_bound; lia. }
  destruct (update_rtc_run s1 (s32 (u32 (packet_sec p - DIFF_SEC_1900_1970))) (packet_us p) Hc Hus Ht)
    as (s' & n & E1 & Hn & Hc' & Hr & Hb & Es).
  destruct (law_sys_timeo (env s')) as (e & Em & Me).
  set (s2 := set_timeouts (sys_timeout true (sntp_update_delay s') Sntp_request (timeouts s')) (set_env e s')).
  exists s2, n. assert (Er : sntp_recv p s = Some ((), s2)).
  { unfold sntp_recv. rewrite Hok. change (((sntp_process (ntohl_at 32 p) (ntohl_at (32 + 4) p)) ≫= fun _ =>
      s ← st_get; sntp_timeout (sntp_update_delay s) Sntp_request) s1 = Some ((), s2)).
    unfold sntp_process. rewrite (bind_run _ _ _ _ _ E1). rewrite (bind_run _ _ s' s' s') by done. unfold sntp_timeout.
    by rewrite (bind_run _ _ _ _ _ (sntp_env_run _ _ _ _ Em)). }
  assert (F : sntp_retry_timeout s' = SNTP_RETRY_TIMEOUT /\ sntp_update_delay s' = sntp_update_delay s /\ timeouts s' = stopped s).
  { split_and!; rewrite Es; reflexivity. }
  destruct F as (F1 & F2 & F3). split; [exact Er|]. split; [change (env s2) with e; change (env s1) with (env s) in Hn; lia|]. split; [exact Hc'|]. split; [exact Hr|].
  split; [exact Hb|]. split; [exact F1|]. unfold s2. cbn [timeouts set_timeouts]. by rewrite F2, F3.
Qed.
End clock.

Lemma follows_bounds t us c n0 n (base := (us + t * 1000000) * 2 ^ 12 / c) : 0 <= us -> 0 <= t -> 0 < c -> n0 <= n ->
  time_at t us c n0 n - c < (base + (n - n0)) * c <= time_at t us c n0 n /\ 0 <= (base + (n - n0)) * c.
Proof.
  intros Hus Ht Hc Hn. unfold time_at, base. pose proof (div_mul_bounds ((us + t * 1000000) * 2 ^ 12) c Hc).
  assert (0 <= (us + t * 1000000) * 2 ^ 12 / c) by (apply Z.div_pos; [apply Z.mul_nonneg_nonneg|]; lia).
  set (q := (us + t * 1000000) * 2 ^ 12) in *. rewrite Z.mul_add_distr_r. nia.
Qed.

(** C33: After a correct answer of the server the clock carries its time on, for local
    times from 1970 until 2038: the server's time, in the time zone, is not before 1970
    and the time read is below 2^31 s (a later one overflows). The clock is calibrated
    (cal is not 0). A read at tick [n], before the 32-bit counter wraps, gives the
    seconds of a time [v] that is at most one tick behind the server's time (with the
    microseconds rounded as sntp_process does) plus the ticks since the answer, and is
    never ahead of it; reading changes nothing; the next request is scheduled after the
    update delay. What is stored as microseconds is the rest of [v] in 4096th parts of a
    microsecond, wrapped to 32 signed bits, so it may be negative. *)
Theorem sntp_clock_follows {E} `{!SntpEnv E, !SntpEnvOk E} (s : sntp E) p :
  Forall is_byte p -> check_response p = ERR_OK -> cal s <> 0 -> 0 <= packet_time s p ->
  times_ok (timeouts s) -> 0 <= sntp_update_delay s < 2 ^ 32 ->
  exists s1 n0, sntp_recv p s = Some ((), s1) /\ now (env s) <= n0 <= now (env s1) /\
    sntp_retry_timeout s1 = SNTP_RETRY_TIMEOUT /\ In (sntp_update_delay s, Sntp_request) (deadlines 0 (timeouts s1)) /\
    forall s2 n, same_clock s1 s2 -> n = now (env s2) -> n0 <= n -> n0 / 2 ^ 32 = n / 2 ^ 32 ->
      time_at (packet_time s p) (packet_us p) (cal s1) n0 n < 2 ^ 31 * SECOND ->
      exists v s3, sntp_get_rtc_time s2 = Some ((v / SECOND, s32 (v mod SECOND)), s3) /\ same_clock s1 s3 /\
        time_at (packet_time s p) (packet_us p) (cal s1) n0 n - cal s1 < v <= time_at (packet_time s p) (packet_us p) (cal s1) n0 n.
Proof.
  intros Hp Hok Hc Ht Hto Hde. destruct (sntp_recv_ok s p Hp Hok Hc Ht) as (s1 & n0 & E1 & Hn0 & Hc1 & Hr & Hb & Hrt & Htm).
  exists s1, n0. split_and!; try done; try lia. 
  { rewrite Htm. destruct (sys_timeout_spec 0 (sntp_update_delay s) Sntp_request (stopped s)) as (-> & _); [by do 2 apply sys_untimeout_ok|done|].
    rewrite Z.add_0_l. apply agenda_add_in. }
  intros s2 n (B2 & R2 & C2) -> Hn Hlap Hmax.
  pose proof (ntohl_at_range 36 p Hp) as R. set (t := packet_time s p) in *. set (us := packet_us p) in *. set (c := cal s1) in *.
  assert (Hus : 0 <= us) by (apply Z.div_pos; lia).
  destruct (follows_bounds t us c n0 (now (env s2)) Hus Ht ltac:(lia) Hn) as [Hv Hv0]. unfold SECOND in Hmax.
  assert (Hs : u64 ((us + t * 1000000) * 2 ^ 12) = (us + t * 1000000) * 2 ^ 12).
  { apply Z.mod_small. unfold time_at in *. assert (0 <= (now (env s2) - n0) * c) by nia. lia. }
  rewrite Hs in Hb. pose proof (same_lap n0 (now (env s2)) Hn Hlap) as Hd.
  destruct (get_rtc_time_run s2) as (s3 & E3 & _ & Es3). rewrite R2, Hr, C2, B2 in E3, Es3.
  rewrite (proj2 (Z.ltb_ge _ _)) in E3, Es3 by lia. rewrite Hb in E3.
  replace ((us + t * 1000000) * 2 ^ 12 / c + now (env s2) mod 2 ^ 32 - n0 mod 2 ^ 32)
    with ((us + t * 1000000) * 2 ^ 12 / c + (now (env s2) - n0)) in E3 by lia.
  set (v := ((us + t * 1000000) * 2 ^ 12 / c + (now (env s2) - n0)) * c) in *.
  rewrite clock_value_small in E3 by (fold v; lia). fold v in E3.
  rewrite (s32_small (v / SECOND)) in E3.
  2:{ unfold SECOND. split; [pose proof (Z.div_pos v (1000000 * 2 ^ 12)); lia|]. apply Z.div_lt_upper_bound; lia. }
  exists v, s3. split_and!; [exact E3| |lia|lia].
  rewrite Es3. unfold same_clock. cbn. by rewrite ?B2, ?R2, ?C2, ?Hr.
Qed.

(** Once the counter has wrapped, the first read is 2^33 ticks behind, and every
    further read before the next update another 2^32: sntp_check_timer_wrap subtracts
    2^32 from the base where it has to add it, and again at each read. *)
Theorem sntp_clock_after_wrap {E} `{!SntpEnv E, !SntpEnvOk E} (s : sntp E) t us :
  cal s <> 0 -> 0 <= us < 1000000 -> 0 <= local_time s t ->
  exists s1 n0, sntp_update_rtc t us s = Some ((), s1) /\ now (env s) <= n0 <= now (env s1) /\
    forall s2 n, same_clock s1 s2 -> n = now (env s2) -> n < n0 + 2 ^ 32 -> n / 2 ^ 32 = n0 / 2 ^ 32 + 1 ->
      time_at (local_time s t) us (cal s1) n0 n < 2 ^ 31 * SECOND ->
      3 * 2 ^ 32 * cal s1 <= time_at (local_time s t) us (cal s1) n0 n - cal s1 ->
      exists v1 us1 s3, sntp_get_rtc_time s2 = Some ((v1 / SECOND, us1), s3) /\
        time_at (local_time s t) us (cal s1) n0 n - (2 ^ 33 + 1) * cal s1 < v1 <=
          time_at (local_time s t) us (cal s1) n0 n - 2 ^ 33 * cal s1 /\
        (now (env s3) < n0 + 2 ^ 32 -> now (env s3) / 2 ^ 32 = n0 / 2 ^ 32 + 1 ->
         time_at (local_time s t) us (cal s1) n0 (now (env s3)) < 2 ^ 31 * SECOND ->
         exists us2 s4, sntp_get_rtc_time s3 = Some (((v1 + (now (env s3) - n - 2 ^ 32) * cal s1) / SECOND, us2), s4)).
Proof.
  intros Hc Hus Ht. destruct (update_rtc_run s t us Hc ltac:(lia) Ht) as (s1 & n0 & E1 & Hn0 & Hc1 & Hr & Hb & _).
  exists s1, n0. split_and!; try done; try lia. set (lt := local_time s t) in *. set (c := cal s1) in *.
  intros s2 n (B2 & R2 & C2) -> Hn Hlap Hmax Hmin. unfold SECOND in Hmax.
  assert (Hge : n0 <= now (env s2)).
  { pose proof (Z.div_mod n0 (2 ^ 32)). pose proof (Z.div_mod (now (env s2)) (2 ^ 32)).
    pose proof (Z.mod_pos_bound n0 (2 ^ 32)). pose proof (Z.mod_pos_bound (now (env s2)) (2 ^ 32)). lia. }
  destruct (follows_bounds lt us c n0 (now (env s2)) ltac:(lia) Ht ltac:(lia) Hge) as [Hv Hv0].
  set (B := (us + lt * 1000000) * 2 ^ 12 / c) in *.
  assert (Hs : u64 ((us + lt * 1000000) * 2 ^ 12) = (us + lt * 1000000) * 2 ^ 12).
  { apply Z.mod_small. unfold time_at in *. assert (0 <= (now (env s2) - n0) * c) by nia. lia. }
  rewrite Hs in Hb. fold B in Hb. pose proof (next_lap n0 (now (env s2)) Hlap) as Hd.
  assert (HB : 2 ^ 33 <= B + (now (env s2) - n0) - 2 ^ 32 /\ B < 2 ^ 64).
  { unfold B at 2. split; [nia|]. apply Z.div_lt_upper_bound; [lia|]. unfold time_at in *. assert (0 <= (now (env s2) - n0) * c) by nia. nia. }
  destruct (get_rtc_time_run s2) as (s3 & E3 & M3 & Es3). rewrite R2, Hr, C2, B2, Hb in E3, Es3. fold c in E3, Es3.
  rewrite (proj2 (Z.ltb_lt _ _)) in E3, Es3 by lia.
  assert (HB1 : u64 (B - 2 ^ 32) = B - 2 ^ 32) by (apply Z.mod_small; lia). rewrite HB1 in E3, Es3.
  replace (B - 2 ^ 32 + now (env s2) mod 2 ^ 32 - n0 mod 2 ^ 32) with (B + (now (env s2) - n0) - 2 ^ 33) in E3 by lia.
  set (v := (B + (now (env s2) - n0)) * c) in *.
  assert (Ev : (B + (now (env s2) - n0) - 2 ^ 33) * c = v - 2 ^ 33 * c) by (unfold v; ring).
  assert (Hvr : 2 ^ 32 * c <= v - 2 ^ 33 * c) by lia.
  rewrite clock_value_small, Ev in E3 by (rewrite ?Ev; lia).
  rewrite (s32_small ((v - 2 ^ 33 * c) / SECOND)) in E3.
  2:{ unfold SECOND. split; [pose proof (Z.div_pos (v - 2 ^ 33 * c) (1000000 * 2 ^ 12)); lia|]. apply Z.div_lt_upper_bound; lia. }
  exists (v - 2 ^ 33 * c), (s32 ((v - 2 ^ 33 * c) mod SECOND)), s3. split; [exact E3|]. split; [lia|].
  intros Hn3 Hlap3 Hmax3. unfold SECOND in Hmax3.
  destruct (get_rtc_time_run s3) as (s4 & E4 & _). pose proof (next_lap n0 (now (env s3)) Hlap3) as Hd3.
  assert (F : sntp_base s3 = B - 2 ^ 32 /\ tim_ref s3 = n0 mod 2 ^ 32 /\ cal s3 = c).
  { rewrite Es3. by cbn. }
  destruct F as (F1 & F2 & F3). rewrite F1, F2, F3 in E4. rewrite (proj2 (Z.ltb_lt _ _)) in E4 by lia.
  assert (HB2 : u64 (B - 2 ^ 32 - 2 ^ 32) = B - 2 ^ 33) by (unfold u64; rewrite Z.mod_small; lia). rewrite HB2 in E4.
  replace (B - 2 ^ 33 + now (env s3) mod 2 ^ 32 - n0 mod 2 ^ 32)
    with (B + (now (env s2) - n0) - 2 ^ 33 + (now (env s3) - now (env s2) - 2 ^ 32)) in E4 by lia.
  assert (Ew : (B + (now (env s2) - n0) - 2 ^ 33 + (now (env s3) - now (env s2) - 2 ^ 32)) * c =
    v - 2 ^ 33 * c + (now (env s3) - now (env s2) - 2 ^ 32) * c) by (rewrite Z.mul_add_distr_r, Ev; done).
  destruct (follows_bounds lt us c n0 (now (env s3)) ltac:(lia) Ht ltac:(lia) (Z.le_trans _ _ _ Hge M3)) as [Hw _]. fold B in Hw.
  set (w := v - 2 ^ 33 * c + (now (env s3) - now (env s2) - 2 ^ 32) * c) in *.
  assert (Hw1 : 0 <= w <= (B + (now (env s3) - n0)) * c) by (unfold w, v in *; nia).
  rewrite clock_value_small, Ew in E4 by (rewrite ?Ew; lia).
  rewrite (s32_small (w / SECOND)) in E4.
  2:{ unfold SECOND. split; [pose proof (Z.div_pos w (1000000 * 2 ^ 12)); lia|]. apply Z.div_lt_upper_bound; lia. }
  by eexists _, s4.
Qed.
