(* ===== verification/SntpClient.v ===== *)
(** * The requests of the SNTP client

    Whatever arrives, the client always waits for something that makes it send the
    next request, and never asks more often than every three seconds
    ([sntp_never_stalls]); but after a call of sntp_set_servers with one server it may
    never ask that server ([sntp_stale_server]).  The end of the file has a concrete
    environment. *)

From S2P Require Import Prelude LwipTimers LwipTimersContract Sntp SntpClock.
Local Open Scope Z_scope.

Ltac delay := unfold SNTP_RETRY_TIMEOUT, SNTP_RECV_TIMEOUT, SNTP_UPDATE_DELAY in *; lia.

Section client.
Context {E : Type} `{!SntpEnv E, !SntpEnvOk E}.
(** The longest update delay that is ever set. *)
Context (D : Z) (D_range : SNTP_UPDATE_DELAY <= D < 2 ^ 32).
Implicit Types s : sntp E.

(** ** The invariant *)

(** Null pointers from the number of servers on. *)
Definition null_from (n : Z) (l : list (option block)) : Prop :=
  length l = 4%nat /\ forall i, n <= Z.of_nat i < 4 -> l !! i = Some None.
Record sntp_ok s : Prop := {
  ok_null : null_from (sntp_num_servers s) (sntp_server_addresses s);
  ok_num : 0 <= sntp_num_servers s <= 4;
  ok_current : 0 <= sntp_current_server s < 4;
  ok_cal : cal s <> 0;
  ok_retry : In (sntp_retry_timeout s) [3000; 6000; 12000; 24000];
  ok_delay : 15000 <= sntp_update_delay s <= D;
  ok_timeouts : times_ok (timeouts s) /\ total (timeouts s) <= D
}.
(** The client waits for a timeout or for the resolver. *)
Definition waiting s : Prop := timeouts s <> [] \/ resolving s <> O.

Lemma wp_sntp_env {A} (m : ST E A) s (Q : A -> sntp E -> Prop) : (exists x e', m (env s) = Some (x, e')) ->
  (forall x e', m (env s) = Some (x, e') -> Q x (set_env e' s)) -> wp (on_env m) Q s.
Proof. intros (x & e' & E1) HQ. unfold wp, on_env. rewrite E1. by apply HQ. Qed.

Ltac ok_fields := match goal with H : sntp_ok _ |- _ => destruct H end.
Ltac env_step := apply wp_bind, wp_sntp_env; [eauto using law_alloc, law_send, law_new, law_malloc, law_dns|].

Lemma ok_set_env e s : sntp_ok s -> sntp_ok (set_env e s).
Proof. by intros []. Qed.
Lemma ok_set_retry n s : sntp_ok s -> In n [3000; 6000; 12000; 24000] -> sntp_ok (set_retry_timeout n s).
Proof. intros [] Hn. by split. Qed.
Lemma ok_set_timeouts l s : sntp_ok s -> times_ok l /\ total l <= D -> sntp_ok (set_timeouts l s).
Proof. intros [] Hl. by split. Qed.
Lemma ok_set_current n s : sntp_ok s -> 0 <= n < 4 -> sntp_ok (set_current_server n s).
Proof. intros [] Hn. by split. Qed.
Lemma ok_set_resolving n s : sntp_ok s -> sntp_ok (set_resolving n s).
Proof. by intros []. Qed.
Lemma ok_set_clock b r c s : sntp_ok s -> c <> 0 -> sntp_ok (set_clock b r c s).
Proof. intros [] Hc. by split. Qed.

Lemma timeout_ok ms h s : sntp_ok s -> 0 <= ms <= D ->
  wp (sntp_timeout ms h) (fun _ s' => sntp_ok s' /\ waiting s') s.
Proof.
  intros Hs Hms. unfold sntp_timeout. destruct (law_sys_timeo (env s)) as (e & E1 & _). apply wp_bind.
  eapply wp_of_run; [apply sntp_env_run; exact E1|]. apply wp_modify. cbn [timeouts set_env]. destruct (ok_timeouts s Hs) as [Ht HT].
  destruct (sys_timeout_spec 0 ms h (timeouts s) Ht ltac:(lia)) as (_ & Ht' & ET). split.
  - apply ok_set_timeouts; [by apply ok_set_env|]. split; [done|lia].
  - left. cbn [timeouts set_timeouts]. apply sys_timeout_nonempty.
Qed.
Lemma retry_range s : sntp_ok s -> 3000 <= sntp_retry_timeout s <= 24000.
Proof. intros []. cbn [In] in *. lia. Qed.

(** ** Every function that is called back leaves the client waiting *)

Lemma send_request_ok a s : sntp_ok s -> wp (sntp_send_request a) (fun _ s' => sntp_ok s' /\ waiting s') s.
Proof.
  intros Hs. unfold sntp_send_request. env_step. intros b e1 _. destruct b.
  - env_step. intros [] e2 _. apply timeout_ok; [by do 2 apply ok_set_env|delay].
  - apply timeout_ok; [by apply ok_set_env|delay].
Qed.
Lemma request_ok s : sntp_ok s -> wp sntp_request (fun _ s' => sntp_ok s' /\ waiting s') s.
Proof.
  intros Hs. unfold sntp_request. wp_step. wp_step. destruct (ok_null s Hs) as [HL _]. pose proof (ok_current s Hs).
  destruct (sntp_server_addresses s !! Z.to_nat (sntp_current_server s)) as [a|] eqn:Ea.
  2:{ apply lookup_ge_None in Ea. lia. }
  env_step. intros r e1 _. destruct r as [addr| |].
  - by apply send_request_ok, ok_set_env.
  - apply wp_modify. split; [by apply ok_set_resolving, ok_set_env|]. by right.
  - apply timeout_ok; [by apply ok_set_env|delay].
Qed.
Lemma retry_ok s : sntp_ok s -> wp sntp_retry (fun _ s' => sntp_ok s' /\ waiting s') s.
Proof.
  intros Hs. unfold sntp_retry. wp_step. wp_step. pose proof (retry_range s Hs) as Hr. apply wp_bind.
  eapply wp_mono; [apply timeout_ok; [done|delay]|]. intros _ s' [Hs' Hw]. cbv beta.
  rewrite Z.shiftl_mul_pow2, u32_small by lia. destruct (_ && _) eqn:Et; [|by apply wp_ret].
  apply wp_modify. split; [|exact Hw]. apply ok_set_retry; [done|]. zbool. unfold SNTP_RETRY_TIMEOUT_MAX, SNTP_RETRY_TIMEOUT, SNTP_RECV_TIMEOUT in *.
  pose proof (ok_retry s Hs) as Hi. cbn [In] in *. lia.
Qed.
Lemma try_next_ok s : sntp_ok s -> wp sntp_try_next_server (fun _ s' => sntp_ok s' /\ waiting s') s.
Proof.
  intros Hs. unfold sntp_try_next_server. wp_step. wp_step. destruct (Z.ltb_spec 1 (sntp_num_servers s)); [|by apply retry_ok].
  pose proof (ok_current s Hs). pose proof (ok_num s Hs). unfold SNTP_RESET_RETRY_TIMEOUT. do 6 wp_step.
  cbn [sntp_num_servers sntp_current_server set_current_server set_retry_timeout].
  rewrite u8_small by lia. set (s1 := set_current_server (sntp_current_server s + 1) (set_retry_timeout SNTP_RETRY_TIMEOUT s)).
  assert (Hs1 : sntp_ok (set_retry_timeout SNTP_RETRY_TIMEOUT s)) by (apply ok_set_retry; cbn; auto).
  apply wp_bind. destruct (Z.leb_spec (sntp_num_servers s) (sntp_current_server s + 1)).
  - apply wp_modify, request_ok. exact (ok_set_current 0 _ Hs1 ltac:(lia)).
  - apply wp_ret, request_ok. apply ok_set_current; [done|lia].
Qed.

Lemma ok_untimeout h s : sntp_ok s -> sntp_ok (set_timeouts (sys_untimeout h (timeouts s)) s).
Proof.
  intros Hs. destruct (ok_timeouts s Hs) as [Ht HT]. apply ok_set_timeouts; [done|]. split; [by apply sys_untimeout_ok|].
  destruct (sys_untimeout_spec 0 h (timeouts s) Ht) as (_ & _ & ET). lia.
Qed.
Lemma update_rtc_ok t us s : sntp_ok s -> wp (sntp_update_rtc t us) (fun _ s' => sntp_ok s') s.
Proof.
  intros Hs. unfold sntp_update_rtc. wp_step. wp_step. apply wp_bind, wp_sntp_env.
  { destruct (law_counter (env s)) as (e & E1 & _). eauto. }
  intros c0 e0 _. wp_step. wp_step. cbn [cal set_env]. rewrite (proj2 (Z.eqb_neq _ 0)) by apply Hs.
  apply wp_bind, wp_sntp_env. { destruct (law_counter (env (set_env e0 s))) as (e & E1 & _). eauto. }
  intros ref e1 _. do 2 wp_step. apply wp_bind. destruct (law_cali e1) as (c & e2 & E2 & Hc & _). eapply wp_of_run.
  { apply sntp_env_run. exact E2. }
  do 4 wp_step. cbn [cal set_clock]. rewrite (proj2 (Z.eqb_neq c 0)) by lia. wp_step.
  apply ok_set_clock; [|cbn; lia]. apply ok_set_clock; [|lia]. apply ok_set_env, ok_set_clock; [by do 2 apply ok_set_env|].
  cbn [cal set_env]. apply Hs.
Qed.
Lemma recv_ok p s : sntp_ok s -> wp (sntp_recv p) (fun _ s' => sntp_ok s' /\ waiting s') s.
Proof.
  intros Hs. unfold sntp_recv, sntp_untimeout. do 4 wp_step.
  match goal with |- wp _ _ ?x => assert (Hs1 : sntp_ok x); [|set (s1 := x) in *] end.
  { by do 2 apply ok_untimeout. }
  clearbody s1. destruct (check_response p); [|by apply try_next_ok|by apply retry_ok].
  unfold SNTP_RESET_RETRY_TIMEOUT. do 2 wp_step. apply wp_bind. unfold sntp_process.
  eapply wp_mono; [apply update_rtc_ok, ok_set_retry; [done|cbn; auto]|]. cbv beta. intros _ s2 Hs2.
  do 2 wp_step. apply timeout_ok; [done|]. pose proof (ok_delay s2 Hs2). lia.
Qed.
Lemma dns_found_ok a s : sntp_ok s -> wp (sntp_dns_found a) (fun _ s' => sntp_ok s' /\ waiting s') s.
Proof. intros Hs. destruct a; [by apply send_request_ok|by apply try_next_ok]. Qed.

(** ** The list of servers *)

Lemma free_servers_null n l i : null_from (Z.of_nat n) l -> (n <= 4)%nat -> (i < 4)%nat -> free_servers n l !! i = Some None.
Proof.
  revert l; induction n as [|n IH]; intros l [HL HN] Hn Hi; cbn [free_servers]; [apply HN; lia|].
  apply IH; [|lia|done]. split; [by rewrite length_insert|]. intros j Hj.
  destruct (decide (j = n)) as [->|]; [apply list_lookup_insert_eq; lia|].
  rewrite list_lookup_insert_ne by done. apply HN. lia.
Qed.
Lemma free_servers_length n l : length (free_servers n l) = length l.
Proof. revert l; induction n as [|n IH]; intros l; cbn [free_servers]; [done|]. by rewrite IH, length_insert. Qed.

(** Only the servers differ. *)
Definition same_but_servers s s' : Prop :=
  cal s' = cal s /\ sntp_retry_timeout s' = sntp_retry_timeout s /\ sntp_update_delay s' = sntp_update_delay s /\
  timeouts s' = timeouts s /\ resolving s' = resolving s /\ sntp_current_server s' = sntp_current_server s.
Lemma copy_servers_spec urls i s : null_from (Z.of_nat i) (sntp_server_addresses s) -> (i + length urls <= 4)%nat ->
  wp (copy_servers urls i) (fun ok s' => same_but_servers s s' /\
    (forall j, (j < i)%nat -> sntp_server_addresses s' !! j = sntp_server_addresses s !! j) /\
    if ok then null_from (Z.of_nat (i + length urls)) (sntp_server_addresses s')
    else null_from (sntp_num_servers s') (sntp_server_addresses s') /\ 0 <= sntp_num_servers s' <= 4) s.
Proof.
  revert i s; induction urls as [|url urls IH]; intros i s [HL HN] Hi; cbn [copy_servers length] in *.
  { apply wp_ret. rewrite Nat.add_0_r. unfold same_but_servers. by split_and!. }
  env_step. intros b e _. destruct b.
  - do 2 wp_step. cbn [sntp_server_addresses set_env].
    match goal with |- wp _ _ ?x => set (s1 := x) end.
    assert (Hn : null_from (Z.of_nat (S i)) (sntp_server_addresses s1)).
    { cbn [s1 sntp_server_addresses set_addresses]. split; [by rewrite length_insert|]. intros j Hj.
      rewrite list_lookup_insert_ne by lia. apply HN. lia. }
    eapply wp_mono; [apply IH; [exact Hn|lia]|]. cbv beta. intros ok s' (Hsame & Hj & Hok). split_and!.
    + unfold same_but_servers in *. exact Hsame.
    + intros j Hji. rewrite Hj by lia. cbn [s1 sntp_server_addresses set_addresses]. by rewrite list_lookup_insert_ne by lia.
    + replace (i + S (length urls))%nat with (S i + length urls)%nat by lia. exact Hok.
  - do 4 wp_step. apply wp_ret. cbn [sntp_server_addresses sntp_num_servers set_addresses set_num_servers set_env]. split_and!; try done; try lia.
    + intros j Hj. by rewrite list_lookup_insert_ne by lia.
    + split; [by rewrite length_insert|]. intros j Hj. destruct (decide (j = i)) as [->|]; [apply list_lookup_insert_eq; lia|].
      rewrite list_lookup_insert_ne by done. apply HN. lia.
Qed.
Lemma same_but_servers_ok s s' : sntp_ok s -> same_but_servers s s' -> null_from (sntp_num_servers s') (sntp_server_addresses s') ->
  0 <= sntp_num_servers s' <= 4 -> sntp_ok s' /\ (waiting s -> waiting s').
Proof.
  intros [] (E1 & E2 & E3 & E4 & E5 & E6) Hn H4. unfold waiting. rewrite E4, E5. split; [|done].
  split; rewrite ?E1, ?E2, ?E3, ?E4, ?E6; done.
Qed.
(** sntp_set_servers from a state whose first [num_servers] servers may be set. *)
Lemma set_servers_spec urls s : 0 <= sntp_num_servers s <= 4 -> null_from (sntp_num_servers s) (sntp_server_addresses s) ->
  wp (sntp_set_servers urls) (fun r s' => same_but_servers s s' /\
    null_from (sntp_num_servers s') (sntp_server_addresses s') /\ 0 <= sntp_num_servers s' <= 4 /\
    (r = 0 -> sntp_num_servers s' = Z.of_nat (length urls))) s.
Proof.
  intros Hn H0. unfold sntp_set_servers, SNTP_NUM_SERVERS_SUPPORTED. destruct (Z.ltb_spec 4 (Z.of_nat (length urls))).
  { apply wp_ret. unfold same_but_servers. split_and!; try done; lia. }
  do 2 wp_step. match goal with |- wp _ _ ?x => set (s1 := x) end.
  assert (HN : null_from (Z.of_nat 0) (sntp_server_addresses s1)).
  { cbn [s1 sntp_server_addresses set_addresses]. split; [rewrite free_servers_length; apply H0|].
    intros i Hi. apply free_servers_null; [by rewrite Z2Nat.id by lia|lia|lia]. }
  apply wp_bind. eapply wp_mono; [apply copy_servers_spec; [exact HN|lia]|]. cbv beta. intros ok s2 (Hsame & _ & Hok). destruct ok.
  - do 2 wp_step. apply wp_ret. cbn [sntp_num_servers set_num_servers sntp_server_addresses]. split_and!; try done; lia.
  - apply wp_ret. destruct Hok. split_and!; try done; lia.
Qed.

(** ** Events *)

(** The time the thread waits is not negative, and no update delay is above [D]. *)
Definition event_in (ev : sntp_event) : Prop :=
  match ev with Wait fetch => from_option (Z.le 0) True fetch | SetUpdateDelay ms => ms <= D | _ => True end.
Lemma wait_ok fetch s : from_option (Z.le 0) True fetch -> sntp_ok s ->
  sntp_ok (set_timeouts (mbox_fetch_turn fetch (timeouts s)).2 s).
Proof.
  intros Hev Hs. destruct (ok_timeouts s Hs) as [Ht HT]. assert (Hf : forall n, fetch = Some n -> 0 <= n) by (intros n ->; exact Hev).
  destruct (mbox_fetch_turn_spec fetch _ Ht Hf) as (_ & _ & Ht'). destruct (mbox_fetch_turn_total fetch _ Ht Hf) as [HT' _].
  apply ok_set_timeouts; [done|split; [done|lia]].
Qed.
Lemma handle_event_ok ev s : event_in ev -> sntp_ok s -> waiting s -> wp (handle_event ev) (fun _ s' => sntp_ok s' /\ waiting s') s.
Proof.
  intros Hev Hs Hw. unfold handle_event. do 2 wp_step. destruct ev as [fetch|p|a|urls|ms|tz|].
  - do 2 wp_step. assert (Hs1 : sntp_ok (set_timeouts (mbox_fetch_turn fetch (timeouts s)).2 s)) by by apply wait_ok.
    destruct ((mbox_fetch_turn fetch (timeouts s)).1) as [h|] eqn:Eh; [destruct h; [by apply request_ok|by apply try_next_ok]|].
    apply wp_ret. split; [exact Hs1|]. destruct Hw as [Hw|Hw]; [left|by right]. destruct (ok_timeouts s Hs) as [Ht _].
    destruct (mbox_fetch_turn_total fetch _ Ht) as [_ Hne]; [intros n ->; exact Hev|]. by apply Hne.
  - by apply recv_ok.
  - destruct (resolving s) as [|n] eqn:En; [by apply wp_ret|]. do 2 wp_step. by apply dns_found_ok, ok_set_resolving.
  - apply wp_bind. eapply wp_mono; [apply set_servers_spec; [apply Hs|apply Hs]|]. cbv beta. intros r s' (Hsame & Hn & H4 & _).
    apply wp_ret. destruct (same_but_servers_ok s s' Hs Hsame Hn H4) as [Hs' Hw']. auto.
  - apply wp_modify. split; [|exact Hw]. destruct Hs. split; try done. cbn in Hev |- *. destruct (Z.ltb_spec 15000 ms); delay.
  - destruct tz as [[w d]|]; apply wp_modify; (split; [by destruct Hs; split|exact Hw]).
  - apply wp_bind. destruct (get_rtc_time_run s) as (s' & E1 & _ & Es). eapply wp_of_run; [exact E1|]. apply wp_ret.
    rewrite Es. split; [apply ok_set_env, ok_set_clock; [done|apply Hs]|exact Hw].
Qed.
Lemma handle_events_ok evs s : Forall event_in evs -> sntp_ok s -> waiting s -> wp (handle_events evs) (fun _ s' => sntp_ok s' /\ waiting s') s.
Proof.
  intros Hev. revert s; induction Hev as [|ev evs Hev _ IH]; intros s Hs Hw; [by apply wp_ret|]. cbn [handle_events]. apply wp_bind.
  eapply wp_mono; [by apply handle_event_ok|]. cbv beta. intros _ s' [Hs' Hw']. by apply IH.
Qed.
End client.

(** The static variables before sntp_initialize; the scratch registers of the RTC hold
    anything. *)
Definition static_sntp {E} (base ref c : Z) (e : E) : sntp E :=
  Sntp base ref c 0 0 [None; None; None; None] 0 0 SNTP_UPDATE_DELAY 0 [] 0 e.

Lemma wp_and {W A} (m : ST W A) (P Q : A -> W -> Prop) w : wp m P w -> wp m Q w -> wp m (fun x w' => P x w' /\ Q x w') w.
Proof. unfold wp. by destruct (m w) as [[x w']|]. Qed.

Lemma initialize_ok {E} `{!SntpEnv E, !SntpEnvOk E} D tz base ref c (e : E) : SNTP_UPDATE_DELAY <= D < 2 ^ 32 ->
  wp (sntp_initialize tz) (fun pcb s => pcb = true -> sntp_ok D s /\ waiting s) (static_sntp base ref c e).
Proof.
  intros HD. unfold sntp_initialize. apply wp_bind.
  assert (Hz : exists w d, sntp_set_timezone tz (static_sntp base ref c e) = Some ((), set_stz w d (static_sntp base ref c e))).
  { destruct tz as [[w d]|]; by eexists _, _. }
  destruct Hz as (w & d & Ez). eapply wp_of_run; [exact Ez|]. do 4 wp_step. apply wp_bind, wp_sntp_env.
  { cbn [env set_clock set_stz static_sntp]. destruct (law_counter e) as (e1 & E1 & _). eauto. }
  intros tick e1 _. do 2 wp_step. unfold sntp_init. do 2 wp_step. apply wp_bind.
  match goal with |- wp _ _ ?x => set (s0 := x) end.
  eapply wp_mono; [apply set_servers_spec; [cbn; lia|]|].
  { split; [done|]. intros i Hi. cbn [s0 sntp_server_addresses set_num_servers set_clock set_env set_stz static_sntp].
    destruct i as [|[|[|[|i]]]]; try done; lia. }
  cbv beta. intros r s1 (Hsame & Hn & H4 & _). unfold SNTP_RESET_RETRY_TIMEOUT. do 2 wp_step.
  assert (Hs1 : sntp_ok D (set_retry_timeout SNTP_RETRY_TIMEOUT s1)).
  { destruct Hsame as (S1 & S2 & S3 & S4 & S5 & S6). split; cbn [sntp_num_servers sntp_server_addresses sntp_current_server cal
      sntp_retry_timeout sntp_update_delay timeouts set_retry_timeout]; rewrite ?S1, ?S3, ?S4, ?S6; try done; cbn; try delay; auto.
    split; [by split|delay]. }
  apply wp_bind, wp_sntp_env; [apply law_new|]. intros b e2 _. destruct b; [|by apply wp_ret].
  apply wp_bind. eapply wp_mono; [by apply request_ok, ok_set_env|]. cbv beta. intros _ s2 [H1 H2]. by apply wp_ret.
Qed.

(** C30: the client never stalls: after sntp_initialize got its pcb, however long the
    thread waits, whatever packets arrive, names are resolved or not and functions of
    sntp.h are called, every call returns, and a timeout or the resolver will make the
    client go on; every timeout is due within the longest update delay that was set (an
    hour if none was longer), and the retry timeout is one of 3, 6, 12 and 24 seconds.
    ([SntpEnvOk]: there is memory for the timeouts.) *)
Theorem sntp_never_stalls {E} `{!SntpEnv E, !SntpEnvOk E} D tz base ref c (e : E) s1 evs :
  SNTP_UPDATE_DELAY <= D < 2 ^ 32 -> Forall (event_in D) evs ->
  sntp_initialize tz (static_sntp base ref c e) = Some (true, s1) ->
  exists s2, handle_events evs s1 = Some ((), s2) /\ (timeouts s2 <> [] \/ resolving s2 <> O) /\
    Forall (fun t => t.1 <= D) (deadlines 0 (timeouts s2)) /\ In (sntp_retry_timeout s2) [3000; 6000; 12000; 24000] /\
    0 <= sntp_current_server s2 < 4.
Proof.
  intros HD He E1. destruct (wp_det _ _ _ _ _ (initialize_ok D tz base ref c e HD) E1 eq_refl) as [Hs Hw].
  destruct (wp_run _ _ _ (handle_events_ok D HD evs s1 He Hs Hw)) as ([] & s2 & E2 & Hs2 & Hw2).
  exists s2. destruct (ok_timeouts D s2 Hs2) as [[Ht _] HT]. split_and!; try done; try apply Hs2.
  eapply Forall_impl; [by apply deadlines_total|]. cbn. intros; lia.
Qed.

(** ** One server too many *)

Definition no_set_servers (ev : sntp_event) : Prop := match ev with SetServers _ => False | _ => True end.

Section stale.
Context {E : Type} `{!SntpEnv E, !SntpEnvOk E}.
(** A property of the world that reading the counter, calibrating and asking the
    resolver for a null name keep; sending a packet need not. *)
Context (P : E -> Prop).
Definition kept {A} (m : ST E A) : Prop := forall e x e', P e -> m e = Some (x, e') -> P e'.
Context (P_counter : kept TIMER_COUNT) (P_cali : kept sdk_system_rtc_clock_cali_proc) (P_null : kept (dns_gethostbyname None))
  (P_memp : kept sys_timeo_malloc).
Context (D : Z) (D_range : SNTP_UPDATE_DELAY <= D < 2 ^ 32).

Definition stale (k : Z) (s : sntp E) : Prop :=
  sntp_num_servers s = 1 /\ sntp_current_server s = k /\ 1 <= k /\ resolving s = O /\ P (env s).

Lemma stale_timeout k ms h s : stale k s -> wp (sntp_timeout ms h) (fun _ s' => stale k s') s.
Proof.
  intros (H1 & H2 & H3 & H4 & H5). unfold sntp_timeout. destruct (law_sys_timeo (env s)) as (e & E1 & _). apply wp_bind.
  eapply wp_of_run; [apply sntp_env_run; exact E1|]. apply wp_modify. unfold stale. cbn. split_and!; try done. by eapply P_memp.
Qed.
Lemma stale_request k s : sntp_ok D s -> stale k s -> wp sntp_request (fun _ s' => stale k s') s.
Proof.
  intros Hs (H1 & H2 & H3 & H4 & H5). unfold sntp_request. do 2 wp_step. destruct (ok_null D s Hs) as [_ HN].
  rewrite HN by (pose proof (ok_current D s Hs); lia). cbn [option_map]. destruct (law_dns_null (env s)) as (e & E1).
  apply wp_bind. eapply wp_of_run; [by apply sntp_env_run|]. apply stale_timeout. unfold stale. cbn. split_and!; try done.
  by eapply P_null.
Qed.
Lemma stale_retry k s : stale k s -> wp sntp_retry (fun _ s' => stale k s') s.
Proof.
  intros Hs. unfold sntp_retry. do 2 wp_step. apply wp_bind. eapply wp_mono; [by apply stale_timeout|]. cbv beta. intros _ s' Hs'.
  destruct (_ && _); [by apply wp_modify|by apply wp_ret].
Qed.
Lemma stale_try_next k s : stale k s -> wp sntp_try_next_server (fun _ s' => stale k s') s.
Proof.
  intros Hs. unfold sntp_try_next_server. do 2 wp_step. destruct Hs as (H1 & Hs). rewrite H1. by apply stale_retry.
Qed.
Lemma stale_update_rtc k t us s : sntp_ok D s -> stale k s -> wp (sntp_update_rtc t us) (fun _ s' => stale k s') s.
Proof.
  intros Hs (H1 & H2 & H3 & H4 & H5). unfold sntp_update_rtc. do 2 wp_step.
  destruct (law_counter (env s)) as (e1 & E1 & _). apply wp_bind. eapply wp_of_run; [apply sntp_env_run; exact E1|]. do 2 wp_step.
  cbn [cal set_env]. rewrite (proj2 (Z.eqb_neq _ 0)) by apply Hs.
  destruct (law_counter e1) as (e2 & E2 & _). apply wp_bind. eapply wp_of_run; [apply sntp_env_run; exact E2|]. do 2 wp_step.
  destruct (law_cali e2) as (c & e3 & E3 & Hc & _). apply wp_bind. eapply wp_of_run; [apply sntp_env_run; exact E3|]. do 4 wp_step.
  cbn [cal set_clock]. rewrite (proj2 (Z.eqb_neq c 0)) by lia. wp_step. unfold stale. cbn. split_and!; try done.
  eapply P_cali; [|exact E3]. eapply P_counter; [|exact E2]. by eapply P_counter; [|exact E1].
Qed.
Lemma stale_event k ev s : no_set_servers ev -> event_in D ev -> sntp_ok D s -> stale k s -> wp (handle_event ev) (fun _ s' => stale k s') s.
Proof.
  intros Hev Hin Hs Hk. pose proof Hk as (H1 & H2 & H3 & H4 & H5). unfold handle_event. do 2 wp_step. destruct ev as [fetch|p|a|urls|ms|tz|].
  - do 2 wp_step. destruct ((mbox_fetch_turn fetch (timeouts s)).1) as [h|]; [|by apply wp_ret]. destruct h; [|by apply stale_try_next].
    apply stale_request; [|exact Hk]. by apply wait_ok.
  - unfold sntp_recv, sntp_untimeout. do 4 wp_step. match goal with |- wp _ _ ?x => set (s1 := x) end.
    destruct (check_response p); [|by apply stale_try_next|by apply stale_retry]. unfold SNTP_RESET_RETRY_TIMEOUT. do 2 wp_step.
    apply wp_bind. unfold sntp_process. eapply wp_mono; [apply (stale_update_rtc k); [|exact Hk]|].
    + apply ok_set_retry; [|cbn; auto]. by do 2 apply ok_untimeout.
    + cbv beta. intros _ s2 Hk2. do 2 wp_step. by apply stale_timeout.
  - rewrite H4. by apply wp_ret.
  - done.
  - by apply wp_modify.
  - by destruct tz as [[w d]|]; apply wp_modify.
  - apply wp_bind. destruct (get_rtc_time_run s) as (s' & E1 & _ & Es). eapply wp_of_run; [exact E1|]. apply wp_ret.
    assert (HP : P (env s')).
    { unfold sntp_get_rtc_time in E1. destruct (law_counter (env s)) as (e1 & E2 & _).
      rewrite (bind_run _ _ _ _ _ (sntp_env_run _ _ _ _ E2)) in E1. unfold sntp_check_timer_wrap, mbind, st_bind, st_get, st_modify, mret, st_ret in E1.
      destruct (_ <? _); injection E1 as <-; cbn [env set_clock set_env]; by eapply P_counter. }
    rewrite Es. unfold stale. cbn. by split_and!.
Qed.
Lemma stale_events k evs s : Forall (fun ev => no_set_servers ev /\ event_in D ev) evs -> sntp_ok D s -> waiting s -> stale k s ->
  wp (handle_events evs) (fun _ s' => stale k s') s.
Proof.
  intros He. revert s; induction He as [|ev evs [Hev Hin] _ IH]; intros s Hs Hw Hk; [by apply wp_ret|]. cbn [handle_events]. apply wp_bind.
  eapply wp_mono; [apply wp_and; [by apply (handle_event_ok D D_range ev s Hin Hs Hw)|by apply (stale_event k ev s)]|].
  cbv beta. intros _ s' [[Hs' Hw'] Hk']. by apply IH.
Qed.
End stale.

(** C40: sntp_set_servers keeps the index of the current server. When it is called with
    one server, memory for it, while another one than the first is current and no name
    is being resolved, the client asks the resolver for a null name from then on: until
    the next sntp_set_servers no name is resolved and no request sent, whatever happens.
    (An answer of the resolver that is still due at the call would send one request, and
    is excluded.) Timeouts can be allocated, and the update delays set are of 32 bits,
    at least SNTP_UPDATE_DELAY and at most [D]. ([P]: anything about the world that
    holds as long as only the counter is read, the clock calibrated, a null name looked
    up and a timeout allocated.) *)
Theorem sntp_stale_server {E} `{!SntpEnv E, !SntpEnvOk E} (P : E -> Prop) D s url s1 evs :
  SNTP_UPDATE_DELAY <= D < 2 ^ 32 -> kept P TIMER_COUNT -> kept P sdk_system_rtc_clock_cali_proc -> kept P (dns_gethostbyname None) ->
  kept P sys_timeo_malloc -> sntp_ok D s -> waiting s -> 1 <= sntp_current_server s -> resolving s = O ->
  sntp_set_servers [url] s = Some (0, s1) -> P (env s1) ->
  Forall (fun ev => no_set_servers ev /\ event_in D ev) evs ->
  exists s2, handle_events evs s1 = Some ((), s2) /\ P (env s2) /\ resolving s2 = O /\
    sntp_current_server s2 = sntp_current_server s.
Proof.
  intros HD K1 K2 K3 K4 Hs Hw Hc Hr E1 HP He.
  destruct (wp_det _ _ _ _ _ (set_servers_spec [url] s (ok_num D s Hs) (ok_null D s Hs)) E1) as (Hsame & Hn & H4 & Hnum).
  destruct (same_but_servers_ok D s s1 Hs Hsame Hn H4) as [Hs1 Hw1].
  assert (Hst : stale P (sntp_current_server s) s1).
  { destruct Hsame as (_ & _ & _ & _ & S5 & S6). unfold stale. rewrite S5, S6. split_and!; try done. by apply Hnum. }
  destruct (wp_run _ _ _ (stale_events P K1 K2 K3 K4 D HD _ evs s1 He Hs1 (Hw1 Hw) Hst)) as ([] & s2 & E2 & (_ & T2 & _ & T4 & T5)).
  by exists s2.
Qed.

(** ** A concrete environment

    The ticks of the RTC and the addresses that requests were sent to; a name resolves
    to its length. *)
Definition sntp_world : Type := Z * list Z.
#[export] Instance demo_sntp : SntpEnv sntp_world := {|
  TIMER_COUNT := fun e => Some (e.1 mod 2 ^ 32, (e.1 + 1, e.2));
  sdk_system_rtc_clock_cali_proc := fun e => Some (23552, e);
  dns_gethostbyname := fun name e => Some (match name with
    | Some (c :: name) => DnsOk (1 + Z.of_nat (length name)) | _ => DnsError end, e);
  pbuf_alloc := fun e => Some (true, e);
  udp_sendto := fun a _ e => Some ((), (e.1, e.2 ++ [a]));
  udp_new := fun e => Some (true, e);
  malloc := fun _ e => Some (true, e);
  sys_timeo_malloc := fun e => Some (true, e)
|}.
#[export] Program Instance demo_sntp_ok : SntpEnvOk sntp_world := {| now := fst |}.
Next Obligation. intros e. eexists. split; [reflexivity|]. cbn. lia. Qed.
Next Obligation. intros e. eexists _, _. split; [reflexivity|]. lia. Qed.
Next Obligation. intros. by eexists _, _. Qed.
Next Obligation. intros. by eexists. Qed.
Next Obligation. intros. by eexists _, _. Qed.
Next Obligation. intros. by eexists. Qed.
Next Obligation. intros. by eexists _, _. Qed.
Next Obligation. intros. by eexists _, _. Qed.
Next Obligation. intros. eexists. split; [done|lia]. Qed.

(** An answer of a server: 2016-01-01 00:00:00.5 UTC. *)
Definition answer : list Z := [0x24; 1] ++ repeat 0 30 ++ rev (le_bytes 4 3660595200) ++ [128; 0; 0; 0] ++ repeat 0 8.
Definition one_hour : sntp sntp_world :=
  Sntp 0 0 1 60 0 [None; None; None; None] 0 0 SNTP_UPDATE_DELAY SNTP_RETRY_TIMEOUT [(3000, Sntp_try_next_server)] 0 (1000, []).

Lemma answer_bytes : Forall is_byte answer.
Proof. apply bytes_check. by vm_compute. Qed.
Lemma one_hour_times : times_ok (timeouts one_hour).
Proof. split; [by repeat constructor|done]. Qed.
(** In UTC+1, a hundred seconds (17391305 ticks) after the answer. *)
Definition later (s : sntp sntp_world) : sntp sntp_world := set_env (1001 + 17391305, []) s.
Lemma sntp_clock_follows_witness : exists s1 n0, sntp_recv answer one_hour = Some ((), s1) /\
  1000 <= n0 /\ n0 / 2 ^ 32 = (1001 + 17391305) / 2 ^ 32 /\
  exists v s3, sntp_get_rtc_time (later s1) = Some ((v / SECOND, s32 (v mod SECOND)), s3) /\ v / SECOND = 1451610100.
Proof.
  destruct (sntp_clock_follows one_hour answer answer_bytes eq_refl ltac:(done) ltac:(by vm_compute) one_hour_times ltac:(done))
    as (s1 & n0 & E1 & Hn & _ & _ & Hf).
  exists s1, n0. split; [exact E1|]. cbn [now demo_sntp_ok env one_hour fst] in Hn. split; [lia|].
  assert (Hs1 : sntp_recv answer one_hour = Some ((), s1)) by exact E1. vm_compute in Hs1. injection Hs1 as Hs1.
  assert (Hn0 : n0 <= 1002) by (rewrite <- Hs1 in Hn; cbn in Hn; lia).
  assert (Hlap : forall m, 0 <= m < 2 ^ 32 -> m / 2 ^ 32 = 0) by (intros; by apply Z.div_small).
  assert (El : n0 / 2 ^ 32 = (1001 + 17391305) / 2 ^ 32) by (rewrite !Hlap by lia; done). split; [exact El|].
  destruct (Hf (later s1) (1001 + 17391305)) as (v & s3 & E3 & _ & Hv).
  - done.
  - done.
  - lia.
  - exact El.
  - rewrite <- Hs1. cbn [cal]. unfold time_at, SECOND. change (packet_time one_hour answer) with 1451610000.
    change (packet_us answer) with 499996. lia.
  - exists v, s3. split; [exact E3|]. rewrite <- Hs1 in Hv. cbn [cal] in Hv. unfold time_at in Hv.
    change (packet_time one_hour answer) with 1451610000 in Hv. change (packet_us answer) with 499996 in Hv.
    unfold SECOND. symmetry. apply (Z.div_unique _ _ _ (v - 1451610100 * (1000000 * 2 ^ 12))); lia.
Defined.

(** The counter wraps 2000 ticks after the update: the clock is more than 13 hours (49392
    seconds) slow, and 7 more hours after the next read. *)
Definition before_wrap : sntp sntp_world := set_env (2 ^ 32 - 1001, []) one_hour.
Lemma sntp_clock_after_wrap_witness : exists s1 v1 us1 s3 us2 s4,
  sntp_update_rtc 1451606400 0 before_wrap = Some ((), s1) /\
  sntp_get_rtc_time (set_env (2 ^ 32 + 1000, []) s1) = Some ((v1 / SECOND, us1), s3) /\ v1 / SECOND = 1451610000 - 49393 /\
  sntp_get_rtc_time s3 = Some (((v1 + (1 - 2 ^ 32) * 23552) / SECOND, us2), s4).
Proof.
  destruct (sntp_clock_after_wrap before_wrap 1451606400 0 ltac:(done) ltac:(lia) ltac:(by vm_compute)) as (s1 & n0 & E1 & Hn & Hf).
  assert (Hs1 : sntp_update_rtc 1451606400 0 before_wrap = Some ((), s1)) by exact E1. vm_compute in Hs1. injection Hs1 as Hs1.
  cbn [now demo_sntp_ok env before_wrap set_env fst] in Hn.
  assert (Hn0 : n0 <= 2 ^ 32 - 999) by (rewrite <- Hs1 in Hn; cbn in Hn; lia).
  assert (L1 : n0 / 2 ^ 32 = 0) by (apply Z.div_small; lia).
  assert (L2 : forall m, 2 ^ 32 <= m < 2 * 2 ^ 32 -> m / 2 ^ 32 = 1) by (intros m Hm; symmetry; apply (Z.div_unique _ _ _ (m - 2 ^ 32)); lia).
  assert (Ec : cal s1 = 23552) by by rewrite <- Hs1. rewrite Ec in Hf.
  assert (Hread : forall r s, sntp_get_rtc_time (set_env (2 ^ 32 + 1000, []) s1) = Some (r, s) -> now (env s) = 2 ^ 32 + 1001).
  { intros r s E. rewrite <- Hs1 in E. vm_compute in E. by injection E as _ <-. }
  clear Hs1.
  assert (Et : local_time before_wrap 1451606400 = 1451610000) by by vm_compute. rewrite Et in Hf. unfold time_at, SECOND in Hf.
  destruct (Hf (set_env (2 ^ 32 + 1000, []) s1) (2 ^ 32 + 1000)) as (v1 & us1 & s3 & E3 & Hv & Hf2).
  - done.
  - done.
  - lia.
  - by rewrite L1, L2 by lia.
  - lia.
  - lia.
  - assert (Hnow : now (env s3) = 2 ^ 32 + 1001) by exact (Hread _ _ E3).
    rewrite Hnow in Hf2. destruct Hf2 as (us2 & s4 & E5); [lia|by rewrite L1, L2 by lia|lia|].
    exists s1, v1, us1, s3, us2, s4. split_and!; [exact E1|exact E3| |].
    + unfold SECOND. symmetry. apply (Z.div_unique _ _ _ (v1 - (1451610000 - 49393) * (1000000 * 2 ^ 12))); lia.
    + replace (1 - 2 ^ 32) with (2 ^ 32 + 1001 - (2 ^ 32 + 1000) - 2 ^ 32) by lia. exact E5.
Defined.

Definition booted : sntp sntp_world := match sntp_initialize None (static_sntp 0 0 0 (0, [])) with Some (_, s) => s | None => one_hour end.
Lemma sntp_never_stalls_witness :
  sntp_initialize None (static_sntp 0 0 0 (0, [])) = Some (true, booted) /\
  exists s2, handle_events [Wait None; Packet answer; Packet []; Wait (Some 2000); DnsFound None; Wait None] booted = Some ((), s2) /\
    (timeouts s2 <> [] \/ resolving s2 <> O).
Proof.
  split; [by vm_compute|].
  destruct (sntp_never_stalls SNTP_UPDATE_DELAY None 0 0 0 (0, []) booted
    [Wait None; Packet answer; Packet []; Wait (Some 2000); DnsFound None; Wait None]) as (s2 & E2 & Hw & _).
  - done.
  - repeat constructor; cbn; lia.
  - by vm_compute.
  - exists s2. by split.
Defined.

(** Two servers, the second one is current; then one server is set. *)
Definition second_server : sntp sntp_world :=
  Sntp 0 0 1 0 0 [Some {| block_size := 1; stored := [97; 0] |}; Some {| block_size := 1; stored := [98; 0] |}; None; None] 2 1
    SNTP_UPDATE_DELAY SNTP_RETRY_TIMEOUT [(3000, Sntp_request)] 0 (0, []).
Lemma sntp_stale_server_witness : exists s1 s2,
  sntp_set_servers [[99; 100]] second_server = Some (0, s1) /\
  handle_events [Wait None; Wait None; Packet answer; Wait (Some 3600000); Wait None; Wait None] s1 = Some ((), s2) /\ (env s2).2 = [].
Proof.
  eexists. destruct (sntp_stale_server (fun e : sntp_world => e.2 = []) SNTP_UPDATE_DELAY second_server [99; 100]
    (match sntp_set_servers [[99; 100]] second_server with Some (_, s) => s | None => second_server end)
    [Wait None; Wait None; Packet answer; Wait (Some 3600000); Wait None; Wait None]) as (s2 & E2 & HP & _).
  - done.
  - intros [n l] x e' HP E1. injection E1 as _ <-. exact HP.
  - intros [n l] x e' HP E1. injection E1 as _ <-. exact HP.
  - intros [n l] x e' HP E1. injection E1 as _ <-. exact HP.
  - intros [n l] x e' HP E1. injection E1 as _ <-. exact HP.
  - split; cbn; try done; try lia; auto.
    + split; [done|]. intros [|[|[|[|i]]]] Hi; try done; lia.
    + split; [split; [repeat constructor; cbn; lia|done]|done].
  - by left.
  - by cbn.
  - done.
  - reflexivity.
  - reflexivity.
  - repeat constructor; cbn; lia.
  - exists s2. split_and!; [reflexivity|exact E2|exact HP].
Defined.
