(* ===== verification/Dht.v ===== *)
(** * DHT sensors: extras/dht/dht.c

    A DHT22 answers a start pulse with 40 bits, each a low and a high pulse on the one
    wire; a bit is 1 when the high pulse is longer.  The driver measures the pulses by
    polling the pin, over the class [Pin] of [Gpio].  DHT_TYPE is DHT22 (dht.h).  The
    division of the float variant is a parameter.  The theorem is in [DhtContract]. *)

From S2P Require Import Prelude Gpio.
Local Open Scope Z_scope.

Definition DHT_TIMER_INTERVAL : Z := 2.
Definition DHT_DATA_BITS : nat := 40.


Section dht.
Context {E : Type} `{!Pin E} (pin : Z).

(** [n] polls are left and [i] is the time that has elapsed; [None]: the timeout. *)
Fixpoint await_loop (n : nat) (i : Z) (expected_pin_state : bool) : ST E (option Z) :=
  match n with
  | O => mret None
  | S n =>
      sdk_os_delay_us DHT_TIMER_INTERVAL;;
      v ← gpio_read pin;
      if eqb v expected_pin_state then mret (Some i)
      else await_loop n (i + DHT_TIMER_INTERVAL) expected_pin_state
  end.
Definition dht_await_pin_state (timeout : Z) (expected_pin_state : bool) : ST E (option Z) :=
  await_loop (Z.to_nat ((timeout + DHT_TIMER_INTERVAL - 1) / DHT_TIMER_INTERVAL)) 0 expected_pin_state.

(** Lines 113-124. *)
Fixpoint fetch_bits (n : nat) : ST E (option (list bool)) :=
  match n with
  | O => mret (Some [])
  | S n =>
      low_duration ← dht_await_pin_state 65 true;
      match low_duration with
      | None => mret None
      | Some low_duration =>
          high_duration ← dht_await_pin_state 75 false;
          match high_duration with
          | None => mret None
          | Some high_duration =>
              bits ← fetch_bits n;
              mret (option_map (cons (low_duration <? high_duration)) bits)
          end
      end
  end.
Definition dht_fetch_data : ST E (option (list bool)) :=
  gpio_write pin false;;
  sdk_os_delay_us 20000;;
  gpio_write pin true;;
  b ← dht_await_pin_state 40 false;
  match b with
  | None => mret None
  | Some _ =>
      c ← dht_await_pin_state 88 true;
      match c with
      | None => mret None
      | Some _ =>
          d ← dht_await_pin_state 88 false;
          match d with
          | None => mret None
          | Some _ => fetch_bits DHT_DATA_BITS
          end
      end
  end.

Definition dht_convert_data (msb lsb : Z) : Z :=
  let data := Z.land msb 0x7F in
  let data := s16 (Z.shiftl data 8) in
  let data := s16 (Z.lor data lsb) in
  if negb (Z.land msb (Z.shiftl 1 7) =? 0) then s16 (0 - data) else data.

(** The loop over the bits, from bit [i] on. *)
Fixpoint pack_bits (i : nat) (bits : list bool) (data : list Z) : list Z :=
  match bits with
  | [] => data
  | b :: bits =>
      let data := alter (fun d => u8 (Z.shiftl d 1)) (i / 8)%nat data in
      let data := alter (fun d => Z.lor d (if b then 1 else 0)) (i / 8)%nat data in
      pack_bits (S i) bits data
  end.
(** The humidity and the temperature, or false. *)
Definition dht_read_data : ST E (option (Z * Z)) :=
  gpio_enable pin GPIO_OUT_OPEN_DRAIN;;
  taskENTER_CRITICAL;;
  result ← dht_fetch_data;
  taskEXIT_CRITICAL;;
  match result with
  | None => mret None
  | Some bits =>
      let data := pack_bits 0 bits (replicate (DHT_DATA_BITS / 8) 0) in
      let at_ i := nth i data 0 in
      if negb (at_ 4%nat =? Z.land (at_ 0%nat + at_ 1%nat + at_ 2%nat + at_ 3%nat) 0xFF) then mret None
      else mret (Some (dht_convert_data (at_ 0%nat) (at_ 1%nat), dht_convert_data (at_ 2%nat) (at_ 3%nat)))
  end.

(** [over_10 i] is [(float)i / 10]. *)
Definition dht_read_float_data {F : Type} (over_10 : Z -> F) : ST E (option (F * F)) :=
  r ← dht_read_data;
  mret (option_map (fun ht => (over_10 ht.1, over_10 ht.2)) r).
End dht.
