(* ===== verification/DhtContract.v ===== *)
(** * What a DHT sensor sends is what the driver reads

    [DhtLine] is a wire with a sensor that follows the timing of the data sheet, seen by a
    driver whose polls take between [lo] and [hi] nanoseconds.  Whatever the durations
    are in their windows, the values of the sensor are read, and an answer with a wrong
    checksum is refused ([dht_reads_sensor]). *)

From S2P Require Import Prelude Gpio Dht.
Local Open Scope Z_scope.

(** The wire: nobody drives it, the driver has pulled it low for some nanoseconds, or the
    sensor answers since some nanoseconds. *)
Inductive line_state := Idle | Low (ns : Z) | Answering (ns : Z).

Class DhtLine (E : Type) `{!Pin E} (pin lo hi : Z) (wave : Z -> bool) := {
  line : E -> line_state;
  line_bounds : 0 < lo <= hi;
  law_enable e : exists e', gpio_enable pin GPIO_OUT_OPEN_DRAIN e = Some ((), e') /\ line e' = line e;
  law_enter e : exists e', taskENTER_CRITICAL e = Some ((), e') /\ line e' = line e;
  law_exit e : exists e', taskEXIT_CRITICAL e = Some ((), e') /\ line e' = line e;
  law_write_low e : exists e', gpio_write pin false e = Some ((), e') /\ line e' = Low 0;
  law_hold e ns us : line e = Low ns -> 0 <= us -> exists e' d, sdk_os_delay_us us e = Some ((), e') /\ line e' = Low (ns + d) /\ us * 1000 <= d;
  (** The sensor answers a low pulse of 18 ms or more. *)
  law_release e ns : line e = Low ns -> 18000000 <= ns -> exists e', gpio_write pin true e = Some ((), e') /\ line e' = Answering 0;
  law_wait e t : line e = Answering t -> exists e' d, sdk_os_delay_us DHT_TIMER_INTERVAL e = Some ((), e') /\ line e' = Answering (t + d) /\ lo <= d <= hi;
  law_read e t : line e = Answering t -> exists e', gpio_read pin e = Some (wave t, e') /\ line e' = Answering t
}.

(** ** Waveforms *)

(** The level of a wire that goes through these levels and durations, then high. *)
Fixpoint wave_of (segments : list (bool * Z)) (t : Z) : bool :=
  match segments with
  | [] => true
  | (v, d) :: segments => if t <? d then v else wave_of segments (t - d)
  end.
Definition bit_segments (l : list (bool * Z * Z)) : list (bool * Z) :=
  flat_map (fun x => [(false, x.1.2); (true, x.2)]) l.
(** The answer: the wire is high until the sensor pulls it low, then low and high for the
    presence pulse, the bits and a last low pulse. *)
Definition answer_segments (b c d : Z) (l : list (bool * Z * Z)) (last : Z) : list (bool * Z) :=
  (true, b) :: (false, c) :: (true, d) :: bit_segments l ++ [(false, last)].

(** The windows of the durations for polls of [lo] to [hi] nanoseconds. *)
Definition presence_ok (lo hi b c d : Z) : Prop :=
  hi <= b <= 20 * lo /\ hi <= c <= 44 * lo /\ hi <= d <= 44 * lo.
Definition bit_ok (lo hi : Z) (x : bool * Z * Z) : Prop :=
  let '(b, l, h) := x in
  hi <= l <= 33 * lo /\ hi <= h <= 38 * lo /\
  if b : bool then l * hi + 2 * hi * lo <= h * lo else h * hi + hi * lo <= l * lo.

(** ** Polling *)
Section polling.
Context {E : Type} `{!Pin E} (pin lo hi : Z) (wave : Z -> bool) `{!DhtLine E pin lo hi wave}.

(** From [a] on the wire has the level [v] for [n] nanoseconds. *)
Definition level_for (a n : Z) (v : bool) : Prop := forall t, a <= t < a + n -> wave t = v.

(** Waiting [x] nanoseconds for a level that lasts: [k] polls see the old level; the
    elapsed time is two for each of them. *)
Lemma await_loop_spec n i v e t x : 0 < x -> x <= Z.of_nat n * lo -> line e = Answering t ->
  level_for t x (negb v) -> level_for (t + x) hi v ->
  exists k e' t', await_loop pin n i v e = Some (Some (i + 2 * k), e') /\ line e' = Answering t' /\
    t + x <= t' < t + x + hi /\ 0 <= k /\ k * lo < x /\ x <= (k + 1) * hi.
Proof.
  pose proof line_bounds as Hb. revert i e t x; induction n as [|n IH]; intros i e t x Hx Hn He Hold Hnew; [lia|]. cbn [await_loop].
  destruct (law_wait e t He) as (e1 & d & E1 & L1 & Hd). rewrite (bind_run _ _ _ _ _ E1).
  destruct (law_read e1 (t + d) L1) as (e2 & E2 & L2). rewrite (bind_run _ _ _ _ _ E2).
  destruct (Z.ltb_spec d x).
  - rewrite (Hold (t + d)) by lia. rewrite eqb_negb1. destruct (IH (i + 2) e2 (t + d) (x - d)) as (k & e' & t' & E3 & L3 & Ht & Hk & Hk1 & Hk2); [lia|lia|done| |..].
    + intros u Hu. apply Hold. lia.
    + intros u Hu. apply Hnew. lia.
    + exists (k + 1), e', t'. split_and!; try done; try lia. unfold DHT_TIMER_INTERVAL. rewrite E3. do 3 f_equal. lia.
  - rewrite (Hnew (t + d)) by lia. rewrite eqb_reflx. exists 0, e2, (t + d). split_and!; try done; try lia. by rewrite Z.mul_0_r, Z.add_0_r.
Qed.
Lemma await_spec timeout n v e t x : n = Z.to_nat ((timeout + 1) / 2) -> 0 < x -> x <= Z.of_nat n * lo -> line e = Answering t ->
  level_for t x (negb v) -> level_for (t + x) hi v ->
  exists k e' t', dht_await_pin_state pin timeout v e = Some (Some (2 * k), e') /\ line e' = Answering t' /\
    t + x <= t' < t + x + hi /\ 0 <= k /\ k * lo < x /\ x <= (k + 1) * hi.
Proof.
  intros -> Hx Hn He Hold Hnew. unfold dht_await_pin_state, DHT_TIMER_INTERVAL. replace (timeout + 2 - 1) with (timeout + 1) by lia.
  exact (await_loop_spec _ 0 v e t x Hx Hn He Hold Hnew).
Qed.

(** The wave has these segments from [a] on. *)
Fixpoint has_segments (a : Z) (l : list (bool * Z)) : Prop :=
  match l with
  | [] => True
  | (v, d) :: l => level_for a d v /\ has_segments (a + d) l
  end.
Lemma has_segments_app a l k : has_segments a (l ++ k) <-> has_segments a l /\ has_segments (foldl (fun t s => t + s.2) a l) k.
Proof. revert a; induction l as [|[v d] l IH]; intros a; cbn; [tauto|]. rewrite IH. tauto. Qed.

(** A pulse of [v] that began at [a], seen from [t] on, ends at [a + d]. *)
Lemma pulse_spec timeout n v e t a d d' : n = Z.to_nat ((timeout + 1) / 2) -> hi <= d <= Z.of_nat n * lo -> hi <= d' ->
  line e = Answering t -> a <= t < a + hi -> level_for a d (negb v) -> level_for (a + d) d' v ->
  exists k e' t', dht_await_pin_state pin timeout v e = Some (Some (2 * k), e') /\ line e' = Answering t' /\
    a + d <= t' < a + d + hi /\ 0 <= k /\ k * lo < d /\ d < (k + 2) * hi.
Proof.
  intros Hn Hd Hd' He Ht Hold Hnew. pose proof line_bounds as Hb.
  destruct (await_spec timeout n v e t (a + d - t) Hn) as (k & e' & t' & E1 & L1 & Ht' & Hk & Hk1 & Hk2); [lia|lia|done| |..].
  - intros u Hu. apply Hold. lia.
  - intros u Hu. apply Hnew. lia.
  - exists k, e', t'. split_and!; try done; lia.
Qed.

Lemma fetch_bits_spec l last e t a : Forall (bit_ok lo hi) l -> hi <= last -> line e = Answering t -> a <= t < a + hi ->
  has_segments a (bit_segments l ++ [(false, last)]) ->
  exists e', fetch_bits pin (length l) e = Some (Some (map (fun x => x.1.1) l), e').
Proof.
  intros Hl Hlast. revert e t a; induction Hl as [|[[b low] high] l Hb Hl IH]; intros e t a He Ht Hw; cbn [length fetch_bits map].
  { by eexists. }
  unfold bit_ok in Hb. destruct Hb as (Hlow & Hhigh & Hbit). cbn in Hw. destruct Hw as (W1 & W2 & W3).
  destruct (pulse_spec 65 33 true e t a low high) as (k & e1 & t1 & E1 & L1 & Ht1 & Hk & Hk1 & Hk2); [done|lia|lia|done|done|done|done|].
  rewrite (bind_run _ _ _ _ _ E1).
  assert (Wn : exists d', hi <= d' /\ level_for (a + low + high) d' false).
  { destruct l as [|[[b2 low2] high2] l]; [by exists last; split; [|apply W3]|]. apply Forall_cons in Hl as [(? & _) _].
    exists low2. split; [lia|apply W3]. }
  destruct Wn as (d' & Hd' & Wn).
  destruct (pulse_spec 75 38 false e1 t1 (a + low) high d') as (k2 & e2 & t2 & E2 & L2 & Ht2 & Hj & Hj1 & Hj2); [done|lia|lia|done|lia|done|done|].
  rewrite (bind_run _ _ _ _ _ E2).
  destruct (IH e2 t2 (a + low + high) L2 ltac:(lia) W3) as (e3 & E3). rewrite (bind_run _ _ _ _ _ E3). exists e3. cbn [option_map fst snd].
  assert (Eb : (2 * k <? 2 * k2) = b).
  { pose proof line_bounds as Hlh. assert (Hp : 0 < lo * hi) by (apply Z.mul_pos_pos; lia).
    pose proof (proj1 (Z.mul_lt_mono_pos_r hi _ _ ltac:(lia)) Hk1). pose proof (proj1 (Z.mul_lt_mono_pos_r lo _ _ ltac:(lia)) Hk2).
    pose proof (proj1 (Z.mul_lt_mono_pos_r hi _ _ ltac:(lia)) Hj1). pose proof (proj1 (Z.mul_lt_mono_pos_r lo _ _ ltac:(lia)) Hj2). destruct b.
    - apply Z.ltb_lt. assert (k < k2); [|lia]. apply (Z.mul_lt_mono_pos_r (lo * hi)); lia.
    - apply Z.ltb_ge. assert (k2 < k + 1); [|lia]. apply (Z.mul_lt_mono_pos_r (lo * hi)); lia. }
  unfold mret, st_ret. by rewrite Eb.
Qed.
End polling.

Lemma wave_has_segments (wave : Z -> bool) l a : Forall (fun s => 0 <= s.2) l ->
  (forall x, 0 <= x -> wave (a + x) = wave_of l x) -> has_segments wave a l.
Proof.
  intros Hl. revert a; induction Hl as [|[v d] l Hd Hl IH]; intros a Hw; [done|]. cbn [has_segments wave_of snd] in *. split.
  - intros t Ht. replace t with (a + (t - a)) by lia. rewrite Hw by lia. by rewrite (proj2 (Z.ltb_lt _ _)) by lia.
  - apply IH. intros x Hx. replace (a + d + x) with (a + (d + x)) by lia. rewrite Hw by lia. rewrite (proj2 (Z.ltb_ge _ _)) by lia.
    f_equal. lia.
Qed.

(** ** Bytes *)

(** The most significant bit first. *)
Definition byte_bits (b : Z) : list bool := map (Z.testbit b) [7; 6; 5; 4; 3; 2; 1; 0].
(** A value in tenths, as magnitude and sign. *)
Definition sensor_bytes (v : Z) : list Z := [Z.abs v / 256 + (if v <? 0 then 128 else 0); Z.abs v mod 256].

Definition shift_bit (d : Z) (b : bool) : Z := Z.lor (u8 (Z.shiftl d 1)) (if b then 1 else 0).
Lemma shift_bits b : is_byte b -> fold_left shift_bit (byte_bits b) 0 = b.
Proof. intros Hb. apply Z.eqb_eq. revert b Hb. intros b. by apply (byte_check (fun b => fold_left shift_bit (byte_bits b) 0 =? b)). Qed.

Lemma alter_at (f : Z -> Z) j (data : list Z) d : data !! j = Some d -> alter f j data = <[j := f d]> data.
Proof.
  intros Hd. apply list_eq. intros i. destruct (decide (i = j)) as [->|Hne].
  - rewrite list_lookup_alter_eq, Hd. by rewrite list_lookup_insert_eq by (by eapply lookup_lt_Some).
  - by rewrite list_lookup_alter_ne, list_lookup_insert_ne.
Qed.
Lemma pack_part bits j i data d rest : (8 * j <= i)%nat -> (i + length bits <= 8 * S j)%nat -> data !! j = Some d ->
  pack_bits i (bits ++ rest) data = pack_bits (i + length bits) rest (<[j := fold_left shift_bit bits d]> data).
Proof.
  revert i data d; induction bits as [|b bits IH]; intros i data d Hi Hj Hd; cbn [app pack_bits length fold_left] in *.
  { by rewrite Nat.add_0_r, list_insert_id. }
  assert (Hq : (i / 8 = j)%nat) by (symmetry; apply (Nat.div_unique _ _ _ (i - 8 * j)); lia). rewrite Hq.
  assert (Hl : (j < length data)%nat) by (by eapply lookup_lt_Some).
  rewrite (alter_at _ j data d Hd), (alter_at _ j _ (u8 (Z.shiftl d 1))) by by apply list_lookup_insert_eq.
  rewrite (IH (S i) _ (shift_bit d b)); [|lia|lia|].
  - rewrite !list_insert_insert_eq. f_equal. lia.
  - rewrite list_insert_insert_eq. by apply list_lookup_insert_eq.
Qed.
Lemma pack_bytes b0 b1 b2 b3 b4 : Forall is_byte [b0; b1; b2; b3; b4] ->
  pack_bits 0 (flat_map byte_bits [b0; b1; b2; b3; b4]) (replicate 5 0) = [b0; b1; b2; b3; b4].
Proof.
  intros Hb. rewrite !Forall_cons in Hb. destruct Hb as (H0 & H1 & H2 & H3 & H4 & _). cbn [flat_map].
  rewrite (pack_part _ 0 _ _ 0) by (done || cbn; lia). rewrite (pack_part _ 1 _ _ 0) by (done || cbn; lia).
  rewrite (pack_part _ 2 _ _ 0) by (done || cbn; lia). rewrite (pack_part _ 3 _ _ 0) by (done || cbn; lia).
  rewrite (pack_part _ 4 _ _ 0) by (done || cbn; lia). cbn [pack_bits]. by rewrite !shift_bits.
Qed.

Lemma sensor_bytes_ok v : -32767 <= v <= 32767 -> Forall is_byte (sensor_bytes v).
Proof.
  intros Hv. unfold sensor_bytes, is_byte. pose proof (Z.mod_pos_bound (Z.abs v) 256 ltac:(lia)).
  assert (0 <= Z.abs v / 256 < 128) by (split; [apply Z.div_pos; lia|apply Z.div_lt_upper_bound; lia]).
  repeat constructor; destruct (Z.ltb_spec v 0); lia.
Qed.
(** The sign and the magnitude give the value back. *)
Lemma convert_bytes v : -32767 <= v <= 32767 -> dht_convert_data (nth 0 (sensor_bytes v) 0) (nth 1 (sensor_bytes v) 0) = v.
Proof.
  intros Hv. unfold sensor_bytes, dht_convert_data. cbn [nth]. set (q := Z.abs v / 256). set (r := Z.abs v mod 256).
  assert (Hq : 0 <= q < 128) by (unfold q; split; [apply Z.div_pos; lia|apply Z.div_lt_upper_bound; lia]).
  assert (Hr : 0 <= r < 256) by (apply Z.mod_pos_bound; lia). assert (Hqr : Z.abs v = 256 * q + r) by (apply Z.div_mod; lia).
  set (sign := if v <? 0 then 128 else 0).
  assert (Hm : Z.land (q + sign) 127 = q /\ Z.land (q + sign) (Z.shiftl 1 7) = sign).
  { assert (B : forallb (fun q => (Z.land q 127 =? q) && (Z.land q 128 =? 0) && (Z.land (q + 128) 127 =? q) && (Z.land (q + 128) 128 =? 128)) (seqZ 0 128) = true)
      by by vm_compute.
    pose proof (below_check 128 _ q B Hq) as Bq. cbv beta in Bq. rewrite !andb_true_iff, !Z.eqb_eq in Bq. destruct Bq as [[[B1 B2] B3] B4].
    change (Z.shiftl 1 7) with 128. unfold sign. destruct (v <? 0); rewrite ?Z.add_0_r; done. }
  destruct Hm as [-> ->]. assert (Hs : Z.shiftl q 8 = q * 256) by by rewrite Z.shiftl_mul_pow2.
  assert (S1 : s16 (Z.shiftl q 8) = q * 256) by (rewrite Hs; unfold s16; rewrite Z.mod_small; lia). rewrite S1.
  assert (S2 : Z.lor (q * 256) r = q * 256 + r).
  { rewrite <- Hs, Z.lor_comm, (lor_low_high r 8) by lia. rewrite Z.shiftl_mul_pow2 by lia. lia. }
  rewrite S2. assert (S3 : s16 (q * 256 + r) = q * 256 + r) by (unfold s16; rewrite Z.mod_small; lia). rewrite S3.
  unfold sign. destruct (Z.ltb_spec v 0); cbn [Z.eqb negb]; [|lia]. unfold s16. rewrite Z.mod_small; lia.
Qed.

(** ** Reading the sensor *)

Lemma bit_segments_nonneg lo hi l : 0 <= hi -> Forall (bit_ok lo hi) l -> Forall (fun s => 0 <= s.2) (bit_segments l).
Proof.
  intros Hhi. induction 1 as [|[[v low] high] k Hv Hk IH]; [constructor|]. destruct Hv as (? & ? & _).
  constructor; [cbn; lia|]. constructor; [cbn; lia|exact IH].
Qed.
Section sensor.
Context {E : Type} `{!Pin E} (pin lo hi b c d : Z) (l : list (bool * Z * Z)) (last : Z).
Context `{!DhtLine E pin lo hi (wave_of (answer_segments b c d l last))}.
Context (Hpresence : presence_ok lo hi b c d) (Hbits : Forall (bit_ok lo hi) l) (Hlast : hi <= last).
Let wave := wave_of (answer_segments b c d l last).

Lemma answer_has_segments : has_segments wave 0 (answer_segments b c d l last).
Proof.
  pose proof line_bounds as Hb. destruct Hpresence as (? & ? & ?). apply wave_has_segments; [|done].
  unfold answer_segments. do 3 (apply Forall_cons; split; [cbn; lia|]). apply Forall_app. split; [|by constructor; [cbn; lia|]].
  eapply bit_segments_nonneg; [|exact Hbits]. lia.
Qed.
Lemma fetch_data_spec e : length l = 40%nat -> exists e', dht_fetch_data pin e = Some (Some (map (fun x => x.1.1) l), e').
Proof.
  intros Hl. pose proof line_bounds as Hb. pose proof answer_has_segments as Hw. destruct Hpresence as (Hpb & Hpc & Hpd).
  destruct (law_write_low e) as (e1 & E1 & L1). destruct (law_hold e1 0 20000 L1) as (e2 & d2 & E2 & L2 & Hd2); [lia|].
  destruct (law_release e2 (0 + d2) L2) as (e3 & E3 & L3); [lia|].
  unfold dht_fetch_data. rewrite (bind_run _ _ _ _ _ E1), (bind_run _ _ _ _ _ E2), (bind_run _ _ _ _ _ E3).
  cbn [has_segments answer_segments] in Hw. destruct Hw as (W1 & W2 & W3 & W4).
  destruct (pulse_spec pin lo hi wave 40 20 false e3 0 0 b c) as (k1 & e4 & t4 & E4 & L4 & Ht4 & _); [done|lia|lia|done|lia|done|done|].
  rewrite (bind_run _ _ _ _ _ E4).
  destruct (pulse_spec pin lo hi wave 88 44 true e4 t4 (0 + b) c d) as (k2 & e5 & t5 & E5 & L5 & Ht5 & _); [done|lia|lia|done|lia|done|done|].
  rewrite (bind_run _ _ _ _ _ E5).
  assert (Wn : exists d', hi <= d' /\ level_for wave (0 + b + c + d) d' false).
  { destruct l as [|[[b2 low2] high2] k]; [done|]. apply Forall_cons in Hbits as [(? & _) _]. exists low2. split; [lia|apply W4]. }
  destruct Wn as (d' & Hd' & Wn).
  destruct (pulse_spec pin lo hi wave 88 44 false e5 t5 (0 + b + c) d d') as (k3 & e6 & t6 & E6 & L6 & Ht6 & _); [done|lia|lia|done|lia|done|done|].
  rewrite (bind_run _ _ _ _ _ E6). unfold DHT_DATA_BITS. rewrite <- Hl.
  exact (fetch_bits_spec pin lo hi wave l last e6 t6 (0 + b + c + d) Hbits Hlast L6 Ht6 W4).
Qed.
End sensor.

Definition checksum (bs : list Z) : Z := fold_right Z.add 0 bs mod 256.

(** C36: dht_read_data returns what the sensor measured: a sensor that sends the
    humidity and the temperature as 16-bit tenths, high byte first, a temperature's sign
    in the top bit, and their checksum (a DHT22; the comment in dht.c says that the
    second byte of each is zero, the code reads both). It answers a low pulse of 18 ms;
    polls of the pin are [lo] to [hi] nanoseconds apart. For any humidity and
    temperature from -3276.7 to 3276.7 and any durations of the pulses in the windows
    that such polls can tell apart ([presence_ok], [bit_ok]), the call returns; with the
    right checksum the values are the sensor's, with any other one false is returned. *)
Theorem dht_reads_sensor {E} `{!Pin E} pin lo hi b c d l last `{!DhtLine E pin lo hi (wave_of (answer_segments b c d l last))} h t crc (e : E) :
  presence_ok lo hi b c d -> Forall (bit_ok lo hi) l -> hi <= last ->
  -32767 <= h <= 32767 -> -32767 <= t <= 32767 -> is_byte crc ->
  map (fun x => x.1.1) l = flat_map byte_bits (sensor_bytes h ++ sensor_bytes t ++ [crc]) ->
  exists e', dht_read_data pin e =
    Some (if crc =? checksum (sensor_bytes h ++ sensor_bytes t) then Some (h, t) else None, e').
Proof.
  intros Hp Hb Hlast Hh Ht Hcrc El. unfold dht_read_data.
  destruct (law_enable e) as (e1 & E1 & _). destruct (law_enter e1) as (e2 & E2 & _). rewrite (bind_run _ _ _ _ _ E1), (bind_run _ _ _ _ _ E2).
  assert (Hlen : length l = 40%nat) by (apply (f_equal length) in El; by rewrite length_map in El).
  destruct (fetch_data_spec pin lo hi b c d l last Hp Hb Hlast e2 Hlen) as (e3 & E3). rewrite (bind_run _ _ _ _ _ E3).
  destruct (law_exit e3) as (e4 & E4 & _). rewrite (bind_run _ _ _ _ _ E4). exists e4. rewrite El.
  pose proof (sensor_bytes_ok h Hh) as Bh. pose proof (sensor_bytes_ok t Ht) as Bt.
  pose proof (convert_bytes h Hh) as Ch. pose proof (convert_bytes t Ht) as Ct.
  destruct (sensor_bytes h) as [|h1 [|h0 [|]]] eqn:Eh; try done. destruct (sensor_bytes t) as [|t1 [|t0 [|]]] eqn:Et; try done.
  change (DHT_DATA_BITS / 8)%nat with 5%nat. cbn [app]. rewrite !Forall_cons in Bh, Bt. destruct Bh as (? & ? & _). destruct Bt as (? & ? & _).
  rewrite pack_bytes by (repeat (apply Forall_cons; split; [done|]); constructor). cbn [nth] in Ch, Ct |- *. rewrite Ch, Ct, land_255. unfold checksum. cbn [fold_right].
  replace (h1 + (h0 + (t1 + (t0 + 0)))) with (h1 + h0 + t1 + t0) by lia. by destruct (crc =? _).
Qed.

(** ** A concrete sensor

    65.2 percent and -10.1 degrees; a poll takes 2 microseconds. *)
Definition pulses (b : bool) : bool * Z * Z := (b, 50000, if b then 70000 else 27000).
Definition demo_pulses : list (bool * Z * Z) := map pulses (flat_map byte_bits (sensor_bytes 652 ++ sensor_bytes (-101) ++ [checksum (sensor_bytes 652 ++ sensor_bytes (-101))])).
Definition demo_wave : Z -> bool := wave_of (answer_segments 30000 80000 80000 demo_pulses 50000).
#[export] Instance demo_pin : Pin line_state := {|
  gpio_enable := fun _ _ e => Some ((), e); gpio_set_pullup := fun _ _ _ e => Some ((), e);
  gpio_write := fun _ v e => Some ((), match v, e with false, _ => Low 0 | true, Low ns => if 18000000 <=? ns then Answering 0 else Idle | true, e => e end);
  gpio_read := fun _ e => Some (match e with Answering t => demo_wave t | Low _ => false | Idle => true end, e);
  sdk_os_delay_us := fun us e => Some ((), match e with Low ns => Low (ns + us * 1000) | Answering t => Answering (t + us * 1000) | Idle => Idle end);
  taskENTER_CRITICAL := fun e => Some ((), e); taskEXIT_CRITICAL := fun e => Some ((), e)
|}.
#[export] Program Instance demo_dht : DhtLine line_state 4 2000 2400 demo_wave := {| line := fun e => e |}.
Next Obligation. lia. Qed.
Next Obligation. intros e. by eexists. Qed.
Next Obligation. intros e. by eexists. Qed.
Next Obligation. intros e. by eexists. Qed.
Next Obligation. intros e. by eexists. Qed.
Next Obligation. intros e ns us -> Hus. eexists _, _. split; [done|]. split; [done|lia]. Qed.
Next Obligation. intros e ns -> Hns. eexists. split; [done|]. by rewrite (proj2 (Z.leb_le _ _)) by lia. Qed.
Next Obligation. intros e t ->. eexists _, _. split; [done|]. split; [done|]. unfold DHT_TIMER_INTERVAL. lia. Qed.
Next Obligation. intros e t ->. by eexists. Qed.
Lemma dht_reads_sensor_witness : exists e', dht_read_data 4 Idle = Some (Some (652, -101), e').
Proof.
  destruct (dht_reads_sensor 4 2000 2400 30000 80000 80000 demo_pulses 50000 652 (-101) (checksum (sensor_bytes 652 ++ sensor_bytes (-101))) Idle)
    as (e' & E1).
  - unfold presence_ok. lia.
  - unfold demo_pulses. apply Forall_map, Forall_true. intros []; cbn; lia.
  - lia.
  - lia.
  - lia.
  - by vm_compute.
  - by vm_compute.
  - exists e'. rewrite E1. by rewrite Z.eqb_refl.
Defined.
