(* ===== verification/Bmp280.v ===== *)
(** * The BMP280 and BME280 sensors: extras/bmp280/bmp280.c

    The driver over the I2C transfers of [I2cRegs].  The calibration fields of
    [bmp280_t] are lists: dig_T1 to dig_T3 and dig_P1 to dig_P9 in [digs], dig_H1 to
    dig_H6 in [hums].  The arithmetic of the compensation functions is 32-bit or 64-bit
    with wrap-around ([s32], [s64]), a division truncates.  The loop that waits for the
    reset takes fuel.  The theorems are in [Bmp280Contract]. *)

From S2P Require Import Prelude Gpio I2c I2cBus I2cRegs.
Local Open Scope Z_scope.

Definition s64 (x : Z) : Z := (x + 2 ^ 63) mod 2 ^ 64 - 2 ^ 63.
Definition to_int8 (x : Z) : Z := (x + 2 ^ 7) mod 2 ^ 8 - 2 ^ 7.

Definition BMP280_REG_CONFIG : Z := 0xF5.
Definition BMP280_REG_CTRL : Z := 0xF4.
Definition BMP280_REG_STATUS : Z := 0xF3.
Definition BMP280_REG_CTRL_HUM : Z := 0xF2.
Definition BMP280_REG_RESET : Z := 0xE0.
Definition BMP280_REG_ID : Z := 0xD0.
Definition BMP280_RESET_VALUE : Z := 0xB6.
Definition BMP280_I2C_ADDRESS_0 : Z := 0x76.
Definition BMP280_I2C_ADDRESS_1 : Z := 0x77.
Definition BMP280_CHIP_ID : Z := 0x58.
Definition BME280_CHIP_ID : Z := 0x60.

Inductive BMP280_Mode := BMP280_MODE_SLEEP | BMP280_MODE_FORCED | BMP280_MODE_NORMAL.
Definition mode_bits (m : BMP280_Mode) : Z := match m with BMP280_MODE_SLEEP => 0 | BMP280_MODE_FORCED => 1 | BMP280_MODE_NORMAL => 3 end.
Inductive BMP280_Filter := BMP280_FILTER_OFF | BMP280_FILTER_2 | BMP280_FILTER_4 | BMP280_FILTER_8 | BMP280_FILTER_16.
Definition filter_bits (f : BMP280_Filter) : Z :=
  match f with BMP280_FILTER_OFF => 0 | BMP280_FILTER_2 => 1 | BMP280_FILTER_4 => 2 | BMP280_FILTER_8 => 3 | BMP280_FILTER_16 => 4 end.
Inductive BMP280_Oversampling :=
  BMP280_ULTRA_LOW_POWER | BMP280_LOW_POWER | BMP280_STANDARD | BMP280_HIGH_RES | BMP280_ULTRA_HIGH_RES.
Definition oversampling_bits (o : BMP280_Oversampling) : Z :=
  match o with
  | BMP280_ULTRA_LOW_POWER => 1 | BMP280_LOW_POWER => 2 | BMP280_STANDARD => 3 | BMP280_HIGH_RES => 4 | BMP280_ULTRA_HIGH_RES => 5
  end.
Inductive BMP280_StandbyTime :=
  BMP280_STANDBY_05 | BMP280_STANDBY_62 | BMP280_STANDBY_125 | BMP280_STANDBY_250 |
  BMP280_STANDBY_500 | BMP280_STANDBY_1000 | BMP280_STANDBY_2000 | BMP280_STANDBY_4000.
Definition standby_bits (s : BMP280_StandbyTime) : Z :=
  match s with
  | BMP280_STANDBY_05 => 0 | BMP280_STANDBY_62 => 1 | BMP280_STANDBY_125 => 2 | BMP280_STANDBY_250 => 3
  | BMP280_STANDBY_500 => 4 | BMP280_STANDBY_1000 => 5 | BMP280_STANDBY_2000 => 6 | BMP280_STANDBY_4000 => 7
  end.

Record bmp280_params_t := {
  bp_mode : BMP280_Mode;
  bp_filter : BMP280_Filter;
  bp_oversampling : BMP280_Oversampling;
  bp_oversampling_humidity : BMP280_Oversampling;
  bp_standby : BMP280_StandbyTime
}.
Record bmp280_t := { digs : list Z; hums : list Z; i2c_addr : Z; chip_id : Z }.
Definition with_digs (l : list Z) (dev : bmp280_t) : bmp280_t :=
  {| digs := l; hums := hums dev; i2c_addr := i2c_addr dev; chip_id := chip_id dev |}.
Definition with_hums (l : list Z) (dev : bmp280_t) : bmp280_t :=
  {| digs := digs dev; hums := l; i2c_addr := i2c_addr dev; chip_id := chip_id dev |}.
Definition with_chip_id (id : Z) (dev : bmp280_t) : bmp280_t :=
  {| digs := digs dev; hums := hums dev; i2c_addr := i2c_addr dev; chip_id := id |}.
Definition dig_T (i : nat) (dev : bmp280_t) : Z := nth (i - 1) (digs dev) 0.
Definition dig_P (i : nat) (dev : bmp280_t) : Z := nth (i + 2) (digs dev) 0.
Definition dig_H (i : nat) (dev : bmp280_t) : Z := nth (i - 1) (hums dev) 0.

Definition bmp280_init_default_params : bmp280_params_t :=
  {| bp_mode := BMP280_MODE_NORMAL; bp_filter := BMP280_FILTER_OFF; bp_oversampling := BMP280_STANDARD;
     bp_oversampling_humidity := BMP280_STANDARD; bp_standby := BMP280_STANDBY_250 |}.

Section bmp280.
Context {W : Type} `{!I2c W}.

Definition read_register16 (i2c_addr addr : Z) : ST W (option Z) :=
  '(ok, d) ← slave_read i2c_addr addr 2;
  mret (if (ok : bool) then Some (Z.lor (nth 0 d 0) (Z.shiftl (nth 1 d 0) 8)) else None).

(** The chain of calls from field [i] on; dig_T1 and dig_P1 are unsigned. *)
Fixpoint read_digs (n : nat) (i : nat) (dev : bmp280_t) : ST W (bool * bmp280_t) :=
  match n with
  | O => mret (true, dev)
  | S n =>
      v ← read_register16 (i2c_addr dev) (0x88 + 2 * Z.of_nat i);
      match v with
      | None => mret (false, dev)
      | Some v =>
          let v := if (i =? 0)%nat || (i =? 3)%nat then v else s16 v in
          read_digs n (S i) (with_digs (<[i := v]> (digs dev)) dev)
      end
  end.
Definition read_calibration_data (dev : bmp280_t) : ST W (bool * bmp280_t) := read_digs 12 0 dev.

(** One byte into field [i]; what a failed read leaves there is not used. *)
Definition read_hum8 (reg : Z) (i : nat) (conv : Z -> Z) (dev : bmp280_t) : ST W (bool * bmp280_t) :=
  '(ok, d) ← slave_read (i2c_addr dev) reg 1;
  mret (if (ok : bool) then (true, with_hums (<[i := conv (nth 0 d 0)]> (hums dev)) dev) else (false, dev)).
Definition read_hum_calibration_data (dev : bmp280_t) : ST W (bool * bmp280_t) :=
  '(ok, dev) ← read_hum8 0xa1 0 id dev;
  if negb ok then mret (false, dev) else
  h2 ← read_register16 (i2c_addr dev) 0xe1;
  match h2 with
  | None => mret (false, dev)
  | Some h2 =>
      '(ok, dev) ← read_hum8 0xe3 2 id (with_hums (<[1%nat := s16 h2]> (hums dev)) dev);
      if negb ok then mret (false, dev) else
      h4 ← read_register16 (i2c_addr dev) 0xe4;
      match h4 with
      | None => mret (false, dev)
      | Some h4 =>
          h5 ← read_register16 (i2c_addr dev) 0xe5;
          match h5 with
          | None => mret (false, dev)
          | Some h5 =>
              '(ok, dev) ← read_hum8 0xe7 5 to_int8 dev;
              if negb ok then mret (false, dev) else
              let H4 := Z.lor (Z.shiftl (Z.land h4 0x00ff) 4) (Z.shiftr (Z.land h4 0x0f00) 8) in
              let H5 := Z.shiftr h5 4 in
              mret (true, with_hums (<[4%nat := H5]> (<[3%nat := H4]> (hums dev))) dev)
          end
      end
  end.

Definition write_register8 (i2c_addr addr value : Z) : ST W bool := slave_write i2c_addr [addr; value] 2.

(** Lines 174-178. *)
Fixpoint wait_reset (fuel : nat) (dev : bmp280_t) : ST W unit :=
  match fuel with
  | O => out_of_fuel
  | S fuel =>
      '(ok, status) ← slave_read (i2c_addr dev) BMP280_REG_STATUS 1;
      if (ok : bool) && (Z.land (nth 0 status 0) 1 =? 0) then mret () else wait_reset fuel dev
  end.

(** Lines 190-224: the configuration; the parameters are changed too. *)
Definition configure (dev : bmp280_t) (params : bmp280_params_t) : ST W (bool * bmp280_params_t) :=
  let config := u8 (Z.lor (Z.shiftl (standby_bits (bp_standby params)) 5) (Z.shiftl (filter_bits (bp_filter params)) 2)) in
  ok ← write_register8 (i2c_addr dev) BMP280_REG_CONFIG config;
  if negb ok then mret (false, params)
  else
    let oversampling_temp := match bp_oversampling params with BMP280_ULTRA_HIGH_RES => 2 | _ => 1 end in
    let params := match bp_mode params with
                  | BMP280_MODE_FORCED =>
                      {| bp_mode := BMP280_MODE_SLEEP; bp_filter := bp_filter params; bp_oversampling := bp_oversampling params;
                         bp_oversampling_humidity := bp_oversampling_humidity params; bp_standby := bp_standby params |}
                  | _ => params
                  end in
    let ctrl := u8 (Z.lor (Z.lor (Z.shiftl oversampling_temp 5) (Z.shiftl (oversampling_bits (bp_oversampling params)) 2))
                      (mode_bits (bp_mode params))) in
    ok ← (if chip_id dev =? BME280_CHIP_ID
          then write_register8 (i2c_addr dev) BMP280_REG_CTRL_HUM (oversampling_bits (bp_oversampling_humidity params))
          else mret true);
    if negb ok then mret (false, params)
    else
      ok ← write_register8 (i2c_addr dev) BMP280_REG_CTRL ctrl;
      mret (ok, params).

Definition bmp280_init (fuel : nat) (dev : bmp280_t) (params : bmp280_params_t) : ST W (bool * bmp280_t * bmp280_params_t) :=
  if negb (i2c_addr dev =? BMP280_I2C_ADDRESS_0) && negb (i2c_addr dev =? BMP280_I2C_ADDRESS_1) then mret (false, dev, params)
  else
    '(ok, id) ← slave_read (i2c_addr dev) BMP280_REG_ID 1;
    if negb ok then mret (false, dev, params)
    else
      let dev := with_chip_id (nth 0 id 0) dev in
      if negb (chip_id dev =? BMP280_CHIP_ID) && negb (chip_id dev =? BME280_CHIP_ID) then mret (false, dev, params)
      else
        ok ← write_register8 (i2c_addr dev) BMP280_REG_RESET BMP280_RESET_VALUE;
        if negb ok then mret (false, dev, params)
        else
          wait_reset fuel dev;;
          '(ok, dev) ← read_calibration_data dev;
          if negb ok then mret (false, dev, params)
          else
            '(ok, dev) ← (if chip_id dev =? BME280_CHIP_ID then read_hum_calibration_data dev else mret (true, dev));
            if negb ok then mret (false, dev, params)
            else
              '(ok, params) ← configure dev params;
              mret (ok, dev, params).

Definition bmp280_force_measurement (dev : bmp280_t) : ST W bool :=
  '(ok, d) ← slave_read (i2c_addr dev) BMP280_REG_CTRL 1;
  if negb ok then mret false
  else
    let ctrl := Z.land (nth 0 d 0) (255 - 3) in
    let ctrl := Z.lor ctrl (mode_bits BMP280_MODE_FORCED) in
    write_register8 (i2c_addr dev) BMP280_REG_CTRL ctrl.

Definition bmp280_is_measuring (dev : bmp280_t) : ST W bool :=
  '(ok, status) ← slave_read (i2c_addr dev) BMP280_REG_STATUS 1;
  mret ((ok : bool) && negb (Z.land (nth 0 status 0) (Z.shiftl 1 3) =? 0)).

(** ** Compensation *)

(** The temperature and [fine_temp]. *)
Definition compensate_temperature (dev : bmp280_t) (adc_temp : Z) : Z * Z :=
  let var1 := Z.shiftr (s32 (s32 (Z.shiftr adc_temp 3 - Z.shiftl (dig_T 1 dev) 1) * dig_T 2 dev)) 11 in
  let d := s32 (Z.shiftr adc_temp 4 - dig_T 1 dev) in
  let var2 := Z.shiftr (s32 (Z.shiftr (s32 (d * d)) 12 * dig_T 3 dev)) 14 in
  let fine_temp := s32 (var1 + var2) in
  (Z.shiftr (s32 (s32 (fine_temp * 5) + 128)) 8, fine_temp).

Definition compensate_pressure (dev : bmp280_t) (adc_press fine_temp : Z) : Z :=
  let var1 := s64 (fine_temp - 128000) in
  let var2 := s64 (s64 (var1 * var1) * dig_P 6 dev) in
  let var2 := s64 (var2 + s64 (Z.shiftl (s64 (var1 * dig_P 5 dev)) 17)) in
  let var2 := s64 (var2 + s64 (Z.shiftl (dig_P 4 dev) 35)) in
  let var1 := s64 (Z.shiftr (s64 (s64 (var1 * var1) * dig_P 3 dev)) 8 + s64 (Z.shiftl (s64 (var1 * dig_P 2 dev)) 12)) in
  let var1 := Z.shiftr (s64 (s64 (Z.shiftl 1 47 + var1) * dig_P 1 dev)) 33 in
  if var1 =? 0 then 0
  else
    let p := 1048576 - adc_press in
    let p := Z.quot (s64 (s64 (s64 (Z.shiftl p 31) - var2) * 3125)) var1 in
    let var1 := Z.shiftr (s64 (s64 (dig_P 9 dev * Z.shiftr p 13) * Z.shiftr p 13)) 25 in
    let var2 := Z.shiftr (s64 (dig_P 8 dev * p)) 19 in
    let p := s64 (Z.shiftr (s64 (s64 (p + var1) + var2)) 8 + Z.shiftl (dig_P 7 dev) 4) in
    u32 p.

Definition compensate_humidity (dev : bmp280_t) (adc_hum fine_temp : Z) : Z :=
  let v := s32 (fine_temp - 76800) in
  let a := Z.shiftr (s32 (s32 (s32 (s32 (Z.shiftl adc_hum 14) - s32 (Z.shiftl (dig_H 4 dev) 20)) - s32 (dig_H 5 dev * v)) + 16384)) 15 in
  let b := s32 (Z.shiftr (s32 (v * dig_H 3 dev)) 11 + 32768) in
  let b := s32 (Z.shiftr (s32 (Z.shiftr (s32 (v * dig_H 6 dev)) 10 * b)) 10 + 2097152) in
  let b := Z.shiftr (s32 (s32 (b * dig_H 2 dev) + 8192)) 14 in
  let v := s32 (a * b) in
  let v := s32 (v - Z.shiftr (s32 (Z.shiftr (s32 (Z.shiftr v 15 * Z.shiftr v 15)) 7 * dig_H 1 dev)) 4) in
  let v := if v <? 0 then 0 else v in
  let v := if 419430400 <? v then 419430400 else v in
  u32 (Z.shiftr v 12).

(** [humidity]: the pointer is not null.  The result is the temperature and the
    pressure, and what is stored at [humidity]. *)
Definition bmp280_read_fixed (dev : bmp280_t) (humidity : bool) : ST W (option (Z * Z) * option Z) :=
  let stored := if negb (chip_id dev =? BME280_CHIP_ID) && humidity then Some 0 else None in
  let humidity := (chip_id dev =? BME280_CHIP_ID) && humidity in
  let size := if humidity then 8 else 6 in
  '(ok, data) ← slave_read (i2c_addr dev) 0xf7 size;
  if negb ok then mret (None, stored)
  else
    let at_ i := nth i data 0 in
    let adc_pressure := Z.lor (Z.lor (Z.shiftl (at_ 0%nat) 12) (Z.shiftl (at_ 1%nat) 4)) (Z.shiftr (at_ 2%nat) 4) in
    let adc_temp := Z.lor (Z.lor (Z.shiftl (at_ 3%nat) 12) (Z.shiftl (at_ 4%nat) 4)) (Z.shiftr (at_ 5%nat) 4) in
    let '(temperature, fine_temp) := compensate_temperature dev adc_temp in
    let pressure := compensate_pressure dev adc_pressure fine_temp in
    let stored :=
      if humidity then
        let adc_humidity := Z.lor (Z.shiftl (at_ 6%nat) 8) (at_ 7%nat) in
        Some (compensate_humidity dev adc_humidity fine_temp)
      else stored in
    mret (Some (temperature, pressure), stored).

(** [ratio i n] is [(float)i / n].  An uninitialised fixed_humidity is not used: it is
    stored by every call. *)
Definition bmp280_read_float {F : Type} (ratio : Z -> Z -> F) (dev : bmp280_t) (humidity : bool) : ST W (option (F * F) * option F) :=
  '(tp, h) ← bmp280_read_fixed dev humidity;
  match tp with
  | Some (t, p) => mret (Some (ratio t 100, ratio p 256), if humidity then option_map (fun h => ratio h 1024) h else None)
  | None => mret (None, None)
  end.
End bmp280.
