(* ===== verification/Bmp280Contract.v ===== *)
(** * What the BMP280 driver reads and configures

    Against the interface of [I2cRegs], a device with 256 registers: bmp280_init reads the
    calibration and writes the configuration that the parameters say
    ([bmp280_init_configures]), and the temperature of a measurement is within one
    hundredth of a degree of the formula of the data sheet
    ([bmp280_temperature_accurate]). *)

From S2P Require Import Prelude Gpio I2c I2cBus I2cRegs Bmp280.
Local Open Scope Z_scope.

Section device.
Context {W : Type} `{!I2c W} (a : Z) `{!RegisterDevice W a 256}.
Notation regs := (registers (addr:=a) (n:=256)).
Notation ok := (working (addr:=a) (n:=256)).

(** With the registers [R], the call gives [x] and leaves the registers [R']. *)
Definition does {A} (R : list Z) (m : ST W A) (x : A) (R' : list Z) : Prop :=
  forall w, ok w -> regs w = R -> exists w', m w = Some (x, w') /\ ok w' /\ regs w' = R'.

Lemma does_ret {A} R (x : A) : does R (mret x) x R.
Proof. intros w Hw Hr. by exists w. Qed.
Lemma does_bind {A B} R R1 R2 (m : ST W A) (f : A -> ST W B) x y : does R m x R1 -> does R1 (f x) y R2 -> does R (m ≫= f) y R2.
Proof.
  intros Hm Hf w Hw Hr. destruct (Hm w Hw Hr) as (w1 & E1 & Hw1 & Hr1). destruct (Hf w1 Hw1 Hr1) as (w2 & E2 & Hw2 & Hr2).
  exists w2. split; [|done]. by rewrite (bind_run _ _ _ _ _ E1).
Qed.
Lemma does_block R r n : 0 <= r -> r + Z.of_nat n <= 256 -> (0 < n)%nat ->
  does R (slave_read a r (Z.of_nat n)) (true, take n (drop (Z.to_nat r) R)) R.
Proof.
  intros Hr Hn H0 w Hw <-. destruct (law_registers w Hw) as [Hl _].
  destruct (law_slave_read w r n Hw ltac:(unfold is_byte; lia) H0) as (w' & E & Hw' & Er). exists w'. split; [|done].
  rewrite E. rewrite Z.mod_small by lia. by rewrite read_file_in by lia.
Qed.
Lemma does_read1 R r : 0 <= r < 256 -> length R = 256%nat -> does R (slave_read a r 1) (true, [reg_at R r]) R.
Proof.
  intros Hr Hl. pose proof (does_block R r 1 ltac:(lia) ltac:(lia) ltac:(lia)) as Hd. change (Z.of_nat 1) with 1 in Hd.
  destruct (lookup_lt_is_Some_2 R (Z.to_nat r)) as [b Eb]; [lia|]. rewrite (drop_S _ _ _ Eb) in Hd. unfold reg_at. by rewrite Eb.
Qed.
Lemma does_write1 R r v : 0 <= r < 256 -> is_byte v -> does R (write_register8 a r v) true (<[Z.to_nat r := v]> R).
Proof.
  intros Hr Hv w Hw <-. unfold write_register8.
  destruct (law_slave_write w r [v] [] Hw ltac:(unfold is_byte; lia) ltac:(by constructor)) as (w' & E & Hw' & Er).
  exists w'. split; [exact E|]. split; [done|]. rewrite Er. rewrite Z.mod_small by lia. done.
Qed.

(** ** Calibration *)

(** The little-endian word at a register. *)
Definition word_of (R : list Z) (r : Z) : Z := reg_at R r + 256 * reg_at R (r + 1).
Lemma does_read16 R r : 0 <= r < 255 -> length R = 256%nat -> Forall is_byte R -> does R (read_register16 a r) (Some (word_of R r)) R.
Proof.
  intros Hr Hl Hb. unfold read_register16. eapply does_bind; [exact (does_block R r 2 ltac:(lia) ltac:(lia) ltac:(lia))|].
  destruct (lookup_lt_is_Some_2 R (Z.to_nat r)) as [b0 E0]; [lia|]. destruct (lookup_lt_is_Some_2 R (S (Z.to_nat r))) as [b1 E1]; [lia|].
  rewrite (drop_S _ _ _ E0), (drop_S _ _ _ E1). cbn [take nth].
  assert (Ew : Z.lor b0 (Z.shiftl b1 8) = word_of R r).
  { assert (Hb0 : is_byte b0) by (by eapply Forall_lookup_1). rewrite (lor_low_high b0 8) by (unfold is_byte in Hb0; lia).
    rewrite Z.shiftl_mul_pow2 by lia. unfold word_of, reg_at. replace (Z.to_nat (r + 1)) with (S (Z.to_nat r)) by lia.
    rewrite E0, E1. cbn [default]. change (2 ^ 8) with 256. unfold id. lia. }
  rewrite Ew. apply does_ret.
Qed.

(** Field [i] of the calibration: dig_T1 and dig_P1 are unsigned. *)
Definition dig_of (R : list Z) (i : nat) : Z :=
  let v := word_of R (0x88 + 2 * Z.of_nat i) in if (i =? 0)%nat || (i =? 3)%nat then v else s16 v.
Lemma does_read_digs R n i dev : i2c_addr dev = a -> length R = 256%nat -> Forall is_byte R -> length (digs dev) = (i + n)%nat -> (i + n <= 12)%nat ->
  does R (read_digs n i dev) (true, with_digs (take i (digs dev) ++ map (dig_of R) (seq i n)) dev) R.
Proof.
  intros Ha Hl Hb. revert i dev Ha; induction n as [|n IH]; intros i dev Ha Hd Hn; cbn [read_digs seq map].
  { rewrite app_nil_r, firstn_all2 by lia. destruct dev. apply does_ret. }
  eapply does_bind; [rewrite Ha; apply does_read16; [lia|done|done]|]. cbv beta iota. fold (dig_of R i).
  set (dev' := with_digs (<[i := dig_of R i]> (digs dev)) dev).
  assert (E : with_digs (take i (digs dev) ++ dig_of R i :: map (dig_of R) (seq (S i) n)) dev = with_digs (take (S i) (digs dev') ++ map (dig_of R) (seq (S i) n)) dev').
  { unfold dev', with_digs. cbn [digs hums i2c_addr chip_id]. f_equal. rewrite cons_middle, app_assoc. f_equal.
    rewrite (take_S_r _ i (dig_of R i)); [by rewrite take_insert_ge by lia|]. apply list_lookup_insert_eq. lia. }
  rewrite E. apply IH; [done|unfold dev'; cbn; rewrite length_insert; lia|lia].
Qed.

(** The humidity fields: dig_H4 and dig_H5 share a register and are taken as unsigned. *)
Definition hums_of (R : list Z) : list Z :=
  [reg_at R 0xa1; s16 (word_of R 0xe1); reg_at R 0xe3;
   Z.lor (Z.shiftl (Z.land (word_of R 0xe4) 0x00ff) 4) (Z.shiftr (Z.land (word_of R 0xe4) 0x0f00) 8);
   Z.shiftr (word_of R 0xe5) 4; to_int8 (reg_at R 0xe7)].
Lemma does_read_hum R dev : i2c_addr dev = a -> length R = 256%nat -> Forall is_byte R -> length (hums dev) = 6%nat ->
  does R (read_hum_calibration_data dev) (true, with_hums (hums_of R) dev) R.
Proof.
  intros Ha Hl Hb Hh. destruct dev as [ds hs ad id]. cbn [i2c_addr hums] in Ha, Hh. subst ad.
  assert (H8 : forall reg i conv d, i2c_addr d = a -> 0 <= reg < 256 ->
    does R (read_hum8 reg i conv d) (true, with_hums (<[i := conv (reg_at R reg)]> (hums d)) d) R).
  { intros reg i conv d Ea Hreg. unfold read_hum8. rewrite Ea. eapply does_bind; [by apply does_read1|]. apply does_ret. }
  unfold read_hum_calibration_data. eapply does_bind; [by apply H8|]. cbn [negb].
  eapply does_bind; [by apply does_read16|]. eapply does_bind; [by apply H8|]. cbn [negb].
  eapply does_bind; [by apply does_read16|]. eapply does_bind; [by apply does_read16|]. eapply does_bind; [by apply H8|]. cbn [negb].
  destruct hs as [|h1 [|h2 [|h3 [|h4 [|h5 [|h6 [|]]]]]]]; try done. apply does_ret.
Qed.

(** ** Configuration *)

(** A forced mode is entered with bmp280_force_measurement, so it starts as sleep. *)
Definition started_mode (m : BMP280_Mode) : BMP280_Mode := match m with BMP280_MODE_FORCED => BMP280_MODE_SLEEP | m => m end.
Definition started_params (p : bmp280_params_t) : bmp280_params_t :=
  {| bp_mode := started_mode (bp_mode p); bp_filter := bp_filter p; bp_oversampling := bp_oversampling p;
     bp_oversampling_humidity := bp_oversampling_humidity p; bp_standby := bp_standby p |}.
Definition config_byte (p : bmp280_params_t) : Z := 32 * standby_bits (bp_standby p) + 4 * filter_bits (bp_filter p).
Definition ctrl_byte (p : bmp280_params_t) : Z :=
  32 * (match bp_oversampling p with BMP280_ULTRA_HIGH_RES => 2 | _ => 1 end) + 4 * oversampling_bits (bp_oversampling p) +
  mode_bits (started_mode (bp_mode p)).
Definition configured (id : Z) (p : bmp280_params_t) (R : list Z) : list Z :=
  let R := <[245%nat := config_byte p]> R in
  let R := if id =? BME280_CHIP_ID then <[242%nat := oversampling_bits (bp_oversampling_humidity p)]> R else R in
  <[244%nat := ctrl_byte p]> R.

Lemma does_configure R dev p : i2c_addr dev = a -> does R (configure dev p) (true, started_params p) (configured (chip_id dev) p R).
Proof.
  intros Ha. unfold configure, configured. rewrite Ha.
  assert (E1 : u8 (Z.lor (Z.shiftl (standby_bits (bp_standby p)) 5) (Z.shiftl (filter_bits (bp_filter p)) 2)) = config_byte p /\ is_byte (config_byte p)).
  { unfold config_byte. by destruct (bp_standby p), (bp_filter p). }
  destruct E1 as [-> B1]. eapply does_bind; [by apply does_write1|]. cbn [negb].
  set (p' := match bp_mode p with BMP280_MODE_FORCED => _ | _ => p end).
  assert (Ep : p' = started_params p) by (unfold p', started_params; destruct p as [[] ? ? ? ?]; done). rewrite Ep.
  assert (Bh : is_byte (oversampling_bits (bp_oversampling_humidity p))) by by destruct (bp_oversampling_humidity p).
  eapply does_bind.
  { instantiate (2 := true). instantiate (1 := if chip_id dev =? BME280_CHIP_ID then <[242%nat := oversampling_bits (bp_oversampling_humidity p)]> (<[245%nat := config_byte p]> R) else <[245%nat := config_byte p]> R).
    destruct (chip_id dev =? BME280_CHIP_ID); [by apply (does_write1 _ BMP280_REG_CTRL_HUM)|apply does_ret]. }
  cbn [negb]. eapply does_bind; [|apply does_ret].
  set (c := u8 _). assert (E2 : c = ctrl_byte p /\ is_byte (ctrl_byte p)).
  { unfold c, ctrl_byte, started_params. cbn [bp_oversampling bp_mode]. by destruct (bp_oversampling p), (bp_mode p). }
  destruct E2 as [-> B2]. by apply (does_write1 _ BMP280_REG_CTRL).
Qed.
Lemma does_wait_reset R fuel dev : i2c_addr dev = a -> length R = 256%nat -> Z.land (reg_at R BMP280_REG_STATUS) 1 = 0 -> (0 < fuel)%nat ->
  does R (wait_reset fuel dev) () R.
Proof.
  intros Ha Hl Hs Hf. destruct fuel; [lia|]. cbn [wait_reset]. rewrite Ha. eapply does_bind; [by apply does_read1|].
  cbn [nth andb]. rewrite Hs. apply does_ret.
Qed.

Lemma reg_at_insert_ne R i v r : 0 <= r -> Z.to_nat r <> i -> reg_at (<[i := v]> R) r = reg_at R r.
Proof. intros Hr Hne. unfold reg_at. by rewrite list_lookup_insert_ne. Qed.
Lemma calibration_kept R v : map (dig_of (<[224%nat := v]> R)) (seq 0 12) = map (dig_of R) (seq 0 12) /\ hums_of (<[224%nat := v]> R) = hums_of R.
Proof.
  split; [apply map_ext_in; intros i Hi%in_seq; unfold dig_of|unfold hums_of]; unfold word_of; by rewrite !reg_at_insert_ne by lia.
Qed.

Lemma does_init R fuel dev p : i2c_addr dev = a -> a = BMP280_I2C_ADDRESS_0 \/ a = BMP280_I2C_ADDRESS_1 ->
  length R = 256%nat -> Forall is_byte R -> length (digs dev) = 12%nat -> length (hums dev) = 6%nat ->
  let id := reg_at R BMP280_REG_ID in id = BMP280_CHIP_ID \/ id = BME280_CHIP_ID ->
  Z.land (reg_at R BMP280_REG_STATUS) 1 = 0 -> (0 < fuel)%nat ->
  does R (bmp280_init fuel dev p)
    (true, {| digs := map (dig_of R) (seq 0 12); hums := if id =? BME280_CHIP_ID then hums_of R else hums dev; i2c_addr := a; chip_id := id |},
     started_params p)
    (configured id p (<[224%nat := BMP280_RESET_VALUE]> R)).
Proof.
  intros Ha Haddr Hl Hb Hd Hh id Hid Hs Hf. destruct dev as [ds hs ad cid]. cbn [i2c_addr digs hums] in *. subst ad. unfold bmp280_init. cbn [i2c_addr].
  assert (E0 : negb (a =? BMP280_I2C_ADDRESS_0) && negb (a =? BMP280_I2C_ADDRESS_1) = false) by (destruct Haddr as [-> | ->]; done). rewrite E0.
  eapply does_bind; [by apply does_read1|]. cbn [negb nth with_chip_id chip_id digs hums i2c_addr]. fold id.
  assert (E1 : negb (id =? BMP280_CHIP_ID) && negb (id =? BME280_CHIP_ID) = false) by (destruct Hid as [-> | ->]; done). rewrite E1.
  eapply does_bind; [by apply does_write1|]. cbn [negb]. change (Z.to_nat BMP280_REG_RESET) with 224%nat. set (R1 := <[224%nat := BMP280_RESET_VALUE]> R).
  assert (Hl1 : length R1 = 256%nat) by (unfold R1; by rewrite length_insert).
  assert (Hb1 : Forall is_byte R1) by (apply Forall_insert; [done|by unfold is_byte, BMP280_RESET_VALUE]).
  eapply does_bind; [apply does_wait_reset; [done|done| |done]|].
  { unfold R1. by rewrite reg_at_insert_ne. }
  destruct (calibration_kept R BMP280_RESET_VALUE) as [Ed Eh]. fold R1 in Ed, Eh.
  eapply does_bind; [apply (does_read_digs R1 12 0); cbn [i2c_addr digs]; [done|done|done|exact Hd|lia]|].
  cbn [negb take app with_digs digs hums i2c_addr chip_id]. rewrite Ed.
  set (dev1 := {| digs := map (dig_of R) (seq 0 12); hums := hs; i2c_addr := a; chip_id := id |}).
  assert (Hhum : does R1 (if id =? BME280_CHIP_ID then read_hum_calibration_data dev1 else mret (true, dev1))
    (true, with_hums (if id =? BME280_CHIP_ID then hums_of R else hs) dev1) R1).
  { destruct (id =? BME280_CHIP_ID); [|apply does_ret]. rewrite <- Eh. by apply (does_read_hum R1). }
  eapply does_bind; [exact Hhum|].
  cbn [negb]. eapply does_bind; [by apply does_configure|]. apply does_ret.
Qed.
End device.

(** Bmp280_init configures the sensor and knows its calibration: for a BMP280 or
    BME280 at one of its addresses that has finished its reset, the call succeeds; the
    fields of the device are the calibration registers (with the signs of the data
    sheet, apart from dig_H4 and dig_H5), the registers config, ctrl_meas and, of a
    BME280, ctrl_hum have the parameters in their bits, and no other register than
    these and the reset register changes. *)
Theorem bmp280_init_configures {W} `{!I2c W} a `{!RegisterDevice W a 256} (w : W) fuel dev p :
  let R := registers (addr:=a) (n:=256) w in
  let id := reg_at R BMP280_REG_ID in
  working (addr:=a) (n:=256) w -> i2c_addr dev = a -> a = BMP280_I2C_ADDRESS_0 \/ a = BMP280_I2C_ADDRESS_1 ->
  length (digs dev) = 12%nat -> length (hums dev) = 6%nat -> id = BMP280_CHIP_ID \/ id = BME280_CHIP_ID ->
  Z.land (reg_at R BMP280_REG_STATUS) 1 = 0 -> (0 < fuel)%nat ->
  exists w', bmp280_init fuel dev p w = Some (true,
      {| digs := map (dig_of R) (seq 0 12); hums := if id =? BME280_CHIP_ID then hums_of R else hums dev; i2c_addr := a; chip_id := id |},
      started_params p, w') /\
    working (addr:=a) (n:=256) w' /\ registers (addr:=a) (n:=256) w' = configured id p (<[224%nat := BMP280_RESET_VALUE]> R).
Proof.
  intros R id Hw Ha Haddr Hd Hh Hid Hs Hf. destruct (law_registers w Hw) as [Hl Hb].
  exact (does_init a R fuel dev p Ha Haddr ltac:(unfold R; lia) Hb Hd Hh Hid Hs Hf w Hw eq_refl).
Qed.

(** ** Temperature *)

(** The formula of the data sheet for a raw value [adc], as a fraction: the temperature in
    hundredths of a degree is this over 2^42. *)
Definition exact_temperature (T1 T2 T3 adc : Z) : Z :=
  let e := adc - 16 * T1 in 5 * (2 ^ 20 * (e * T2) + e * e * T3).

Lemma mul_abs_le x y a b : - a <= x <= a -> - b <= y <= b -> - (a * b) <= x * y <= a * b.
Proof. nia. Qed.
Lemma first_term e T2 A : 8 * A <= e < 8 * A + 8 -> -2 ^ 15 <= T2 < 2 ^ 15 ->
  - 245752 <= 2 ^ 14 * (A * T2 / 2 ^ 11) - e * T2 <= 245752.
Proof.
  intros HA HT. pose proof (Z.div_mod (A * T2) (2 ^ 11) ltac:(lia)) as Hd. pose proof (Z.mod_pos_bound (A * T2) (2 ^ 11) ltac:(lia)) as Hm.
  set (v := A * T2 / 2 ^ 11) in *. set (r := (A * T2) mod 2 ^ 11) in *.
  pose proof (mul_abs_le (e - 8 * A) T2 7 (2 ^ 15) ltac:(lia) ltac:(lia)) as Hb. lia.
Qed.
Lemma second_term e T3 D : 16 * D <= e < 16 * D + 16 -> - 524280 <= e <= 524280 -> -2 ^ 13 <= T3 < 2 ^ 13 ->
  - 154615554048 <= 2 ^ 34 * (D * D / 2 ^ 12 * T3 / 2 ^ 14) - e * e * T3 <= 154615554048.
Proof.
  intros HD He HT. pose proof (Z.div_mod (D * D) (2 ^ 12) ltac:(lia)) as Hq. pose proof (Z.mod_pos_bound (D * D) (2 ^ 12) ltac:(lia)) as Hqm.
  set (q := D * D / 2 ^ 12) in *. set (qr := (D * D) mod 2 ^ 12) in *.
  pose proof (Z.div_mod (q * T3) (2 ^ 14) ltac:(lia)) as Hv. pose proof (Z.mod_pos_bound (q * T3) (2 ^ 14) ltac:(lia)) as Hvm.
  set (v := q * T3 / 2 ^ 14) in *. set (vr := (q * T3) mod 2 ^ 14) in *.
  set (d := e - 16 * D) in *. assert (Hd : 0 <= d <= 15) by (unfold d; lia).
  pose proof (mul_abs_le (qr - 2047) T3 2048 (2 ^ 13) ltac:(lia) ltac:(lia)) as H1.
  pose proof (mul_abs_le d (d - 2 * e) 15 1048575 ltac:(lia) ltac:(lia)) as H2.
  pose proof (mul_abs_le (d * (d - 2 * e)) T3 (15 * 1048575) (2 ^ 13) H2 ltac:(lia)) as H3.
  pose proof (mul_abs_le qr T3 4095 (2 ^ 13) ltac:(lia) ltac:(lia)) as H4.
  assert (E : 2 ^ 34 * v - e * e * T3 = d * (d - 2 * e) * T3 - 256 * (qr * T3) - 2 ^ 20 * vr); [|lia].
  assert (E1 : 2 ^ 34 * v = 2 ^ 20 * (q * T3) - 2 ^ 20 * vr) by lia.
  assert (E2 : 2 ^ 12 * q * T3 = D * D * T3 - qr * T3) by (rewrite Hq; ring).
  assert (E3 : 256 * (D * D) = (e - d) * (e - d)) by (unfold d; ring).
  assert (E4 : 2 ^ 20 * (q * T3) = 256 * (D * D) * T3 - 256 * (qr * T3)) by lia.
  rewrite E1, E4, E3. ring.
Qed.

Lemma compensate_temperature_accurate dev adc : let T1 := dig_T 1 dev in let T2 := dig_T 2 dev in let T3 := dig_T 3 dev in
  0 <= adc < 2 ^ 20 -> 0 <= T1 < 2 ^ 16 -> -2 ^ 15 <= T2 < 2 ^ 15 -> -2 ^ 13 <= T3 < 2 ^ 13 -> - 524280 <= adc - 16 * T1 <= 524280 ->
  - 2 ^ 42 <= 2 ^ 42 * (compensate_temperature dev adc).1 - exact_temperature T1 T2 T3 adc <= 2 ^ 42.
Proof.
  intros T1 T2 T3 Ha H1 H2 H3 He. unfold compensate_temperature. fold T1 T2 T3. rewrite !Z.shiftr_div_pow2, !Z.shiftl_mul_pow2 by lia.
  pose proof (Z.div_mod adc (2 ^ 3) ltac:(lia)) as Ea. pose proof (Z.mod_pos_bound adc (2 ^ 3) ltac:(lia)) as Ma.
  pose proof (Z.div_mod adc (2 ^ 4) ltac:(lia)) as Ed. pose proof (Z.mod_pos_bound adc (2 ^ 4) ltac:(lia)) as Md.
  set (e := adc - 16 * T1) in *.
  rewrite (s32_small (adc / 2 ^ 3 - T1 * 2 ^ 1)) by lia. set (A := adc / 2 ^ 3 - T1 * 2 ^ 1) in *.
  rewrite (s32_small (adc / 2 ^ 4 - T1)) by lia. set (D := adc / 2 ^ 4 - T1) in *.
  assert (HA : 8 * A <= e < 8 * A + 8) by (unfold A, e; lia). assert (HD : 16 * D <= e < 16 * D + 16) by (unfold D, e; lia).
  pose proof (mul_abs_le A T2 65535 (2 ^ 15) ltac:(lia) ltac:(lia)) as BA. pose proof (mul_abs_le D D 32768 32768 ltac:(lia) ltac:(lia)) as BD.
  pose proof (first_term e T2 A HA H2) as F1. pose proof (second_term e T3 D HD He H3) as F2.
  rewrite (s32_small (A * T2)) by lia. rewrite (s32_small (D * D)) by lia.
  assert (Hq : 0 <= D * D / 2 ^ 12 <= 2 ^ 18).
  { split; [apply Z.div_pos; [apply Z.square_nonneg|lia]|]. apply Z.div_le_upper_bound; lia. }
  assert (Bq : -2 ^ 31 <= D * D / 2 ^ 12 * T3 < 2 ^ 31) by nia. rewrite (s32_small (D * D / 2 ^ 12 * T3)) by done.
  set (v1 := A * T2 / 2 ^ 11) in *. set (v2 := D * D / 2 ^ 12 * T3 / 2 ^ 14) in *.
  assert (B1 : -2 ^ 21 <= v1 <= 2 ^ 21) by (split; [apply Z.div_le_lower_bound; lia|apply Z.div_le_upper_bound; lia]).
  assert (B2 : -2 ^ 17 <= v2 <= 2 ^ 17) by (split; [apply Z.div_le_lower_bound; lia|apply Z.div_le_upper_bound; lia]).
  rewrite (s32_small (v1 + v2)) by lia. rewrite (s32_small ((v1 + v2) * 5)) by lia. rewrite (s32_small ((v1 + v2) * 5 + 128)) by lia. cbn [fst].
  pose proof (Z.div_mod ((v1 + v2) * 5 + 128) (2 ^ 8) ltac:(lia)) as Et. pose proof (Z.mod_pos_bound ((v1 + v2) * 5 + 128) (2 ^ 8) ltac:(lia)) as Mt.
  set (t := ((v1 + v2) * 5 + 128) / 2 ^ 8) in *. unfold exact_temperature. fold e. lia.
Qed.

(** The raw temperature of the measurement registers. *)
Definition raw_temperature (R : list Z) : Z := 4096 * reg_at R 0xfa + 16 * reg_at R 0xfb + reg_at R 0xfc / 16.

Lemma raw_temperature_range R : Forall is_byte R -> 0 <= raw_temperature R < 2 ^ 20.
Proof.
  intros Hb. pose proof (reg_at_byte R 0xfa Hb). pose proof (reg_at_byte R 0xfb Hb). pose proof (reg_at_byte R 0xfc Hb).
  unfold raw_temperature, is_byte in *.
  assert (0 <= reg_at R 0xfc / 16 < 16) by (split; [apply Z.div_pos|apply Z.div_lt_upper_bound]; lia). lia.
Qed.
Lemma does_read_fixed {W} `{!I2c W} a `{!RegisterDevice W a 256} R dev humidity : i2c_addr dev = a -> length R = 256%nat -> Forall is_byte R ->
  exists pressure stored, (is_Some stored <-> humidity = true) /\ does a R (bmp280_read_fixed dev humidity)
    (Some ((compensate_temperature dev (raw_temperature R)).1, pressure), stored) R.
Proof.
  intros Ha Hl Hb. destruct (compensate_temperature dev (raw_temperature R)) as [t fine] eqn:Ec. unfold bmp280_read_fixed. cbv zeta. rewrite Ha.
  set (n := if (chip_id dev =? BME280_CHIP_ID) && humidity then 8%nat else 6%nat).
  assert (Hsz : (if (chip_id dev =? BME280_CHIP_ID) && humidity then 8 else 6) = Z.of_nat n) by (unfold n; by destruct (_ && humidity)).
  assert (Hn68 : (6 <= n <= 8)%nat) by (unfold n; destruct (_ && humidity); lia). rewrite Hsz.
  eexists _, _. split; cycle 1.
  { eapply does_bind; [exact (does_block a R 0xf7 n ltac:(lia) ltac:(lia) ltac:(lia))|]. cbn [negb].
    assert (Hn : forall i, (i < 6)%nat -> nth i (take n (drop (Z.to_nat 0xf7) R)) 0 = reg_at R (0xf7 + Z.of_nat i)).
    { intros i Hi. rewrite nth_lookup, lookup_take_lt, lookup_drop by lia. unfold reg_at.
      by replace (Z.to_nat (0xf7 + Z.of_nat i)) with (Z.to_nat 0xf7 + i)%nat by lia. }
    rewrite !Hn by lia. change (0xf7 + Z.of_nat 3) with 0xfa. change (0xf7 + Z.of_nat 4) with 0xfb. change (0xf7 + Z.of_nat 5) with 0xfc.
    assert (Et : Z.lor (Z.lor (Z.shiftl (reg_at R 0xfa) 12) (Z.shiftl (reg_at R 0xfb) 4)) (Z.shiftr (reg_at R 0xfc) 4) = raw_temperature R).
    { pose proof (reg_at_byte R 0xfa Hb) as Ba. pose proof (reg_at_byte R 0xfb Hb) as Bb. pose proof (reg_at_byte R 0xfc Hb) as Bc. unfold is_byte in *. unfold raw_temperature.
      rewrite Z.shiftr_div_pow2, (Z.shiftl_mul_pow2 (reg_at R 0xfb)) by lia.
      assert (Hd : 0 <= reg_at R 0xfc / 2 ^ 4 < 2 ^ 4) by (split; [apply Z.div_pos|apply Z.div_lt_upper_bound]; lia).
      rewrite (Z.lor_comm (Z.shiftl _ 12)), (lor_low_high _ 12) by lia. rewrite Z.lor_comm, Z.shiftl_mul_pow2 by lia.
      replace (reg_at R 0xfb * 2 ^ 4 + reg_at R 0xfa * 2 ^ 12) with (Z.shiftl (reg_at R 0xfb + reg_at R 0xfa * 2 ^ 8) 4) by (rewrite Z.shiftl_mul_pow2; lia).
      rewrite (lor_low_high _ 4) by lia. rewrite Z.shiftl_mul_pow2 by lia. change (2 ^ 4) with 16. lia. }
    rewrite Et, Ec. cbn [fst]. apply does_ret. }
  clear. destruct (chip_id dev =? BME280_CHIP_ID), humidity; cbn; by rewrite <- ?not_eq_None_Some.
Qed.

(** C38: The temperature of a measurement is right to a hundredth of a degree: for a
    sensor with dig_T1 unsigned, dig_T2 signed (16 bits each), dig_T3 below 2^13 in
    magnitude and a raw value at most 524280 away from 16 dig_T1, bmp280_read_fixed
    succeeds and its temperature, for all its 32-bit shifts and roundings, differs by at
    most one hundredth of a degree from the formula of the data sheet, computed without
    rounding, at the raw value of the measurement registers.  This is so for both chips
    and with or without a place for the humidity, which makes the block read of a
    BME280 8 bytes long instead of 6; a humidity is stored exactly when there is a place for it, and the
    registers of the sensor are as before.  The sensor works (it acknowledges its
    address). *)
Theorem bmp280_temperature_accurate {W} `{!I2c W} a `{!RegisterDevice W a 256} (w : W) dev humidity :
  let R := registers (addr:=a) (n:=256) w in
  let adc := raw_temperature R in
  let T1 := dig_T 1 dev in let T2 := dig_T 2 dev in let T3 := dig_T 3 dev in
  working (addr:=a) (n:=256) w -> i2c_addr dev = a ->
  0 <= T1 < 2 ^ 16 -> -2 ^ 15 <= T2 < 2 ^ 15 -> -2 ^ 13 <= T3 < 2 ^ 13 -> - 524280 <= adc - 16 * T1 <= 524280 ->
  exists temperature pressure stored w',
    bmp280_read_fixed dev humidity w = Some ((Some (temperature, pressure), stored), w') /\
    (is_Some stored <-> humidity = true) /\
    Z.abs (2 ^ 42 * temperature - exact_temperature T1 T2 T3 adc) <= 2 ^ 42 /\
    working (addr:=a) (n:=256) w' /\ registers (addr:=a) (n:=256) w' = R.
Proof.
  intros R adc T1 T2 T3 Hw Ha H1 H2 H3 He. destruct (law_registers w Hw) as [Hl Hb].
  destruct (does_read_fixed a R dev humidity Ha ltac:(unfold R; lia) Hb) as (pressure & stored & Hs & Hd).
  destruct (Hd w Hw eq_refl) as (w' & E & Hw'). eexists _, pressure, stored, w'. split; [exact E|]. split; [exact Hs|]. split; [|exact Hw'].
  pose proof (raw_temperature_range R Hb) as Hadc.
  pose proof (compensate_temperature_accurate dev adc Hadc H1 H2 H3 He) as Hacc. apply Z.abs_le. exact Hacc.
Qed.

(** ** Witnesses, on the bus *)

(** The example of the data sheet: dig_T1 = 27504, dig_T2 = 26435, dig_T3 = -1000 and the
    raw value 519888 give 25.08 degrees. *)
Definition bmp_registers : list Z :=
  <[0xd0%nat := BMP280_CHIP_ID]> (<[0x88%nat := 0x70]> (<[0x89%nat := 0x6b]> (<[0x8a%nat := 0x43]> (<[0x8b%nat := 0x67]>
  (<[0x8c%nat := 0x18]> (<[0x8d%nat := 0xfc]> (<[0xfa%nat := 0x7e]> (<[0xfb%nat := 0xed]> (replicate 256 0))))))))).
Definition bmp_device : regdev :=
  {| rd_addr := BMP280_I2C_ADDRESS_0; rd_regs := bmp_registers; rd_ptr := 0; rd_stretch := 0; rd_phase := Quiet; rd_sampled := None |}.
Definition bmp_driver : driver i2c_sim :=
  Driver {| sim_lines := idle bmp_device; sim_latch := fun _ => false; sim_input := fun _ => true |} false SCL SDA [].
Lemma bmp_address : 0 <= BMP280_I2C_ADDRESS_0 < 128.
Proof. unfold BMP280_I2C_ADDRESS_0. lia. Qed.
Definition bmp_on_bus : RegisterDevice (driver i2c_sim) BMP280_I2C_ADDRESS_0 256 :=
  register_device SCL SDA BMP280_I2C_ADDRESS_0 256 bmp_address.
Lemma bmp_works : working (RegisterDevice:=bmp_on_bus) bmp_driver.
Proof.
  exists bmp_device, (idle bmp_device, false).
  split_and!; [by left|done|done|done|]. by apply bytes_check.
Qed.
Definition bmp_dev : bmp280_t :=
  {| digs := 27504 :: 26435 :: -1000 :: replicate 9 0; hums := replicate 6 0; i2c_addr := BMP280_I2C_ADDRESS_0; chip_id := BMP280_CHIP_ID |}.
Definition bme_dev : bmp280_t := with_chip_id BME280_CHIP_ID bmp_dev.
Lemma bmp280_temperature_accurate_witness :
  raw_temperature bmp_registers = 519888 /\
  forall humidity, exists temperature pressure stored w', bmp280_read_fixed bme_dev humidity bmp_driver = Some ((Some (temperature, pressure), stored), w') /\
    2508 <= temperature <= 2509 /\ (is_Some stored <-> humidity = true) /\ registers (RegisterDevice:=bmp_on_bus) w' = bmp_registers.
Proof.
  split; [reflexivity|]. intros humidity.
  destruct (@bmp280_temperature_accurate _ _ BMP280_I2C_ADDRESS_0 bmp_on_bus bmp_driver bme_dev humidity bmp_works eq_refl)
    as (t & p & s & w' & E & Hs & Ht & _ & Er).
  1-4: change (raw_temperature _) with 519888; unfold dig_T; cbn [nth digs bme_dev with_chip_id bmp_dev Nat.sub]; lia.
  exists t, p, s, w'. split; [exact E|]. split; [|split; [exact Hs|exact Er]].
  change (raw_temperature _) with 519888 in Ht. change (dig_T 1 bme_dev) with 27504 in Ht. change (dig_T 2 bme_dev) with 26435 in Ht.
  change (dig_T 3 bme_dev) with (-1000) in Ht.
  assert (exact_temperature 27504 26435 (-1000) 519888 = 11031390455347200) by reflexivity. lia.
Defined.
Lemma bmp280_init_configures_witness :
  exists dev w', bmp280_init 1 bmp_dev bmp280_init_default_params bmp_driver = Some (true, dev, bmp280_init_default_params, w') /\
    dig_T 1 dev = 27504 /\ dig_T 2 dev = 26435 /\ dig_T 3 dev = -1000 /\
    reg_at (registers (RegisterDevice:=bmp_on_bus) w') BMP280_REG_CTRL = 0x2f /\
    reg_at (registers (RegisterDevice:=bmp_on_bus) w') BMP280_REG_CONFIG = 0x60.
Proof.
  destruct (@bmp280_init_configures _ _ BMP280_I2C_ADDRESS_0 bmp_on_bus bmp_driver 1 bmp_dev bmp280_init_default_params bmp_works eq_refl)
    as (w' & E & _ & Er); [by left|done|done|by left|done|lia|].
  eexists _, w'. split; [exact E|]. rewrite Er. by split_and!.
Defined.
