(* ===== verification/Ds18b20.v ===== *)
(** * DS18B20 thermometers: extras/ds18b20/ds18b20.c

    The driver over the 1-Wire master of [Onewire].  The floats are parameters: [celsius t]
    is [(t * 625.0) / 10000], [NAN] and [isnan] are those of math.h.  [vTaskDelay] is the
    kernel's, with ticks of 10 ms.  The searches take fuel.  What printf writes is left
    out.  The theorems are in [Ds18b20Contract]. *)

From S2P Require Import Prelude Gpio Onewire.
Local Open Scope Z_scope.

Definition DS18B20_READ_SCRATCHPAD : Z := 0xBE.
Definition DS18B20_CONVERT_T : Z := 0x44.
Definition DS18B20_ANY : Z := ONEWIRE_NONE.
Definition tick_rate_ms : Z := 10.

(** The bytes of an address in memory. *)
Definition addr_bytes (n : nat) (addr : Z) : list Z := map (fun i => u8 (Z.shiftr addr (8 * Z.of_nat i))) (seq 0 n).

Section ds18b20.
Context {E F : Type} `{!Pin E} (vTaskDelay : Z -> ST E unit) (celsius : Z -> F) (NAN : F) (isnan : F -> bool) (pin : Z).

Definition os_sleep_ms (x : Z) : ST E unit := vTaskDelay ((x + tick_rate_ms - 1) / tick_rate_ms).

(** The loops that fill a buffer with [n] bytes of the bus. *)
Fixpoint get_bytes (n : nat) : ST E (list Z) :=
  match n with
  | O => mret []
  | S n => b ← onewire_read pin; bs ← get_bytes n; mret (u8 b :: bs)
  end.

(** The result, and what is stored at [result]: the index, the id and the value. *)
Fixpoint read_all_loop (fuel : nat) (search : onewire_search_t) (sensor_id : Z) : ST E (Z * list (Z * Z * F)) :=
  match fuel with
  | O => out_of_fuel
  | S fuel =>
      '(addr, search) ← onewire_search_next pin search;
      if addr =? ONEWIRE_NONE then mret (sensor_id, [])
      else
        let crc := onewire_crc8 (addr_bytes 7 addr) in
        if negb (crc =? Z.shiftr addr 56) then mret (0, [])
        else
          onewire_reset pin;;
          onewire_select pin addr;;
          onewire_write pin DS18B20_CONVERT_T;;
          onewire_power pin;;
          vTaskDelay (750 / tick_rate_ms);;
          onewire_reset pin;;
          onewire_select pin addr;;
          onewire_write pin DS18B20_READ_SCRATCHPAD;;
          get ← get_bytes 9;
          let crc := onewire_crc8 (take 8 get) in
          if negb (crc =? nth 8 get 0) then mret (0, [])
          else
            let temp := u16 (Z.lor (Z.shiftl (nth 1 get 0) 8) (nth 0 get 0)) in
            '(n, stored) ← read_all_loop fuel search (u8 (sensor_id + 1));
            mret (n, (sensor_id, sensor_id, celsius temp) :: stored)
  end.
Definition ds18b20_read_all (fuel : nat) : ST E (Z * list (Z * Z * F)) := read_all_loop fuel onewire_search_start 0.

Definition ds18b20_read_single : ST E F :=
  onewire_reset pin;;
  onewire_skip_rom pin;;
  onewire_write pin DS18B20_CONVERT_T;;
  onewire_power pin;;
  vTaskDelay (750 / tick_rate_ms);;
  onewire_reset pin;;
  onewire_skip_rom pin;;
  onewire_write pin DS18B20_READ_SCRATCHPAD;;
  get ← get_bytes 9;
  let crc := onewire_crc8 (take 8 get) in
  if negb (crc =? nth 8 get 0) then mret (celsius 0)
  else
    let temp := u16 (Z.lor (Z.shiftl (nth 1 get 0) 8) (nth 0 get 0)) in
    mret (celsius temp).

(** One device or all of them. *)
Definition address_devices (addr : Z) : ST E bool :=
  if addr =? DS18B20_ANY then onewire_skip_rom pin else onewire_select pin addr.

Definition ds18b20_measure (addr : Z) (wait : bool) : ST E bool :=
  ok ← onewire_reset pin;
  if negb ok then mret false
  else
    address_devices addr;;
    taskENTER_CRITICAL;;
    onewire_write pin DS18B20_CONVERT_T;;
    onewire_power pin;;
    taskEXIT_CRITICAL;;
    (if wait then os_sleep_ms 750;; onewire_depower pin else mret ());;
    mret true.

(** The result and the buffer; [None]: the buffer is not written. *)
Definition ds18b20_read_scratchpad (addr : Z) : ST E (bool * option (list Z)) :=
  ok ← onewire_reset pin;
  if negb ok then mret (false, None)
  else
    address_devices addr;;
    onewire_write pin DS18B20_READ_SCRATCHPAD;;
    buffer ← get_bytes 8;
    r ← onewire_read pin;
    let crc := u8 r in
    let expected_crc := onewire_crc8 buffer in
    if negb (crc =? expected_crc) then mret (false, Some buffer)
    else mret (true, Some buffer).

Definition ds18b20_read_temperature (addr : Z) : ST E F :=
  '(ok, buffer) ← ds18b20_read_scratchpad addr;
  if negb ok then mret NAN
  else
    let scratchpad := default [] buffer in
    let temp := Z.lor (Z.shiftl (nth 1 scratchpad 0) 8) (nth 0 scratchpad 0) in
    mret (celsius temp).

Definition ds18b20_measure_and_read (addr : Z) : ST E F :=
  ok ← ds18b20_measure addr true;
  if negb ok then mret NAN else ds18b20_read_temperature addr.

(** The results of the devices of the list, one after the other. *)
Fixpoint ds18b20_read_temp_multi (addr_list : list Z) : ST E (bool * list F) :=
  match addr_list with
  | [] => mret (true, [])
  | addr :: addr_list =>
      t ← ds18b20_read_temperature addr;
      '(result, result_list) ← ds18b20_read_temp_multi addr_list;
      mret (negb (isnan t) && result, t :: result_list)
  end.
Definition ds18b20_measure_and_read_multi (addr_list : list Z) : ST E (bool * list F) :=
  ok ← ds18b20_measure DS18B20_ANY true;
  if negb ok then mret (false, map (fun _ => NAN) addr_list) else ds18b20_read_temp_multi addr_list.

(** [addr_list] is the array; the result is the number found and the array. *)
Fixpoint scan_loop (fuel : nat) (search : onewire_search_t) (found addr_count : Z) (addr_list : list Z) : ST E (Z * list Z) :=
  match fuel with
  | O => out_of_fuel
  | S fuel =>
      '(addr, search) ← onewire_search_next pin search;
      if addr =? ONEWIRE_NONE then mret (found, addr_list)
      else
        let addr_list := if found <? addr_count then <[Z.to_nat found := addr]> addr_list else addr_list in
        scan_loop fuel search (found + 1) addr_count addr_list
  end.
Definition ds18b20_scan_devices (fuel : nat) (addr_list : list Z) (addr_count : Z) : ST E (Z * list Z) :=
  scan_loop fuel onewire_search_start 0 addr_count addr_list.
End ds18b20.
