(* ===== verification/Ds18b20Contract.v ===== *)
(** * What the DS18B20 driver reads

    The bus is a list of thermometers that follow the protocol of the data sheet bit by
    bit ([bus_write], [bus_read]), with the ROM commands "skip" and "match", the
    conversion of the temperature while the line is held high, and the scratchpad with its
    checksum.  [ProbeBus] says what the bit slots of [Onewire] do on it;
    [ds18b20_measures_all] is the measurement of all the thermometers.  [ds_sim] is a
    concrete line, accurate to the microsecond. *)

From S2P Require Import Prelude Gpio Onewire OnewireSearch OnewireContract OnewireSim Ds18b20.
Local Open Scope Z_scope.

(** ** Thermometers *)

(** [pb_temp] is the temperature now, in sixteenths of a degree. *)
Record probe := Probe { pb_addr : Z; pb_temp : Z; pb_pad : list Z }.
(** A conversion puts the temperature in the first two bytes, in two's complement. *)
Definition raw_of (t : Z) : Z := t mod 2 ^ 16.
Definition converted (p : probe) : probe :=
  Probe (pb_addr p) (pb_temp p) ([raw_of (pb_temp p) mod 256; raw_of (pb_temp p) / 256] ++ drop 2 (pb_pad p)).
(** What a thermometer sends after the command to read the scratchpad. *)
Definition pad_bits (p : probe) : list bool := concat (map byte_bits (pb_pad p ++ [onewire_crc8 (pb_pad p)])).

(** [sel] are the addresses of the thermometers that take part. *)
Inductive probe_phase :=
  | Pidle
  | Prom (bits : list bool)
  | Pmatch (bits : list bool)
  | Pfunction (sel : list Z) (bits : list bool)
  | Pconverting (sel : list Z)
  | Psending (sel : list Z) (i : nat).
Record bus := PBus { probes : list probe; phase : probe_phase }.
Definition selected (sel : list Z) (b : bus) : list probe := filter (fun p => pb_addr p ∈ sel) (probes b).

Definition bus_reset (b : bus) : bus := PBus (probes b) (Prom []).
(** Bits are collected until there are [n]. *)
Definition gather (n : nat) (more : list bool -> probe_phase) (full : Z -> probe_phase) (bits : list bool) : probe_phase :=
  if (length bits =? n)%nat then full (bits_val bits) else more bits.
Definition bus_written (v : bool) (b : bus) : probe_phase :=
  match phase b with
  | Prom bits => gather 8 Prom (fun c =>
      if c =? ONEWIRE_SKIP_ROM then Pfunction (map pb_addr (probes b)) []
      else if c =? ONEWIRE_SELECT_ROM then Pmatch [] else Pidle) (bits ++ [v])
  | Pmatch bits => gather 64 Pmatch (fun a => Pfunction [a] []) (bits ++ [v])
  | Pfunction sel bits => gather 8 (Pfunction sel) (fun c =>
      if c =? DS18B20_CONVERT_T then Pconverting sel
      else if c =? DS18B20_READ_SCRATCHPAD then Psending sel 0 else Pidle) (bits ++ [v])
  | Psending sel i => if v then Psending sel (S i) else Pidle
  | _ => Pidle
  end.
Definition bus_write (v : bool) (b : bus) : bus := PBus (probes b) (bus_written v b).
(** A read slot is a written 1 during which the thermometers may hold the line low. *)
Definition bus_read (b : bus) : bool * bus :=
  (match phase b with
   | Psending sel i => forallb (fun p => nth i (pad_bits p) true) (selected sel b)
   | _ => true
   end, bus_write true b).
(** The line was held high for the time of a conversion. *)
Definition bus_convert (b : bus) : bus :=
  match phase b with
  | Pconverting sel => PBus (map (fun p => if bool_decide (pb_addr p ∈ sel) then converted p else p) (probes b)) Pidle
  | _ => b
  end.

Definition probe_ok (p : probe) : Prop :=
  0 <= pb_addr p < 2 ^ 64 /\ pb_addr p <> ONEWIRE_NONE /\ -2 ^ 15 <= pb_temp p < 2 ^ 15 /\ length (pb_pad p) = 8%nat /\ Forall is_byte (pb_pad p).

(** ** The slots on the bus *)

(** [pr_ok]: the line is idle; [pr_power]: it is held high. *)
Class ProbeBus (E : Type) `{!Pin E} (vTaskDelay : Z -> ST E unit) (pin : Z) := {
  pr_ok : E -> Prop;
  pr_power : E -> Prop;
  pr_bus : E -> bus;
  pr_reset e : pr_ok e \/ pr_power e ->
    wp (onewire_reset pin) (fun r e' => r = negb (bool_decide (probes (pr_bus e) = [])) /\ pr_ok e' /\ pr_bus e' = bus_reset (pr_bus e)) e;
  pr_write e v : pr_ok e ->
    wp (_onewire_write_bit pin v) (fun ok e' => ok = true /\ pr_ok e' /\ pr_bus e' = bus_write v (pr_bus e)) e;
  pr_read e : pr_ok e ->
    wp (_onewire_read_bit pin) (fun r e' => r = Z.b2z (bus_read (pr_bus e)).1 /\ pr_ok e' /\ pr_bus e' = (bus_read (pr_bus e)).2) e;
  pr_on e : pr_ok e -> wp (onewire_power pin) (fun ok e' => ok = true /\ pr_power e' /\ pr_bus e' = pr_bus e) e;
  pr_off e : pr_power e -> wp (onewire_depower pin) (fun _ e' => pr_ok e' /\ pr_bus e' = pr_bus e) e;
  pr_delay e t : pr_power e -> 75 <= t -> wp (vTaskDelay t) (fun _ e' => pr_power e' /\ pr_bus e' = bus_convert (pr_bus e)) e;
  pr_enter e : pr_ok e -> wp taskENTER_CRITICAL (fun _ e' => pr_ok e' /\ pr_bus e' = pr_bus e) e;
  pr_exit e : pr_power e -> wp taskEXIT_CRITICAL (fun _ e' => pr_power e' /\ pr_bus e' = pr_bus e) e;
}.

Section slots.
Context {E : Type} `{!Pin E} (vTaskDelay : Z -> ST E unit) (pin : Z) `{!ProbeBus E vTaskDelay pin}.
Notation ok := (pr_ok (vTaskDelay:=vTaskDelay) (pin:=pin)).
Notation wire := (pr_bus (vTaskDelay:=vTaskDelay) (pin:=pin)).

(** On an idle line with the bus [b], the call gives [x] and leaves [b']. *)
Definition serves {A} (b : bus) (m : ST E A) (x : A) (b' : bus) : Prop :=
  forall e, ok e -> wire e = b -> wp m (fun x' e' => x' = x /\ ok e' /\ wire e' = b') e.

Lemma serves_ret {A} b (x : A) : serves b (mret x) x b.
Proof. by intros e Ho Hb. Qed.
Lemma serves_bind {A C} b b1 b2 (m : ST E A) (f : A -> ST E C) x y : serves b m x b1 -> serves b1 (f x) y b2 -> serves b (m ≫= f) y b2.
Proof.
  intros Hm Hf e Ho Hb. apply wp_bind. eapply wp_mono; [by apply Hm|]. intros x' e1 (-> & Ho1 & Hb1). by apply Hf.
Qed.
Lemma serves_bit b v : serves b (_onewire_write_bit pin v) true (bus_write v b).
Proof. intros e Ho <-. by apply pr_write. Qed.
Lemma serves_read_bit b : serves b (_onewire_read_bit pin) (Z.b2z (bus_read b).1) (bus_read b).2.
Proof. intros e Ho <-. by apply pr_read. Qed.

(** ** Bytes *)

Definition send_bits (l : list bool) (b : bus) : bus := fold_left (fun b v => bus_write v b) l b.
Lemma mask_next (j : nat) : (j < 8)%nat -> u8 (Z.shiftl (u8 (2 ^ Z.of_nat j)) 1) = u8 (2 ^ Z.of_nat (S j)) /\ (u8 (2 ^ Z.of_nat j) =? 0) = false /\ u8 (2 ^ Z.of_nat j) = 2 ^ Z.of_nat j.
Proof. intros Hj. do 8 (destruct j as [|j]; [done|]). lia. Qed.
Lemma serves_write_loop x k : forall j b, (j + k = 8)%nat ->
  serves b (onewire_write_loop pin (S k) (u8 (2 ^ Z.of_nat j)) x) true (send_bits (map (fun i => Z.testbit x (Z.of_nat i)) (seq j k)) b).
Proof.
  induction k as [|k IH]; intros j b Hj.
  { replace j with 8%nat by lia. apply serves_ret. }
  destruct (mask_next j ltac:(lia)) as (En & Ez & Em). remember (S k) as n eqn:En'. cbn [onewire_write_loop]. rewrite Ez, En. subst n.
  cbn [seq map send_bits fold_left].
  assert (Eb : negb (Z.land (u8 (2 ^ Z.of_nat j)) x =? 0) = Z.testbit x (Z.of_nat j)).
  { rewrite Em, Z.land_comm, <- land_pow2 by lia. assert (Hn : 0 <= Z.land x (2 ^ Z.of_nat j)) by (apply Z.land_nonneg; lia).
    destruct (Z.eqb_spec (Z.land x (2 ^ Z.of_nat j)) 0); destruct (Z.ltb_spec 0 (Z.land x (2 ^ Z.of_nat j))); try done; lia. }
  rewrite Eb. eapply serves_bind; [apply serves_bit|]. cbn [negb]. apply IH. lia.
Qed.
Lemma serves_write b x : serves b (onewire_write pin x) true (send_bits (byte_bits x) b).
Proof. apply (serves_write_loop x 8 0). lia. Qed.

Fixpoint reads (n : nat) (b : bus) : list bool * bus :=
  match n with
  | O => ([], b)
  | S n => let '(l, b') := reads n (bus_read b).2 in ((bus_read b).1 :: l, b')
  end.
Lemma serves_read_loop k : forall j r b, (j + k = 8)%nat -> 0 <= r < 2 ^ Z.of_nat j ->
  serves b (onewire_read_loop pin (S k) (u8 (2 ^ Z.of_nat j)) r) (r + 2 ^ Z.of_nat j * bits_val (reads k b).1) (reads k b).2.
Proof.
  induction k as [|k IH]; intros j r b Hj Hr.
  { replace j with 8%nat by lia. cbn [reads fst snd bits_val]. rewrite Z.mul_0_r, Z.add_0_r. apply serves_ret. }
  destruct (mask_next j ltac:(lia)) as (En & Ez & Em). remember (S k) as n eqn:En'. cbn [onewire_read_loop]. rewrite Ez, En. subst n.
  eapply serves_bind; [apply serves_read_bit|]. cbn [reads].
  destruct (bus_read b) as [v b1] eqn:Er. cbn [fst snd] in *. destruct (reads k b1) as [l b2] eqn:El. cbn [fst snd bits_val].
  assert (Hlt : (Z.b2z v <? 0) = false) by by destruct v. rewrite Hlt.
  set (r' := if Z.b2z v =? 0 then r else Z.lor r (u8 (2 ^ Z.of_nat j))).
  assert (Er' : r' = r + 2 ^ Z.of_nat j * Z.b2z v).
  { unfold r'. rewrite Em. destruct v; cbn [Z.b2z]; [|change (0 =? 0) with true; lia]. change (1 =? 0) with false. cbv iota.
    replace (2 ^ Z.of_nat j) with (Z.shiftl 1 (Z.of_nat j)) by (rewrite Z.shiftl_mul_pow2; lia). rewrite lor_low_high by lia. lia. }
  assert (E2 : 2 ^ Z.of_nat (S j) = 2 * 2 ^ Z.of_nat j) by (rewrite Nat2Z.inj_succ, Z.pow_succ_r; lia).
  assert (Hr' : 0 <= r' < 2 ^ Z.of_nat (S j)) by (rewrite Er', E2; destruct v; cbn [Z.b2z]; lia).
  pose proof (IH (S j) r' b1 ltac:(lia) Hr') as Hi. rewrite El in Hi. cbn [fst snd] in Hi.
  replace (r + 2 ^ Z.of_nat j * (Z.b2z v + 2 * bits_val l)) with (r' + 2 ^ Z.of_nat (S j) * bits_val l) by (rewrite Er', E2; lia). exact Hi.
Qed.
Lemma serves_read b : serves b (onewire_read pin) (bits_val (reads 8 b).1) (reads 8 b).2.
Proof.
  pose proof (serves_read_loop 8 0 0 b eq_refl ltac:(simpl; lia)) as H. unfold onewire_read.
  change (2 ^ Z.of_nat 0) with 1 in H. rewrite Z.mul_1_l, Z.add_0_l in H. exact H.
Qed.

(** ** Commands *)

Lemma rom_command ps c : is_byte c -> send_bits (byte_bits c) (PBus ps (Prom [])) =
  PBus ps (if c =? ONEWIRE_SKIP_ROM then Pfunction (map pb_addr ps) [] else if c =? ONEWIRE_SELECT_ROM then Pmatch [] else Pidle).
Proof. intros Hc. transitivity (PBus ps (let c := bits_val (byte_bits c) in if c =? ONEWIRE_SKIP_ROM then Pfunction (map pb_addr ps) [] else if c =? ONEWIRE_SELECT_ROM then Pmatch [] else Pidle)); [done|]. by rewrite byte_bits_val. Qed.
Lemma function_command ps sel c : is_byte c -> send_bits (byte_bits c) (PBus ps (Pfunction sel [])) =
  PBus ps (if c =? DS18B20_CONVERT_T then Pconverting sel else if c =? DS18B20_READ_SCRATCHPAD then Psending sel 0 else Pidle).
Proof. intros Hc. transitivity (PBus ps (let c := bits_val (byte_bits c) in if c =? DS18B20_CONVERT_T then Pconverting sel else if c =? DS18B20_READ_SCRATCHPAD then Psending sel 0 else Pidle)); [done|]. by rewrite byte_bits_val. Qed.
Lemma match_bits ps l : forall pre, l <> [] -> (length pre + length l = 64)%nat ->
  send_bits l (PBus ps (Pmatch pre)) = PBus ps (Pfunction [bits_val (pre ++ l)] []).
Proof.
  induction l as [|v l IH]; intros pre Hne Hl; [done|]. cbn [send_bits fold_left]. fold (send_bits l (bus_write v (PBus ps (Pmatch pre)))).
  unfold bus_write, bus_written. cbn [phase probes]. unfold gather. rewrite length_app. cbn [length] in *.
  destruct l as [|v' l].
  - cbn [length] in Hl. by replace ((length pre + 1 =? 64)%nat) with true by (symmetry; apply Nat.eqb_eq; lia).
  - cbn [length] in Hl. replace ((length pre + 1 =? 64)%nat) with false by (symmetry; apply Nat.eqb_neq; lia).
    rewrite IH; [by rewrite <- app_assoc|done|rewrite length_app; cbn [length]; lia].
Qed.
Lemma serves_select_loop n : forall a b, serves b (onewire_select_loop pin n a) true
  (send_bits (map (fun i => Z.testbit a (Z.of_nat i)) (seq 0 (8 * n))) b).
Proof.
  induction n as [|n IH]; intros a b; [apply serves_ret|]. cbn [onewire_select_loop].
  eapply serves_bind; [apply serves_write|]. cbn [negb].
  replace (8 * S n)%nat with (8 + 8 * n)%nat by lia. rewrite seq_app, map_app. unfold send_bits. rewrite fold_left_app.
  assert (E1 : map (fun i => Z.testbit a (Z.of_nat i)) (seq 0 8) = byte_bits (Z.land a 255)).
  { apply map_ext_in. intros i Hi%in_seq. rewrite land_255. change 256 with (2 ^ 8). by rewrite Z.mod_pow2_bits_low by lia. }
  assert (E2 : map (fun i => Z.testbit a (Z.of_nat i)) (seq (0 + 8) (8 * n)) = map (fun i => Z.testbit (Z.shiftr a 8) (Z.of_nat i)) (seq 0 (8 * n))).
  { change (0 + 8)%nat with (8 + 0)%nat. rewrite <- (fmap_add_seq 8 0 (8 * n)). change (?f <$> ?l) with (map f l). rewrite map_map. apply map_ext. intros i. rewrite Z.shiftr_spec by lia. f_equal. lia. }
  rewrite E1, E2. apply IH.
Qed.

(** [all] stands for the addresses a command is for. *)
Definition addressed (a : Z) (ps : list probe) : list Z := if a =? DS18B20_ANY then map pb_addr ps else [a].
Lemma serves_address a ps : 0 <= a < 2 ^ 64 -> serves (PBus ps (Prom [])) (address_devices pin a) true (PBus ps (Pfunction (addressed a ps) [])).
Proof.
  intros Ha. unfold address_devices, addressed. destruct (a =? DS18B20_ANY).
  - pose proof (serves_write (PBus ps (Prom [])) ONEWIRE_SKIP_ROM) as H. by rewrite rom_command in H by by unfold is_byte, ONEWIRE_SKIP_ROM.
  - unfold onewire_select. eapply serves_bind; [apply serves_write|]. rewrite rom_command by by unfold is_byte, ONEWIRE_SELECT_ROM.
    change (ONEWIRE_SELECT_ROM =? ONEWIRE_SKIP_ROM) with false. rewrite Z.eqb_refl. cbn [negb].
    pose proof (serves_select_loop 8 a (PBus ps (Pmatch []))) as H. change (8 * 8)%nat with 64%nat in H. fold (addr_bits a) in H.
    rewrite match_bits in H by (by rewrite ?length_addr_bits || done). cbn [app] in H. by rewrite addr_bits_val in H.
Qed.
Lemma serves_function ps sel c : is_byte c -> serves (PBus ps (Pfunction sel [])) (onewire_write pin c) true
  (PBus ps (if c =? DS18B20_CONVERT_T then Pconverting sel else if c =? DS18B20_READ_SCRATCHPAD then Psending sel 0 else Pidle)).
Proof. intros Hc. pose proof (serves_write (PBus ps (Pfunction sel [])) c) as H. by rewrite function_command in H. Qed.

(** ** The scratchpad *)

Lemma reads_sending ps sel p n : selected sel (PBus ps Pidle) = [p] -> forall i, (i + n <= length (pad_bits p))%nat ->
  reads n (PBus ps (Psending sel i)) = (take n (drop i (pad_bits p)), PBus ps (Psending sel (i + n))).
Proof.
  intros Hp. induction n as [|n IH]; intros i Hi; [by rewrite Nat.add_0_r|]. cbn [reads]. unfold bus_read. cbn [fst snd phase].
  change (bus_write true (PBus ps (Psending sel i))) with (PBus ps (Psending sel (S i))). rewrite IH by lia.
  unfold selected in *. cbn [probes] in *. rewrite Hp. cbn [forallb]. rewrite andb_true_r.
  destruct (lookup_lt_is_Some_2 (pad_bits p) i) as [v Ev]; [lia|]. rewrite (drop_S _ _ _ Ev). cbn [take].
  by rewrite (nth_lookup_Some _ _ _ _ Ev), Nat.add_succ_comm.
Qed.
Lemma bits_of_byte l k x : l !! k = Some x -> take 8 (drop (8 * k) (concat (map byte_bits l))) = byte_bits x.
Proof.
  revert k; induction l as [|y l IH]; intros k Hk; [done|]. cbn [map concat]. destruct k as [|k].
  - injection Hk as ->. change (8 * 0)%nat with 0%nat. rewrite drop_0. by rewrite take_app_length' by done.
  - replace (8 * S k)%nat with (length (byte_bits y) + 8 * k)%nat by (rewrite length_byte_bits; lia).
    rewrite drop_app_add. by apply IH.
Qed.
Lemma length_bits l : length (concat (map byte_bits l)) = (8 * length l)%nat.
Proof. induction l as [|x l IH]; [done|]. cbn [map concat length]. rewrite length_app, IH, length_byte_bits. lia. Qed.

Definition pad_bytes (p : probe) : list Z := pb_pad p ++ [onewire_crc8 (pb_pad p)].
Lemma serves_send_byte ps sel p k x : selected sel (PBus ps Pidle) = [p] -> pad_bytes p !! k = Some x -> is_byte x ->
  serves (PBus ps (Psending sel (8 * k))) (onewire_read pin) x (PBus ps (Psending sel (8 * S k))).
Proof.
  intros Hp Hx Hb. pose proof (serves_read (PBus ps (Psending sel (8 * k)))) as H.
  assert (Hl : (8 * k + 8 <= length (pad_bits p))%nat).
  { apply lookup_lt_Some in Hx. unfold pad_bits. fold (pad_bytes p). rewrite length_bits. lia. }
  rewrite (reads_sending ps sel p 8 Hp (8 * k) Hl) in H. cbn [fst snd] in H. unfold pad_bits in H. fold (pad_bytes p) in H.
  rewrite (bits_of_byte _ _ _ Hx), byte_bits_val in H by done. by replace (8 * S k)%nat with (8 * k + 8)%nat by lia.
Qed.
Lemma serves_get_bytes ps sel p n : selected sel (PBus ps Pidle) = [p] -> Forall is_byte (pad_bytes p) ->
  forall k, (k + n <= length (pad_bytes p))%nat ->
  serves (PBus ps (Psending sel (8 * k))) (get_bytes pin n) (take n (drop k (pad_bytes p))) (PBus ps (Psending sel (8 * (k + n)))).
Proof.
  intros Hp Hb. induction n as [|n IH]; intros k Hk; [rewrite Nat.add_0_r; apply serves_ret|]. cbn [get_bytes].
  destruct (lookup_lt_is_Some_2 (pad_bytes p) k) as [x Ex]; [lia|]. assert (Hx : is_byte x) by (by eapply Forall_lookup_1).
  eapply serves_bind; [by apply (serves_send_byte ps sel p k x)|].
  eapply serves_bind; [apply (IH (S k)); lia|]. rewrite (drop_S _ _ _ Ex). cbn [take].
  replace (u8 x) with x by (unfold u8; by rewrite Z.mod_small). replace (S k + n)%nat with (k + S n)%nat by lia. apply serves_ret.
Qed.

(** ** The driver *)

Lemma pad_bytes_ok p : probe_ok p -> Forall is_byte (pad_bytes p) /\ length (pad_bytes p) = 9%nat.
Proof.
  intros (_ & _ & _ & Hl & Hb). unfold pad_bytes. rewrite length_app, Hl. split; [|done]. apply Forall_app. split; [done|]. constructor; [|done].
  by apply (crc8_from_range 0).
Qed.
Lemma selected_one a ps p : p ∈ ps -> pb_addr p = a -> NoDup (map pb_addr ps) -> selected [a] (PBus ps Pidle) = [p].
Proof.
  intros Hp <-. unfold selected. cbn [probes]. induction ps as [|q ps IH]; [by apply not_elem_of_nil in Hp|]. cbn [map].
  intros [Hq Hnd]%NoDup_cons. apply elem_of_cons in Hp as [<- | Hp].
  - rewrite filter_cons_True by by apply list_elem_of_singleton. f_equal. clear IH Hnd. induction ps as [|r ps IH]; [done|].
    cbn [map] in Hq. apply not_elem_of_cons in Hq as [Hne Hq]. rewrite filter_cons_False; [by apply IH|]. intros Hr%list_elem_of_singleton. congruence.
  - rewrite filter_cons_False; [by apply IH|]. intros Hr%list_elem_of_singleton. apply Hq. rewrite Hr. apply list_elem_of_In, in_map. by apply list_elem_of_In.
Qed.

Lemma serves_reset b : probes b <> [] -> serves b (onewire_reset pin) true (bus_reset b).
Proof.
  intros Hne e Ho <-. eapply wp_mono; [by apply pr_reset; left|]. intros r e' (-> & Hr). by rewrite bool_decide_eq_false_2.
Qed.
Lemma serves_scratchpad ps ph a p : 0 <= a < 2 ^ 64 -> ps <> [] -> selected (addressed a ps) (PBus ps Pidle) = [p] -> probe_ok p ->
  serves (PBus ps ph) (ds18b20_read_scratchpad pin a) (true, Some (pb_pad p)) (PBus ps (Psending (addressed a ps) 72)).
Proof.
  intros Ha Hne Hp Hok. destruct (pad_bytes_ok p Hok) as [Hb Hl]. destruct Hok as (_ & _ & _ & Hlp & _). unfold ds18b20_read_scratchpad.
  eapply serves_bind; [by apply serves_reset|]. cbn [negb]. eapply serves_bind; [by apply serves_address|].
  eapply serves_bind; [by apply serves_function|]. change (DS18B20_READ_SCRATCHPAD =? DS18B20_CONVERT_T) with false. rewrite Z.eqb_refl.
  eapply serves_bind; [apply (serves_get_bytes ps _ p 8 Hp Hb 0); lia|].
  assert (Ex : pad_bytes p !! 8%nat = Some (onewire_crc8 (pb_pad p))) by (unfold pad_bytes; rewrite lookup_app_r, Hlp by lia; done).
  eapply serves_bind; [apply (serves_send_byte ps _ p 8 _ Hp Ex); by eapply Forall_lookup_1|].
  assert (Et : take 8 (drop 0 (pad_bytes p)) = pb_pad p) by (unfold pad_bytes; by rewrite drop_0, take_app_length').
  rewrite Et. assert (Hc : is_byte (onewire_crc8 (pb_pad p))) by (by eapply Forall_lookup_1).
  replace (u8 (onewire_crc8 (pb_pad p))) with (onewire_crc8 (pb_pad p)) by (unfold u8; by rewrite Z.mod_small).
  rewrite Z.eqb_refl. cbn [negb]. apply serves_ret.
Qed.

Context {F : Type} (celsius : Z -> F) (NAN : F).
Lemma serves_temperature ps ph a p : 0 <= a < 2 ^ 64 -> ps <> [] -> selected (addressed a ps) (PBus ps Pidle) = [p] -> probe_ok p ->
  serves (PBus ps ph) (ds18b20_read_temperature celsius NAN pin a) (celsius (nth 0 (pb_pad p) 0 + 256 * nth 1 (pb_pad p) 0))
    (PBus ps (Psending (addressed a ps) 72)).
Proof.
  intros Ha Hne Hp Hok. unfold ds18b20_read_temperature. eapply serves_bind; [by apply (serves_scratchpad ps ph a p)|]. cbn [negb].
  destruct Hok as (_ & _ & _ & Hlp & Hb). destruct (pb_pad p) as [|b0 [|b1 pad]]; [done|done|]. cbn [nth from_option id].
  assert (is_byte b0) by by inversion Hb. rewrite Z.lor_comm, lor_low_high by (unfold is_byte in *; lia).
  rewrite Z.shiftl_mul_pow2 by lia. change (2 ^ 8) with 256. rewrite (Z.mul_comm b1). apply serves_ret.
Qed.

(** The thermometers that take part know their temperature afterwards. *)
Definition measured (sel : list Z) (ps : list probe) : list probe := map (fun p => if bool_decide (pb_addr p ∈ sel) then converted p else p) ps.
Lemma serves_measure ps ph a : 0 <= a < 2 ^ 64 -> ps <> [] ->
  serves (PBus ps ph) (ds18b20_measure vTaskDelay pin a true) true (PBus (measured (addressed a ps) ps) Pidle).
Proof.
  intros Ha Hne. unfold ds18b20_measure. eapply serves_bind; [by apply serves_reset|]. cbn [negb]. eapply serves_bind; [by apply serves_address|].
  eapply serves_bind; [intros e Ho Hw; eapply wp_mono; [by apply pr_enter|]; intros [] e' [Hr Hw']; split; [done|]; split; [done|exact (eq_trans Hw' Hw)]|].
  eapply serves_bind; [by apply serves_function|]. rewrite Z.eqb_refl.
  intros e Ho Hb. wp_steps. eapply wp_mono; [by apply pr_on|]. intros ? e1 (_ & Hp1 & Hb1). wp_steps.
  eapply wp_mono; [by apply pr_exit|]. intros [] e2 [Hp2 Hb2]. wp_steps. unfold os_sleep_ms.
  eapply wp_mono; [apply pr_delay; [done|by vm_compute]|]. intros [] e3 [Hp3 Hb3]. wp_steps.
  eapply wp_mono; [by apply pr_off|]. intros [] e4 [Ho4 Hb4]. wp_steps. split; [done|]. split; [done|].
  by rewrite Hb4, Hb3, Hb2, Hb1, Hb.
Qed.

(** What is read of a thermometer in the list. *)
Definition value_read (ps : list probe) (a : Z) (v : F) : Prop :=
  exists p, p ∈ ps /\ pb_addr p = a /\ v = celsius (nth 0 (pb_pad p) 0 + 256 * nth 1 (pb_pad p) 0).
Lemma serves_multi isnan ps addr_list : (forall t, isnan (celsius t) = false) -> Forall probe_ok ps -> NoDup (map pb_addr ps) -> ps <> [] ->
  Forall (fun a => a ∈ map pb_addr ps) addr_list -> forall ph, exists vs ph',
    serves (PBus ps ph) (ds18b20_read_temp_multi celsius NAN isnan pin addr_list) (true, vs) (PBus ps ph') /\ Forall2 (value_read ps) addr_list vs.
Proof.
  intros Hnan Hok Hnd Hne Hin. induction Hin as [|a l Ha _ IH]; intros ph; [exists [], ph; split; [apply serves_ret|constructor]|].
  apply list_elem_of_In, in_map_iff in Ha as (p & Ep & Hp%list_elem_of_In). assert (Hokp : probe_ok p) by (by eapply Forall_forall in Hok).
  destruct Hokp as (Hr & Hany & _). rewrite Ep in Hr, Hany.
  assert (Ea : addressed a ps = [a]) by (unfold addressed; by rewrite (proj2 (Z.eqb_neq a DS18B20_ANY))).
  destruct (IH (Psending (addressed a ps) 72)) as (vs & ph' & Hs & Hvs). eexists (_ :: vs), ph'. split; [|constructor; [|exact Hvs]].
  - cbn [ds18b20_read_temp_multi]. eapply serves_bind.
    { apply (serves_temperature ps ph a p); [done|done| |by eapply Forall_forall in Hok]. rewrite Ea. by apply selected_one. }
    eapply serves_bind; [exact Hs|]. rewrite Hnan. apply serves_ret.
  - by exists p.
Qed.
End slots.

Lemma converted_ok p : probe_ok p -> probe_ok (converted p).
Proof.
  intros (Ha & Hn & Ht & Hl & Hb). unfold converted. split_and!; cbn [pb_addr pb_temp pb_pad]; try done; try lia.
  - rewrite length_app, length_drop, Hl. done.
  - unfold raw_of. pose proof (Z.mod_pos_bound (pb_temp p) (2 ^ 16) ltac:(lia)). apply Forall_app. split; [|by apply Forall_drop].
    apply Forall_cons. split; [by apply Z.mod_pos_bound|]. apply Forall_cons. split; [|constructor].
    split; [apply Z.div_pos; lia|apply Z.div_lt_upper_bound; lia].
Qed.
Lemma measured_all ps : measured (map pb_addr ps) ps = map converted ps.
Proof. apply map_ext_in. intros p Hp. rewrite bool_decide_eq_true_2; [done|]. apply list_elem_of_In. by apply in_map. Qed.
Lemma converted_value p : probe_ok p -> nth 0 (pb_pad (converted p)) 0 + 256 * nth 1 (pb_pad (converted p)) 0 =
  if pb_temp p <? 0 then pb_temp p + 65536 else pb_temp p.
Proof.
  intros (_ & _ & Ht & _). unfold converted. cbn [pb_pad app nth]. rewrite Z.add_comm, <- Z.div_mod by lia. unfold raw_of.
  destruct (Z.ltb_spec (pb_temp p) 0); [|by rewrite Z.mod_small by lia].
  symmetry. rewrite <- (Z.mod_small (pb_temp p + 65536) (2 ^ 16)) by lia. change 65536 with (1 * 2 ^ 16). by rewrite Z.mod_add.
Qed.

(** C37: One call measures all the thermometers of a list. The bus has at least one
    thermometer, their addresses are distinct, every address of the list is one of
    theirs, and the line holds while they convert. Then ds18b20_measure_and_read_multi
    returns true and stores, for every address of the list, the temperature that this
    thermometer has now, in sixteenths of a degree through the conversion of the source
    (which gives a NAN for none of them); a temperature below zero is not taken as
    signed and comes out 65536 sixteenths too high. For an address that is not on the
    bus nobody drives the line, the all ones read fail the checksum, and the call would
    return false: such lists are not covered. *)
Theorem ds18b20_measures_all {E F} `{!Pin E} vTaskDelay pin `{!ProbeBus E vTaskDelay pin} (celsius : Z -> F) NAN isnan addr_list (e : E) :
  let ps := probes (pr_bus (vTaskDelay:=vTaskDelay) (pin:=pin) e) in
  pr_ok (vTaskDelay:=vTaskDelay) (pin:=pin) e -> ps <> [] -> Forall probe_ok ps -> NoDup (map pb_addr ps) ->
  (forall t, isnan (celsius t) = false) -> Forall (fun a => a ∈ map pb_addr ps) addr_list ->
  wp (ds18b20_measure_and_read_multi vTaskDelay celsius NAN isnan pin addr_list) (fun r e' =>
    r.1 = true /\
    Forall2 (fun a v => exists p, p ∈ ps /\ pb_addr p = a /\ v = celsius (if pb_temp p <? 0 then pb_temp p + 65536 else pb_temp p)) addr_list r.2 /\
    pr_ok (vTaskDelay:=vTaskDelay) (pin:=pin) e' /\ probes (pr_bus (vTaskDelay:=vTaskDelay) (pin:=pin) e') = map converted ps) e.
Proof.
  intros ps Ho Hne Hok Hnd Hnan Hin. unfold ds18b20_measure_and_read_multi.
  assert (Eb : pr_bus (vTaskDelay:=vTaskDelay) (pin:=pin) e = PBus ps (phase (pr_bus (vTaskDelay:=vTaskDelay) (pin:=pin) e))) by (unfold ps; by destruct (pr_bus e)).
  assert (Ea : map pb_addr (map converted ps) = map pb_addr ps) by (rewrite map_map; by apply map_ext).
  destruct (serves_multi vTaskDelay pin celsius NAN isnan (map converted ps) addr_list Hnan) with (ph := Pidle) as (vs & ph' & Hs & Hvs).
  { apply Forall_forall. intros q Hq. apply list_elem_of_In, in_map_iff in Hq as (p & <- & Hp%list_elem_of_In).
    apply converted_ok. by eapply Forall_forall in Hok. }
  { by rewrite Ea. }
  { by destruct ps. }
  { by rewrite Ea. }
  wp_steps. eapply wp_mono; [apply (serves_measure vTaskDelay pin ps _ DS18B20_ANY ltac:(done) Hne e Ho Eb)|]. intros ? e1 (-> & Ho1 & Hb1).
  change (addressed DS18B20_ANY ps) with (map pb_addr ps) in Hb1. rewrite measured_all in Hb1. cbn [negb].
  eapply wp_mono; [by apply Hs|]. intros ? e2 (-> & Ho2 & Hb2). cbn [fst snd]. split; [done|]. rewrite Hb2. split; [|done].
  eapply Forall2_impl; [exact Hvs|]. intros a v (q & Hq & Hqa & ->). apply list_elem_of_In, in_map_iff in Hq as (p & <- & Hp%list_elem_of_In).
  exists p. split; [done|]. split; [done|]. rewrite converted_value; [done|]. by eapply Forall_forall in Hok.
Qed.

(** ** Scanning the bus *)

(** The array after the addresses [l] are found, the first of them as number [k]. *)
Fixpoint scan_stored (k cnt : Z) (l arr : list Z) : list Z :=
  match l with
  | [] => arr
  | a :: l => scan_stored (k + 1) cnt l (if k <? cnt then <[Z.to_nat k := a]> arr else arr)
  end.
Lemma scan_of_search {E} `{!Pin E} pin n : forall s k cnt arr (e : E) l s' e', length l = n -> ONEWIRE_NONE ∉ l ->
  search_all pin (S n) s e = Some ((l ++ [ONEWIRE_NONE], s'), e') ->
  scan_loop pin (S n) s k cnt arr e = Some ((k + Z.of_nat (length l), scan_stored k cnt l arr), e').
Proof.
  induction n as [|n IH]; intros s k cnt arr e l s' e' Hl Hn Hs.
  - destruct l; [|done]. cbn [search_all scan_loop] in *. unfold mbind, st_bind in *.
    destruct (onewire_search_next pin s e) as [[[a s1] e1]|]; [|done]. injection Hs as -> -> ->. rewrite Z.eqb_refl, Z.add_0_r. done.
  - destruct l as [|a l]; [done|]. cbn [length] in Hl. apply not_elem_of_cons in Hn as [Ha Hn]. remember (S n) as n1 eqn:En1.
    cbn [search_all scan_loop] in *. unfold mbind, st_bind in Hs. unfold mbind at 1, st_bind at 1.
    destruct (onewire_search_next pin s e) as [[[a1 s1] e1]|]; [|done].
    destruct (search_all pin n1 s1 e1) as [[[l1 s2] e2]|] eqn:E1; [|done]. injection Hs as -> -> -> ->.
    rewrite (proj2 (Z.eqb_neq a ONEWIRE_NONE)) by done. subst n1. rewrite (IH _ _ _ _ _ l s' e') by (done || lia).
    cbn [scan_stored length]. do 3 f_equal. lia.
Qed.
Lemma scan_stored_lookup cnt l : forall k arr i, 0 <= k -> cnt <= Z.of_nat (length arr) -> length (scan_stored k cnt l arr) = length arr /\
  scan_stored k cnt l arr !! i =
    if decide (k <= Z.of_nat i < Z.min cnt (k + Z.of_nat (length l))) then l !! (i - Z.to_nat k)%nat else arr !! i.
Proof.
  induction l as [|a l IH]; intros k arr i Hk Hc; cbn [scan_stored length]; [rewrite decide_False by lia; done|].
  destruct (Z.ltb_spec k cnt).
  - destruct (IH (k + 1) (<[Z.to_nat k := a]> arr) i ltac:(lia) ltac:(rewrite length_insert; lia)) as [-> ->].
    split; [by rewrite length_insert|]. destruct (decide (i = Z.to_nat k)) as [->|Hne].
    + rewrite decide_False, decide_True by lia. rewrite Nat.sub_diag. apply list_lookup_insert_eq. lia.
    + destruct (decide (k + 1 <= Z.of_nat i < Z.min cnt (k + 1 + Z.of_nat (length l)))).
      * rewrite decide_True by lia. by replace (i - Z.to_nat k)%nat with (S (i - Z.to_nat (k + 1))) by lia.
      * rewrite decide_False by lia. by rewrite list_lookup_insert_ne by done.
  - destruct (IH (k + 1) arr i ltac:(lia) Hc) as [-> ->]. split; [done|]. by rewrite !decide_False by lia.
Qed.

(** Scanning counts the devices of the bus and stores the addresses that fit the array,
    each device once; the rest of the array is as before. *)
Theorem ds18b20_scan_finds {E} `{!Pin E} pin `{!Bus E pin} addrs arr cnt (e : E) : NoDup addrs ->
  Forall (fun a => 0 <= a < 2 ^ 64 /\ Z.land a 255 <> 0) addrs -> ONEWIRE_NONE ∉ addrs -> cnt <= Z.of_nat (length arr) ->
  bus_ok (pin:=pin) e -> bus_devices (pin:=pin) e = map addr_bits addrs ->
  wp (ds18b20_scan_devices pin (S (length addrs)) arr cnt) (fun r (_ : E) => r.1 = Z.of_nat (length addrs) /\ length r.2 = length arr /\
    exists found, found ≡ₚ addrs /\ forall i, r.2 !! i = if decide (Z.of_nat i < Z.min cnt (Z.of_nat (length addrs))) then found !! i else arr !! i) e.
Proof.
  intros Hnd Ha Hno Hc Hok Hdev. pose proof (search_all_wp pin addrs Ha e (conj Hok Hdev)) as H. set (codes := if decide (addrs = []) then [] else _) in H.
  assert (Hp : map bits_val codes ≡ₚ addrs).
  { unfold codes. destruct (decide (addrs = [])) as [->|Hne]; [done|by apply enum_addrs]. }
  pose proof (Permutation_length Hp) as Hl. rewrite length_map in Hl. destruct (wp_run _ _ _ H) as ([l s'] & e' & El & Er & _). cbn [fst] in Er. subst l.
  rewrite Hl in El. eapply wp_of_run.
  { apply (scan_of_search pin _ _ 0 cnt arr e (map bits_val codes) s' e'); [by rewrite length_map|by rewrite Hp|exact El]. }
  cbn [fst snd]. rewrite length_map, Hl. split; [lia|]. split; [exact (proj1 (scan_stored_lookup cnt _ 0 arr 0 ltac:(lia) Hc))|]. exists (map bits_val codes). split; [exact Hp|]. intros i.
  destruct (scan_stored_lookup cnt (map bits_val codes) 0 arr i ltac:(lia) Hc) as [_ ->]. rewrite length_map, Hl.
  destruct (decide (Z.of_nat i < Z.min cnt (Z.of_nat (length addrs)))); [rewrite decide_True by lia|by rewrite decide_False by lia].
  by replace (i - Z.to_nat 0)%nat with i by lia.
Qed.

(** ** A line with thermometers, to the microsecond *)

(** [dm_held]: how long the master has held the line low; [dm_low]: how long a
    thermometer still does; [dm_strong]: the master drives the line high. *)
Record ds_sim := DSim { dm_bus : bus; dm_held : option Z; dm_low : Z; dm_strong : bool }.
Definition dm_release (s : ds_sim) (t : Z) : ds_sim :=
  if 480 <=? t then DSim (bus_reset (dm_bus s)) None (match probes (dm_bus s) with [] => 0 | _ => 180 end) (dm_strong s)
  else if 60 <=? t then DSim (bus_write false (dm_bus s)) None 0 (dm_strong s)
  else DSim (bus_read (dm_bus s)).2 None (if (bus_read (dm_bus s)).1 then 0 else 30) (dm_strong s).
#[export] Instance ds_pin : Pin ds_sim := {
  gpio_enable := fun _ d s => Some ((), DSim (dm_bus s) (dm_held s) (dm_low s) (match d with GPIO_OUTPUT => true | _ => false end));
  gpio_set_pullup := fun _ _ _ s => Some ((), s);
  gpio_write := fun _ v s => Some ((),
    match v, dm_held s with
    | true, Some t => dm_release s t
    | false, None => DSim (dm_bus s) (Some 0) (dm_low s) (dm_strong s)
    | _, _ => s
    end);
  gpio_read := fun _ s => Some (match dm_held s with None => dm_low s =? 0 | Some _ => false end, s);
  sdk_os_delay_us := fun d s => Some ((), DSim (dm_bus s) (option_map (Z.add d) (dm_held s)) (Z.max 0 (dm_low s - d)) (dm_strong s));
  taskENTER_CRITICAL := fun s => Some ((), s);
  taskEXIT_CRITICAL := fun s => Some ((), s);
}.
(** The ticks are 10 ms. *)
Definition dm_delay (t : Z) : ST ds_sim unit := fun s =>
  Some ((), if dm_strong s && (75 <=? t) then DSim (bus_convert (dm_bus s)) (dm_held s) (dm_low s) (dm_strong s) else s).
Definition dm_idle (strong : bool) (b : bus) : ds_sim := DSim b None 0 strong.

Lemma dm_reset pin b strong : onewire_reset pin (dm_idle strong b) = Some (negb (bool_decide (probes b = [])), dm_idle false (bus_reset b)).
Proof. destruct b as [[|p ps] ph]; reflexivity. Qed.
Lemma dm_write pin v b : _onewire_write_bit pin v (dm_idle false b) = Some (true, dm_idle false (bus_write v b)).
Proof.
  destruct v; [|reflexivity]. change (bus_write true b) with (bus_read b).2. destruct (bus_read b) as [v b'] eqn:E.
  cbv -[bus_read]. rewrite E. by destruct v.
Qed.
Lemma dm_read pin b : _onewire_read_bit pin (dm_idle false b) = Some (Z.b2z (bus_read b).1, dm_idle false (bus_read b).2).
Proof. destruct (bus_read b) as [v b'] eqn:E. cbv -[bus_read]. rewrite E. by destruct v. Qed.

#[export] Program Instance ds_probe_bus (pin : Z) : ProbeBus ds_sim dm_delay pin :=
  {| pr_ok := fun s => s = dm_idle false (dm_bus s); pr_power := fun s => s = dm_idle true (dm_bus s); pr_bus := dm_bus |}.
Next Obligation. intros pin e He. assert (E : exists s, e = dm_idle s (dm_bus e)) by naive_solver. destruct E as [s ->]. eapply wp_of_run; [apply dm_reset|done]. Qed.
Next Obligation. intros pin e v ->. eapply wp_of_run; [apply dm_write|done]. Qed.
Next Obligation. intros pin e ->. eapply wp_of_run; [apply dm_read|done]. Qed.
Next Obligation. intros pin e ->. done. Qed.
Next Obligation. intros pin e ->. done. Qed.
Next Obligation. intros pin e t -> Ht. eapply wp_of_run; [reflexivity|]. cbn [dm_strong dm_idle andb]. by rewrite (proj2 (Z.leb_le 75 t)). Qed.
Next Obligation. intros pin e ->. done. Qed.
Next Obligation. intros pin e ->. done. Qed.

(** Two thermometers, at 25.0625 and -10.125 degrees; [celsius] is the number of
    ten-thousandths. *)
Definition two_probes : list probe :=
  [Probe 0x5a00000b1c2d3e28 401 [0x50; 5; 0x4b; 0x46; 0x7f; 0xff; 0xc; 0x10]; Probe 0x3300000b1c2d3f28 (-162) [0x50; 5; 0x4b; 0x46; 0x7f; 0xff; 0xc; 0x10]].
Lemma ds18b20_measures_all_witness :
  exists vs e', ds18b20_measure_and_read_multi dm_delay (fun t => t * 625) (-1) (fun _ => false) 4 [0x3300000b1c2d3f28; 0x5a00000b1c2d3e28]
    (dm_idle false (PBus two_probes Pidle)) = Some (true, vs, e') /\ vs = [40858750; 250625].
Proof.
  pose proof (ds18b20_measures_all dm_delay 4 (fun t => t * 625) (-1) (fun _ => false) [0x3300000b1c2d3f28; 0x5a00000b1c2d3e28]
    (dm_idle false (PBus two_probes Pidle)) eq_refl) as H. cbv zeta in H. cbn [pr_bus ds_probe_bus dm_bus dm_idle probes] in H.
  assert (Hb : Forall probe_ok two_probes).
  { repeat (apply Forall_cons; split; [unfold probe_ok, ONEWIRE_NONE; cbn [pb_addr pb_temp pb_pad]; split_and!; first [lia|reflexivity|by apply bytes_check]|]). constructor. }
  assert (Hn : NoDup (map pb_addr two_probes)) by (apply (bool_decide_unpack _); vm_compute; exact I).
  assert (Hi : Forall (fun a => a ∈ map pb_addr two_probes) [0x3300000b1c2d3f28; 0x5a00000b1c2d3e28]).
  { apply (bool_decide_unpack _). vm_compute. exact I. }
  destruct (wp_run _ _ _ (H ltac:(done) Hb Hn ltac:(done) Hi)) as ([ok vs] & e' & E & Hok & Hvs & _). cbn [fst snd] in Hok, Hvs. subst ok.
  exists vs, e'. split; [exact E|]. clear E H.
  inversion Hvs as [|? v1 ? ? (p1 & Hp1 & Ea1 & ->) Hr]; subst. inversion Hr as [|? v2 ? ? (p2 & Hp2 & Ea2 & ->) Hr2]; subst. inversion Hr2; subst.
  apply list_elem_of_In in Hp1 as [<- | [<- | []]]; [discriminate Ea1|].
  apply list_elem_of_In in Hp2 as [<- | [<- | []]]; [|discriminate Ea2]. reflexivity.
Defined.
