(* ===== verification/Sharpmem.v ===== *)
(** * The Sharp memory display: extras/adafruit_sharpmemory_display

    adafruit_sharpmemory_display.c and the font of its header.  The drawing functions are
    functions of the rotation and of the frame buffer: [None] is an index past the end of
    an array or a loop that does not end.  The functions that talk to the display are
    computations on [sharp]: the variables of the file, the registers of GPIO 16 and the
    chip of [EspRegs].  The mutex is a flag; locking it twice waits for ever.  printf is
    left out.  The theorems are in [SharpmemDraw] and [SharpmemPanel]. *)

From S2P Require Import Prelude Gpio EspRegs.
Local Open Scope Z_scope.

Definition GPIO_SPI_MISO : Z := 12.
Definition GPIO_SPI_MOSI : Z := 13.
Definition GPIO_SPI_CLK : Z := 14.
Definition SHARPMEM_LCDWIDTH : Z := 96.
Definition SHARPMEM_LCDHEIGHT : Z := 96.
Definition SHARPMEM_BIT_WRITECMD : Z := 0x80.
Definition SHARPMEM_BIT_VCOM : Z := 0x40.
Definition SHARPMEM_BIT_CLEAR : Z := 0x20.


(** ** Drawing *)

Definition set : list Z := [1; 2; 4; 8; 16; 32; 64; 128].
Definition clr : list Z := [254; 253; 251; 247; 239; 223; 191; 127].

(** The switch over the rotation, on coordinates inside of the display. *)
Definition rotate (rotation x y : Z) : Z * Z :=
  if rotation =? 1 then (SHARPMEM_LCDWIDTH - 1 - y, x)
  else if rotation =? 2 then (SHARPMEM_LCDWIDTH - 1 - x, SHARPMEM_LCDHEIGHT - 1 - y)
  else if rotation =? 3 then (y, SHARPMEM_LCDHEIGHT - 1 - x)
  else (x, y).

Definition drawPixel (rotation x y color : Z) (sharpmem_buffer : list Z) : option (list Z) :=
  if (x <? 0) || (SHARPMEM_LCDWIDTH <=? x) || (y <? 0) || (SHARPMEM_LCDHEIGHT <=? y) then Some sharpmem_buffer
  else
    let '(x, y) := rotate rotation x y in
    let i := Z.to_nat (Z.quot (y * SHARPMEM_LCDWIDTH + x) 8) in
    b ← sharpmem_buffer !! i;
    let bit := Z.to_nat (Z.land x 7) in
    Some (<[i := if negb (color =? 0) then Z.lor b (nth bit set 0) else Z.land b (nth bit clr 0)]> sharpmem_buffer).

Definition getPixel (rotation x y : Z) (sharpmem_buffer : list Z) : option Z :=
  if (SHARPMEM_LCDWIDTH <=? x) || (SHARPMEM_LCDHEIGHT <=? y) then Some 0
  else
    let '(x, y) := rotate rotation x y in
    b ← sharpmem_buffer !! Z.to_nat (Z.quot (y * SHARPMEM_LCDWIDTH + x) 8);
    Some (if negb (Z.land b (nth (Z.to_nat (Z.land x 7)) set 0) =? 0) then 1 else 0).

(** The loop of drawLine.  It ends within x1 - x0 + 1 turns or not at all, when x1 is
    the largest int16_t. *)
Fixpoint line_loop (fuel : nat) (rotation : Z) (steep : bool) (x0 x1 y0 err dx dy ystep color : Z) (buf : list Z) : option (list Z) :=
  match fuel with
  | O => None
  | S fuel =>
      if x0 <=? x1 then
        buf ← (if steep then drawPixel rotation y0 x0 color buf else drawPixel rotation x0 y0 color buf);
        let err := s16 (err - dy) in
        let '(y0, err) := if err <? 0 then (s16 (y0 + ystep), s16 (err + dx)) else (y0, err) in
        line_loop fuel rotation steep (s16 (x0 + 1)) x1 y0 err dx dy ystep color buf
      else Some buf
  end.
Definition drawLine (rotation x0 y0 x1 y1 color : Z) (buf : list Z) : option (list Z) :=
  let steep := Z.abs (x1 - x0) <? Z.abs (y1 - y0) in
  let '(x0, y0) := if steep then (y0, x0) else (x0, y0) in
  let '(x1, y1) := if steep then (y1, x1) else (x1, y1) in
  let '(x0, x1, y0, y1) := if x1 <? x0 then (x1, x0, y1, y0) else (x0, x1, y0, y1) in
  let dx := s16 (x1 - x0) in
  let dy := s16 (Z.abs (y1 - y0)) in
  let err := Z.quot dx 2 in
  let ystep := if y0 <? y1 then 1 else -1 in
  line_loop (Z.to_nat (x1 - x0 + 2)) rotation steep x0 x1 y0 err dx dy ystep color buf.

Definition drawFastVLine (rotation x y h color : Z) (buf : list Z) : option (list Z) :=
  drawLine rotation x y x (s16 (y + h - 1)) color buf.

(** [i] is an int16_t and [last], x + w, an int. *)
Fixpoint rect_loop (fuel : nat) (rotation i last y h color : Z) (buf : list Z) : option (list Z) :=
  match fuel with
  | O => None
  | S fuel =>
      if i <? last then
        buf ← drawFastVLine rotation i y h color buf;
        rect_loop fuel rotation (s16 (i + 1)) last y h color buf
      else Some buf
  end.
Definition fillRect (rotation x y w h color : Z) (buf : list Z) : option (list Z) :=
  rect_loop (Z.to_nat (Z.max 0 w + 1)) rotation x (x + w) y h color buf.

(** One column of a character: [j] counts to 8. *)
Fixpoint char_column (n : nat) (rotation x y i j line color bg size : Z) (buf : list Z) : option (list Z) :=
  match n with
  | O => Some buf
  | S n =>
      let draw c :=
        if size =? 1 then drawPixel rotation (s16 (x + i)) (s16 (y + j)) c buf
        else fillRect rotation (s16 (x + i * size)) (s16 (y + j * size)) size size c buf in
      buf ← (if negb (Z.land line 1 =? 0) then draw color else if negb (bg =? color) then draw bg else Some buf);
      char_column n rotation x y i (j + 1) (Z.shiftr line 1) color bg size buf
  end.

Definition font : list Z := [
  0x00; 0x00; 0x00; 0x00; 0x00; 0x3E; 0x5B; 0x4F; 0x5B; 0x3E; 0x3E; 0x6B; 0x4F; 0x6B; 0x3E; 0x1C; 0x3E; 0x7C; 0x3E; 0x1C;
  0x18; 0x3C; 0x7E; 0x3C; 0x18; 0x1C; 0x57; 0x7D; 0x57; 0x1C; 0x1C; 0x5E; 0x7F; 0x5E; 0x1C; 0x00; 0x18; 0x3C; 0x18; 0x00;
  0xFF; 0xE7; 0xC3; 0xE7; 0xFF; 0x00; 0x18; 0x24; 0x18; 0x00; 0xFF; 0xE7; 0xDB; 0xE7; 0xFF; 0x30; 0x48; 0x3A; 0x06; 0x0E;
  0x26; 0x29; 0x79; 0x29; 0x26; 0x40; 0x7F; 0x05; 0x05; 0x07; 0x40; 0x7F; 0x05; 0x25; 0x3F; 0x5A; 0x3C; 0xE7; 0x3C; 0x5A;
  0x7F; 0x3E; 0x1C; 0x1C; 0x08; 0x08; 0x1C; 0x1C; 0x3E; 0x7F; 0x14; 0x22; 0x7F; 0x22; 0x14; 0x5F; 0x5F; 0x00; 0x5F; 0x5F;
  0x06; 0x09; 0x7F; 0x01; 0x7F; 0x00; 0x66; 0x89; 0x95; 0x6A; 0x60; 0x60; 0x60; 0x60; 0x60; 0x94; 0xA2; 0xFF; 0xA2; 0x94;
  0x08; 0x04; 0x7E; 0x04; 0x08; 0x10; 0x20; 0x7E; 0x20; 0x10; 0x08; 0x08; 0x2A; 0x1C; 0x08; 0x08; 0x1C; 0x2A; 0x08; 0x08;
  0x1E; 0x10; 0x10; 0x10; 0x10; 0x0C; 0x1E; 0x0C; 0x1E; 0x0C; 0x30; 0x38; 0x3E; 0x38; 0x30; 0x06; 0x0E; 0x3E; 0x0E; 0x06;
  0x00; 0x00; 0x00; 0x00; 0x00; 0x00; 0x00; 0x5F; 0x00; 0x00; 0x00; 0x07; 0x00; 0x07; 0x00; 0x14; 0x7F; 0x14; 0x7F; 0x14;
  0x24; 0x2A; 0x7F; 0x2A; 0x12; 0x23; 0x13; 0x08; 0x64; 0x62; 0x36; 0x49; 0x56; 0x20; 0x50; 0x00; 0x08; 0x07; 0x03; 0x00;
  0x00; 0x1C; 0x22; 0x41; 0x00; 0x00; 0x41; 0x22; 0x1C; 0x00; 0x2A; 0x1C; 0x7F; 0x1C; 0x2A; 0x08; 0x08; 0x3E; 0x08; 0x08;
  0x00; 0x80; 0x70; 0x30; 0x00; 0x08; 0x08; 0x08; 0x08; 0x08; 0x00; 0x00; 0x60; 0x60; 0x00; 0x20; 0x10; 0x08; 0x04; 0x02;
  0x3E; 0x51; 0x49; 0x45; 0x3E; 0x00; 0x42; 0x7F; 0x40; 0x00; 0x72; 0x49; 0x49; 0x49; 0x46; 0x21; 0x41; 0x49; 0x4D; 0x33;
  0x18; 0x14; 0x12; 0x7F; 0x10; 0x27; 0x45; 0x45; 0x45; 0x39; 0x3C; 0x4A; 0x49; 0x49; 0x31; 0x41; 0x21; 0x11; 0x09; 0x07;
  0x36; 0x49; 0x49; 0x49; 0x36; 0x46; 0x49; 0x49; 0x29; 0x1E; 0x00; 0x00; 0x14; 0x00; 0x00; 0x00; 0x40; 0x34; 0x00; 0x00;
  0x00; 0x08; 0x14; 0x22; 0x41; 0x14; 0x14; 0x14; 0x14; 0x14; 0x00; 0x41; 0x22; 0x14; 0x08; 0x02; 0x01; 0x59; 0x09; 0x06;
  0x3E; 0x41; 0x5D; 0x59; 0x4E; 0x7C; 0x12; 0x11; 0x12; 0x7C; 0x7F; 0x49; 0x49; 0x49; 0x36; 0x3E; 0x41; 0x41; 0x41; 0x22;
  0x7F; 0x41; 0x41; 0x41; 0x3E; 0x7F; 0x49; 0x49; 0x49; 0x41; 0x7F; 0x09; 0x09; 0x09; 0x01; 0x3E; 0x41; 0x41; 0x51; 0x73;
  0x7F; 0x08; 0x08; 0x08; 0x7F; 0x00; 0x41; 0x7F; 0x41; 0x00; 0x20; 0x40; 0x41; 0x3F; 0x01; 0x7F; 0x08; 0x14; 0x22; 0x41;
  0x7F; 0x40; 0x40; 0x40; 0x40; 0x7F; 0x02; 0x1C; 0x02; 0x7F; 0x7F; 0x04; 0x08; 0x10; 0x7F; 0x3E; 0x41; 0x41; 0x41; 0x3E;
  0x7F; 0x09; 0x09; 0x09; 0x06; 0x3E; 0x41; 0x51; 0x21; 0x5E; 0x7F; 0x09; 0x19; 0x29; 0x46; 0x26; 0x49; 0x49; 0x49; 0x32;
  0x03; 0x01; 0x7F; 0x01; 0x03; 0x3F; 0x40; 0x40; 0x40; 0x3F; 0x1F; 0x20; 0x40; 0x20; 0x1F; 0x3F; 0x40; 0x38; 0x40; 0x3F;
  0x63; 0x14; 0x08; 0x14; 0x63; 0x03; 0x04; 0x78; 0x04; 0x03; 0x61; 0x59; 0x49; 0x4D; 0x43; 0x00; 0x7F; 0x41; 0x41; 0x41;
  0x02; 0x04; 0x08; 0x10; 0x20; 0x00; 0x41; 0x41; 0x41; 0x7F; 0x04; 0x02; 0x01; 0x02; 0x04; 0x40; 0x40; 0x40; 0x40; 0x40;
  0x00; 0x03; 0x07; 0x08; 0x00; 0x20; 0x54; 0x54; 0x78; 0x40; 0x7F; 0x28; 0x44; 0x44; 0x38; 0x38; 0x44; 0x44; 0x44; 0x28;
  0x38; 0x44; 0x44; 0x28; 0x7F; 0x38; 0x54; 0x54; 0x54; 0x18; 0x00; 0x08; 0x7E; 0x09; 0x02; 0x18; 0xA4; 0xA4; 0x9C; 0x78;
  0x7F; 0x08; 0x04; 0x04; 0x78; 0x00; 0x44; 0x7D; 0x40; 0x00; 0x20; 0x40; 0x40; 0x3D; 0x00; 0x7F; 0x10; 0x28; 0x44; 0x00;
  0x00; 0x41; 0x7F; 0x40; 0x00; 0x7C; 0x04; 0x78; 0x04; 0x78; 0x7C; 0x08; 0x04; 0x04; 0x78; 0x38; 0x44; 0x44; 0x44; 0x38;
  0xFC; 0x18; 0x24; 0x24; 0x18; 0x18; 0x24; 0x24; 0x18; 0xFC; 0x7C; 0x08; 0x04; 0x04; 0x08; 0x48; 0x54; 0x54; 0x54; 0x24;
  0x04; 0x04; 0x3F; 0x44; 0x24; 0x3C; 0x40; 0x40; 0x20; 0x7C; 0x1C; 0x20; 0x40; 0x20; 0x1C; 0x3C; 0x40; 0x30; 0x40; 0x3C;
  0x44; 0x28; 0x10; 0x28; 0x44; 0x4C; 0x90; 0x90; 0x90; 0x7C; 0x44; 0x64; 0x54; 0x4C; 0x44; 0x00; 0x08; 0x36; 0x41; 0x00;
  0x00; 0x00; 0x77; 0x00; 0x00; 0x00; 0x41; 0x36; 0x08; 0x00; 0x02; 0x01; 0x02; 0x04; 0x02; 0x3C; 0x26; 0x23; 0x26; 0x3C;
  0x1E; 0xA1; 0xA1; 0x61; 0x12; 0x3A; 0x40; 0x40; 0x20; 0x7A; 0x38; 0x54; 0x54; 0x55; 0x59; 0x21; 0x55; 0x55; 0x79; 0x41;
  0x22; 0x54; 0x54; 0x78; 0x42; 0x21; 0x55; 0x54; 0x78; 0x40; 0x20; 0x54; 0x55; 0x79; 0x40; 0x0C; 0x1E; 0x52; 0x72; 0x12;
  0x39; 0x55; 0x55; 0x55; 0x59; 0x39; 0x54; 0x54; 0x54; 0x59; 0x39; 0x55; 0x54; 0x54; 0x58; 0x00; 0x00; 0x45; 0x7C; 0x41;
  0x00; 0x02; 0x45; 0x7D; 0x42; 0x00; 0x01; 0x45; 0x7C; 0x40; 0x7D; 0x12; 0x11; 0x12; 0x7D; 0xF0; 0x28; 0x25; 0x28; 0xF0;
  0x7C; 0x54; 0x55; 0x45; 0x00; 0x20; 0x54; 0x54; 0x7C; 0x54; 0x7C; 0x0A; 0x09; 0x7F; 0x49; 0x32; 0x49; 0x49; 0x49; 0x32;
  0x3A; 0x44; 0x44; 0x44; 0x3A; 0x32; 0x4A; 0x48; 0x48; 0x30; 0x3A; 0x41; 0x41; 0x21; 0x7A; 0x3A; 0x42; 0x40; 0x20; 0x78;
  0x00; 0x9D; 0xA0; 0xA0; 0x7D; 0x3D; 0x42; 0x42; 0x42; 0x3D; 0x3D; 0x40; 0x40; 0x40; 0x3D; 0x3C; 0x24; 0xFF; 0x24; 0x24;
  0x48; 0x7E; 0x49; 0x43; 0x66; 0x2B; 0x2F; 0xFC; 0x2F; 0x2B; 0xFF; 0x09; 0x29; 0xF6; 0x20; 0xC0; 0x88; 0x7E; 0x09; 0x03;
  0x20; 0x54; 0x54; 0x79; 0x41; 0x00; 0x00; 0x44; 0x7D; 0x41; 0x30; 0x48; 0x48; 0x4A; 0x32; 0x38; 0x40; 0x40; 0x22; 0x7A;
  0x00; 0x7A; 0x0A; 0x0A; 0x72; 0x7D; 0x0D; 0x19; 0x31; 0x7D; 0x26; 0x29; 0x29; 0x2F; 0x28; 0x26; 0x29; 0x29; 0x29; 0x26;
  0x30; 0x48; 0x4D; 0x40; 0x20; 0x38; 0x08; 0x08; 0x08; 0x08; 0x08; 0x08; 0x08; 0x08; 0x38; 0x2F; 0x10; 0xC8; 0xAC; 0xBA;
  0x2F; 0x10; 0x28; 0x34; 0xFA; 0x00; 0x00; 0x7B; 0x00; 0x00; 0x08; 0x14; 0x2A; 0x14; 0x22; 0x22; 0x14; 0x2A; 0x14; 0x08;
  0x55; 0x00; 0x55; 0x00; 0x55; 0xAA; 0x55; 0xAA; 0x55; 0xAA; 0xFF; 0x55; 0xFF; 0x55; 0xFF; 0x00; 0x00; 0x00; 0xFF; 0x00;
  0x10; 0x10; 0x10; 0xFF; 0x00; 0x14; 0x14; 0x14; 0xFF; 0x00; 0x10; 0x10; 0xFF; 0x00; 0xFF; 0x10; 0x10; 0xF0; 0x10; 0xF0;
  0x14; 0x14; 0x14; 0xFC; 0x00; 0x14; 0x14; 0xF7; 0x00; 0xFF; 0x00; 0x00; 0xFF; 0x00; 0xFF; 0x14; 0x14; 0xF4; 0x04; 0xFC;
  0x14; 0x14; 0x17; 0x10; 0x1F; 0x10; 0x10; 0x1F; 0x10; 0x1F; 0x14; 0x14; 0x14; 0x1F; 0x00; 0x10; 0x10; 0x10; 0xF0; 0x00;
  0x00; 0x00; 0x00; 0x1F; 0x10; 0x10; 0x10; 0x10; 0x1F; 0x10; 0x10; 0x10; 0x10; 0xF0; 0x10; 0x00; 0x00; 0x00; 0xFF; 0x10;
  0x10; 0x10; 0x10; 0x10; 0x10; 0x10; 0x10; 0x10; 0xFF; 0x10; 0x00; 0x00; 0x00; 0xFF; 0x14; 0x00; 0x00; 0xFF; 0x00; 0xFF;
  0x00; 0x00; 0x1F; 0x10; 0x17; 0x00; 0x00; 0xFC; 0x04; 0xF4; 0x14; 0x14; 0x17; 0x10; 0x17; 0x14; 0x14; 0xF4; 0x04; 0xF4;
  0x00; 0x00; 0xFF; 0x00; 0xF7; 0x14; 0x14; 0x14; 0x14; 0x14; 0x14; 0x14; 0xF7; 0x00; 0xF7; 0x14; 0x14; 0x14; 0x17; 0x14;
  0x10; 0x10; 0x1F; 0x10; 0x1F; 0x14; 0x14; 0x14; 0xF4; 0x14; 0x10; 0x10; 0xF0; 0x10; 0xF0; 0x00; 0x00; 0x1F; 0x10; 0x1F;
  0x00; 0x00; 0x00; 0x1F; 0x14; 0x00; 0x00; 0x00; 0xFC; 0x14; 0x00; 0x00; 0xF0; 0x10; 0xF0; 0x10; 0x10; 0xFF; 0x10; 0xFF;
  0x14; 0x14; 0x14; 0xFF; 0x14; 0x10; 0x10; 0x10; 0x1F; 0x00; 0x00; 0x00; 0x00; 0xF0; 0x10; 0xFF; 0xFF; 0xFF; 0xFF; 0xFF;
  0xF0; 0xF0; 0xF0; 0xF0; 0xF0; 0xFF; 0xFF; 0xFF; 0x00; 0x00; 0x00; 0x00; 0x00; 0xFF; 0xFF; 0x0F; 0x0F; 0x0F; 0x0F; 0x0F;
  0x38; 0x44; 0x44; 0x38; 0x44; 0xFC; 0x4A; 0x4A; 0x4A; 0x34; 0x7E; 0x02; 0x02; 0x06; 0x06; 0x02; 0x7E; 0x02; 0x7E; 0x02;
  0x63; 0x55; 0x49; 0x41; 0x63; 0x38; 0x44; 0x44; 0x3C; 0x04; 0x40; 0x7E; 0x20; 0x1E; 0x20; 0x06; 0x02; 0x7E; 0x02; 0x02;
  0x99; 0xA5; 0xE7; 0xA5; 0x99; 0x1C; 0x2A; 0x49; 0x2A; 0x1C; 0x4C; 0x72; 0x01; 0x72; 0x4C; 0x30; 0x4A; 0x4D; 0x4D; 0x30;
  0x30; 0x48; 0x78; 0x48; 0x30; 0xBC; 0x62; 0x5A; 0x46; 0x3D; 0x3E; 0x49; 0x49; 0x49; 0x00; 0x7E; 0x01; 0x01; 0x01; 0x7E;
  0x2A; 0x2A; 0x2A; 0x2A; 0x2A; 0x44; 0x44; 0x5F; 0x44; 0x44; 0x40; 0x51; 0x4A; 0x44; 0x40; 0x40; 0x44; 0x4A; 0x51; 0x40;
  0x00; 0x00; 0xFF; 0x01; 0x03; 0xE0; 0x80; 0xFF; 0x00; 0x00; 0x08; 0x08; 0x6B; 0x6B; 0x08; 0x36; 0x12; 0x36; 0x24; 0x36;
  0x06; 0x0F; 0x09; 0x0F; 0x06; 0x00; 0x00; 0x18; 0x18; 0x00; 0x00; 0x00; 0x10; 0x10; 0x00; 0x30; 0x40; 0xFF; 0x01; 0x01;
  0x00; 0x1F; 0x01; 0x01; 0x1E; 0x00; 0x19; 0x1D; 0x17; 0x12; 0x00; 0x3C; 0x3C; 0x3C; 0x3C; 0x00; 0x00; 0x00; 0x00; 0x00].
Fixpoint char_columns (n : nat) (rotation x y c i color bg size : Z) (buf : list Z) : option (list Z) :=
  match n with
  | O => Some buf
  | S n =>
      line ← (if i <? 5 then font !! Z.to_nat (c * 5 + i) else Some 0);
      buf ← char_column 8 rotation x y i 0 line color bg size buf;
      char_columns n rotation x y c (i + 1) color bg size buf
  end.
Definition drawChar (rotation x y c color bg size : Z) (buf : list Z) : option (list Z) :=
  if (SHARPMEM_LCDWIDTH <=? x) || (SHARPMEM_LCDHEIGHT <=? y) || (x + 6 * size - 1 <? 0) || (y + 8 * size - 1 <? 0) then Some buf
  else
    let c := if 176 <=? c then u8 (c + 1) else c in
    char_columns 6 rotation x y c 0 color bg size buf.

(** ** The display *)

(** The variables of the file, the registers of GPIO 16 and the rest of the chip. *)
Record sharp (H E : Type) := Sharp {
  sharpmem_buffer : list Z;
  rotation : Z;
  _sharpmem_vcom : Z;
  DISPLAY_SPI_CS_GPIO_NUM : Z;
  pSPIMutex : bool;
  mutex_taken : bool;
  GP16O : Z;
  GP16E : Z;
  GPF16 : Z;
  GPC16 : Z;
  chip : soc H E
}.
Arguments Sharp {H E}.
Arguments sharpmem_buffer {H E}.
Arguments rotation {H E}.
Arguments _sharpmem_vcom {H E}.
Arguments DISPLAY_SPI_CS_GPIO_NUM {H E}.
Arguments pSPIMutex {H E}.
Arguments mutex_taken {H E}.
Arguments GP16O {H E}.
Arguments GP16E {H E}.
Arguments GPF16 {H E}.
Arguments GPC16 {H E}.
Arguments chip {H E}.

Section display.
Context {H E : Type} `{!Pads E}.
Notation world := (sharp H E).

Definition with_buffer (b : list Z) (s : world) : world :=
  Sharp b (rotation s) (_sharpmem_vcom s) (DISPLAY_SPI_CS_GPIO_NUM s) (pSPIMutex s) (mutex_taken s) (GP16O s) (GP16E s) (GPF16 s) (GPC16 s) (chip s).
Definition with_rotation (r : Z) (s : world) : world :=
  Sharp (sharpmem_buffer s) r (_sharpmem_vcom s) (DISPLAY_SPI_CS_GPIO_NUM s) (pSPIMutex s) (mutex_taken s) (GP16O s) (GP16E s) (GPF16 s) (GPC16 s) (chip s).
Definition with_vcom (v : Z) (s : world) : world :=
  Sharp (sharpmem_buffer s) (rotation s) v (DISPLAY_SPI_CS_GPIO_NUM s) (pSPIMutex s) (mutex_taken s) (GP16O s) (GP16E s) (GPF16 s) (GPC16 s) (chip s).
Definition with_cs (cs : Z) (s : world) : world :=
  Sharp (sharpmem_buffer s) (rotation s) (_sharpmem_vcom s) cs true (mutex_taken s) (GP16O s) (GP16E s) (GPF16 s) (GPC16 s) (chip s).
Definition with_taken (b : bool) (s : world) : world :=
  Sharp (sharpmem_buffer s) (rotation s) (_sharpmem_vcom s) (DISPLAY_SPI_CS_GPIO_NUM s) (pSPIMutex s) b (GP16O s) (GP16E s) (GPF16 s) (GPC16 s) (chip s).
Definition with_GP16O (v : Z) (s : world) : world :=
  Sharp (sharpmem_buffer s) (rotation s) (_sharpmem_vcom s) (DISPLAY_SPI_CS_GPIO_NUM s) (pSPIMutex s) (mutex_taken s) v (GP16E s) (GPF16 s) (GPC16 s) (chip s).
Definition with_gp16 (e f c : Z) (s : world) : world :=
  Sharp (sharpmem_buffer s) (rotation s) (_sharpmem_vcom s) (DISPLAY_SPI_CS_GPIO_NUM s) (pSPIMutex s) (mutex_taken s) (GP16O s) e f c (chip s).
Definition with_chip (c : soc H E) (s : world) : world :=
  Sharp (sharpmem_buffer s) (rotation s) (_sharpmem_vcom s) (DISPLAY_SPI_CS_GPIO_NUM s) (pSPIMutex s) (mutex_taken s) (GP16O s) (GP16E s) (GPF16 s) (GPC16 s) c.

(** A call of gpio.h. *)
Definition on_chip {A} (m : ST (soc H E) A) : ST world A := fun s =>
  match m (chip s) with Some (x, c) => Some (x, with_chip c s) | None => None end.
Definition drawing (f : Z -> list Z -> option (list Z)) : ST world unit := fun s =>
  match f (rotation s) (sharpmem_buffer s) with Some b => Some ((), with_buffer b s) | None => None end.

Definition sys_mutex_lock : ST world unit :=
  s ← st_get;
  if mutex_taken s then out_of_fuel else st_modify (with_taken true).
Definition sys_mutex_unlock : ST world unit := st_modify (with_taken false).

Fixpoint send_loop (n : nat) (data : Z) : ST world unit :=
  match n with
  | O => mret ()
  | S n =>
      on_chip (gpio_write 14 false);;
      (if negb (Z.land data 0x80 =? 0) then on_chip (gpio_write 13 true) else on_chip (gpio_write 13 false));;
      on_chip (gpio_write 14 true);;
      send_loop n (u8 (Z.shiftl data 1))
  end.
Definition Display_SendByte (data : Z) : ST world unit := send_loop 8 data;; on_chip (gpio_write 14 false).

Fixpoint send_lsb_loop (n : nat) (data : Z) : ST world unit :=
  match n with
  | O => mret ()
  | S n =>
      on_chip (gpio_write 14 false);;
      (if negb (Z.land data 0x01 =? 0) then on_chip (gpio_write 13 true) else on_chip (gpio_write 13 false));;
      on_chip (gpio_write 14 true);;
      send_lsb_loop n (Z.shiftr data 1)
  end.
Definition Display_sendbyteLSB (data : Z) : ST world unit := send_lsb_loop 8 data;; on_chip (gpio_write 14 false).

Definition setupbitbang : ST world unit :=
  on_chip (gpio_set_iomux_function 12 (IOMUX_FUNC 3));;
  on_chip (gpio_set_iomux_function 13 (IOMUX_FUNC 3));;
  on_chip (gpio_set_iomux_function 14 (IOMUX_FUNC 3));;
  on_chip (gpio_enable GPIO_SPI_CLK GPIO_OUTPUT);;
  on_chip (gpio_write GPIO_SPI_CLK false);;
  on_chip (gpio_enable GPIO_SPI_MOSI GPIO_OUTPUT);;
  on_chip (gpio_enable GPIO_SPI_MISO GPIO_INPUT).

Definition TOGGLE_VCOM : ST world unit :=
  s ← st_get; st_modify (with_vcom (if negb (_sharpmem_vcom s =? 0) then 0x00 else SHARPMEM_BIT_VCOM)).

Definition Setrotation (value : Z) : ST world unit := st_modify (with_rotation value).

Definition ChipSelect (Value : bool) : ST world unit :=
  s ← st_get;
  if negb (DISPLAY_SPI_CS_GPIO_NUM s =? 16) then on_chip (gpio_write (DISPLAY_SPI_CS_GPIO_NUM s) Value)
  else st_modify (with_GP16O (if Value then Z.lor (GP16O s) 1 else Z.ldiff (GP16O s) 1)).

Definition Display_Clear : ST world unit :=
  st_modify (with_buffer (replicate (Z.to_nat (SHARPMEM_LCDWIDTH * SHARPMEM_LCDHEIGHT / 8)) 0xff));;
  s ← st_get;
  Display_SendByte (Z.lor (_sharpmem_vcom s) SHARPMEM_BIT_CLEAR);;
  Display_sendbyteLSB 0x00;;
  TOGGLE_VCOM.

(** A function between taking and giving the mutex. *)
Definition with_display (body : ST world unit) : ST world unit :=
  s ← st_get;
  if negb (pSPIMutex s) then mret ()
  else
    sys_mutex_lock;;
    setupbitbang;;
    ChipSelect true;;
    body;;
    ChipSelect false;;
    sys_mutex_unlock.
Definition Adafruit_Clear : ST world unit := with_display Display_Clear.

(** The bytes of the buffer from number [i] on. *)
Fixpoint refresh_loop (bytes : list Z) (i oldline : Z) : ST world unit :=
  match bytes with
  | [] => mret ()
  | b :: bytes =>
      Display_sendbyteLSB b;;
      let currentline := (i + 1) / (SHARPMEM_LCDWIDTH / 8) + 1 in
      if negb (currentline =? oldline) then
        Display_sendbyteLSB 0x00;;
        (if currentline <=? SHARPMEM_LCDHEIGHT then Display_sendbyteLSB (u8 currentline) else mret ());;
        refresh_loop bytes (i + 1) currentline
      else refresh_loop bytes (i + 1) oldline
  end.
Definition Display_refresh : ST world unit :=
  s ← st_get;
  Display_SendByte (Z.lor SHARPMEM_BIT_WRITECMD (_sharpmem_vcom s));;
  TOGGLE_VCOM;;
  Display_sendbyteLSB 1;;
  s ← st_get;
  refresh_loop (sharpmem_buffer s) 0 1;;
  Display_sendbyteLSB 0x00.
Definition Adafruit_refresh : ST world unit := with_display Display_refresh.

(** [mutex]: the pointer is not null. *)
Definition Adafruit_Init (SPI_CS_GPIO : Z) (mutex : bool) : ST world unit :=
  if negb mutex then mret ()
  else
    st_modify (with_cs SPI_CS_GPIO);;
    (if SPI_CS_GPIO =? 16 then s ← st_get; st_modify (with_gp16 (Z.lor (GP16E s) 1) 1 0) else mret ());;
    ChipSelect false.
End display.
