(* ===== verification/SharpmemDraw.v ===== *)
(** * What the drawing functions of the display draw

    [shows r buf f]: with rotation [r] the frame buffer holds the picture [f].  A pixel
    ([drawPixel_shows]), a line by the algorithm of Bresenham, which is the line rounded to
    pixels ([drawLine_exact]), and a rectangle ([fillRect_exact]). *)

From S2P Require Import Prelude Gpio EspRegs Sharpmem.
Local Open Scope Z_scope.

Definition buffer_ok (buf : list Z) : Prop := length buf = 1152%nat /\ Forall is_byte buf.
Definition on_screen (x y : Z) : Prop := 0 <= x < 96 /\ 0 <= y < 96.
Definition shows (r : Z) (buf : list Z) (f : Z -> Z -> bool) : Prop :=
  buffer_ok buf /\ forall x y, on_screen x y -> getPixel r x y buf = Some (Z.b2z (f x y)).
Definition colored (color : Z) : bool := negb (color =? 0).
Definition paint (x y : Z) (c : bool) (f : Z -> Z -> bool) : Z -> Z -> bool :=
  fun x' y' => if (x' =? x) && (y' =? y) then c else f x' y'.

(** ** One pixel *)

Lemma rotate_screen r x y : on_screen x y -> on_screen (rotate r x y).1 (rotate r x y).2.
Proof.
  unfold on_screen, rotate, SHARPMEM_LCDWIDTH, SHARPMEM_LCDHEIGHT. intros [Hx Hy].
  repeat case_match; cbn [fst snd]; lia.
Qed.
Lemma rotate_inj r x y x' y' : rotate r x y = rotate r x' y' -> x = x' /\ y = y'.
Proof. unfold rotate. repeat case_match; intros E; injection E; lia. Qed.

(** The byte of a pixel, and its bit. *)
Definition byte_at (x y : Z) : nat := Z.to_nat ((y * 96 + x) / 8).
Lemma byte_at_inj x y x' y' : on_screen x y -> on_screen x' y' -> byte_at x y = byte_at x' y' -> x mod 8 = x' mod 8 -> x = x' /\ y = y'.
Proof.
  unfold on_screen, byte_at. intros [Hx Hy] [Hx' Hy'] E Em.
  pose proof (Z.div_mod x 8 ltac:(lia)). pose proof (Z.div_mod x' 8 ltac:(lia)).
  rewrite !(Z.mul_comm _ 96) in E. replace (96 * y + x) with (x + (12 * y) * 8) in E by lia. replace (96 * y' + x') with (x' + (12 * y') * 8) in E by lia.
  rewrite !Z.div_add in E by lia.
  assert (0 <= x / 8 < 12) by (split; [apply Z.div_pos|apply Z.div_lt_upper_bound]; lia).
  assert (0 <= x' / 8 < 12) by (split; [apply Z.div_pos|apply Z.div_lt_upper_bound]; lia). lia.
Qed.
Lemma byte_at_lt x y : on_screen x y -> (byte_at x y < 1152)%nat.
Proof.
  unfold on_screen, byte_at. intros [Hx Hy]. assert ((y * 96 + x) / 8 < 1152) by (apply Z.div_lt_upper_bound; lia).
  assert (0 <= (y * 96 + x) / 8) by (apply Z.div_pos; lia). lia.
Qed.
Lemma bit_tables k : (k < 8)%nat -> nth k set 0 = 2 ^ Z.of_nat k /\ nth k clr 0 = Z.lxor 255 (2 ^ Z.of_nat k).
Proof. intros Hk. do 8 (destruct k as [|k]; [done|]). lia. Qed.
Lemma column_bit x : 0 <= x -> Z.to_nat (Z.land x 7) = Z.to_nat (x mod 8) /\ 0 <= x mod 8 < 8.
Proof. intros Hx. change 7 with (Z.ones 3). rewrite Z.land_ones by lia. split; [done|]. by apply Z.mod_pos_bound. Qed.

Definition bit_of (buf : list Z) (x y : Z) : bool := Z.testbit (nth (byte_at x y) buf 0) (x mod 8).
Lemma getPixel_bit r x y buf : on_screen x y -> buffer_ok buf ->
  getPixel r x y buf = Some (Z.b2z (bit_of buf (rotate r x y).1 (rotate r x y).2)).
Proof.
  intros Hs [Hl _]. unfold getPixel. unfold on_screen in Hs. unfold SHARPMEM_LCDWIDTH at 1, SHARPMEM_LCDHEIGHT at 1.
  rewrite (proj2 (Z.leb_gt 96 x)), (proj2 (Z.leb_gt 96 y)) by lia. cbn [orb].
  pose proof (rotate_screen r x y Hs) as Hr. destruct (rotate r x y) as [x1 y1]. cbn [fst snd] in *. pose proof (byte_at_lt x1 y1 Hr) as Hb.
  destruct Hr as [Hx1 Hy1]. unfold SHARPMEM_LCDWIDTH. rewrite Z.quot_div_nonneg by lia. fold (byte_at x1 y1).
  destruct (lookup_lt_is_Some_2 buf (byte_at x1 y1)) as [b Eb]; [lia|]. rewrite Eb. cbn [mbind option_bind].
  unfold bit_of. rewrite (nth_lookup_Some _ _ _ _ Eb). destruct (column_bit x1 ltac:(lia)) as [-> Hm].
  destruct (bit_tables (Z.to_nat (x1 mod 8)) ltac:(lia)) as [-> _]. rewrite Z2Nat.id by lia.
  assert (E : negb (Z.land b (2 ^ (x1 mod 8)) =? 0) = Z.testbit b (x1 mod 8)).
  { destruct (Z.testbit b (x1 mod 8)) eqn:Et.
    - apply negb_true_iff, Z.eqb_neq. intros E. apply (f_equal (fun z => Z.testbit z (x1 mod 8))) in E.
      rewrite Z.land_spec, Et, Z.pow2_bits_true, Z.bits_0 in E by lia. done.
    - apply negb_false_iff, Z.eqb_eq, Z.bits_inj'. intros n Hn. rewrite Z.land_spec, Z.pow2_bits_eqb, Z.bits_0 by lia.
      destruct (Z.eqb_spec (x1 mod 8) n) as [<-|]; [by rewrite Et|apply andb_false_r]. }
  rewrite E. by destruct (Z.testbit b (x1 mod 8)).
Qed.

Lemma is_byte_bits b : 0 <= b -> (forall n, 8 <= n -> Z.testbit b n = false) -> is_byte b.
Proof.
  intros Hb Hn. split; [done|]. destruct (Z.eq_dec b 0) as [->|]; [lia|]. change 256 with (2 ^ 8).
  apply Z.log2_lt_pow2; [lia|]. destruct (Z.ltb_spec (Z.log2 b) 8); [done|]. pose proof (Z.bit_log2 b ltac:(lia)) as Ht. by rewrite Hn in Ht.
Qed.
Lemma byte_bits_high b n : is_byte b -> 8 <= n -> Z.testbit b n = false.
Proof. intros Hb Hn. unfold is_byte in Hb. apply (testbit_high b 8); lia. Qed.
(** The byte with bit [k] set to a color. *)
Definition colored_byte (b k color : Z) : Z :=
  if negb (color =? 0) then Z.lor b (2 ^ k) else Z.land b (Z.lxor 255 (2 ^ k)).
Lemma colored_byte_ok b k color : is_byte b -> 0 <= k < 8 -> is_byte (colored_byte b k color) /\
  forall n, 0 <= n < 8 -> Z.testbit (colored_byte b k color) n = if n =? k then colored color else Z.testbit b n.
Proof.
  intros Hb Hk. unfold colored_byte, colored. unfold is_byte in Hb. split.
  - apply is_byte_bits.
    + destruct (negb _); [apply Z.lor_nonneg|apply Z.land_nonneg]; lia.
    + intros n Hn. destruct (negb _); rewrite ?Z.lor_spec, ?Z.land_spec, ?Z.pow2_bits_eqb, byte_bits_high by done || lia; [|done].
      by apply Z.eqb_neq; lia.
  - intros n Hn. rewrite (Z.eqb_sym n k). destruct (color =? 0); cbn [negb].
    + rewrite Z.land_spec, Z.lxor_spec, Z.pow2_bits_eqb by lia. change 255 with (Z.ones 8). rewrite Z.ones_spec_low by lia.
      by destruct (k =? n), (Z.testbit b n).
    + rewrite Z.lor_spec, Z.pow2_bits_eqb by lia. by destruct (k =? n), (Z.testbit b n).
Qed.

Lemma drawPixel_shows r x y color buf f : shows r buf f ->
  exists buf', drawPixel r x y color buf = Some buf' /\ shows r buf' (paint x y (colored color) f).
Proof.
  intros [Hok Hf]. unfold drawPixel. unfold SHARPMEM_LCDWIDTH at 1, SHARPMEM_LCDHEIGHT at 1.
  destruct (decide (on_screen x y)) as [Hs|Hs].
  2: { exists buf. split.
    - unfold on_screen in Hs. destruct (Z.ltb_spec x 0), (Z.leb_spec 96 x), (Z.ltb_spec y 0), (Z.leb_spec 96 y); try done. lia.
    - split; [done|]. intros x' y' Hs'. unfold paint. destruct (Z.eqb_spec x' x), (Z.eqb_spec y' y); try by apply Hf. by subst. }
  pose proof Hs as [Hx Hy]. rewrite (proj2 (Z.ltb_ge x 0)), (proj2 (Z.leb_gt 96 x)), (proj2 (Z.ltb_ge y 0)), (proj2 (Z.leb_gt 96 y)) by lia. cbn [orb].
  pose proof (rotate_screen r x y Hs) as Hr. destruct (rotate r x y) as [x1 y1] eqn:Er. cbn [fst snd] in Hr. pose proof (byte_at_lt x1 y1 Hr) as Hb.
  destruct Hr as [Hx1 Hy1]. unfold SHARPMEM_LCDWIDTH. rewrite Z.quot_div_nonneg by lia. fold (byte_at x1 y1).
  destruct Hok as [Hl Hbytes]. destruct (lookup_lt_is_Some_2 buf (byte_at x1 y1)) as [b Eb]; [lia|]. rewrite Eb. cbn [mbind option_bind].
  destruct (column_bit x1 ltac:(lia)) as [-> Hm]. destruct (bit_tables (Z.to_nat (x1 mod 8)) ltac:(lia)) as [-> ->]. rewrite Z2Nat.id by lia.
  fold (colored_byte b (x1 mod 8) color). assert (Hbb : is_byte b) by by eapply Forall_lookup_1.
  destruct (colored_byte_ok b (x1 mod 8) color Hbb Hm) as [Hnb Hbit]. eexists. split; [reflexivity|].
  assert (Hok' : buffer_ok (<[byte_at x1 y1 := colored_byte b (x1 mod 8) color]> buf)).
  { split; [by rewrite length_insert|by apply Forall_insert]. }
  split; [exact Hok'|]. intros x' y' Hs'. rewrite getPixel_bit by done. f_equal. f_equal.
  pose proof (rotate_screen r x' y' Hs') as Hr'. pose proof (Hf x' y' Hs') as Hf'. rewrite getPixel_bit in Hf' by done.
  destruct (rotate r x' y') as [x2 y2] eqn:Er'. cbn [fst snd] in *. assert (Hfb : bit_of buf x2 y2 = f x' y').
  { injection Hf' as Hf'. by destruct (bit_of buf x2 y2), (f x' y'). }
  unfold paint. destruct (column_bit x2 ltac:(unfold on_screen in Hr'; lia)) as [_ Hm2].
  assert (Hsame : (x' =? x) && (y' =? y) = bool_decide (byte_at x2 y2 = byte_at x1 y1 /\ x2 mod 8 = x1 mod 8)).
  { apply eq_true_iff_eq. rewrite andb_true_iff, !Z.eqb_eq, bool_decide_eq_true. split.
    - intros [-> ->]. rewrite Er in Er'. injection Er' as -> ->. done.
    - intros [Eb2 Em2]. destruct (byte_at_inj x2 y2 x1 y1 Hr' (conj Hx1 Hy1) Eb2 Em2) as [-> ->]. apply (rotate_inj r). by rewrite Er, Er'. }
  rewrite Hsame. unfold bit_of. destruct (decide (byte_at x2 y2 = byte_at x1 y1)) as [E2|E2].
  - rewrite E2. rewrite (nth_lookup_Some _ _ 0 _ (list_lookup_insert_eq buf (byte_at x1 y1) _ ltac:(lia))), Hbit by done.
    destruct (Z.eqb_spec (x2 mod 8) (x1 mod 8)); [by rewrite bool_decide_eq_true_2|].
    rewrite bool_decide_eq_false_2 by naive_solver. rewrite <- Hfb. unfold bit_of. by rewrite E2, (nth_lookup_Some _ _ _ _ Eb).
  - rewrite bool_decide_eq_false_2 by naive_solver. rewrite !nth_lookup, list_lookup_insert_ne by done. rewrite <- Hfb. unfold bit_of. by rewrite nth_lookup.
Qed.

(** ** Lines *)

(** The picture with all the pixels of a list in a color. *)
Definition paints (l : list (Z * Z)) (c : bool) (f : Z -> Z -> bool) : Z -> Z -> bool :=
  fun x y => if bool_decide ((x, y) ∈ l) then c else f x y.
Lemma shows_ext r buf f g : (forall x y, f x y = g x y) -> shows r buf f -> shows r buf g.
Proof. intros E [Hok Hf]. split; [done|]. intros x y Hs. rewrite <- E. by apply Hf. Qed.
Lemma paints_cons x y l c f : forall x' y', paints l c (paint x y c f) x' y' = paints ((x, y) :: l) c f x' y'.
Proof.
  intros x' y'. unfold paints, paint. destruct (Z.eqb_spec x' x) as [->|], (Z.eqb_spec y' y) as [->|]; cbn [andb];
    repeat case_bool_decide; set_solver.
Qed.

(** The steps in the minor direction after [k] steps in the major one: the line of slope
    [dy / dx], rounded. *)
Definition minor (dx dy k : Z) : Z := (dy * k + dx - 1 - dx / 2) / dx.
Lemma minor_char dx dy k m : 0 < dx -> - (dx / 2) <= dx * m - dy * k < dx - dx / 2 -> minor dx dy k = m.
Proof. intros Hd Hm. unfold minor. symmetry. apply (Z.div_unique _ _ _ (dy * k + dx - 1 - dx / 2 - dx * m)); lia. Qed.

(** The pixels of the loop. *)
Definition line_pixels (steep : bool) (x0 y0 dx dy s : Z) (ks : list Z) : list (Z * Z) :=
  map (fun k => let x := x0 + k in let y := y0 + s * minor dx dy k in if steep then (y, x) else (x, y)) ks.
Definition coord (x : Z) : Prop := -8000 <= x <= 8000.

(** [m] steps were made in the minor direction, and [err] is the rest. *)
Lemma line_loop_shows r steep x0 y0 dx dy s color n : coord x0 -> coord y0 -> 0 <= dy <= dx -> dx <= 16000 -> s = 1 \/ s = -1 ->
  forall fuel k m buf f, (n < fuel)%nat -> k + Z.of_nat n = dx + 1 -> 0 <= k -> 0 <= m <= k -> 0 <= dx / 2 - dy * k + dx * m ->
  (dx = 0 -> m = 0) -> (0 < dx -> dx / 2 - dy * k + dx * m < dx) -> shows r buf f ->
  exists buf', line_loop fuel r steep (x0 + k) (x0 + dx) (y0 + s * m) (dx / 2 - dy * k + dx * m) dx dy s color buf = Some buf' /\
    shows r buf' (paints (line_pixels steep x0 y0 dx dy s (seqZ k (Z.of_nat n))) (colored color) f).
Proof.
  intros Hx0 Hy0 Hd Hdx Hs. unfold coord in *. induction n as [|n IH]; intros fuel k m buf f Hf Hk Hk0 Hm He Hm0 He1 Hsh.
  { destruct fuel as [|fuel]; [lia|]. cbn [line_loop]. rewrite (proj2 (Z.leb_gt (x0 + k) (x0 + dx))) by lia. exists buf. split; [done|].
    revert Hsh. apply shows_ext. intros x y. unfold paints. by rewrite bool_decide_eq_false_2 by apply not_elem_of_nil. }
  destruct fuel as [|fuel]; [lia|]. cbn [line_loop]. rewrite (proj2 (Z.leb_le (x0 + k) (x0 + dx))) by lia.
  set (px := if steep then (y0 + s * m, x0 + k) else (x0 + k, y0 + s * m)).
  assert (Hdraw : exists buf1, (if steep then drawPixel r (y0 + s * m) (x0 + k) color buf else drawPixel r (x0 + k) (y0 + s * m) color buf) = Some buf1 /\
    shows r buf1 (paint px.1 px.2 (colored color) f)) by (unfold px; destruct steep; by apply drawPixel_shows).
  destruct Hdraw as (buf1 & -> & Hsh1). cbn [mbind option_bind].
  assert (Em : minor dx dy k = m).
  { destruct (Z.eq_dec dx 0) as [->|Hne]; [rewrite Hm0 by done; unfold minor; by rewrite Z.div_0_r|]. apply minor_char; lia. }
  assert (Epx : line_pixels steep x0 y0 dx dy s (seqZ k (Z.of_nat (S n))) = px :: line_pixels steep x0 y0 dx dy s (seqZ (Z.succ k) (Z.of_nat n))).
  { rewrite seqZ_cons by lia. unfold line_pixels at 1. cbn [map]. rewrite Em. f_equal. replace (Z.pred (Z.of_nat (S n))) with (Z.of_nat n) by lia. done. }
  assert (Hsm : -16000 <= s * m <= 16000) by lia.
  set (e := dx / 2 - dy * k + dx * m) in *.
  assert (Hemax : e <= 16000).
  { destruct (Z.eq_dec dx 0) as [Hz|]; [|lia]. unfold e. rewrite Hz, (Hm0 Hz). assert (dy = 0) as -> by lia. by vm_compute. }
  rewrite (s16_small (e - dy)), (s16_small (x0 + k + 1)) by lia.
  assert (E1 : dx / 2 - dy * Z.succ k + dx * (m + 1) = e - dy + dx) by (unfold e; ring).
  assert (E0 : dx / 2 - dy * Z.succ k + dx * m = e - dy) by (unfold e; ring).
  assert (Hnext : exists m', (if e - dy <? 0 then (s16 (y0 + s * m + s), s16 (e - dy + dx)) else (y0 + s * m, e - dy)) =
    (y0 + s * m', dx / 2 - dy * Z.succ k + dx * m') /\ 0 <= m' <= Z.succ k /\ 0 <= dx / 2 - dy * Z.succ k + dx * m' /\
    (dx = 0 -> m' = 0) /\ (0 < dx -> dx / 2 - dy * Z.succ k + dx * m' < dx)).
  { clearbody e. destruct (Z.ltb_spec (e - dy) 0).
    - exists (m + 1). rewrite E1, !s16_small by lia. split; [f_equal; lia|]. lia.
    - exists m. rewrite E0. split; [done|]. lia. }
  destruct Hnext as (m' & -> & Hm' & He' & Hm0' & He1'). replace (x0 + k + 1) with (x0 + Z.succ k) by lia.
  destruct (IH fuel (Z.succ k) m' buf1 _ ltac:(lia) ltac:(lia) ltac:(lia) Hm' He' Hm0' He1' Hsh1) as (buf2 & E2 & Hsh2).
  exists buf2. split; [exact E2|]. rewrite Epx. revert Hsh2. apply shows_ext. intros x y. rewrite paints_cons. by destruct px.
Qed.

(** The line from one point to another: the axes are exchanged if it is steep, and the ends
    so that the major coordinate grows. *)
Definition line_steep (x0 y0 x1 y1 : Z) : bool := Z.abs (x1 - x0) <? Z.abs (y1 - y0).
Definition line_ends (x0 y0 x1 y1 : Z) : Z * Z * Z * Z :=
  let '(x0, y0, x1, y1) := if line_steep x0 y0 x1 y1 then (y0, x0, y1, x1) else (x0, y0, x1, y1) in
  if x1 <? x0 then (x1, y1, x0, y0) else (x0, y0, x1, y1).
Definition line_points (x0 y0 x1 y1 : Z) : list (Z * Z) :=
  let '(a0, b0, a1, b1) := line_ends x0 y0 x1 y1 in
  line_pixels (line_steep x0 y0 x1 y1) a0 b0 (a1 - a0) (Z.abs (b1 - b0)) (if b0 <? b1 then 1 else -1) (seqZ 0 (a1 - a0 + 1)).

(** What the exchange gives, for the coordinates and for the side of the line a point is on. *)
Lemma line_ends_spec x0 y0 x1 y1 a0 b0 a1 b1 : line_ends x0 y0 x1 y1 = (a0, b0, a1, b1) ->
  let pt := fun a b : Z => if line_steep x0 y0 x1 y1 then (b, a) else (a, b) in
  0 <= Z.abs (b1 - b0) <= a1 - a0 /\
  (pt a0 b0 = (x0, y0) /\ pt a1 b1 = (x1, y1) \/ pt a0 b0 = (x1, y1) /\ pt a1 b1 = (x0, y0)) /\
  a1 - a0 = Z.max (Z.abs (x1 - x0)) (Z.abs (y1 - y0)) /\
  forall a b, Z.abs ((x1 - x0) * ((pt a b).2 - y0) - (y1 - y0) * ((pt a b).1 - x0)) = Z.abs ((a1 - a0) * (b - b0) - (b1 - b0) * (a - a0)).
Proof.
  unfold line_ends. destruct (line_steep x0 y0 x1 y1) eqn:Es; unfold line_steep in Es; zbool.
  - destruct (Z.ltb_spec y1 y0); intros E; injection E as <- <- <- <-; cbn [fst snd];
      (split; [lia|]; split; [tauto|]; split; [lia|]); intros a b; [f_equal; ring|].
    rewrite <- Z.abs_opp. f_equal. ring.
  - destruct (Z.ltb_spec x1 x0); intros E; injection E as <- <- <- <-; cbn [fst snd];
      (split; [lia|]; split; [tauto|]; split; [lia|]); intros a b; [|f_equal; ring].
    rewrite <- Z.abs_opp. f_equal. ring.
Qed.
Lemma minor_near dx dy k : 0 < dx -> 2 * Z.abs (dx * minor dx dy k - dy * k) <= dx.
Proof.
  intros Hd. unfold minor. pose proof (Z.div_mod (dy * k + dx - 1 - dx / 2) dx ltac:(lia)) as E.
  pose proof (Z.mod_pos_bound (dy * k + dx - 1 - dx / 2) dx Hd). pose proof (Z.div_mod dx 2 ltac:(lia)). pose proof (Z.mod_pos_bound dx 2 ltac:(lia)). lia.
Qed.
Lemma minor_ends dx dy : 0 <= dy <= dx -> minor dx dy 0 = 0 /\ minor dx dy dx = dy.
Proof.
  intros Hd. destruct (Z.eq_dec dx 0) as [->|]; [assert (dy = 0) as -> by lia; done|].
  pose proof (Z.div_mod dx 2 ltac:(lia)). pose proof (Z.mod_pos_bound dx 2 ltac:(lia)). split; apply minor_char; lia.
Qed.

Lemma line_points_near x0 y0 x1 y1 x y : (x, y) ∈ line_points x0 y0 x1 y1 ->
  2 * Z.abs ((x1 - x0) * (y - y0) - (y1 - y0) * (x - x0)) <= Z.max (Z.abs (x1 - x0)) (Z.abs (y1 - y0)).
Proof.
  unfold line_points. destruct (line_ends x0 y0 x1 y1) as [[[a0 b0] a1] b1] eqn:E. destruct (line_ends_spec _ _ _ _ _ _ _ _ E) as (Hd & _ & <- & Hc).
  intros Hin. apply list_elem_of_In, in_map_iff in Hin as (k & Ek & Hk). cbv zeta in Ek. specialize (Hc (a0 + k)).
  set (s := if b0 <? b1 then 1 else -1) in *. specialize (Hc (b0 + s * minor (a1 - a0) (Z.abs (b1 - b0)) k)). rewrite Ek in Hc. cbn [fst snd] in Hc.
  rewrite Hc. apply list_elem_of_In, elem_of_seqZ in Hk. set (dx := a1 - a0) in *. set (dy := Z.abs (b1 - b0)) in *.
  assert (Eb : b1 - b0 = s * dy) by (unfold s, dy; destruct (Z.ltb_spec b0 b1); lia). rewrite Eb.
  replace (dx * (b0 + s * minor dx dy k - b0) - s * dy * (a0 + k - a0)) with (s * (dx * minor dx dy k - dy * k)) by ring.
  rewrite Z.abs_mul. assert (Hs : Z.abs s = 1) by (unfold s; by destruct (b0 <? b1)). rewrite Hs, Z.mul_1_l.
  destruct (Z.eq_dec dx 0) as [Ez|]; [|apply minor_near; lia]. assert (k = 0) as -> by lia. assert (Hdy : dy = 0) by lia. rewrite Hdy, Ez. done.
Qed.
Lemma line_points_ends x0 y0 x1 y1 : (x0, y0) ∈ line_points x0 y0 x1 y1 /\ (x1, y1) ∈ line_points x0 y0 x1 y1 /\
  Z.of_nat (length (line_points x0 y0 x1 y1)) = Z.max (Z.abs (x1 - x0)) (Z.abs (y1 - y0)) + 1.
Proof.
  unfold line_points. destruct (line_ends x0 y0 x1 y1) as [[[a0 b0] a1] b1] eqn:E. destruct (line_ends_spec _ _ _ _ _ _ _ _ E) as (Hd & Hp & <- & _).
  set (s := if b0 <? b1 then 1 else -1) in *. set (l := line_pixels _ _ _ _ _ _ _).
  destruct (minor_ends (a1 - a0) (Z.abs (b1 - b0)) Hd) as [M0 M1].
  assert (H0 : (if line_steep x0 y0 x1 y1 then (b0, a0) else (a0, b0)) ∈ l).
  { apply list_elem_of_In, in_map_iff. exists 0. rewrite M0, Z.mul_0_r, !Z.add_0_r. split; [done|]. apply list_elem_of_In, elem_of_seqZ. lia. }
  assert (H1 : (if line_steep x0 y0 x1 y1 then (b1, a1) else (a1, b1)) ∈ l).
  { apply list_elem_of_In, in_map_iff. exists (a1 - a0). rewrite M1. assert (Eb : b0 + s * Z.abs (b1 - b0) = b1) by (unfold s; destruct (Z.ltb_spec b0 b1); lia).
    rewrite Eb. replace (a0 + (a1 - a0)) with a1 by lia. split; [done|]. apply list_elem_of_In, elem_of_seqZ. lia. }
  assert (Hl : length l = Z.to_nat (a1 - a0 + 1)) by (unfold l, line_pixels; by rewrite length_map, length_seqZ).
  destruct Hp as [[<- <-] | [<- <-]]; (split; [done|]; split; [done|]; rewrite Hl; lia).
Qed.

Lemma drawLine_shows r x0 y0 x1 y1 color buf f : coord x0 -> coord y0 -> coord x1 -> coord y1 -> shows r buf f ->
  exists buf', drawLine r x0 y0 x1 y1 color buf = Some buf' /\ shows r buf' (paints (line_points x0 y0 x1 y1) (colored color) f).
Proof.
  intros Hx0 Hy0 Hx1 Hy1 Hsh. unfold drawLine, line_points. fold (line_steep x0 y0 x1 y1).
  destruct (line_ends x0 y0 x1 y1) as [[[a0 b0] a1] b1] eqn:E. destruct (line_ends_spec _ _ _ _ _ _ _ _ E) as (Hd & _ & Hmax & _).
  assert (Hc : coord a0 /\ coord b0 /\ coord a1 /\ coord b1).
  { clear Hd Hmax. unfold line_ends in E. repeat case_match; simplify_eq; done. }
  assert (En : (let '(x0', y0') := if line_steep x0 y0 x1 y1 then (y0, x0) else (x0, y0) in
    let '(x1', y1') := if line_steep x0 y0 x1 y1 then (y1, x1) else (x1, y1) in
    if x1' <? x0' then (x1', x0', y1', y0') else (x0', x1', y0', y1')) = (a0, a1, b0, b1)).
  { clear Hd Hmax. unfold line_ends in E. destruct (line_steep x0 y0 x1 y1); repeat case_match; simplify_eq; done. }
  destruct Hc as (Ha0 & Hb0 & Ha1 & Hb1). unfold coord in *.
  destruct (line_loop_shows r (line_steep x0 y0 x1 y1) a0 b0 (a1 - a0) (Z.abs (b1 - b0)) (if b0 <? b1 then 1 else -1) color (Z.to_nat (a1 - a0 + 1))
    ltac:(unfold coord; lia) ltac:(unfold coord; lia) Hd ltac:(lia) ltac:(destruct (b0 <? b1); auto) (Z.to_nat (a1 - a0 + 2)) 0 0 buf f)
    as (buf' & Eb & Hs'); try lia; try done.
  { rewrite !Z.mul_0_r, Z.sub_0_r, Z.add_0_r. apply Z.div_pos; lia. }
  { intros Hp. rewrite !Z.mul_0_r, Z.sub_0_r, Z.add_0_r. apply Z.div_lt; lia. }
  rewrite !Z.mul_0_r, Z.sub_0_r, !Z.add_0_r in Eb. replace (a0 + (a1 - a0)) with a1 in Eb by lia.
  exists buf'. split; [|by rewrite Z2Nat.id in Hs' by lia].
  destruct (if line_steep x0 y0 x1 y1 then (y0, x0) else (x0, y0)) as [p q]. destruct (if line_steep x0 y0 x1 y1 then (y1, x1) else (x1, y1)) as [p' q'].
  rewrite En, !s16_small, Z.quot_div_nonneg by lia. exact Eb.
Qed.

(** C34: A line is the rounded line: for any two points (with coordinates up to 8000, on
    the screen or not), any rotation and color, drawLine returns and gives exactly the
    pixels of [line_points] the color, the other pixels of the picture stay as they are.
    Both end points are among them, there is one for each step along the longer axis,
    and each is at most half a pixel away from the exact line. *)
Theorem drawLine_exact r x0 y0 x1 y1 color buf f : coord x0 -> coord y0 -> coord x1 -> coord y1 -> shows r buf f ->
  let l := line_points x0 y0 x1 y1 in
  (exists buf', drawLine r x0 y0 x1 y1 color buf = Some buf' /\ shows r buf' (paints l (colored color) f)) /\
  (x0, y0) ∈ l /\ (x1, y1) ∈ l /\ Z.of_nat (length l) = Z.max (Z.abs (x1 - x0)) (Z.abs (y1 - y0)) + 1 /\
  forall x y, (x, y) ∈ l -> 2 * Z.abs ((x1 - x0) * (y - y0) - (y1 - y0) * (x - x0)) <= Z.max (Z.abs (x1 - x0)) (Z.abs (y1 - y0)).
Proof.
  intros Hx0 Hy0 Hx1 Hy1 Hsh l. split; [by apply drawLine_shows|]. destruct (line_points_ends x0 y0 x1 y1) as (H0 & H1 & Hl).
  split; [done|]. split; [done|]. split; [done|]. intros x y. apply line_points_near.
Qed.

(** ** Rectangles *)

Lemma vline_points x y h x' y' : 1 <= h -> (x', y') ∈ line_points x y x (y + h - 1) <-> x' = x /\ y <= y' < y + h.
Proof.
  intros Hh. unfold line_points. destruct (line_ends x y x (y + h - 1)) as [[[a0 b0] a1] b1] eqn:E. unfold line_ends, line_steep in E.
  assert (Hm : forall k, minor (y + h - 1 - y) 0 k = 0).
  { intros k. unfold minor. set (dx := y + h - 1 - y). destruct (Z.eq_dec dx 0) as [->|]; [by rewrite Z.div_0_r|].
    pose proof (Z.div_mod dx 2 ltac:(lia)). pose proof (Z.mod_pos_bound dx 2 ltac:(lia)). symmetry.
    apply (Z.div_unique_pos _ _ _ (0 * k + dx - 1 - dx / 2)); lia. }
  unfold line_steep. destruct (Z.ltb_spec (Z.abs (x - x)) (Z.abs (y + h - 1 - y))).
  - rewrite (proj2 (Z.ltb_ge (y + h - 1) y)) in E by lia. injection E as <- <- <- <-. rewrite Z.sub_diag. change (Z.abs 0) with 0.
    unfold line_pixels. rewrite list_elem_of_In, in_map_iff. setoid_rewrite <- list_elem_of_In. setoid_rewrite elem_of_seqZ. setoid_rewrite Hm. setoid_rewrite Z.mul_0_r.
    split; [intros (k & Ek & Hk); injection Ek; lia|]. intros [-> Hy]. exists (y' - y). split; [f_equal; lia|lia].
  - rewrite (proj2 (Z.ltb_ge x x)) in E by lia. injection E as <- <- <- <-. assert (h = 1) as -> by lia.
    unfold line_pixels. rewrite list_elem_of_In, in_map_iff. setoid_rewrite <- list_elem_of_In. setoid_rewrite elem_of_seqZ.
    replace (Z.abs (y + 1 - 1 - y)) with 0 by lia. assert (Hz : forall k, minor 0 0 k = 0) by (intros k; apply Z.div_0_r). rewrite !Z.sub_diag. setoid_rewrite Hz. setoid_rewrite Z.mul_0_r.
    split; [intros (k & Ek & Hk); injection Ek; lia|]. intros [-> Hy]. exists 0. split; [f_equal; lia|lia].
Qed.

Definition in_rect (x y w h x' y' : Z) : bool := (x <=? x') && (x' <? x + w) && (y <=? y') && (y' <? y + h).
Definition filled (x y w h : Z) (c : bool) (f : Z -> Z -> bool) : Z -> Z -> bool := fun x' y' => if in_rect x y w h x' y' then c else f x' y'.
Lemma vline_shows r x y h color buf f : coord x -> coord y -> 1 <= h <= 8000 -> coord (y + h) -> shows r buf f ->
  exists buf', drawFastVLine r x y h color buf = Some buf' /\ shows r buf' (filled x y 1 h (colored color) f).
Proof.
  intros Hx Hy Hh Hyh Hsh. unfold drawFastVLine. unfold coord in *. rewrite s16_small by lia.
  destruct (drawLine_shows r x y x (y + h - 1) color buf f) as (buf' & E & Hs); [unfold coord; lia..|done|]. exists buf'. split; [done|].
  revert Hs. apply shows_ext. intros x' y'. unfold paints, filled.
  assert (Eb : bool_decide ((x', y') ∈ line_points x y x (y + h - 1)) = in_rect x y 1 h x' y'); [|by rewrite Eb].
  apply eq_true_iff_eq. rewrite bool_decide_eq_true, vline_points by lia. unfold in_rect. rewrite !andb_true_iff, !Z.leb_le, !Z.ltb_lt. lia.
Qed.

Lemma rect_loop_shows r y h color n : coord y -> 1 <= h <= 8000 -> coord (y + h) ->
  forall fuel i buf f, (n < fuel)%nat -> coord i -> coord (i + Z.of_nat n) -> shows r buf f ->
  exists buf', rect_loop fuel r i (i + Z.of_nat n) y h color buf = Some buf' /\ shows r buf' (filled i y (Z.of_nat n) h (colored color) f).
Proof.
  intros Hy Hh Hyh. induction n as [|n IH]; intros fuel i buf f Hf Hi Hin Hsh; (destruct fuel as [|fuel]; [lia|]); cbn [rect_loop].
  - rewrite (proj2 (Z.ltb_ge i (i + Z.of_nat 0))) by lia. exists buf. split; [done|]. revert Hsh. apply shows_ext. intros x' y'.
    unfold filled, in_rect. destruct (Z.leb_spec i x'), (Z.ltb_spec x' (i + Z.of_nat 0)); try done. lia.
  - rewrite (proj2 (Z.ltb_lt i (i + Z.of_nat (S n)))) by lia. destruct (vline_shows r i y h color buf f Hi Hy Hh Hyh Hsh) as (buf1 & -> & Hs1).
    cbn [mbind option_bind]. unfold coord in *. rewrite s16_small by lia. replace (i + Z.of_nat (S n)) with (i + 1 + Z.of_nat n) by lia.
    destruct (IH fuel (i + 1) buf1 _ ltac:(lia) ltac:(lia) ltac:(lia) Hs1) as (buf2 & E2 & Hs2). exists buf2. split; [exact E2|].
    revert Hs2. apply shows_ext. intros x' y'. unfold filled, in_rect.
    destruct (Z.leb_spec (i + 1) x'), (Z.ltb_spec x' (i + 1 + Z.of_nat n)), (Z.leb_spec y y'), (Z.ltb_spec y' (y + h)), (Z.leb_spec i x'), (Z.ltb_spec x' (i + 1)), (Z.ltb_spec x' (i + Z.of_nat (S n))); cbn [andb]; try done; lia.
Qed.

Lemma fillRect_shows r x y w h color buf f : coord x -> coord y -> coord (x + w) -> coord (y + h) -> 0 <= w -> 1 <= h <= 8000 -> shows r buf f ->
  exists buf', fillRect r x y w h color buf = Some buf' /\ shows r buf' (filled x y w h (colored color) f).
Proof.
  intros Hx Hy Hxw Hyh Hw Hh Hsh. unfold fillRect.
  destruct (rect_loop_shows r y h color (Z.to_nat w) Hy Hh Hyh (Z.to_nat (Z.max 0 w + 1)) x buf f) as (buf' & E & Hs); [lia|done|by rewrite Z2Nat.id by lia|done|].
  rewrite Z2Nat.id in E, Hs by lia. by exists buf'.
Qed.

(** A rectangle is filled exactly: for any rotation, color, width and height of at
    least 1 and coordinates up to 8000, on the screen or not, fillRect returns, the
    pixels of the screen inside of the rectangle have the color afterwards and the
    others are as before. *)
Theorem fillRect_exact r x y w h color buf f : coord x -> coord y -> coord (x + w) -> coord (y + h) -> 0 <= w -> 1 <= h <= 8000 -> shows r buf f ->
  exists buf', fillRect r x y w h color buf = Some buf' /\ shows r buf' (filled x y w h (colored color) f).
Proof. apply fillRect_shows. Qed.

(** ** Characters *)

(** The pixels of a character: bit [j] of column [i]; the sixth column is empty. *)
Definition glyph (c i j : Z) : bool := Z.testbit (if i <? 5 then nth (Z.to_nat (c * 5 + i)) font 0 else 0) j.
(** A pixel of the character, over what was there. *)
Definition char_pixel (lit : bool) (color bg : Z) (old : bool) : bool :=
  if lit then colored color else if bg =? color then old else colored bg.
Definition drawn_char (c x y color bg size : Z) (f : Z -> Z -> bool) : Z -> Z -> bool := fun x' y' =>
  if in_rect x y (6 * size) (8 * size) x' y' then char_pixel (glyph c ((x' - x) / size) ((y' - y) / size)) color bg (f x' y') else f x' y'.

Section char.
Context (r x y color bg size : Z) (Hsize : 1 <= size <= 255) (Hx : coord x) (Hy : coord y) (Hxw : coord (x + 6 * size)) (Hyh : coord (y + 8 * size)).

Lemma block_shows i j c buf f : 0 <= i < 6 -> 0 <= j < 8 -> shows r buf f ->
  exists buf', (if size =? 1 then drawPixel r (s16 (x + i)) (s16 (y + j)) c buf else fillRect r (s16 (x + i * size)) (s16 (y + j * size)) size size c buf) = Some buf' /\
    shows r buf' (filled (x + i * size) (y + j * size) size size (colored c) f).
Proof.
  intros Hi Hj Hsh. unfold coord in *. assert (0 <= i * size <= 5 * size) by nia. assert (0 <= j * size <= 7 * size) by nia.
  destruct (Z.eqb_spec size 1) as [E|].
  - rewrite !s16_small by lia. destruct (drawPixel_shows r (x + i) (y + j) c buf f Hsh) as (buf' & Eb & Hs). exists buf'. split; [done|].
    revert Hs. apply shows_ext. intros x' y'. rewrite E, !Z.mul_1_r. unfold paint, filled, in_rect.
    destruct (Z.eqb_spec x' (x + i)), (Z.eqb_spec y' (y + j)), (Z.leb_spec (x + i) x'), (Z.ltb_spec x' (x + i + 1)), (Z.leb_spec (y + j) y'), (Z.ltb_spec y' (y + j + 1)); cbn [andb]; try done; lia.
  - rewrite !s16_small by lia. apply fillRect_shows; unfold coord; lia || done.
Qed.

(** The rows of a column from [j] on. *)
Lemma char_column_shows i l n : 0 <= i < 6 -> forall j line buf f, 0 <= j -> j + Z.of_nat n = 8 -> line = Z.shiftr l j -> shows r buf f ->
  exists buf', char_column n r x y i j line color bg size buf = Some buf' /\
    shows r buf' (fun x' y' => if in_rect (x + i * size) (y + j * size) size (Z.of_nat n * size) x' y'
      then char_pixel (Z.testbit l ((y' - y) / size)) color bg (f x' y') else f x' y').
Proof.
  intros Hi. induction n as [|n IH]; intros j line buf f Hj Hn -> Hsh.
  { exists buf. split; [done|]. revert Hsh. apply shows_ext. intros x' y'. unfold in_rect. change (Z.of_nat 0 * size) with 0. rewrite Z.add_0_r.
    destruct (Z.leb_spec (y + j * size) y'), (Z.ltb_spec y' (y + j * size)); rewrite ?andb_false_r; try done. lia. }
  cbn [char_column]. assert (Hb : negb (Z.land (Z.shiftr l j) 1 =? 0) = Z.testbit l j).
  { change 1 with (Z.ones 1). rewrite Z.land_ones, <- Z.bit0_mod, Z.shiftr_spec, Z.add_0_l by lia. by destruct (Z.testbit l j). }
  rewrite Hb. set (g := fun x' y' => if in_rect (x + i * size) (y + j * size) size size x' y' then char_pixel (Z.testbit l j) color bg (f x' y') else f x' y').
  assert (Hcell : exists buf1, (if Z.testbit l j then (if size =? 1 then drawPixel r (s16 (x + i)) (s16 (y + j)) color buf else fillRect r (s16 (x + i * size)) (s16 (y + j * size)) size size color buf)
      else if negb (bg =? color) then (if size =? 1 then drawPixel r (s16 (x + i)) (s16 (y + j)) bg buf else fillRect r (s16 (x + i * size)) (s16 (y + j * size)) size size bg buf) else Some buf) = Some buf1 /\ shows r buf1 g).
  { unfold g, char_pixel. destruct (Z.testbit l j); [apply (block_shows i j color buf f); lia || done|].
    destruct (bg =? color); cbn [negb]; [|apply (block_shows i j bg buf f); lia || done].
    exists buf. split; [done|]. revert Hsh. apply shows_ext. intros x' y'. by destruct (in_rect _ _ _ _ _ _). }
  destruct Hcell as (buf1 & -> & Hs1). cbn [mbind option_bind].
  destruct (IH (j + 1) (Z.shiftr (Z.shiftr l j) 1) buf1 g ltac:(lia) ltac:(lia) ltac:(by rewrite Z.shiftr_shiftr by lia) Hs1) as (buf2 & E2 & Hs2).
  exists buf2. split; [exact E2|]. revert Hs2. apply shows_ext. intros x' y'. unfold g, in_rect.
  replace (y + (j + 1) * size) with (y + j * size + size) by ring. replace (Z.of_nat (S n) * size) with (Z.of_nat n * size + size) by lia.
  assert (0 <= Z.of_nat n * size) by nia. set (nn := Z.of_nat n * size) in *.
  destruct (Z.leb_spec (x + i * size) x'), (Z.ltb_spec x' (x + i * size + size)); cbn [andb]; try done.
  destruct (Z.leb_spec (y + j * size + size) y'), (Z.ltb_spec y' (y + j * size + size + nn)), (Z.leb_spec (y + j * size) y'), (Z.ltb_spec y' (y + j * size + size)), (Z.ltb_spec y' (y + j * size + (nn + size)));
    cbn [andb]; try done; try lia.
  by replace ((y' - y) / size) with j by (apply (Z.div_unique _ _ _ (y' - y - j * size)); lia).
Qed.

Lemma char_columns_shows c n : 0 <= c < 256 -> forall i buf f, 0 <= i -> i + Z.of_nat n = 6 -> shows r buf f ->
  exists buf', char_columns n r x y c i color bg size buf = Some buf' /\
    shows r buf' (fun x' y' => if in_rect (x + i * size) y (Z.of_nat n * size) (8 * size) x' y'
      then char_pixel (glyph c ((x' - x) / size) ((y' - y) / size)) color bg (f x' y') else f x' y').
Proof.
  intros Hc. induction n as [|n IH]; intros i buf f Hi Hn Hsh.
  { exists buf. split; [done|]. revert Hsh. apply shows_ext. intros x' y'. unfold in_rect. change (Z.of_nat 0 * size) with 0. rewrite Z.add_0_r.
    destruct (Z.leb_spec (x + i * size) x'), (Z.ltb_spec x' (x + i * size)); cbn [andb]; try done. lia. }
  cbn [char_columns]. set (l := if i <? 5 then nth (Z.to_nat (c * 5 + i)) font 0 else 0).
  assert (El : (if i <? 5 then font !! Z.to_nat (c * 5 + i) else Some 0) = Some l).
  { unfold l. destruct (Z.ltb_spec i 5); [|done]. destruct (lookup_lt_is_Some_2 font (Z.to_nat (c * 5 + i))) as [b Eb].
    { change (length font) with 1280%nat. lia. }
    by rewrite Eb, (nth_lookup_Some _ _ _ _ Eb). }
  rewrite El. cbn [mbind option_bind].
  destruct (char_column_shows i l 8 ltac:(lia) 0 l buf f ltac:(lia) ltac:(lia) ltac:(by rewrite Z.shiftr_0_r) Hsh) as (buf1 & -> & Hs1). cbn [mbind option_bind].
  destruct (IH (i + 1) buf1 _ ltac:(lia) ltac:(lia) Hs1) as (buf2 & E2 & Hs2). exists buf2. split; [exact E2|]. revert Hs2. apply shows_ext. intros x' y'.
  unfold in_rect. replace (x + (i + 1) * size) with (x + i * size + size) by ring. replace (Z.of_nat (S n) * size) with (Z.of_nat n * size + size) by lia.
  change (0 * size) with 0. rewrite Z.add_0_r. change (Z.of_nat 8) with 8. assert (0 <= Z.of_nat n * size) by nia. set (nn := Z.of_nat n * size) in *.
  destruct (Z.leb_spec y y'), (Z.ltb_spec y' (y + 8 * size)); rewrite ?andb_false_r, ?andb_true_r; try done.
  destruct (Z.leb_spec (x + i * size + size) x'), (Z.ltb_spec x' (x + i * size + size + nn)), (Z.leb_spec (x + i * size) x'), (Z.ltb_spec x' (x + i * size + size)), (Z.ltb_spec x' (x + i * size + (nn + size)));
    cbn [andb]; try done; try lia.
  unfold glyph. replace ((x' - x) / size) with i by (apply (Z.div_unique _ _ _ (x' - x - i * size)); lia). done.
Qed.

(** A character is drawn by its glyph in the font, in squares of [size] pixels: the
    squares of the glyph get the color, the others the background, or stay as they are
    if the background is the color.  From 176 on the glyph is the next one. *)
Theorem drawChar_exact c buf f : 0 <= c < 256 -> shows r buf f ->
  exists buf', drawChar r x y c color bg size buf = Some buf' /\
    shows r buf' (drawn_char (if 176 <=? c then u8 (c + 1) else c) x y color bg size f).
Proof.
  intros Hc Hsh. unfold drawChar. change SHARPMEM_LCDWIDTH with 96. change SHARPMEM_LCDHEIGHT with 96.
  set (c' := if 176 <=? c then u8 (c + 1) else c). assert (Hc' : 0 <= c' < 256).
  { unfold c', u8. destruct (176 <=? c); [|done]. change 256 with (2 ^ 8). by apply Z.mod_pos_bound. }
  destruct ((96 <=? x) || (96 <=? y) || (x + 6 * size - 1 <? 0) || (y + 8 * size - 1 <? 0)) eqn:Eclip.
  - exists buf. split; [done|]. destruct Hsh as [Hok Hf]. split; [done|]. intros x' y' Hs. rewrite Hf by done. f_equal. f_equal.
    unfold drawn_char, in_rect. unfold on_screen in Hs. rewrite !orb_true_iff, !Z.leb_le, !Z.ltb_lt in Eclip.
    destruct (Z.leb_spec x x'), (Z.ltb_spec x' (x + 6 * size)), (Z.leb_spec y y'), (Z.ltb_spec y' (y + 8 * size)); cbn [andb]; try done. lia.
  - destruct (char_columns_shows c' 6 Hc' 0 buf f ltac:(lia) ltac:(lia) Hsh) as (buf' & E & Hs). exists buf'. split; [exact E|].
    revert Hs. apply shows_ext. intros x' y'. unfold drawn_char. by rewrite Z.mul_0_l, Z.add_0_r.
Qed.
End char.

(** ** Witnesses *)

(** The empty buffer, and a line and a rectangle in it. *)
Lemma empty_shows r : shows r (replicate 1152 0) (fun _ _ => false).
Proof.
  assert (Hok : buffer_ok (replicate 1152 0)) by (split; [done|by apply bytes_check]). split; [exact Hok|].
  intros x y Hs. rewrite getPixel_bit by done. unfold bit_of. rewrite nth_lookup.
  destruct (replicate 1152 0 !! _) as [b|] eqn:E; [apply lookup_replicate in E as [-> _]|]; cbn [default from_option id]; by rewrite Z.bits_0.
Qed.
Lemma drawLine_exact_witness :
  exists buf', drawLine 1 90 3 99 (-2) 1 (replicate 1152 0) = Some buf' /\ getPixel 1 93 1 buf' = Some 1 /\ getPixel 1 95 1 buf' = Some 0.
Proof.
  destruct (drawLine_exact 1 90 3 99 (-2) 1 (replicate 1152 0) (fun _ _ => false)) as ((buf' & E & _ & Hs) & _);
    [unfold coord; lia..|apply empty_shows|].
  exists buf'. split; [exact E|]. rewrite !Hs by (unfold on_screen; lia). clear. split; vm_compute; reflexivity.
Defined.
Lemma fillRect_exact_witness :
  exists buf', fillRect 3 (-4) 90 10 20 1 (replicate 1152 0) = Some buf' /\ getPixel 3 5 95 buf' = Some 1 /\ getPixel 3 6 95 buf' = Some 0.
Proof.
  destruct (fillRect_exact 3 (-4) 90 10 20 1 (replicate 1152 0) (fun _ _ => false)) as (buf' & E & _ & Hs);
    [unfold coord; lia..|lia|lia|apply empty_shows|].
  exists buf'. split; [exact E|]. rewrite !Hs by (unfold on_screen; lia). clear. split; reflexivity.
Defined.
