(* ===== verification/SharpmemPanel.v ===== *)
(** * What the display shows

    A panel on the pins of the chip: it takes in a bit at each rising edge of the clock
    while it is selected, and when it is deselected it does what the bits say, as in its
    data sheet: the mode, then for each line the address, 96 pixels and eight more bits.
    After a refresh the panel shows the frame buffer ([sharp_refresh_shows]), and with it
    what was drawn. *)

From S2P Require Import Prelude Gpio EspRegs EspGpio OnewireSearch Sharpmem SharpmemDraw.
Local Open Scope Z_scope.

(** ** The panel *)

(** With its select line at pin [cs].  [pn_bits]: the bits since it was selected;
    [pn_line]: the pixels of a line, a 1 is white. *)
Record panel (cs : Z) := Panel { pn_bits : list bool; pn_line : Z -> list bool }.
Arguments Panel {cs}.
Arguments pn_bits {cs}.
Arguments pn_line {cs}.
Definition set_line (n : Z) (l : list bool) (lines : Z -> list bool) : Z -> list bool := fun m => if m =? n then l else lines m.
(** Lines as long as there is one in the bits. *)
Fixpoint take_lines (fuel : nat) (bits : list bool) (lines : Z -> list bool) : Z -> list bool :=
  match fuel with
  | O => lines
  | S fuel =>
      if (length bits <? 112)%nat then lines
      else take_lines fuel (drop 112 bits) (set_line (bits_val (take 8 bits)) (take 96 (drop 8 bits)) lines)
  end.
(** The first bit of the mode is "write", the third "clear". *)
Definition take_command (bits : list bool) (lines : Z -> list bool) : Z -> list bool :=
  match bits with
  | true :: _ => take_lines (length bits) (drop 8 bits) lines
  | false :: _ :: true :: _ => fun _ => replicate 96 true
  | _ => lines
  end.

Definition level (g : gpio_regs) (p : Z) : bool := bool_decide (drives g p = Some true).
#[export] Instance panel_pads (cs : Z) : Pads (panel cs) := {|
  pad_update := fun g g' e =>
    match level g cs, level g' cs with
    | false, true => Panel [] (pn_line e)
    | true, false => Panel [] (take_command (pn_bits e) (pn_line e))
    | true, true =>
        if negb (level g 14) && level g' 14 then Panel (pn_bits e ++ [level g' 13]) (pn_line e) else e
    | false, false => e
    end;
  pad_in := fun _ e => (0, e);
  pad_delay := fun _ e => e
|}.

(** ** Pins that are outputs *)

Definition pushpull (g : gpio_regs) (p : Z) : Prop := output_on g p = true /\ Z.testbit (CONF g p) 2 = false.
Lemma pushpull_level g p : pushpull g p -> level g p = Z.testbit (OUT g) p.
Proof. intros [Ho Hc]. unfold level, drives. rewrite Ho, Hc. by destruct (Z.testbit (OUT g) p). Qed.

Section panel.
Context {H : Type} (cs : Z) (Hcs : 0 <= cs < 16) (Hne : cs <> 12 /\ cs <> 13 /\ cs <> 14).
Notation device := (soc H (panel cs)).
Notation world := (sharp H (panel cs)).

Definition wired (c : device) : Prop := pushpull (gpio c) 13 /\ pushpull (gpio c) 14 /\ pushpull (gpio c) cs.
(** The panel is selected and has taken in [bits]. *)
Definition clocked (c : device) (bits : list bool) (lines : Z -> list bool) : Prop :=
  wired c /\ Z.testbit (OUT (gpio c)) cs = true /\ EspRegs.world c = Panel bits lines.

Definition out_to (p : Z) (b : bool) (g : gpio_regs) : gpio_regs := with_OUT (if b then Z.lor (OUT g) (BIT p) else Z.ldiff (OUT g) (BIT p)) g.
Lemma out_to_bit p b g q : 0 <= p -> 0 <= q -> Z.testbit (OUT (out_to p b g)) q = if p =? q then b else Z.testbit (OUT g) q.
Proof.
  intros Hp Hq. unfold out_to. cbn [OUT with_OUT]. destruct b; autorewrite with esp_bits; destruct (p =? q);
    by rewrite ?orb_true_r, ?orb_false_r, ?andb_true_r, ?andb_false_r.
Qed.
(** A write to a pin, and what the panel makes of it. *)
Lemma write_run p b (c : device) : 0 <= p < 16 ->
  esp_gpio_write p b c = Some ((), set_gpio (out_to p b (gpio c)) c).
Proof. intros Hp. by rewrite gpio_write_run. Qed.
Lemma set_out_wired p b (c : device) : wired c -> wired (set_gpio (out_to p b (gpio c)) c).
Proof. done. Qed.
Lemma set_out_clocked p b (c : device) bits lines : 0 <= p < 16 -> p <> cs -> clocked c bits lines ->
  clocked (set_gpio (out_to p b (gpio c)) c)
    (if (p =? 14) && b && negb (Z.testbit (OUT (gpio c)) 14) then bits ++ [Z.testbit (OUT (gpio c)) 13] else bits) lines.
Proof.
  intros Hp Hpc (Hw & Hs & He). split; [by apply set_out_wired|]. destruct Hw as (H13 & H14 & Hc).
  cbn [gpio set_gpio EspRegs.world]. split; [rewrite out_to_bit by lia; by rewrite (proj2 (Z.eqb_neq p cs))|].
  cbn [pad_update panel_pads]. set (g' := out_to p b (gpio c)).
  assert (L : forall q, q = 13 \/ q = 14 \/ q = cs -> level (gpio c) q = Z.testbit (OUT (gpio c)) q /\ level g' q = if p =? q then b else Z.testbit (OUT (gpio c)) q).
  { intros q Hq. assert (Hpq : pushpull (gpio c) q) by (destruct Hq as [-> | [-> | ->]]; done).
    split; [by apply pushpull_level|]. rewrite pushpull_level by exact Hpq. unfold g'. apply out_to_bit; [lia|]. destruct Hq as [-> | [-> | ->]]; lia. }
  destruct (L cs ltac:(auto)) as [-> ->], (L 14 ltac:(auto)) as [-> ->], (L 13 ltac:(auto)) as [_ ->].
  rewrite (proj2 (Z.eqb_neq p cs)), Hs, He by done. cbn [pn_bits pn_line].
  destruct (Z.eqb_spec p 14) as [->|]; cbn [andb]; [|by destruct (Z.testbit (OUT (gpio c)) 14)].
  change (14 =? 13) with false. by destruct b, (Z.testbit (OUT (gpio c)) 14).
Qed.

(** ** Bytes on the wires *)

(** From a selected panel the call sends these bits and changes nothing but the chip. *)
Definition sends (m : ST world unit) (l : list bool) : Prop :=
  forall (s : world) bits lines, clocked (chip s) bits lines ->
  exists c, m s = Some ((), with_chip c s) /\ clocked c (bits ++ l) lines.
Lemma sends_ret : sends (mret ()) [].
Proof. intros s bits lines Hc. exists (chip s). rewrite app_nil_r. split; [by destruct s|done]. Qed.
Lemma sends_seq m1 m2 l1 l2 : sends m1 l1 -> sends m2 l2 -> sends (m1;; m2) (l1 ++ l2).
Proof.
  intros H1 H2 s bits lines Hc. destruct (H1 s bits lines Hc) as (c1 & E1 & Hc1).
  destruct (H2 (with_chip c1 s) (bits ++ l1) lines Hc1) as (c2 & E2 & Hc2). exists c2. rewrite app_assoc. split; [|done].
  by rewrite (bind_run _ _ _ _ _ E1).
Qed.

Lemma on_chip_write p b (s : world) : 0 <= p < 16 -> on_chip (gpio_write p b) s = Some ((), with_chip (set_gpio (out_to p b (gpio (chip s))) (chip s)) s).
Proof. intros Hp. unfold on_chip. cbn [gpio_write esp_pins]. by rewrite write_run. Qed.
Lemma sends_low p b : 0 <= p < 16 -> p <> cs -> (p = 14 -> b = false) -> sends (on_chip (gpio_write p b)) [].
Proof.
  intros Hp Hpc Hb s bits lines Hc. rewrite on_chip_write by done. eexists. split; [reflexivity|]. rewrite app_nil_r.
  pose proof (set_out_clocked p b (chip s) bits lines Hp Hpc Hc) as Hk.
  destruct (Z.eqb_spec p 14) as [Hz|]; [|exact Hk]. rewrite (Hb Hz) in Hk |- *. exact Hk.
Qed.
(** Clock low, data, clock high. *)
Lemma sends_bit b k l : sends k l -> sends (on_chip (gpio_write 14 false);; on_chip (gpio_write 13 b);; on_chip (gpio_write 14 true);; k) (b :: l).
Proof.
  intros Hk s bits lines Hc. rewrite (bind_run _ _ _ _ _ (on_chip_write 14 false s ltac:(lia))).
  set (s1 := with_chip (set_gpio (out_to 14 false (gpio (chip s))) (chip s)) s).
  pose proof (set_out_clocked 14 false (chip s) bits lines ltac:(lia) ltac:(lia) Hc) as Hc1. cbn [Z.eqb Pos.eqb andb] in Hc1.
  rewrite (bind_run _ _ _ _ _ (on_chip_write 13 b s1 ltac:(lia))).
  set (s2 := with_chip (set_gpio (out_to 13 b (gpio (chip s1))) (chip s1)) s1).
  pose proof (set_out_clocked 13 b (chip s1) bits lines ltac:(lia) ltac:(lia) Hc1) as Hc2. cbn [Z.eqb Pos.eqb andb] in Hc2.
  rewrite (bind_run _ _ _ _ _ (on_chip_write 14 true s2 ltac:(lia))).
  pose proof (set_out_clocked 14 true (chip s2) bits lines ltac:(lia) ltac:(lia) Hc2) as Hc3.
  assert (E14 : Z.testbit (OUT (gpio (chip s2))) 14 = false) by (unfold s2, s1; cbn [gpio set_gpio chip with_chip]; by rewrite !out_to_bit).
  assert (E13 : Z.testbit (OUT (gpio (chip s2))) 13 = b) by (unfold s2, s1; cbn [gpio set_gpio chip with_chip]; by rewrite !out_to_bit).
  rewrite E14, E13 in Hc3. destruct (Hk (with_chip (set_gpio (out_to 14 true (gpio (chip s2))) (chip s2)) s2) _ _ Hc3) as (c & E & Hc4).
  exists c. split; [exact E|]. by rewrite cons_middle, app_assoc.
Qed.

Lemma data_write (b : bool) : (if b then on_chip (gpio_write 13 true) else on_chip (gpio_write 13 false)) = (on_chip (gpio_write 13 b) : ST world unit).
Proof. by destruct b. Qed.
(** The bits of a byte from the top down. *)
Definition byte_bits_msb (b : Z) : list bool := map (fun i => Z.testbit b (7 - Z.of_nat i)) (seq 0 8).
Lemma sends_msb data : is_byte data -> sends (Display_SendByte data) (byte_bits_msb data).
Proof.
  intros Hb. unfold Display_SendByte. rewrite <- (app_nil_r (byte_bits_msb data)). apply sends_seq; [|by apply sends_low; [lia|lia|]].
  assert (Hl : forall n k d, (k + n = 8)%nat -> is_byte d -> (forall i, 0 <= i < Z.of_nat n -> Z.testbit d (7 - i) = Z.testbit data (7 - Z.of_nat k - i)) ->
    sends (send_loop n d) (map (fun i => Z.testbit data (7 - Z.of_nat i)) (seq k n))).
  { induction n as [|n IH]; intros k d Hk Hd Hbits; [apply sends_ret|]. cbn [send_loop seq map]. rewrite data_write.
    assert (E : negb (Z.land d 0x80 =? 0) = Z.testbit data (7 - Z.of_nat k)).
    { change 0x80 with (BIT 7). rewrite land_BIT by lia. rewrite <- (Z.sub_0_r (7 - Z.of_nat k)), <- Hbits by lia. done. }
    rewrite E. apply sends_bit. apply IH; [lia|unfold u8, is_byte; apply Z.mod_pos_bound; lia|].
    intros i Hi. unfold u8. rewrite Z.mod_pow2_bits_low, Z.shiftl_spec by lia.
    replace (7 - i - 1) with (7 - (i + 1)) by lia. rewrite Hbits by lia. f_equal. lia. }
  apply (Hl 8%nat 0%nat data); [done|done|]. intros i Hi. f_equal; lia.
Qed.
Lemma sends_lsb data : sends (Display_sendbyteLSB data) (byte_bits data).
Proof.
  unfold Display_sendbyteLSB. rewrite <- (app_nil_r (byte_bits data)). apply sends_seq; [|by apply sends_low; [lia|lia|]].
  assert (Hl : forall n k d, (forall i, 0 <= i -> Z.testbit d i = Z.testbit data (Z.of_nat k + i)) ->
    sends (send_lsb_loop n d) (map (fun i => Z.testbit data (Z.of_nat i)) (seq k n))).
  { induction n as [|n IH]; intros k d Hbits; [apply sends_ret|]. cbn [send_lsb_loop seq map]. rewrite data_write.
    assert (E : negb (Z.land d 0x01 =? 0) = Z.testbit data (Z.of_nat k)).
    { change 0x01 with (BIT 0). rewrite land_BIT by lia. rewrite Hbits by lia. f_equal. lia. }
    rewrite E. apply sends_bit. apply IH. intros i Hi. rewrite Z.shiftr_spec, Hbits by lia. f_equal. lia. }
  apply (Hl 8%nat 0%nat data). intros i Hi. f_equal.
Qed.

(** ** The frame *)

Definition bits_of (l : list Z) : list bool := concat (map byte_bits l).
Lemma bits_of_app l1 l2 : bits_of (l1 ++ l2) = bits_of l1 ++ bits_of l2.
Proof. unfold bits_of. by rewrite map_app, concat_app. Qed.
Lemma bits_of_cons b l : bits_of (b :: l) = byte_bits b ++ bits_of l.
Proof. done. Qed.

(** The bytes sent for the rows from number [n] on: after each a zero and the address of
    the next one. *)
Fixpoint frame (n : Z) (rows : list (list Z)) : list Z :=
  match rows with
  | [] => []
  | row :: rows => row ++ 0 :: (if n + 2 <=? 96 then [n + 2] else []) ++ frame (n + 1) rows
  end.
Lemma sends_row n rest l2 row : 0 <= n <= 95 -> sends (refresh_loop rest (12 * (n + 1)) (n + 2)) l2 ->
  forall j, 0 <= j -> j + Z.of_nat (length row) = 12 -> (0 < length row)%nat ->
  sends (refresh_loop (row ++ rest) (12 * n + j) (n + 1)) (bits_of row ++ byte_bits 0 ++ bits_of (if n + 2 <=? 96 then [n + 2] else []) ++ l2).
Proof.
  intros Hn Hrest. induction row as [|b row IH]; intros j Hj Hl H0; [cbn in H0; lia|]. cbn [app refresh_loop length] in *.
  rewrite bits_of_cons, <- app_assoc. apply sends_seq; [apply sends_lsb|].
  change (SHARPMEM_LCDWIDTH / 8) with 12. destruct row as [|b' row].
  - assert (Ej : j = 11) by (cbn [length] in Hl; lia). subst j. replace (12 * n + 11 + 1) with (12 * (n + 1)) by lia.
    rewrite (Z.mul_comm 12 (n + 1)), Z.div_mul by lia. replace (n + 1 + 1) with (n + 2) by lia.
    rewrite (proj2 (Z.eqb_neq (n + 2) (n + 1))) by lia. change (bits_of []) with (@nil bool) at 1. cbn [negb app]. apply sends_seq; [apply sends_lsb|].
    apply sends_seq; [|by rewrite Z.mul_comm].
    change SHARPMEM_LCDHEIGHT with 96. destruct (Z.leb_spec (n + 2) 96); [|apply sends_ret]. rewrite bits_of_cons, app_nil_r.
    replace (u8 (n + 2)) with (n + 2) by (unfold u8; rewrite Z.mod_small; lia). apply sends_lsb.
  - cbn [length] in *. assert (Ed : (12 * n + j + 1) / 12 = n) by (symmetry; apply (Z.div_unique _ _ _ (j + 1)); lia).
    rewrite Ed, Z.eqb_refl. cbn [negb]. replace (12 * n + j + 1) with (12 * n + (j + 1)) by lia. apply IH; lia.
Qed.
Lemma sends_rows rows : forall n, 0 <= n -> n + Z.of_nat (length rows) = 96 -> Forall (fun row => length row = 12%nat) rows ->
  sends (refresh_loop (concat rows) (12 * n) (n + 1)) (bits_of (frame n rows)).
Proof.
  induction rows as [|row rows IH]; intros n Hn Hl Hr; [apply sends_ret|]. cbn [length] in Hl. apply Forall_cons in Hr as [Hrow Hr].
  cbn [concat frame]. rewrite bits_of_app, bits_of_cons, bits_of_app.
  pose proof (sends_row n (concat rows) (bits_of (frame (n + 1) rows)) row ltac:(lia)) as Hs. rewrite <- (Z.add_0_r (12 * n)).
  apply Hs; [|lia|lia|lia]. replace (n + 2) with (n + 1 + 1) by lia. apply IH; [lia|lia|done].
Qed.

(** The same bytes, as the panel groups them. *)
Fixpoint chunks (n : Z) (rows : list (list Z)) : list Z :=
  match rows with
  | [] => []
  | row :: rows => (n + 1) :: row ++ 0 :: chunks (n + 1) rows
  end.
Lemma frame_chunks rows : forall n, rows <> [] -> n + Z.of_nat (length rows) = 96 -> (n + 1) :: frame n rows = chunks n rows.
Proof.
  induction rows as [|row rows IH]; intros n Hnil Hl; [done|]. cbn [frame chunks length] in *. f_equal. f_equal. f_equal.
  destruct rows as [|row' rows].
  - by rewrite (proj2 (Z.leb_gt (n + 2) 96)) by (cbn [length] in Hl; lia).
  - rewrite (proj2 (Z.leb_le (n + 2) 96)) by (cbn [length] in Hl; lia). cbn [app]. replace (n + 2) with (n + 1 + 1) by lia. apply IH; [done|]. cbn [length] in *. lia.
Qed.

Fixpoint set_rows (n : Z) (rows : list (list Z)) (lines : Z -> list bool) : Z -> list bool :=
  match rows with
  | [] => lines
  | row :: rows => set_rows (n + 1) rows (set_line (n + 1) (bits_of row) lines)
  end.
Lemma length_bits_of l : length (bits_of l) = (8 * length l)%nat.
Proof. induction l as [|b l IH]; [done|]. rewrite bits_of_cons, length_app, IH, length_byte_bits. cbn [length]. lia. Qed.
Lemma take_chunks rows : forall n fuel lines, 0 <= n -> n + Z.of_nat (length rows) <= 254 -> Forall (fun row => length row = 12%nat) rows ->
  (length rows < fuel)%nat -> take_lines fuel (bits_of (chunks n rows ++ [0])) lines = set_rows n rows lines.
Proof.
  induction rows as [|row rows IH]; intros n fuel lines Hn Hl Hr Hf; (destruct fuel as [|fuel]; [lia|]); [done|]. cbn [length] in *.
  apply Forall_cons in Hr as [Hrow Hr]. cbn [take_lines chunks set_rows app]. rewrite <- app_assoc. cbn [app].
  rewrite bits_of_cons, bits_of_app, bits_of_cons. pose proof (length_bits_of row) as Hrl. rewrite Hrow in Hrl.
  set (rest := bits_of (chunks (n + 1) rows ++ [0])).
  assert (Hlt : (length (byte_bits (n + 1) ++ bits_of row ++ byte_bits 0 ++ rest) <? 112)%nat = false).
  { apply Nat.ltb_ge. rewrite !length_app, !length_byte_bits, Hrl. lia. }
  rewrite Hlt. assert (T8 : forall k, take 8 (byte_bits (n + 1) ++ k) = byte_bits (n + 1)) by (intros k; by apply take_app_length').
  assert (D8 : forall k, drop 8 (byte_bits (n + 1) ++ k) = k) by (intros k; by apply drop_app_length').
  assert (T96 : forall k, take 96 (bits_of row ++ k) = bits_of row) by (intros k; apply take_app_length'; by rewrite Hrl).
  rewrite T8, D8, T96.
  rewrite byte_bits_val by (unfold is_byte; lia).
  replace 112%nat with (length (byte_bits (n + 1) ++ bits_of row ++ byte_bits 0)) by (rewrite !length_app, !length_byte_bits, Hrl; done).
  rewrite !app_assoc, drop_app_length. apply IH; [lia|lia|done|lia].
Qed.

Fixpoint rows_of (n : nat) (buf : list Z) : list (list Z) :=
  match n with O => [] | S n => take 12 buf :: rows_of n (drop 12 buf) end.
Lemma rows_of_spec n : forall buf, length buf = (12 * n)%nat ->
  concat (rows_of n buf) = buf /\ length (rows_of n buf) = n /\ Forall (fun row => length row = 12%nat) (rows_of n buf).
Proof.
  induction n as [|n IH]; intros buf Hl; [by destruct buf|]. cbn [rows_of concat length].
  destruct (IH (drop 12 buf)) as (E & El & Hf); [rewrite length_drop; lia|]. rewrite E, El, take_drop. split; [done|]. split; [done|].
  constructor; [rewrite length_take; lia|done].
Qed.
Lemma rows_of_lookup n : forall buf i, (i < n)%nat -> rows_of n buf !! i = Some (take 12 (drop (12 * i) buf)).
Proof.
  induction n as [|n IH]; intros buf i Hi; [lia|]. cbn [rows_of]. destruct i as [|i]; [done|]. cbn [lookup list_lookup].
  rewrite IH by lia. rewrite drop_drop. do 3 f_equal. lia.
Qed.
Lemma set_rows_lookup rows : forall n lines i row, rows !! i = Some row -> set_rows n rows lines (n + 1 + Z.of_nat i) = bits_of row.
Proof.
  assert (Hlow : forall rows n lines m, m < n + 1 -> set_rows n rows lines m = lines m).
  { clear rows. induction rows as [|row rows IH]; intros n lines m Hm; [done|]. cbn [set_rows]. rewrite IH by lia.
    unfold set_line. by rewrite (proj2 (Z.eqb_neq m (n + 1))) by lia. }
  induction rows as [|row' rows IH]; intros n lines i row Hi; [done|]. cbn [set_rows]. destruct i as [|i].
  - injection Hi as ->. change (Z.of_nat 0) with 0. rewrite Z.add_0_r, Hlow by lia. unfold set_line. by rewrite Z.eqb_refl.
  - replace (n + 1 + Z.of_nat (S i)) with (n + 1 + 1 + Z.of_nat i) by lia. by apply IH.
Qed.
Lemma nth_bits_of l : forall k, (k < 8 * length l)%nat -> nth k (bits_of l) false = Z.testbit (nth (k / 8) l 0) (Z.of_nat (k mod 8)).
Proof.
  induction l as [|b l IH]; intros k Hk; [cbn in Hk; lia|]. rewrite bits_of_cons. cbn [length] in Hk. destruct (Nat.lt_ge_cases k 8) as [Hlt|Hge].
  - rewrite app_nth1 by (rewrite length_byte_bits; lia). rewrite Nat.div_small, Nat.mod_small by lia. cbn [nth].
    unfold byte_bits. rewrite nth_lookup. change (map ?f ?l) with (f <$> l). by rewrite list_lookup_fmap, lookup_seq_lt by lia.
  - rewrite app_nth2 by (rewrite length_byte_bits; lia). rewrite length_byte_bits, IH by lia.
    replace k with (k - 8 + 1 * 8)%nat at 3 4 by lia. rewrite Nat.div_add, Nat.Div0.mod_add by lia. by rewrite Nat.add_1_r.
Qed.

(** The command of a frame sets every line of the panel. *)
Lemma frame_command vcom buf lines : vcom = 0 \/ vcom = 0x40 -> length buf = 1152%nat ->
  let lines' := take_command (byte_bits_msb (Z.lor SHARPMEM_BIT_WRITECMD vcom) ++ bits_of (1 :: frame 0 (rows_of 96 buf) ++ [0])) lines in
  forall x y, on_screen x y -> nth (Z.to_nat x) (lines' (y + 1)) false = bit_of buf x y.
Proof.
  intros Hv Hl lines' x y [Hx Hy]. destruct (rows_of_spec 96 buf Hl) as (_ & Hr & Hf).
  assert (E : lines' = set_rows 0 (rows_of 96 buf) lines).
  { unfold lines'. assert (Hne' : rows_of 96 buf <> []) by (intros E; rewrite E in Hr; done).
    rewrite app_comm_cons. replace (1 :: frame 0 (rows_of 96 buf)) with (chunks 0 (rows_of 96 buf)) by (rewrite <- frame_chunks; [done|done|rewrite Hr; done]).
    pose proof (length_bits_of (chunks 0 (rows_of 96 buf) ++ [0])) as Hlb. rewrite length_app in Hlb. set (bits := bits_of (chunks 0 _ ++ [0])) in *.
    assert (Hlc : forall n rows, (length rows <= length (chunks n rows))%nat).
    { intros n rows. revert n. induction rows as [|row rows IH]; intros n; [done|]. cbn [chunks length]. rewrite length_app. cbn [length]. specialize (IH (n + 1)). lia. }
    specialize (Hlc 0 (rows_of 96 buf)). rewrite <- (take_chunks (rows_of 96 buf) 0 (8 + length bits)); [|lia|rewrite Hr; lia|done|lia].
    destruct Hv as [-> | ->]; reflexivity. }
  rewrite E. replace (y + 1) with (0 + 1 + Z.of_nat (Z.to_nat y)) by lia. erewrite set_rows_lookup; [|apply rows_of_lookup; lia].
  rewrite nth_bits_of by (rewrite length_take, length_drop, Hl; lia). unfold bit_of, byte_at.
  rewrite !nth_lookup, lookup_take_lt, lookup_drop by (apply Nat.Div0.div_lt_upper_bound; lia).
  replace (Z.of_nat (Z.to_nat x mod 8)) with (x mod 8) by (rewrite Nat2Z.inj_mod, Z2Nat.id; lia).
  replace (12 * Z.to_nat y + Z.to_nat x / 8)%nat with (Z.to_nat ((y * 96 + x) / 8)); [done|].
  replace (y * 96 + x) with (x + (12 * y) * 8) by lia. rewrite Z.div_add by lia. pose proof (Z.div_pos x 8 ltac:(lia) ltac:(lia)).
  rewrite Z2Nat.inj_add by lia. rewrite Z2Nat.inj_div by lia. change (Z.to_nat 8) with 8%nat. lia.
Qed.

(** ** Selecting the panel *)

(** The panel is not selected, and its pin is an output. *)
Definition deselected (c : device) (e : panel cs) : Prop :=
  pushpull (gpio c) cs /\ Z.testbit (OUT (gpio c)) cs = false /\ EspRegs.world c = e.
(** A write of a register that leaves the pin of the panel alone. *)
Definition keeps (f : gpio_regs -> gpio_regs) : Prop := forall g,
  output_on (f g) cs = output_on g cs /\ CONF (f g) cs = CONF g cs /\ Z.testbit (OUT (f g)) cs = Z.testbit (OUT g) cs.
Lemma keeps_deselected f c e : keeps f -> deselected c e -> deselected (set_gpio (f (gpio c)) c) e.
Proof.
  intros Hf ([Ho Hc] & Hb & He). destruct (Hf (gpio c)) as (Fo & Fc & Fb). assert (Hp : pushpull (gpio c) cs) by done.
  assert (Hp' : pushpull (f (gpio c)) cs) by (unfold pushpull; by rewrite Fo, Fc). split; [exact Hp'|]. cbn [gpio set_gpio EspRegs.world].
  split; [congruence|]. cbn [pad_update panel_pads]. by rewrite !pushpull_level, Fb, Hb by done.
Qed.
Lemma keeps_out p b : 0 <= p -> p <> cs -> keeps (out_to p b).
Proof. intros Hp Hpc g. split; [done|]. split; [done|]. rewrite out_to_bit by lia. by rewrite (proj2 (Z.eqb_neq p cs)). Qed.
Lemma keeps_mux p : 0 <= p < 16 -> p <> cs -> keeps (mux_gpio (mux_of p)).
Proof.
  intros Hp Hpc g. unfold output_on, mux_gpio. cbn [ENABLE_OUT PIN CONF OUT with_PIN].
  rewrite (proj2 (Z.eqb_neq (mux_of cs) (mux_of p))) by (intros E; by apply mux_inj in E). done.
Qed.
Lemma keeps_enable p dir : 0 <= p < 16 -> p <> cs -> Forall keeps (enable_writes p dir).
Proof.
  intros Hp Hpc.
  assert (Hm : forall b, keeps (mux_flags (mux_of p) b)).
  { intros b g. unfold output_on, mux_flags. cbn [ENABLE_OUT PIN CONF OUT with_PIN].
    rewrite (proj2 (Z.eqb_neq (mux_of cs) (mux_of p))) by (intros E; by apply mux_inj in E). done. }
  assert (Hc : forall b, keeps (conf_drain p b)).
  { intros b g. unfold output_on, conf_drain. cbn [ENABLE_OUT PIN CONF OUT with_CONF]. by rewrite (proj2 (Z.eqb_neq cs p)). }
  assert (Hs : keeps (set_enable p)).
  { intros g. unfold output_on, set_enable. cbn [ENABLE_OUT PIN CONF OUT with_ENABLE_OUT]. autorewrite with esp_bits.
    by rewrite (proj2 (Z.eqb_neq p cs)), orb_false_r. }
  assert (Hl : keeps (clear_enable p)).
  { intros g. unfold output_on, clear_enable. cbn [ENABLE_OUT PIN CONF OUT with_ENABLE_OUT]. autorewrite with esp_bits.
    by rewrite (proj2 (Z.eqb_neq p cs)), andb_true_r. }
  pose proof (keeps_mux p Hp Hpc). destruct dir; cbn [enable_writes]; repeat (apply Forall_cons; split; [first [apply Hm | apply Hc | done]|]); by apply Forall_nil.
Qed.
Lemma do_writes_deselected fs : forall c e, Forall keeps fs -> deselected c e -> deselected (do_writes fs c) e.
Proof.
  induction fs as [|f fs IH]; intros c e Hf Hc; [done|]. apply Forall_cons in Hf as [Hk Hf]. apply (IH (set_gpio (f (gpio c)) c) e Hf). by apply keeps_deselected.
Qed.
Lemma enable_deselected p dir (c : device) e : 0 <= p < 16 -> p <> cs -> deselected c e ->
  exists c', esp_gpio_enable p dir c = Some ((), c') /\ deselected c' e /\
    (dir = GPIO_OUTPUT -> pushpull (gpio c') p) /\ forall q, 0 <= q < 16 -> q <> p -> pushpull (gpio c) q -> pushpull (gpio c') q.
Proof.
  intros Hp Hpc Hc. exists (do_writes (enable_writes p dir) c). split; [by apply gpio_enable_run|].
  split; [apply do_writes_deselected; [by apply keeps_enable|done]|]. rewrite do_writes_gpio. split.
  - intros ->. destruct (enable_drives p GPIO_OUTPUT (gpio c) Hp) as (_ & Ho & Hd & _). done.
  - intros q Hq Hqp [Ho Hd]. destruct (enable_other p dir (gpio c) q Hp Hq Hqp) as [Eo Ec]. unfold pushpull. by rewrite Eo, Ec.
Qed.
Lemma iomux_deselected p (c : device) e : 12 <= p <= 14 -> deselected c e ->
  exists c', gpio_set_iomux_function p (IOMUX_FUNC 3) c = Some ((), c') /\ deselected c' e.
Proof.
  intros Hp Hc. assert (Hp16 : 0 <= p < 16) by lia. unfold gpio_set_iomux_function. rewrite opt_mux_run by done.
  rewrite write_PIN_run by apply (mux_some p Hp16). eexists. split; [reflexivity|].
  assert (Ef : IOMUX_FUNC 3 = gpio_func (mux_of p)) by (assert (p = 12 \/ p = 13 \/ p = 14) as [-> | [-> | ->]] by lia; done).
  rewrite Ef. apply (keeps_deselected (mux_gpio (mux_of p))); [|done]. apply keeps_mux; lia.
Qed.

Lemma on_chip_run {A} (m : ST device A) (s : world) x c : m (chip s) = Some (x, c) -> on_chip m s = Some (x, with_chip c s).
Proof. intros E. unfold on_chip. by rewrite E. Qed.
Lemma setup_run (s : world) e : deselected (chip s) e ->
  exists c, setupbitbang s = Some ((), with_chip c s) /\ deselected c e /\ pushpull (gpio c) 13 /\ pushpull (gpio c) 14.
Proof.
  intros H0. unfold setupbitbang.
  destruct (iomux_deselected 12 (chip s) e ltac:(lia) H0) as (c1 & E1 & H1). rewrite (bind_run _ _ _ _ _ (on_chip_run _ s _ _ E1)).
  destruct (iomux_deselected 13 c1 e ltac:(lia) H1) as (c2 & E2 & H2). rewrite (bind_run _ _ _ _ _ (on_chip_run _ (with_chip c1 s) _ _ E2)).
  destruct (iomux_deselected 14 c2 e ltac:(lia) H2) as (c3 & E3 & H3). rewrite (bind_run _ _ _ _ _ (on_chip_run _ (with_chip c2 s) _ _ E3)).
  destruct (enable_deselected 14 GPIO_OUTPUT c3 e ltac:(lia) ltac:(lia) H3) as (c4 & E4 & H4 & P4 & _).
  rewrite (bind_run _ _ _ _ _ (on_chip_run _ (with_chip c3 s) _ _ E4)).
  rewrite (bind_run _ _ _ _ _ (on_chip_write GPIO_SPI_CLK false (with_chip c4 s) ltac:(unfold GPIO_SPI_CLK; lia))). cbn [chip with_chip].
  set (c5 := set_gpio (out_to GPIO_SPI_CLK false (gpio c4)) c4).
  assert (H5 : deselected c5 e) by (apply (keeps_deselected (out_to 14 false)); [apply keeps_out; lia|done]).
  destruct (enable_deselected 13 GPIO_OUTPUT c5 e ltac:(lia) ltac:(lia) H5) as (c6 & E6 & H6 & P6 & Q6).
  rewrite (bind_run _ _ _ _ _ (on_chip_run _ (with_chip c5 s) _ _ E6)).
  destruct (enable_deselected 12 GPIO_INPUT c6 e ltac:(lia) ltac:(lia) H6) as (c7 & E7 & H7 & _ & Q7).
  exists c7. split; [exact (on_chip_run _ (with_chip c6 s) _ _ E7)|]. split; [done|].
  split; (apply Q7; [lia|lia|]); [by apply P6|]. apply Q6; [lia|lia|]. by apply P4.
Qed.

Lemma select_run (s : world) e : DISPLAY_SPI_CS_GPIO_NUM s = cs -> deselected (chip s) e -> pushpull (gpio (chip s)) 13 -> pushpull (gpio (chip s)) 14 ->
  exists c, ChipSelect true s = Some ((), with_chip c s) /\ clocked c [] (pn_line e).
Proof.
  intros Hn ([Ho Hd] & Hb & He) H13 H14. unfold ChipSelect. rewrite (bind_run _ _ _ _ _ (eq_refl : st_get s = Some (s, s))). rewrite Hn, (proj2 (Z.eqb_neq cs 16)) by lia.
  cbn [negb]. rewrite on_chip_write by done. eexists. split; [reflexivity|]. split; [done|]. cbn [gpio set_gpio EspRegs.world].
  split; [rewrite out_to_bit by lia; by rewrite Z.eqb_refl|]. cbn [pad_update panel_pads].
  rewrite !pushpull_level by done. rewrite Hb, out_to_bit, Z.eqb_refl by lia. by rewrite He.
Qed.
Lemma deselect_run (s : world) bits lines : DISPLAY_SPI_CS_GPIO_NUM s = cs -> clocked (chip s) bits lines ->
  exists c, ChipSelect false s = Some ((), with_chip c s) /\ deselected c (Panel [] (take_command bits lines)).
Proof.
  intros Hn ((H13 & H14 & Hp) & Hb & He). unfold ChipSelect. rewrite (bind_run _ _ _ _ _ (eq_refl : st_get s = Some (s, s))). rewrite Hn, (proj2 (Z.eqb_neq cs 16)) by lia.
  cbn [negb]. rewrite on_chip_write by done. eexists. split; [reflexivity|]. split; [done|]. cbn [gpio set_gpio EspRegs.world].
  split; [rewrite out_to_bit by lia; by rewrite Z.eqb_refl|]. cbn [pad_update panel_pads].
  rewrite !pushpull_level by done. rewrite Hb, out_to_bit, Z.eqb_refl by lia. by rewrite He.
Qed.

(** ** Refresh and clear *)

(** The driver was initialised with pin [cs], an output, and nobody uses the bus. *)
Definition ready (s : world) : Prop :=
  DISPLAY_SPI_CS_GPIO_NUM s = cs /\ pSPIMutex s = true /\ mutex_taken s = false /\ (_sharpmem_vcom s = 0 \/ _sharpmem_vcom s = 0x40) /\
  deselected (chip s) (EspRegs.world (chip s)).
Definition shown (s : world) : Z -> list bool := pn_line (EspRegs.world (chip s)).

(** A body that sends [bits]. *)
Lemma with_display_run body (s : world) bits (f : world -> world) : ready s -> (forall t c, f (with_chip c t) = with_chip c (f t)) ->
  (forall t, DISPLAY_SPI_CS_GPIO_NUM (f t) = DISPLAY_SPI_CS_GPIO_NUM t) ->
  (forall c lines, clocked c [] lines -> exists c', body (with_chip c (with_taken true s)) = Some ((), with_chip c' (f (with_taken true s))) /\ clocked c' bits lines) ->
  exists c, with_display body s = Some ((), with_taken false (with_chip c (f (with_taken true s)))) /\ deselected c (Panel [] (take_command bits (shown s))).
Proof.
  intros (Hn & Hm & Ht & _ & Hd) Hfc Hfn Hbody. unfold with_display. rewrite (bind_run _ _ _ _ _ (eq_refl : st_get s = Some (s, s))). rewrite Hm. cbn [negb].
  assert (El : sys_mutex_lock s = Some ((), with_taken true s)) by (unfold sys_mutex_lock, mbind, st_bind, st_get; by rewrite Ht).
  rewrite (bind_run _ _ _ _ _ El). destruct (setup_run (with_taken true s) _ Hd) as (c1 & E1 & Hd1 & H13 & H14). rewrite (bind_run _ _ _ _ _ E1).
  destruct (select_run (with_chip c1 (with_taken true s)) _ Hn Hd1 H13 H14) as (c2 & E2 & Hc2). rewrite (bind_run _ _ _ _ _ E2).
  destruct (Hbody c2 _ Hc2) as (c3 & E3 & Hc3).
  change (with_chip c2 (with_chip c1 (with_taken true s))) with (with_chip c2 (with_taken true s)). rewrite (bind_run _ _ _ _ _ E3).
  destruct (deselect_run (with_chip c3 (f (with_taken true s))) bits _ ltac:(by rewrite <- Hfc, Hfn) Hc3) as (c4 & E4 & Hd4). rewrite (bind_run _ _ _ _ _ E4).
  exists c4. split; [reflexivity|exact Hd4].
Qed.

Lemma toggle_run (s : world) : TOGGLE_VCOM s = Some ((), with_vcom (if negb (_sharpmem_vcom s =? 0) then 0x00 else SHARPMEM_BIT_VCOM) s).
Proof. done. Qed.
(** A call that sends bits, inside of a sequence. *)
Lemma sends_bind m l (k : ST world unit) (s : world) c bits lines : sends m l -> clocked c bits lines ->
  exists c', (m;; k) (with_chip c s) = k (with_chip c' s) /\ clocked c' (bits ++ l) lines.
Proof. intros Hm Hc. destruct (Hm (with_chip c s) bits lines Hc) as (c' & E & Hc'). exists c'. split; [|done]. by rewrite (bind_run _ _ _ _ _ E). Qed.

Definition toggled (s : world) : world := with_vcom (if negb (_sharpmem_vcom s =? 0) then 0x00 else SHARPMEM_BIT_VCOM) s.
Lemma refresh_body (s : world) c lines : length (sharpmem_buffer s) = 1152%nat -> _sharpmem_vcom s = 0 \/ _sharpmem_vcom s = 0x40 -> clocked c [] lines ->
  exists c', Display_refresh (with_chip c s) = Some ((), with_chip c' (toggled s)) /\
    clocked c' (byte_bits_msb (Z.lor SHARPMEM_BIT_WRITECMD (_sharpmem_vcom s)) ++ bits_of (1 :: frame 0 (rows_of 96 (sharpmem_buffer s)) ++ [0])) lines.
Proof.
  intros Hl Hv Hc. unfold Display_refresh. rewrite (bind_run _ _ _ _ _ (eq_refl : st_get (with_chip c s) = Some (with_chip c s, with_chip c s))).
  change (_sharpmem_vcom (with_chip c s)) with (_sharpmem_vcom s).
  assert (Hb : is_byte (Z.lor SHARPMEM_BIT_WRITECMD (_sharpmem_vcom s))) by (destruct Hv as [-> | ->]; by unfold is_byte).
  edestruct (sends_bind (Display_SendByte (Z.lor SHARPMEM_BIT_WRITECMD (_sharpmem_vcom s)))) as (c1 & E1 & Hc1); [by apply sends_msb|exact Hc|].
  rewrite E1. clear E1. rewrite (bind_run _ _ _ _ _ (toggle_run _)). change (with_vcom _ (with_chip c1 s)) with (with_chip c1 (toggled s)).
  edestruct (sends_bind (Display_sendbyteLSB 1)) as (c2 & E2 & Hc2); [apply sends_lsb|exact Hc1|]. rewrite E2. clear E2.
  rewrite (bind_run _ _ _ _ _ (eq_refl : st_get (with_chip c2 (toggled s)) = Some (with_chip c2 (toggled s), with_chip c2 (toggled s)))).
  change (sharpmem_buffer (with_chip c2 (toggled s))) with (sharpmem_buffer s).
  destruct (rows_of_spec 96 (sharpmem_buffer s) Hl) as (Ec & Elen & Hf).
  pose proof (sends_rows (rows_of 96 (sharpmem_buffer s)) 0 ltac:(lia) ltac:(rewrite Elen; lia) Hf) as Hrows. rewrite Ec in Hrows.
  edestruct (sends_bind (refresh_loop (sharpmem_buffer s) 0 1)) as (c3 & E3 & Hc3); [exact Hrows|exact Hc2|]. rewrite E3. clear E3.
  destruct (sends_lsb 0 (with_chip c3 (toggled s)) _ _ Hc3) as (c4 & E4 & Hc4). exists c4. split; [exact E4|].
  rewrite bits_of_cons, bits_of_app. cbn [app] in Hc4. by rewrite <- !app_assoc in Hc4.
Qed.

Lemma clear_body (s : world) c lines : _sharpmem_vcom s = 0 \/ _sharpmem_vcom s = 0x40 -> clocked c [] lines ->
  exists c', Display_Clear (with_chip c s) = Some ((), with_chip c' (toggled (with_buffer (replicate 1152 0xff) s))) /\
    clocked c' (byte_bits_msb (Z.lor (_sharpmem_vcom s) SHARPMEM_BIT_CLEAR) ++ byte_bits 0) lines.
Proof.
  intros Hv Hc. unfold Display_Clear. change (Z.to_nat (SHARPMEM_LCDWIDTH * SHARPMEM_LCDHEIGHT / 8)) with 1152%nat.
  rewrite (bind_run _ _ _ _ _ (eq_refl : st_modify (with_buffer (replicate 1152 0xff)) (with_chip c s) = Some ((), with_chip c (with_buffer (replicate 1152 0xff) s)))).
  set (s1 := with_buffer (replicate 1152 0xff) s).
  rewrite (bind_run _ _ _ _ _ (eq_refl : st_get (with_chip c s1) = Some (with_chip c s1, with_chip c s1))). change (_sharpmem_vcom (with_chip c s1)) with (_sharpmem_vcom s).
  assert (Hb : is_byte (Z.lor (_sharpmem_vcom s) SHARPMEM_BIT_CLEAR)) by (destruct Hv as [-> | ->]; by unfold is_byte).
  edestruct (sends_bind (Display_SendByte (Z.lor (_sharpmem_vcom s) SHARPMEM_BIT_CLEAR))) as (c1 & -> & Hc1); [by apply sends_msb|exact Hc|].
  edestruct (sends_bind (Display_sendbyteLSB 0)) as (c2 & -> & Hc2); [apply sends_lsb|exact Hc1|].
  exists c2. split; [exact (toggle_run (with_chip c2 s1))|exact Hc2].
Qed.
End panel.

Lemma toggled_vcom {H cs} (s : sharp H (panel cs)) : _sharpmem_vcom (toggled cs s) = 0 \/ _sharpmem_vcom (toggled cs s) = 0x40.
Proof. unfold toggled. cbn [_sharpmem_vcom with_vcom]. destruct (negb _); auto. Qed.

(** C35: After a refresh the panel shows what was drawn: with the select line at a pin from
    0 to 15 that is an output and that the driver does not use otherwise,
    Adafruit_Sharpmemory_Display_refresh returns, gives the mutex and the bus back, and
    the pixels of the panel are the picture that the frame buffer holds, at any
    rotation, down to the registers of the GPIO. *)
Theorem sharp_refresh_shows {H} cs (s : sharp H (panel cs)) r f : 0 <= cs < 16 -> cs <> 12 /\ cs <> 13 /\ cs <> 14 -> ready cs s ->
  shows r (sharpmem_buffer s) f ->
  exists s', Adafruit_refresh s = Some ((), s') /\ ready cs s' /\ sharpmem_buffer s' = sharpmem_buffer s /\
    forall x y, on_screen x y -> nth (Z.to_nat (rotate r x y).1) (shown cs s' ((rotate r x y).2 + 1)) false = f x y.
Proof.
  intros Hcs Hne Hr [Hok Hf]. pose proof Hok as [Hl _]. pose proof Hr as (Hn & Hm & Ht & Hv & Hd).
  destruct (with_display_run cs Hcs Hne Display_refresh s _ (toggled cs) Hr ltac:(done) ltac:(done) (fun c lines => refresh_body cs Hcs Hne (with_taken true s) c lines Hl Hv))
    as (c & E & Hc).
  eexists. split; [exact E|]. destruct Hc as (Hp & Hb & He). split.
  { unfold ready. split; [exact Hn|]. split; [exact Hm|]. split; [done|]. split; [exact (toggled_vcom s)|done]. }
  split; [done|]. intros x y Hs. unfold shown at 1. cbn [chip with_taken with_chip]. rewrite He. cbn [pn_line].
  pose proof (rotate_screen r x y Hs) as Hrs. pose proof (frame_command cs Hne (_sharpmem_vcom s) (sharpmem_buffer s) (shown cs s) Hv Hl _ _ Hrs) as Hframe.
  cbv zeta in Hframe. etransitivity; [exact Hframe|]. pose proof (Hf x y Hs) as Hf'. rewrite getPixel_bit in Hf' by done. injection Hf' as Hf'.
  by destruct (bit_of _ _ _), (f x y).
Qed.

(** Clearing makes the panel and the frame buffer white. *)
Theorem sharp_clear_white {H} cs (s : sharp H (panel cs)) : 0 <= cs < 16 -> cs <> 12 /\ cs <> 13 /\ cs <> 14 -> ready cs s ->
  exists s', Adafruit_Clear s = Some ((), s') /\ ready cs s' /\ sharpmem_buffer s' = replicate 1152 0xff /\ forall n, shown cs s' n = replicate 96 true.
Proof.
  intros Hcs Hne Hr. pose proof Hr as (Hn & Hm & Ht & Hv & Hd).
  destruct (with_display_run cs Hcs Hne Display_Clear s _ (fun t => toggled cs (with_buffer (replicate 1152 0xff) t)) Hr ltac:(done) ltac:(done)
    (fun c lines => clear_body cs Hcs Hne (with_taken true s) c lines Hv)) as (c & E & Hc).
  eexists. split; [exact E|]. destruct Hc as (Hp & Hb & He). split.
  { unfold ready. split; [exact Hn|]. split; [exact Hm|]. split; [done|]. split; [exact (toggled_vcom (with_buffer (replicate 1152 0xff) s))|done]. }
  split; [done|]. intros n. unfold shown at 1. cbn [chip with_taken with_chip]. rewrite He. cbn [pn_line].
  change (_sharpmem_vcom (with_taken true s)) with (_sharpmem_vcom s). by destruct Hv as [-> | ->].
Qed.

(** ** Witness: a panel at pin 4 *)

Definition demo_regs : gpio_regs :=
  {| OUT := 0; ENABLE_OUT := BIT 4; STATUS := 0; CONF := fun _ => 0; PIN := fun i => if i =? mux_of 4 then Z.lor 1 (gpio_func (mux_of 4)) else 0 |}.
Definition demo_sharp : sharp unit (panel 4) :=
  Sharp (<[95%nat := 0x11]> (replicate 1152 0)) 0 0 4 true false 0 0 0 0
    (Soc demo_regs (fun _ => {| LOAD := 0; COUNT := 0; CTRL := 0; ALARM := 0 |}) 0 0 0 (fun _ => None) false (Panel [] (fun _ => []))).
Lemma demo_ready : ready 4 demo_sharp.
Proof. unfold ready, deselected, pushpull. split_and!; first [by left | reflexivity]. Qed.
Lemma sharp_refresh_shows_witness :
  exists s', Adafruit_refresh demo_sharp = Some ((), s') /\ mutex_taken s' = false /\
    nth 88 (shown 4 s' 8) false = true /\ nth 92 (shown 4 s' 8) false = true /\ nth 89 (shown 4 s' 8) false = false.
Proof.
  assert (Hok : buffer_ok (sharpmem_buffer demo_sharp)) by (split; [done|by apply bytes_check]).
  destruct (sharp_refresh_shows 4 demo_sharp 0 (bit_of (sharpmem_buffer demo_sharp)) ltac:(lia) ltac:(lia) demo_ready) as (s' & E & (_ & _ & Ht & _) & _ & Hs).
  { split; [exact Hok|]. intros x y Hs. by rewrite getPixel_bit. }
  exists s'. split; [exact E|]. split; [exact Ht|]. clear E.
  pose proof (Hs 88 7 ltac:(unfold on_screen; lia)) as H1. pose proof (Hs 92 7 ltac:(unfold on_screen; lia)) as H2.
  pose proof (Hs 89 7 ltac:(unfold on_screen; lia)) as H3. split; [exact H1|]. split; [exact H2|exact H3].
Defined.
